(* ===== verification/_CoqProject ===== *)
-Q . S2P
Prelude.v
GoStrings.v
Encoding.v
Hashes.v
GoTime.v
AesGcm.v
Json.v
JsonText.v
Storage.v
S3core.v
Garage.v
GarageManager.v
S3generic.v
MemStore.v
S3Laws.v
Database.v
Repository.v
AccountStore.v
JobStore.v
SqlRows.v
AuditLog.v
AuditConcurrency.v
Service.v
Frames.v
Example.v
Buckets.v
Objects.v
Tenants.v
Migrations.v
Webhooks.v
Replications.v
Isolation.v
BucketProofs.v
ObjectProofs.v
Members.v
MemberProofs.v
Billing.v
TenantProofs.v
MigrationProofs.v
Envelope.v
Proxy.v
WebhookProofs.v
StorageProofs.v
Clusters.v
ClusterProofs.v
NodeProofs.v
ReplicationProofs.v
LayoutProofs.v
Accounts.v
Settings.v
Backups.v
Reports.v
Requests.v
HttpAuth.v
HttpApi.v
HttpProofs.v
HttpApiProofs.v
Config.v
Observability.v
Boot.v
Convert.v
OrgScope.v
RowSecurity.v
Dialect.v
Secrets.v
AccountProofs.v
SettingsProofs.v
BackupProofs.v
ReportProofs.v
ConfigProofs.v
BootProofs.v
ConvertProofs.v
SecretProofs.v
Cli.v
CliProofs.v
S3Proxy.v
Loops.v
Server.v
ServerProofs.v
