(* ===== verification/Prelude.v ===== *)
(** * A verification of buktio

    buktio is a control plane for S3 storage: a Go server that gives
    organizations buckets, access keys and an object browser on Garage clusters
    and other S3 backends, with members, quotas, billing, backups and an audit
    log.  This library models the Go code of its control plane (src/internal) and
    of its programs (src/cmd, src/apps/api), from the command line, the start of the server and
    the routing of a request down to the tables and the storage backends, and
    proves what makes it correct.

    ** The program and the model

    On start, [config.Load] reads the environment, the database is opened and
    migrated, [app.Provision] bootstraps or attaches the storage engine once, the
    services are wired, background loops start and the server listens.  A request
    is routed, passes the authentication middleware, and its handler calls a
    method of [service.Services].  A method checks the
    caller, loads rows from the database through [repository.Store], resolves the
    [storage.StorageProvider] of a bucket's cluster through the registry, calls
    the backend, writes rows, appends to the audit log and emits events.  In the
    model such a method is a value of [M S E A] (below): a function of the state
    that returns an error or a result and the new state; an early [return err]
    keeps what was done before it.  The state of a service method is a [World]
    (Service.v): the database, the state [B] of the backends, the cache of
    providers, a counter of random draws and the list of effects that left the
    process (metering, SIEM, webhooks, mails, usage posts, started workers).

    - Prelude.v: the monad with its notations, the tactics [run_inv] and [guar],
      the hint database [guar], int64 and int32 arithmetic with wrap-around,
      lists.  [Guar R m] says every run of [m] relates its two states by [R].
    - GoStrings.v: what the sources use of Go's strings and strconv.  Encoding.v:
      base64 and hexadecimal.  Hashes.v: SHA-256, HMAC and FNV-1a.  AesGcm.v: AES
      in Galois/counter mode.  GoTime.v: dates and the layouts of times.  Json.v and
      JsonText.v: JSON values and their decoding into structs, and the text that
      encoding/json writes and reads.  These follow the published algorithms and are
      checked on their test vectors.
    - Storage.v (storage/provider.go, errors.go, registry.go, ssec.go): the data
      types, the provider interface as a record of operations, and the laws
      [ObjectStore] the services rely on.  S3core.v (storage/s3core/client.go),
      Garage.v (storage/garage) and S3generic.v (storage/s3generic) are the two
      providers; the AWS SDK and the Garage server are the classes [S3Service]
      and [GarageServer].  S3Laws.v states the documented behaviour of an S3
      endpoint and proves that every provider the registry builds on it satisfies
      [ObjectStore].  GarageManager.v (garagemanager/bootstrap.go, layout.go) edits
      the layout of a Garage cluster through its admin client.  MemStore.v is an
      in-memory backend that satisfies the laws; Example.v a small deployment on it,
      where the examples run.
    - Database.v: the tables, statements and transactions, with the schema of
      db/migrations.  Repository.v (Module Store), AccountStore.v (tokens,
      sign-up, identities, policies, branding) and JobStore.v (replication,
      backups, usage and traffic reports): one definition per method of
      repository.Store.  AuditLog.v: repository/audit.go with its theorems;
      SqlRows.v: the text of the inserts, column lists and scan functions, evaluated on
      the schema.  AuditConcurrency.v: the transactions of [WriteAudit], interleaved statement by
      statement under the advisory lock.
    - Service.v: service/service.go, guard.go, errors.go, validate.go,
      tenant_context.go, the seams authz, entitlements and metering, and Module
      Registry (cluster/registry.go).  Frames.v: which parts of the world each
      helper can change.
    - Buckets.v (service/buckets.go, keys.go), Objects.v (objects.go, trash.go,
      cors_lifecycle.go, versions.go), Members.v (members.go, auth.go), Tenants.v
      (tenants.go, tenant_cluster.go), Billing.v (billing.go, collector.go),
      Migrations.v (migrations.go), Webhooks.v (webhooks.go: the subscriptions, and
      the signed deliveries of an event with their retries), Clusters.v
      (clusters.go, nodes.go), Replications.v (replication.go), Accounts.v
      (signup.go, api_tokens.go, sso.go, and the SCIM tokens of tenants.go),
      Settings.v (policies.go, branding.go, features.go), Backups.v (backups.go,
      backup_scheduler.go), Reports.v (dashboard.go, usage.go, snippets.go): one
      definition per operation, with the names of the sources.
    - Requests.v: the request structs of httpapi.  HttpAuth.v (httpapi/auth.go, signup.go,
      sso.go, middleware.go, respond.go): the middleware around every product
      handler, and the handlers of authentication; a handler is a function of the
      request's context and user.  HttpApi.v (the other files of httpapi,
      service/ops.go, webui/webui.go): every product handler, the routing table
      and [New], from a request with its path and body to the response.
      Observability.v (observability, notify, the request logger of httpapi): what is
      logged and counted.
    - Config.v (config/config.go, and the classification of DSNs of db/sqlite.go)
      and Boot.v (app/provision.go; the edition gate and the wiring of
      app/server.go on [service.New] and [WithEnforcers]; edition, tenancy and
      billing defaults).  Loops.v: the
      background loops of the services.  Server.v (app/server.go, app/tls.go,
      db/pool.go, db/migrate.go, apps/api/cmd/server): the start of the process, and its life
      as a step relation over events: requests accepted and answered, loops that return,
      the signal, a listener that fails.  The loops end on the signal's context, before
      [Shutdown] has drained the requests.
    - OrgScope.v (repository/dbx.go, store.go): connections pinned to an
      organization for row-level security, as a step relation over a shared pool, with the
      statements of a request before it is scoped and the paths on which it never is
      (the setting is off, the database is SQLite, no organization).
      RowSecurity.v (migration 0018): what its policies let such a connection see.
      Dialect.v (repository/sqlite.go): the rewriting of SQL for SQLite.  Convert.v
      (db/convert.go and the migrations of db/sqlite.go): the upgrade from SQLite
      to Postgres.
    - Envelope.v (secret/envelope.go) and Secrets.v (secret/secret.go, files.go, kek.go; garagemanager/secrets.go,
      config.go; auth/password.go), over a file system with permissions and faults.
    - Proxy.v (proxy/parse.go, proxy.go) and S3Proxy.v (cmd/buktio-s3proxy,
      [RunFlusher]): attribution and counting of traffic, and the goroutines of the
      proxy process as a step relation.  Cli.v (cmd/buktio): the operator's
      commands, over the disk and a log of docker commands, requests and output.

    ** What is proved

    - Isolation.v: the operations that load a bucket by its id (it lists them, and the
      calls that do not) fail on an id that is not a bucket of the caller's project,
      change nothing, and answer like on an unknown id.
    - BucketProofs.v: no two live buckets ever share a name in a project, or on a
      cluster a backend id or a backend alias, along any sequence of creations and by-id calls; what creation,
      deletion and emptying do on every outcome; the quota guard is exact.
    - ObjectProofs.v: listings hide exactly the trash; trashing and restoring are
      inverse, for keys that URL encoding leaves alone (the client sends copy
      sources without encoding them) and under the conditions the theorem lists.
    - S3Laws.v: the providers refine the object-store laws; the usage of a bucket
      computed by listing is exact.
    - MemberProofs.v: an organization keeps an owner when members are named by the
      canonical spelling of their id, and loses its last one otherwise; roles respect the caller's
      ceiling, invitations respect the seats and are used once, sessions live
      and end as they should.
    - TenantProofs.v: operator calls need the operator flag; an organization has
      at most one default cluster; usage is posted at most once; payment events
      drive the organization they are about.
    - MigrationProofs.v: the migration worker copies everything, resumes from its
      saved cursor, and ends.
    - SqlRows.v: what the statements store and the scan functions read is what the
      operations of the table model say.
    - AuditLog.v: the hash chain stays intact, an append is atomic, deleted rows are
      reported, and so is the edit of any hashed column of a row, by the check of the
      chain the row is in afterwards, unless the edit is a SHA-256 collision.
      AuditConcurrency.v: concurrent writers never fork a chain nor block each other.
    - StorageProofs.v: a bucket is served by its own cluster; generic backends
      refuse what they cannot do; versions and rules round trip; the search of
      [PrimaryNode] meets its specification.  WebhookProofs.v: a subscription
      gets the events it asked for, in a body that parses back and is signed with its
      secret, at most three times.  Envelope.v: only sealed secrets open, to
      what was sealed.  Proxy.v: traffic counters are conserved.
    - HttpProofs.v: a handler runs only for a live credential, with the CSRF token
      where a session changes something, as that user, and in that user's tenant when
      the statements that look it up succeed (a failed one gives the default tenant).
      HttpApiProofs.v: outside the public paths nothing happens without such a
      credential, whatever is requested (a path that no route of a guarded router
      matches included), and the endpoints of a bucket stay in the
      caller's tenant.
    - OrgScope.v: the statements of a scoped request run pinned to its own organization in
      every interleaving, the others on unpinned connections; RowSecurity.v: so a row of a
      table with a policy, loaded by its id alone, is one of that organization.  Observability.v: links, headers and queries of requests are never
      logged.  Dialect.v: the rewriting agrees with a token-wise one.
      ConvertProofs.v: the conversion inserts every source row, in order, and violates no
      foreign key; SQLite migrations run once, in order.
    - SecretProofs.v: password hashes verify their password; secret files pass the
      permission check; the master key is read back as written.  CliProofs.v: a
      pinned setting is read back; an upgrade is backed up and health-gated.
      S3Proxy.v: the counters add up in every interleaving, the pool outlives the
      flusher.  ServerProofs.v: the server closes the database once, last; after a signal it
      answers the requests under way first, which outlive the loops.
    - AccountProofs.v: API tokens authenticate their creator until they expire or
      are revoked; sign-ups are limited per address and give no access before
      verification, whose link works once; single sign-on takes over no account
      and changes no role.  SettingsProofs.v: policies never bind owners; a
      custom domain belongs to one organization and serves its branding.
    - ClusterProofs.v: the provider cache agrees with the cluster table along any
      sequence of requests that spell cluster ids canonically; a connected backend is the one that was probed.
      NodeProofs.v: reconciliation makes the node table the reported topology.
      LayoutProofs.v: node edits advance the layout by one version; the bootstrap
      is idempotent and completes on a responsive node.
    - ReplicationProofs.v: the replication worker synchronises, resumes and ends.
      BackupProofs.v: a tick serves every due schedule; retention spares the
      newest dumps; the drift report is a symmetric difference.  ReportProofs.v:
      an exported audit log parses back to the rows of the query, with the fields the
      export writes (times in whole seconds).
    - ConfigProofs.v: a loaded configuration is well formed; durations round trip.
      BootProofs.v: the engine is provisioned once, its secrets stored sealed.
    - Each of these files closes with the cases where the code does not do what
      it means to, as theorems on concrete runs of the model.

    ** Failures, time and fuel

    A class [Env] holds what the outside decides: the clock, new ids, random
    tokens, password hashes, which database statements fail ([env_fault]), and the casts
    of a text to a uuid ([env_as_uuid]) or an address ([env_inet]).  The statements that cast
    an id compare its canonical spelling, whichever a request used; Go code compares the
    text.  A theorem
    for every [Env] is a theorem for every failure pattern; the assumption that
    reads succeed is written where it is needed.  A failed statement has no
    effect (a commit whose answer is lost is not modelled).  Backends are
    arbitrary state machines unless a theorem assumes [ObjectStore], or
    [S3Laws] of the S3 endpoint below it, or the documented layout behaviour of a
    Garage server (LayoutProofs.v).  The identity provider, the host's files and
    dump process ([Host]), the process environment, chi and the parsers of UUIDs,
    times and URLs ([Platform]), the Postgres and SQLite engines of the
    conversion, Argon2, the random source, certificates, the receivers of webhooks, and docker and the API as the command
    line sees them are parameters in the same way; each is instantiated in the
    examples, and what a theorem assumes of one is a class of laws or a hypothesis
    (what chi documents of RealIP and of its matcher, how Postgres answers the
    statements of the conversion, the length of an Argon2 key).

    [emptyBucket] runs the code's own 1000 rounds.  [UsageByScan] and the
    workers of migrations and replications take fuel: pages of a listing, and two
    steps per page; [scan_usage_exact] proves that a budget above the number of
    objects is enough, [migration_resumable] and [replication_synchronises] that
    two steps per page are.  [waitHealthy] takes the number of polls its timeout
    allows, and [bootstrap_completes] shows a bootstrap ends within it.
    Everything else is structural.

    ** What is not modelled

    Inserts and transactions under row-level security (reads, and updates that find
    nothing, are modelled); concurrency beyond the explicit interleavings of
    OrgScope.v, AuditConcurrency.v, S3Proxy.v, Migrations.v and Replications.v;
    timeouts and clock times of tickers; the text of SQL queries and updates (the
    inserts of SqlRows.v and the rewriting of Dialect.v are text), of HTTP and of the
    JSON responses (the JSON of requests and webhooks is text); temporary files; the
    texts of wrapped library errors; panics; the Prometheus registry, the text of a log line
    and the parsing of command-line flags, which are other packages; the elliptic
    curve and the encoding of the self-signed certificate. *)

From stdpp Require Export base list option strings numbers gmap sorting.
From Stdlib Require Export ZArith Lia.

(** * Computations

    A Go function that returns [(T, error)] and works on state is a value of
    [M S E T]: the state is returned on both outcomes, because what the code
    did before an early [return err] stays done. *)

Definition M (S E A : Type) : Type := S -> (E + A) * S.

Section Monad.
Context {S : Type}.

Definition ret {E A} (a : A) : M S E A := fun s => (inr a, s).
Definition throw {E A} (e : E) : M S E A := fun s => (inl e, s).
Definition bind {E A B} (m : M S E A) (k : A -> M S E B) : M S E B :=
  fun s => match m s with
           | (inl e, s') => (inl e, s')
           | (inr a, s') => k a s'
           end.

(** [if err != nil { return wrap(err) }] *)
Definition mapErr {E E' A} (f : E -> E') (m : M S E A) : M S E' A :=
  fun s => match m s with
           | (inl e, s') => (inl (f e), s')
           | (inr a, s') => (inr a, s')
           end.

(** The error as a value: [x, err := m] when the code goes on after an error. *)
Definition attempt {E E' A} (m : M S E A) : M S E' (E + A) :=
  fun s => match m s with (r, s') => (inr r, s') end.

Definition get {E} : M S E S := fun s => (inr s, s).
Definition modify {E} (f : S -> S) : M S E unit := fun s => (inr tt, f s).

(** [for _, x := range l { ... return err ... }] *)
Fixpoint forM_ {E A} (l : list A) (f : A -> M S E unit) : M S E unit :=
  match l with
  | [] => ret tt
  | x :: l' => bind (f x) (fun _ => forM_ l' f)
  end.

(** The same loop with an accumulator. *)
Fixpoint foldM {E A B} (f : B -> A -> M S E B) (b : B) (l : list A) : M S E B :=
  match l with
  | [] => ret b
  | x :: l' => bind (f b x) (fun b' => foldM f b' l')
  end.

(** A loop that collects one result per element. *)
Fixpoint mapM_ {E A B} (f : A -> M S E B) (l : list A) : M S E (list B) :=
  match l with
  | [] => ret []
  | x :: l' => bind (f x) (fun y => bind (mapM_ f l') (fun ys => ret (y :: ys)))
  end.

End Monad.

(** A computation on a part of the state. *)
Definition zoom {S T E A} (proj : S -> T) (put : T -> S -> S) (m : M T E A)
  : M S E A :=
  fun s => match m (proj s) with (r, t) => (r, put t s) end.

(** Did the call return an error? *)
Definition failed {E A} (r : E + A) : bool := match r with inl _ => true | inr _ => false end.

Declare Scope go_scope.
Delimit Scope go_scope with go.
Notation "'let!' x ':=' m 'in' k" := (bind m (fun x => k))
  (at level 10, x binder, m at level 100, k at level 200,
   format "'[v' 'let!'  x  ':='  m  'in' '/' k ']'") : go_scope.
Notation "'do!' m 'in' k" := (bind m (fun _ => k))
  (at level 10, m at level 100, k at level 200,
   format "'[v' 'do!'  m  'in' '/' k ']'") : go_scope.
Notation "'guard!' b 'else' e 'in' k" :=
  (bind (if b then ret tt else throw e) (fun _ => k))
  (at level 10, b at level 100, e at level 100, k at level 200,
   format "'[v' 'guard!'  b  'else'  e  'in' '/' k ']'") : go_scope.
(** [if b { return e }] *)
Notation "'reject!' b 'with' e 'in' k" :=
  (bind (if b then throw e else ret tt) (fun _ => k))
  (at level 10, b at level 100, e at level 100, k at level 200,
   format "'[v' 'reject!'  b  'with'  e  'in' '/' k ']'") : go_scope.
Notation "s '=s' t" := (String.eqb s t) (at level 70) : go_scope.
#[global] Open Scope go_scope.

(** ** Inverting a run *)

Section Inversion.
Context {S E A B : Type}.
Implicit Types (s : S).

Lemma bind_run (m : M S E A) (k : A -> M S E B) s :
  bind m k s = match m s with (inl e, s1) => (inl e, s1) | (inr a, s1) => k a s1 end.
Proof. reflexivity. Qed.

Lemma bind_inr (m : M S E A) (k : A -> M S E B) s b s' :
  bind m k s = (inr b, s') ->
  exists a s1, m s = (inr a, s1) /\ k a s1 = (inr b, s').
Proof. rewrite bind_run. destruct (m s) as [[e|a] s1]; naive_solver. Qed.

Lemma bind_inl (m : M S E A) (k : A -> M S E B) s e s' :
  bind m k s = (inl e, s') ->
  m s = (inl e, s') \/
  exists a s1, m s = (inr a, s1) /\ k a s1 = (inl e, s').
Proof. rewrite bind_run. destruct (m s) as [[e'|a] s1]; naive_solver. Qed.

Lemma mapErr_inr {E'} (f : E -> E') (m : M S E A) s a s' :
  mapErr f m s = (inr a, s') -> m s = (inr a, s').
Proof. unfold mapErr. destruct (m s) as [[e|x] s1]; naive_solver. Qed.

Lemma mapErr_inl {E'} (f : E -> E') (m : M S E A) s e s' :
  mapErr f m s = (inl e, s') -> exists e0, m s = (inl e0, s') /\ e = f e0.
Proof. unfold mapErr. destruct (m s) as [[e0|x] s1]; naive_solver. Qed.
End Inversion.

Lemma attempt_run {S E E' A} (m : M S E A) s :
  attempt (E' := E') m s = let '(r, s') := m s in (inr r, s').
Proof. unfold attempt. by destruct (m s). Qed.

(** Peels one step off a successful run in a hypothesis. *)
Ltac run_inv :=
  match goal with
  | H : ret _ _ = (inr _, _) |- _ => unfold ret in H; simplify_eq/=
  | H : ret _ _ = (inl _, _) |- _ => unfold ret in H; discriminate H
  | H : throw _ _ = (inr _, _) |- _ => unfold throw in H; discriminate H
  | H : throw _ _ = (inl _, _) |- _ => unfold throw in H; simplify_eq/=
  | H : mapErr _ _ _ = (inr _, _) |- _ => apply mapErr_inr in H
  | H : mapErr _ _ _ = (inl _, _) |- _ =>
      apply mapErr_inl in H; destruct H as (? & H & ?); subst
  | H : bind _ _ _ = (inr _, _) |- _ =>
      apply bind_inr in H; destruct H as (? & ? & ? & H)
  | H : attempt _ _ = _ |- _ =>
      rewrite attempt_run in H
  end.
Ltac run_simpl := repeat first [run_inv | progress simplify_eq/=].

(** ** What every run guarantees

    [Guar R m]: whatever the outcome, the state before and the state after a
    run of [m] are related by [R].  With [R] a preorder this composes along the
    code; invariants ([R s s' := P s -> P s']) and frame conditions
    ([R s s' := view s = view s']) are both instances. *)
Definition Guar {S E A} (R : S -> S -> Prop) (m : M S E A) : Prop :=
  forall s r s', m s = (r, s') -> R s s'.

Create HintDb guar.

Section Guarantees.
Context {S : Type} (R : S -> S -> Prop) `{!PreOrder R}.

Lemma guar_ret {E A} (a : A) : Guar R (ret (E := E) a).
Proof. intros s r s' H. unfold ret in H. by simplify_eq. Qed.
Lemma guar_throw {E A} (e : E) : Guar R (throw (A := A) e).
Proof. intros s r s' H. unfold throw in H. by simplify_eq. Qed.
Lemma guar_get {E} : Guar R (get (E := E)).
Proof. intros s r s' H. unfold get in H. by simplify_eq. Qed.
Lemma guar_bind {E A B} (m : M S E A) (k : A -> M S E B) :
  Guar R m -> (forall a, Guar R (k a)) -> Guar R (bind m k).
Proof.
  intros Hm Hk s r s' H. rewrite bind_run in H.
  destruct (m s) as [[e|a] s1] eqn:E1; simplify_eq/=.
  - by eapply Hm.
  - etrans; [by eapply Hm | by eapply Hk].
Qed.
(** Two steps taken as one, where the relation holds only after both. *)
Lemma guar_bind_assoc {E A B C} (m : M S E A) (k : A -> M S E B) (h : B -> M S E C) :
  Guar R (bind (bind m k) h) -> Guar R (bind m (fun a => bind (k a) h)).
Proof.
  intros Hm s r s' H. apply (Hm s r s'). rewrite <- H, !bind_run.
  destruct (m s) as [[e|a] s1]; [done|]. by rewrite bind_run.
Qed.
Lemma guar_mapErr {E E' A} (f : E -> E') (m : M S E A) :
  Guar R m -> Guar R (mapErr f m).
Proof.
  intros Hm s r s' H. unfold mapErr in H.
  destruct (m s) as [[e|a] s1] eqn:E1; simplify_eq/=; by eapply Hm.
Qed.
Lemma guar_attempt {E E' A} (m : M S E A) :
  Guar R m -> Guar R (attempt (E' := E') m).
Proof.
  intros Hm s r s' H. rewrite attempt_run in H.
  destruct (m s) as [r1 s1] eqn:E1; simplify_eq/=. by eapply Hm.
Qed.
Lemma guar_forM {E A} (l : list A) (f : A -> M S E unit) :
  (forall x, x ∈ l -> Guar R (f x)) -> Guar R (forM_ l f).
Proof.
  induction l as [|x l IH]; intros Hf; simpl; [apply guar_ret|].
  apply guar_bind; [apply Hf; set_solver|].
  intros _. apply IH. intros y Hy. apply Hf. set_solver.
Qed.
Lemma guar_foldM {E A B} (f : B -> A -> M S E B) l :
  (forall b x, Guar R (f b x)) -> forall b, Guar R (foldM f b l).
Proof.
  intros Hf. induction l as [|x l IH]; intros b; simpl; [apply guar_ret|].
  by apply guar_bind.
Qed.
Lemma guar_mapM {E A B} (f : A -> M S E B) l :
  (forall x, Guar R (f x)) -> Guar R (mapM_ f l).
Proof.
  intros Hf. induction l as [|x l IH]; simpl; [apply guar_ret|].
  apply guar_bind; [done|]. intros y. apply guar_bind; [done|]. intros ys.
  apply guar_ret.
Qed.
Lemma guar_if {E A} (b : bool) (m1 m2 : M S E A) :
  Guar R m1 -> Guar R m2 -> Guar R (if b then m1 else m2).
Proof. by destruct b. Qed.
Lemma guar_sum {E A X Y} (x : X + Y) (f : X -> M S E A) (g : Y -> M S E A) :
  (forall e, Guar R (f e)) -> (forall a, Guar R (g a)) ->
  Guar R (match x with inl e => f e | inr a => g a end).
Proof. by destruct x. Qed.
Lemma guar_option {E A X} (x : option X) (f : X -> M S E A) (g : M S E A) :
  (forall a, Guar R (f a)) -> Guar R g ->
  Guar R (match x with Some a => f a | None => g end).
Proof. by destruct x. Qed.
End Guarantees.

#[export] Hint Resolve guar_ret guar_throw guar_get : guar.

(** Splits a goal [Guar R (code)] along the code; what is left are the
    primitive steps, closed from the [guar] database where it knows them. *)
Ltac guar_step :=
  match goal with
  | |- Guar _ (bind _ _) => apply guar_bind; [try typeclasses eauto| |intros ?]
  | |- Guar _ (mapErr _ _) => apply guar_mapErr
  | |- Guar _ (attempt _) => apply guar_attempt
  | |- Guar _ (forM_ _ _) => apply guar_forM; [try typeclasses eauto|intros ? ?]
  | |- Guar _ (foldM _ _ _) => apply guar_foldM; [try typeclasses eauto|intros ? ?]
  | |- Guar _ (mapM_ _ _) => apply guar_mapM; [try typeclasses eauto|intros ?]
  | |- Guar _ (if _ then _ else _) => apply guar_if
  | |- Guar _ (match _ with inl _ => _ | inr _ => _ end) =>
      apply guar_sum; intros ?
  | |- Guar _ (match _ with Some _ => _ | None => _ end) =>
      apply guar_option; [intros ?|]
  | |- Guar _ (let '(_, _) := ?p in _) => destruct p
  | |- Guar _ (ret _) => apply guar_ret; typeclasses eauto
  | |- Guar _ (throw _) => apply guar_throw; typeclasses eauto
  | |- Guar _ get => apply guar_get; typeclasses eauto
  end.
Ltac guar := repeat guar_step; eauto with guar.

(** Replaces a run in [H] by what its frame condition says of the two states; the
    frame condition is the first goal. *)
Ltac framed R H :=
  match type of H with
  | ?m _ = _ => let Hg := fresh "Hg" in assert (Guar R m) as Hg; [|apply Hg in H; clear Hg]
  end.

(** [preserving view]: the frame condition on one view of the state. *)
Definition same {S V} (view : S -> V) (s s' : S) : Prop := view s = view s'.
#[export] Instance same_preorder {S V} (view : S -> V) : PreOrder (same view).
Proof. split; [intros s; reflexivity | intros s1 s2 s3; unfold same; congruence]. Qed.

Definition keeps {S} (P : S -> Prop) (s s' : S) : Prop := P s -> P s'.
#[export] Instance keeps_preorder {S} (P : S -> Prop) : PreOrder (keeps P).
Proof. split; [intros s H; exact H | intros s1 s2 s3; unfold keeps; auto]. Qed.

Lemma guar_zoom {S T E A} (R : S -> S -> Prop) (proj : S -> T) put (m : M T E A) :
  (forall s r t, m (proj s) = (r, t) -> R s (put t s)) -> Guar R (zoom proj put m).
Proof.
  intros H s r s' Hrun. unfold zoom in Hrun.
  destruct (m (proj s)) as [r1 t] eqn:E1. simplify_eq/=. by eapply H.
Qed.

(** * Machine integers *)

Definition int64_min : Z := - 2 ^ 63.
Definition int64_max : Z := 2 ^ 63 - 1.
Definition in_int64 (z : Z) : Prop := (int64_min <= z <= int64_max)%Z.
(** Two's complement wrap-around of Go's [int64] arithmetic. *)
Definition wrap64 (z : Z) : Z := ((z + 2 ^ 63) mod 2 ^ 64 - 2 ^ 63)%Z.
Definition add64 (x y : Z) : Z := wrap64 (x + y).
Definition sub64 (x y : Z) : Z := wrap64 (x - y).
Definition mul64 (x y : Z) : Z := wrap64 (x * y).
(** [int32(x)]: the conversion keeps the low 32 bits. *)
Definition wrap32 (z : Z) : Z := ((z + 2 ^ 31) mod 2 ^ 32 - 2 ^ 31)%Z.

Lemma wrap64_id z : in_int64 z -> wrap64 z = z.
Proof.
  unfold in_int64, int64_min, int64_max, wrap64. intros H.
  rewrite Z.mod_small; lia.
Qed.
Lemma wrap64_range z : in_int64 (wrap64 z).
Proof.
  unfold in_int64, int64_min, int64_max, wrap64.
  pose proof (Z.mod_pos_bound (z + 2 ^ 63) (2 ^ 64) ltac:(lia)). lia.
Qed.
Lemma wrap64_mod z : exists q, wrap64 z = (z + q * 2 ^ 64)%Z.
Proof.
  unfold wrap64. exists (- ((z + 2 ^ 63) / 2 ^ 64))%Z.
  pose proof (Z.div_mod (z + 2 ^ 63) (2 ^ 64) ltac:(lia)). lia.
Qed.
Lemma wrap64_shift z q : wrap64 (z + q * 2 ^ 64) = wrap64 z.
Proof.
  unfold wrap64. replace (z + q * 2 ^ 64 + 2 ^ 63)%Z with (z + 2 ^ 63 + q * 2 ^ 64)%Z by lia.
  by rewrite Z_mod_plus_full.
Qed.
Lemma add64_assoc x y z : add64 x (add64 y z) = add64 (add64 x y) z.
Proof.
  unfold add64. destruct (wrap64_mod (y + z)) as [q1 ->], (wrap64_mod (x + y)) as [q2 ->].
  replace (x + (y + z + q1 * 2 ^ 64))%Z with (x + y + z + q1 * 2 ^ 64)%Z by lia.
  replace (x + y + q2 * 2 ^ 64 + z)%Z with (x + y + z + q2 * 2 ^ 64)%Z by lia.
  by rewrite !wrap64_shift.
Qed.
Lemma wrap64_idem z : wrap64 (wrap64 z) = wrap64 z.
Proof. apply wrap64_id, wrap64_range. Qed.
(** Wrapping before an addition makes no difference. *)
Lemma add64_wrap_l x y : add64 (wrap64 x) y = wrap64 (x + y).
Proof.
  unfold add64. destruct (wrap64_mod x) as [q ->].
  replace (x + q * 2 ^ 64 + y)%Z with (x + y + q * 2 ^ 64)%Z by lia. apply wrap64_shift.
Qed.
Lemma wrap32_id z : (- 2 ^ 31 <= z < 2 ^ 31)%Z -> wrap32 z = z.
Proof. unfold wrap32. intros H. rewrite Z.mod_small; lia. Qed.

Definition sumZ (l : list Z) : Z := foldr Z.add 0%Z l.

Lemma foldl_add64 {A} (f : A -> Z) l x :
  foldl (fun acc a => add64 acc (f a)) (wrap64 x) l = wrap64 (x + sumZ (map f l)).
Proof.
  revert x. induction l as [|a l IH]; intros x; cbn; [by rewrite Z.add_0_r|].
  by rewrite add64_wrap_l, IH, Z.add_assoc.
Qed.
Lemma sumZ_app l1 l2 : sumZ (l1 ++ l2) = (sumZ l1 + sumZ l2)%Z.
Proof. unfold sumZ. induction l1 as [|a l1 IH]; cbn; [done|]. lia. Qed.
Lemma sumZ_perm l1 l2 : l1 ≡ₚ l2 -> sumZ l1 = sumZ l2.
Proof. unfold sumZ. induction 1; cbn; lia. Qed.
Lemma sumZ_ones {A} (l : list A) : sumZ (map (fun _ => 1%Z) l) = Z.of_nat (length l).
Proof. unfold sumZ. induction l as [|a l IH]; cbn; [done|]. lia. Qed.

(** * Lists and strings *)

Abbreviation str := string.

Lemma eqb_refl_str (s : str) : (s =s s) = true.
Proof. apply String.eqb_refl. Qed.
Lemma eqb_true_str (s t : str) : (s =s t) = true <-> s = t.
Proof. apply String.eqb_eq. Qed.
Lemma eqb_false_str (s t : str) : (s =s t) = false <-> s <> t.
Proof. apply String.eqb_neq. Qed.

(** Turns the boolean tests of the code into propositions. *)
Ltac bool_prop :=
  repeat match goal with
  | H : (_ =s _) = true |- _ => apply eqb_true_str in H
  | H : (_ =s _) = false |- _ => apply eqb_false_str in H
  | H : _ && _ = true |- _ => apply andb_true_iff in H; destruct H
  | H : _ || _ = false |- _ => apply orb_false_iff in H; destruct H
  | H : negb _ = true |- _ => apply negb_true_iff in H
  | H : negb _ = false |- _ => apply negb_false_iff in H
  | H : (_ <? _)%Z = true |- _ => apply Z.ltb_lt in H
  | H : (_ <? _)%Z = false |- _ => apply Z.ltb_ge in H
  | H : (_ <=? _)%Z = true |- _ => apply Z.leb_le in H
  | H : (_ <=? _)%Z = false |- _ => apply Z.leb_gt in H
  | H : (_ =? _)%Z = true |- _ => apply Z.eqb_eq in H
  | H : (_ =? _)%Z = false |- _ => apply Z.eqb_neq in H
  end.

(** [List.filter] with a boolean test: what a SQL [WHERE] keeps. *)
Abbreviation where_ := List.filter.

Lemma where_elem {A} (p : A -> bool) l x : x ∈ where_ p l <-> x ∈ l /\ p x = true.
Proof. rewrite !list_elem_of_In, List.filter_In. done. Qed.

Lemma where_false {A} (p : A -> bool) l :
  (forall x, x ∈ l -> p x = false) -> where_ p l = [].
Proof.
  induction l as [|x l IH]; intros H; simpl; [done|].
  rewrite (H x) by set_solver. apply IH. intros y Hy. apply H. set_solver.
Qed.

Lemma where_app {A} (p : A -> bool) l1 l2 :
  where_ p (l1 ++ l2) = where_ p l1 ++ where_ p l2.
Proof. apply List.filter_app. Qed.

Lemma where_ext {A} (p q : A -> bool) l :
  (forall x, x ∈ l -> p x = q x) -> where_ p l = where_ q l.
Proof.
  induction l as [|x l IH]; intros H; simpl; [done|].
  rewrite (H x) by set_solver. rewrite IH; [done|].
  intros y Hy. apply H. set_solver.
Qed.

Lemma where_where {A} (p q : A -> bool) l :
  where_ p (where_ q l) = where_ (fun x => p x && q x) l.
Proof.
  induction l as [|x l IH]; simpl; [done|].
  destruct (q x) eqn:E; simpl; rewrite ?andb_true_r, ?andb_false_r, IH; [|done].
  by destruct (p x).
Qed.
Lemma where_length_mono {A} (p q : A -> bool) l :
  (forall x, x ∈ l -> p x = true -> q x = true) -> length (where_ p l) <= length (where_ q l).
Proof.
  induction l as [|x l IH]; intros H; [done|]. cbn.
  assert (length (where_ p l) <= length (where_ q l)) by (apply IH; set_solver).
  specialize (H x ltac:(set_solver)). destruct (p x), (q x); cbn; try lia.
Qed.

Lemma where_partition {A} (p : A -> bool) l : l ≡ₚ where_ p l ++ where_ (fun x => negb (p x)) l.
Proof.
  induction l as [|x l IH]; [done|]. cbn. destruct (p x); cbn; [by rewrite <-IH|].
  by rewrite <-Permutation_middle, <-IH.
Qed.
Lemma where_perm {A} (p : A -> bool) l1 l2 : l1 ≡ₚ l2 -> where_ p l1 ≡ₚ where_ p l2.
Proof.
  induction 1 as [|x l l' _ IH|x y l|l1 l2 l3 _ IH1 _ IH2]; cbn; [done| | |].
  - destruct (p x); by rewrite ?IH.
  - destruct (p x), (p y); done || apply Permutation_swap.
  - by rewrite IH1.
Qed.

Lemma where_map {A C} (f : A -> C) (p : C -> bool) l :
  map f (where_ (fun x => p (f x)) l) = where_ p (map f l).
Proof.
  induction l as [|x l IH]; simpl; [done|]. destruct (p (f x)); simpl; by rewrite IH.
Qed.

Lemma head_elem {A} (l : list A) x : head l = Some x -> x ∈ l.
Proof. destruct l; simpl; set_solver. Qed.

Lemma NoDup_map_eq {A C} (f : A -> C) l x y :
  NoDup (map f l) -> x ∈ l -> y ∈ l -> f x = f y -> x = y.
Proof.
  induction l as [|z l IH]; cbn; intros Hnd Hx Hy Hf; [set_solver|].
  apply NoDup_cons in Hnd as [Hz Hnd].
  apply elem_of_cons in Hx as [->|Hx], Hy as [->|Hy]; [done| | |by apply IH];
    exfalso; apply Hz, list_elem_of_fmap; eauto.
Qed.

Lemma NoDup_map_where {A C} (f : A -> C) (p : A -> bool) l :
  NoDup (map f l) -> NoDup (map f (where_ p l)).
Proof.
  induction l as [|x l IH]; cbn; intros Hnd; [done|].
  apply NoDup_cons in Hnd as [Hx Hnd]. destruct (p x); [|by apply IH].
  cbn. apply NoDup_cons. split; [|by apply IH].
  intros (y & Hy & Hin)%list_elem_of_fmap. apply Hx.
  apply where_elem in Hin as [Hin _]. apply list_elem_of_fmap. eauto.
Qed.

(** Closes a conjunction of equations between closed terms by evaluation. *)
Ltac by_eval :=
  intros; repeat match goal with |- _ /\ _ => split end;
  vm_compute; first [reflexivity | discriminate].
