(* ===== verification/GoStrings.v ===== *)
(** The functions of Go's [strings] and [strconv] packages the sources use, on
    byte strings.  [TrimSpace], [ToLower] and [ToUpper] are modelled on ASCII,
    which is what every caller compares against. *)

From Stdlib Require Import Ascii String.
From stdpp Require Import pretty.
From S2P Require Import Prelude.

Local Open Scope string_scope.
#[local] Arguments String.append : simpl nomatch.

(** * Slices *)

Fixpoint str_take (n : nat) (s : str) : str :=
  match n, s with
  | S n', String c s' => String c (str_take n' s')
  | _, _ => ""
  end.

Fixpoint str_drop (n : nat) (s : str) : str :=
  match n, s with
  | 0, _ => s
  | S n', String _ s' => str_drop n' s'
  | S _, EmptyString => ""
  end.

Lemma str_take_drop n s : str_take n s ++ str_drop n s = s.
Proof. revert s. induction n; intros [|c s]; simpl; [done..|]. by rewrite IHn. Qed.

Lemma str_length_app s t : String.length (s ++ t) = String.length s + String.length t.
Proof. induction s; simpl; congruence. Qed.

Lemma str_take_length n s : n <= String.length s -> String.length (str_take n s) = n.
Proof. revert s. induction n; intros [|c s] H; simpl in *; [done..|lia|]. rewrite IHn; lia. Qed.

Lemma str_drop_length n s : String.length (str_drop n s) = String.length s - n.
Proof. revert s. induction n; intros [|c s]; simpl; auto. Qed.

Lemma str_take_app s t : str_take (String.length s) (s ++ t) = s.
Proof. induction s; simpl; [by destruct t|congruence]. Qed.

Lemma str_drop_app s t : str_drop (String.length s) (s ++ t) = t.
Proof. by induction s. Qed.

Lemma str_app_assoc (s t u : str) : (s ++ t) ++ u = s ++ (t ++ u).
Proof. induction s; simpl; congruence. Qed.

Lemma str_app_nil_r (s : str) : s ++ "" = s.
Proof. induction s; simpl; congruence. Qed.

Lemma str_app_inj_l (s t u : str) : s ++ t = s ++ u -> t = u.
Proof. induction s; simpl; intros H; [done|]. simplify_eq. auto. Qed.

(** Prefixes of one length can be cut off. *)
Lemma str_app_cut (a b x y : str) :
  String.length a = String.length b -> a ++ x = b ++ y -> a = b /\ x = y.
Proof.
  revert b. induction a as [|c a IH]; intros [|c' b] Hl H; try discriminate Hl; [done|].
  injection Hl as Hl. injection H as -> H. apply IH in H as [-> ->]; done.
Qed.
Lemma str_app_inj_r (s t u : str) : s ++ u = t ++ u -> s = t.
Proof.
  intros H. apply (str_app_cut s t u u); [|done]. apply (f_equal String.length) in H.
  rewrite !str_length_app in H. lia.
Qed.

(** * Prefixes *)

Definition HasPrefix (s p : str) : bool := String.prefix p s.

Lemma HasPrefix_spec s p : HasPrefix s p = true <-> exists t, s = p ++ t.
Proof.
  unfold HasPrefix. revert s. induction p as [|c p IH]; intros s; simpl.
  { split; [by exists s|]. intros _. by destruct s. }
  destruct s as [|d s]; simpl.
  { split; [done|]. intros [t Ht]. done. }
  destruct (ascii_dec c d) as [->|Hne].
  - rewrite IH. split; intros [t Ht]; exists t; simpl in *; congruence.
  - split; [done|]. intros [t Ht]. simpl in Ht. congruence.
Qed.

Lemma HasPrefix_app p t : HasPrefix (p ++ t) p = true.
Proof. apply HasPrefix_spec. eauto. Qed.

Definition TrimPrefix (s p : str) : str :=
  if HasPrefix s p then str_drop (String.length p) s else s.

(** * Searching *)

Fixpoint IndexAny (s : str) (chars : ascii -> bool) : option nat :=
  match s with
  | EmptyString => None
  | String c s' => if chars c then Some 0 else S <$> IndexAny s' chars
  end.

Definition IndexByte (s : str) (c : ascii) : option nat := IndexAny s (Ascii.eqb c).

Definition Index (s sub : str) : option nat := String.index 0 sub s.

Definition Contains (s sub : str) : bool :=
  match Index s sub with Some _ => true | None => false end.

Fixpoint str_all (p : ascii -> bool) (s : str) : bool :=
  match s with EmptyString => true | String c s' => p c && str_all p s' end.

Lemma str_all_app p s t : str_all p (s ++ t) = str_all p s && str_all p t.
Proof. induction s; simpl; [done|]. rewrite IHs. by rewrite andb_assoc. Qed.

Lemma IndexAny_stop s t (p : ascii -> bool) c :
  str_all (fun x => negb (p x)) s = true -> p c = true ->
  IndexAny (s ++ String c t) p = Some (String.length s).
Proof.
  intros Hs Hc. induction s as [|d s IH]; simpl in *; [by rewrite Hc|].
  bool_prop. rewrite H, IH; done.
Qed.

Lemma IndexAny_none s (p : ascii -> bool) :
  str_all (fun x => negb (p x)) s = true -> IndexAny s p = None.
Proof.
  induction s as [|d s IH]; simpl; intros H; [done|]. bool_prop. by rewrite H, IH.
Qed.

(** * Splitting and joining on one separator byte *)

Fixpoint Split (s : str) (sep : ascii) : list str :=
  match s with
  | EmptyString => [""]
  | String c s' =>
      if Ascii.eqb c sep then "" :: Split s' sep
      else match Split s' sep with
           | [] => [String c ""]
           | h :: t => String c h :: t
           end
  end.

Fixpoint Join (l : list str) (sep : str) : str :=
  match l with
  | [] => ""
  | [x] => x
  | x :: l' => x ++ sep ++ Join l' sep
  end.

Definition no_byte (c : ascii) (s : str) : bool := str_all (fun x => negb (Ascii.eqb x c)) s.

Lemma Split_nonempty s sep : Split s sep <> [].
Proof. destruct s; simpl; [done|]. repeat case_match; done. Qed.

Lemma Split_head s t sep :
  no_byte sep s = true -> Split (s ++ String sep t) sep = s :: Split t sep.
Proof.
  unfold no_byte. induction s as [|c s IH]; simpl; intros H.
  { by rewrite Ascii.eqb_refl. }
  bool_prop. rewrite H, IH; done.
Qed.

Lemma Split_one s sep : no_byte sep s = true -> Split s sep = [s].
Proof.
  unfold no_byte. induction s as [|c s IH]; simpl; intros H; [done|].
  bool_prop. by rewrite H, IH.
Qed.

(** Joining pieces that do not contain the separator is undone by splitting. *)
Lemma Split_Join l sep :
  l <> [] -> Forall (fun s => no_byte sep s = true) l ->
  Split (Join l (String sep "")) sep = l.
Proof.
  intros Hne Hall. induction l as [|x l IH]; [done|].
  inversion Hall as [|?? Hx Hl]; subst. destruct l as [|y l].
  - simpl. by apply Split_one.
  - change (Join (x :: y :: l) (String sep ""))
      with (x ++ String sep (Join (y :: l) (String sep ""))).
    rewrite Split_head by done. f_equal. by apply IH.
Qed.

(** * Trimming and case *)

Definition is_space (c : ascii) : bool :=
  let n := nat_of_ascii c in
  (Nat.eqb n 32) || (Nat.leb 9 n && Nat.leb n 13).

Fixpoint trim_left (p : ascii -> bool) (s : str) : str :=
  match s with
  | EmptyString => ""
  | String c s' => if p c then trim_left p s' else s
  end.

Fixpoint trim_right (p : ascii -> bool) (s : str) : str :=
  match s with
  | EmptyString => ""
  | String c s' =>
      match trim_right p s' with
      | EmptyString => if p c then "" else String c ""
      | t => String c t
      end
  end.

Definition trim_both (p : ascii -> bool) (s : str) : str := trim_right p (trim_left p s).
Definition TrimSpace (s : str) : str := trim_both is_space s.
Definition is_quote (c : ascii) : bool := Nat.eqb (nat_of_ascii c) 34.
(** [strings.Trim(s, dquote)] *)
Definition TrimQuotes (s : str) : str := trim_both is_quote s.
Definition TrimRightByte (s : str) (c : ascii) : str := trim_right (Ascii.eqb c) s.

Definition in_range (lo hi : nat) (c : ascii) : bool :=
  Nat.leb lo (nat_of_ascii c) && Nat.leb (nat_of_ascii c) hi.
Definition is_lower (c : ascii) : bool := in_range 97 122 c.
Definition is_upper (c : ascii) : bool := in_range 65 90 c.
Definition is_digit (c : ascii) : bool := in_range 48 57 c.

Fixpoint str_map (f : ascii -> ascii) (s : str) : str :=
  match s with EmptyString => "" | String c s' => String (f c) (str_map f s') end.

Definition to_lower_ascii (c : ascii) : ascii :=
  if is_upper c then ascii_of_nat (nat_of_ascii c + 32) else c.
Definition to_upper_ascii (c : ascii) : ascii :=
  if is_lower c then ascii_of_nat (nat_of_ascii c - 32) else c.
Definition ToLower (s : str) : str := str_map to_lower_ascii s.
Definition ToUpper (s : str) : str := str_map to_upper_ascii s.

(** * Numbers *)

(** [strconv.Itoa] and the [%d] verb *)
Definition Itoa (z : Z) : str := pretty z.

Fixpoint digits_value (acc : Z) (s : str) : option Z :=
  match s with
  | EmptyString => Some acc
  | String c s' =>
      if is_digit c
      then digits_value (10 * acc + Z.of_nat (nat_of_ascii c - 48)) s'
      else None
  end.

(** [strconv.Atoi]: an optional sign, then at least one digit, in range of a
    64-bit [int]. *)
Definition Atoi (s : str) : option Z :=
  let '(neg, body) :=
    match s with
    | String c s' => if Ascii.eqb c "-"%char then (true, s')
                     else if Ascii.eqb c "+"%char then (false, s') else (false, s)
    | EmptyString => (false, s)
    end in
  match body with
  | EmptyString => None
  | _ =>
      match digits_value 0 body with
      | Some v =>
          let z := if neg then (- v)%Z else v in
          if ((int64_min <=? z) && (z <=? int64_max))%Z then Some z else None
      | None => None
      end
  end.

Example Atoi_ex : (Atoi "42", Atoi "-7", Atoi "", Atoi "4a") = (Some 42%Z, Some (-7)%Z, None, None).
Proof. reflexivity. Qed.
Example Split_ex : Split "a,b,,c" ","%char = ["a"; "b"; ""; "c"].
Proof. reflexivity. Qed.
Example Trim_ex : TrimSpace "  a b	" = "a b".
Proof. reflexivity. Qed.

(** ** The text of a number *)

Lemma str_all_impl (p q : ascii -> bool) s :
  (forall c, p c = true -> q c = true) -> str_all p s = true -> str_all q s = true.
Proof. intros H. induction s as [|c s IH]; cbn; [done|]. rewrite !andb_true_iff. naive_solver. Qed.

Lemma digit_char x :
  (x < 10)%N -> is_digit (pretty_N_char x) = true /\
  Z.of_nat (nat_of_ascii (pretty_N_char x) - 48) = Z.of_N x.
Proof.
  intros H.
  assert (x = 0 \/ x = 1 \/ x = 2 \/ x = 3 \/ x = 4 \/ x = 5 \/ x = 6 \/ x = 7 \/ x = 8 \/ x = 9)%N
    as Hx by lia.
  repeat destruct Hx as [->|Hx]; try subst x; vm_compute; done.
Qed.

Lemma digits_go x : forall s, str_all is_digit s = true -> str_all is_digit (pretty_N_go x s) = true.
Proof.
  induction x as [x IH] using (well_founded_ind N.lt_wf_0). intros s Hs.
  destruct (decide (0 < x)%N) as [Hx|Hx].
  - rewrite pretty_N_go_step by done. apply IH; [apply N.div_lt; lia|]. cbn.
    destruct (digit_char (x `mod` 10) ltac:(by apply N.mod_lt)) as [-> _]. done.
  - assert (x = 0)%N as -> by lia. by rewrite pretty_N_go_0.
Qed.

(** A printed integer is made of digits, after a minus sign if it is negative. *)
Lemma Itoa_chars z : str_all (fun c => is_digit c || Ascii.eqb c "-") (Itoa z) = true.
Proof.
  assert (forall n, str_all (fun c => is_digit c || Ascii.eqb c "-") (pretty_N_go n "") = true) as H.
  { intros n. eapply str_all_impl; [|by apply (digits_go n "")]. by intros c ->. }
  unfold Itoa. destruct z as [|p|p]; [done| |]; cbn.
  - apply (H (N.pos p)).
  - apply (H (N.pos p)).
Qed.
