(* ===== verification/Encoding.v ===== *)
(** encoding/base64 (standard and URL alphabets, with and without padding) and
    encoding/hex, as secrets, tokens and password hashes use them.  Bytes are
    characters. *)
From Stdlib Require Import Ascii.
From S2P Require Import Prelude GoStrings.
#[local] Open Scope string_scope.
#[local] Open Scope Z_scope.

Module Encoding.

Definition byte_of (c : ascii) : Z := Z.of_nat (nat_of_ascii c).
Definition to_byte (z : Z) : ascii := ascii_of_nat (Z.to_nat z).

Lemma byte_range c : (0 <= byte_of c < 256)%Z.
Proof. unfold byte_of. pose proof (nat_ascii_bounded c). lia. Qed.
Lemma to_byte_of c : to_byte (byte_of c) = c.
Proof. unfold to_byte, byte_of. by rewrite Nat2Z.id, ascii_nat_embedding. Qed.

Lemma to_byte_eq z c : z = byte_of c -> to_byte z = c.
Proof. intros ->. apply to_byte_of. Qed.

(** ** Base 64 *)

Inductive Alphabet := Std | URL.
Definition digit64 (a : Alphabet) (v : Z) : ascii :=
  to_byte (if v <? 26 then 65 + v else if v <? 52 then 71 + v else if v <? 62 then v - 4
           else if v =? 62 then (match a with Std => 43 | URL => 45 end)
           else (match a with Std => 47 | URL => 95 end)).
Definition value64 (a : Alphabet) (c : ascii) : option Z :=
  let n := byte_of c in
  if (65 <=? n) && (n <=? 90) then Some (n - 65)
  else if (97 <=? n) && (n <=? 122) then Some (n - 71)
  else if (48 <=? n) && (n <=? 57) then Some (n + 4)
  else if n =? (match a with Std => 43 | URL => 45 end) then Some 62
  else if n =? (match a with Std => 47 | URL => 95 end) then Some 63
  else None.

Lemma value_digit a v : (0 <= v < 64)%Z -> value64 a (digit64 a v) = Some v.
Proof.
  intros H. assert (forallb (fun k => match value64 a (digit64 a (Z.of_nat k)) with
    | Some x => (x =? Z.of_nat k)%Z | None => false end) (seq 0%nat 64%nat) = true) as Hall.
  { destruct a; vm_compute; reflexivity. }
  rewrite forallb_forall in Hall. specialize (Hall (Z.to_nat v)).
  rewrite Z2Nat.id in Hall by lia. destruct (value64 a (digit64 a v)) as [x|].
  - f_equal. apply Z.eqb_eq, Hall, in_seq. lia.
  - exfalso. enough (false = true) by done. apply Hall, in_seq. lia.
Qed.

Definition pad_char : ascii := "=".
(** [EncodeToString]: three bytes give four digits; one or two left over give two or
    three, padded to four unless the encoding is raw. *)
Fixpoint encode64 (a : Alphabet) (raw : bool) (s : str) : str :=
  match s with
  | "" => ""
  | String x "" =>
      let n := (byte_of x * 16)%Z in
      String (digit64 a (n / 64)) (String (digit64 a (n mod 64)) (if raw then "" else "=="))
  | String x (String y "") =>
      let n := ((byte_of x * 256 + byte_of y) * 4)%Z in
      String (digit64 a (n / 4096)) (String (digit64 a (n / 64 mod 64))
        (String (digit64 a (n mod 64)) (if raw then "" else "=")))
  | String x (String y (String z rest)) =>
      let n := (byte_of x * 65536 + byte_of y * 256 + byte_of z)%Z in
      String (digit64 a (n / 262144)) (String (digit64 a (n / 4096 mod 64))
        (String (digit64 a (n / 64 mod 64)) (String (digit64 a (n mod 64))
          (encode64 a raw rest))))
  end.

(** Line breaks anywhere in the input are ignored. *)
Fixpoint drop_breaks (s : str) : str :=
  match s with
  | "" => ""
  | String c s' => if bool_decide (nat_of_ascii c ∈ [10; 13]%nat) then drop_breaks s' else String c (drop_breaks s')
  end.
Definition tail1 (v1 v2 : Z) : str := String (to_byte ((v1 * 64 + v2) / 16)) "".
Definition tail2 (v1 v2 v3 : Z) : str :=
  let n := ((v1 * 64 + v2) * 64 + v3)%Z in
  String (to_byte (n / 1024)) (String (to_byte (n / 4 mod 256)) "").
(** [DecodeString]; bits of the last digit that carry no byte are not looked at. *)
Fixpoint decode_digits (a : Alphabet) (raw : bool) (s : str) : option str :=
  match s with
  | "" => Some ""
  | String c1 (String c2 rest) =>
      match value64 a c1, value64 a c2 with
      | Some v1, Some v2 =>
          match rest with
          | "" => if raw then Some (tail1 v1 v2) else None
          | String c3 rest2 =>
              if Ascii.eqb c3 pad_char then
                (if negb raw && (rest2 =s "=") then Some (tail1 v1 v2) else None)
              else
                match value64 a c3 with
                | None => None
                | Some v3 =>
                    match rest2 with
                    | "" => if raw then Some (tail2 v1 v2 v3) else None
                    | String c4 rest3 =>
                        if Ascii.eqb c4 pad_char then
                          (if negb raw && (rest3 =s "") then Some (tail2 v1 v2 v3) else None)
                        else
                          match value64 a c4, decode_digits a raw rest3 with
                          | Some v4, Some out =>
                              let n := (((v1 * 64 + v2) * 64 + v3) * 64 + v4)%Z in
                              Some (String (to_byte (n / 65536)) (String (to_byte (n / 256 mod 256))
                                (String (to_byte (n mod 256)) out)))
                          | _, _ => None
                          end
                    end
                end
          end
      | _, _ => None
      end
  | _ => None
  end.
Definition decode64 (a : Alphabet) (raw : bool) (s : str) : option str :=
  decode_digits a raw (drop_breaks s).

Example encode64_ex : (encode64 Std false "buktio", encode64 Std false "ab", encode64 URL true "ab?") = ("YnVrdGlv", "YWI=", "YWI_").
Proof. reflexivity. Qed.

(** The digits of an encoding. *)
Definition is_digit64 (a : Alphabet) (c : ascii) : bool :=
  match value64 a c with Some _ => true | None => false end.
Lemma digit_is_digit a v : (0 <= v < 64)%Z -> is_digit64 a (digit64 a v) = true.
Proof. intros H. unfold is_digit64. by rewrite value_digit. Qed.
Lemma digit_plain a c : is_digit64 a c = true ->
  Ascii.eqb c pad_char = false /\ bool_decide (nat_of_ascii c ∈ [10; 13]%nat) = false /\
  negb (Ascii.eqb c "$") = true.
Proof. destruct a; destruct c as [[] [] [] [] [] [] [] []]; vm_compute; try done. Qed.

Lemma str_ind3 (P : str -> Prop) : P "" -> (forall x, P (String x "")) ->
  (forall x y, P (String x (String y ""))) ->
  (forall x y z s, P s -> P (String x (String y (String z s)))) -> forall s, P s.
Proof.
  intros H0 H1 H2 H3. fix IH 1. intros [|x [|y [|z s]]]; [done|apply H1|apply H2|]. apply H3, IH.
Qed.

Ltac digits_in_range := repeat match goal with c : ascii |- _ =>
  lazymatch goal with _ : (0 <= byte_of c < 256)%Z |- _ => fail | _ => pose proof (byte_range c) end end;
  Z.div_mod_to_equations; lia.

Lemma encode64_chars a s : str_all (is_digit64 a) (encode64 a true s) = true.
Proof.
  induction s as [|x|x y|x y z s IH] using str_ind3; [done| | |];
    cbn [encode64 str_all]; rewrite !digit_is_digit by digits_in_range; done.
Qed.
Lemma drop_breaks_id a s : str_all (fun c => is_digit64 a c || Ascii.eqb c pad_char) s = true -> drop_breaks s = s.
Proof.
  induction s as [|c s IH]; [done|]. cbn. rewrite andb_true_iff, orb_true_iff. intros [Hc Hs].
  rewrite IH by done.
  assert (bool_decide (nat_of_ascii c ∈ [10; 13]%nat) = false) as Hb.
  { destruct Hc as [Hc|Hc]; [apply (digit_plain a c Hc)|]. apply Ascii.eqb_eq in Hc as ->. done. }
  by rewrite Hb.
Qed.
Lemma encode64_padded a raw s : str_all (fun c => is_digit64 a c || Ascii.eqb c pad_char) (encode64 a raw s) = true.
Proof.
  induction s as [|x|x y|x y z s IH] using str_ind3; [done| | |];
    cbn [encode64 str_all]; rewrite !digit_is_digit by digits_in_range; by destruct raw, a.
Qed.

Lemma digit_not_pad a v : (0 <= v < 64)%Z -> Ascii.eqb (digit64 a v) pad_char = false.
Proof. intros H. by apply (digit_plain a), digit_is_digit. Qed.

Lemma encode64_roundtrip a raw s : decode64 a raw (encode64 a raw s) = Some s.
Proof.
  unfold decode64. rewrite (drop_breaks_id a) by apply encode64_padded.
  induction s as [|x|x y|x y z s IH] using str_ind3; [done| | |]; cbn [encode64 decode_digits].
  - rewrite !value_digit by digits_in_range. unfold tail1.
    rewrite (to_byte_eq _ x) by digits_in_range. by destruct raw.
  - rewrite !value_digit by digits_in_range. rewrite digit_not_pad by digits_in_range. unfold tail2.
    rewrite (to_byte_eq (_ / 1024) x), (to_byte_eq (_ mod 256) y) by digits_in_range. by destruct raw.
  - rewrite !value_digit by digits_in_range. rewrite !digit_not_pad by digits_in_range. rewrite IH.
    rewrite (to_byte_eq (_ / 65536) x), (to_byte_eq (_ / 256 mod 256) y), (to_byte_eq (_ mod 256) z)
      by digits_in_range. done.
Qed.

(** ** Hexadecimal *)

Definition hexdigit (v : Z) : ascii := to_byte (if (v <? 10)%Z then 48 + v else 87 + v).
Definition unhex (c : ascii) : option Z :=
  let n := byte_of c in
  if (48 <=? n) && (n <=? 57) then Some (n - 48)
  else if (97 <=? n) && (n <=? 102) then Some (n - 87)
  else if (65 <=? n) && (n <=? 70) then Some (n - 55)
  else None.
Fixpoint encode_hex (s : str) : str :=
  match s with
  | "" => ""
  | String x s' => String (hexdigit (byte_of x / 16)) (String (hexdigit (byte_of x mod 16)) (encode_hex s'))
  end.
Fixpoint decode_hex (s : str) : option str :=
  match s with
  | "" => Some ""
  | String a (String b s') =>
      match unhex a, unhex b, decode_hex s' with
      | Some x, Some y, Some out => Some (String (to_byte (x * 16 + y)) out)
      | _, _, _ => None
      end
  | _ => None
  end.

Lemma unhex_digit v : (0 <= v < 16)%Z -> unhex (hexdigit v) = Some v.
Proof.
  intros H. assert (v ∈ (Z.of_nat <$> seq 0%nat 16%nat)) as Hin.
  { apply list_elem_of_fmap. exists (Z.to_nat v). split; [lia|]. apply elem_of_seq. lia. }
  clear H. repeat (apply elem_of_cons in Hin as [->|Hin]; [vm_compute; reflexivity|]).
  by apply not_elem_of_nil in Hin.
Qed.
Lemma hex_roundtrip s : decode_hex (encode_hex s) = Some s.
Proof.
  induction s as [|x s IH]; [done|]. cbn [encode_hex decode_hex].
  rewrite !unhex_digit by digits_in_range. rewrite IH. by rewrite (to_byte_eq _ x) by digits_in_range.
Qed.
Lemma hex_length s : String.length (encode_hex s) = (2 * String.length s)%nat.
Proof. induction s as [|x s IH]; [done|]. cbn [encode_hex String.length]. lia. Qed.

End Encoding.
