(* ===== verification/Hashes.v ===== *)
(** What the sources use of crypto/sha256, crypto/hmac and hash/fnv: the digest
    of tokens, secrets and audit rows, the signature of webhooks, the key of the
    audit log's advisory lock.  Bytes are characters, words are integers kept at
    their width. *)
From Stdlib Require Import Ascii.
From S2P Require Import Prelude GoStrings Encoding.
#[local] Open Scope string_scope.
#[local] Open Scope Z_scope.
Import Encoding.

(** ** Bytes and big-endian words *)

Fixpoint bytes_of (s : str) : list Z :=
  match s with "" => [] | String c s' => byte_of c :: bytes_of s' end.
Fixpoint of_bytes (l : list Z) : str :=
  match l with [] => "" | b :: l' => String (to_byte b) (of_bytes l') end.

Lemma bytes_of_app s t : bytes_of (s ++ t) = (bytes_of s ++ bytes_of t)%list.
Proof. induction s as [|c s IH]; [done|]. change (byte_of c :: bytes_of (s ++ t) = byte_of c :: (bytes_of s ++ bytes_of t)%list). by rewrite IH. Qed.
Lemma length_bytes_of s : length (bytes_of s) = String.length s.
Proof. induction s; cbn; congruence. Qed.
Lemma length_of_bytes l : String.length (of_bytes l) = length l.
Proof. induction l; cbn; congruence. Qed.
Lemma of_bytes_of s : of_bytes (bytes_of s) = s.
Proof. induction s as [|c s IH]; [done|]. cbn [bytes_of of_bytes]. by rewrite IH, to_byte_of. Qed.
Lemma bytes_of_range s : Forall (fun b => 0 <= b < 256) (bytes_of s).
Proof. induction s as [|c s IH]; cbn [bytes_of]; constructor; [apply byte_range|done]. Qed.

Definition byte_at (x : Z) (i : nat) : Z := Z.land (Z.shiftr x (8 * Z.of_nat i)) 255.
(** The [n] low bytes of [x], the highest first. *)
Fixpoint be_bytes (n : nat) (x : Z) : list Z :=
  match n with O => [] | S n' => byte_at x n' :: be_bytes n' x end.
Definition be_word (l : list Z) : Z := fold_left (fun acc b => Z.lor (Z.shiftl acc 8) b) l 0.

Lemma length_be_bytes n x : length (be_bytes n x) = n.
Proof. induction n; cbn; congruence. Qed.

(** A list cut into pieces of [n], the last one possibly shorter; [fuel] pieces
    at most. *)
Fixpoint chunks {A} (fuel n : nat) (l : list A) : list (list A) :=
  match fuel, l with
  | O, _ | _, [] => []
  | S f, _ => take n l :: chunks f n (drop n l)
  end.

Module Sha256.
(** ** SHA-256 *)

Definition w32 (x : Z) : Z := Z.land x 4294967295.
Definition add32 (x y : Z) : Z := w32 (x + y).
Definition rotr (n x : Z) : Z := Z.lor (Z.shiftr x n) (w32 (Z.shiftl x (32 - n))).

(** The constants are digits of roots of the first primes. *)
Fixpoint cbrt_bits (n : nat) (r v : Z) : Z :=
  match n with
  | O => r
  | S n' => let r' := r + 2 ^ Z.of_nat n' in
            cbrt_bits n' (if r' * r' * r' <=? v then r' else r) v
  end.
Definition is_prime (p : Z) : bool :=
  (2 <=? p) && forallb (fun d => negb (p mod Z.of_nat d =? 0)) (seq 2 (Z.to_nat (Z.sqrt p) - 1)).
Definition primes : list Z := Eval vm_compute in
  take 64 (List.filter is_prime (map Z.of_nat (seq 0 312))).
(** The first 32 bits of the fractional parts of their cube roots... *)
Definition round_constants : list Z := Eval vm_compute in
  map (fun p => w32 (cbrt_bits 40 0 (p * 2 ^ 96))) primes.
(** ... and of the square roots of the first eight. *)
Definition initial_state : list Z := Eval vm_compute in
  map (fun p => w32 (Z.sqrt (p * 2 ^ 64))) (take 8 primes).

(** A one bit, zeros up to eight bytes before the end of a block, the length in
    bits. *)
Definition pad (l : list Z) : list Z :=
  let n := Z.of_nat (length l) in
  (l ++ 128 :: repeat 0 (Z.to_nat ((55 - n) mod 64)) ++ be_bytes 8 (8 * n))%list.

Definition small_sigma0 (x : Z) : Z := Z.lxor (Z.lxor (rotr 7 x) (rotr 18 x)) (Z.shiftr x 3).
Definition small_sigma1 (x : Z) : Z := Z.lxor (Z.lxor (rotr 17 x) (rotr 19 x)) (Z.shiftr x 10).
Definition big_sigma0 (x : Z) : Z := Z.lxor (Z.lxor (rotr 2 x) (rotr 13 x)) (rotr 22 x).
Definition big_sigma1 (x : Z) : Z := Z.lxor (Z.lxor (rotr 6 x) (rotr 11 x)) (rotr 25 x).

(** [n] words of the message schedule; [win] holds the next sixteen. *)
Fixpoint schedule (n : nat) (win : list Z) : list Z :=
  match n, win with
  | S n', w0 :: rest =>
      let next := add32 (add32 (small_sigma1 (nth 13 rest 0)) (nth 8 rest 0))
                        (add32 (small_sigma0 (nth 0 rest 0)) w0) in
      w0 :: schedule n' (rest ++ [next])%list
  | _, _ => []
  end.

Definition round (st : list Z) (kw : Z * Z) : list Z :=
  match st with
  | [a; b; c; d; e; f; g; h] =>
      let choose := Z.lxor (Z.land e f) (Z.land (Z.lxor e 4294967295) g) in
      let majority := Z.lxor (Z.lxor (Z.land a b) (Z.land a c)) (Z.land b c) in
      let t1 := w32 (h + big_sigma1 e + choose + fst kw + snd kw) in
      let t2 := add32 (big_sigma0 a) majority in
      [add32 t1 t2; a; b; c; add32 d t1; e; f; g]
  | _ => st
  end.

Definition compress (st block : list Z) : list Z :=
  let ws := schedule 64 (map be_word (chunks 16 4 block)) in
  zip_with add32 st (fold_left round (zip round_constants ws) st).

Definition sum_bytes (l : list Z) : list Z :=
  let m := pad l in
  flat_map (be_bytes 4) (fold_left compress (chunks (length m / 64) 64 m) initial_state).

Definition Sum256 (s : str) : str := of_bytes (sum_bytes (bytes_of s)).

Lemma length_round st kw : length (round st kw) = length st.
Proof. by do 9 (destruct st as [|? st]; [done|]). Qed.
Lemma length_rounds l st : length (fold_left round l st) = length st.
Proof. revert st. induction l as [|x l IH]; intros st; cbn; [done|]. by rewrite IH, length_round. Qed.
Lemma length_compress l st : length (fold_left compress l st) = length st.
Proof.
  revert st. induction l as [|b l IH]; intros st; [done|]. cbn [fold_left].
  rewrite IH. unfold compress. rewrite length_zip_with, length_rounds. lia.
Qed.
Lemma length_flat_words l : length (flat_map (be_bytes 4) l) = (4 * length l)%nat.
Proof.
  induction l as [|w l IH]; [done|]. cbn [flat_map]. rewrite length_app, length_be_bytes, IH.
  cbn [length]. lia.
Qed.

(** A digest has 32 bytes. *)
Lemma Sum256_length s : String.length (Sum256 s) = 32%nat.
Proof.
  unfold Sum256, sum_bytes. rewrite length_of_bytes, length_flat_words, length_compress. reflexivity.
Qed.

(** The padded message is a whole number of blocks, so none of it is left out. *)
Lemma pad_blocks l : exists k, length (pad l) = (64 * k)%nat.
Proof.
  unfold pad. rewrite !length_app. cbn [length]. rewrite length_app, repeat_length, length_be_bytes.
  exists (Z.to_nat ((Z.of_nat (length l) + 72) / 64)).
  pose proof (Z.mod_pos_bound (55 - Z.of_nat (length l)) 64). apply Nat2Z.inj.
  rewrite Nat2Z.inj_mul, Z2Nat.id by (apply Z.div_pos; lia).
  rewrite !Nat2Z.inj_add, !Nat2Z.inj_succ, !Nat2Z.inj_add, Z2Nat.id by lia.
  Z.to_euclidean_division_equations. lia.
Qed.

Example Sum256_empty : encode_hex (Sum256 "") =
  "e3b0c44298fc1c149afbf4c8996fb92427ae41e4649b934ca495991b7852b855".
Proof. vm_compute. reflexivity. Qed.
Example Sum256_abc : encode_hex (Sum256 "abc") =
  "ba7816bf8f01cfea414140de5dae2223b00361a396177a9cb410ff61f20015ad".
Proof. vm_compute. reflexivity. Qed.
Example Sum256_two_blocks :
  encode_hex (Sum256 "abcdbcdecdefdefgefghfghighijhijkijkljklmklmnlmnomnopnopq") =
  "248d6a61d20638b8e5c026930c3e6039a33ce45964ff2167f6ecedd419db06c1".
Proof. vm_compute. reflexivity. Qed.
End Sha256.
#[global] Opaque Sha256.Sum256.

(** ** HMAC with SHA-256 *)

Definition hmac_key (key : str) : list Z :=
  let k := bytes_of (if (64 <? String.length key)%nat then Sha256.Sum256 key else key) in
  (k ++ repeat 0 (64 - length k))%list.
(** [hmac.New(sha256.New, key)], [Write(msg)], [Sum(nil)] *)
Definition hmac_sha256 (key msg : str) : str :=
  let k := hmac_key key in
  let inner := Sha256.sum_bytes (map (Z.lxor 54) k ++ bytes_of msg)%list in
  of_bytes (Sha256.sum_bytes (map (Z.lxor 92) k ++ inner)%list).

Example hmac_jefe : encode_hex (hmac_sha256 "Jefe" "what do ya want for nothing?") =
  "5bdcc146bf60754e6a042426089575c75a003f089d2739839dec58b964ec3843".
Proof. vm_compute. reflexivity. Qed.

(** ** FNV-1a, 64 bits *)

Definition fnv64a (s : str) : Z :=
  fold_left (fun h b => Z.land (Z.lxor h b * 1099511628211) 18446744073709551615)
    (bytes_of s) 14695981039346656037.
Example fnv64a_a : fnv64a "a" = 12638187200555641996.
Proof. reflexivity. Qed.
