(* ===== verification/GoTime.v ===== *)
(** What the sources use of package time: the calendar and the layouts of
    [Time.Format] in UTC.  A time is its number of nanoseconds since 1970. *)
From Stdlib Require Import Ascii.
From S2P Require Import Prelude GoStrings Encoding.
Import Encoding.
#[local] Open Scope string_scope.
#[local] Open Scope Z_scope.

Module Time.

Definition second_ns : Z := 10 ^ 9.
Definition day_ns : Z := 24 * 3600 * second_ns.

(** The proleptic Gregorian date of a day number (days since 1970-01-01): years
    start in March and are counted in eras of 400. *)
Definition civil (days : Z) : Z * Z * Z :=
  let z := days + 719468 in
  let era := z / 146097 in
  let doe := z mod 146097 in
  let yoe := (doe - doe / 1460 + doe / 36524 - doe / 146096) / 365 in
  let doy := doe - (365 * yoe + yoe / 4 - yoe / 100) in
  let mp := (5 * doy + 2) / 153 in
  let d := doy - (153 * mp + 2) / 5 + 1 in
  let m := if mp <? 10 then mp + 3 else mp - 9 in
  (yoe + era * 400 + (if m <=? 2 then 1 else 0), m, d).

(** The day number of a date. *)
Definition day_number (y m d : Z) : Z :=
  let y' := if m <=? 2 then y - 1 else y in
  let mp := (m + 9) mod 12 in
  let yoe := y' mod 400 in
  let doy := (153 * mp + 2) / 5 + d - 1 in
  y' / 400 * 146097 + yoe * 365 + yoe / 4 - yoe / 100 + doy - 719468.

(** [t.AddDate], in UTC: months overflow into years and days into months. *)
Definition AddDate (years months days : Z) (t : Z) : Z :=
  let '(y, m, d) := civil (t / day_ns) in
  let m0 := m - 1 + months in
  day_number (y + years + m0 / 12) (m0 mod 12 + 1) (d + days) * day_ns + t mod day_ns.

(** ** Layouts *)

Fixpoint fixed (width : nat) (z : Z) : str :=
  match width with
  | O => ""
  | S w => String (to_byte (48 + z / 10 ^ Z.of_nat w mod 10)) (fixed w z)
  end%Z.
(** A number at least [width] digits wide, the sign not counted. *)
Definition appendInt (width : nat) (z : Z) : str :=
  let u := Z.abs z in
  (if z <? 0 then "-" else "") ++ (if u <? 10 ^ Z.of_nat width then fixed width u else Itoa u).

Definition clock (t : Z) : Z * Z * Z :=
  let s := t mod day_ns / second_ns in (s / 3600, s / 60 mod 60, s mod 60).

(** [t.Format("2006-01-02")] *)
Definition day_string (t : Z) : str :=
  let '(y, m, d) := civil (t / day_ns) in
  appendInt 4 y ++ "-" ++ appendInt 2 m ++ "-" ++ appendInt 2 d.
(** [t.Format("20060102-150405")] *)
Definition file_stamp (t : Z) : str :=
  let '(y, mo, d) := civil (t / day_ns) in
  let '(h, mi, s) := clock t in
  appendInt 4 y ++ appendInt 2 mo ++ appendInt 2 d ++ "-" ++
  appendInt 2 h ++ appendInt 2 mi ++ appendInt 2 s.
Definition second_string (t : Z) : str :=
  let '(h, mi, s) := clock t in
  day_string t ++ "T" ++ appendInt 2 h ++ ":" ++ appendInt 2 mi ++ ":" ++ appendInt 2 s.
(** [t.UTC().Format(time.RFC3339)], the layout "2006-01-02T15:04:05Z07:00" *)
Definition RFC3339 (t : Z) : str := second_string t ++ "Z".
(** The layout's ".999999999": without trailing zeros, nothing for a whole second. *)
Definition fraction (ns : Z) : str :=
  if ns =? 0 then "" else "." ++ TrimRightByte (fixed 9 ns) "0".
(** [t.UTC().Format(time.RFC3339Nano)] *)
Definition RFC3339Nano (t : Z) : str := second_string t ++ fraction (t mod second_ns) ++ "Z".

Example RFC3339_ex : (RFC3339 0, RFC3339 951782400000000000, RFC3339 4102444799000000000) =
  ("1970-01-01T00:00:00Z", "2000-02-29T00:00:00Z", "2099-12-31T23:59:59Z").
Proof. reflexivity. Qed.
Example RFC3339Nano_ex : (RFC3339Nano 1700000000123456000, RFC3339Nano 1700000000000000001,
    RFC3339Nano 1700000000000000000) =
  ("2023-11-14T22:13:20.123456Z", "2023-11-14T22:13:20.000000001Z", "2023-11-14T22:13:20Z").
Proof. reflexivity. Qed.
Example file_stamp_ex : file_stamp 1700000000123456000 = "20231114-221320".
Proof. reflexivity. Qed.

(** ** The calendar loses nothing *)

Ltac euclid := Z.to_euclidean_division_equations; lia.

Lemma year_of_era doe : 0 <= doe < 146097 ->
  let yoe := (doe - doe / 1460 + doe / 36524 - doe / 146096) / 365 in
  0 <= yoe < 400 /\ 0 <= doe - (365 * yoe + yoe / 4 - yoe / 100) <= 365.
Proof. intros H. cbv zeta. euclid. Qed.

Lemma month_of_year doy : 0 <= doy <= 365 ->
  let mp := (5 * doy + 2) / 153 in 0 <= mp <= 11 /\ 1 <= doy - (153 * mp + 2) / 5 + 1 <= 31.
Proof. intros H. cbv zeta. euclid. Qed.

Lemma day_number_civil n : let '(y, m, d) := civil n in day_number y m d = n.
Proof.
  unfold civil, day_number. set (z := n + 719468).
  pose proof (Z.mod_pos_bound z 146097 ltac:(lia)) as Hb.
  pose proof (Z.div_mod z 146097 ltac:(lia)) as Hz.
  set (doe := z mod 146097) in *. set (era := z / 146097) in *.
  destruct (year_of_era doe Hb) as [Hy Hd]. cbv zeta in Hy, Hd |- *.
  set (yoe := (_ / 365)) in *. set (doy := doe - (365 * yoe + yoe / 4 - yoe / 100)) in *.
  set (mp := (5 * doy + 2) / 153). destruct (month_of_year doy Hd) as [Hm _]. cbv zeta in Hm. fold mp in Hm.
  set (m := if mp <? 10 then mp + 3 else mp - 9).
  assert ((m + 9) mod 12 = mp) as -> by (clear -Hm; unfold m; destruct (Z.ltb_spec mp 10); clearbody mp; euclid).
  assert ((if m <=? 2 then yoe + era * 400 + (if m <=? 2 then 1 else 0) - 1
           else yoe + era * 400 + (if m <=? 2 then 1 else 0)) = yoe + era * 400) as ->
    by (destruct (m <=? 2); lia).
  rewrite Z.div_add, Z.mod_add, (Z.div_small yoe), (Z.mod_small yoe) by lia. lia.
Qed.

Lemma civil_inj n1 n2 : civil n1 = civil n2 -> n1 = n2.
Proof.
  intros H. pose proof (day_number_civil n1) as H1. pose proof (day_number_civil n2) as H2.
  rewrite H in H1. destruct (civil n2) as [[y m] d]. congruence.
Qed.

Lemma civil_range n : let '(y, m, d) := civil n in 1 <= m <= 12 /\ 1 <= d <= 31.
Proof.
  unfold civil. set (z := n + 719468).
  pose proof (Z.mod_pos_bound z 146097 ltac:(lia)) as Hb. set (doe := z mod 146097) in *.
  destruct (year_of_era doe Hb) as [Hy Hd]. cbv zeta in Hy, Hd |- *.
  set (yoe := (_ / 365)) in *. set (doy := doe - (365 * yoe + yoe / 4 - yoe / 100)) in *.
  destruct (month_of_year doy Hd) as [Hm Hd']. cbv zeta in Hm, Hd'.
  split; [|exact Hd']. destruct (Z.ltb_spec ((5 * doy + 2) / 153) 10); lia.
Qed.

(** ** The layouts lose nothing *)

Lemma fixed_length w z : String.length (fixed w z) = w.
Proof. induction w; cbn [fixed String.length]; congruence. Qed.

Lemma digit_byte_inj a b : 0 <= a < 10 -> 0 <= b < 10 -> to_byte (48 + a) = to_byte (48 + b) -> a = b.
Proof.
  intros Ha Hb H. unfold to_byte in H. apply (f_equal nat_of_ascii) in H.
  rewrite !nat_ascii_embedding in H by lia. lia.
Qed.

Lemma fixed_inj w a b : fixed w a = fixed w b -> a mod 10 ^ Z.of_nat w = b mod 10 ^ Z.of_nat w.
Proof.
  induction w as [|w IH]; [by rewrite !Z.mod_1_r|]. cbn [fixed]. intros [= H1 H2].
  replace (Z.of_nat (S w)) with (Z.of_nat w + 1) by lia.
  rewrite Z.pow_add_r, !Z.rem_mul_r, (IH H2) by lia. do 2 f_equal.
  apply digit_byte_inj in H1; [done|apply Z.mod_pos_bound; lia..].
Qed.

Lemma appendInt_fixed w z : 0 <= z < 10 ^ Z.of_nat w -> appendInt w z = fixed w z.
Proof.
  intros H. unfold appendInt. rewrite Z.abs_eq by lia.
  rewrite (proj2 (Z.ltb_ge z 0)), (proj2 (Z.ltb_lt z _)) by lia. done.
Qed.
Lemma appendInt_inj w a b : 0 <= a < 10 ^ Z.of_nat w -> 0 <= b < 10 ^ Z.of_nat w ->
  appendInt w a = appendInt w b -> a = b.
Proof.
  intros Ha Hb. rewrite !appendInt_fixed by done. intros H%fixed_inj.
  by rewrite !Z.mod_small in H.
Qed.
Lemma appendInt_length w z : 0 <= z < 10 ^ Z.of_nat w -> String.length (appendInt w z) = w.
Proof. intros H. by rewrite appendInt_fixed, fixed_length. Qed.

(** Times of the years 0 to 9999, for which the layouts have a fixed width. *)
Definition four_digit_year (t : Z) : Prop := let '(y, _, _) := civil (t / day_ns) in 0 <= y < 10 ^ 4.

Ltac cut H := apply str_app_cut in H as [? H]; [|rewrite ?appendInt_length by lia; reflexivity].

Lemma day_string_parts t : four_digit_year t ->
  let '(y, m, d) := civil (t / day_ns) in 0 <= y < 10 ^ 4 /\ 0 <= m < 10 ^ 2 /\ 0 <= d < 10 ^ 2.
Proof.
  unfold four_digit_year. pose proof (civil_range (t / day_ns)) as H.
  destruct (civil _) as [[y m] d]. lia.
Qed.
Lemma day_string_length t : four_digit_year t -> String.length (day_string t) = 10%nat.
Proof.
  intros H%day_string_parts. unfold day_string. destruct (civil _) as [[y m] d].
  destruct H as (Hy & Hm & Hd). rewrite !str_length_app, !appendInt_length by done. done.
Qed.

(** Two days never share a date. *)
Lemma day_string_inj t1 t2 : four_digit_year t1 -> four_digit_year t2 ->
  day_string t1 = day_string t2 -> t1 / day_ns = t2 / day_ns.
Proof.
  intros H1%day_string_parts H2%day_string_parts H. apply civil_inj. unfold day_string in H.
  destruct (civil (t1 / day_ns)) as [[y1 m1] d1], (civil (t2 / day_ns)) as [[y2 m2] d2].
  destruct H1 as (Y1 & M1 & D1), H2 as (Y2 & M2 & D2).
  cut H. cut H. cut H. cut H.
  by repeat match goal with H : appendInt _ _ = appendInt _ _ |- _ => apply appendInt_inj in H; [subst|done..] end.
Qed.

Lemma clock_range t : let '(h, mi, s) := clock t in
  0 <= h < 10 ^ 2 /\ 0 <= mi < 10 ^ 2 /\ 0 <= s < 10 ^ 2.
Proof. unfold clock, day_ns, second_ns. euclid. Qed.

Lemma clock_inj t1 t2 : clock t1 = clock t2 ->
  t1 mod day_ns / second_ns = t2 mod day_ns / second_ns.
Proof.
  unfold clock. generalize (t1 mod day_ns / second_ns) (t2 mod day_ns / second_ns).
  intros a b [= Ha Hb Hc]. euclid.
Qed.

Lemma second_string_length t : four_digit_year t -> String.length (second_string t) = 19%nat.
Proof.
  intros H. unfold second_string. pose proof (clock_range t) as Hc. destruct (clock t) as [[h mi] s].
  destruct Hc as (? & ? & ?). rewrite !str_length_app, !appendInt_length, day_string_length by done. done.
Qed.

Lemma second_string_inj t1 t2 : four_digit_year t1 -> four_digit_year t2 ->
  second_string t1 = second_string t2 -> t1 / second_ns = t2 / second_ns.
Proof.
  intros H1 H2 H. unfold second_string in H. pose proof (clock_range t1) as C1.
  pose proof (clock_range t2) as C2. pose proof (clock_inj t1 t2) as Hi.
  destruct (clock t1) as [[h1 m1] s1], (clock t2) as [[h2 m2] s2].
  destruct C1 as (? & ? & ?), C2 as (? & ? & ?).
  apply str_app_cut in H as [Hd H]; [|by rewrite !day_string_length].
  cut H. cut H. cut H. cut H. cut H. apply day_string_inj in Hd; [|done..].
  repeat match goal with H : appendInt _ _ = appendInt _ _ |- _ => apply appendInt_inj in H; [subst|done..] end.
  specialize (Hi eq_refl). clear -Hd Hi. unfold day_ns, second_ns in *. euclid.
Qed.

(** ** Fractions of a second *)

Lemma trim_right_inj c s t : String.length s = String.length t ->
  TrimRightByte s c = TrimRightByte t c -> s = t.
Proof.
  unfold TrimRightByte. revert t.
  induction s as [|a s IH]; intros [|b t] Hl H; try discriminate Hl; [done|].
  injection Hl as Hl. specialize (IH t Hl). cbn [trim_right] in H.
  destruct (trim_right _ s) as [|x s'] eqn:Es, (trim_right _ t) as [|y t'] eqn:Et.
  - rewrite IH by done. destruct (Ascii.eqb_spec c a), (Ascii.eqb_spec c b); congruence.
  - destruct (Ascii.eqb c a); discriminate H.
  - destruct (Ascii.eqb c b); discriminate H.
  - injection H as -> -> ->. by rewrite IH.
Qed.

Lemma fraction_inj a b : 0 <= a < second_ns -> 0 <= b < second_ns ->
  fraction a ++ "Z" = fraction b ++ "Z" -> a = b.
Proof.
  intros Ha Hb. unfold fraction.
  destruct (Z.eqb_spec a 0) as [->|Ha0], (Z.eqb_spec b 0) as [->|Hb0]; intros H; [done|discriminate H..|].
  rewrite !str_app_assoc in H. apply (str_app_inj_l "."), str_app_inj_r in H.
  apply trim_right_inj, fixed_inj in H; [|by rewrite !fixed_length].
  by rewrite !Z.mod_small in H.
Qed.

(** Two times never share their text in nanoseconds. *)
Lemma RFC3339Nano_inj t1 t2 : four_digit_year t1 -> four_digit_year t2 ->
  RFC3339Nano t1 = RFC3339Nano t2 -> t1 = t2.
Proof.
  intros H1 H2 H. unfold RFC3339Nano in H.
  apply str_app_cut in H as [Hs Hf]; [|by rewrite !second_string_length].
  apply second_string_inj in Hs; [|done..].
  apply fraction_inj in Hf; [|apply Z.mod_pos_bound; done..].
  rewrite (Z.div_mod t1 second_ns), (Z.div_mod t2 second_ns) by done. congruence.
Qed.

(** In seconds they share it exactly within a second. *)
Lemma RFC3339_inj t1 t2 : four_digit_year t1 -> four_digit_year t2 ->
  RFC3339 t1 = RFC3339 t2 -> t1 / second_ns = t2 / second_ns.
Proof. intros H1 H2 H%str_app_inj_r. by apply second_string_inj. Qed.

(** A year on is 365 or 366 days on. *)
Lemma day_number_next_year y m d : 1 <= m <= 12 ->
  day_number y m d + 365 <= day_number (y + 1) m d <= day_number y m d + 366.
Proof.
  intros Hm. unfold day_number.
  replace (if m <=? 2 then y + 1 - 1 else y + 1) with ((if m <=? 2 then y - 1 else y) + 1)
    by (destruct (m <=? 2); lia).
  set (v := if m <=? 2 then y - 1 else y). generalize ((153 * ((m + 9) mod 12) + 2) / 5 + d - 1). intros k.
  pose proof (Z.div_mod v 400 ltac:(done)). pose proof (Z.mod_pos_bound v 400 ltac:(done)).
  destruct (decide (v mod 400 = 399)) as [E|E].
  - replace ((v + 1) / 400) with (v / 400 + 1) by (Z.to_euclidean_division_equations; lia).
    replace ((v + 1) mod 400) with 0 by (Z.to_euclidean_division_equations; lia).
    rewrite E. change (399 / 4) with 99. change (399 / 100) with 3. change (0 / 4) with 0. change (0 / 100) with 0. lia.
  - replace ((v + 1) / 400) with (v / 400) by (Z.to_euclidean_division_equations; lia).
    replace ((v + 1) mod 400) with (v mod 400 + 1) by (Z.to_euclidean_division_equations; lia).
    generalize dependent (v mod 400). intros q Hv Hq E.
    assert (q / 4 <= (q + 1) / 4 <= q / 4 + 1) by (Z.to_euclidean_division_equations; lia).
    assert (q / 100 <= (q + 1) / 100 <= q / 100 + 1) by (Z.to_euclidean_division_equations; lia).
    assert ((q + 1) / 100 = q / 100 + 1 -> (q + 1) / 4 = q / 4 + 1) by (Z.to_euclidean_division_equations; lia).
    lia.
Qed.
Lemma AddDate_year t :
  t + 365 * day_ns <= AddDate 1 0 0 t <= t + 366 * day_ns.
Proof.
  unfold AddDate. pose proof (day_number_civil (t / day_ns)) as Hn. pose proof (civil_range (t / day_ns)) as Hr.
  destruct (civil (t / day_ns)) as [[y m] d]. destruct Hr as [Hm _].
  rewrite Z.add_0_r, Z.div_small, Z.mod_small, !Z.add_0_r by lia.
  replace (m - 1 + 1) with m by lia.
  pose proof (day_number_next_year y m d Hm) as H. rewrite Hn in H.
  pose proof (Z.div_mod t day_ns ltac:(done)). assert (0 < day_ns) by done. nia.
Qed.
End Time.
