(* ===== verification/AesGcm.v ===== *)
(** crypto/aes and crypto/cipher's GCM, as envelope encryption uses them: a key of
    16, 24 or 32 bytes, a nonce of 12, no additional data.  Bytes are characters
    outside and integers below 256 inside; a block is the list of its 16 bytes. *)
From Stdlib Require Import Ascii.
From S2P Require Import Prelude GoStrings Encoding Hashes.
#[local] Open Scope string_scope.
#[local] Open Scope Z_scope.
Import Encoding.

Module AesGcm.

(** ** AES *)

(** Multiplication in GF(2^8) modulo x^8 + x^4 + x^3 + x + 1. *)
Definition xtime (a : Z) : Z :=
  let d := Z.shiftl a 1 in if Z.testbit a 7 then Z.lxor d 283 else d.
Fixpoint gf_mul (n : nat) (a b : Z) : Z :=
  match n with
  | O => 0
  | S n' => Z.lxor (if Z.testbit b 0 then a else 0) (gf_mul n' (xtime a) (Z.shiftr b 1))
  end.
(** The inverse is the 254th power. *)
Definition gf_inverse (a : Z) : Z :=
  let square x := gf_mul 8 x x in
  let a2 := square a in let a4 := square a2 in let a8 := square a4 in let a16 := square a8 in
  let a32 := square a16 in let a64 := square a32 in let a128 := square a64 in
  fold_left (gf_mul 8) [a4; a8; a16; a32; a64; a128] a2.
Definition rotl8 (x n : Z) : Z := Z.land (Z.lor (Z.shiftl x n) (Z.shiftr x (8 - n))) 255.
Definition affine (x : Z) : Z :=
  fold_left Z.lxor [rotl8 x 1; rotl8 x 2; rotl8 x 3; rotl8 x 4; 99] x.
Definition sbox_table : list Z := Eval vm_compute in
  map (fun i => affine (gf_inverse (Z.of_nat i))) (seq 0 256).
Definition sbox (x : Z) : Z := nth (Z.to_nat x) sbox_table 0.

(** The key schedule in words of four bytes, the last one first; [nk] words of key. *)
Definition xor_word (a b : list Z) : list Z := zip_with Z.lxor a b.
Definition rot_word (w : list Z) : list Z := (drop 1 w ++ take 1 w)%list.
Fixpoint expand (n i nk : nat) (rcon : Z) (ws : list (list Z)) : list (list Z) :=
  match n with
  | O => ws
  | S n' =>
      let prev := nth 0 ws [] in
      let first := Nat.eqb (i mod nk) 0 in
      let temp :=
        if first then xor_word (map sbox (rot_word prev)) [rcon; 0; 0; 0]
        else if (6 <? nk)%nat && Nat.eqb (i mod nk) 4 then map sbox prev else prev in
      expand n' (S i) nk (if first then xtime rcon else rcon)
        (xor_word (nth (nk - 1) ws []) temp :: ws)
  end.
Definition round_keys (key : list Z) : list (list Z) :=
  let nk := (length key / 4)%nat in
  let ws := rev (chunks nk 4 key) in
  chunks (nk + 7) 16 (concat (rev (expand (4 * (nk + 7) - nk) nk nk 1 ws))).

Definition add_round_key (st k : list Z) : list Z :=
  map (fun i => Z.lxor (nth i st 0) (nth i k 0)) (seq 0 16).
(** Row [r] of the state, bytes r, r+4, r+8, r+12, moves [r] columns. *)
Definition shift_rows (st : list Z) : list Z :=
  map (fun i => nth ((i + 4 * (i mod 4)) mod 16) st 0) (seq 0 16).
Definition mix_column (c : list Z) : list Z :=
  match c with
  | [a0; a1; a2; a3] =>
      let mix a b x y := fold_left Z.lxor [xtime b; b; x; y] (xtime a) in
      [mix a0 a1 a2 a3; mix a1 a2 a3 a0; mix a2 a3 a0 a1; mix a3 a0 a1 a2]
  | _ => c
  end.
Definition mix_columns (st : list Z) : list Z := flat_map mix_column (chunks 4 4 st).

Fixpoint rounds (ks : list (list Z)) (st : list Z) : list Z :=
  match ks with
  | [] => st
  | [k] => add_round_key (shift_rows (map sbox st)) k
  | k :: ks' => rounds ks' (add_round_key (mix_columns (shift_rows (map sbox st))) k)
  end.
Definition encrypt_block (ks : list (list Z)) (block : list Z) : list Z :=
  match ks with [] => block | k :: ks' => rounds ks' (add_round_key block k) end.

(** ** GHASH: multiplication in GF(2^128), the first bit of a block the highest *)

Definition ghash_poly : Z := Z.shiftl 225 120.
Fixpoint gf128_mul (n : nat) (x z v : Z) : Z :=
  match n with
  | O => z
  | S n' =>
      gf128_mul n' x (if Z.testbit x (Z.of_nat n') then Z.lxor z v else z)
        (if Z.testbit v 0 then Z.lxor (Z.shiftr v 1) ghash_poly else Z.shiftr v 1)
  end.
Definition pad16 (l : list Z) : list Z :=
  (l ++ repeat 0 (Z.to_nat ((- Z.of_nat (length l)) mod 16)))%list.
Definition ghash (h : Z) (data : list Z) : Z :=
  fold_left (fun y b => gf128_mul 128 (Z.lxor y (be_word b)) 0 h) (chunks (length data) 16 data) 0.

(** ** GCM *)

(** Block [i] of the counter mode; the blocks of a message are numbered from 2. *)
Definition counter_block (ks : list (list Z)) (nonce : str) (i : Z) : list Z :=
  encrypt_block ks (bytes_of nonce ++ be_bytes 4 i)%list.
Definition keystream (ks : list (list Z)) (nonce : str) (blocks : nat) : str :=
  of_bytes (flat_map (fun i => counter_block ks nonce (2 + Z.of_nat i)) (seq 0 blocks)).

Definition byte_xor (a b : ascii) : ascii :=
  let '(Ascii a0 a1 a2 a3 a4 a5 a6 a7) := a in
  let '(Ascii b0 b1 b2 b3 b4 b5 b6 b7) := b in
  Ascii (xorb a0 b0) (xorb a1 b1) (xorb a2 b2) (xorb a3 b3)
        (xorb a4 b4) (xorb a5 b5) (xorb a6 b6) (xorb a7 b7).
Fixpoint xor_str (s t : str) : str :=
  match s, t with
  | String a s', String b t' => String (byte_xor a b) (xor_str s' t')
  | _, _ => ""
  end.
Definition crypt (ks : list (list Z)) (nonce text : str) : str :=
  xor_str text (keystream ks nonce ((String.length text + 15) / 16)).

Definition tag (ks : list (list Z)) (nonce ciphertext : str) : str :=
  let h := be_word (encrypt_block ks (repeat 0 16)) in
  let c := bytes_of ciphertext in
  let s := ghash h (pad16 c ++ be_bytes 8 0 ++ be_bytes 8 (8 * Z.of_nat (length c)))%list in
  xor_str (of_bytes (be_bytes 16 s)) (of_bytes (counter_block ks nonce 1)).

Definition tag_size : nat := 16.
(** [gcm.Seal(nil, nonce, plaintext, nil)] *)
Definition Seal (key nonce plaintext : str) : str :=
  let ks := round_keys (bytes_of key) in
  let c := crypt ks nonce plaintext in c ++ tag ks nonce c.
(** [gcm.Open(nil, nonce, ciphertext, nil)]: [None] is the authentication failure. *)
Definition Open (key nonce ciphertext : str) : option str :=
  let n := String.length ciphertext in
  if (n <? tag_size)%nat then None
  else
    let ks := round_keys (bytes_of key) in
    let c := str_take (n - tag_size) ciphertext in
    if str_drop (n - tag_size) ciphertext =s tag ks nonce c then Some (crypt ks nonce c) else None.

(** ** The published test vectors *)

Definition zero_str (n : nat) : str := of_bytes (repeat 0 n).
Example aes256_zero : encode_hex (of_bytes (encrypt_block (round_keys (map Z.of_nat (seq 0 32)))
    (map (fun i => 17 * Z.of_nat i) (seq 0 16)))) = "8ea2b7ca516745bfeafc49904b496089".
Proof. vm_compute. reflexivity. Qed.
Example aes128_zero : encode_hex (of_bytes (encrypt_block (round_keys (map Z.of_nat (seq 0 16)))
    (map (fun i => 17 * Z.of_nat i) (seq 0 16)))) = "69c4e0d86a7b0430d8cdb78070b4c55a".
Proof. vm_compute. reflexivity. Qed.
Example gcm_empty : encode_hex (Seal (zero_str 32) (zero_str 12) "") =
  "530f8afbc74536b9a963b4f1c4cb738b".
Proof. vm_compute. reflexivity. Qed.
Example gcm_zero_block : encode_hex (Seal (zero_str 32) (zero_str 12) (zero_str 16)) =
  "cea7403d4d606b6e074ec5d3baf39d18d0d1c8a799996bf0265b98b5d48ab919".
Proof. vm_compute. reflexivity. Qed.
Example gcm_tampered : Open (zero_str 32) (zero_str 12) (zero_str 32) = None.
Proof. vm_compute. reflexivity. Qed.

(** ** What GCM guarantees *)

Lemma rounds_length ks st : length st = 16%nat -> length (rounds ks st) = 16%nat.
Proof. revert st. induction ks as [|k [|k' ks] IH]; intros st H; [done|done|]. by apply IH. Qed.
Lemma encrypt_block_length ks block : length block = 16%nat ->
  length (encrypt_block ks block) = 16%nat.
Proof. destruct ks; [done|]. intros _. by apply rounds_length. Qed.
Lemma counter_block_length ks nonce i : String.length nonce = 12%nat ->
  length (counter_block ks nonce i) = 16%nat.
Proof.
  intros H. apply encrypt_block_length. by rewrite length_app, length_bytes_of, H, length_be_bytes.
Qed.
Lemma keystream_length ks nonce n : String.length nonce = 12%nat ->
  String.length (keystream ks nonce n) = (16 * n)%nat.
Proof.
  intros H. unfold keystream. rewrite length_of_bytes.
  enough (forall i, length (flat_map (fun i => counter_block ks nonce (2 + Z.of_nat i)) (seq i n))
            = (16 * n)%nat) as Hi by apply Hi.
  induction n as [|n IH]; intros i; [done|]. cbn [seq flat_map].
  rewrite length_app, counter_block_length, IH by done. lia.
Qed.

Lemma byte_xor_involutive a b : byte_xor (byte_xor a b) b = a.
Proof.
  destruct a, b. cbn. f_equal; rewrite xorb_assoc, xorb_nilpotent; apply xorb_false_r.
Qed.
Lemma xor_str_length s t : (String.length s <= String.length t)%nat ->
  String.length (xor_str s t) = String.length s.
Proof.
  revert t. induction s as [|a s IH]; intros [|b t] H; cbn in *; try lia. rewrite IH; lia.
Qed.
Lemma xor_str_involutive s t : (String.length s <= String.length t)%nat ->
  xor_str (xor_str s t) t = s.
Proof.
  revert t. induction s as [|a s IH]; intros [|b t] H; cbn in *; try lia; [done|done|].
  rewrite byte_xor_involutive, IH by lia. done.
Qed.

Section Laws.
Context (nonce : str) (Hn : String.length nonce = 12%nat).
Implicit Types (ks : list (list Z)) (key p c : str).

Lemma keystream_enough ks p :
  (String.length p <= String.length (keystream ks nonce ((String.length p + 15) / 16)))%nat.
Proof.
  rewrite keystream_length by done.
  pose proof (Nat.div_mod_eq (String.length p + 15) 16).
  pose proof (Nat.mod_upper_bound (String.length p + 15) 16). lia.
Qed.
Lemma crypt_length ks p : String.length (crypt ks nonce p) = String.length p.
Proof. apply xor_str_length, keystream_enough. Qed.
Lemma crypt_involutive ks p : crypt ks nonce (crypt ks nonce p) = p.
Proof.
  unfold crypt at 1. rewrite crypt_length. apply xor_str_involutive, keystream_enough.
Qed.
Lemma tag_length ks c : String.length (tag ks nonce c) = tag_size.
Proof.
  unfold tag. rewrite xor_str_length; rewrite !length_of_bytes, ?length_be_bytes; [done|].
  by rewrite counter_block_length.
Qed.

Lemma Seal_length key p : String.length (Seal key nonce p) = (String.length p + tag_size)%nat.
Proof. unfold Seal. by rewrite str_length_app, crypt_length, tag_length. Qed.

(** Decryption undoes encryption. *)
Lemma Open_Seal key p : Open key nonce (Seal key nonce p) = Some p.
Proof.
  unfold Open. rewrite Seal_length.
  replace (String.length p + tag_size - tag_size)%nat with (String.length p) by lia.
  rewrite (proj2 (Nat.ltb_ge _ _)) by (unfold tag_size; lia).
  unfold Seal. set (ks := round_keys _). set (c := crypt ks nonce p).
  assert (String.length p = String.length c) as -> by (symmetry; apply crypt_length).
  rewrite str_take_app, str_drop_app, eqb_refl_str. unfold c. by rewrite crypt_involutive.
Qed.

(** A ciphertext that is accepted is the encryption of what it decrypts to. *)
Lemma Open_authentic key c p : Open key nonce c = Some p -> c = Seal key nonce p.
Proof.
  unfold Open. destruct (_ <? _)%nat; [done|]. set (ks := round_keys _).
  set (n := (String.length c - tag_size)%nat).
  destruct (str_drop n c =s _) eqn:E; [|done]. apply String.eqb_eq in E. intros [= <-].
  unfold Seal. fold ks. by rewrite crypt_involutive, <- E, str_take_drop.
Qed.
End Laws.
End AesGcm.
