(* ===== verification/Json.v ===== *)
(** encoding/json as the request decoder of respond.go uses it: JSON values, decoding
    into a Go value, request bodies read under a size limit.

    A decoder takes the value the destination already holds, because that is what
    [json.Decoder.Decode] fills in: null leaves a scalar as it is, a repeated key
    decodes into the result of the first.  [None] is an error: with
    [DisallowUnknownFields] a key no field claims is one, and so is a value of the
    wrong type or a number that does not fit. *)
From Stdlib Require Import Ascii.
From S2P Require Import Prelude GoStrings.
#[local] Set Warnings "-register-all".
#[local] Open Scope string_scope.

Module Json.

Inductive JV :=
  | JNull
  | JBool (b : bool)
  (** the literal as written *)
  | JNum (lit : str)
  | JStr (s : str)
  | JArr (l : list JV)
  | JObj (fields : list (str * JV)).

Definition Decoder (A : Type) : Type := A -> JV -> option A.

Definition string_ : Decoder str := fun cur v =>
  match v with JStr s => Some s | JNull => Some cur | _ => None end.
Definition bool_ : Decoder bool := fun cur v =>
  match v with JBool b => Some b | JNull => Some cur | _ => None end.
(** [int] and [int64]: the literal must be an integer of 64 bits. *)
Definition int_ : Decoder Z := fun cur v =>
  match v with JNum lit => Atoi lit | JNull => Some cur | _ => None end.
(** A pointer: null makes it nil, anything else allocates when it is nil. *)
Definition pointer {A} (zero : A) (d : Decoder A) : Decoder (option A) := fun cur v =>
  match v with JNull => Some None | _ => Some <$> d (default zero cur) v end.

(** A slice: the i-th element decodes into what the slice holds at i. *)
Fixpoint elements {A} (zero : A) (d : Decoder A) (cur : list A) (l : list JV) : option (list A) :=
  match l with
  | [] => Some []
  | v :: l' =>
      match d (default zero (head cur)) v with
      | None => None
      | Some a => cons a <$> elements zero d (tail cur) l'
      end
  end.
Definition slice {A} (zero : A) (d : Decoder A) : Decoder (list A) := fun cur v =>
  match v with JNull => Some [] | JArr l => elements zero d cur l | _ => None end.

(** [map[string]string]: entries are added to the map there is. *)
Definition string_map : Decoder (gmap str str) := fun cur v =>
  match v with
  | JNull => Some ∅
  | JObj fs => foldl (fun acc '(k, v) =>
                        match acc with
                        | None => None
                        | Some m => (fun x => <[k := x]> m) <$> string_ "" v
                        end) (Some cur) fs
  | _ => None
  end.

(** The key comparison ignores case the way Unicode simple folding does: besides the
    ASCII letters, U+017F folds to s and U+212A to k. *)
Fixpoint fold_key (k : str) : str :=
  match k with
  | "" => ""
  | String c rest =>
      match nat_of_ascii c, rest with
      | 197, String c2 rest' =>
          if Nat.eqb (nat_of_ascii c2) 191 then String "s" (fold_key rest')
          else String c (fold_key rest)
      | 226, String c2 (String c3 rest') =>
          if Nat.eqb (nat_of_ascii c2) 132 && Nat.eqb (nat_of_ascii c3) 170
          then String "k" (fold_key rest') else String c (fold_key rest)
      | _, _ => String (to_lower_ascii c) (fold_key rest)
      end
  end.

(** A field of a struct: its key and how a value is stored into it. *)
Definition Field (A : Type) : Type := str * (A -> JV -> option A).
Definition field {A X} (key : str) (get : A -> X) (put : X -> A -> A) (d : Decoder X) : Field A :=
  (key, fun a v => (fun x => put x a) <$> d (get a) v).

Definition struct_step {A} (fields : list (Field A)) (acc : option A) (kv : str * JV) : option A :=
  match acc with
  | None => None
  | Some a =>
      match head (where_ (fun f => fst f =s fold_key (fst kv)) fields) with
      | None => None
      | Some f => snd f a (snd kv)
      end
  end.
Definition struct {A} (fields : list (Field A)) : Decoder A := fun cur v =>
  match v with
  | JNull => Some cur
  | JObj kvs => foldl (struct_step fields) (Some cur) kvs
  | _ => None
  end.

(** [json.Unmarshal] ignores the keys no field claims. *)
Definition lenient {A} (fields : list (Field A)) : Decoder A := fun cur v =>
  match v with
  | JObj kvs =>
      struct fields cur (JObj (where_ (fun kv => existsb (fun f => fst f =s fold_key (fst kv)) fields) kvs))
  | _ => struct fields cur v
  end.

(** ** Request bodies *)

(** The bytes a client sends, and the error that ends the stream, if one does. *)
Record Stream := mkStream { in_Bytes : str; in_Err : option str }.

Definition prefix_bytes (n : Z) (b : str) : str :=
  if (Z.of_nat (String.length b) <=? n)%Z then b else str_take (Z.to_nat n) b.

(** [io.ReadAll] of an [io.LimitReader]: what follows the n-th byte is not read, the
    error of a stream that ends before it is. *)
Definition ReadAllLimit (n : Z) (b : Stream) : str + str :=
  if (n <=? Z.of_nat (String.length (in_Bytes b)))%Z then inr (prefix_bytes n (in_Bytes b))
  else match in_Err b with Some e => inl e | None => inr (in_Bytes b) end.

(** [http.MaxBytesReader]: the (n+1)-th byte is an error. *)
Definition MaxBytes (n : Z) (b : Stream) : Stream :=
  if (n <? Z.of_nat (String.length (in_Bytes b)))%Z
  then mkStream (prefix_bytes n (in_Bytes b)) (Some "http: request body too large")
  else b.

(** The first JSON value of a stream: there is none before the end of the stream,
    there is a syntax or a read error with its text, or there is one. *)
Inductive Reading := AtEOF | Malformed (msg : str) | Value (v : JV).

(** [json.Decoder.Decode] into a destination: the end of the stream leaves it as it
    is (the handlers accept an absent body). *)
Definition Decode {A} (mismatch : JV -> str) (d : Decoder A) (dst : A) (r : Reading) : str + A :=
  match r with
  | AtEOF => inr dst
  | Malformed e => inl e
  | Value v => match d dst v with Some a => inr a | None => inl (mismatch v) end
  end.

(** ** How keys are matched *)

Example struct_ex :
  struct [field "read" fst (fun x p => (x, snd p)) bool_; field "name" snd (fun x p => (fst p, x)) string_]
    (false, "") (JObj [("READ", JBool true); ("name", JStr "a"); ("Name", JNull)]) = Some (true, "a").
Proof. reflexivity. Qed.
Example struct_unknown_ex :
  struct [field "read" id (fun x _ => x) bool_] false (JObj [("write", JBool true)]) = None.
Proof. reflexivity. Qed.

Lemma struct_step_none {A} (fields : list (Field A)) kvs :
  foldl (struct_step fields) None kvs = None.
Proof. induction kvs; by cbn. Qed.

(** An object with a key that no field claims is refused, wherever the key is. *)
Lemma struct_rejects_unknown {A} (fields : list (Field A)) kvs k v cur :
  (k, v) ∈ kvs -> (forall f, f ∈ fields -> fst f <> fold_key k) ->
  struct fields cur (JObj kvs) = None.
Proof.
  intros Hin Hno. cbn. generalize (Some cur) as acc. induction kvs as [|kv kvs IH]; [set_solver|].
  intros acc. apply elem_of_cons in Hin as [<-|Hin]; [|by apply IH].
  cbn. replace (struct_step fields acc (k, v)) with (@None A); [apply struct_step_none|].
  destruct acc as [a|]; [|done]. cbn. rewrite where_false; [done|].
  intros f Hf. apply eqb_false_str. by apply Hno.
Qed.

(** Nothing beyond the limit is stored. *)
Lemma ReadAllLimit_bound n b data : (0 <= n)%Z -> ReadAllLimit n b = inr data ->
  (Z.of_nat (String.length data) <= n)%Z /\ exists rest, in_Bytes b = data ++ rest.
Proof.
  intros Hn. unfold ReadAllLimit, prefix_bytes. destruct (Z.leb_spec n (Z.of_nat (String.length (in_Bytes b)))).
  - intros [= <-]. destruct (Z.leb_spec (Z.of_nat (String.length (in_Bytes b))) n).
    + split; [done|]. exists "". by rewrite str_app_nil_r.
    + split; [rewrite str_take_length; lia|]. eexists. symmetry. apply str_take_drop.
  - destruct (in_Err b); [done|]. intros [= <-]. split; [lia|]. exists "". by rewrite str_app_nil_r.
Qed.

End Json.
