(* ===== verification/JsonText.v ===== *)
(** The text of JSON as encoding/json writes and reads it: [json.Marshal] of a value,
    and the scanner under [json.Decoder.Decode] and [json.Unmarshal].  Text is bytes;
    strings inside are UTF-8, invalid bytes become U+FFFD on the way out and in. *)
From Stdlib Require Import Ascii.
From S2P Require Import Prelude GoStrings Encoding Json.
#[local] Open Scope string_scope.
#[local] Open Scope Z_scope.
Import Encoding.

Module JsonText.
Import Json.

(** ** UTF-8 *)

Definition between (lo hi : Z) (c : ascii) : bool := (lo <=? byte_of c) && (byte_of c <=? hi).
Definition cont : ascii -> bool := between 128 191.
Definition ascii_byte : ascii -> bool := between 0 127.
(** The well-formed sequences of two, three and four bytes. *)
Definition rune2 (a b : ascii) : bool := between 194 223 a && cont b.
Definition rune3 (a b c : ascii) : bool :=
  ((between 224 224 a && between 160 191 b) || ((between 225 236 a || between 238 239 a) && cont b)
   || (between 237 237 a && between 128 159 b)) && cont c.
Definition rune4 (a b c d : ascii) : bool :=
  ((between 240 240 a && between 144 191 b) || (between 241 243 a && cont b)
   || (between 244 244 a && between 128 143 b)) && cont c && cont d.
Definition replacement : str := String (to_byte 239) (String (to_byte 191) (String (to_byte 189) "")).

(** The bytes of a code point. *)
Definition encode_rune (u : Z) : str :=
  if u <? 128 then String (to_byte u) ""
  else if u <? 2048 then String (to_byte (192 + u / 64)) (String (to_byte (128 + u mod 64)) "")
  else if u <? 65536
  then String (to_byte (224 + u / 4096)) (String (to_byte (128 + u / 64 mod 64))
         (String (to_byte (128 + u mod 64)) ""))
  else String (to_byte (240 + u / 262144)) (String (to_byte (128 + u / 4096 mod 64))
         (String (to_byte (128 + u / 64 mod 64)) (String (to_byte (128 + u mod 64)) ""))).

(** ** Writing *)

Definition backslash : ascii := to_byte 92.
Definition quote_char : ascii := to_byte 34.
Definition esc (c : ascii) : str := String backslash (String c "").
Definition escape_hex (z : Z) : str :=
  String backslash ("u" ++ String (hexdigit (z / 4096)) (String (hexdigit (z / 256 mod 16))
    (String (hexdigit (z / 16 mod 16)) (String (hexdigit (z mod 16)) "")))).
(** Quotes, backslashes, control characters, and the characters HTML minds. *)
Definition quote_ascii (c : ascii) : str :=
  let x := byte_of c in
  if (x =? 34) || (x =? 92) then esc c
  else if x =? 8 then esc "b" else if x =? 12 then esc "f" else if x =? 10 then esc "n"
  else if x =? 13 then esc "r" else if x =? 9 then esc "t"
  else if (x <? 32) || (x =? 60) || (x =? 62) || (x =? 38) then escape_hex x
  else String c "".
(** U+2028 and U+2029 end a line in JavaScript and are escaped too. *)
Definition line_separator (a b c : ascii) : bool :=
  between 226 226 a && between 128 128 b && between 168 169 c.

Fixpoint quote_body (s : str) : str :=
  match s with
  | "" => ""
  | String a r =>
      if ascii_byte a then quote_ascii a ++ quote_body r
      else match r with
           | String b r2 =>
               if rune2 a b then String a (String b (quote_body r2))
               else match r2 with
                    | String c r3 =>
                        if rune3 a b c
                        then (if line_separator a b c then escape_hex (8232 + (byte_of c - 168))
                              else String a (String b (String c ""))) ++ quote_body r3
                        else match r3 with
                             | String d r4 =>
                                 if rune4 a b c d
                                 then String a (String b (String c (String d (quote_body r4))))
                                 else escape_hex 65533 ++ quote_body r
                             | "" => escape_hex 65533 ++ quote_body r
                             end
                    | "" => escape_hex 65533 ++ quote_body r
                    end
           | "" => escape_hex 65533
           end
  end.
Definition quote (s : str) : str := String quote_char (quote_body s ++ String quote_char "").

(** [json.Marshal]; a number is kept as its literal. *)
Fixpoint print (v : JV) : str :=
  match v with
  | JNull => "null"
  | JBool true => "true"
  | JBool false => "false"
  | JNum lit => lit
  | JStr s => quote s
  | JArr l => "[" ++ Join (map print l) "," ++ "]"
  | JObj fs => "{" ++ Join (map (fun kv => quote (fst kv) ++ ":" ++ print (snd kv)) fs) "," ++ "}"
  end.

(** ** Reading *)

(** A value and what follows it; the text ends inside it; it is not JSON. *)
Inductive Parsed (A : Type) := Ok (a : A) (rest : str) | Short | Bad.
Arguments Ok {A}. Arguments Short {A}. Arguments Bad {A}.
Definition then_ {A C} (p : Parsed A) (k : A -> str -> Parsed C) : Parsed C :=
  match p with Ok a r => k a r | Short => Short | Bad => Bad end.
Definition pmap {A C} (f : A -> C) (p : Parsed A) : Parsed C := then_ p (fun a r => Ok (f a) r).

Fixpoint skip_space (s : str) : str :=
  match s with
  | String c r => if bool_decide (byte_of c ∈ [32; 9; 10; 13]) then skip_space r else s
  | "" => ""
  end.

Definition hex4 (a b c d : ascii) : option Z :=
  match unhex a, unhex b, unhex c, unhex d with
  | Some x, Some y, Some z, Some w => Some (4096 * x + 256 * y + 16 * z + w)
  | _, _, _, _ => None
  end.
Definition surrogate (u : Z) : bool := (55296 <=? u) && (u <=? 57343).
(** [utf16.DecodeRune]; [None] when the two do not form a pair. *)
Definition decode_pair (u v : Z) : option Z :=
  if ((55296 <=? u) && (u <? 56320)) && ((56320 <=? v) && (v <? 57344))
  then Some ((u - 55296) * 1024 + (v - 56320) + 65536) else None.
Definition simple_escape (c : ascii) : option ascii :=
  let x := byte_of c in
  if (x =? 34) || (x =? 92) || (x =? 47) then Some c
  else if x =? 98 then Some (to_byte 8) else if x =? 102 then Some (to_byte 12)
  else if x =? 110 then Some (to_byte 10) else if x =? 114 then Some (to_byte 13)
  else if x =? 116 then Some (to_byte 9) else None.
(** An escape that the text ends in: its digits so far are digits. *)
Fixpoint short_hex (s : str) : bool :=
  match s with "" => true | String c r => match unhex c with Some _ => short_hex r | None => false end end.

(** The inside of a string, from behind its opening quote. *)
Fixpoint unquote (s : str) : Parsed str :=
  match s with
  | "" => Short
  | String a r =>
      let x := byte_of a in
      if x =? 34 then Ok "" r
      else if x =? 92 then
        match r with
        | "" => Short
        | String e r' =>
            match simple_escape e with
            | Some c => pmap (String c) (unquote r')
            | None =>
                if byte_of e =? 117 then
                  match r' with
                  | String h1 (String h2 (String h3 (String h4 r4))) =>
                      match hex4 h1 h2 h3 h4 with
                      | None => Bad
                      | Some u =>
                          if surrogate u then
                            match r4 with
                            | String b0 (String u0 (String g1 (String g2 (String g3 (String g4 r10))))) =>
                                match (if (byte_of b0 =? 92) && (byte_of u0 =? 117)
                                       then hex4 g1 g2 g3 g4 ≫= decode_pair u else None) with
                                | Some cp => pmap (fun t => encode_rune cp ++ t) (unquote r10)
                                | None => pmap (fun t => replacement ++ t) (unquote r4)
                                end
                            | _ => pmap (fun t => replacement ++ t) (unquote r4)
                            end
                          else pmap (fun t => encode_rune u ++ t) (unquote r4)
                      end
                  | _ => if short_hex r' then Short else Bad
                  end
                else Bad
            end
        end
      else if x <? 32 then Bad
      else if x <? 128 then pmap (String a) (unquote r)
      else match r with
           | String b r2 =>
               if rune2 a b then pmap (fun t => String a (String b t)) (unquote r2)
               else match r2 with
                    | String c r3 =>
                        if rune3 a b c
                        then pmap (fun t => String a (String b (String c t))) (unquote r3)
                        else match r3 with
                             | String d r4 =>
                                 if rune4 a b c d
                                 then pmap (fun t => String a (String b (String c (String d t)))) (unquote r4)
                                 else pmap (fun t => replacement ++ t) (unquote r)
                             | "" => pmap (fun t => replacement ++ t) (unquote r)
                             end
                    | "" => pmap (fun t => replacement ++ t) (unquote r)
                    end
           | "" => Short
           end
  end.

(** *** Numbers *)

Fixpoint span_digits (s : str) : str * str :=
  match s with
  | String c r => if is_digit c then let '(d, t) := span_digits r in (String c d, t) else ("", s)
  | "" => ("", "")
  end.
(** At least one digit. *)
Definition digits1 (s : str) : Parsed str :=
  match s with
  | "" => Short
  | String c _ => if is_digit c then let '(d, t) := span_digits s in Ok d t else Bad
  end.
Definition integer (s : str) : Parsed str :=
  match s with
  | "" => Short
  | String c r => if byte_of c =? 48 then Ok (String c "") r else digits1 s
  end.
Definition fraction (s : str) : Parsed str :=
  match s with
  | String c r => if byte_of c =? 46 then pmap (String c) (digits1 r) else Ok "" s
  | "" => Ok "" ""
  end.
Definition exponent (s : str) : Parsed str :=
  match s with
  | String c r =>
      if (byte_of c =? 101) || (byte_of c =? 69) then
        match r with
        | String g r' =>
            if (byte_of g =? 43) || (byte_of g =? 45)
            then pmap (fun d => String c (String g d)) (digits1 r')
            else pmap (String c) (digits1 r)
        | "" => Short
        end
      else Ok "" s
  | "" => Ok "" ""
  end.
Definition unsigned (s : str) : Parsed str :=
  then_ (integer s) (fun i r1 => then_ (fraction r1) (fun f r2 =>
    then_ (exponent r2) (fun e r3 => Ok (i ++ f ++ e) r3))).
Definition number (s : str) : Parsed str :=
  match s with
  | String c r => if byte_of c =? 45 then pmap (String c) (unsigned r) else unsigned s
  | "" => Short
  end.

(** *** Values *)

(** [null], [true], [false] *)
Fixpoint keyword (w s : str) : Parsed unit :=
  match w, s with
  | "", _ => Ok tt s
  | String _ _, "" => Short
  | String a w', String b s' => if Ascii.eqb a b then keyword w' s' else Bad
  end.

Definition maxNestingDepth : Z := 10000.
(** [fuel] bounds the tokens read; [depth] counts the open brackets. *)
Fixpoint value (fuel : nat) (depth : Z) (s : str) : Parsed JV :=
  match fuel with
  | O => Bad
  | S n =>
      match s with
      | "" => Short
      | String c r =>
          let x := byte_of c in
          if x =? 34 then pmap JStr (unquote r)
          else if x =? 91 then
            if maxNestingDepth <=? depth then Bad
            else match skip_space r with
                 | "" => Short
                 | String d r' => if byte_of d =? 93 then Ok (JArr []) r'
                                  else pmap JArr (elems n (depth + 1) (String d r'))
                 end
          else if x =? 123 then
            if maxNestingDepth <=? depth then Bad
            else match skip_space r with
                 | "" => Short
                 | String d r' => if byte_of d =? 125 then Ok (JObj []) r'
                                  else pmap JObj (members n (depth + 1) (String d r'))
                 end
          else if x =? 110 then pmap (fun _ => JNull) (keyword "null" s)
          else if x =? 116 then pmap (fun _ => JBool true) (keyword "true" s)
          else if x =? 102 then pmap (fun _ => JBool false) (keyword "false" s)
          else pmap JNum (number s)
      end
  end
with elems (fuel : nat) (depth : Z) (s : str) : Parsed (list JV) :=
  match fuel with
  | O => Bad
  | S n =>
      then_ (value n depth s) (fun v r =>
        match skip_space r with
        | "" => Short
        | String c r' =>
            if byte_of c =? 44 then pmap (cons v) (elems n depth (skip_space r'))
            else if byte_of c =? 93 then Ok [v] r' else Bad
        end)
  end
with members (fuel : nat) (depth : Z) (s : str) : Parsed (list (str * JV)) :=
  match fuel with
  | O => Bad
  | S n =>
      match s with
      | "" => Short
      | String q r =>
          if negb (byte_of q =? 34) then Bad
          else then_ (unquote r) (fun k r1 =>
            match skip_space r1 with
            | "" => Short
            | String c r2 =>
                if negb (byte_of c =? 58) then Bad
                else then_ (value n depth (skip_space r2)) (fun v r3 =>
                  match skip_space r3 with
                  | "" => Short
                  | String d r4 =>
                      if byte_of d =? 44 then pmap (cons (k, v)) (members n depth (skip_space r4))
                      else if byte_of d =? 125 then Ok [(k, v)] r4 else Bad
                  end)
            end)
      end
  end.

Definition first_value (s : str) : Parsed JV := value (S (2 * String.length s)) 0 (skip_space s).
Definition scalar (v : JV) : bool := match v with JArr _ | JObj _ => false | _ => true end.

(** [json.Decoder.Decode]'s reading of one value.  The end of a scalar shows only at
    the byte after it; what follows a value is not looked at.  [syntax] is the text of
    a syntax error. *)
Definition read_json (syntax : str -> str) (b : Stream) : Reading :=
  match first_value (in_Bytes b), in_Err b with
  | Ok v "", Some e => if scalar v then Malformed e else Value v
  | Ok v _, _ => Value v
  | Bad, _ => Malformed (syntax (in_Bytes b))
  | Short, Some e => Malformed e
  | Short, None => if skip_space (in_Bytes b) =s "" then AtEOF else Malformed "unexpected EOF"
  end.
(** [json.Unmarshal]'s: the whole text is one value. *)
Definition parse (s : str) : option JV :=
  match first_value s with
  | Ok v r => if skip_space r =s "" then Some v else None
  | _ => None
  end.

(** The double quote is written [~] here. *)
Definition tilde (s : str) : str := str_map (fun c => if Ascii.eqb c "~" then quote_char else c) s.
Example parse_ex : parse (tilde " { ~a~ : [1, -2.5e3, true], ~b\u00e9\ud83d\ude00~:null } ") =
  Some (JObj [("a", JArr [JNum "1"; JNum "-2.5e3"; JBool true]);
              ("b" ++ encode_rune 233 ++ encode_rune 128512, JNull)]).
Proof. vm_compute. reflexivity. Qed.
Example parse_rejects : map parse ["01"; "[1,]"; "nul"; "1 2"; tilde "{~a~ 1}"; tilde "~\x~"; "-"] =
  [None; None; None; None; None; None; None].
Proof. vm_compute. reflexivity. Qed.
Example print_ex : print (JObj [("k<", JStr (String (to_byte 10) "&")); ("n", JArr [JNum "1"; JNull])]) =
  tilde "{~k\u003c~:~\n\u0026~,~n~:[1,null]}".
Proof. vm_compute. reflexivity. Qed.

(** ** Every value ends before the text does *)

Lemma then_Ok {A C} (p : Parsed A) (k : A -> str -> Parsed C) c r :
  then_ p k = Ok c r -> exists a r1, p = Ok a r1 /\ k a r1 = Ok c r.
Proof. destruct p; cbn; [eauto|done|done]. Qed.
Lemma pmap_Ok {A C} (f : A -> C) (p : Parsed A) c r : pmap f p = Ok c r -> exists a, p = Ok a r /\ c = f a.
Proof. unfold pmap. intros (a & r1 & -> & [= <- <-])%then_Ok. eauto. Qed.

Lemma skip_space_length s : (String.length (skip_space s) <= String.length s)%nat.
Proof. induction s as [|c s IH]; cbn; [done|]. destruct (bool_decide _); cbn; lia. Qed.

Lemma unquote_length s x r : unquote s = Ok x r -> (String.length r < String.length s)%nat.
Proof.
  remember (String.length s) as n eqn:Hn. revert s x r Hn.
  induction n as [n IH] using (well_founded_induction lt_wf). intros s x r -> H.
  assert (forall t y, (String.length t < String.length s)%nat -> unquote t = Ok y r ->
    (String.length r < String.length s)%nat) as Hrec.
  { intros t y Ht Hu. pose proof (IH _ Ht t y r eq_refl Hu). lia. }
  destruct s as [|a s]; [done|]. cbn [unquote] in H.
  repeat match type of H with
  | (if ?b then _ else _) = _ => destruct b
  | (match ?m with _ => _ end) = _ => destruct m
  | Ok _ _ = _ => injection H as <- <-
  | Short = _ => discriminate H
  | Bad = _ => discriminate H
  | pmap _ _ = _ => apply pmap_Ok in H as (y & H & _); eapply Hrec; [|exact H]; cbn; lia
  end; cbn; lia.
Qed.

Lemma keyword_length w s u r : keyword w s = Ok u r ->
  (String.length r + String.length w = String.length s)%nat.
Proof.
  revert s. induction w as [|a w IH]; intros s.
  - cbn. intros [= _ <-]. lia.
  - destruct s as [|b s]; [done|]. cbn. destruct (Ascii.eqb a b); [|done]. intros H%IH. lia.
Qed.

(** A number is read as it is written. *)
Lemma span_digits_app s d t : span_digits s = (d, t) -> s = d ++ t.
Proof.
  revert d t. induction s as [|c s IH]; intros d t; cbn; [by intros [= <- <-]|].
  destruct (is_digit c); [|by intros [= <- <-]].
  destruct (span_digits s) as [d' t'] eqn:E. intros [= <- <-]. by rewrite (IH _ _ eq_refl).
Qed.
Lemma digits1_text s d r : digits1 s = Ok d r -> s = d ++ r /\ d <> "".
Proof.
  destruct s as [|c s]; [done|]. cbn. destruct (is_digit c); [|done].
  destruct (span_digits s) as [d' t] eqn:E. intros [= <- <-]. apply span_digits_app in E as ->. done.
Qed.
Lemma integer_text s i r : integer s = Ok i r -> s = i ++ r /\ i <> "".
Proof. destruct s as [|c s]; [done|]. unfold integer. destruct (_ =? _); [by intros [= <- <-]|apply digits1_text]. Qed.
Lemma fraction_text s f r : fraction s = Ok f r -> s = f ++ r.
Proof.
  destruct s as [|c s]; cbn [fraction]; [by intros [= <- <-]|].
  destruct (_ =? _); [|by intros [= <- <-]]. intros (d & [-> _]%digits1_text & ->)%pmap_Ok. done.
Qed.
Lemma exponent_text s e r : exponent s = Ok e r -> s = e ++ r.
Proof.
  destruct s as [|c s]; cbn [exponent]; [by intros [= <- <-]|].
  destruct (_ || _); [|by intros [= <- <-]]. destruct s as [|g s]; [done|].
  destruct (_ || _); intros (d & [Hd _]%digits1_text & ->)%pmap_Ok; [by rewrite Hd|by rewrite Hd].
Qed.
Lemma unsigned_text s l r : unsigned s = Ok l r -> s = l ++ r /\ l <> "".
Proof.
  unfold unsigned. intros (i & r1 & [-> Hi]%integer_text & H)%then_Ok.
  apply then_Ok in H as (f & r2 & ->%fraction_text & H).
  apply then_Ok in H as (e & r3 & ->%exponent_text & H). injection H as <- <-.
  rewrite !str_app_assoc. split; [done|]. by destruct i.
Qed.
Lemma number_text s l r : number s = Ok l r -> s = l ++ r /\ l <> "".
Proof.
  destruct s as [|c s]; [done|]. cbn [number]. destruct (_ =? _); [|apply unsigned_text].
  intros (l' & [-> _]%unsigned_text & ->)%pmap_Ok. done.
Qed.

Lemma text_shorter (s l r : str) : s = l ++ r -> l <> "" -> (String.length r < String.length s)%nat.
Proof. intros -> Hl. rewrite str_length_app. destruct l; [done|]. cbn. lia. Qed.

(** Takes a successful reading apart, token by token. *)
Ltac read_step H :=
  match type of H with
  | (if ?b then _ else _) = _ => destruct b eqn:?
  | (match ?m with _ => _ end) = _ => destruct m eqn:?
  | Ok _ _ = _ => injection H as <- <-
  | Short = _ => discriminate H
  | Bad = _ => discriminate H
  | pmap _ _ = _ => apply pmap_Ok in H as (? & H & ->)
  | then_ _ _ = _ => apply then_Ok in H as (? & ? & ? & H)
  end.
Ltac spaces :=
  repeat match goal with
  | H : skip_space ?s = ?t |- _ =>
      pose proof (skip_space_length s); apply (f_equal String.length) in H; cbn [String.length] in H
  end.

Lemma value_shorter n :
  (forall d s v r, value n d s = Ok v r -> (String.length r < String.length s)%nat) /\
  (forall d s v r, elems n d s = Ok v r -> (String.length r < String.length s)%nat) /\
  (forall d s v r, members n d s = Ok v r -> (String.length r < String.length s)%nat).
Proof.
  induction n as [|n (IHv & IHe & IHm)]; [done|]. split; [|split].
  - intros d [|c s] v r H; [done|]. cbn [value] in H. cbv zeta in H. cbn [String.length].
    repeat read_step H; spaces; try lia;
      try (apply unquote_length in H; lia); try (apply IHe in H; cbn in H; lia);
      try (apply IHm in H; cbn in H; lia); try (apply keyword_length in H; cbn in H; lia).
    apply number_text in H as [H1 H2]. pose proof (text_shorter _ _ _ H1 H2) as H3. cbn in H3. lia.
  - intros d s v r H. cbn [elems] in H. repeat read_step H;
      repeat match goal with H : value n _ _ = Ok _ _ |- _ => apply IHv in H end; spaces; try lia.
    apply IHe in H. pose proof (skip_space_length s0). lia.
  - intros d [|q s] v r H; [done|]. cbn [members] in H. cbn [String.length]. repeat read_step H;
      repeat match goal with
      | H : value n _ _ = Ok _ _ |- _ => apply IHv in H
      | H : unquote _ = Ok _ _ |- _ => apply unquote_length in H
      | H : context [skip_space ?x] |- _ => 
          lazymatch goal with _ : (String.length (skip_space x) <= _)%nat |- _ => fail | _ => pose proof (skip_space_length x) end
      end; spaces; try lia.
    apply IHm in H. lia.
Qed.

(** Two steps per byte are enough: more fuel reads the same. *)
Lemma fuel_enough n :
  (forall d s m, (2 * String.length s < n <= m)%nat -> value m d s = value n d s) /\
  (forall d s m, (2 * String.length s + 1 < n <= m)%nat -> elems m d s = elems n d s) /\
  (forall d s m, (2 * String.length s + 1 < n <= m)%nat -> members m d s = members n d s).
Proof.
  induction n as [|n (IHv & IHe & IHm)]; [split; [|split]; intros; lia|].
  split; [|split]; intros d s [|m] Hm; try lia.
  - destruct s as [|c s]; [done|]. cbn [value String.length] in *. cbv zeta.
    pose proof (skip_space_length s).
    destruct (_ =? 34); [done|]. destruct (_ =? 91); [|destruct (_ =? 123); [|done]];
      (destruct (_ <=? _); [done|]); destruct (skip_space s) as [|x r] eqn:E; try done;
      (destruct (_ =? _); [done|]); f_equal; [apply IHe|apply IHm]; lia.
  - cbn [elems]. rewrite (IHv d s m) by lia. destruct (value n d s) as [v r| |] eqn:E; [|done..].
    apply (proj1 (value_shorter n)) in E. cbn [then_]. pose proof (skip_space_length r).
    destruct (skip_space r) as [|c r'] eqn:Er; [done|]. cbn [String.length] in *.
    destruct (_ =? 44); [|done]. f_equal. apply IHe. pose proof (skip_space_length r'). lia.
  - cbn [members]. destruct s as [|q s]; [done|]. cbn [String.length] in *.
    destruct (negb _); [done|]. destruct (unquote s) as [k r1| |] eqn:Eu; [|done..].
    apply unquote_length in Eu. cbn [then_]. pose proof (skip_space_length r1).
    destruct (skip_space r1) as [|c r2]; [done|]. cbn [String.length] in *. destruct (negb _); [done|].
    pose proof (skip_space_length r2). rewrite (IHv d (skip_space r2) m) by lia.
    destruct (value n d (skip_space r2)) as [v r3| |] eqn:E; [|done..].
    apply (proj1 (value_shorter n)) in E. cbn [then_]. pose proof (skip_space_length r3).
    destruct (skip_space r3) as [|c' r4]; [done|]. cbn [String.length] in *.
    destruct (_ =? 44); [|done]. f_equal. apply IHm. pose proof (skip_space_length r4). lia.
Qed.

(** ** Strings round trip *)

(** What is left of a string: invalid bytes are U+FFFD. *)
Fixpoint to_valid (s : str) : str :=
  match s with
  | "" => ""
  | String a r =>
      if ascii_byte a then String a (to_valid r)
      else match r with
           | String b r2 =>
               if rune2 a b then String a (String b (to_valid r2))
               else match r2 with
                    | String c r3 =>
                        if rune3 a b c then String a (String b (String c (to_valid r3)))
                        else match r3 with
                             | String d r4 =>
                                 if rune4 a b c d
                                 then String a (String b (String c (String d (to_valid r4))))
                                 else replacement ++ to_valid r
                             | "" => replacement ++ to_valid r
                             end
                    | "" => replacement ++ to_valid r
                    end
           | "" => replacement
           end
  end.

Lemma to_valid_ascii s : str_all ascii_byte s = true -> to_valid s = s.
Proof. induction s as [|c s IH]; cbn; [done|]. rewrite andb_true_iff. intros [-> H]. by rewrite IH. Qed.

Lemma unquote_ascii a t : ascii_byte a = true -> unquote (quote_ascii a ++ t) = pmap (String a) (unquote t).
Proof.
  intros H. destruct a as [b0 b1 b2 b3 b4 b5 b6 b7].
  destruct b7; [by destruct b0, b1, b2, b3, b4, b5, b6|clear H].
  destruct b0, b1, b2, b3, b4, b5, b6; reflexivity.
Qed.
Lemma unquote_fffd t : unquote (escape_hex 65533 ++ t) = pmap (fun x => replacement ++ x) (unquote t).
Proof. reflexivity. Qed.
Lemma unquote_separator a b c t : line_separator a b c = true ->
  unquote (escape_hex (8232 + (byte_of c - 168)) ++ t) =
  pmap (fun x => String a (String b (String c x))) (unquote t).
Proof.
  unfold line_separator, between. rewrite !andb_true_iff, !Z.leb_le. intros [[Ha Hb] Hc].
  assert (a = to_byte 226 /\ b = to_byte 128 /\ (c = to_byte 168 \/ c = to_byte 169)) as (-> & -> & H).
  { rewrite <- (to_byte_of a), <- (to_byte_of b), <- (to_byte_of c).
    split; [f_equal; lia|]. split; [f_equal; lia|].
    assert (byte_of c = 168 \/ byte_of c = 169) as [->| ->] by lia; auto. }
  destruct H as [->| ->]; reflexivity.
Qed.

Lemma unquote_high a t : ascii_byte a = false ->
  unquote (String a t) =
  match t with
  | String b r2 =>
      if rune2 a b then pmap (fun t => String a (String b t)) (unquote r2)
      else match r2 with
           | String c r3 =>
               if rune3 a b c then pmap (fun t => String a (String b (String c t))) (unquote r3)
               else match r3 with
                    | String d r4 =>
                        if rune4 a b c d
                        then pmap (fun t => String a (String b (String c (String d t)))) (unquote r4)
                        else pmap (fun x => replacement ++ x) (unquote t)
                    | "" => pmap (fun x => replacement ++ x) (unquote t)
                    end
           | "" => pmap (fun x => replacement ++ x) (unquote t)
           end
  | "" => Short
  end.
Proof.
  unfold ascii_byte, between. rewrite andb_false_iff, !Z.leb_gt. intros H.
  pose proof (byte_range a) as Hr. cbn [unquote]. cbv zeta.
  rewrite (proj2 (Z.eqb_neq (byte_of a) 34)), (proj2 (Z.eqb_neq (byte_of a) 92)),
    (proj2 (Z.ltb_ge (byte_of a) 32)), (proj2 (Z.ltb_ge (byte_of a) 128)) by lia.
  done.
Qed.

Lemma pmap_pmap {A C D} (f : A -> C) (g : C -> D) (p : Parsed A) :
  pmap g (pmap f p) = pmap (fun a => g (f a)) p.
Proof. by destruct p. Qed.

(** What is written as a string is read back, up to its invalid bytes. *)
Lemma unquote_quote s rest :
  unquote (quote_body s ++ String quote_char rest) = Ok (to_valid s) rest.
Proof.
  remember (String.length s) as n eqn:Hn. revert s Hn.
  induction n as [n IH] using (well_founded_induction lt_wf). intros s ->.
  assert (forall t, (String.length t < String.length s)%nat ->
    unquote (quote_body t ++ String quote_char rest) = Ok (to_valid t) rest) as Hrec.
  { intros t Ht. by apply (IH _ Ht). }
  clear IH. destruct s as [|a s]; [reflexivity|].
  assert (unquote ((escape_hex 65533 ++ quote_body s) ++ String quote_char rest) =
    Ok (replacement ++ to_valid s) rest) as Hbad.
  { rewrite str_app_assoc, unquote_fffd, Hrec by (cbn; lia). done. }
  cbn [quote_body to_valid]. destruct (ascii_byte a) eqn:Ea.
  { rewrite str_app_assoc, unquote_ascii, Hrec by (cbn; lia || done). done. }
  destruct s as [|b s2]; [exact Hbad|].
  destruct (rune2 a b) eqn:E2.
  { change (String a (String b (quote_body s2)) ++ String quote_char rest)
      with (String a (String b (quote_body s2 ++ String quote_char rest))).
    rewrite unquote_high, E2, Hrec by (cbn; lia || done). done. }
  destruct s2 as [|c s3]; [exact Hbad|].
  destruct (rune3 a b c) eqn:E3.
  { rewrite str_app_assoc. destruct (line_separator a b c) eqn:El.
    - rewrite (unquote_separator a b c) by done. rewrite Hrec by (cbn; lia). done.
    - change (String a (String b (String c "")) ++ quote_body s3 ++ String quote_char rest)
        with (String a (String b (String c (quote_body s3 ++ String quote_char rest)))).
      rewrite unquote_high, E2, E3, Hrec by (cbn; lia || done). done. }
  destruct s3 as [|d s4]; [exact Hbad|].
  destruct (rune4 a b c d) eqn:E4; [|exact Hbad].
  change (String a (String b (String c (String d (quote_body s4)))) ++ String quote_char rest)
    with (String a (String b (String c (String d (quote_body s4 ++ String quote_char rest))))).
  rewrite unquote_high, E2, E3, E4, Hrec by (cbn; lia || done). done.
Qed.

(** ** Numbers end where nothing continues them *)

(** What follows a value inside a container, or nothing. *)
Definition stops (rest : str) : Prop :=
  match rest with "" => True | String c _ => byte_of c ∈ [44; 93; 125] end.
Lemma stops_head c r : stops (String c r) ->
  is_digit c = false /\ byte_of c <> 46 /\ byte_of c <> 101 /\ byte_of c <> 69.
Proof.
  unfold stops. rewrite !elem_of_cons. intros H.
  assert (byte_of c = 44 \/ byte_of c = 93 \/ byte_of c = 125) as Hc
    by (destruct H as [H|[H|[H|H%not_elem_of_nil]]]; auto; done).
  split; [|lia]. unfold is_digit, in_range. unfold byte_of in Hc.
  apply andb_false_iff. rewrite !Nat.leb_gt. lia.
Qed.

Lemma span_digits_cont rest s d t : stops rest -> span_digits s = (d, t) -> span_digits (s ++ rest) = (d, t ++ rest).
Proof.
  intros Hstop.
  revert d t. induction s as [|c s IH]; intros d t; cbn [span_digits].
  - intros [= <- <-]. change ("" ++ rest) with rest. destruct rest as [|c r]; [done|].
    destruct (stops_head c r Hstop) as [Hd _]. cbn [span_digits]. by rewrite Hd.
  - change (String c s ++ rest) with (String c (s ++ rest)). cbn [span_digits].
    destruct (is_digit c) eqn:Ec; [|by intros [= <- <-]].
    destruct (span_digits s) as [d' t'] eqn:E. intros [= <- <-]. by rewrite (IH _ _ eq_refl).
Qed.
Lemma digits1_cont rest s d t : stops rest -> digits1 s = Ok d t -> digits1 (s ++ rest) = Ok d (t ++ rest).
Proof.
  intros Hstop.
  destruct s as [|c s]; [done|]. intros H.
  change (String c s ++ rest) with (String c (s ++ rest)). unfold digits1 in *.
  destruct (is_digit c) eqn:Ec; [|done]. destruct (span_digits (String c s)) as [d' t'] eqn:E.
  injection H as <- <-. change (String c (s ++ rest)) with (String c s ++ rest).
  by rewrite (span_digits_cont _ _ _ _ Hstop E).
Qed.
Lemma integer_cont rest s i t : stops rest -> integer s = Ok i t -> integer (s ++ rest) = Ok i (t ++ rest).
Proof.
  intros Hstop.
  destruct s as [|c s]; [done|]. intros H. pose proof (digits1_cont rest (String c s) i t Hstop) as Hd.
  change (String c s ++ rest) with (String c (s ++ rest)) in *. unfold integer in *.
  destruct (_ =? _); [by injection H as <- <-|auto].
Qed.
Lemma fraction_cont rest s f t : stops rest -> fraction s = Ok f t -> fraction (s ++ rest) = Ok f (t ++ rest).
Proof.
  intros Hstop.
  destruct s as [|c s]; cbn [fraction].
  - intros [= <- <-]. change ("" ++ rest) with rest. destruct rest as [|c r]; [done|].
    destruct (stops_head c r Hstop) as (_ & Hc & _). cbn [fraction].
    by rewrite (proj2 (Z.eqb_neq _ _) Hc).
  - change (String c s ++ rest) with (String c (s ++ rest)). cbn [fraction].
    destruct (_ =? _); [|by intros [= <- <-]]. intros (d & Hd & ->)%pmap_Ok.
    by rewrite (digits1_cont _ _ _ _ Hstop Hd).
Qed.
Lemma exponent_cont rest s e t : stops rest -> exponent s = Ok e t -> exponent (s ++ rest) = Ok e (t ++ rest).
Proof.
  intros Hstop.
  destruct s as [|c s]; cbn [exponent].
  - intros [= <- <-]. change ("" ++ rest) with rest. destruct rest as [|c r]; [done|].
    destruct (stops_head c r Hstop) as (_ & _ & H1 & H2). cbn [exponent].
    by rewrite (proj2 (Z.eqb_neq _ _) H1), (proj2 (Z.eqb_neq _ _) H2).
  - change (String c s ++ rest) with (String c (s ++ rest)). cbn [exponent].
    destruct (_ || _); [|by intros [= <- <-]]. destruct s as [|g s]; [done|].
    change (String g s ++ rest) with (String g (s ++ rest)). cbv iota beta.
    destruct (_ || _); intros (d & Hd & ->)%pmap_Ok; [by rewrite (digits1_cont _ _ _ _ Hstop Hd)|].
    change (String g (s ++ rest)) with (String g s ++ rest). by rewrite (digits1_cont _ _ _ _ Hstop Hd).
Qed.
Lemma unsigned_cont rest s l t : stops rest -> unsigned s = Ok l t -> unsigned (s ++ rest) = Ok l (t ++ rest).
Proof.
  intros Hstop.
  unfold unsigned. intros (i & r1 & Hi & H)%then_Ok. apply then_Ok in H as (f & r2 & Hf & H).
  apply then_Ok in H as (e & r3 & He & H). injection H as <- <-.
  rewrite (integer_cont _ _ _ _ Hstop Hi). cbn [then_]. rewrite (fraction_cont _ _ _ _ Hstop Hf). cbn [then_].
  by rewrite (exponent_cont _ _ _ _ Hstop He).
Qed.
Lemma number_cont rest s l t : stops rest -> number s = Ok l t -> number (s ++ rest) = Ok l (t ++ rest).
Proof.
  intros Hstop.
  destruct s as [|c s]; [done|]. intros H. pose proof (unsigned_cont rest (String c s) l t Hstop) as Hu.
  change (String c s ++ rest) with (String c (s ++ rest)) in *. cbn [number] in *.
  destruct (_ =? _); [|auto]. apply pmap_Ok in H as (l' & H & ->).
  by rewrite (unsigned_cont _ _ _ _ Hstop H).
Qed.

(** ** Values round trip *)

Definition good_number (lit : str) : bool := match number lit with Ok _ "" => true | _ => false end.
(** Numbers are JSON numbers, brackets nest as deep as the reader allows. *)
Fixpoint good (depth : Z) (v : JV) : bool :=
  match v with
  | JNum lit => good_number lit
  | JArr l => (depth <? maxNestingDepth) && forallb (good (depth + 1)) l
  | JObj fs => (depth <? maxNestingDepth) && forallb (fun kv => good (depth + 1) (snd kv)) fs
  | _ => true
  end.
Fixpoint clean (v : JV) : JV :=
  match v with
  | JStr s => JStr (to_valid s)
  | JArr l => JArr (map clean l)
  | JObj fs => JObj (map (fun kv => (to_valid (fst kv), clean (snd kv))) fs)
  | _ => v
  end.

Section JVInd.
Context (P : JV -> Prop) (HNull : P JNull) (HBool : forall b, P (JBool b)) (HNum : forall l, P (JNum l))
  (HStr : forall s, P (JStr s)) (HArr : forall l, Forall P l -> P (JArr l))
  (HObj : forall fs, Forall (fun kv => P (snd kv)) fs -> P (JObj fs)).
Fixpoint JV_nested_ind (v : JV) : P v :=
  match v with
  | JNull => HNull | JBool b => HBool b | JNum l => HNum l | JStr s => HStr s
  | JArr l => HArr l ((fix go l := match l return Forall P l with
                                   | [] => List.Forall_nil _
                                   | x :: l' => List.Forall_cons _ _ _ (JV_nested_ind x) (go l') end) l)
  | JObj fs => HObj fs ((fix go l := match l return Forall (fun kv => P (snd kv)) l with
                                     | [] => List.Forall_nil _
                                     | x :: l' => List.Forall_cons _ _ _ (JV_nested_ind (snd x)) (go l') end) fs)
  end.
End JVInd.

(** How a value begins. *)
Definition opens (c : ascii) : Prop :=
  bool_decide (byte_of c ∈ [32; 9; 10; 13]) = false /\ byte_of c <> 93 /\ byte_of c <> 125.
Lemma skip_space_opens c r : opens c -> skip_space (String c r) = String c r.
Proof. intros [H _]. cbn [skip_space]. by rewrite H. Qed.

Lemma good_number_head lit : good_number lit = true ->
  exists c r, lit = String c r /\ (byte_of c = 45 \/ 48 <= byte_of c <= 57).
Proof.
  unfold good_number. destruct lit as [|c r]; [done|]. intros H. exists c, r. split; [done|].
  cbn [number] in H. destruct (Z.eqb_spec (byte_of c) 45); [by left|right].
  unfold unsigned, integer in H. destruct (Z.eqb_spec (byte_of c) 48); [lia|].
  unfold digits1 in H. destruct (is_digit c) eqn:E; [|done].
  unfold is_digit, in_range in E. apply andb_true_iff in E as [E1%Nat.leb_le E2%Nat.leb_le].
  unfold byte_of. lia.
Qed.

Lemma opens_number c : byte_of c = 45 \/ 48 <= byte_of c <= 57 -> opens c.
Proof.
  intros H. split; [|lia]. apply bool_decide_eq_false.
  rewrite !elem_of_cons. intros [E|[E|[E|[E|E%not_elem_of_nil]]]]; [lia..|done].
Qed.

Lemma print_opens d v : good d v = true -> exists c r, print v = String c r /\ opens c.
Proof.
  destruct v as [|[]|lit|s|l|fs]; cbn [good print]; intros H;
    try (eexists _, _; split; [reflexivity|by vm_compute]).
  destruct (good_number_head lit H) as (c & r & -> & Hc). exists c, r. split; [done|by apply opens_number].
Qed.

Lemma value_number n d lit rest : good_number lit = true -> stops rest ->
  value (S n) d (lit ++ rest) = Ok (JNum lit) rest.
Proof.
  intros Hg Hs. destruct (good_number_head lit Hg) as (c & r & -> & Hc).
  change (String c r ++ rest) with (String c (r ++ rest)). cbn [value]. cbv zeta.
  rewrite !(proj2 (Z.eqb_neq (byte_of c) _)) by lia.
  change (String c (r ++ rest)) with (String c r ++ rest).
  unfold good_number in Hg. destruct (number (String c r)) as [l [|x t]| |] eqn:E; try done.
  rewrite (number_cont rest _ _ _ Hs E). destruct (number_text _ _ _ E) as [-> _].
  cbn. by rewrite str_app_nil_r.
Qed.

(** The text of [v] is read as [clean v], at [depth], whatever follows. *)
Definition reads (v : JV) : Prop :=
  forall d rest, good d v = true -> stops rest ->
    exists n0, forall n, (n0 <= n)%nat -> value n d (print v ++ rest) = Ok (clean v) rest.

Lemma elems_print l : l <> [] -> Forall reads l -> forall d rest, forallb (good d) l = true ->
  exists n0, forall n, (n0 <= n)%nat ->
    elems n d (Join (map print l) "," ++ "]" ++ rest) = Ok (map clean l) rest.
Proof.
  intros Hne. induction 1 as [|v l Hv Hl IH]; [done|]. intros d rest. cbn [forallb].
  rewrite andb_true_iff. intros [Hg Hgl]. destruct l as [|w l].
  - destruct (Hv d ("]" ++ rest) Hg ltac:(vm_compute; set_solver)) as (n0 & Hn).
    exists (S n0). intros [|n] Hle; [lia|]. cbn [map Join elems]. by rewrite Hn by lia.
  - destruct (IH ltac:(done) d rest Hgl) as (n1 & H1).
    set (tl := Join (map print (w :: l)) "," ++ "]" ++ rest) in *.
    destruct (Hv d ("," ++ tl) Hg ltac:(vm_compute; set_solver)) as (n0 & H0).
    exists (S (n0 + n1)). intros [|n] Hle; [lia|].
    assert (Join (map print (v :: w :: l)) "," ++ "]" ++ rest = print v ++ "," ++ tl) as ->.
    { unfold tl. cbn [map Join]. by rewrite !str_app_assoc. }
    cbn [elems]. rewrite H0 by lia. cbn [then_].
    cbn [forallb] in Hgl. apply andb_true_iff in Hgl as [Hw _].
    destruct (print_opens d w Hw) as (c & r & Hp & Ho).
    assert (skip_space tl = tl) as Hsk.
    { unfold tl. cbn [map Join]. destruct (map print l); rewrite Hp; by apply skip_space_opens. }
    change (pmap (cons (clean v)) (elems n d (skip_space tl)) = Ok (map clean (v :: w :: l)) rest).
    by rewrite Hsk, H1 by lia.
Qed.

Definition print_member (kv : str * JV) : str := quote (fst kv) ++ ":" ++ print (snd kv).
Definition clean_member (kv : str * JV) : str * JV := (to_valid (fst kv), clean (snd kv)).

Lemma members_print fs : fs <> [] -> Forall (fun kv => reads (snd kv)) fs ->
  forall d rest, forallb (fun kv => good d (snd kv)) fs = true ->
  exists n0, forall n, (n0 <= n)%nat ->
    members n d (Join (map print_member fs) "," ++ "}" ++ rest) = Ok (map clean_member fs) rest.
Proof.
  intros Hne. induction 1 as [|[k v] l Hv Hl IH]; [done|]. intros d rest. cbn [forallb fst snd].
  rewrite andb_true_iff. intros [Hg Hgl]. cbn [snd] in Hv.
  (* one member, from its opening quote to what follows its value *)
  assert (forall after, stops after -> exists n0, forall n, (n0 <= n)%nat -> forall K,
    then_ (unquote (quote_body k ++ String quote_char (":" ++ print v ++ after))) (fun k r1 =>
      match skip_space r1 with
      | "" => Short
      | String c r2 => if negb (byte_of c =? 58) then Bad
                       else then_ (value n d (skip_space r2)) (K k)
      end) = K (to_valid k) (clean v) after :> Parsed (list (str * JV))) as Hone.
  { intros after Hs. destruct (Hv d after Hg Hs) as (n0 & Hn). exists n0. intros n Hle K.
    rewrite unquote_quote. destruct (print_opens d v Hg) as (c & r & Hp & Ho).
    change (then_ (value n d (skip_space (print v ++ after))) (K (to_valid k)) = K (to_valid k) (clean v) after).
    assert (skip_space (print v ++ after) = print v ++ after) as ->
      by (rewrite Hp; by apply skip_space_opens).
    by rewrite Hn by lia. }
  assert (forall after, print_member (k, v) ++ after =
    String quote_char (quote_body k ++ String quote_char (":" ++ print v ++ after))) as Htext.
  { intros after. unfold print_member, quote. cbn [fst snd]. rewrite !str_app_assoc.
    change (String quote_char (quote_body k ++ String quote_char "") ++ ":" ++ print v ++ after)
      with (String quote_char ((quote_body k ++ String quote_char "") ++ ":" ++ print v ++ after)).
    by rewrite str_app_assoc. }
  destruct l as [|w l].
  - destruct (Hone ("}" ++ rest) ltac:(vm_compute; set_solver)) as (n0 & Hn).
    exists (S n0). intros [|n] Hle; [lia|]. cbn [map Join]. rewrite Htext. cbn [members].
    change (negb (byte_of quote_char =? 34)) with false. cbv iota. by rewrite Hn by lia.
  - destruct (IH ltac:(done) d rest Hgl) as (n1 & H1).
    set (tl := Join (map print_member (w :: l)) "," ++ "}" ++ rest) in *.
    destruct (Hone ("," ++ tl) ltac:(vm_compute; set_solver)) as (n0 & H0).
    exists (S (n0 + n1)). intros [|n] Hle; [lia|].
    assert (Join (map print_member ((k, v) :: w :: l)) "," ++ "}" ++ rest =
      print_member (k, v) ++ "," ++ tl) as ->.
    { unfold tl. cbn [map Join]. by rewrite !str_app_assoc. }
    rewrite Htext. cbn [members]. change (negb (byte_of quote_char =? 34)) with false. cbv iota.
    rewrite H0 by lia.
    assert (skip_space tl = tl) as Hsk.
    { unfold tl. cbn [map Join]. destruct (map print_member l); by apply skip_space_opens. }
    change (pmap (cons (to_valid k, clean v)) (members n d (skip_space tl)) =
      Ok (map clean_member ((k, v) :: w :: l)) rest).
    by rewrite Hsk, H1 by lia.
Qed.

Lemma reads_all v : reads v.
Proof.
  induction v as [|b|lit|s|l Hl|fs Hf] using JV_nested_ind; intros d rest Hg Hs.
  - exists 1%nat. intros [|n] Hle; [lia|]. reflexivity.
  - exists 1%nat. intros [|n] Hle; [lia|]. by destruct b.
  - exists 1%nat. intros [|n] Hle; [lia|]. by apply value_number.
  - exists 1%nat. intros [|n] Hle; [lia|]. cbn [print clean]. unfold quote.
    change (String quote_char (quote_body s ++ String quote_char "") ++ rest)
      with (String quote_char ((quote_body s ++ String quote_char "") ++ rest)).
    rewrite str_app_assoc. cbn [value]. change (byte_of quote_char =? 34) with true. cbv iota zeta.
    change (String quote_char "" ++ rest) with (String quote_char rest). by rewrite unquote_quote.
  - cbn [good] in Hg. apply andb_true_iff in Hg as [Hd%Z.ltb_lt Hg]. cbn [print clean].
    rewrite !str_app_assoc. destruct l as [|v l].
    { exists 1%nat. intros [|n] Hle; [lia|]. cbn [value map Join]. 
      change ("[" ++ "" ++ "]" ++ rest) with (String "[" (String "]" rest)). cbn [value]. cbv zeta.
      rewrite (proj2 (Z.leb_gt _ _) Hd). reflexivity. }
    destruct (elems_print (v :: l) ltac:(done) Hl (d + 1) rest Hg) as (n0 & Hn).
    exists (S n0). intros [|n] Hle; [lia|]. specialize (Hn n ltac:(lia)).
    set (text := Join (map print (v :: l)) "," ++ "]" ++ rest) in *.
    cbn [forallb] in Hg. apply andb_true_iff in Hg as [Hv _].
    destruct (print_opens (d + 1) v Hv) as (c & r & Hp & Ho).
    assert (exists r', text = String c r') as (r' & Ht).
    { unfold text. cbn [map Join]. destruct (map print l); rewrite Hp; eexists; reflexivity. }
    change ("[" ++ text) with (String "[" text). cbn [value]. cbv zeta.
    change (byte_of "[" =? 34) with false. change (byte_of "[" =? 91) with true. cbv iota.
    rewrite (proj2 (Z.leb_gt _ _) Hd), Ht, skip_space_opens by done.
    rewrite (proj2 (Z.eqb_neq (byte_of c) 93)) by apply Ho. rewrite <- Ht, Hn. done.
  - cbn [good] in Hg. apply andb_true_iff in Hg as [Hd%Z.ltb_lt Hg]. cbn [print clean].
    rewrite !str_app_assoc. destruct fs as [|kv fs].
    { exists 1%nat. intros [|n] Hle; [lia|].
      change ("{" ++ Join (map _ []) "," ++ "}" ++ rest) with (String "{" (String "}" rest)).
      cbn [value]. cbv zeta. rewrite (proj2 (Z.leb_gt _ _) Hd). reflexivity. }
    destruct (members_print (kv :: fs) ltac:(done) Hf (d + 1) rest Hg) as (n0 & Hn).
    exists (S n0). intros [|n] Hle; [lia|]. specialize (Hn n ltac:(lia)).
    change (map (fun kv0 => quote (fst kv0) ++ ":" ++ print (snd kv0)) (kv :: fs))
      with (map print_member (kv :: fs)).
    set (text := Join (map print_member (kv :: fs)) "," ++ "}" ++ rest) in *.
    assert (exists r', text = String quote_char r') as (r' & Ht).
    { unfold text. cbn [map Join]. destruct (map print_member fs); eexists; reflexivity. }
    change ("{" ++ text) with (String "{" text). cbn [value]. cbv zeta.
    change (byte_of "{" =? 34) with false. change (byte_of "{" =? 91) with false.
    change (byte_of "{" =? 123) with true. cbv iota.
    rewrite (proj2 (Z.leb_gt _ _) Hd), Ht, skip_space_opens by (by vm_compute).
    change (byte_of quote_char =? 125) with false. cbv iota. rewrite <- Ht, Hn. done.
Qed.

Lemma first_value_print v : good 0 v = true -> first_value (print v) = Ok (clean v) "".
Proof.
  intros Hg. destruct (reads_all v 0 "" Hg I) as (n0 & Hn). rewrite str_app_nil_r in Hn.
  destruct (print_opens 0 v Hg) as (c & r & Hp & Ho). unfold first_value.
  rewrite Hp, (skip_space_opens c r Ho), <- Hp.
  rewrite <- (proj1 (fuel_enough (S (2 * String.length (print v)))) 0 (print v)
    (n0 + S (2 * String.length (print v)))%nat) by lia.
  apply Hn. lia.
Qed.

(** What [json.Marshal] writes, [json.Unmarshal] reads: every value comes back, its
    strings up to invalid UTF-8. *)
Lemma parse_print v : good 0 v = true -> parse (print v) = Some (clean v).
Proof. intros Hg. unfold parse. by rewrite first_value_print. Qed.
End JsonText.
