(* ===== verification/Storage.v ===== *)
(** The backend-agnostic storage interface: the types of
    src/internal/storage/provider.go, the errors a provider can return, and the
    [StorageProvider] interface as a record of operations over the state [B] of
    the backends.  src/internal/storage/registry.go (provider factories by
    kind) and src/internal/storage/ssec.go close the file. *)

From stdpp Require Import pretty.
From Stdlib Require Import Ascii.
From S2P Require Import Prelude GoStrings.

(** * Data *)

Record Permissions := mkPermissions { perm_Read : bool; perm_Write : bool; perm_Owner : bool }.

(** [VisibilityUnset] is the empty string, the zero value of the type. *)
Inductive Visibility := VisibilityPrivate | VisibilityPublic | VisibilityUnset.

Record WebsiteConfig := mkWebsiteConfig {
  web_Enabled : bool; web_IndexDocument : str; web_ErrorDocument : str }.

Record Quota := mkQuota { quota_MaxSizeBytes : option Z; quota_MaxObjects : option Z }.

Record SBucket := mkSBucket {
  sb_ID : str; sb_GlobalAliases : list str; sb_LocalAliases : list str;
  sb_Visibility : Visibility; sb_Website : WebsiteConfig; sb_Quota : Quota }.

Record BucketUsage := mkBucketUsage {
  bu_ObjectCount : Z; bu_BytesUsed : Z; bu_UnfinishedUploads : Z;
  bu_UnfinishedMultipartUploads : Z; bu_UnfinishedMultipartParts : Z;
  bu_UnfinishedMultipartBytes : Z;
  bu_QuotaMaxSize : option Z; bu_QuotaMaxObjects : option Z; bu_CapturedAt : Z }.

Record Credential := mkCredential {
  cred_AccessKeyID : str; cred_SecretAccessKey : str; cred_Name : str;
  cred_CanCreateBucket : bool; cred_CreatedAt : Z; cred_ExpiresAt : option Z }.

Record Object := mkObject {
  obj_Key : str; obj_Size : Z; obj_LastModified : Z; obj_ETag : str; obj_IsPrefix : bool }.

Record ObjectVersion := mkObjectVersion {
  ov_Key : str; ov_VersionID : str; ov_IsLatest : bool; ov_IsDeleteMarker : bool;
  ov_Size : Z; ov_LastModified : Z; ov_ETag : str }.

Record ListObjectsInput := mkListObjectsInput {
  loi_Prefix : str; loi_Delimiter : str; loi_ContinuationToken : str; loi_MaxKeys : Z }.

Record ListObjectsResult := mkListObjectsResult {
  lor_Objects : list Object; lor_CommonPrefixes : list str;
  lor_NextContinuationToken : str; lor_IsTruncated : bool }.

Record PresignInput := mkPresignInput {
  pi_BucketID : str; pi_Key : str; pi_Method : str; pi_ContentType : str; pi_Expires : Z }.

Record CORSRule := mkCORSRule {
  cors_AllowedOrigins : list str; cors_AllowedMethods : list str;
  cors_AllowedHeaders : list str; cors_ExposeHeaders : list str; cors_MaxAgeSeconds : Z }.

Record LifecycleRule := mkLifecycleRule {
  lr_ID : str; lr_Prefix : str; lr_Enabled : bool;
  lr_ExpireDays : Z; lr_AbortIncompleteMPUDays : Z }.

Record ClusterHealth := mkClusterHealth {
  ch_Status : str; ch_KnownNodes : Z; ch_ConnectedNodes : Z; ch_StorageNodes : Z;
  ch_StorageNodesOK : Z; ch_Partitions : Z; ch_PartitionsQuorum : Z; ch_PartitionsAllOK : bool }.

Record NodeStatus := mkNodeStatus {
  ns_ID : str; ns_Hostname : str; ns_Addr : str; ns_Zone : str; ns_Role : str;
  ns_IsUp : bool; ns_CapacityBytes : option Z; ns_DiskUsed : Z; ns_DiskAvail : Z;
  ns_Draining : bool }.

Record ClusterStatus := mkClusterStatus { cs_LayoutVersion : Z; cs_Nodes : list NodeStatus }.

Record Capabilities := mkCapabilities {
  cap_ObjectVersioning : bool; cap_PerObjectPublicACL : bool; cap_BucketCORS : bool;
  cap_ServerSideEncDefault : bool; cap_EventNotifications : bool; cap_LifecycleExpiry : bool;
  cap_ManagesKeys : bool; cap_ManagesQuota : bool; cap_HasClusterHealth : bool;
  cap_PublicWebsite : bool }.

(** The zero [time.Time], in nanoseconds since the epoch. *)
Definition zero_time : Z := (-62135596800 * 10 ^ 9)%Z.

(** * Errors

    [ErrUnsupported] is the sentinel of src/internal/storage/errors.go,
    [AdminError] the non-2xx answer of the Garage admin API
    (src/internal/storage/garage/admin_client.go), [APIError] an S3 error as the
    AWS SDK reports it (code, message, full text), [WrapErr] an
    [fmt.Errorf("...: %w")] around another error. *)
Inductive StErr :=
  | ErrUnsupported
  | AdminError (method path : str) (status : Z) (body : str)
  | APIError (code msg text : str)
  | OtherErr (msg : str)
  | WrapErr (prefix : str) (e : StErr).

#[export] Instance StErr_eq_dec : EqDecision StErr.
Proof. solve_decision. Defined.

(** [err.Error()] *)
Fixpoint st_error (e : StErr) : str :=
  match e with
  | ErrUnsupported => "storage: operation not supported by this backend"
  | AdminError m p s b => "garage admin " +:+ m +:+ " " +:+ p +:+ ": status " +:+ pretty s +:+ ": " +:+ b
  | APIError _ _ t => t
  | OtherErr m => m
  | WrapErr p e => p +:+ ": " +:+ st_error e
  end.

(** What [errors.Is] and [errors.As] see: the error at the bottom of the chain. *)
Fixpoint st_root (e : StErr) : StErr :=
  match e with WrapErr _ e' => st_root e' | _ => e end.

(** * The interface *)

Record StorageProvider (B : Type) := mkStorageProvider {
  sp_Name : str;
  sp_Capabilities : Capabilities;
  sp_CreateBucket : str -> M B StErr SBucket;
  sp_DeleteBucket : str -> M B StErr unit;
  sp_ListBuckets : M B StErr (list SBucket);
  sp_GetBucket : str -> M B StErr SBucket;
  sp_SetVisibility : str -> Visibility -> WebsiteConfig -> M B StErr unit;
  sp_GrantKey : str -> str -> Permissions -> M B StErr unit;
  sp_RevokeKey : str -> str -> M B StErr unit;
  sp_SetQuota : str -> Quota -> M B StErr unit;
  sp_CreateAccessKey : str -> bool -> M B StErr Credential;
  sp_ImportAccessKey : Credential -> M B StErr unit;
  sp_DeleteAccessKey : str -> M B StErr unit;
  sp_ListAccessKeys : M B StErr (list Credential);
  sp_GetBucketUsage : str -> M B StErr BucketUsage;
  sp_GetClusterHealth : M B StErr ClusterHealth;
  sp_GetClusterStatus : M B StErr ClusterStatus;
  sp_Ping : M B StErr unit;
  sp_ListObjects : str -> ListObjectsInput -> M B StErr ListObjectsResult;
  sp_HeadObject : str -> str -> M B StErr Object;
  sp_DeleteObject : str -> str -> M B StErr unit;
  sp_DeleteObjects : str -> list str -> M B StErr unit;
  sp_CopyObject : str -> str -> str -> M B StErr unit;
  (** bucket, key, body, size, content type; the SSE-C key comes with the context *)
  sp_PutObject : option str -> str -> str -> str -> Z -> str -> M B StErr unit;
  sp_GetObject : option str -> str -> str -> M B StErr (str * Object);
  sp_Presign : PresignInput -> M B StErr str;
  sp_SetCORS : str -> list CORSRule -> M B StErr unit;
  sp_GetCORS : str -> M B StErr (list CORSRule);
  sp_DeleteCORS : str -> M B StErr unit;
  sp_SetLifecycle : str -> list LifecycleRule -> M B StErr unit;
  sp_GetLifecycle : str -> M B StErr (list LifecycleRule);
  sp_DeleteLifecycle : str -> M B StErr unit;
  sp_GetBucketVersioning : str -> M B StErr bool;
  sp_SetBucketVersioning : str -> bool -> M B StErr unit;
  sp_ListObjectVersions : str -> str -> M B StErr (list ObjectVersion);
  sp_DeleteObjectVersion : str -> str -> str -> M B StErr unit;
  sp_RestoreObjectVersion : str -> str -> str -> M B StErr unit
}.
Arguments sp_Name {B}. Arguments sp_Capabilities {B}.
Arguments sp_CreateBucket {B}. Arguments sp_DeleteBucket {B}. Arguments sp_ListBuckets {B}.
Arguments sp_GetBucket {B}. Arguments sp_SetVisibility {B}. Arguments sp_GrantKey {B}.
Arguments sp_RevokeKey {B}. Arguments sp_SetQuota {B}. Arguments sp_CreateAccessKey {B}.
Arguments sp_ImportAccessKey {B}. Arguments sp_DeleteAccessKey {B}. Arguments sp_ListAccessKeys {B}.
Arguments sp_GetBucketUsage {B}. Arguments sp_GetClusterHealth {B}. Arguments sp_GetClusterStatus {B}.
Arguments sp_Ping {B}. Arguments sp_ListObjects {B}. Arguments sp_HeadObject {B}.
Arguments sp_DeleteObject {B}. Arguments sp_DeleteObjects {B}. Arguments sp_CopyObject {B}.
Arguments sp_PutObject {B}. Arguments sp_GetObject {B}. Arguments sp_Presign {B}.
Arguments sp_SetCORS {B}. Arguments sp_GetCORS {B}. Arguments sp_DeleteCORS {B}.
Arguments sp_SetLifecycle {B}. Arguments sp_GetLifecycle {B}. Arguments sp_DeleteLifecycle {B}.
Arguments sp_GetBucketVersioning {B}. Arguments sp_SetBucketVersioning {B}.
Arguments sp_ListObjectVersions {B}. Arguments sp_DeleteObjectVersion {B}.
Arguments sp_RestoreObjectVersion {B}.

(** * The factory registry *)

Record ProviderConfig := mkProviderConfig {
  pc_Kind : str; pc_S3Endpoint : str; pc_S3Region : str;
  pc_AdminURL : str; pc_AdminToken : str;
  pc_SystemKey : Credential;
  (** the only key of [Extra] in use, [Extra["s3_public_endpoint"]] *)
  pc_S3PublicEndpoint : str }.

Definition Factory (B : Type) : Type := ProviderConfig -> StErr + StorageProvider B.

(** [Register]: a later registration of the same kind replaces the earlier. *)
Definition Register {B} (kind : str) (f : Factory B) (registry : gmap str (Factory B))
  : gmap str (Factory B) := <[kind := f]> registry.

Definition New {B} (registry : gmap str (Factory B)) (cfg : ProviderConfig)
  : StErr + StorageProvider B :=
  match registry !! pc_Kind cfg with
  | Some f => f cfg
  | None => inl (OtherErr ("storage: unknown provider " +:+ pc_Kind cfg))
  end.

(** * SSE-C *)

(** [WithSSEC]: an empty key leaves the context unchanged. *)
Definition WithSSEC (ctx : option str) (keyB64 : str) : option str :=
  if keyB64 =s "" then ctx else Some keyB64.

(** * Object-store laws

    What the services rely on for the object plane of a provider.  [objs b
    bucket] is the set of current objects of a bucket (key to body) in backend
    state [b].  The laws on writes are stated for a call that returns without
    error; a write that fails may have done anything.  A copy is only specified
    between names that URL encoding leaves alone ([copy_plain]): the source of a
    copy travels in a URL-encoded header which the client does not encode.
    S3Laws.v proves the laws for the providers of the sources. *)

(** The bytes URL encoding leaves alone, and the names made of them. *)
Definition unreserved (c : ascii) : bool :=
  is_lower c || is_upper c || is_digit c || Ascii.eqb c "-" || Ascii.eqb c "_" ||
  Ascii.eqb c "." || Ascii.eqb c "~".
Definition path_char (c : ascii) : bool := unreserved c || Ascii.eqb c "/".
Definition copy_plain (bkt src : str) : bool := str_all unreserved bkt && str_all path_char src.

Class ObjectStore {B} (p : StorageProvider B) (objs : B -> str -> gmap str str) : Prop := {
  os_head : forall b b' bkt k o, sp_HeadObject p bkt k b = (inr o, b') ->
    b' = b /\ exists body, objs b bkt !! k = Some body /\ obj_Size o = Z.of_nat (String.length body);
  (** reading metadata changes no object, whatever it answers *)
  os_head_reads : forall b b' bkt k r, sp_HeadObject p bkt k b = (r, b') -> objs b' = objs b;
  os_copy : forall b b' bkt src dst, copy_plain bkt src = true -> sp_CopyObject p bkt src dst b = (inr tt, b') ->
    exists body, objs b bkt !! src = Some body /\
      objs b' bkt = <[dst := body]> (objs b bkt) /\
      forall other, other <> bkt -> objs b' other = objs b other;
  os_delete : forall b b' bkt k, sp_DeleteObject p bkt k b = (inr tt, b') ->
    objs b' bkt = delete k (objs b bkt) /\
    forall other, other <> bkt -> objs b' other = objs b other;
  os_deletes : forall b b' bkt ks, sp_DeleteObjects p bkt ks b = (inr tt, b') ->
    objs b' bkt = foldr delete (objs b bkt) ks /\
    forall other, other <> bkt -> objs b' other = objs b other;
  os_put : forall b b' ssec bkt k body size ct,
    sp_PutObject p ssec bkt k body size ct b = (inr tt, b') ->
    objs b' bkt = <[k := body]> (objs b bkt) /\
    forall other, other <> bkt -> objs b' other = objs b other;
  (** a listing with no prefix and no delimiter, from the start: every entry is a
      current object, none is a prefix, and a page that is not truncated is complete *)
  os_list : forall b b' bkt max r,
    sp_ListObjects p bkt (mkListObjectsInput "" "" "" max) b = (inr r, b') ->
    b' = b /\
    Forall (fun o => obj_IsPrefix o = false /\ is_Some (objs b bkt !! obj_Key o)) (lor_Objects r) /\
    (lor_IsTruncated r = false ->
       forall k, is_Some (objs b bkt !! k) -> k ∈ (obj_Key <$> lor_Objects r)) /\
    (lor_Objects r = [] -> objs b bkt = ∅)
}.
