(* ===== verification/S3core.v ===== *)
(** The shared S3 data plane, src/internal/storage/s3core/client.go.

    The AWS SDK and the S3 endpoint behind it are not part of the sources: they
    are the class [S3Service], one operation per SDK call, with the SDK's
    optional fields as [option].  [Client] is s3core.Client: every method maps
    its arguments to an SDK call and the SDK's answer back. *)

From Stdlib Require Import Ascii.
From S2P Require Import Prelude GoStrings Storage.

(** * The SDK *)

Record S3Conn := mkS3Conn {
  conn_endpoint : str; conn_region : str; conn_accessKeyID : str; conn_secretAccessKey : str }.

Record S3Obj := mkS3Obj {
  s3o_Key : option str; s3o_Size : option Z; s3o_LastModified : option Z; s3o_ETag : option str }.

Record ListV2Input := mkListV2Input {
  lv2_Bucket : str; lv2_Prefix : option str; lv2_Delimiter : option str;
  lv2_ContinuationToken : option str; lv2_MaxKeys : option Z }.

Record ListV2Output := mkListV2Output {
  lv2o_Contents : list S3Obj; lv2o_CommonPrefixes : list (option str);
  lv2o_NextContinuationToken : option str; lv2o_IsTruncated : option bool }.

Record HeadOutput := mkHeadOutput {
  ho_ContentLength : option Z; ho_LastModified : option Z; ho_ETag : option str }.

Record S3Version := mkS3Version {
  s3v_Key : option str; s3v_VersionId : option str; s3v_IsLatest : option bool;
  s3v_Size : option Z; s3v_LastModified : option Z; s3v_ETag : option str }.

Record AwsCORSRule := mkAwsCORSRule {
  ac_AllowedOrigins : list str; ac_AllowedMethods : list str; ac_AllowedHeaders : list str;
  ac_ExposeHeaders : list str; ac_MaxAgeSeconds : option Z }.

Inductive ExpirationStatus := StatusEnabled | StatusDisabled | StatusOther.

Record AwsLifecycleRule := mkAwsLifecycleRule {
  al_ID : option str; al_Status : ExpirationStatus; al_Filter : option (option str);
  (** [Expiration.Days] and [DaysAfterInitiation]; the outer option is the nil struct *)
  al_Expiration : option (option Z); al_Abort : option (option Z) }.

Inductive VersioningStatus := VersioningEnabled | VersioningSuspended | VersioningNone.

(** the three SSE-C headers *)
Record SSECHeaders := mkSSEC { sse_alg : str; sse_key : str; sse_md5 : str }.

Record PutInput := mkPutInput {
  put_Bucket : str; put_Key : str; put_Body : str; put_ContentLength : option Z;
  put_ContentType : option str; put_SSEC : option SSECHeaders }.

Class S3Service (B : Type) := {
  s3_CreateBucket : S3Conn -> str -> M B StErr unit;
  s3_DeleteBucket : S3Conn -> str -> M B StErr unit;
  s3_ListBuckets : S3Conn -> M B StErr (list (option str));
  s3_ListObjectsV2 : S3Conn -> ListV2Input -> M B StErr ListV2Output;
  s3_HeadObject : S3Conn -> str -> str -> M B StErr HeadOutput;
  s3_DeleteObject : S3Conn -> str -> str -> option str -> M B StErr unit;
  (** the answer lists the keys that could not be deleted *)
  s3_DeleteObjects : S3Conn -> str -> list str -> M B StErr (list str);
  s3_CopyObject : S3Conn -> str -> str -> str -> M B StErr unit;
  s3_GetBucketVersioning : S3Conn -> str -> M B StErr VersioningStatus;
  s3_PutBucketVersioning : S3Conn -> str -> VersioningStatus -> M B StErr unit;
  s3_ListObjectVersions : S3Conn -> str -> option str -> M B StErr (list S3Version * list S3Version);
  s3_PutObject : S3Conn -> PutInput -> M B StErr unit;
  s3_GetObject : S3Conn -> str -> str -> option SSECHeaders -> M B StErr (str * HeadOutput);
  s3_PresignPut : S3Conn -> str -> str -> option str -> Z -> M B StErr str;
  s3_PresignGet : S3Conn -> str -> str -> Z -> M B StErr str;
  s3_PutBucketCors : S3Conn -> str -> list AwsCORSRule -> M B StErr unit;
  s3_GetBucketCors : S3Conn -> str -> M B StErr (list AwsCORSRule);
  s3_DeleteBucketCors : S3Conn -> str -> M B StErr unit;
  s3_PutBucketLifecycle : S3Conn -> str -> list AwsLifecycleRule -> M B StErr unit;
  s3_GetBucketLifecycle : S3Conn -> str -> M B StErr (list AwsLifecycleRule);
  s3_DeleteBucketLifecycle : S3Conn -> str -> M B StErr unit;
  (** base64 and MD5, and the capture time [UsageByScan] stamps *)
  s3_base64_decode : str -> option str;
  s3_md5_base64 : str -> str;
  s3_now : B -> Z
}.

Definition ToString (o : option str) : str := default "" o.
Definition ToInt (o : option Z) : Z := default 0%Z o.
Definition ToBool (o : option bool) : bool := default false o.
Definition ToTime (o : option Z) : Z := default zero_time o.
Definition optString (s : str) : option str := if s =s "" then None else Some s.

(** * CORS and lifecycle mapping *)

(** [aws.Int32(int32(r.MaxAgeSeconds))]: the conversion keeps 32 bits. *)
Definition CORSRulesToAWS (rules : list CORSRule) : list AwsCORSRule :=
  (fun r => mkAwsCORSRule (cors_AllowedOrigins r) (cors_AllowedMethods r)
              (cors_AllowedHeaders r) (cors_ExposeHeaders r)
              (Some (wrap32 (cors_MaxAgeSeconds r)))) <$> rules.

Definition CORSRulesFromAWS (rules : list AwsCORSRule) : list CORSRule :=
  (fun r => mkCORSRule (ac_AllowedOrigins r) (ac_AllowedMethods r)
              (ac_AllowedHeaders r) (ac_ExposeHeaders r)
              (ToInt (ac_MaxAgeSeconds r))) <$> rules.

Definition ruleID (id : str) (i : nat) : str :=
  if id =s "" then "rule-" +:+ Itoa (Z.of_nat i) else id.

(** The body of the loop of [SetLifecycle]. *)
Definition lifecycleRuleToAWS (i : nat) (r : LifecycleRule) : AwsLifecycleRule :=
  {| al_ID := Some (ruleID (lr_ID r) i);
     al_Status := if lr_Enabled r then StatusEnabled else StatusDisabled;
     al_Filter := Some (Some (lr_Prefix r));
     al_Expiration := if (0 <? lr_ExpireDays r)%Z then Some (Some (wrap32 (lr_ExpireDays r))) else None;
     al_Abort := if (0 <? lr_AbortIncompleteMPUDays r)%Z
                 then Some (Some (wrap32 (lr_AbortIncompleteMPUDays r))) else None |}.

(** The body of the loop of [GetLifecycle]. *)
Definition lifecycleRuleFromAWS (r : AwsLifecycleRule) : LifecycleRule :=
  {| lr_ID := ToString (al_ID r);
     lr_Enabled := match al_Status r with StatusEnabled => true | _ => false end;
     lr_Prefix := match al_Filter r with Some f => ToString f | None => "" end;
     lr_ExpireDays := match al_Expiration r with Some d => ToInt d | None => 0%Z end;
     lr_AbortIncompleteMPUDays := match al_Abort r with Some d => ToInt d | None => 0%Z end |}.

(** * The client *)

Module Client.
Section Client.
Context {B : Type} `{!S3Service B}.

Record t := mk { c_conn : S3Conn; c_presign : S3Conn }.

Definition New (endpoint publicEndpoint region accessKeyID secretAccessKey : str) : t :=
  let pe := if publicEndpoint =s "" then endpoint else publicEndpoint in
  mk (mkS3Conn endpoint region accessKeyID secretAccessKey)
     (mkS3Conn pe region accessKeyID secretAccessKey).

Definition IsS3ErrorCode (err : StErr) (code : str) : bool :=
  match st_root err with APIError c _ _ => c =s code | _ => false end.

Definition ssecFields (ssec : option str) : option SSECHeaders :=
  match ssec with
  | None => None
  | Some keyB64 =>
      match s3_base64_decode keyB64 with
      | Some raw => if Nat.eqb (String.length raw) 32
                    then Some (mkSSEC "AES256" keyB64 (s3_md5_base64 raw)) else None
      | None => None
      end
  end.

Definition CreateBucket (c : t) (name : str) : M B StErr unit :=
  let! r := attempt (s3_CreateBucket (c_conn c) name) in
  match r with
  | inr _ => ret tt
  | inl err =>
      if IsS3ErrorCode err "BucketAlreadyOwnedByYou" || IsS3ErrorCode err "BucketAlreadyExists"
      then ret tt else throw err
  end.

Definition DeleteBucket (c : t) (name : str) : M B StErr unit := s3_DeleteBucket (c_conn c) name.

Definition ListBuckets (c : t) : M B StErr (list str) :=
  let! out := s3_ListBuckets (c_conn c) in ret (ToString <$> out).

(** [UsageByScan]: the SDK paginator asks for pages until the answer carries no
    next token.  [fuel] bounds the number of pages; [None] is "not done yet". *)
Fixpoint scan_pages (fuel : nat) (c : t) (bucket : str) (token : option str) (bytes objects : Z)
  : M B StErr (option (Z * Z)) :=
  match fuel with
  | 0 => ret None
  | S fuel' =>
      let! page := s3_ListObjectsV2 (c_conn c) (mkListV2Input bucket None None token None) in
      let bytes' := foldl (fun acc o => add64 acc (ToInt (s3o_Size o))) bytes (lv2o_Contents page) in
      let objects' := foldl (fun acc _ => add64 acc 1) objects (lv2o_Contents page) in
      match (if ToBool (lv2o_IsTruncated page) then lv2o_NextContinuationToken page else None) with
      | Some tok => if tok =s "" then ret (Some (bytes', objects'))
                    else scan_pages fuel' c bucket (Some tok) bytes' objects'
      | None => ret (Some (bytes', objects'))
      end
  end.

Definition UsageByScan (fuel : nat) (c : t) (bucket : str) : M B StErr BucketUsage :=
  let! r := scan_pages fuel c bucket None 0%Z 0%Z in
  match r with
  | None => throw (OtherErr "listing not finished")
  | Some (bytes, objects) =>
      let! b := get in
      ret {| bu_ObjectCount := objects; bu_BytesUsed := bytes; bu_UnfinishedUploads := 0;
             bu_UnfinishedMultipartUploads := 0; bu_UnfinishedMultipartParts := 0;
             bu_UnfinishedMultipartBytes := 0; bu_QuotaMaxSize := None; bu_QuotaMaxObjects := None;
             bu_CapturedAt := s3_now b |}
  end.

Definition ListObjects (c : t) (bucket : str) (i : ListObjectsInput) : M B StErr ListObjectsResult :=
  let! out := s3_ListObjectsV2 (c_conn c)
    {| lv2_Bucket := bucket;
       lv2_Prefix := optString (loi_Prefix i);
       lv2_Delimiter := optString (loi_Delimiter i);
       lv2_ContinuationToken := optString (loi_ContinuationToken i);
       lv2_MaxKeys := if (0 <? loi_MaxKeys i)%Z then Some (loi_MaxKeys i) else None |} in
  ret {| lor_NextContinuationToken := ToString (lv2o_NextContinuationToken out);
         lor_IsTruncated := ToBool (lv2o_IsTruncated out);
         lor_Objects := (fun o => mkObject (ToString (s3o_Key o)) (ToInt (s3o_Size o))
                                    (ToTime (s3o_LastModified o))
                                    (TrimQuotes (ToString (s3o_ETag o))) false)
                        <$> lv2o_Contents out;
         lor_CommonPrefixes := ToString <$> lv2o_CommonPrefixes out |}.

Definition headToObject (key : str) (out : HeadOutput) : Object :=
  mkObject key (ToInt (ho_ContentLength out)) (ToTime (ho_LastModified out))
    (TrimQuotes (ToString (ho_ETag out))) false.

Definition HeadObject (c : t) (bucket key : str) : M B StErr Object :=
  let! out := s3_HeadObject (c_conn c) bucket key in ret (headToObject key out).

Definition DeleteObject (c : t) (bucket key : str) : M B StErr unit :=
  s3_DeleteObject (c_conn c) bucket key None.

Definition DeleteObjects (c : t) (bucket : str) (keys : list str) : M B StErr unit :=
  match keys with
  | [] => ret tt
  | _ => let! _ := s3_DeleteObjects (c_conn c) bucket keys in ret tt
  end.

Definition CopyObject (c : t) (bucket srcKey dstKey : str) : M B StErr unit :=
  s3_CopyObject (c_conn c) bucket dstKey (bucket +:+ "/" +:+ srcKey).

Definition GetBucketVersioning (c : t) (bucket : str) : M B StErr bool :=
  let! status := s3_GetBucketVersioning (c_conn c) bucket in
  ret (match status with VersioningEnabled => true | _ => false end).

Definition SetBucketVersioning (c : t) (bucket : str) (enabled : bool) : M B StErr unit :=
  s3_PutBucketVersioning (c_conn c) bucket (if enabled then VersioningEnabled else VersioningSuspended).

Definition ListObjectVersions (c : t) (bucket prefix : str) : M B StErr (list ObjectVersion) :=
  let! out := s3_ListObjectVersions (c_conn c) bucket (optString prefix) in
  ret (((fun v => mkObjectVersion (ToString (s3v_Key v)) (ToString (s3v_VersionId v))
                    (ToBool (s3v_IsLatest v)) false (ToInt (s3v_Size v))
                    (ToTime (s3v_LastModified v)) (TrimQuotes (ToString (s3v_ETag v)))) <$> fst out)
       ++ ((fun d => mkObjectVersion (ToString (s3v_Key d)) (ToString (s3v_VersionId d))
                    (ToBool (s3v_IsLatest d)) true 0 (ToTime (s3v_LastModified d)) "") <$> snd out)).

Definition DeleteObjectVersion (c : t) (bucket key versionID : str) : M B StErr unit :=
  s3_DeleteObject (c_conn c) bucket key (Some versionID).

Definition RestoreObjectVersion (c : t) (bucket key versionID : str) : M B StErr unit :=
  s3_CopyObject (c_conn c) bucket key (bucket +:+ "/" +:+ key +:+ "?versionId=" +:+ versionID).

Definition PutObject (c : t) (ssec : option str) (bucket key body : str) (size : Z) (contentType : str)
  : M B StErr unit :=
  s3_PutObject (c_conn c)
    {| put_Bucket := bucket; put_Key := key; put_Body := body;
       put_ContentLength := if (0 <? size)%Z then Some size else None;
       put_ContentType := optString contentType; put_SSEC := ssecFields ssec |}.

Definition GetObject (c : t) (ssec : option str) (bucket key : str) : M B StErr (str * Object) :=
  let! out := s3_GetObject (c_conn c) bucket key (ssecFields ssec) in
  ret (fst out, headToObject key (snd out)).

Definition default_presign_expiry : Z := (15 * 60 * 10 ^ 9)%Z.

Definition PresignURL (c : t) (i : PresignInput) : M B StErr str :=
  let expires := if (pi_Expires i <=? 0)%Z then default_presign_expiry else pi_Expires i in
  if ToUpper (pi_Method i) =s "PUT"
  then s3_PresignPut (c_presign c) (pi_BucketID i) (pi_Key i) (optString (pi_ContentType i)) expires
  else s3_PresignGet (c_presign c) (pi_BucketID i) (pi_Key i) expires.

Definition SetCORS (c : t) (bucket : str) (rules : list CORSRule) : M B StErr unit :=
  s3_PutBucketCors (c_conn c) bucket (CORSRulesToAWS rules).

Definition GetCORS (c : t) (bucket : str) : M B StErr (list CORSRule) :=
  let! r := attempt (s3_GetBucketCors (c_conn c) bucket) in
  match r with
  | inr rules => ret (CORSRulesFromAWS rules)
  | inl err => if IsS3ErrorCode err "NoSuchCORSConfiguration" then ret [] else throw err
  end.

Definition DeleteCORS (c : t) (bucket : str) : M B StErr unit := s3_DeleteBucketCors (c_conn c) bucket.

Definition SetLifecycle (c : t) (bucket : str) (rules : list LifecycleRule) : M B StErr unit :=
  s3_PutBucketLifecycle (c_conn c) bucket (imap lifecycleRuleToAWS rules).

Definition GetLifecycle (c : t) (bucket : str) : M B StErr (list LifecycleRule) :=
  let! r := attempt (s3_GetBucketLifecycle (c_conn c) bucket) in
  match r with
  | inr rules => ret (lifecycleRuleFromAWS <$> rules)
  | inl err => if IsS3ErrorCode err "NoSuchLifecycleConfiguration" then ret [] else throw err
  end.

Definition DeleteLifecycle (c : t) (bucket : str) : M B StErr unit :=
  s3_DeleteBucketLifecycle (c_conn c) bucket.

End Client.
End Client.
