(* ===== verification/Garage.v ===== *)
(** The Garage backend, src/internal/storage/garage: the Admin API v2 client
    (admin_client.go, admin_calls.go, admin_bucket.go, admin_types.go), the
    version guard (version.go), the mapping to the storage types (mapping.go) and
    the provider (provider.go).

    The Garage server is not part of the sources: it is the class
    [GarageServer], which answers a request with a status, a response body and,
    for an error, the body's first bytes.  JSON is modelled by the types it
    carries: a payload of another type than the one expected is the decode error
    of [doJSON]. *)

From Stdlib Require Import Ascii.
From S2P Require Import Prelude GoStrings Storage S3core.

(** * Wire types *)

Record NodeRole := mkNodeRole {
  nr_ID : str; nr_Zone : str; nr_Capacity : option Z; nr_Tags : list str }.

Record NodeResp := mkNodeResp {
  nd_ID : str; nd_GarageVersion : str; nd_Addr : str; nd_Hostname : str; nd_IsUp : bool;
  nd_Draining : bool; nd_Role : option NodeRole;
  (** [DataPartition]: available, total *)
  nd_DataPartition : option (Z * Z) }.

Record ClusterStatusResponse := mkClusterStatusResponse {
  csr_LayoutVersion : Z; csr_Nodes : list NodeResp }.

Record ClusterHealthResponse := mkClusterHealthResponse {
  chr_Status : str; chr_KnownNodes : Z; chr_ConnectedNodes : Z; chr_StorageNodes : Z;
  chr_StorageNodesOK : Z; chr_Partitions : Z; chr_PartitionsQuorum : Z; chr_PartitionsAllOK : Z }.

Record LayoutRole := mkLayoutRole {
  lro_ID : str; lro_Zone : str; lro_Capacity : option Z; lro_Tags : list str }.

Record ClusterLayoutResponse := mkClusterLayoutResponse {
  clr_Version : Z; clr_Roles : list LayoutRole; clr_StagedRoleChanges : list LayoutRole }.

Record LayoutRoleChange := mkLayoutRoleChange {
  lrc_ID : str; lrc_Zone : str; lrc_Capacity : option Z; lrc_Tags : list str; lrc_Remove : bool }.

Record ConnectNodeResult := mkConnectNodeResult { cnr_Success : bool; cnr_Error : str }.

Record LayoutPreviewResponse := mkLayoutPreviewResponse {
  lpr_Error : str; lpr_Message : list str; lpr_NewLayout : option ClusterLayoutResponse }.

Record CreateKeyResponse := mkCreateKeyResponse {
  ckr_AccessKeyID : str; ckr_SecretAccessKey : str; ckr_Name : str }.

Record KeyPermissions := mkKeyPermissions { kp_Read : bool; kp_Write : bool; kp_Owner : bool }.

Record WebsiteAccess := mkWebsiteAccess {
  wa_Enabled : bool; wa_IndexDocument : str; wa_ErrorDocument : str }.

Record BucketQuotas := mkBucketQuotas { bq_MaxSize : option Z; bq_MaxObjects : option Z }.

Record BucketInfoResponse := mkBucketInfoResponse {
  bi_ID : str; bi_GlobalAliases : list str; bi_WebsiteAccess : bool;
  bi_WebsiteConfig : option WebsiteAccess;
  bi_Objects : Z; bi_Bytes : Z; bi_UnfinishedUploads : Z; bi_UnfinishedMultipartUploads : Z;
  bi_UnfinishedMultipartUploadParts : Z; bi_UnfinishedMultipartUploadBytes : Z;
  bi_Quotas : BucketQuotas }.

(** [LocalAliases] is decoded and never read. *)
Record ListBucketsItem := mkListBucketsItem { lbi_ID : str; lbi_GlobalAliases : list str }.

(** * Requests *)

Inductive AdminReq :=
  | ReqHealth
  | ReqCreateBucket (globalAlias : str)
  | ReqGetBucketInfo (id : str)
  | ReqListBuckets
  | ReqUpdateBucket (id : str) (website : option WebsiteAccess) (quotas : option BucketQuotas)
  | ReqDeleteBucket (id : str)
  | ReqListKeys
  | ReqDeleteKey (id : str)
  | ReqAllowBucketKey (bucketID accessKeyID : str) (p : KeyPermissions)
  | ReqDenyBucketKey (bucketID accessKeyID : str) (p : KeyPermissions)
  | ReqImportKey (accessKeyID secretAccessKey name : str)
  | ReqCreateKey (name : str) (allowCreateBucket : bool)
  | ReqGetClusterStatus
  | ReqGetClusterHealth
  | ReqGetClusterLayout
  | ReqUpdateClusterLayout (changes : list LayoutRoleChange)
  | ReqApplyClusterLayout (version : Z)
  | ReqConnectClusterNodes (peers : list str)
  | ReqPreviewClusterLayoutChanges
  | ReqRevertClusterLayout.

Inductive AdminPayload :=
  | PNone
  | PBucketInfo (r : BucketInfoResponse)
  | PBuckets (r : list ListBucketsItem)
  | PKeys (r : list (str * str))
  | PCreateKey (r : CreateKeyResponse)
  | PStatus (r : ClusterStatusResponse)
  | PHealth (r : ClusterHealthResponse)
  | PLayout (r : ClusterLayoutResponse)
  | PConnect (r : list ConnectNodeResult)
  | PPreview (r : LayoutPreviewResponse).

Record AdminConn := mkAdminConn { adm_baseURL : str; adm_token : str }.

Class GarageServer (B : Type) := {
  ga_http : AdminConn -> AdminReq -> M B str (Z * AdminPayload * str);
  ga_now : B -> Z;
  ga_escape : str -> str
}.

(** * Version guard *)

Record Version := mkVersion { ver_Major : Z; ver_Minor : Z; ver_Patch : Z }.

Definition minMajor : Z := 2.
Definition minMinor : Z := 0.
Definition singleNodeMajor : Z := 2.
Definition singleNodeMinor : Z := 3.

Definition Version_String (v : Version) : str :=
  Itoa (ver_Major v) +:+ "." +:+ Itoa (ver_Minor v) +:+ "." +:+ Itoa (ver_Patch v).

Definition is_suffix_mark (c : ascii) : bool := Ascii.eqb c "-"%char || Ascii.eqb c "+"%char.

(** The errors carry the text up to the offending string; the quoting of [%q] and
    the text of the wrapped [strconv] error are left out. *)
Definition ParseVersion (s : str) : str + Version :=
  let s := TrimPrefix (TrimSpace s) "v" in
  if s =s "" then inl "garage: empty version string" else
  let s := match IndexAny s is_suffix_mark with Some i => str_take i s | None => s end in
  let parts := Split s "."%char in
  match Atoi (default "" (parts !! 0)) with
  | None => inl ("garage: bad major in " +:+ s)
  | Some major =>
      match (match parts !! 1 with Some p => Atoi p | None => Some 0%Z end) with
      | None => inl ("garage: bad minor in " +:+ s)
      | Some minor =>
          match (match parts !! 2 with Some p => Atoi p | None => Some 0%Z end) with
          | None => inl ("garage: bad patch in " +:+ s)
          | Some patch => inr (mkVersion major minor patch)
          end
      end
  end.

Definition atLeast (v : Version) (major minor : Z) : bool :=
  if negb (ver_Major v =? major)%Z then (major <? ver_Major v)%Z
  else (minor <=? ver_Minor v)%Z.

(** [None]: supported. *)
Definition CheckSupported (v : Version) : option StErr :=
  if atLeast v minMajor minMinor then None
  else Some (OtherErr ("garage: unsupported version (requires >= 2.0): connected Garage is "
                       +:+ Version_String v)).

Definition SupportsSingleNode (v : Version) : bool := atLeast v singleNodeMajor singleNodeMinor.

(** * Status *)

(** [ClusterStatusResponse.PrimaryNode]: one pass that returns at the first node
    with a storage role and remembers the first node that is up. *)
Fixpoint primary_loop (nodes : list NodeResp) (fallback : option NodeResp) : option NodeResp :=
  match nodes with
  | [] => fallback
  | n :: rest =>
      match nd_Role n with
      | Some r => match nr_Capacity r with
                  | Some _ => Some n
                  | None => primary_loop rest
                      (match fallback with None => if nd_IsUp n then Some n else None | f => f end)
                  end
      | None => primary_loop rest
                  (match fallback with None => if nd_IsUp n then Some n else None | f => f end)
      end
  end.

Definition PrimaryNode (r : ClusterStatusResponse) : option NodeResp :=
  match primary_loop (csr_Nodes r) None with
  | Some n => Some n
  | None => head (csr_Nodes r)
  end.

(** * Mapping *)

Definition no_website : WebsiteConfig := mkWebsiteConfig false "" "".

Definition bucketFromInfo (b : BucketInfoResponse) : SBucket :=
  {| sb_ID := bi_ID b; sb_GlobalAliases := bi_GlobalAliases b; sb_LocalAliases := [];
     sb_Visibility := if bi_WebsiteAccess b then VisibilityPublic else VisibilityPrivate;
     sb_Website :=
       if bi_WebsiteAccess b then
         match bi_WebsiteConfig b with
         | Some w => mkWebsiteConfig true (wa_IndexDocument w) (wa_ErrorDocument w)
         | None => mkWebsiteConfig true "" ""
         end
       else no_website;
     sb_Quota := mkQuota (bq_MaxSize (bi_Quotas b)) (bq_MaxObjects (bi_Quotas b)) |}.

Definition usageFromInfo (b : BucketInfoResponse) (capturedAt : Z) : BucketUsage :=
  {| bu_ObjectCount := bi_Objects b; bu_BytesUsed := bi_Bytes b;
     bu_UnfinishedUploads := bi_UnfinishedUploads b;
     bu_UnfinishedMultipartUploads := bi_UnfinishedMultipartUploads b;
     bu_UnfinishedMultipartParts := bi_UnfinishedMultipartUploadParts b;
     bu_UnfinishedMultipartBytes := bi_UnfinishedMultipartUploadBytes b;
     bu_QuotaMaxSize := bq_MaxSize (bi_Quotas b);
     bu_QuotaMaxObjects := bq_MaxObjects (bi_Quotas b);
     bu_CapturedAt := capturedAt |}.

Definition keyPermsFromStorage (p : Permissions) : KeyPermissions :=
  mkKeyPermissions (perm_Read p) (perm_Write p) (perm_Owner p).

(** The body of the loop of [GetClusterStatus]. *)
Definition nodeStatusFrom (n : NodeResp) : NodeStatus :=
  {| ns_ID := nd_ID n; ns_Hostname := nd_Hostname n; ns_Addr := nd_Addr n;
     ns_IsUp := nd_IsUp n; ns_Draining := nd_Draining n;
     ns_Zone := match nd_Role n with Some r => nr_Zone r | None => "" end;
     ns_CapacityBytes := match nd_Role n with Some r => nr_Capacity r | None => None end;
     ns_Role := match nd_Role n with
                | Some r => match nr_Capacity r with Some _ => "storage" | None => "gateway" end
                | None => "" end;
     ns_DiskAvail := match nd_DataPartition n with Some (avail, _) => avail | None => 0%Z end;
     ns_DiskUsed := match nd_DataPartition n with
                    | Some (avail, total) => sub64 total avail | None => 0%Z end |}.

(** * The admin client *)

Module Admin.
Section Admin.
Context {B : Type} `{!GarageServer B}.

Definition NewAdminClient (baseURL token : str) : AdminConn :=
  mkAdminConn (TrimRightByte baseURL "/"%char) token.

Definition method_of (r : AdminReq) : str :=
  match r with
  | ReqHealth | ReqGetBucketInfo _ | ReqListBuckets | ReqListKeys
  | ReqGetClusterStatus | ReqGetClusterHealth | ReqGetClusterLayout => "GET"
  | _ => "POST"
  end.

Definition path_of (r : AdminReq) : str :=
  match r with
  | ReqHealth => "/health"
  | ReqCreateBucket _ => "/v2/CreateBucket"
  | ReqGetBucketInfo id => "/v2/GetBucketInfo?id=" +:+ ga_escape id
  | ReqListBuckets => "/v2/ListBuckets"
  | ReqUpdateBucket id _ _ => "/v2/UpdateBucket?id=" +:+ ga_escape id
  | ReqDeleteBucket id => "/v2/DeleteBucket?id=" +:+ ga_escape id
  | ReqListKeys => "/v2/ListKeys"
  | ReqDeleteKey id => "/v2/DeleteKey?id=" +:+ ga_escape id
  | ReqAllowBucketKey _ _ _ => "/v2/AllowBucketKey"
  | ReqDenyBucketKey _ _ _ => "/v2/DenyBucketKey"
  | ReqImportKey _ _ _ => "/v2/ImportKey"
  | ReqCreateKey _ _ => "/v2/CreateKey"
  | ReqGetClusterStatus => "/v2/GetClusterStatus"
  | ReqGetClusterHealth => "/v2/GetClusterHealth"
  | ReqGetClusterLayout => "/v2/GetClusterLayout"
  | ReqUpdateClusterLayout _ => "/v2/UpdateClusterLayout"
  | ReqApplyClusterLayout _ => "/v2/ApplyClusterLayout"
  | ReqConnectClusterNodes _ => "/v2/ConnectClusterNodes"
  | ReqPreviewClusterLayoutChanges => "/v2/PreviewClusterLayoutChanges"
  | ReqRevertClusterLayout => "/v2/RevertClusterLayout"
  end.

(** [doJSON]: a transport error, an [AdminError] for a status that is not 2xx, a
    decode error for a body that does not have the expected shape. *)
Definition doJSON {A} (c : AdminConn) (r : AdminReq) (decode : AdminPayload -> option A)
  : M B StErr A :=
  let where_at := method_of r +:+ " " +:+ path_of r in
  let! resp := mapErr (fun m => OtherErr ("garage admin " +:+ where_at +:+ ": " +:+ m)) (ga_http c r) in
  let '(status, payload, snippet) := resp in
  if ((status <? 200) || (300 <=? status))%Z
  then throw (AdminError (method_of r) (path_of r) status snippet)
  else match decode payload with
       | Some a => ret a
       | None => throw (OtherErr ("garage admin " +:+ where_at +:+ ": decode"))
       end.

Definition no_body (p : AdminPayload) : option unit := Some tt.

(** [Health]: GET /health, only 200 is healthy. *)
Definition Health (c : AdminConn) : M B StErr unit :=
  let! resp := mapErr (fun m => OtherErr ("garage admin /health: " +:+ m)) (ga_http c ReqHealth) in
  let '(status, _, _) := resp in
  if (status =? 200)%Z then ret tt
  else throw (OtherErr ("garage admin /health: status " +:+ Itoa status)).

Definition GetClusterStatus (c : AdminConn) : M B StErr ClusterStatusResponse :=
  doJSON c ReqGetClusterStatus (fun p => match p with PStatus r => Some r | _ => None end).
Definition GetClusterHealth (c : AdminConn) : M B StErr ClusterHealthResponse :=
  doJSON c ReqGetClusterHealth (fun p => match p with PHealth r => Some r | _ => None end).
Definition GetClusterLayout (c : AdminConn) : M B StErr ClusterLayoutResponse :=
  doJSON c ReqGetClusterLayout (fun p => match p with PLayout r => Some r | _ => None end).
(** [UpdateClusterLayout] posts assignments only, [UpdateClusterLayoutChanges]
    assignments and removals, to the same endpoint. *)
Definition UpdateClusterLayout (c : AdminConn) (roles : list LayoutRole) : M B StErr unit :=
  doJSON c (ReqUpdateClusterLayout
    ((fun r => mkLayoutRoleChange (lro_ID r) (lro_Zone r) (lro_Capacity r) (lro_Tags r) false) <$> roles))
    no_body.
Definition ApplyClusterLayout (c : AdminConn) (version : Z) : M B StErr unit :=
  doJSON c (ReqApplyClusterLayout version) no_body.
Definition UpdateClusterLayoutChanges (c : AdminConn) (changes : list LayoutRoleChange) : M B StErr unit :=
  doJSON c (ReqUpdateClusterLayout changes) no_body.
Definition ConnectClusterNodes (c : AdminConn) (peers : list str) : M B StErr (list ConnectNodeResult) :=
  doJSON c (ReqConnectClusterNodes peers) (fun p => match p with PConnect r => Some r | _ => None end).
Definition PreviewClusterLayoutChanges (c : AdminConn) : M B StErr LayoutPreviewResponse :=
  doJSON c ReqPreviewClusterLayoutChanges (fun p => match p with PPreview r => Some r | _ => None end).
Definition RevertClusterLayout (c : AdminConn) : M B StErr unit :=
  doJSON c ReqRevertClusterLayout no_body.
Definition CreateKey (c : AdminConn) (name : str) (canCreateBucket : bool) : M B StErr CreateKeyResponse :=
  doJSON c (ReqCreateKey name canCreateBucket)
    (fun p => match p with PCreateKey r => Some r | _ => None end).
Definition AllowBucketKey (c : AdminConn) (bucketID accessKeyID : str) (p : KeyPermissions) : M B StErr unit :=
  doJSON c (ReqAllowBucketKey bucketID accessKeyID p) no_body.

Definition decode_bucket (p : AdminPayload) : option BucketInfoResponse :=
  match p with PBucketInfo r => Some r | _ => None end.
Definition CreateBucket (c : AdminConn) (globalAlias : str) : M B StErr BucketInfoResponse :=
  doJSON c (ReqCreateBucket globalAlias) decode_bucket.
Definition GetBucketInfo (c : AdminConn) (bucketID : str) : M B StErr BucketInfoResponse :=
  doJSON c (ReqGetBucketInfo bucketID) decode_bucket.
Definition ListBuckets (c : AdminConn) : M B StErr (list ListBucketsItem) :=
  doJSON c ReqListBuckets (fun p => match p with PBuckets r => Some r | _ => None end).
Definition UpdateBucket (c : AdminConn) (bucketID : str) (w : option WebsiteAccess) (q : option BucketQuotas)
  : M B StErr BucketInfoResponse := doJSON c (ReqUpdateBucket bucketID w q) decode_bucket.
Definition DeleteBucket (c : AdminConn) (bucketID : str) : M B StErr unit :=
  doJSON c (ReqDeleteBucket bucketID) no_body.
Definition ListKeys (c : AdminConn) : M B StErr (list (str * str)) :=
  doJSON c ReqListKeys (fun p => match p with PKeys r => Some r | _ => None end).
Definition DeleteKey (c : AdminConn) (accessKeyID : str) : M B StErr unit :=
  doJSON c (ReqDeleteKey accessKeyID) no_body.
Definition DenyBucketKey (c : AdminConn) (bucketID accessKeyID : str) (p : KeyPermissions) : M B StErr unit :=
  doJSON c (ReqDenyBucketKey bucketID accessKeyID p) no_body.
Definition ImportKey (c : AdminConn) (accessKeyID secretAccessKey name : str) : M B StErr unit :=
  doJSON c (ReqImportKey accessKeyID secretAccessKey name) no_body.

End Admin.
End Admin.

(** * The provider *)

Definition Kind : str := "garage".

Module Provider.
Section Provider.
Context {B : Type} `{!S3Service B, !GarageServer B}.
Variables (admin : AdminConn) (s3 : Client.t).

Definition capabilities : Capabilities :=
  {| cap_ObjectVersioning := false; cap_PerObjectPublicACL := false; cap_BucketCORS := true;
     cap_ServerSideEncDefault := false; cap_EventNotifications := false;
     cap_LifecycleExpiry := true; cap_ManagesKeys := true; cap_ManagesQuota := true;
     cap_HasClusterHealth := true; cap_PublicWebsite := true |}.

Definition CreateBucket (alias : str) : M B StErr SBucket :=
  let! info := Admin.CreateBucket admin alias in ret (bucketFromInfo info).

Definition ListBuckets : M B StErr (list SBucket) :=
  let! items := Admin.ListBuckets admin in
  ret ((fun it => mkSBucket (lbi_ID it) (lbi_GlobalAliases it) [] VisibilityUnset no_website
                    (mkQuota None None)) <$> items).

Definition GetBucket (bucketID : str) : M B StErr SBucket :=
  let! info := Admin.GetBucketInfo admin bucketID in ret (bucketFromInfo info).

Definition SetVisibility (bucketID : str) (v : Visibility) (w : WebsiteConfig) : M B StErr unit :=
  let wa := match v with
            | VisibilityPublic =>
                mkWebsiteAccess true
                  (if web_IndexDocument w =s "" then "index.html" else web_IndexDocument w)
                  (web_ErrorDocument w)
            | _ => mkWebsiteAccess false "" ""
            end in
  let! _ := Admin.UpdateBucket admin bucketID (Some wa) None in ret tt.

Definition GrantKey (bucketID accessKeyID : str) (perm : Permissions) : M B StErr unit :=
  Admin.AllowBucketKey admin bucketID accessKeyID (keyPermsFromStorage perm).

Definition RevokeKey (bucketID accessKeyID : str) : M B StErr unit :=
  Admin.DenyBucketKey admin bucketID accessKeyID (mkKeyPermissions true true true).

Definition SetQuota (bucketID : str) (q : Quota) : M B StErr unit :=
  let! _ := Admin.UpdateBucket admin bucketID None
    (Some (mkBucketQuotas (quota_MaxSizeBytes q) (quota_MaxObjects q))) in ret tt.

Definition CreateAccessKey (name : str) (canCreateBucket : bool) : M B StErr Credential :=
  let! k := Admin.CreateKey admin name canCreateBucket in
  ret (mkCredential (ckr_AccessKeyID k) (ckr_SecretAccessKey k) (ckr_Name k) canCreateBucket
         zero_time None).

Definition ImportAccessKey (c : Credential) : M B StErr unit :=
  Admin.ImportKey admin (cred_AccessKeyID c) (cred_SecretAccessKey c) (cred_Name c).

Definition ListAccessKeys : M B StErr (list Credential) :=
  let! keys := Admin.ListKeys admin in
  ret ((fun k => mkCredential (fst k) "" (snd k) false zero_time None) <$> keys).

Definition GetBucketUsage (bucketID : str) : M B StErr BucketUsage :=
  let! info := Admin.GetBucketInfo admin bucketID in
  let! b := get in
  ret (usageFromInfo info (ga_now b)).

Definition GetClusterHealth : M B StErr ClusterHealth :=
  let! h := Admin.GetClusterHealth admin in
  ret {| ch_Status := chr_Status h; ch_KnownNodes := chr_KnownNodes h;
         ch_ConnectedNodes := chr_ConnectedNodes h; ch_StorageNodes := chr_StorageNodes h;
         ch_StorageNodesOK := chr_StorageNodesOK h; ch_Partitions := chr_Partitions h;
         ch_PartitionsQuorum := chr_PartitionsQuorum h;
         ch_PartitionsAllOK := ((chr_PartitionsAllOK h =? chr_Partitions h) && (0 <? chr_Partitions h))%Z |}.

Definition GetClusterStatus : M B StErr ClusterStatus :=
  let! s := Admin.GetClusterStatus admin in
  ret (mkClusterStatus (csr_LayoutVersion s) (nodeStatusFrom <$> csr_Nodes s)).

(** The whole provider: the admin plane above, the S3 plane of [Client], and
    object versioning unsupported. *)
Definition provider : StorageProvider B :=
  {| sp_Name := Kind; sp_Capabilities := capabilities;
     sp_CreateBucket := CreateBucket; sp_DeleteBucket := Admin.DeleteBucket admin;
     sp_ListBuckets := ListBuckets; sp_GetBucket := GetBucket;
     sp_SetVisibility := SetVisibility; sp_GrantKey := GrantKey; sp_RevokeKey := RevokeKey;
     sp_SetQuota := SetQuota; sp_CreateAccessKey := CreateAccessKey;
     sp_ImportAccessKey := ImportAccessKey; sp_DeleteAccessKey := Admin.DeleteKey admin;
     sp_ListAccessKeys := ListAccessKeys; sp_GetBucketUsage := GetBucketUsage;
     sp_GetClusterHealth := GetClusterHealth; sp_GetClusterStatus := GetClusterStatus;
     sp_Ping := Admin.Health admin;
     sp_ListObjects := Client.ListObjects s3; sp_HeadObject := Client.HeadObject s3;
     sp_DeleteObject := Client.DeleteObject s3; sp_DeleteObjects := Client.DeleteObjects s3;
     sp_CopyObject := Client.CopyObject s3; sp_PutObject := Client.PutObject s3;
     sp_GetObject := Client.GetObject s3; sp_Presign := Client.PresignURL s3;
     sp_SetCORS := Client.SetCORS s3; sp_GetCORS := Client.GetCORS s3;
     sp_DeleteCORS := Client.DeleteCORS s3; sp_SetLifecycle := Client.SetLifecycle s3;
     sp_GetLifecycle := Client.GetLifecycle s3; sp_DeleteLifecycle := Client.DeleteLifecycle s3;
     sp_GetBucketVersioning := fun _ => throw ErrUnsupported;
     sp_SetBucketVersioning := fun _ _ => throw ErrUnsupported;
     sp_ListObjectVersions := fun _ _ => throw ErrUnsupported;
     sp_DeleteObjectVersion := fun _ _ _ => throw ErrUnsupported;
     sp_RestoreObjectVersion := fun _ _ _ => throw ErrUnsupported |}.
End Provider.

Definition newProvider {B} `{!S3Service B, !GarageServer B} : Factory B := fun cfg =>
  inr (provider (Admin.NewAdminClient (pc_AdminURL cfg) (pc_AdminToken cfg))
         (Client.New (pc_S3Endpoint cfg) (pc_S3PublicEndpoint cfg) (pc_S3Region cfg)
            (cred_AccessKeyID (pc_SystemKey cfg)) (cred_SecretAccessKey (pc_SystemKey cfg)))).
End Provider.
