(* ===== verification/GarageManager.v ===== *)
(** src/internal/garagemanager: layout.go (editing the cluster layout) and
    bootstrap.go (bringing a fresh single node to a usable state), over the Admin
    API client of Garage.v. *)
From S2P Require Import Prelude GoStrings Storage Garage.
#[local] Open Scope string_scope.

Module GarageManager.

Record NodeSpec := mkNodeSpec {
  spec_NodeID : str; spec_Zone : str; spec_CapacityBytes : Z; spec_Tags : list str }.

Record BootstrapParams := mkBootstrapParams {
  bp_Zone : str; bp_CapacityBytes : Z; bp_SystemKeyName : str; bp_ExistingSystemKeyID : str;
  bp_HealthTimeout : Z; bp_PollInterval : Z }.

Record BootstrapResult := mkBootstrapResult {
  br_NodeID : str; br_GarageVersion : str; br_LayoutVersion : Z; br_LayoutApplied : bool;
  br_SystemAccessKeyID : str; br_SystemSecretAccessKey : str; br_SystemKeyCreated : bool }.

Definition DefaultZone : str := "dc1".
Definition DefaultSystemKeyName : str := "buktio-system".
Definition defaultCapacityBytes : Z := Z.shiftl 100 30.

Definition setDefaults (p : BootstrapParams) : BootstrapParams :=
  mkBootstrapParams
    (if bp_Zone p =s "" then DefaultZone else bp_Zone p)
    (if (bp_CapacityBytes p <=? 0)%Z then defaultCapacityBytes else bp_CapacityBytes p)
    (if bp_SystemKeyName p =s "" then DefaultSystemKeyName else bp_SystemKeyName p)
    (bp_ExistingSystemKeyID p)
    (if (bp_HealthTimeout p <=? 0)%Z then 120000000000 else bp_HealthTimeout p)%Z
    (if (bp_PollInterval p <=? 0)%Z then 2000000000 else bp_PollInterval p)%Z.

Definition nodeHasStorageRole (layout : ClusterLayoutResponse) (nodeID : str) : bool :=
  existsb (fun r => (lro_ID r =s nodeID) && negb (bool_decide (lro_Capacity r = None)))
    (clr_Roles layout).

Section GarageManager.
Context {B : Type} `{!GarageServer B} (admin : AdminConn).

(** ** layout.go *)

(** The quoting of [%q] is left out of the error texts. *)
Definition ConnectNode (peer : str) : M B StErr unit :=
  guard! Contains peer "@"
    else OtherErr ("garagemanager: peer must be <node_id>@<host>:<port>, got " ++ peer) in
  let! results := mapErr (WrapErr "garagemanager: connect node")
                    (Admin.ConnectClusterNodes admin [peer]) in
  match List.find (fun r => negb (cnr_Success r)) results with
  | Some r => throw (OtherErr ("garagemanager: connect node " ++ peer ++ " failed: "
                                 ++ cnr_Error r))
  | None => ret tt
  end.

(** The version is re-read after staging; what is applied is its successor. *)
Definition apply_next (pfx : str) : M B StErr Z :=
  let! cur := mapErr (WrapErr (pfx ++ "re-read layout")) (Admin.GetClusterLayout admin) in
  let next := add64 (clr_Version cur) 1 in
  do! mapErr (WrapErr (pfx ++ "apply layout v" ++ Itoa next))
        (Admin.ApplyClusterLayout admin next) in
  ret next.

Definition StageAndApplyRoles (changes : list LayoutRoleChange) : M B StErr Z :=
  reject! bool_decide (changes = []) with OtherErr "garagemanager: no role changes to apply" in
  do! mapErr (WrapErr "garagemanager: stage layout")
        (Admin.UpdateClusterLayoutChanges admin changes) in
  apply_next "garagemanager: ".

Definition change_of (spec : NodeSpec) : LayoutRoleChange :=
  mkLayoutRoleChange (spec_NodeID spec) (spec_Zone spec)
    (if (0 <? spec_CapacityBytes spec)%Z then Some (spec_CapacityBytes spec) else None)
    (spec_Tags spec) false.

Definition AddOrUpdateNode (peer : str) (spec : NodeSpec) : M B StErr Z :=
  reject! (spec_NodeID spec =s "") with OtherErr "garagemanager: node id is required" in
  do! (if peer =s "" then ret tt else ConnectNode peer) in
  StageAndApplyRoles [change_of spec].

Definition RemoveNode (nodeID : str) : M B StErr Z :=
  reject! (nodeID =s "") with OtherErr "garagemanager: node id is required" in
  StageAndApplyRoles [mkLayoutRoleChange nodeID "" None [] true].

Definition PreviewStaged : M B StErr LayoutPreviewResponse :=
  Admin.PreviewClusterLayoutChanges admin.

Definition RevertStaged : M B StErr unit := Admin.RevertClusterLayout admin.

(** ** bootstrap.go *)

(** [ticks]: how often the ticker fires before the deadline, at most
    [HealthTimeout / PollInterval].  The duration is left out of the error text. *)
Fixpoint waitHealthy (ticks : nat) : M B StErr unit :=
  let! r := attempt (Admin.Health admin) in
  match r, ticks with
  | inr _, _ => ret tt
  | inl _, 0 => throw (WrapErr "bootstrap: storage engine not healthy"
                         (OtherErr "context deadline exceeded"))
  | inl _, S ticks' => waitHealthy ticks'
  end.

Definition version_guard (v : str) : M B StErr unit :=
  if v =s "" then ret tt
  else match ParseVersion v with
       | inl _ => ret tt
       | inr v => match CheckSupported v with Some e => throw e | None => ret tt end
       end.

(** [(version, applied)] *)
Definition ensure_role (p : BootstrapParams) (nodeID : str) : M B StErr (Z * bool) :=
  let! layout := mapErr (WrapErr "bootstrap: get cluster layout")
                   (Admin.GetClusterLayout admin) in
  if nodeHasStorageRole layout nodeID then ret (clr_Version layout, false)
  else
    do! mapErr (WrapErr "bootstrap: stage layout")
          (Admin.UpdateClusterLayout admin
             [mkLayoutRole nodeID (bp_Zone p) (Some (bp_CapacityBytes p)) []]) in
    let! next := apply_next "bootstrap: " in
    ret (next, true).

Definition Bootstrap (ticks : nat) (p0 : BootstrapParams) : M B StErr BootstrapResult :=
  let p := setDefaults p0 in
  do! waitHealthy ticks in
  let! status := mapErr (WrapErr "bootstrap: get cluster status")
                   (Admin.GetClusterStatus admin) in
  match PrimaryNode status with
  | None => throw (OtherErr "bootstrap: cluster status returned no usable node")
  | Some node =>
      reject! (nd_ID node =s "")
        with OtherErr "bootstrap: cluster status returned no usable node" in
      do! version_guard (nd_GarageVersion node) in
      let! va := ensure_role p (nd_ID node) in
      if negb (bp_ExistingSystemKeyID p =s "")
      then ret (mkBootstrapResult (nd_ID node) (nd_GarageVersion node) (fst va) (snd va)
                  (bp_ExistingSystemKeyID p) "" false)
      else
        let! key := mapErr (WrapErr "bootstrap: create system key")
                      (Admin.CreateKey admin (bp_SystemKeyName p) true) in
        ret (mkBootstrapResult (nd_ID node) (nd_GarageVersion node) (fst va) (snd va)
               (ckr_AccessKeyID key) (ckr_SecretAccessKey key) true)
  end.

End GarageManager.
End GarageManager.
