(* ===== verification/S3generic.v ===== *)
(** The generic S3 backends, src/internal/storage/s3generic/provider.go: the S3
    plane of [S3core] with operator-supplied credentials, no admin plane. *)

From S2P Require Import Prelude GoStrings Storage S3core Garage.

Definition KindAWSS3 : str := "aws_s3".

(** The kinds [init] registers. *)
Definition generic_kinds : list str :=
  ["aws_s3"; "r2"; "b2"; "seaweedfs"; "ceph_rgw"; "wasabi"; "storj"; "hetzner"; "gcs"; "minio"].

Module Generic.
Section Generic.
Context {B : Type} `{!S3Service B}.
(** [scan_fuel]: the number of pages a listing of a bucket can have. *)
Variables (scan_fuel : nat) (kind : str) (s3 : Client.t).

Definition capabilities : Capabilities :=
  {| cap_ObjectVersioning := kind =s KindAWSS3; cap_PerObjectPublicACL := kind =s KindAWSS3;
     cap_BucketCORS := true; cap_ServerSideEncDefault := false; cap_EventNotifications := false;
     cap_LifecycleExpiry := true; cap_ManagesKeys := false; cap_ManagesQuota := false;
     cap_HasClusterHealth := false; cap_PublicWebsite := false |}.

Definition plain_bucket (v : Visibility) (name : str) : SBucket :=
  mkSBucket name [name] [] v no_website (mkQuota None None).

Definition Ping : M B StErr unit := let! _ := Client.ListBuckets s3 in ret tt.

Definition CreateBucket (alias : str) : M B StErr SBucket :=
  do! Client.CreateBucket s3 alias in ret (plain_bucket VisibilityPrivate alias).

Definition ListBuckets : M B StErr (list SBucket) :=
  let! names := Client.ListBuckets s3 in ret (plain_bucket VisibilityUnset <$> names).

Definition GetBucket (bucketID : str) : M B StErr SBucket := ret (plain_bucket VisibilityPrivate bucketID).

Definition provider : StorageProvider B :=
  {| sp_Name := kind; sp_Capabilities := capabilities;
     sp_CreateBucket := CreateBucket; sp_DeleteBucket := Client.DeleteBucket s3;
     sp_ListBuckets := ListBuckets; sp_GetBucket := GetBucket;
     sp_SetVisibility := fun _ _ _ => throw ErrUnsupported;
     sp_GrantKey := fun _ _ _ => throw ErrUnsupported;
     sp_RevokeKey := fun _ _ => throw ErrUnsupported;
     sp_SetQuota := fun _ _ => throw ErrUnsupported;
     sp_CreateAccessKey := fun _ _ => throw ErrUnsupported;
     sp_ImportAccessKey := fun _ => throw ErrUnsupported;
     sp_DeleteAccessKey := fun _ => throw ErrUnsupported;
     sp_ListAccessKeys := throw ErrUnsupported;
     sp_GetBucketUsage := Client.UsageByScan scan_fuel s3;
     sp_GetClusterHealth := throw ErrUnsupported;
     sp_GetClusterStatus := throw ErrUnsupported;
     sp_Ping := Ping;
     sp_ListObjects := Client.ListObjects s3; sp_HeadObject := Client.HeadObject s3;
     sp_DeleteObject := Client.DeleteObject s3; sp_DeleteObjects := Client.DeleteObjects s3;
     sp_CopyObject := Client.CopyObject s3; sp_PutObject := Client.PutObject s3;
     sp_GetObject := Client.GetObject s3; sp_Presign := Client.PresignURL s3;
     sp_SetCORS := Client.SetCORS s3; sp_GetCORS := Client.GetCORS s3;
     sp_DeleteCORS := Client.DeleteCORS s3; sp_SetLifecycle := Client.SetLifecycle s3;
     sp_GetLifecycle := Client.GetLifecycle s3; sp_DeleteLifecycle := Client.DeleteLifecycle s3;
     sp_GetBucketVersioning := Client.GetBucketVersioning s3;
     sp_SetBucketVersioning := Client.SetBucketVersioning s3;
     sp_ListObjectVersions := Client.ListObjectVersions s3;
     sp_DeleteObjectVersion := Client.DeleteObjectVersion s3;
     sp_RestoreObjectVersion := Client.RestoreObjectVersion s3 |}.
End Generic.

Definition newProvider {B} `{!S3Service B} (scan_fuel : nat) : Factory B := fun cfg =>
  let public := if pc_S3PublicEndpoint cfg =s "" then pc_S3Endpoint cfg else pc_S3PublicEndpoint cfg in
  inr (provider scan_fuel (pc_Kind cfg)
         (Client.New (pc_S3Endpoint cfg) public (pc_S3Region cfg)
            (cred_AccessKeyID (pc_SystemKey cfg)) (cred_SecretAccessKey (pc_SystemKey cfg)))).
End Generic.

(** The registry after every [init] has run. *)
Definition the_registry {B} `{!S3Service B, !GarageServer B} (scan_fuel : nat) : gmap str (Factory B) :=
  foldr (fun k r => Register k (Generic.newProvider scan_fuel) r)
    (Register Kind Provider.newProvider ∅) generic_kinds.
