(* ===== verification/MemStore.v ===== *)
(** An in-memory storage backend: a [StorageProvider] that satisfies the object
    store laws of Storage.v.  It shows the laws can hold and runs the worked
    examples of the service files. *)
From stdpp Require Import pretty.
From S2P Require Import Prelude GoStrings Storage.
#[local] Open Scope string_scope.

(** Buckets by name, each a map from key to body. *)
Abbreviation MemB := (gmap str (gmap str str)).

Section Mem.
(** What the backend reports it can do, and whether creating a bucket that
    exists already is accepted (S3 for the owner) or a conflict (Garage). *)
Context (caps : Capabilities) (reuse : bool).

Definition objects_of (b : MemB) (bkt : str) : gmap str str := default ∅ (b !! bkt).

Definition noSuch (code : str) : StErr := APIError code "not found" code.
Definition unsupported {A} : M MemB StErr A := throw ErrUnsupported.

Definition with_bucket {A} (bkt : str) (k : gmap str str -> M MemB StErr A) : M MemB StErr A :=
  fun b => match b !! bkt with
           | Some m => k m b
           | None => (inl (noSuch "NoSuchBucket"), b)
           end.

Definition entry (kv : str * str) : Object :=
  mkObject (fst kv) (Z.of_nat (String.length (snd kv))) zero_time "" false.

Definition mem_list (bkt : str) (i : ListObjectsInput) : M MemB StErr ListObjectsResult :=
  with_bucket bkt (fun m b =>
    let all := where_ (fun kv => HasPrefix (fst kv) (loi_Prefix i)) (map_to_list m) in
    let off := Z.to_nat (default 0%Z (Atoi (loi_ContinuationToken i))) in
    let rest := drop off all in
    let max := if (loi_MaxKeys i <=? 0)%Z then 1000 else Z.to_nat (loi_MaxKeys i) in
    (inr (mkListObjectsResult (map entry (take max rest)) []
            (if (max <? length rest)%nat then Itoa (Z.of_nat (off + max)) else "")
            (max <? length rest)%nat), b)).

Definition mem_head (bkt key : str) : M MemB StErr Object :=
  with_bucket bkt (fun m b =>
    (match m !! key with Some body => inr (entry (key, body)) | None => inl (noSuch "NoSuchKey") end,
     b)).
Definition mem_copy (bkt src dst : str) : M MemB StErr unit :=
  with_bucket bkt (fun m b =>
    match m !! src with
    | Some body => (inr tt, <[bkt := <[dst := body]> m]> b)
    | None => (inl (noSuch "NoSuchKey"), b)
    end).
Definition mem_delete (bkt key : str) : M MemB StErr unit :=
  with_bucket bkt (fun m b => (inr tt, <[bkt := delete key m]> b)).
Definition mem_deletes (bkt : str) (ks : list str) : M MemB StErr unit :=
  with_bucket bkt (fun m b => (inr tt, <[bkt := foldr delete m ks]> b)).
Definition mem_put (_ : option str) (bkt key body : str) (_ : Z) (_ : str) : M MemB StErr unit :=
  with_bucket bkt (fun m b => (inr tt, <[bkt := <[key := body]> m]> b)).
Definition mem_get (_ : option str) (bkt key : str) : M MemB StErr (str * Object) :=
  with_bucket bkt (fun m b =>
    (match m !! key with
     | Some body => inr (body, entry (key, body))
     | None => inl (noSuch "NoSuchKey")
     end, b)).

Definition mem_bucket (id : str) : SBucket :=
  mkSBucket id [id] [] VisibilityPrivate (mkWebsiteConfig false "" "") (mkQuota None None).
Definition mem_create (alias : str) : M MemB StErr SBucket := fun b =>
  match b !! alias with
  | Some _ => if reuse then (inr (mem_bucket alias), b)
              else (inl (AdminError "POST" "/v2/CreateBucket" 409 "exists"), b)
  | None => (inr (mem_bucket alias), <[alias := ∅]> b)
  end.
Definition mem_remove (id : str) : M MemB StErr unit :=
  with_bucket id (fun m b =>
    if bool_decide (m = ∅) then (inr tt, delete id b)
    else (inl (APIError "BucketNotEmpty" "not empty" "BucketNotEmpty"), b)).

Definition mem_usage (bkt : str) : M MemB StErr BucketUsage :=
  with_bucket bkt (fun m b =>
    (inr (mkBucketUsage (Z.of_nat (size m))
            (foldr (fun kv n => Z.of_nat (String.length (snd kv)) + n)%Z 0%Z (map_to_list m))
            0 0 0 0 None None zero_time), b)).

Definition mem_provider : StorageProvider MemB := {|
  sp_Name := "mem";
  sp_Capabilities := caps;
  sp_CreateBucket := mem_create;
  sp_DeleteBucket := mem_remove;
  sp_ListBuckets := fun b => (inr (map mem_bucket (map fst (map_to_list b))), b);
  sp_GetBucket := fun id => with_bucket id (fun _ b => (inr (mem_bucket id), b));
  sp_SetVisibility := fun _ _ _ => ret tt;
  sp_GrantKey := fun _ _ _ => ret tt;
  sp_RevokeKey := fun _ _ => ret tt;
  sp_SetQuota := fun _ _ => ret tt;
  sp_CreateAccessKey := fun name c =>
    ret (mkCredential ("GK" ++ name) "secret-value" name c zero_time None);
  sp_ImportAccessKey := fun _ => ret tt;
  sp_DeleteAccessKey := fun _ => ret tt;
  sp_ListAccessKeys := ret [];
  sp_GetBucketUsage := mem_usage;
  sp_GetClusterHealth := unsupported;
  sp_GetClusterStatus := unsupported;
  sp_Ping := ret tt;
  sp_ListObjects := mem_list;
  sp_HeadObject := mem_head;
  sp_DeleteObject := mem_delete;
  sp_DeleteObjects := mem_deletes;
  sp_CopyObject := mem_copy;
  sp_PutObject := mem_put;
  sp_GetObject := mem_get;
  sp_Presign := fun i => ret ("https://mem/" ++ pi_BucketID i ++ "/" ++ pi_Key i);
  sp_SetCORS := fun _ _ => unsupported;
  sp_GetCORS := fun _ => unsupported;
  sp_DeleteCORS := fun _ => unsupported;
  sp_SetLifecycle := fun _ _ => unsupported;
  sp_GetLifecycle := fun _ => unsupported;
  sp_DeleteLifecycle := fun _ => unsupported;
  sp_GetBucketVersioning := fun _ => unsupported;
  sp_SetBucketVersioning := fun _ _ => unsupported;
  sp_ListObjectVersions := fun _ _ => unsupported;
  sp_DeleteObjectVersion := fun _ _ _ => unsupported;
  sp_RestoreObjectVersion := fun _ _ _ => unsupported |}.

(** ** The laws *)

Lemma with_bucket_inr {A} bkt (k : gmap str str -> M MemB StErr A) b a b' :
  with_bucket bkt k b = (inr a, b') -> exists m, b !! bkt = Some m /\ k m b = (inr a, b').
Proof. unfold with_bucket. destruct (b !! bkt) eqn:E; naive_solver. Qed.

Lemma objects_of_insert b bkt m : objects_of (<[bkt := m]> b) bkt = m.
Proof. unfold objects_of. by rewrite lookup_insert_eq. Qed.
Lemma objects_of_insert_ne b bkt m other :
  other <> bkt -> objects_of (<[bkt := m]> b) other = objects_of b other.
Proof. intros H. unfold objects_of. by rewrite lookup_insert_ne by done. Qed.
Lemma objects_of_some b bkt m : b !! bkt = Some m -> objects_of b bkt = m.
Proof. unfold objects_of. by intros ->. Qed.

(** A successful write of [f] to a bucket. *)
Lemma mem_write bkt (f : gmap str str -> gmap str str) b b' :
  with_bucket bkt (fun m b => (inr tt, <[bkt := f m]> b)) b = (inr tt, b') ->
  objects_of b' bkt = f (objects_of b bkt) /\
  forall other, other <> bkt -> objects_of b' other = objects_of b other.
Proof.
  intros (m & Hm & H)%with_bucket_inr. simplify_eq.
  rewrite objects_of_insert, (objects_of_some _ _ _ Hm).
  split; [done|]. intros. by apply objects_of_insert_ne.
Qed.

Lemma where_prefix_nil (l : list (str * str)) : where_ (fun kv => HasPrefix (fst kv) "") l = l.
Proof. induction l as [|x l IH]; [done|]. simpl. rewrite IH. by destruct (fst x). Qed.

Lemma mem_list_spec b b' bkt max r :
  mem_list bkt (mkListObjectsInput "" "" "" max) b = (inr r, b') ->
  b' = b /\ exists m n, b !! bkt = Some m /\ 1 <= n /\
    lor_Objects r = map entry (take n (map_to_list m)) /\
    lor_IsTruncated r = (n <? length (map_to_list m))%nat.
Proof.
  intros (m & Hm & H)%with_bucket_inr. cbn in H. simplify_eq/=. split; [done|].
  rewrite where_prefix_nil.
  exists m, (if (max <=? 0)%Z then 1000 else Z.to_nat max).
  repeat split; [done|]. destruct (max <=? 0)%Z eqn:E; bool_prop; lia.
Qed.

#[export] Instance mem_object_store : ObjectStore mem_provider objects_of.
Proof.
  constructor; cbn.
  - intros b b' bkt k o (m & Hm & H)%with_bucket_inr. rewrite (objects_of_some _ _ _ Hm).
    destruct (m !! k) as [body|] eqn:E; simplify_eq. split; [done|]. by exists body.
  - intros b b' bkt k r H. unfold mem_head, with_bucket in H.
    destruct (b !! bkt); by simplify_eq.
  - intros b b' bkt src dst _ (m & Hm & H)%with_bucket_inr. rewrite (objects_of_some _ _ _ Hm).
    destruct (m !! src) as [body|] eqn:E; simplify_eq. exists body. split; [done|].
    rewrite objects_of_insert. split; [done|]. intros. by apply objects_of_insert_ne.
  - intros b b' bkt k H. by apply (mem_write bkt (delete k)).
  - intros b b' bkt ks H. by apply (mem_write bkt (fun m => foldr delete m ks)).
  - intros b b' ? bkt k body ? ? H. by apply (mem_write bkt (fun m => <[k := body]> m)).
  - intros b b' bkt max r (-> & m & n & Hm & Hn & Hobj & Htr)%mem_list_spec.
    split; [done|]. rewrite (objects_of_some _ _ _ Hm), Hobj, Htr. split; [|split].
    + apply Forall_map, Forall_forall. intros [k body] Hin. split; [done|].
      apply elem_of_take in Hin as (i & Hi & _). apply list_elem_of_lookup_2 in Hi.
      apply elem_of_map_to_list in Hi. cbn. eauto.
    + intros Hle k [body Hk]. apply Nat.ltb_ge in Hle. rewrite take_ge by done.
      apply list_elem_of_fmap. exists (entry (k, body)). split; [done|].
      apply list_elem_of_fmap. exists (k, body). split; [done|].
      by apply elem_of_map_to_list.
    + intros Hnil. destruct (map_to_list m) as [|x l] eqn:E.
      * by apply map_to_list_empty_iff.
      * destruct n; [lia|]. done.
Qed.
End Mem.

(** The capability sets of the two kinds of backend. *)
Definition caps_garage : Capabilities :=
  mkCapabilities false false true false false true true true true true.
Definition caps_generic : Capabilities :=
  mkCapabilities true false true false false true false false false false.
