(* ===== verification/S3Laws.v ===== *)
(** The providers implement the object-store laws.  [S3Laws] states the
    documented behaviour of an S3 endpoint on the calls of the object plane; on
    an endpoint that behaves so, every provider the registry can build (Garage
    and the generic S3 kinds, src/internal/storage) satisfies the laws of
    [ObjectStore] the services are verified against.  An in-memory S3 endpoint
    shows the laws can hold, and shows on two concrete calls where the client of
    src/internal/storage/s3core/client.go falls short of them: copy sources that
    need URL encoding, and bulk deletions that fail for single keys. *)
From Stdlib Require Import Ascii.
From S2P Require Import Prelude GoStrings Storage S3core Garage S3generic MemStore.
#[local] Open Scope string_scope.

(** * URL encoding of a copy source *)

Definition hex_digit (n : nat) : ascii := ascii_of_nat (if (n <? 10)%nat then 48 + n else 55 + n).
Definition hex_value (c : ascii) : option nat :=
  if is_digit c then Some (nat_of_ascii c - 48)
  else if in_range 65 70 c then Some (nat_of_ascii c - 55)
  else if in_range 97 102 c then Some (nat_of_ascii c - 87) else None.

Fixpoint url_encode (s : str) : str :=
  match s with
  | "" => ""
  | String c r =>
      if path_char c then String c (url_encode r)
      else let n := nat_of_ascii c in
           String "%" (String (hex_digit (n / 16)) (String (hex_digit (n mod 16)) (url_encode r)))
  end.

Fixpoint url_decode (s : str) : str :=
  match s with
  | "" => ""
  | String c r =>
      let plain := String c (url_decode r) in
      if Ascii.eqb c "%" then
        match r with
        | String a (String b r') =>
            match hex_value a, hex_value b with
            | Some x, Some y => String (ascii_of_nat (16 * x + y)) (url_decode r')
            | _, _ => plain
            end
        | _ => plain
        end
      else plain
  end.

Lemma url_encode_plain s : str_all path_char s = true -> url_encode s = s.
Proof. induction s as [|c s IH]; cbn; [done|]. intros [-> H]%andb_true_iff. by rewrite IH. Qed.

Lemma hex_byte c :
  hex_value (hex_digit (nat_of_ascii c / 16)) = Some (nat_of_ascii c / 16) /\
  hex_value (hex_digit (nat_of_ascii c mod 16)) = Some (nat_of_ascii c mod 16) /\
  ascii_of_nat (16 * (nat_of_ascii c / 16) + nat_of_ascii c mod 16) = c.
Proof. destruct c as [[] [] [] [] [] [] [] []]; vm_compute; done. Qed.

Lemma url_decode_encode s : url_decode (url_encode s) = s.
Proof.
  induction s as [|c s IH]; [done|]. cbn [url_encode]. destruct (path_char c) eqn:Ec.
  - cbn [url_decode]. rewrite IH. destruct (Ascii.eqb c "%") eqn:E; [|done].
    apply Ascii.eqb_eq in E as ->. by vm_compute in Ec.
  - destruct (hex_byte c) as (H1 & H2 & H3). cbv zeta.
    cbn [url_decode]. rewrite H1, H2. cbn [Ascii.eqb Bool.eqb]. by rewrite H3, IH.
Qed.

(** An encoded source holds no question mark. *)
Lemma url_encode_no_query s : no_byte "?" (url_encode s) = true.
Proof.
  induction s as [|c s IH]; [done|]. cbn [url_encode]. destruct (path_char c) eqn:Ec.
  - unfold no_byte in *. cbn [str_all]. rewrite IH, andb_true_r. apply negb_true_iff.
    destruct (Ascii.eqb c "?") eqn:E; [|done]. apply Ascii.eqb_eq in E as ->. by vm_compute in Ec.
  - cbv zeta. unfold no_byte in *. cbn [str_all]. rewrite IH, andb_true_r. clear.
    destruct c as [[] [] [] [] [] [] [] []]; vm_compute; done.
Qed.

(** * The laws of an S3 endpoint *)

Section Laws.
Context {B : Type} `{!S3Service B}.

(** The behaviour of an endpoint, for the requests of one connection, on the
    contents [objs] of its buckets.  The source of a copy is the URL encoding of
    [bucket/key]; a bulk deletion answers with the keys it could not delete. *)
Class S3Laws (conn : S3Conn) (objs : B -> str -> gmap str str) : Prop := {
  s3l_head : forall b b' bkt k o, s3_HeadObject conn bkt k b = (inr o, b') ->
    b' = b /\ exists body, objs b bkt !! k = Some body /\
      ho_ContentLength o = Some (Z.of_nat (String.length body));
  s3l_head_reads : forall b b' bkt k r, s3_HeadObject conn bkt k b = (r, b') -> objs b' = objs b;
  s3l_copy : forall b b' bkt dst from key,
    no_byte "/" from = true ->
    s3_CopyObject conn bkt dst (url_encode (from ++ "/" ++ key)) b = (inr tt, b') ->
    exists body, objs b from !! key = Some body /\
      objs b' bkt = <[dst := body]> (objs b bkt) /\
      forall other, other <> bkt -> objs b' other = objs b other;
  s3l_delete : forall b b' bkt k, s3_DeleteObject conn bkt k None b = (inr tt, b') ->
    objs b' bkt = delete k (objs b bkt) /\
    forall other, other <> bkt -> objs b' other = objs b other;
  s3l_deletes : forall b b' bkt ks kept, s3_DeleteObjects conn bkt ks b = (inr kept, b') ->
    objs b' bkt = foldr delete (objs b bkt) (where_ (fun k => bool_decide (k ∉ kept)) ks) /\
    forall other, other <> bkt -> objs b' other = objs b other;
  s3l_put : forall b b' i, s3_PutObject conn i b = (inr tt, b') ->
    objs b' (put_Bucket i) = <[put_Key i := put_Body i]> (objs b (put_Bucket i)) /\
    forall other, other <> put_Bucket i -> objs b' other = objs b other;
  (** a page asked for with no or a positive limit *)
  s3l_list : forall b b' bkt max r, default 1%Z max <> 0%Z ->
    s3_ListObjectsV2 conn (mkListV2Input bkt None None None max) b = (inr r, b') ->
    b' = b /\
    Forall (fun o => exists k, s3o_Key o = Some k /\ is_Some (objs b bkt !! k)) (lv2o_Contents r) /\
    (ToBool (lv2o_IsTruncated r) = false ->
       forall k, is_Some (objs b bkt !! k) -> Some k ∈ (s3o_Key <$> lv2o_Contents r)) /\
    (lv2o_Contents r = [] -> objs b bkt = ∅)
}.

(** The endpoint never refuses single keys of a bulk deletion. *)
Definition deletes_all (conn : S3Conn) : Prop :=
  forall bkt ks b b' kept, s3_DeleteObjects conn bkt ks b = (inr kept, b') -> kept = [].

(** A provider whose object plane is that of [c]. *)
Definition object_plane (c : Client.t) (p : StorageProvider B) : Prop :=
  sp_ListObjects p = Client.ListObjects c /\ sp_HeadObject p = Client.HeadObject c /\
  sp_DeleteObject p = Client.DeleteObject c /\ sp_DeleteObjects p = Client.DeleteObjects c /\
  sp_CopyObject p = Client.CopyObject c /\ sp_PutObject p = Client.PutObject c.

Context (c : Client.t) (objs : B -> str -> gmap str str)
  `{!S3Laws (Client.c_conn c) objs} (Hall : deletes_all (Client.c_conn c)).

Lemma unreserved_no_slash s : str_all unreserved s = true -> no_byte "/" s = true.
Proof.
  apply str_all_impl. intros a Ha. apply negb_true_iff.
  destruct (Ascii.eqb a "/") eqn:E; [|done]. apply Ascii.eqb_eq in E as ->. by vm_compute in Ha.
Qed.

(** The source the client sends is the encoding of itself. *)
Lemma copy_plain_source bkt src :
  copy_plain bkt src = true ->
  no_byte "/" bkt = true /\ url_encode (bkt ++ "/" ++ src) = bkt ++ "/" ++ src.
Proof.
  unfold copy_plain. intros [Hb Hs]%andb_true_iff. split; [by apply unreserved_no_slash|].
  apply url_encode_plain. rewrite !str_all_app, Hs, andb_true_r.
  eapply str_all_impl; [|exact Hb].
  intros a Ha. unfold path_char. by rewrite Ha.
Qed.

Lemma client_copy b b' bkt src dst :
  copy_plain bkt src = true -> Client.CopyObject c bkt src dst b = (inr tt, b') ->
  exists body, objs b bkt !! src = Some body /\
    objs b' bkt = <[dst := body]> (objs b bkt) /\
    forall other, other <> bkt -> objs b' other = objs b other.
Proof.
  intros [Hb Henc]%copy_plain_source H. unfold Client.CopyObject in H.
  rewrite <- Henc in H. by eapply s3l_copy.
Qed.

Lemma client_deletes b b' bkt ks :
  Client.DeleteObjects c bkt ks b = (inr tt, b') ->
  objs b' bkt = foldr delete (objs b bkt) ks /\
  forall other, other <> bkt -> objs b' other = objs b other.
Proof.
  destruct ks as [|k ks]; intros H; cbn in H; [unfold ret in H; by simplify_eq|].
  apply bind_inr in H as (kept & b1 & H & H1). unfold ret in H1. injection H1 as <-.
  pose proof (Hall _ _ _ _ _ H) as ->. apply s3l_deletes in H.
  assert (forall l : list str, where_ (fun k => bool_decide (k ∉ [])) l = l) as Hw.
  { induction l as [|x l IH]; [done|]. cbn [List.filter].
    rewrite bool_decide_true by set_solver. by rewrite IH. }
  by rewrite Hw in H.
Qed.

Lemma client_list b b' bkt max r :
  Client.ListObjects c bkt (mkListObjectsInput "" "" "" max) b = (inr r, b') ->
  b' = b /\
  Forall (fun o => obj_IsPrefix o = false /\ is_Some (objs b bkt !! obj_Key o)) (lor_Objects r) /\
  (lor_IsTruncated r = false ->
     forall k, is_Some (objs b bkt !! k) -> k ∈ (obj_Key <$> lor_Objects r)) /\
  (lor_Objects r = [] -> objs b bkt = ∅).
Proof.
  unfold Client.ListObjects. intros H. apply bind_inr in H as (out & b1 & H & H1).
  unfold ret in H1. injection H1 as <- <-. cbn in H.
  apply s3l_list in H as (-> & Hin & Hcomplete & Hnil).
  2: { destruct (0 <? max)%Z eqn:E; cbn; bool_prop; lia. }
  split; [done|]. cbn. split; [|split].
  - apply Forall_fmap. eapply Forall_impl; [exact Hin|].
    intros o (k & Hk & Hobj). cbn. rewrite Hk. done.
  - intros Ht k Hk. specialize (Hcomplete Ht k Hk).
    apply list_elem_of_fmap in Hcomplete as (o & Ho & Hin').
    rewrite <- list_fmap_compose. apply list_elem_of_fmap. exists o. cbn. by rewrite <- Ho.
  - intros E%fmap_nil_inv. by apply Hnil.
Qed.

Lemma object_plane_store p : object_plane c p -> ObjectStore p objs.
Proof.
  intros (El & Eh & Ed & Eds & Ec & Ep). constructor.
  - intros b b' bkt k o. rewrite Eh. intros H. apply bind_inr in H as (out & b1 & H & H1).
    unfold ret in H1. injection H1 as <- <-. apply s3l_head in H as (-> & body & Hb & Hl).
    split; [done|]. exists body. split; [done|]. cbn. by rewrite Hl.
  - intros b b' bkt k r. rewrite Eh. unfold Client.HeadObject. rewrite bind_run.
    destruct (s3_HeadObject _ bkt k b) as [[e|out] b1] eqn:E; intros H;
      apply s3l_head_reads in E; unfold ret in H; by simplify_eq.
  - intros b b' bkt src dst. rewrite Ec. apply client_copy.
  - intros b b' bkt k. rewrite Ed. apply s3l_delete.
  - intros b b' bkt ks. rewrite Eds. apply client_deletes.
  - intros b b' ssec bkt k body size ct. rewrite Ep. intros H. by apply s3l_put in H.
  - intros b b' bkt max r. rewrite El. apply client_list.
Qed.
End Laws.

(** * Usage by listing *)

Section Scan.
Context {B : Type} `{!S3Service B} (c : Client.t) (bkt : str) (b : B) (m : gmap str str).

(** How an endpoint in state [b] pages through the objects [m] of the bucket:
    [rest t] are the objects from the continuation token [t] on, with their
    bodies.  A truncated page has entries and names the token of what is left, a
    page that is not truncated is the last. *)
Class Listing (rest : option str -> list (str * str)) : Prop := {
  li_start : rest None ≡ₚ map_to_list m;
  li_page : forall t r b',
    s3_ListObjectsV2 (Client.c_conn c) (mkListV2Input bkt None None t None) b = (inr r, b') ->
    b' = b /\ exists page left_, rest t = (page ++ left_)%list /\
      map (fun o => ToInt (s3o_Size o)) (lv2o_Contents r) =
        map (fun kv => Z.of_nat (String.length (snd kv))) page /\
      if ToBool (lv2o_IsTruncated r) then
        exists t', lv2o_NextContinuationToken r = Some t' /\ t' <> "" /\
          page <> [] /\ rest (Some t') = left_
      else left_ = []
}.

Definition sizes (l : list (str * str)) : list Z := map (fun kv => Z.of_nat (String.length (snd kv))) l.
(** A page request of the scan failed with [e], leaving [b']. *)
Definition page_failed (e : StErr) (b' : B) : Prop := exists t,
  s3_ListObjectsV2 (Client.c_conn c) (mkListV2Input bkt None None t None) b = (inl e, b').

Lemma scan_pages_spec rest fuel t x n r b' : Listing rest ->
  length (rest t) < fuel ->
  Client.scan_pages fuel c bkt t (wrap64 x) (wrap64 n) b = (r, b') ->
  (b' = b /\ r = inr (Some (wrap64 (x + sumZ (sizes (rest t))),
                           wrap64 (n + Z.of_nat (length (rest t)))))) \/
  (exists e, r = inl e /\ page_failed e b').
Proof.
  intros L. revert t x n. induction fuel as [|fuel IH]; intros t x n Hf H; [lia|].
  cbn [Client.scan_pages] in H. rewrite bind_run in H.
  destruct (s3_ListObjectsV2 _ _ b) as [[e|page] b1] eqn:E.
  { injection H as <- <-. right. exists e. split; [done|]. by exists t. }
  destruct (li_page _ _ _ E) as (-> & pg & left_ & Hrest & Hsz & Hnext).
  assert (length (lv2o_Contents page) = length pg) as Hlen.
  { apply (f_equal length) in Hsz. by rewrite !length_map in Hsz. }
  rewrite (foldl_add64 (fun o => ToInt (s3o_Size o))), Hsz in H.
  rewrite (foldl_add64 (fun _ => 1%Z)), sumZ_ones, Hlen in H.
  rewrite Hrest in *. unfold sizes. rewrite map_app, sumZ_app, length_app. rewrite length_app in Hf.
  destruct (ToBool (lv2o_IsTruncated page)).
  - destruct Hnext as (t' & Et & Hne & Hpg & <-). rewrite Et in H.
    assert ((t' =s "") = false) as Hq by (by apply eqb_false_str). rewrite Hq in H.
    apply IH in H; [|destruct pg; [done|]; cbn in Hf; lia].
    destruct H as [[-> ->]|H]; [left|by right]. split; [done|]. unfold sizes.
    rewrite <- !Z.add_assoc, Nat2Z.inj_add. done.
  - subst left_. unfold ret in H. injection H as <- <-. left. split; [done|].
    cbn. by rewrite Z.add_0_r, Nat.add_0_r.
Qed.

(** Usage by scan is exact.  On a backend without an admin plane, with a
    page budget above the number of objects, the usage of a bucket is its number
    of objects and the sum of their sizes (as int64), whatever the size of the
    pages, and nothing changes; it fails only if a page request fails, with that
    request's error. *)
Theorem scan_usage_exact rest scan_fuel kind r b'
    (L : Listing rest) (Hfuel : size m < scan_fuel)
    (Hrun : sp_GetBucketUsage (Generic.provider scan_fuel kind c) bkt b = (r, b')) :
  (exists u, r = inr u /\ b' = b /\
     bu_ObjectCount u = wrap64 (Z.of_nat (size m)) /\
     bu_BytesUsed u = wrap64 (sumZ (sizes (map_to_list m)))) \/
  (exists e, r = inl e /\ page_failed e b').
Proof.
  cbn in Hrun. unfold Client.UsageByScan in Hrun. rewrite bind_run in Hrun.
  destruct (Client.scan_pages _ _ _ _ _ _ b) as [rs b1] eqn:E.
  change (0%Z) with (wrap64 0) in E.
  assert (length (rest None) = size m) as Hlen.
  { rewrite <- length_map_to_list. by apply Permutation_length, li_start. }
  apply (scan_pages_spec _ _ _ _ _ _ _ L) in E as [[-> ->]|(e & -> & He)]; [| |lia].
  - unfold bind, get, ret in Hrun. injection Hrun as <- <-. left. eexists. split; [done|].
    split; [done|]. cbn [bu_ObjectCount bu_BytesUsed]. rewrite Hlen. split; [done|].
    rewrite Z.add_0_l. f_equal. apply sumZ_perm. unfold sizes. apply Permutation_map, li_start.
  - injection Hrun as <- <-. right. eauto.
Qed.
End Scan.

(** * Every provider of the registry *)

Section Registry.
Context {B : Type} `{!S3Service B, !GarageServer B} (scan_fuel : nat)
  (objs : B -> str -> gmap str str).

Definition registered_kinds : list str := Kind :: generic_kinds.

(** The connection a cluster's configuration describes. *)
Definition conn_of (cfg : ProviderConfig) : S3Conn :=
  mkS3Conn (pc_S3Endpoint cfg) (pc_S3Region cfg)
    (cred_AccessKeyID (pc_SystemKey cfg)) (cred_SecretAccessKey (pc_SystemKey cfg)).

Lemma registry_generic l (r : gmap str (Factory B)) k :
  foldr (fun k r => Register k (Generic.newProvider scan_fuel) r) r l !! k =
  if decide (k ∈ l) then Some (Generic.newProvider scan_fuel) else r !! k.
Proof.
  induction l as [|x l IH]; cbn [foldr].
  { by rewrite decide_False by set_solver. }
  unfold Register at 1. destruct (decide (k = x)) as [->|Hne].
  - rewrite lookup_insert_eq. by rewrite decide_True by set_solver.
  - rewrite lookup_insert_ne, IH by done.
    destruct (decide (k ∈ l)); [by rewrite decide_True by set_solver|].
    by rewrite decide_False by set_solver.
Qed.

(** C16: the storage providers refine the object-store specification.  On an
    endpoint with the documented S3 behaviour that refuses no single key of a
    bulk deletion, the provider the registry builds for a cluster's
    configuration satisfies every law of [ObjectStore] and carries the name of
    its kind; the registry refuses exactly the kinds nobody registered. *)
Theorem registry_refines_object_store cfg
    (Hlaws : S3Laws (conn_of cfg) objs) (Hall : deletes_all (conn_of cfg)) :
  match New (the_registry scan_fuel) cfg with
  | inr p => pc_Kind cfg ∈ registered_kinds /\ sp_Name p = pc_Kind cfg /\ ObjectStore p objs
  | inl _ => pc_Kind cfg ∉ registered_kinds
  end.
Proof.
  unfold New, the_registry. rewrite registry_generic. unfold registered_kinds.
  destruct (decide _) as [Hin|Hout]; cbn [Generic.newProvider].
  - split; [by right|]. split; [done|].
    set (c := Client.New _ _ _ _ _). by apply (object_plane_store c objs Hall).
  - unfold Register. destruct (decide (pc_Kind cfg = Kind)) as [E|E].
    + rewrite E, lookup_insert_eq. cbn [Provider.newProvider].
      split; [left|]. split; [done|].
      set (c := Client.New _ _ _ _ _). by apply (object_plane_store c objs Hall).
    + rewrite lookup_insert_ne, lookup_empty by done. intros [?|?]%elem_of_cons; done.
Qed.
End Registry.

(** * An endpoint in memory *)

Section Endpoint.
(** The keys a bulk deletion refuses, as an object lock would. *)
Context (locked : str -> bool).

(** A copy source: up to the question mark, URL-decoded, cut at the first slash. *)
Definition mem_copy_source (source : str) : option (str * str) :=
  let s := url_decode (default source ((fun i => str_take i source) <$> IndexByte source "?")) in
  (fun i => (str_take i s, str_drop (S i) s)) <$> IndexByte s "/".

Definition mem_s3_copy (bkt dst source : str) : M MemB StErr unit := fun b =>
  match mem_copy_source source with
  | None => (inl (APIError "InvalidArgument" "bad source" "InvalidArgument"), b)
  | Some (from, key) =>
      match objects_of b from !! key, b !! bkt with
      | Some body, Some m => (inr tt, <[bkt := <[dst := body]> m]> b)
      | _, _ => (inl (noSuch "NoSuchKey"), b)
      end
  end.

Definition mem_s3_deletes (bkt : str) (ks : list str) : M MemB StErr (list str) :=
  with_bucket bkt (fun m b =>
    (inr (where_ locked ks), <[bkt := foldr delete m (where_ (fun k => negb (locked k)) ks)]> b)).

Definition mem_s3_list (i : ListV2Input) : M MemB StErr ListV2Output :=
  let! r := mem_list (lv2_Bucket i)
    (mkListObjectsInput (ToString (lv2_Prefix i)) "" (ToString (lv2_ContinuationToken i))
       (ToInt (lv2_MaxKeys i))) in
  ret (mkListV2Output
    ((fun o => mkS3Obj (Some (obj_Key o)) (Some (obj_Size o)) None None) <$> lor_Objects r) []
    (optString (lor_NextContinuationToken r)) (Some (lor_IsTruncated r))).

Definition head_of (o : Object) : HeadOutput := mkHeadOutput (Some (obj_Size o)) None None.

Definition mem_endpoint : S3Service MemB := {|
  s3_CreateBucket _ name := let! _ := mem_create true name in ret tt;
  s3_DeleteBucket _ := mem_remove;
  s3_ListBuckets _ := fun b => (inr (map (fun p => Some (fst p)) (map_to_list b)), b);
  s3_ListObjectsV2 _ := mem_s3_list;
  s3_HeadObject _ bkt k := let! o := mem_head bkt k in ret (head_of o);
  s3_DeleteObject _ bkt k _ := mem_delete bkt k;
  s3_DeleteObjects _ := mem_s3_deletes;
  s3_CopyObject _ := mem_s3_copy;
  s3_PutObject _ i := mem_put None (put_Bucket i) (put_Key i) (put_Body i) 0 "";
  s3_GetObject _ bkt k _ := let! r := mem_get None bkt k in ret (fst r, head_of (snd r));
  s3_GetBucketVersioning _ _ := unsupported; s3_PutBucketVersioning _ _ _ := unsupported;
  s3_ListObjectVersions _ _ _ := unsupported;
  s3_PresignPut _ _ _ _ _ := unsupported; s3_PresignGet _ _ _ _ := unsupported;
  s3_PutBucketCors _ _ _ := unsupported; s3_GetBucketCors _ _ := unsupported;
  s3_DeleteBucketCors _ _ := unsupported; s3_PutBucketLifecycle _ _ _ := unsupported;
  s3_GetBucketLifecycle _ _ := unsupported; s3_DeleteBucketLifecycle _ _ := unsupported;
  s3_base64_decode _ := None; s3_md5_base64 x := x; s3_now _ := 0%Z |}.

Lemma mem_copy_source_encode from key :
  no_byte "/" from = true -> mem_copy_source (url_encode (from ++ "/" ++ key)) = Some (from, key).
Proof.
  intros H. unfold mem_copy_source, IndexByte.
  assert (forall c s, no_byte c s = true -> str_all (fun x => negb (Ascii.eqb c x)) s = true) as Hsym.
  { intros c s. apply str_all_impl. intros x. by rewrite Ascii.eqb_sym. }
  rewrite (IndexAny_none (url_encode _)) by (apply Hsym, url_encode_no_query).
  cbn [fmap option_fmap option_map default from_option id].
  rewrite url_decode_encode.
  change (from ++ "/" ++ key) with (from ++ String "/" key).
  rewrite IndexAny_stop by (done || by apply Hsym).
  cbn [fmap option_fmap option_map]. rewrite str_take_app.
  assert (str_drop (S (String.length from)) (from ++ String "/" key) = key) as ->; [|done].
  clear. induction from as [|c s IH]; [done|exact IH].
Qed.
End Endpoint.

#[export] Instance mem_endpoint_laws locked conn :
  S3Laws (S3Service0 := mem_endpoint locked) conn objects_of.
Proof.
  constructor; cbn.
  - intros b b' bkt k o H. apply bind_inr in H as (x & b1 & H & H1). unfold ret in H1.
    injection H1 as <- <-. apply with_bucket_inr in H as (m & Hm & H).
    rewrite (objects_of_some _ _ _ Hm). destruct (m !! k) as [body|]; [|done].
    injection H as <- <-. eauto.
  - intros b b' bkt k r. rewrite bind_run. unfold mem_head, with_bucket.
    destruct (b !! bkt) as [m|]; [destruct (m !! k)|]; cbn; unfold ret; intros H; by simplify_eq.
  - intros b b' bkt dst from key Hf. unfold mem_s3_copy. rewrite mem_copy_source_encode by done.
    destruct (objects_of b from !! key) as [body|] eqn:E; [|done].
    destruct (b !! bkt) as [m|] eqn:Em; [|done]. intros H. injection H as <-. exists body.
    split; [done|]. rewrite objects_of_insert, (objects_of_some _ _ _ Em). split; [done|].
    intros. by apply objects_of_insert_ne.
  - intros b b' bkt k H. by apply (mem_write bkt (delete k)).
  - intros b b' bkt ks kept (m & Hm & H)%with_bucket_inr. injection H as <- <-.
    rewrite objects_of_insert, (objects_of_some _ _ _ Hm). split.
    + f_equal. apply where_ext. intros k Hk. destruct (locked k) eqn:E; cbn.
      * rewrite bool_decide_false; [done|]. intros Hn. apply Hn, where_elem. done.
      * rewrite bool_decide_true; [done|]. rewrite where_elem. intros [_ ?]. congruence.
    + intros. by apply objects_of_insert_ne.
  - intros b b' i H. by apply (mem_write (put_Bucket i) (fun m => <[put_Key i := put_Body i]> m)).
  - intros b b' bkt max r _ H. apply bind_inr in H as (x & b1 & H & H1). unfold ret in H1.
    injection H1 as <- <-. cbn in H.
    apply (os_list (p := mem_provider caps_generic true)) in H as (-> & Hin & Hcomplete & Hnil).
    split; [done|]. cbn. split; [|split].
    + apply Forall_fmap. eapply Forall_impl; [exact Hin|]. intros o [_ Ho]. cbn. eauto.
    + intros Ht k Hk. specialize (Hcomplete Ht k Hk).
      apply list_elem_of_fmap in Hcomplete as (o & -> & Ho).
      rewrite <- list_fmap_compose. apply list_elem_of_fmap. by exists o.
    + intros E%fmap_nil_inv. by apply Hnil.
Qed.

(** ** Worked examples *)

#[local] Instance no_garage : GarageServer MemB := {|
  ga_http _ _ := throw "no answer"; ga_now _ := 0%Z; ga_escape x := x |}.

Definition ex_config (kind : str) : ProviderConfig :=
  mkProviderConfig kind "http://s3" "us-east-1" "" "" (mkCredential "AK" "SK" "" false 0 None) "".

Lemma registry_refines_object_store_witness :
  match New (@the_registry MemB (mem_endpoint (fun _ => false)) no_garage 10) (ex_config "r2") with
  | inr p => sp_Name p = "r2" /\ ObjectStore p objects_of
  | inl _ => False
  end.
Proof.
  pose proof (registry_refines_object_store (S3Service0 := mem_endpoint (fun _ => false)) 10
    objects_of (ex_config "r2") (mem_endpoint_laws (fun _ => false) _)) as H.
  assert (deletes_all (S3Service0 := mem_endpoint (fun _ => false)) (conn_of (ex_config "r2"))) as Ha.
  { intros bkt ks b b' kept (m & _ & E)%with_bucket_inr. injection E as <- _. by apply where_false. }
  specialize (H Ha).
  destruct (New _ _) as [e|p]; [|exact (proj2 H)].
  apply H. right. right. left.
Defined.

(** A bucket of fewer than 1000 objects is one page of the in-memory endpoint. *)
Lemma mem_listing locked c bkt b m :
  b !! bkt = Some m -> size m < 1000 ->
  Listing (S3Service0 := mem_endpoint locked) c bkt b m
    (fun t => drop (Z.to_nat (default 0%Z (Atoi (ToString t)))) (map_to_list m)).
Proof.
  intros Hm Hs. constructor; [done|]. intros t r b' H. cbn in H. unfold mem_s3_list in H.
  apply bind_inr in H as (x & b1 & H & H1). unfold ret in H1. injection H1 as <- <-.
  apply with_bucket_inr in H as (m' & Hm' & H). cbn [lv2_Bucket] in Hm'.
  rewrite Hm in Hm'. injection Hm' as <-.
  cbn [lv2_Bucket lv2_Prefix lv2_ContinuationToken lv2_MaxKeys loi_Prefix loi_ContinuationToken
       loi_MaxKeys ToString ToInt default from_option id] in H.
  rewrite where_prefix_nil in H. change (0 <=? 0)%Z with true in H. cbv iota zeta in H.
  injection H as <- <-. split; [done|].
  set (l := drop _ (map_to_list m)).
  assert (length l < 1000) as Hl by (unfold l; rewrite length_drop, length_map_to_list; lia).
  exists l, []. rewrite app_nil_r. split; [done|].
  cbn [lv2o_Contents lv2o_IsTruncated lor_Objects lor_IsTruncated ToBool default from_option id].
  assert ((1000 <? length l)%nat = false) as -> by (apply Nat.ltb_ge; lia).
  split; [|done]. rewrite take_ge by lia. unfold fmap, list_fmap.
  induction l as [|kv l IH]; [done|]. cbn. f_equal. apply IH. cbn in Hl. lia.
Qed.

Lemma scan_usage_exact_witness :
  let b : MemB := {[ "one" := {[ "a" := "1"; "b" := "22" ]} ]} in
  let c := Client.New "http://s3" "" "us-east-1" "AK" "SK" in
  let out := sp_GetBucketUsage (Generic.provider (S3Service0 := mem_endpoint (fun _ => false)) 3 "r2" c)
               "one" b in
  exists u, fst out = inr u /\ bu_ObjectCount u = 2%Z /\ bu_BytesUsed u = 3%Z.
Proof.
  intros b c out. set (m := {[ "a" := "1"; "b" := "22" ]} : gmap str str).
  destruct (scan_usage_exact (S3Service0 := mem_endpoint (fun _ => false)) c "one" b m _ 3 "r2"
    (fst out) (snd out) (mem_listing (fun _ => false) c "one" b m eq_refl ltac:(vm_compute; lia))
    ltac:(vm_compute; lia) (surjective_pairing _)) as [(u & Hu & _ & Hn & Hb)|(e & He & _)].
  - exists u. split; [exact Hu|]. split; [exact Hn|exact Hb].
  - exfalso. vm_compute in He. discriminate He.
Defined.

(** The source of a copy is sent as it is: copying the object [a%20b] copies the
    object [a b] instead. *)
Lemma copy_source_not_encoded :
  let b : MemB := {[ "one" := {[ "a b" := "other"; "a%20b" := "mine" ]} ]} in
  let c := Client.New "http://s3" "" "us-east-1" "AK" "SK" in
  let out := Client.CopyObject (S3Service0 := mem_endpoint (fun _ => false)) c "one" "a%20b" "copy" b in
  fst out = inr tt /\ objects_of (snd out) "one" !! "copy" = Some "other".
Proof. split; vm_compute; reflexivity. Qed.

(** A bulk deletion that could not delete a key reports success. *)
Lemma bulk_delete_drops_key_errors :
  let b : MemB := {[ "one" := {[ "a" := "1"; "held" := "2" ]} ]} in
  let c := Client.New "http://s3" "" "us-east-1" "AK" "SK" in
  let out := Client.DeleteObjects (S3Service0 := mem_endpoint (fun k => k =s "held")) c "one"
               ["a"; "held"] b in
  fst out = inr tt /\ objects_of (snd out) "one" = {[ "held" := "2" ]}.
Proof. split; vm_compute; reflexivity. Qed.
