(* ===== verification/Database.v ===== *)
(** The relational database behind [repository.Store].

    The tables of src/internal/db/migrations are lists of rows; a statement is
    one step on the database state.  A statement may fail for reasons the code
    cannot see (lost connection, cancelled context, invalid cast): [env_fault]
    chooses which ones, so a theorem over every environment covers every failure
    pattern.  A failed statement has no effect. *)
From S2P Require Import Prelude GoStrings.

(** * The environment of a run *)

Inductive Driver := Postgres | SQLite.

(** A value of a [map[string]any] the code builds for the audit log. *)
Inductive JSON := JStr (s : str) | JInt (z : Z) | JBool (b : bool) | JStrs (l : list str) | JNull.
Definition Meta : Type := list (str * JSON).

(** What the outside decides: the clock and [gen_random_uuid()] at the n-th
    statement, the statements that fail, random tokens, and the library
    functions the code only calls (argon2id, the jsonb normal form of a
    metadata map).  Times are in nanoseconds.

    [env_as_uuid] is the cast [$n::uuid] of an id a request spells: Postgres accepts
    several spellings of a uuid (upper case, braces, no hyphens) and compares the
    values, here their canonical spelling; SQLite drops the cast and compares the text.
    A text that is no uuid makes the statement fail, which is one of the failures
    [env_fault] may give it.  The ids the database generates are canonical.
    [env_inet] is the cast to [inet] in the same way; [None] is a text Postgres
    rejects. *)
Class Env := {
  env_driver : Driver;
  env_fault : nat -> option str;
  env_now : nat -> Z;
  env_uuid : nat -> str;
  env_token : nat -> option str;
  env_hash_password : nat -> str -> option str;
  env_verify_password : str -> str -> option bool;
  env_jsonb : Meta -> str;
  env_as_uuid : str -> str;
  env_as_uuid_gen : forall n, env_as_uuid (env_uuid n) = env_uuid n;
  env_inet : str -> option str
}.
(** An id in the spelling the database gives it. *)
Definition canonical {ENV : Env} (id : str) : Prop := env_as_uuid id = id.

(** repository.ErrNotFound, or an error of the driver with its text. *)
Inductive DBErr := ErrNotFound | DBFail (msg : str).

#[export] Instance DBErr_eq_dec : EqDecision DBErr.
Proof. solve_decision. Defined.

(** [fmt.Errorf("...: %w", err)]: the cause stays visible to [errors.Is]. *)
Definition wrapDB (pfx : str) (e : DBErr) : DBErr :=
  match e with ErrNotFound => ErrNotFound | DBFail m => DBFail (pfx ++ m)%string end.

Definition dbErrText (e : DBErr) : str :=
  match e with ErrNotFound => "repository: not found"%string | DBFail m => m end.

(** * Rows *)

(** A row of a table with a [deleted_at] column. *)
Record Live (A : Type) := mkLive { lv : A; lv_deleted : option Z }.
Arguments mkLive {A}. Arguments lv {A}. Arguments lv_deleted {A}.

(** repository.Cluster *)
Record Cluster := mkCluster {
  cl_ID : str; cl_Name : str; cl_Provider : str; cl_Mode : str; cl_S3Endpoint : str;
  cl_AdminEndpoint : str; cl_S3Region : str; cl_WebEndpoint : str; cl_GarageVersion : str;
  cl_RPCSecretEnc : str; cl_AdminTokenEnc : str; cl_MetricsTokenEnc : str;
  cl_SystemS3AccessKeyID : str; cl_SystemS3SecretEnc : str; cl_DBEngine : str;
  cl_ReplicationFactor : Z; cl_Status : str; cl_CreatedAt : Z }.

Definition set_cl_ID (v : str) (c : Cluster) : Cluster :=
  mkCluster
    v (cl_Name c) (cl_Provider c) (cl_Mode c) (cl_S3Endpoint c) (cl_AdminEndpoint c)
    (cl_S3Region c) (cl_WebEndpoint c) (cl_GarageVersion c) (cl_RPCSecretEnc c)
    (cl_AdminTokenEnc c) (cl_MetricsTokenEnc c) (cl_SystemS3AccessKeyID c)
    (cl_SystemS3SecretEnc c) (cl_DBEngine c) (cl_ReplicationFactor c) (cl_Status c)
    (cl_CreatedAt c).

Definition set_cl_CreatedAt (v : Z) (c : Cluster) : Cluster :=
  mkCluster
    (cl_ID c) (cl_Name c) (cl_Provider c) (cl_Mode c) (cl_S3Endpoint c) (cl_AdminEndpoint c)
    (cl_S3Region c) (cl_WebEndpoint c) (cl_GarageVersion c) (cl_RPCSecretEnc c)
    (cl_AdminTokenEnc c) (cl_MetricsTokenEnc c) (cl_SystemS3AccessKeyID c)
    (cl_SystemS3SecretEnc c) (cl_DBEngine c) (cl_ReplicationFactor c) (cl_Status c) v.

Definition set_cl_Provider (v : str) (c : Cluster) : Cluster :=
  mkCluster
    (cl_ID c) (cl_Name c) v (cl_Mode c) (cl_S3Endpoint c) (cl_AdminEndpoint c)
    (cl_S3Region c) (cl_WebEndpoint c) (cl_GarageVersion c) (cl_RPCSecretEnc c)
    (cl_AdminTokenEnc c) (cl_MetricsTokenEnc c) (cl_SystemS3AccessKeyID c)
    (cl_SystemS3SecretEnc c) (cl_DBEngine c) (cl_ReplicationFactor c) (cl_Status c)
    (cl_CreatedAt c).

Definition set_cl_Mode (v : str) (c : Cluster) : Cluster :=
  mkCluster
    (cl_ID c) (cl_Name c) (cl_Provider c) v (cl_S3Endpoint c) (cl_AdminEndpoint c)
    (cl_S3Region c) (cl_WebEndpoint c) (cl_GarageVersion c) (cl_RPCSecretEnc c)
    (cl_AdminTokenEnc c) (cl_MetricsTokenEnc c) (cl_SystemS3AccessKeyID c)
    (cl_SystemS3SecretEnc c) (cl_DBEngine c) (cl_ReplicationFactor c) (cl_Status c)
    (cl_CreatedAt c).

Definition set_cl_Status (v : str) (c : Cluster) : Cluster :=
  mkCluster
    (cl_ID c) (cl_Name c) (cl_Provider c) (cl_Mode c) (cl_S3Endpoint c) (cl_AdminEndpoint c)
    (cl_S3Region c) (cl_WebEndpoint c) (cl_GarageVersion c) (cl_RPCSecretEnc c)
    (cl_AdminTokenEnc c) (cl_MetricsTokenEnc c) (cl_SystemS3AccessKeyID c)
    (cl_SystemS3SecretEnc c) (cl_DBEngine c) (cl_ReplicationFactor c) v (cl_CreatedAt c).

(** repository.Bucket *)
Record Bucket := mkBucket {
  b_ID : str; b_OrgID : str; b_ProjectID : str; b_ClusterID : str; b_Name : str;
  b_GarageBucketID : str; b_GarageGlobalAlias : str; b_Visibility : str; b_WebsiteEnabled : bool;
  b_WebsiteIndexDoc : str; b_WebsiteErrorDoc : str; b_QuotaMaxSize : option Z;
  b_QuotaMaxObjects : option Z; b_CreatedAt : Z }.

Definition set_b_ID (v : str) (b : Bucket) : Bucket :=
  mkBucket
    v (b_OrgID b) (b_ProjectID b) (b_ClusterID b) (b_Name b) (b_GarageBucketID b)
    (b_GarageGlobalAlias b) (b_Visibility b) (b_WebsiteEnabled b) (b_WebsiteIndexDoc b)
    (b_WebsiteErrorDoc b) (b_QuotaMaxSize b) (b_QuotaMaxObjects b) (b_CreatedAt b).

Definition set_b_CreatedAt (v : Z) (b : Bucket) : Bucket :=
  mkBucket
    (b_ID b) (b_OrgID b) (b_ProjectID b) (b_ClusterID b) (b_Name b) (b_GarageBucketID b)
    (b_GarageGlobalAlias b) (b_Visibility b) (b_WebsiteEnabled b) (b_WebsiteIndexDoc b)
    (b_WebsiteErrorDoc b) (b_QuotaMaxSize b) (b_QuotaMaxObjects b) v.

Definition set_b_Visibility (v : str) (b : Bucket) : Bucket :=
  mkBucket
    (b_ID b) (b_OrgID b) (b_ProjectID b) (b_ClusterID b) (b_Name b) (b_GarageBucketID b)
    (b_GarageGlobalAlias b) v (b_WebsiteEnabled b) (b_WebsiteIndexDoc b)
    (b_WebsiteErrorDoc b) (b_QuotaMaxSize b) (b_QuotaMaxObjects b) (b_CreatedAt b).

Definition set_b_WebsiteEnabled (v : bool) (b : Bucket) : Bucket :=
  mkBucket
    (b_ID b) (b_OrgID b) (b_ProjectID b) (b_ClusterID b) (b_Name b) (b_GarageBucketID b)
    (b_GarageGlobalAlias b) (b_Visibility b) v (b_WebsiteIndexDoc b) (b_WebsiteErrorDoc b)
    (b_QuotaMaxSize b) (b_QuotaMaxObjects b) (b_CreatedAt b).

Definition set_b_WebsiteIndexDoc (v : str) (b : Bucket) : Bucket :=
  mkBucket
    (b_ID b) (b_OrgID b) (b_ProjectID b) (b_ClusterID b) (b_Name b) (b_GarageBucketID b)
    (b_GarageGlobalAlias b) (b_Visibility b) (b_WebsiteEnabled b) v (b_WebsiteErrorDoc b)
    (b_QuotaMaxSize b) (b_QuotaMaxObjects b) (b_CreatedAt b).

Definition set_b_WebsiteErrorDoc (v : str) (b : Bucket) : Bucket :=
  mkBucket
    (b_ID b) (b_OrgID b) (b_ProjectID b) (b_ClusterID b) (b_Name b) (b_GarageBucketID b)
    (b_GarageGlobalAlias b) (b_Visibility b) (b_WebsiteEnabled b) (b_WebsiteIndexDoc b) v
    (b_QuotaMaxSize b) (b_QuotaMaxObjects b) (b_CreatedAt b).

Definition set_b_ClusterID (v : str) (b : Bucket) : Bucket :=
  mkBucket
    (b_ID b) (b_OrgID b) (b_ProjectID b) v (b_Name b) (b_GarageBucketID b)
    (b_GarageGlobalAlias b) (b_Visibility b) (b_WebsiteEnabled b) (b_WebsiteIndexDoc b)
    (b_WebsiteErrorDoc b) (b_QuotaMaxSize b) (b_QuotaMaxObjects b) (b_CreatedAt b).

Definition set_b_QuotaMaxSize (v : option Z) (b : Bucket) : Bucket :=
  mkBucket
    (b_ID b) (b_OrgID b) (b_ProjectID b) (b_ClusterID b) (b_Name b) (b_GarageBucketID b)
    (b_GarageGlobalAlias b) (b_Visibility b) (b_WebsiteEnabled b) (b_WebsiteIndexDoc b)
    (b_WebsiteErrorDoc b) v (b_QuotaMaxObjects b) (b_CreatedAt b).

Definition set_b_QuotaMaxObjects (v : option Z) (b : Bucket) : Bucket :=
  mkBucket
    (b_ID b) (b_OrgID b) (b_ProjectID b) (b_ClusterID b) (b_Name b) (b_GarageBucketID b)
    (b_GarageGlobalAlias b) (b_Visibility b) (b_WebsiteEnabled b) (b_WebsiteIndexDoc b)
    (b_WebsiteErrorDoc b) (b_QuotaMaxSize b) v (b_CreatedAt b).

(** repository.AccessKey, with the [secret_hash] column *)
Record AccessKey := mkAccessKey {
  k_ID : str; k_OrgID : str; k_ProjectID : str; k_ClusterID : str; k_Name : str;
  k_GarageAccessKeyID : str; k_SecretLastFour : str; k_CanCreateBucket : bool; k_CreatedAt : Z;
  k_SecretHash : str }.

Definition set_k_ID (v : str) (k : AccessKey) : AccessKey :=
  mkAccessKey
    v (k_OrgID k) (k_ProjectID k) (k_ClusterID k) (k_Name k) (k_GarageAccessKeyID k)
    (k_SecretLastFour k) (k_CanCreateBucket k) (k_CreatedAt k) (k_SecretHash k).

Definition set_k_CreatedAt (v : Z) (k : AccessKey) : AccessKey :=
  mkAccessKey
    (k_ID k) (k_OrgID k) (k_ProjectID k) (k_ClusterID k) (k_Name k) (k_GarageAccessKeyID k)
    (k_SecretLastFour k) (k_CanCreateBucket k) v (k_SecretHash k).

Definition set_k_SecretHash (v : str) (k : AccessKey) : AccessKey :=
  mkAccessKey
    (k_ID k) (k_OrgID k) (k_ProjectID k) (k_ClusterID k) (k_Name k) (k_GarageAccessKeyID k)
    (k_SecretLastFour k) (k_CanCreateBucket k) (k_CreatedAt k) v.

(** repository.Grant *)
Record Grant := mkGrant {
  g_BucketID : str; g_AccessKeyID : str; g_BucketName : str; g_GarageBucket : str;
  g_CanRead : bool; g_CanWrite : bool; g_IsOwner : bool }.

(** a row of bucket_permissions *)
Record Permission := mkPermission {
  bp_ID : str; bp_BucketID : str; bp_AccessKeyID : str; bp_CanRead : bool; bp_CanWrite : bool;
  bp_IsOwner : bool }.

(** repository.User *)
Record User := mkUser {
  u_ID : str; u_Email : str; u_FullName : str; u_PasswordHash : str; u_IsPlatformAdmin : bool;
  u_EmailVerified : bool; u_CreatedAt : Z; u_LastLoginAt : option Z }.

Definition set_u_EmailVerified (v : bool) (u : User) : User :=
  mkUser
    (u_ID u) (u_Email u) (u_FullName u) (u_PasswordHash u) (u_IsPlatformAdmin u) v
    (u_CreatedAt u) (u_LastLoginAt u).

Definition set_u_LastLoginAt (v : option Z) (u : User) : User :=
  mkUser
    (u_ID u) (u_Email u) (u_FullName u) (u_PasswordHash u) (u_IsPlatformAdmin u)
    (u_EmailVerified u) (u_CreatedAt u) v.

(** repository.Session, with its revocation time *)
Record Session := mkSession {
  ses_ID : str; ses_UserID : str; ses_TokenHash : str; ses_ExpiresAt : Z;
  ses_RevokedAt : option Z }.

Definition set_ses_RevokedAt (v : option Z) (s : Session) : Session :=
  mkSession
    (ses_ID s) (ses_UserID s) (ses_TokenHash s) (ses_ExpiresAt s) v.

(** a row of organizations *)
Record Org := mkOrg {
  org_ID : str; org_Name : str; org_Slug : str; org_Status : str; org_SuspendedAt : option Z;
  org_SuspendReason : str; org_QuotaMaxBytes : option Z; org_CreatedAt : Z }.

Definition set_org_Status (v : str) (o : Org) : Org :=
  mkOrg
    (org_ID o) (org_Name o) (org_Slug o) v (org_SuspendedAt o) (org_SuspendReason o)
    (org_QuotaMaxBytes o) (org_CreatedAt o).

Definition set_org_SuspendedAt (v : option Z) (o : Org) : Org :=
  mkOrg
    (org_ID o) (org_Name o) (org_Slug o) (org_Status o) v (org_SuspendReason o)
    (org_QuotaMaxBytes o) (org_CreatedAt o).

Definition set_org_SuspendReason (v : str) (o : Org) : Org :=
  mkOrg
    (org_ID o) (org_Name o) (org_Slug o) (org_Status o) (org_SuspendedAt o) v
    (org_QuotaMaxBytes o) (org_CreatedAt o).

Definition set_org_QuotaMaxBytes (v : option Z) (o : Org) : Org :=
  mkOrg
    (org_ID o) (org_Name o) (org_Slug o) (org_Status o) (org_SuspendedAt o)
    (org_SuspendReason o) v (org_CreatedAt o).

(** a row of projects *)
Record Project := mkProject {
  prj_ID : str; prj_OrgID : str; prj_Name : str; prj_Slug : str; prj_CreatedAt : Z }.

(** a row of organization_members *)
Record Membership := mkMembership {
  om_OrgID : str; om_UserID : str; om_Role : str; om_CreatedAt : Z }.

Definition set_om_Role (v : str) (m : Membership) : Membership :=
  mkMembership
    (om_OrgID m) (om_UserID m) v (om_CreatedAt m).

(** repository.Invitation, with the columns the queries use *)
Record Invitation := mkInvitation {
  inv_ID : str; inv_OrgID : str; inv_Email : str; inv_Role : str; inv_TokenHash : str;
  inv_InvitedBy : str; inv_ExpiresAt : Z; inv_AcceptedAt : option Z; inv_CreatedAt : Z }.

Definition set_inv_AcceptedAt (v : option Z) (i : Invitation) : Invitation :=
  mkInvitation
    (inv_ID i) (inv_OrgID i) (inv_Email i) (inv_Role i) (inv_TokenHash i) (inv_InvitedBy i)
    (inv_ExpiresAt i) v (inv_CreatedAt i).

(** a row of org_storage_clusters *)
Record OrgClusterRow := mkOrgClusterRow {
  oc_OrgID : str; oc_ClusterID : str; oc_IsDefault : bool; oc_CreatedAt : Z }.

Definition set_oc_IsDefault (v : bool) (o : OrgClusterRow) : OrgClusterRow :=
  mkOrgClusterRow
    (oc_OrgID o) (oc_ClusterID o) v (oc_CreatedAt o).

(** repository.StorageNode *)
Record StorageNode := mkStorageNode {
  sn_ID : str; sn_ClusterID : str; sn_GarageNodeID : str; sn_Hostname : str; sn_Addr : str;
  sn_Zone : str; sn_CapacityBytes : option Z; sn_Role : str; sn_IsUp : bool; sn_Draining : bool;
  sn_DiskTotalBytes : option Z; sn_DiskAvailBytes : option Z }.

Definition set_sn_ID (v : str) (n : StorageNode) : StorageNode :=
  mkStorageNode
    v (sn_ClusterID n) (sn_GarageNodeID n) (sn_Hostname n) (sn_Addr n) (sn_Zone n)
    (sn_CapacityBytes n) (sn_Role n) (sn_IsUp n) (sn_Draining n) (sn_DiskTotalBytes n)
    (sn_DiskAvailBytes n).

Definition set_sn_ClusterID (v : str) (n : StorageNode) : StorageNode :=
  mkStorageNode
    (sn_ID n) v (sn_GarageNodeID n) (sn_Hostname n) (sn_Addr n) (sn_Zone n)
    (sn_CapacityBytes n) (sn_Role n) (sn_IsUp n) (sn_Draining n) (sn_DiskTotalBytes n)
    (sn_DiskAvailBytes n).

(** repository.UsageSnapshot *)
Record UsageSnapshot := mkUsageSnapshot {
  us_BucketID : str; us_ProjectID : str; us_OrgID : str; us_ClusterID : str; us_BytesUsed : Z;
  us_ObjectCount : Z; us_UnfinishedUploads : Z; us_UnfinishedMultipartUploads : Z;
  us_QuotaMaxSize : option Z; us_QuotaMaxObjects : option Z; us_CapturedAt : Z }.

Definition set_us_CapturedAt (v : Z) (u : UsageSnapshot) : UsageSnapshot :=
  mkUsageSnapshot
    (us_BucketID u) (us_ProjectID u) (us_OrgID u) (us_ClusterID u) (us_BytesUsed u)
    (us_ObjectCount u) (us_UnfinishedUploads u) (us_UnfinishedMultipartUploads u)
    (us_QuotaMaxSize u) (us_QuotaMaxObjects u) v.

(** repository.TrashItem, with the [restored_at] column *)
Record TrashItem := mkTrashItem {
  t_ID : str; t_BucketID : str; t_OrgID : str; t_OriginalKey : str; t_TrashKey : str;
  t_SizeBytes : Z; t_DeletedAt : Z; t_PurgeAfter : Z; t_RestoredAt : option Z }.

Definition set_t_ID (v : str) (t : TrashItem) : TrashItem :=
  mkTrashItem
    v (t_BucketID t) (t_OrgID t) (t_OriginalKey t) (t_TrashKey t) (t_SizeBytes t)
    (t_DeletedAt t) (t_PurgeAfter t) (t_RestoredAt t).

Definition set_t_BucketID (v : str) (t : TrashItem) : TrashItem :=
  mkTrashItem
    (t_ID t) v (t_OrgID t) (t_OriginalKey t) (t_TrashKey t) (t_SizeBytes t)
    (t_DeletedAt t) (t_PurgeAfter t) (t_RestoredAt t).

Definition set_t_DeletedAt (v : Z) (t : TrashItem) : TrashItem :=
  mkTrashItem
    (t_ID t) (t_BucketID t) (t_OrgID t) (t_OriginalKey t) (t_TrashKey t) (t_SizeBytes t) v
    (t_PurgeAfter t) (t_RestoredAt t).

Definition set_t_RestoredAt (v : option Z) (t : TrashItem) : TrashItem :=
  mkTrashItem
    (t_ID t) (t_BucketID t) (t_OrgID t) (t_OriginalKey t) (t_TrashKey t) (t_SizeBytes t)
    (t_DeletedAt t) (t_PurgeAfter t) v.

(** a row of audit_events *)
Record AuditRow := mkAuditRow {
  ar_ID : Z; ar_OrgID : str; ar_ActorUserID : str; ar_ActorType : str; ar_Action : str;
  ar_TargetType : str; ar_TargetID : str; ar_Metadata : str; ar_IP : str; ar_PrevHash : str;
  ar_RowHash : option str; ar_CreatedAt : Z }.

Definition set_ar_RowHash (v : option str) (a : AuditRow) : AuditRow :=
  mkAuditRow
    (ar_ID a) (ar_OrgID a) (ar_ActorUserID a) (ar_ActorType a) (ar_Action a)
    (ar_TargetType a) (ar_TargetID a) (ar_Metadata a) (ar_IP a) (ar_PrevHash a) v
    (ar_CreatedAt a).

Definition set_ar_TargetType (v : str) (a : AuditRow) : AuditRow :=
  mkAuditRow
    (ar_ID a) (ar_OrgID a) (ar_ActorUserID a) (ar_ActorType a) (ar_Action a) v
    (ar_TargetID a) (ar_Metadata a) (ar_IP a) (ar_PrevHash a) (ar_RowHash a)
    (ar_CreatedAt a).

Definition set_ar_TargetID (v : str) (a : AuditRow) : AuditRow :=
  mkAuditRow
    (ar_ID a) (ar_OrgID a) (ar_ActorUserID a) (ar_ActorType a) (ar_Action a)
    (ar_TargetType a) v (ar_Metadata a) (ar_IP a) (ar_PrevHash a) (ar_RowHash a)
    (ar_CreatedAt a).

Definition set_ar_Action (v : str) (a : AuditRow) : AuditRow :=
  mkAuditRow
    (ar_ID a) (ar_OrgID a) (ar_ActorUserID a) (ar_ActorType a) v (ar_TargetType a)
    (ar_TargetID a) (ar_Metadata a) (ar_IP a) (ar_PrevHash a) (ar_RowHash a)
    (ar_CreatedAt a).

(** repository.WebhookSub *)
Record WebhookSub := mkWebhookSub {
  wh_ID : str; wh_OrgID : str; wh_BucketID : str; wh_URL : str; wh_Secret : str; wh_Events : str;
  wh_Enabled : bool; wh_CreatedAt : Z }.

(** repository.MigrationJob *)
Record MigrationJob := mkMigrationJob {
  mj_ID : str; mj_OrgID : str; mj_SourceEndpoint : str; mj_SourceRegion : str;
  mj_SourceBucket : str; mj_SourceAccessKey : str; mj_SourceSecretEnc : str;
  mj_DestBucketID : str; mj_Status : str; mj_CopiedObjects : Z; mj_CopiedBytes : Z;
  mj_Cursor : str; mj_Error : str; mj_CreatedAt : Z }.

Definition set_mj_Status (v : str) (j : MigrationJob) : MigrationJob :=
  mkMigrationJob
    (mj_ID j) (mj_OrgID j) (mj_SourceEndpoint j) (mj_SourceRegion j) (mj_SourceBucket j)
    (mj_SourceAccessKey j) (mj_SourceSecretEnc j) (mj_DestBucketID j) v (mj_CopiedObjects j)
    (mj_CopiedBytes j) (mj_Cursor j) (mj_Error j) (mj_CreatedAt j).

Definition set_mj_Error (v : str) (j : MigrationJob) : MigrationJob :=
  mkMigrationJob
    (mj_ID j) (mj_OrgID j) (mj_SourceEndpoint j) (mj_SourceRegion j) (mj_SourceBucket j)
    (mj_SourceAccessKey j) (mj_SourceSecretEnc j) (mj_DestBucketID j) (mj_Status j)
    (mj_CopiedObjects j) (mj_CopiedBytes j) (mj_Cursor j) v (mj_CreatedAt j).

Definition set_mj_Cursor (v : str) (j : MigrationJob) : MigrationJob :=
  mkMigrationJob
    (mj_ID j) (mj_OrgID j) (mj_SourceEndpoint j) (mj_SourceRegion j) (mj_SourceBucket j)
    (mj_SourceAccessKey j) (mj_SourceSecretEnc j) (mj_DestBucketID j) (mj_Status j)
    (mj_CopiedObjects j) (mj_CopiedBytes j) v (mj_Error j) (mj_CreatedAt j).

Definition set_mj_CopiedObjects (v : Z) (j : MigrationJob) : MigrationJob :=
  mkMigrationJob
    (mj_ID j) (mj_OrgID j) (mj_SourceEndpoint j) (mj_SourceRegion j) (mj_SourceBucket j)
    (mj_SourceAccessKey j) (mj_SourceSecretEnc j) (mj_DestBucketID j) (mj_Status j) v
    (mj_CopiedBytes j) (mj_Cursor j) (mj_Error j) (mj_CreatedAt j).

Definition set_mj_CopiedBytes (v : Z) (j : MigrationJob) : MigrationJob :=
  mkMigrationJob
    (mj_ID j) (mj_OrgID j) (mj_SourceEndpoint j) (mj_SourceRegion j) (mj_SourceBucket j)
    (mj_SourceAccessKey j) (mj_SourceSecretEnc j) (mj_DestBucketID j) (mj_Status j)
    (mj_CopiedObjects j) v (mj_Cursor j) (mj_Error j) (mj_CreatedAt j).

(** repository.BillingCustomer *)
Record BillingCustomer := mkBillingCustomer {
  bc_OrgID : str; bc_StripeCustomerID : str; bc_StripeSubscriptionID : str;
  bc_StorageItemID : str; bc_EgressItemID : str; bc_RequestsItemID : str; bc_Status : str }.

Definition set_bc_Status (v : str) (c : BillingCustomer) : BillingCustomer :=
  mkBillingCustomer
    (bc_OrgID c) (bc_StripeCustomerID c) (bc_StripeSubscriptionID c) (bc_StorageItemID c)
    (bc_EgressItemID c) (bc_RequestsItemID c) v.

(** a row of billing_usage_reports *)
Record UsageReport := mkUsageReport {
  ur_OrgID : str; ur_Metric : str; ur_Quantity : Z; ur_PeriodStart : Z; ur_PeriodEnd : Z;
  ur_IdempotencyKey : str }.

(** a row of traffic_snapshots *)
Record TrafficRow := mkTrafficRow {
  tr_AccessKeyID : str; tr_Bucket : str; tr_Method : str; tr_Requests : Z; tr_BytesIn : Z;
  tr_BytesOut : Z; tr_CapturedAt : Z }.

(** a row of api_tokens (repository.APIToken, with the owner's org and the hash) *)
Record APIToken := mkAPIToken {
  at_ID : str; at_UserID : str; at_OrgID : str; at_Name : str; at_TokenHash : str;
  at_SecretLastFour : str; at_Scopes : list str; at_ExpiresAt : option Z;
  at_LastUsedAt : option Z; at_CreatedAt : Z }.

Definition set_at_LastUsedAt (v : option Z) (t : APIToken) : APIToken :=
  mkAPIToken
    (at_ID t) (at_UserID t) (at_OrgID t) (at_Name t) (at_TokenHash t) (at_SecretLastFour t)
    (at_Scopes t) (at_ExpiresAt t) v (at_CreatedAt t).

(** a row of policies (repository.Policy; the role bindings are a table of their own) *)
Record PolicyRow := mkPolicyRow {
  pol_ID : str; pol_OrgID : str; pol_Name : str; pol_Template : str; pol_Config : gmap str str;
  pol_Enabled : bool; pol_CreatedAt : Z }.

Definition set_pol_Enabled (v : bool) (p : PolicyRow) : PolicyRow :=
  mkPolicyRow
    (pol_ID p) (pol_OrgID p) (pol_Name p) (pol_Template p) (pol_Config p) v
    (pol_CreatedAt p).

(** a row of role_policy_bindings *)
Record PolicyBinding := mkPolicyBinding {
  pb_PolicyID : str; pb_Role : str }.

(** repository.ReplicationJob *)
Record ReplicationJob := mkReplicationJob {
  rj_ID : str; rj_OrgID : str; rj_SrcBucketID : str; rj_DstBucketID : str; rj_Status : str;
  rj_CopiedObjects : Z; rj_SkippedObjects : Z; rj_CopiedBytes : Z; rj_Cursor : str;
  rj_Error : str; rj_CreatedAt : Z; rj_UpdatedAt : Z }.

Definition set_rj_Status (v : str) (j : ReplicationJob) : ReplicationJob :=
  mkReplicationJob
    (rj_ID j) (rj_OrgID j) (rj_SrcBucketID j) (rj_DstBucketID j) v (rj_CopiedObjects j)
    (rj_SkippedObjects j) (rj_CopiedBytes j) (rj_Cursor j) (rj_Error j) (rj_CreatedAt j)
    (rj_UpdatedAt j).

Definition set_rj_CopiedObjects (v : Z) (j : ReplicationJob) : ReplicationJob :=
  mkReplicationJob
    (rj_ID j) (rj_OrgID j) (rj_SrcBucketID j) (rj_DstBucketID j) (rj_Status j) v
    (rj_SkippedObjects j) (rj_CopiedBytes j) (rj_Cursor j) (rj_Error j) (rj_CreatedAt j)
    (rj_UpdatedAt j).

Definition set_rj_SkippedObjects (v : Z) (j : ReplicationJob) : ReplicationJob :=
  mkReplicationJob
    (rj_ID j) (rj_OrgID j) (rj_SrcBucketID j) (rj_DstBucketID j) (rj_Status j)
    (rj_CopiedObjects j) v (rj_CopiedBytes j) (rj_Cursor j) (rj_Error j) (rj_CreatedAt j)
    (rj_UpdatedAt j).

Definition set_rj_CopiedBytes (v : Z) (j : ReplicationJob) : ReplicationJob :=
  mkReplicationJob
    (rj_ID j) (rj_OrgID j) (rj_SrcBucketID j) (rj_DstBucketID j) (rj_Status j)
    (rj_CopiedObjects j) (rj_SkippedObjects j) v (rj_Cursor j) (rj_Error j) (rj_CreatedAt j)
    (rj_UpdatedAt j).

Definition set_rj_Cursor (v : str) (j : ReplicationJob) : ReplicationJob :=
  mkReplicationJob
    (rj_ID j) (rj_OrgID j) (rj_SrcBucketID j) (rj_DstBucketID j) (rj_Status j)
    (rj_CopiedObjects j) (rj_SkippedObjects j) (rj_CopiedBytes j) v (rj_Error j)
    (rj_CreatedAt j) (rj_UpdatedAt j).

Definition set_rj_Error (v : str) (j : ReplicationJob) : ReplicationJob :=
  mkReplicationJob
    (rj_ID j) (rj_OrgID j) (rj_SrcBucketID j) (rj_DstBucketID j) (rj_Status j)
    (rj_CopiedObjects j) (rj_SkippedObjects j) (rj_CopiedBytes j) (rj_Cursor j) v
    (rj_CreatedAt j) (rj_UpdatedAt j).

Definition set_rj_UpdatedAt (v : Z) (j : ReplicationJob) : ReplicationJob :=
  mkReplicationJob
    (rj_ID j) (rj_OrgID j) (rj_SrcBucketID j) (rj_DstBucketID j) (rj_Status j)
    (rj_CopiedObjects j) (rj_SkippedObjects j) (rj_CopiedBytes j) (rj_Cursor j) (rj_Error j)
    (rj_CreatedAt j) v.

(** repository.BackupSchedule, with its creation time *)
Record BackupSchedule := mkBackupSchedule {
  bs_ID : str; bs_OrgID : str; bs_Enabled : bool; bs_IntervalMinutes : Z; bs_RetentionCount : Z;
  bs_OffsiteEnabled : bool; bs_NextRunAt : Z; bs_LastRunAt : option Z; bs_CreatedAt : Z }.

Definition set_bs_Enabled (v : bool) (b : BackupSchedule) : BackupSchedule :=
  mkBackupSchedule
    (bs_ID b) (bs_OrgID b) v (bs_IntervalMinutes b) (bs_RetentionCount b)
    (bs_OffsiteEnabled b) (bs_NextRunAt b) (bs_LastRunAt b) (bs_CreatedAt b).

Definition set_bs_IntervalMinutes (v : Z) (b : BackupSchedule) : BackupSchedule :=
  mkBackupSchedule
    (bs_ID b) (bs_OrgID b) (bs_Enabled b) v (bs_RetentionCount b) (bs_OffsiteEnabled b)
    (bs_NextRunAt b) (bs_LastRunAt b) (bs_CreatedAt b).

Definition set_bs_RetentionCount (v : Z) (b : BackupSchedule) : BackupSchedule :=
  mkBackupSchedule
    (bs_ID b) (bs_OrgID b) (bs_Enabled b) (bs_IntervalMinutes b) v (bs_OffsiteEnabled b)
    (bs_NextRunAt b) (bs_LastRunAt b) (bs_CreatedAt b).

Definition set_bs_OffsiteEnabled (v : bool) (b : BackupSchedule) : BackupSchedule :=
  mkBackupSchedule
    (bs_ID b) (bs_OrgID b) (bs_Enabled b) (bs_IntervalMinutes b) (bs_RetentionCount b) v
    (bs_NextRunAt b) (bs_LastRunAt b) (bs_CreatedAt b).

Definition set_bs_NextRunAt (v : Z) (b : BackupSchedule) : BackupSchedule :=
  mkBackupSchedule
    (bs_ID b) (bs_OrgID b) (bs_Enabled b) (bs_IntervalMinutes b) (bs_RetentionCount b)
    (bs_OffsiteEnabled b) v (bs_LastRunAt b) (bs_CreatedAt b).

Definition set_bs_LastRunAt (v : option Z) (b : BackupSchedule) : BackupSchedule :=
  mkBackupSchedule
    (bs_ID b) (bs_OrgID b) (bs_Enabled b) (bs_IntervalMinutes b) (bs_RetentionCount b)
    (bs_OffsiteEnabled b) (bs_NextRunAt b) v (bs_CreatedAt b).

(** repository.BackupJob, with the schedule and the off-box location *)
Record BackupJob := mkBackupJob {
  bj_ID : str; bj_OrgID : str; bj_Kind : str; bj_Status : str; bj_Path : str; bj_SizeBytes : Z;
  bj_Error : str; bj_StartedAt : option Z; bj_FinishedAt : option Z; bj_CreatedAt : Z;
  bj_ScheduleID : str; bj_OffsiteURI : str }.

Definition set_bj_Status (v : str) (b : BackupJob) : BackupJob :=
  mkBackupJob
    (bj_ID b) (bj_OrgID b) (bj_Kind b) v (bj_Path b) (bj_SizeBytes b) (bj_Error b)
    (bj_StartedAt b) (bj_FinishedAt b) (bj_CreatedAt b) (bj_ScheduleID b) (bj_OffsiteURI b).

Definition set_bj_Path (v : str) (b : BackupJob) : BackupJob :=
  mkBackupJob
    (bj_ID b) (bj_OrgID b) (bj_Kind b) (bj_Status b) v (bj_SizeBytes b) (bj_Error b)
    (bj_StartedAt b) (bj_FinishedAt b) (bj_CreatedAt b) (bj_ScheduleID b) (bj_OffsiteURI b).

Definition set_bj_SizeBytes (v : Z) (b : BackupJob) : BackupJob :=
  mkBackupJob
    (bj_ID b) (bj_OrgID b) (bj_Kind b) (bj_Status b) (bj_Path b) v (bj_Error b)
    (bj_StartedAt b) (bj_FinishedAt b) (bj_CreatedAt b) (bj_ScheduleID b) (bj_OffsiteURI b).

Definition set_bj_Error (v : str) (b : BackupJob) : BackupJob :=
  mkBackupJob
    (bj_ID b) (bj_OrgID b) (bj_Kind b) (bj_Status b) (bj_Path b) (bj_SizeBytes b) v
    (bj_StartedAt b) (bj_FinishedAt b) (bj_CreatedAt b) (bj_ScheduleID b) (bj_OffsiteURI b).

Definition set_bj_StartedAt (v : option Z) (b : BackupJob) : BackupJob :=
  mkBackupJob
    (bj_ID b) (bj_OrgID b) (bj_Kind b) (bj_Status b) (bj_Path b) (bj_SizeBytes b)
    (bj_Error b) v (bj_FinishedAt b) (bj_CreatedAt b) (bj_ScheduleID b) (bj_OffsiteURI b).

Definition set_bj_FinishedAt (v : option Z) (b : BackupJob) : BackupJob :=
  mkBackupJob
    (bj_ID b) (bj_OrgID b) (bj_Kind b) (bj_Status b) (bj_Path b) (bj_SizeBytes b)
    (bj_Error b) (bj_StartedAt b) v (bj_CreatedAt b) (bj_ScheduleID b) (bj_OffsiteURI b).

Definition set_bj_OffsiteURI (v : str) (b : BackupJob) : BackupJob :=
  mkBackupJob
    (bj_ID b) (bj_OrgID b) (bj_Kind b) (bj_Status b) (bj_Path b) (bj_SizeBytes b)
    (bj_Error b) (bj_StartedAt b) (bj_FinishedAt b) (bj_CreatedAt b) (bj_ScheduleID b) v.

(** a row of email_verifications *)
Record EmailVerification := mkEmailVerification {
  ev_ID : str; ev_UserID : str; ev_TokenHash : str; ev_ExpiresAt : Z; ev_ConsumedAt : option Z }.

Definition set_ev_ConsumedAt (v : option Z) (v0 : EmailVerification) : EmailVerification :=
  mkEmailVerification
    (ev_ID v0) (ev_UserID v0) (ev_TokenHash v0) (ev_ExpiresAt v0) v.

(** a row of signup_attempts; an empty address stands for NULL *)
Record SignupAttempt := mkSignupAttempt {
  sa_IP : str; sa_Email : str; sa_CreatedAt : Z }.

(** a row of user_identities *)
Record UserIdentity := mkUserIdentity {
  ui_UserID : str; ui_Provider : str; ui_Subject : str }.

(** repository.SCIMToken, with its org and hash *)
Record SCIMToken := mkSCIMToken {
  sct_ID : str; sct_OrgID : str; sct_Name : str; sct_TokenHash : str; sct_LastFour : str;
  sct_CreatedAt : Z; sct_LastUsedAt : option Z }.

Definition set_sct_LastUsedAt (v : option Z) (t : SCIMToken) : SCIMToken :=
  mkSCIMToken
    (sct_ID t) (sct_OrgID t) (sct_Name t) (sct_TokenHash t) (sct_LastFour t)
    (sct_CreatedAt t) v.

(** repository.Branding; an empty field stands for NULL *)
Record Branding := mkBranding {
  br_OrgID : str; br_DisplayName : str; br_LogoURL : str; br_PrimaryColor : str;
  br_EmailFrom : str; br_CustomDomain : str }.

(** The tables, and the number of statements run so far. *)
Record DB := mkDB {
  db_tick : nat; orgs : list (Live Org); projects : list (Live Project); users : list (Live User);
  members : list Membership; invitations : list Invitation; sessions : list Session;
  clusters : list (Live Cluster); org_clusters : list OrgClusterRow; nodes : list StorageNode;
  buckets : list (Live Bucket); keys : list (Live AccessKey); perms : list (Live Permission);
  usage : list UsageSnapshot; trash : list TrashItem; audit_events : list AuditRow;
  webhooks : list WebhookSub; migrations : list MigrationJob; billing : list BillingCustomer;
  reports : list UsageReport; traffic : list TrafficRow; api_tokens : list (Live APIToken);
  policies : list PolicyRow; policy_bindings : list PolicyBinding;
  replications : list ReplicationJob; backup_schedules : list BackupSchedule;
  backup_jobs : list BackupJob; email_verifications : list EmailVerification;
  signup_attempts : list SignupAttempt; user_identities : list UserIdentity;
  scim_tokens : list (Live SCIMToken); org_branding : list Branding; install_step : str }.

Definition set_db_tick (v : nat) (d : DB) : DB :=
  mkDB
    v (orgs d) (projects d) (users d) (members d) (invitations d) (sessions d) (clusters d)
    (org_clusters d) (nodes d) (buckets d) (keys d) (perms d) (usage d) (trash d)
    (audit_events d) (webhooks d) (migrations d) (billing d) (reports d) (traffic d)
    (api_tokens d) (policies d) (policy_bindings d) (replications d) (backup_schedules d)
    (backup_jobs d) (email_verifications d) (signup_attempts d) (user_identities d)
    (scim_tokens d) (org_branding d) (install_step d).

Definition set_orgs (v : list (Live Org)) (d : DB) : DB :=
  mkDB
    (db_tick d) v (projects d) (users d) (members d) (invitations d) (sessions d)
    (clusters d) (org_clusters d) (nodes d) (buckets d) (keys d) (perms d) (usage d)
    (trash d) (audit_events d) (webhooks d) (migrations d) (billing d) (reports d)
    (traffic d) (api_tokens d) (policies d) (policy_bindings d) (replications d)
    (backup_schedules d) (backup_jobs d) (email_verifications d) (signup_attempts d)
    (user_identities d) (scim_tokens d) (org_branding d) (install_step d).

Definition set_projects (v : list (Live Project)) (d : DB) : DB :=
  mkDB
    (db_tick d) (orgs d) v (users d) (members d) (invitations d) (sessions d) (clusters d)
    (org_clusters d) (nodes d) (buckets d) (keys d) (perms d) (usage d) (trash d)
    (audit_events d) (webhooks d) (migrations d) (billing d) (reports d) (traffic d)
    (api_tokens d) (policies d) (policy_bindings d) (replications d) (backup_schedules d)
    (backup_jobs d) (email_verifications d) (signup_attempts d) (user_identities d)
    (scim_tokens d) (org_branding d) (install_step d).

Definition set_users (v : list (Live User)) (d : DB) : DB :=
  mkDB
    (db_tick d) (orgs d) (projects d) v (members d) (invitations d) (sessions d)
    (clusters d) (org_clusters d) (nodes d) (buckets d) (keys d) (perms d) (usage d)
    (trash d) (audit_events d) (webhooks d) (migrations d) (billing d) (reports d)
    (traffic d) (api_tokens d) (policies d) (policy_bindings d) (replications d)
    (backup_schedules d) (backup_jobs d) (email_verifications d) (signup_attempts d)
    (user_identities d) (scim_tokens d) (org_branding d) (install_step d).

Definition set_members (v : list Membership) (d : DB) : DB :=
  mkDB
    (db_tick d) (orgs d) (projects d) (users d) v (invitations d) (sessions d) (clusters d)
    (org_clusters d) (nodes d) (buckets d) (keys d) (perms d) (usage d) (trash d)
    (audit_events d) (webhooks d) (migrations d) (billing d) (reports d) (traffic d)
    (api_tokens d) (policies d) (policy_bindings d) (replications d) (backup_schedules d)
    (backup_jobs d) (email_verifications d) (signup_attempts d) (user_identities d)
    (scim_tokens d) (org_branding d) (install_step d).

Definition set_invitations (v : list Invitation) (d : DB) : DB :=
  mkDB
    (db_tick d) (orgs d) (projects d) (users d) (members d) v (sessions d) (clusters d)
    (org_clusters d) (nodes d) (buckets d) (keys d) (perms d) (usage d) (trash d)
    (audit_events d) (webhooks d) (migrations d) (billing d) (reports d) (traffic d)
    (api_tokens d) (policies d) (policy_bindings d) (replications d) (backup_schedules d)
    (backup_jobs d) (email_verifications d) (signup_attempts d) (user_identities d)
    (scim_tokens d) (org_branding d) (install_step d).

Definition set_sessions (v : list Session) (d : DB) : DB :=
  mkDB
    (db_tick d) (orgs d) (projects d) (users d) (members d) (invitations d) v (clusters d)
    (org_clusters d) (nodes d) (buckets d) (keys d) (perms d) (usage d) (trash d)
    (audit_events d) (webhooks d) (migrations d) (billing d) (reports d) (traffic d)
    (api_tokens d) (policies d) (policy_bindings d) (replications d) (backup_schedules d)
    (backup_jobs d) (email_verifications d) (signup_attempts d) (user_identities d)
    (scim_tokens d) (org_branding d) (install_step d).

Definition set_clusters (v : list (Live Cluster)) (d : DB) : DB :=
  mkDB
    (db_tick d) (orgs d) (projects d) (users d) (members d) (invitations d) (sessions d) v
    (org_clusters d) (nodes d) (buckets d) (keys d) (perms d) (usage d) (trash d)
    (audit_events d) (webhooks d) (migrations d) (billing d) (reports d) (traffic d)
    (api_tokens d) (policies d) (policy_bindings d) (replications d) (backup_schedules d)
    (backup_jobs d) (email_verifications d) (signup_attempts d) (user_identities d)
    (scim_tokens d) (org_branding d) (install_step d).

Definition set_org_clusters (v : list OrgClusterRow) (d : DB) : DB :=
  mkDB
    (db_tick d) (orgs d) (projects d) (users d) (members d) (invitations d) (sessions d)
    (clusters d) v (nodes d) (buckets d) (keys d) (perms d) (usage d) (trash d)
    (audit_events d) (webhooks d) (migrations d) (billing d) (reports d) (traffic d)
    (api_tokens d) (policies d) (policy_bindings d) (replications d) (backup_schedules d)
    (backup_jobs d) (email_verifications d) (signup_attempts d) (user_identities d)
    (scim_tokens d) (org_branding d) (install_step d).

Definition set_nodes (v : list StorageNode) (d : DB) : DB :=
  mkDB
    (db_tick d) (orgs d) (projects d) (users d) (members d) (invitations d) (sessions d)
    (clusters d) (org_clusters d) v (buckets d) (keys d) (perms d) (usage d) (trash d)
    (audit_events d) (webhooks d) (migrations d) (billing d) (reports d) (traffic d)
    (api_tokens d) (policies d) (policy_bindings d) (replications d) (backup_schedules d)
    (backup_jobs d) (email_verifications d) (signup_attempts d) (user_identities d)
    (scim_tokens d) (org_branding d) (install_step d).

Definition set_buckets (v : list (Live Bucket)) (d : DB) : DB :=
  mkDB
    (db_tick d) (orgs d) (projects d) (users d) (members d) (invitations d) (sessions d)
    (clusters d) (org_clusters d) (nodes d) v (keys d) (perms d) (usage d) (trash d)
    (audit_events d) (webhooks d) (migrations d) (billing d) (reports d) (traffic d)
    (api_tokens d) (policies d) (policy_bindings d) (replications d) (backup_schedules d)
    (backup_jobs d) (email_verifications d) (signup_attempts d) (user_identities d)
    (scim_tokens d) (org_branding d) (install_step d).

Definition set_keys (v : list (Live AccessKey)) (d : DB) : DB :=
  mkDB
    (db_tick d) (orgs d) (projects d) (users d) (members d) (invitations d) (sessions d)
    (clusters d) (org_clusters d) (nodes d) (buckets d) v (perms d) (usage d) (trash d)
    (audit_events d) (webhooks d) (migrations d) (billing d) (reports d) (traffic d)
    (api_tokens d) (policies d) (policy_bindings d) (replications d) (backup_schedules d)
    (backup_jobs d) (email_verifications d) (signup_attempts d) (user_identities d)
    (scim_tokens d) (org_branding d) (install_step d).

Definition set_perms (v : list (Live Permission)) (d : DB) : DB :=
  mkDB
    (db_tick d) (orgs d) (projects d) (users d) (members d) (invitations d) (sessions d)
    (clusters d) (org_clusters d) (nodes d) (buckets d) (keys d) v (usage d) (trash d)
    (audit_events d) (webhooks d) (migrations d) (billing d) (reports d) (traffic d)
    (api_tokens d) (policies d) (policy_bindings d) (replications d) (backup_schedules d)
    (backup_jobs d) (email_verifications d) (signup_attempts d) (user_identities d)
    (scim_tokens d) (org_branding d) (install_step d).

Definition set_usage (v : list UsageSnapshot) (d : DB) : DB :=
  mkDB
    (db_tick d) (orgs d) (projects d) (users d) (members d) (invitations d) (sessions d)
    (clusters d) (org_clusters d) (nodes d) (buckets d) (keys d) (perms d) v (trash d)
    (audit_events d) (webhooks d) (migrations d) (billing d) (reports d) (traffic d)
    (api_tokens d) (policies d) (policy_bindings d) (replications d) (backup_schedules d)
    (backup_jobs d) (email_verifications d) (signup_attempts d) (user_identities d)
    (scim_tokens d) (org_branding d) (install_step d).

Definition set_trash (v : list TrashItem) (d : DB) : DB :=
  mkDB
    (db_tick d) (orgs d) (projects d) (users d) (members d) (invitations d) (sessions d)
    (clusters d) (org_clusters d) (nodes d) (buckets d) (keys d) (perms d) (usage d) v
    (audit_events d) (webhooks d) (migrations d) (billing d) (reports d) (traffic d)
    (api_tokens d) (policies d) (policy_bindings d) (replications d) (backup_schedules d)
    (backup_jobs d) (email_verifications d) (signup_attempts d) (user_identities d)
    (scim_tokens d) (org_branding d) (install_step d).

Definition set_audit_events (v : list AuditRow) (d : DB) : DB :=
  mkDB
    (db_tick d) (orgs d) (projects d) (users d) (members d) (invitations d) (sessions d)
    (clusters d) (org_clusters d) (nodes d) (buckets d) (keys d) (perms d) (usage d)
    (trash d) v (webhooks d) (migrations d) (billing d) (reports d) (traffic d)
    (api_tokens d) (policies d) (policy_bindings d) (replications d) (backup_schedules d)
    (backup_jobs d) (email_verifications d) (signup_attempts d) (user_identities d)
    (scim_tokens d) (org_branding d) (install_step d).

Definition set_webhooks (v : list WebhookSub) (d : DB) : DB :=
  mkDB
    (db_tick d) (orgs d) (projects d) (users d) (members d) (invitations d) (sessions d)
    (clusters d) (org_clusters d) (nodes d) (buckets d) (keys d) (perms d) (usage d)
    (trash d) (audit_events d) v (migrations d) (billing d) (reports d) (traffic d)
    (api_tokens d) (policies d) (policy_bindings d) (replications d) (backup_schedules d)
    (backup_jobs d) (email_verifications d) (signup_attempts d) (user_identities d)
    (scim_tokens d) (org_branding d) (install_step d).

Definition set_migrations (v : list MigrationJob) (d : DB) : DB :=
  mkDB
    (db_tick d) (orgs d) (projects d) (users d) (members d) (invitations d) (sessions d)
    (clusters d) (org_clusters d) (nodes d) (buckets d) (keys d) (perms d) (usage d)
    (trash d) (audit_events d) (webhooks d) v (billing d) (reports d) (traffic d)
    (api_tokens d) (policies d) (policy_bindings d) (replications d) (backup_schedules d)
    (backup_jobs d) (email_verifications d) (signup_attempts d) (user_identities d)
    (scim_tokens d) (org_branding d) (install_step d).

Definition set_billing (v : list BillingCustomer) (d : DB) : DB :=
  mkDB
    (db_tick d) (orgs d) (projects d) (users d) (members d) (invitations d) (sessions d)
    (clusters d) (org_clusters d) (nodes d) (buckets d) (keys d) (perms d) (usage d)
    (trash d) (audit_events d) (webhooks d) (migrations d) v (reports d) (traffic d)
    (api_tokens d) (policies d) (policy_bindings d) (replications d) (backup_schedules d)
    (backup_jobs d) (email_verifications d) (signup_attempts d) (user_identities d)
    (scim_tokens d) (org_branding d) (install_step d).

Definition set_reports (v : list UsageReport) (d : DB) : DB :=
  mkDB
    (db_tick d) (orgs d) (projects d) (users d) (members d) (invitations d) (sessions d)
    (clusters d) (org_clusters d) (nodes d) (buckets d) (keys d) (perms d) (usage d)
    (trash d) (audit_events d) (webhooks d) (migrations d) (billing d) v (traffic d)
    (api_tokens d) (policies d) (policy_bindings d) (replications d) (backup_schedules d)
    (backup_jobs d) (email_verifications d) (signup_attempts d) (user_identities d)
    (scim_tokens d) (org_branding d) (install_step d).

Definition set_traffic (v : list TrafficRow) (d : DB) : DB :=
  mkDB
    (db_tick d) (orgs d) (projects d) (users d) (members d) (invitations d) (sessions d)
    (clusters d) (org_clusters d) (nodes d) (buckets d) (keys d) (perms d) (usage d)
    (trash d) (audit_events d) (webhooks d) (migrations d) (billing d) (reports d) v
    (api_tokens d) (policies d) (policy_bindings d) (replications d) (backup_schedules d)
    (backup_jobs d) (email_verifications d) (signup_attempts d) (user_identities d)
    (scim_tokens d) (org_branding d) (install_step d).

Definition set_api_tokens (v : list (Live APIToken)) (d : DB) : DB :=
  mkDB
    (db_tick d) (orgs d) (projects d) (users d) (members d) (invitations d) (sessions d)
    (clusters d) (org_clusters d) (nodes d) (buckets d) (keys d) (perms d) (usage d)
    (trash d) (audit_events d) (webhooks d) (migrations d) (billing d) (reports d)
    (traffic d) v (policies d) (policy_bindings d) (replications d) (backup_schedules d)
    (backup_jobs d) (email_verifications d) (signup_attempts d) (user_identities d)
    (scim_tokens d) (org_branding d) (install_step d).

Definition set_policies (v : list PolicyRow) (d : DB) : DB :=
  mkDB
    (db_tick d) (orgs d) (projects d) (users d) (members d) (invitations d) (sessions d)
    (clusters d) (org_clusters d) (nodes d) (buckets d) (keys d) (perms d) (usage d)
    (trash d) (audit_events d) (webhooks d) (migrations d) (billing d) (reports d)
    (traffic d) (api_tokens d) v (policy_bindings d) (replications d) (backup_schedules d)
    (backup_jobs d) (email_verifications d) (signup_attempts d) (user_identities d)
    (scim_tokens d) (org_branding d) (install_step d).

Definition set_policy_bindings (v : list PolicyBinding) (d : DB) : DB :=
  mkDB
    (db_tick d) (orgs d) (projects d) (users d) (members d) (invitations d) (sessions d)
    (clusters d) (org_clusters d) (nodes d) (buckets d) (keys d) (perms d) (usage d)
    (trash d) (audit_events d) (webhooks d) (migrations d) (billing d) (reports d)
    (traffic d) (api_tokens d) (policies d) v (replications d) (backup_schedules d)
    (backup_jobs d) (email_verifications d) (signup_attempts d) (user_identities d)
    (scim_tokens d) (org_branding d) (install_step d).

Definition set_replications (v : list ReplicationJob) (d : DB) : DB :=
  mkDB
    (db_tick d) (orgs d) (projects d) (users d) (members d) (invitations d) (sessions d)
    (clusters d) (org_clusters d) (nodes d) (buckets d) (keys d) (perms d) (usage d)
    (trash d) (audit_events d) (webhooks d) (migrations d) (billing d) (reports d)
    (traffic d) (api_tokens d) (policies d) (policy_bindings d) v (backup_schedules d)
    (backup_jobs d) (email_verifications d) (signup_attempts d) (user_identities d)
    (scim_tokens d) (org_branding d) (install_step d).

Definition set_backup_schedules (v : list BackupSchedule) (d : DB) : DB :=
  mkDB
    (db_tick d) (orgs d) (projects d) (users d) (members d) (invitations d) (sessions d)
    (clusters d) (org_clusters d) (nodes d) (buckets d) (keys d) (perms d) (usage d)
    (trash d) (audit_events d) (webhooks d) (migrations d) (billing d) (reports d)
    (traffic d) (api_tokens d) (policies d) (policy_bindings d) (replications d) v
    (backup_jobs d) (email_verifications d) (signup_attempts d) (user_identities d)
    (scim_tokens d) (org_branding d) (install_step d).

Definition set_backup_jobs (v : list BackupJob) (d : DB) : DB :=
  mkDB
    (db_tick d) (orgs d) (projects d) (users d) (members d) (invitations d) (sessions d)
    (clusters d) (org_clusters d) (nodes d) (buckets d) (keys d) (perms d) (usage d)
    (trash d) (audit_events d) (webhooks d) (migrations d) (billing d) (reports d)
    (traffic d) (api_tokens d) (policies d) (policy_bindings d) (replications d)
    (backup_schedules d) v (email_verifications d) (signup_attempts d) (user_identities d)
    (scim_tokens d) (org_branding d) (install_step d).

Definition set_email_verifications (v : list EmailVerification) (d : DB) : DB :=
  mkDB
    (db_tick d) (orgs d) (projects d) (users d) (members d) (invitations d) (sessions d)
    (clusters d) (org_clusters d) (nodes d) (buckets d) (keys d) (perms d) (usage d)
    (trash d) (audit_events d) (webhooks d) (migrations d) (billing d) (reports d)
    (traffic d) (api_tokens d) (policies d) (policy_bindings d) (replications d)
    (backup_schedules d) (backup_jobs d) v (signup_attempts d) (user_identities d)
    (scim_tokens d) (org_branding d) (install_step d).

Definition set_signup_attempts (v : list SignupAttempt) (d : DB) : DB :=
  mkDB
    (db_tick d) (orgs d) (projects d) (users d) (members d) (invitations d) (sessions d)
    (clusters d) (org_clusters d) (nodes d) (buckets d) (keys d) (perms d) (usage d)
    (trash d) (audit_events d) (webhooks d) (migrations d) (billing d) (reports d)
    (traffic d) (api_tokens d) (policies d) (policy_bindings d) (replications d)
    (backup_schedules d) (backup_jobs d) (email_verifications d) v (user_identities d)
    (scim_tokens d) (org_branding d) (install_step d).

Definition set_user_identities (v : list UserIdentity) (d : DB) : DB :=
  mkDB
    (db_tick d) (orgs d) (projects d) (users d) (members d) (invitations d) (sessions d)
    (clusters d) (org_clusters d) (nodes d) (buckets d) (keys d) (perms d) (usage d)
    (trash d) (audit_events d) (webhooks d) (migrations d) (billing d) (reports d)
    (traffic d) (api_tokens d) (policies d) (policy_bindings d) (replications d)
    (backup_schedules d) (backup_jobs d) (email_verifications d) (signup_attempts d) v
    (scim_tokens d) (org_branding d) (install_step d).

Definition set_scim_tokens (v : list (Live SCIMToken)) (d : DB) : DB :=
  mkDB
    (db_tick d) (orgs d) (projects d) (users d) (members d) (invitations d) (sessions d)
    (clusters d) (org_clusters d) (nodes d) (buckets d) (keys d) (perms d) (usage d)
    (trash d) (audit_events d) (webhooks d) (migrations d) (billing d) (reports d)
    (traffic d) (api_tokens d) (policies d) (policy_bindings d) (replications d)
    (backup_schedules d) (backup_jobs d) (email_verifications d) (signup_attempts d)
    (user_identities d) v (org_branding d) (install_step d).

Definition set_org_branding (v : list Branding) (d : DB) : DB :=
  mkDB
    (db_tick d) (orgs d) (projects d) (users d) (members d) (invitations d) (sessions d)
    (clusters d) (org_clusters d) (nodes d) (buckets d) (keys d) (perms d) (usage d)
    (trash d) (audit_events d) (webhooks d) (migrations d) (billing d) (reports d)
    (traffic d) (api_tokens d) (policies d) (policy_bindings d) (replications d)
    (backup_schedules d) (backup_jobs d) (email_verifications d) (signup_attempts d)
    (user_identities d) (scim_tokens d) v (install_step d).

Definition set_install_step (v : str) (d : DB) : DB :=
  mkDB
    (db_tick d) (orgs d) (projects d) (users d) (members d) (invitations d) (sessions d)
    (clusters d) (org_clusters d) (nodes d) (buckets d) (keys d) (perms d) (usage d)
    (trash d) (audit_events d) (webhooks d) (migrations d) (billing d) (reports d)
    (traffic d) (api_tokens d) (policies d) (policy_bindings d) (replications d)
    (backup_schedules d) (backup_jobs d) (email_verifications d) (signup_attempts d)
    (user_identities d) (scim_tokens d) (org_branding d) v.

Definition empty_db : DB :=
  mkDB 0 [] [] [] [] [] [] [] [] [] [] [] [] [] [] [] [] [] [] [] [] [] [] [] [] [] [] [] [] [] [] [] "created".

(** * Statements *)

Section Statements.
Context {ENV : Env}.

(** One statement: [f] is given the statement's number, from which the clock and
    the generated id are read. *)
Definition stmt {A} (f : nat -> DB -> DBErr + (A * DB)) : M DB DBErr A :=
  fun d =>
    let n := db_tick d in
    let d1 := set_db_tick (S n) d in
    match env_fault n with
    | Some msg => (inl (DBFail msg), d1)
    | None => match f n d1 with
              | inl e => (inl e, d1)
              | inr (a, d2) => (inr a, d2)
              end
    end.

Definition query {A} (f : nat -> DB -> A) : M DB DBErr A :=
  stmt (fun n d => inr (f n d, d)).
(** [QueryRow(...).Scan(...)] with [pgx.ErrNoRows] mapped to [ErrNotFound]. *)
Definition query_row {A} (f : nat -> DB -> option A) : M DB DBErr A :=
  stmt (fun n d => match f n d with Some a => inr (a, d) | None => inl ErrNotFound end).
Definition exec (f : nat -> DB -> DB) : M DB DBErr unit :=
  stmt (fun n d => inr (tt, f n d)).
(** An [INSERT]: [ok] is the conjunction of the table's constraints. *)
Definition insert {A} (ok : nat -> DB -> bool) (f : nat -> DB -> A * DB) : M DB DBErr A :=
  stmt (fun n d => if ok n d then inr (f n d)
                   else inl (DBFail "violates a constraint"%string)).

(** An [UPDATE] or [DELETE] whose [RowsAffected() == 0] is reported as [ErrNotFound]. *)
Definition affecting (matches : DB -> bool) (f : nat -> DB -> DB) : M DB DBErr unit :=
  stmt (fun n d => if matches d then inr (tt, f n d) else inl ErrNotFound).
(** A statement in Postgres syntax that [translateToSQLite] leaves as it is and
    SQLite cannot parse. *)
Definition pg_only {A} (m : M DB DBErr A) : M DB DBErr A :=
  match env_driver with
  | Postgres => m
  | SQLite => stmt (fun _ _ => inl (DBFail "SQL logic error"%string))
  end.

(** A transaction: what the body did is undone unless the commit succeeds.  The
    statement counter is the environment's and goes on. *)
Definition transact {A} (m : M DB DBErr A) (begin_err commit_err : str) : M DB DBErr A :=
  fun d0 =>
    match exec (fun _ d => d) d0 with
    | (inl e, d1) => (inl (wrapDB begin_err e), d1)
    | (inr _, d1) =>
        match m d1 with
        | (inl e, d2) => (inl e, set_db_tick (db_tick d2) d1)
        | (inr a, d2) =>
            match exec (fun _ d => d) d2 with
            | (inl e, d3) => (inl (wrapDB commit_err e), set_db_tick (db_tick d3) d1)
            | (inr _, d3) => (inr a, d3)
            end
        end
    end.
End Statements.

(** * Tables with soft deletion *)

Section LiveRows.
Context {A : Type}.

Definition is_live (r : Live A) : bool :=
  match lv_deleted r with None => true | Some _ => false end.
Definition live (l : list (Live A)) : list A := map lv (where_ is_live l).
(** [UPDATE ... WHERE p AND deleted_at IS NULL] *)
Definition upd_live (p : A -> bool) (f : A -> A) (l : list (Live A)) : list (Live A) :=
  map (fun r => if is_live r && p (lv r) then mkLive (f (lv r)) None else r) l.
(** [UPDATE ... SET deleted_at=now() WHERE p AND deleted_at IS NULL] *)
Definition del_live (now : Z) (p : A -> bool) (l : list (Live A)) : list (Live A) :=
  map (fun r => if is_live r && p (lv r) then mkLive (lv r) (Some now) else r) l.
(** [UPDATE ... WHERE p], deleted rows included *)
Definition upd_all (p : A -> bool) (f : A -> A) (l : list (Live A)) : list (Live A) :=
  map (fun r => if p (lv r) then mkLive (f (lv r)) (lv_deleted r) else r) l.
Definition add_live (a : A) (l : list (Live A)) : list (Live A) := l ++ [mkLive a None].

Lemma live_app l1 l2 : live (l1 ++ l2) = live l1 ++ live l2.
Proof. unfold live. by rewrite where_app, map_app. Qed.
Lemma live_add a l : live (add_live a l) = live l ++ [a].
Proof. unfold add_live. by rewrite live_app. Qed.
Lemma live_upd p f l :
  live (upd_live p f l) = map (fun a => if p a then f a else a) (live l).
Proof.
  unfold live, upd_live. induction l as [|[a [t|]] l IH]; simpl; [done|done|].
  destruct (p a); simpl; by rewrite IH.
Qed.
Lemma live_del now p l : live (del_live now p l) = where_ (fun a => negb (p a)) (live l).
Proof.
  unfold live, del_live. induction l as [|[a [t|]] l IH]; simpl; [done|done|].
  destruct (p a); simpl; by rewrite IH.
Qed.
Lemma live_upd_all p f l :
  live (upd_all p f l) = map (fun a => if p a then f a else a) (live l).
Proof.
  unfold live, upd_all. induction l as [|[a [t|]] l IH]; simpl; [done| |];
    destruct (p a); simpl; by rewrite IH.
Qed.
Lemma live_elem_all a l : a ∈ live l -> a ∈ map lv l.
Proof.
  unfold live. rewrite !list_elem_of_fmap. intros (r & -> & H).
  apply where_elem in H as [H _]. eauto.
Qed.
End LiveRows.
#[global] Arguments live : simpl never.
#[global] Arguments upd_live : simpl never.
#[global] Arguments del_live : simpl never.
#[global] Arguments upd_all : simpl never.
#[global] Arguments add_live : simpl never.

(** [UPDATE] and [DELETE] on a table without soft deletion. *)
Definition upd_rows {A} (p : A -> bool) (f : A -> A) (l : list A) : list A :=
  map (fun r => if p r then f r else r) l.
Definition del_rows {A} (p : A -> bool) (l : list A) : list A :=
  where_ (fun r => negb (p r)) l.
Definition exists_ {A} (p : A -> bool) (l : list A) : bool := existsb p l.

(** [ORDER BY]: rows that compare equal keep the table's order. *)
Fixpoint insert_by {A} (le : A -> A -> bool) (x : A) (l : list A) : list A :=
  match l with
  | [] => [x]
  | y :: l' => if le x y then x :: l else y :: insert_by le x l'
  end.
Definition order_by {A} (le : A -> A -> bool) (l : list A) : list A :=
  foldr (insert_by le) [] l.
Definition asc {A} (key : A -> Z) : list A -> list A :=
  order_by (fun x y => key x <=? key y)%Z.
Definition desc {A} (key : A -> Z) : list A -> list A :=
  order_by (fun x y => key y <=? key x)%Z.

Section Order.
Context {A : Type} (le : A -> A -> bool).

Lemma insert_by_perm x l : insert_by le x l ≡ₚ x :: l.
Proof.
  induction l as [|y l IH]; simpl; [done|].
  destruct (le x y); [done|]. rewrite IH. apply Permutation_swap.
Qed.
Lemma order_by_perm l : order_by le l ≡ₚ l.
Proof. induction l as [|x l IH]; simpl; [done|]. by rewrite insert_by_perm, IH. Qed.
Lemma order_by_elem l x : x ∈ order_by le l <-> x ∈ l.
Proof. by rewrite order_by_perm. Qed.
Lemma insert_by_snoc x l z :
  le x z = true -> insert_by le x (l ++ [z]) = insert_by le x l ++ [z].
Proof.
  intros H. induction l as [|y l IH]; simpl; [by rewrite H|].
  destruct (le x y); [done|]. by rewrite IH.
Qed.
(** A row that sorts after all others goes to the end. *)
Lemma order_by_snoc l z :
  (forall x, x ∈ l -> le x z = true) -> order_by le (l ++ [z]) = order_by le l ++ [z].
Proof.
  induction l as [|x l IH]; intros H; simpl; [done|].
  rewrite IH by (intros; apply H; set_solver).
  apply insert_by_snoc. apply H. set_solver.
Qed.
End Order.

Section OrderKey.
Context {A : Type} (key : A -> Z).

Lemma desc_head l x : head (desc key l) = Some x ->
  x ∈ l /\ forall y, y ∈ l -> (key y <= key x)%Z.
Proof.
  revert x. induction l as [|a l IH]; intros x; [done|].
  change (desc key (a :: l)) with
    (insert_by (fun x y => key y <=? key x)%Z a (desc key l)).
  destruct (desc key l) as [|h t] eqn:E; simpl.
  - intros [= ->]. assert (l = []) as -> by (apply Permutation_nil_r; rewrite <- E;
      symmetry; apply order_by_perm).
    split; [set_solver|]. intros y Hy. apply list_elem_of_singleton in Hy as ->. lia.
  - destruct (IH h eq_refl) as [Hin Hmax].
    destruct (key h <=? key a)%Z eqn:E1; simpl; intros [= <-]; bool_prop.
    + split; [clear IH; set_solver|]. intros y [->|Hy]%elem_of_cons; [lia|].
      specialize (Hmax y Hy). lia.
    + split; [clear IH; set_solver|]. intros y [->|Hy]%elem_of_cons; [lia|]. by apply Hmax.
Qed.

(** Newest first. *)
Lemma desc_sorted l : StronglySorted (fun x y => key y <= key x)%Z (desc key l).
Proof.
  induction l as [|a l IH]; [constructor|].
  change (desc key (a :: l)) with (insert_by (fun x y => key y <=? key x)%Z a (desc key l)).
  induction IH as [|x l' Hs IHs Hx]; cbn; [by repeat constructor|].
  destruct (Z.leb_spec (key x) (key a)).
  - constructor; [by constructor|]. constructor; [done|].
    eapply Forall_impl; [exact Hx|]. cbn. lia.
  - constructor; [done|]. rewrite insert_by_perm. by constructor; [lia|].
Qed.

Lemma insert_by_last a l z :
  last l = Some z -> (forall y, y ∈ l -> (key y <= key z)%Z) ->
  exists w, last (insert_by (fun x y => key x <=? key y)%Z a l) = Some w /\
            (w = a \/ w = z) /\ (key a <= key w)%Z /\ (key z <= key w)%Z.
Proof.
  intros Hlast Hmax. induction l as [|y l IH]; [done|]. cbn [insert_by].
  destruct (key a <=? key y)%Z eqn:E; bool_prop.
  - exists z. rewrite last_cons, Hlast.
    assert (key y <= key z)%Z by (apply Hmax; set_solver).
    repeat split; [by right|lia|lia].
  - destruct l as [|y' l].
    + injection Hlast as ->. exists a. cbn. repeat split; [by left|lia|lia].
    + destruct IH as (w & Hw & Hor & H1 & H2);
        [done|intros; apply Hmax; set_solver|].
      exists w. rewrite last_cons, Hw. done.
Qed.

Lemma asc_last l : l <> [] ->
  exists w, last (asc key l) = Some w /\ w ∈ l /\ forall y, y ∈ l -> (key y <= key w)%Z.
Proof.
  induction l as [|a l IH]; [done|]. intros _. cbn.
  destruct l as [|b l].
  - exists a. cbn. split; [done|]. split; [set_solver|].
    intros y Hy. apply list_elem_of_singleton in Hy as ->. lia.
  - destruct IH as (z & Hz & Hin & Hmax); [done|].
    destruct (insert_by_last a (asc key (b :: l)) z Hz) as (w & Hw & Hor & H1 & H2).
    { intros y Hy. apply Hmax. by apply order_by_elem in Hy. }
    exists w. split; [exact Hw|]. split; [destruct Hor; subst; set_solver|].
    intros y [->|Hy]%elem_of_cons; [done|]. specialize (Hmax y Hy). lia.
Qed.

(** With distinct keys, the first row of the descending order is the last of the
    ascending one. *)
Lemma desc_head_asc_last l :
  (forall x y, x ∈ l -> y ∈ l -> key x = key y -> x = y) ->
  head (desc key l) = last (asc key l).
Proof.
  intros Hinj. destruct l as [|a l]; [done|].
  destruct (asc_last (a :: l)) as (w & Hw & Hin & Hmax); [done|].
  destruct (head (desc key (a :: l))) as [x|] eqn:E.
  - destruct (desc_head _ _ E) as [Hx Hxmax]. rewrite Hw. f_equal.
    apply Hinj; [done..|]. specialize (Hmax x Hx). specialize (Hxmax w Hin). lia.
  - exfalso. assert (desc key (a :: l) ≡ₚ a :: l) as HP by apply order_by_perm.
    destruct (desc key (a :: l)); [|done]. apply Permutation_nil_cons in HP. done.
Qed.
End OrderKey.
#[global] Arguments order_by : simpl never.
#[global] Arguments asc : simpl never.
#[global] Arguments desc : simpl never.


Lemma upd_rows_none {A} (p : A -> bool) f l :
  (forall x, x ∈ l -> p x = false) -> upd_rows p f l = l.
Proof.
  unfold upd_rows. induction l as [|x l IH]; intros H; simpl; [done|].
  rewrite H by set_solver. rewrite IH; [done|]. intros; apply H; set_solver.
Qed.
Lemma upd_rows_app {A} (p : A -> bool) f l1 l2 :
  upd_rows p f (l1 ++ l2) = upd_rows p f l1 ++ upd_rows p f l2.
Proof. apply map_app. Qed.

Lemma exists_spec {A} (p : A -> bool) l :
  exists_ p l = true <-> exists x, x ∈ l /\ p x = true.
Proof.
  unfold exists_. rewrite List.existsb_exists.
  split; intros (x & H1 & H2); exists x; by rewrite list_elem_of_In in *.
Qed.
Lemma exists_false {A} (p : A -> bool) l :
  exists_ p l = false <-> forall x, x ∈ l -> p x = false.
Proof.
  split.
  - intros H x Hx. destruct (p x) eqn:E; [|done].
    rewrite <- H. symmetry. apply exists_spec. eauto.
  - intros H. destruct (exists_ p l) eqn:E; [|done].
    apply exists_spec in E as (x & Hx & Hp). by rewrite H in Hp.
Qed.

(** No statement fails for a reason of the environment. *)
Definition reliable {ENV : Env} : Prop := forall n, env_fault n = None.

(** ** Inverting statements *)

Section StatementInversion.
Context {ENV : Env}.

Lemma stmt_inr {A} (f : nat -> DB -> DBErr + (A * DB)) d a d' :
  stmt f d = (inr a, d') ->
  env_fault (db_tick d) = None /\
  f (db_tick d) (set_db_tick (S (db_tick d)) d) = inr (a, d').
Proof.
  unfold stmt. destruct (env_fault (db_tick d)) as [m|]; [intros ?; simplify_eq|].
  destruct (f _ _) as [e|[a1 d1]] eqn:E; intros H; by simplify_eq.
Qed.
Lemma stmt_inl {A} (f : nat -> DB -> DBErr + (A * DB)) d e d' :
  stmt f d = (inl e, d') -> d' = set_db_tick (S (db_tick d)) d.
Proof.
  unfold stmt. destruct (env_fault (db_tick d)) as [m|]; [by intros; simplify_eq|].
  destruct (f _ _) as [e1|[a1 d1]] eqn:E; intros H; by simplify_eq.
Qed.
Lemma query_inr {A} (f : nat -> DB -> A) d a d' :
  query f d = (inr a, d') ->
  d' = set_db_tick (S (db_tick d)) d /\ a = f (db_tick d) (set_db_tick (S (db_tick d)) d).
Proof. intros H. apply stmt_inr in H as [_ H]. by simplify_eq. Qed.
Lemma query_row_inr {A} (f : nat -> DB -> option A) d a d' :
  query_row f d = (inr a, d') ->
  d' = set_db_tick (S (db_tick d)) d /\
  f (db_tick d) (set_db_tick (S (db_tick d)) d) = Some a.
Proof.
  intros H. apply stmt_inr in H as [_ H].
  destruct (f _ _) eqn:E; by simplify_eq.
Qed.
Lemma exec_inr (f : nat -> DB -> DB) d u d' :
  exec f d = (inr u, d') -> d' = f (db_tick d) (set_db_tick (S (db_tick d)) d).
Proof. intros H. apply stmt_inr in H as [_ H]. by simplify_eq. Qed.
Lemma insert_inr {A} ok (f : nat -> DB -> A * DB) d a d' :
  insert ok f d = (inr a, d') ->
  ok (db_tick d) (set_db_tick (S (db_tick d)) d) = true /\
  f (db_tick d) (set_db_tick (S (db_tick d)) d) = (a, d').
Proof.
  intros H. apply stmt_inr in H as [_ H].
  destruct (ok _ _) eqn:E; by simplify_eq.
Qed.

Lemma affecting_inr p f d u d' :
  affecting p f d = (inr u, d') ->
  p (set_db_tick (S (db_tick d)) d) = true /\
  d' = f (db_tick d) (set_db_tick (S (db_tick d)) d).
Proof. intros H. apply stmt_inr in H as [_ H]. destruct (p _) eqn:E; by simplify_eq. Qed.

(** What a statement can do to the state, whatever its outcome. *)
Lemma guar_stmt {A} (R : DB -> DB -> Prop) `{!PreOrder R}
    (f : nat -> DB -> DBErr + (A * DB)) :
  (forall d n, R d (set_db_tick n d)) ->
  (forall d n a d', f n d = inr (a, d') -> R d d') ->
  Guar R (stmt f).
Proof.
  intros Htick Hf d r d' H. destruct r as [e|a].
  - apply stmt_inl in H as ->. apply Htick.
  - apply stmt_inr in H as [_ H]. etrans; [apply Htick|by eapply Hf].
Qed.
Lemma guar_query {A} (R : DB -> DB -> Prop) `{!PreOrder R} (f : nat -> DB -> A) :
  (forall d n, R d (set_db_tick n d)) -> Guar R (query f).
Proof. intros Ht. apply guar_stmt; [done..|]. intros. by simplify_eq. Qed.
Lemma guar_query_row {A} (R : DB -> DB -> Prop) `{!PreOrder R} (f : nat -> DB -> option A) :
  (forall d n, R d (set_db_tick n d)) -> Guar R (query_row f).
Proof.
  intros Ht. apply guar_stmt; [done..|]. intros d n a d' H.
  destruct (f n d); by simplify_eq.
Qed.
Lemma guar_exec (R : DB -> DB -> Prop) `{!PreOrder R} f :
  (forall d n, R d (set_db_tick n d)) -> (forall n d, R d (f n d)) -> Guar R (exec f).
Proof. intros Ht Hf. apply guar_stmt; [done..|]. intros. by simplify_eq. Qed.
Lemma guar_insert {A} (R : DB -> DB -> Prop) `{!PreOrder R} ok (f : nat -> DB -> A * DB) :
  (forall d n, R d (set_db_tick n d)) ->
  (forall n d a d', ok n d = true -> f n d = (a, d') -> R d d') -> Guar R (insert ok f).
Proof.
  intros Ht Hf. apply guar_stmt; [done..|]. intros d n a d' H.
  destruct (ok n d) eqn:E; [|done]. destruct (f n d) as [a1 d1] eqn:E1.
  simplify_eq. by eapply Hf.
Qed.
Lemma guar_affecting (R : DB -> DB -> Prop) `{!PreOrder R} p f :
  (forall d n, R d (set_db_tick n d)) -> (forall n d, p d = true -> R d (f n d)) ->
  Guar R (affecting p f).
Proof.
  intros Ht Hf. apply guar_stmt; [done..|]. intros d n a d' H.
  destruct (p d) eqn:E; simplify_eq. by apply Hf.
Qed.
Lemma guar_pg_only {A} (R : DB -> DB -> Prop) `{!PreOrder R} (m : M DB DBErr A) :
  (forall d n, R d (set_db_tick n d)) -> Guar R m -> Guar R (pg_only m).
Proof. intros Ht Hm. unfold pg_only. destruct env_driver; [done|]. by apply guar_stmt. Qed.
Lemma guar_transact {A} (R : DB -> DB -> Prop) `{!PreOrder R} (m : M DB DBErr A) p1 p2 :
  (forall d n, R d (set_db_tick n d)) -> Guar R m -> Guar R (transact m p1 p2).
Proof.
  intros Ht Hm d r d' H. unfold transact in H.
  destruct (exec _ d) as [[e|u] d1] eqn:E1; simplify_eq.
  { apply stmt_inl in E1 as ->. apply Ht. }
  apply exec_inr in E1. assert (R d d1) by (subst; apply Ht). clear E1.
  destruct (m d1) as [[e|a] d2] eqn:E2; simplify_eq; [by etrans|].
  destruct (exec _ d2) as [[e|u'] d3] eqn:E3; simplify_eq; [by etrans|].
  apply exec_inr in E3 as ->. etrans; [done|]. etrans; [by eapply Hm|apply Ht].
Qed.
End StatementInversion.

(** * A concrete environment, for the worked examples *)

Definition example_env (driver : Driver) (fault : nat -> option str) : Env := {|
  env_driver := driver;
  env_fault := fault;
  env_now := fun n => (1000000000 * Z.of_nat n)%Z;
  env_uuid := fun n => ("id" ++ Itoa (Z.of_nat n))%string;
  env_token := fun n => Some ("tok" ++ Itoa (Z.of_nat n))%string;
  env_hash_password := fun _ p => Some ("argon2:" ++ p)%string;
  env_verify_password := fun p h => Some (("argon2:" ++ p)%string =s h);
  env_jsonb := fun m => Join (map fst m) ",";
  env_as_uuid := fun id => id;
  env_as_uuid_gen := fun _ => eq_refl;
  env_inet := Some |}.
Definition no_fault : nat -> option str := fun _ => None.
Definition fault_at (k : nat) : nat -> option str :=
  fun n => if Nat.eqb n k then Some "connection reset"%string else None.
