(* ===== verification/Repository.v ===== *)
(** src/internal/repository: the data-access layer.

    One definition per method of [repository.Store]; its SQL is read as the step
    it makes on the tables of Database.v, with the constraints of the schema
    (primary keys, foreign keys, the partial unique indexes on live rows).  A
    column the code writes with [NULLIF(x,'')] and reads with [COALESCE(x,'')]
    is a plain string here.  The hash-chained audit log is in AuditLog.v.

    An id that a request spells (a path or body parameter: bucket, key, user, cluster,
    organization of the admin API, trash item, webhook, policy, token, schedule, job)
    goes through the cast [$n::uuid], [env_as_uuid].  The ids the code reads from the
    database itself (the tenant's organization and project, the user of a session, the
    rows of a background loop) are in canonical spelling, where the cast is the
    identity, and are compared as they are. *)
From S2P Require Import Prelude GoStrings Database.

Module Store.
Section Store.
Context {ENV : Env}.

Definition has_id {A} (key : A -> str) (id : str) (l : list A) : bool :=
  exists_ (fun r => key r =s id) l.
Definition all_rows {A} (l : list (Live A)) : list A := map lv l.
(** A nullable reference: NULL, or the id of a row. *)
Definition opt_ref {A} (key : A -> str) (id : str) (l : list A) : bool :=
  (id =s "") || has_id key id l.

(** * buckets.go *)

Definition bucket_ok (id : str) (b : Bucket) (d : DB) : bool :=
  negb (has_id b_ID id (all_rows (buckets d)))
  && has_id org_ID (b_OrgID b) (all_rows (orgs d))
  && has_id prj_ID (b_ProjectID b) (all_rows (projects d))
  && has_id cl_ID (b_ClusterID b) (all_rows (clusters d))
  && negb (exists_ (fun r => (b_ProjectID r =s b_ProjectID b) && (b_Name r =s b_Name b))
                   (live (buckets d)))
  && negb (exists_ (fun r => (b_ClusterID r =s b_ClusterID b)
                             && (b_GarageBucketID r =s b_GarageBucketID b))
                   (live (buckets d)))
  && negb (exists_ (fun r => (b_ClusterID r =s b_ClusterID b)
                             && (b_GarageGlobalAlias r =s b_GarageGlobalAlias b))
                   (live (buckets d))).

Definition new_bucket_row (n : nat) (b : Bucket) : Bucket :=
  mkBucket (env_uuid n) (b_OrgID b) (b_ProjectID b) (b_ClusterID b) (b_Name b)
    (b_GarageBucketID b) (b_GarageGlobalAlias b)
    (if b_Visibility b =s "" then "private" else b_Visibility b)
    (b_WebsiteEnabled b)
    (if b_WebsiteIndexDoc b =s "" then "index.html" else b_WebsiteIndexDoc b) ""
    (b_QuotaMaxSize b) (b_QuotaMaxObjects b) (env_now n).

Definition CreateBucket (b : Bucket) : M DB DBErr str :=
  mapErr (wrapDB "repository: create bucket: ")
    (let b := set_b_ClusterID (env_as_uuid (b_ClusterID b)) b in
     insert (fun n d => bucket_ok (env_uuid n) b d)
            (fun n d => (env_uuid n,
                         set_buckets (add_live (new_bucket_row n b) (buckets d)) d))).

Definition ListBuckets (projectID : str) : M DB DBErr (list Bucket) :=
  mapErr (wrapDB "repository: list buckets: ")
    (query (fun _ d => desc b_CreatedAt
       (where_ (fun b => b_ProjectID b =s projectID) (live (buckets d))))).

Definition bucket_row (id : str) (d : DB) : option Bucket :=
  head (where_ (fun b => b_ID b =s env_as_uuid id) (live (buckets d))).

Definition GetBucket (id : str) : M DB DBErr Bucket :=
  query_row (fun _ d => bucket_row id d).

Definition UpdateBucketQuota (id : str) (maxSize maxObjects : option Z) : M DB DBErr unit :=
  mapErr (wrapDB "repository: update quota: ")
    (exec (fun _ d => set_buckets
       (upd_live (fun b => b_ID b =s env_as_uuid id)
          (fun b => set_b_QuotaMaxObjects maxObjects (set_b_QuotaMaxSize maxSize b))
          (buckets d)) d)).

Definition UpdateBucketVisibility (id visibility : str) (websiteEnabled : bool)
    (index errorDoc : str) : M DB DBErr unit :=
  let index := if index =s "" then "index.html" else index in
  mapErr (wrapDB "repository: update visibility: ")
    (exec (fun _ d => set_buckets
       (upd_live (fun b => b_ID b =s env_as_uuid id)
          (fun b => set_b_WebsiteErrorDoc errorDoc (set_b_WebsiteIndexDoc index
             (set_b_WebsiteEnabled websiteEnabled (set_b_Visibility visibility b))))
          (buckets d)) d)).

Definition SoftDeleteBucket (id : str) : M DB DBErr unit :=
  mapErr (wrapDB "repository: soft delete bucket: ")
    (exec (fun n d => set_buckets
       (del_live (env_now n) (fun b => b_ID b =s env_as_uuid id) (buckets d)) d)).

Definition CountBuckets (projectID : str) : M DB DBErr nat :=
  query (fun _ d => length (where_ (fun b => b_ProjectID b =s projectID) (live (buckets d)))).

(** * keys.go *)

Definition key_ok (id : str) (k : AccessKey) (d : DB) : bool :=
  negb (has_id k_ID id (all_rows (keys d)))
  && has_id org_ID (k_OrgID k) (all_rows (orgs d))
  && opt_ref prj_ID (k_ProjectID k) (all_rows (projects d))
  && has_id cl_ID (k_ClusterID k) (all_rows (clusters d))
  && negb (exists_ (fun r => (k_ClusterID r =s k_ClusterID k)
                             && (k_GarageAccessKeyID r =s k_GarageAccessKeyID k))
                   (live (keys d))).

Definition CreateAccessKey (k : AccessKey) (secretHash : str) : M DB DBErr str :=
  mapErr (wrapDB "repository: create access key: ")
    (insert (fun n d => key_ok (env_uuid n) k d)
            (fun n d => (env_uuid n,
               set_keys (add_live (set_k_SecretHash secretHash
                  (set_k_CreatedAt (env_now n) (set_k_ID (env_uuid n) k))) (keys d)) d))).

Definition ListAccessKeys (projectID : str) : M DB DBErr (list AccessKey) :=
  mapErr (wrapDB "repository: list keys: ")
    (query (fun _ d => desc k_CreatedAt
       (where_ (fun k => k_ProjectID k =s projectID) (live (keys d))))).

Definition GetAccessKey (id : str) : M DB DBErr AccessKey :=
  query_row (fun _ d => head (where_ (fun k => k_ID k =s env_as_uuid id) (live (keys d)))).

Definition SoftDeleteAccessKey (id : str) : M DB DBErr unit :=
  mapErr (wrapDB "repository: soft delete key: ")
    (exec (fun n d => set_keys (del_live (env_now n) (fun k => k_ID k =s env_as_uuid id) (keys d)) d)).

Definition CountAccessKeys (projectID : str) : M DB DBErr nat :=
  query (fun _ d => length (where_ (fun k => k_ProjectID k =s projectID) (live (keys d)))).

Definition perm_of (bucketID keyID : str) (p : Permission) : bool :=
  (bp_BucketID p =s bucketID) && (bp_AccessKeyID p =s keyID).

Definition grant_uuids (g : Grant) : Grant :=
  mkGrant (env_as_uuid (g_BucketID g)) (env_as_uuid (g_AccessKeyID g)) (g_BucketName g)
    (g_GarageBucket g) (g_CanRead g) (g_CanWrite g) (g_IsOwner g).

(** INSERT ... ON CONFLICT (bucket_id, access_key_id) WHERE deleted_at IS NULL DO UPDATE *)
Definition UpsertGrant (g : Grant) : M DB DBErr unit :=
  let g := grant_uuids g in
  mapErr (wrapDB "repository: upsert grant: ")
    (insert
       (fun n d => negb (has_id bp_ID (env_uuid n) (all_rows (perms d)))
                   && has_id b_ID (g_BucketID g) (all_rows (buckets d))
                   && has_id k_ID (g_AccessKeyID g) (all_rows (keys d)))
       (fun n d => (tt,
          if exists_ (perm_of (g_BucketID g) (g_AccessKeyID g)) (live (perms d))
          then set_perms (upd_live (perm_of (g_BucketID g) (g_AccessKeyID g))
                 (fun p => mkPermission (bp_ID p) (bp_BucketID p) (bp_AccessKeyID p)
                             (g_CanRead g) (g_CanWrite g) (g_IsOwner g)) (perms d)) d
          else set_perms (add_live (mkPermission (env_uuid n) (g_BucketID g)
                 (g_AccessKeyID g) (g_CanRead g) (g_CanWrite g) (g_IsOwner g)) (perms d)) d))).

Definition DeleteGrant (bucketID accessKeyID : str) : M DB DBErr unit :=
  mapErr (wrapDB "repository: delete grant: ")
    (exec (fun n d => set_perms
       (del_live (env_now n) (perm_of (env_as_uuid bucketID) (env_as_uuid accessKeyID)) (perms d)) d)).

Definition ListGrantsForKey (accessKeyID : str) : M DB DBErr (list Grant) :=
  mapErr (wrapDB "repository: list grants: ")
    (query (fun _ d =>
       p ← where_ (fun p => bp_AccessKeyID p =s env_as_uuid accessKeyID) (live (perms d));
       b ← where_ (fun b => b_ID b =s bp_BucketID p) (live (buckets d));
       [mkGrant (bp_BucketID p) (bp_AccessKeyID p) (b_Name b) (b_GarageBucketID b)
          (bp_CanRead p) (bp_CanWrite p) (bp_IsOwner p)])).

(** * members.go *)

Record Member := mkMember {
  m_UserID : str; m_Email : str; m_FullName : str; m_Role : str; m_CreatedAt : Z }.

Definition member_rows (orgID : str) (d : DB) : list Member :=
  om ← where_ (fun om => om_OrgID om =s orgID) (members d);
  u ← where_ (fun u => u_ID u =s om_UserID om) (live (users d));
  [mkMember (u_ID u) (u_Email u) (u_FullName u) (om_Role om) (om_CreatedAt om)].

Definition ListMembers (orgID : str) : M DB DBErr (list Member) :=
  mapErr (wrapDB "repository: list members: ")
    (query (fun _ d => asc m_CreatedAt (member_rows orgID d))).

Definition is_member (orgID userID : str) (m : Membership) : bool :=
  (om_OrgID m =s orgID) && (om_UserID m =s userID).

Definition GetMembershipRole (orgID userID : str) : M DB DBErr str :=
  mapErr (wrapDB "repository: get membership: ")
    (query_row (fun _ d => om_Role <$>
       head (where_ (is_member orgID (env_as_uuid userID)) (members d)))).

Definition CountUserMemberships (userID : str) : M DB DBErr nat :=
  query (fun _ d => length (where_ (fun m => om_UserID m =s env_as_uuid userID) (members d))).

Definition UpsertMember (orgID userID role : str) : M DB DBErr unit :=
  let userID := env_as_uuid userID in
  mapErr (wrapDB "repository: upsert member: ")
    (insert
       (fun _ d => has_id org_ID orgID (all_rows (orgs d))
                   && has_id u_ID userID (all_rows (users d)))
       (fun n d => (tt,
          if exists_ (is_member orgID userID) (members d)
          then set_members (upd_rows (is_member orgID userID) (set_om_Role role) (members d)) d
          else set_members (members d ++ [mkMembership orgID userID role (env_now n)]) d))).

Definition RemoveMember (orgID userID : str) : M DB DBErr unit :=
  exec (fun _ d => set_members (del_rows (is_member orgID (env_as_uuid userID)) (members d)) d).

Definition CountMembers (orgID : str) : M DB DBErr nat :=
  query (fun _ d => length (where_ (fun m => om_OrgID m =s orgID) (members d))).

Definition CountOwners (orgID : str) : M DB DBErr nat :=
  query (fun _ d => length (where_ (fun m => (om_OrgID m =s orgID) && (om_Role m =s "owner"))
                                   (members d))).

Definition CreateInvitation (orgID email role tokenHash invitedBy : str) (expiresAt : Z)
    : M DB DBErr str :=
  mapErr (wrapDB "repository: create invitation: ")
    (insert
       (fun n d => negb (has_id inv_ID (env_uuid n) (invitations d))
                   && has_id org_ID orgID (all_rows (orgs d))
                   && opt_ref u_ID invitedBy (all_rows (users d))
                   && negb (has_id inv_TokenHash tokenHash (invitations d)))
       (fun n d => (env_uuid n,
          set_invitations (invitations d ++
            [mkInvitation (env_uuid n) orgID email role tokenHash invitedBy expiresAt None
               (env_now n)]) d))).

Definition pending (now : Z) (iv : Invitation) : bool :=
  match inv_AcceptedAt iv with None => (now <? inv_ExpiresAt iv)%Z | Some _ => false end.

Definition GetInvitationByToken (tokenHash : str) : M DB DBErr Invitation :=
  mapErr (wrapDB "repository: get invitation: ")
    (query_row (fun n d => head (where_
       (fun iv => (inv_TokenHash iv =s tokenHash) && pending (env_now n) iv) (invitations d)))).

Definition MarkInvitationAccepted (id : str) : M DB DBErr unit :=
  exec (fun n d => set_invitations
    (upd_rows (fun iv => inv_ID iv =s id) (set_inv_AcceptedAt (Some (env_now n)))
       (invitations d)) d).

Definition ListInvitations (orgID : str) : M DB DBErr (list Invitation) :=
  mapErr (wrapDB "repository: list invitations: ")
    (query (fun n d => desc inv_CreatedAt
       (where_ (fun iv => (inv_OrgID iv =s orgID) && pending (env_now n) iv)
          (invitations d)))).

(** * users.go *)

Definition CountUsers : M DB DBErr nat := query (fun _ d => length (live (users d))).

Definition same_email (email : str) (u : User) : bool := ToLower (u_Email u) =s ToLower email.

Definition CreateUser (email fullName passwordHash : str) (platformAdmin : bool)
    : M DB DBErr str :=
  mapErr (wrapDB "repository: create user: ")
    (insert
       (fun n d => negb (has_id u_ID (env_uuid n) (all_rows (users d)))
                   && negb (exists_ (same_email email) (live (users d))))
       (fun n d => (env_uuid n,
          set_users (add_live (mkUser (env_uuid n) email fullName passwordHash platformAdmin
                                 true (env_now n) None) (users d)) d))).

Definition GetUserByEmail (email : str) : M DB DBErr User :=
  mapErr (wrapDB "repository: get user: ")
    (query_row (fun _ d => head (where_ (same_email email) (live (users d))))).

(** The query does not select [email_verified]: the field keeps its zero value. *)
Definition GetUserByID (id : str) : M DB DBErr User :=
  mapErr (wrapDB "repository: get user by id: ")
    (query_row (fun _ d => set_u_EmailVerified false <$>
       head (where_ (fun u => u_ID u =s id) (live (users d))))).

Definition TouchUserLogin (id : str) : M DB DBErr unit :=
  exec (fun n d => set_users
    (map (fun r => if u_ID (lv r) =s id
                   then mkLive (set_u_LastLoginAt (Some (env_now n)) (lv r)) (lv_deleted r)
                   else r) (users d)) d).

Definition CreateSession (userID tokenHash : str) (expiresAt : Z) : M DB DBErr str :=
  mapErr (wrapDB "repository: create session: ")
    (insert
       (fun n d => negb (has_id ses_ID (env_uuid n) (sessions d))
                   && has_id u_ID userID (all_rows (users d))
                   && negb (has_id ses_TokenHash tokenHash (sessions d)))
       (fun n d => (env_uuid n,
          set_sessions (sessions d ++ [mkSession (env_uuid n) userID tokenHash expiresAt None]) d))).

Definition session_live (now : Z) (s : Session) : bool :=
  match ses_RevokedAt s with None => (now <? ses_ExpiresAt s)%Z | Some _ => false end.

Definition session_user (now : Z) (tokenHash : str) (d : DB) : option User :=
  head (s ← where_ (fun s => (ses_TokenHash s =s tokenHash) && session_live now s) (sessions d);
        where_ (fun u => u_ID u =s ses_UserID s) (live (users d))).

Definition GetUserBySessionToken (tokenHash : str) : M DB DBErr User :=
  mapErr (wrapDB "repository: get session: ")
    (query_row (fun n d => set_u_EmailVerified false <$> session_user (env_now n) tokenHash d)).

Definition RevokeSessionByToken (tokenHash : str) : M DB DBErr unit :=
  exec (fun n d => set_sessions
    (upd_rows (fun s => ses_TokenHash s =s tokenHash)
       (set_ses_RevokedAt (Some (env_now n))) (sessions d)) d).

Definition RevokeAllUserSessions (userID : str) : M DB DBErr unit :=
  exec (fun n d => set_sessions
    (upd_rows (fun s => (ses_UserID s =s userID) && bool_decide (ses_RevokedAt s = None))
       (set_ses_RevokedAt (Some (env_now n))) (sessions d)) d).

Definition SoftDeleteUser (userID : str) : M DB DBErr unit :=
  exec (fun n d => set_users
    (del_live (env_now n) (fun u => u_ID u =s userID) (users d)) d).

(** * install.go *)

Definition SetInstallStep (step : str) : M DB DBErr unit :=
  exec (fun _ d => set_install_step step d).

(** * orgs.go *)

Record OrgStatus := mkOrgStatus {
  os_Status : str; os_SuspendedAt : option Z; os_SuspendReason : str;
  os_QuotaMaxBytes : option Z }.

Definition first_membership (userID : str) (d : DB) : option Membership :=
  head (asc om_CreatedAt (where_ (fun m => om_UserID m =s userID) (members d))).
Definition first_project (orgID : str) (d : DB) : option Project :=
  head (asc prj_CreatedAt (where_ (fun p => prj_OrgID p =s orgID) (live (projects d)))).

(** [(orgID, projectID, role)] *)
Definition ResolveUserTenant (userID defaultOrg defaultProject : str)
    : M DB DBErr (str * str * str) :=
  let! r := attempt (query_row (fun _ d => first_membership userID d)) in
  match r with
  | inl ErrNotFound => ret (defaultOrg, defaultProject, "")
  | inl e => throw (wrapDB "repository: resolve user org: " e)
  | inr m =>
      let! pr := attempt (query_row (fun _ d => first_project (om_OrgID m) d)) in
      ret (om_OrgID m, match pr with inr p => prj_ID p | inl _ => defaultProject end, om_Role m)
  end.

Definition org_row (orgID : str) (d : DB) : option Org :=
  head (where_ (fun o => org_ID o =s env_as_uuid orgID) (live (orgs d))).

Definition GetOrgStatus (orgID : str) : M DB DBErr OrgStatus :=
  mapErr (wrapDB "repository: get org status: ")
    (query_row (fun _ d =>
       o ← org_row orgID d;
       Some (mkOrgStatus (org_Status o) (org_SuspendedAt o) (org_SuspendReason o)
               (org_QuotaMaxBytes o)))).

(** [UPDATE organizations SET ... WHERE id=$1 AND deleted_at IS NULL], and
    [ErrNotFound] when no row was affected. *)
Definition update_org (orgID : str) (f : nat -> Org -> Org) : M DB DBErr unit :=
  stmt (fun n d =>
    if exists_ (fun o => org_ID o =s env_as_uuid orgID) (live (orgs d))
    then inr (tt, set_orgs (upd_live (fun o => org_ID o =s env_as_uuid orgID) (f n) (orgs d)) d)
    else inl ErrNotFound).

Definition SuspendOrg (orgID reason : str) : M DB DBErr unit :=
  mapErr (wrapDB "repository: suspend org: ")
    (update_org orgID (fun n o => set_org_SuspendReason reason
       (set_org_SuspendedAt (Some (env_now n)) (set_org_Status "suspended" o)))).

Definition ResumeOrg (orgID : str) : M DB DBErr unit :=
  mapErr (wrapDB "repository: resume org: ")
    (update_org orgID (fun _ o => set_org_SuspendReason ""
       (set_org_SuspendedAt None (set_org_Status "active" o)))).

Definition SetOrgStatus (orgID status : str) : M DB DBErr unit :=
  mapErr (wrapDB "repository: set org status: ")
    (update_org orgID (fun _ o => set_org_Status status o)).

Definition ListOrgIDsByStatus (status : str) : M DB DBErr (list str) :=
  mapErr (wrapDB "repository: list orgs by status: ")
    (query (fun _ d => map org_ID (where_ (fun o => org_Status o =s status) (live (orgs d))))).

Definition SetOrgQuota (orgID : str) (maxBytes : option Z) : M DB DBErr unit :=
  mapErr (wrapDB "repository: set org quota: ")
    (update_org orgID (fun _ o => set_org_QuotaMaxBytes maxBytes o)).

Definition ListOrgIDs : M DB DBErr (list str) :=
  mapErr (wrapDB "repository: list org ids: ")
    (query (fun _ d => map org_ID (asc org_CreatedAt (live (orgs d))))).

(** [row_number() OVER (PARTITION BY k ORDER BY ...) = 1] on an ordered list. *)
Fixpoint first_per {A} (k : A -> str) (seen : list str) (l : list A) : list A :=
  match l with
  | [] => []
  | x :: l' => if bool_decide (k x ∈ seen) then first_per k seen l'
               else x :: first_per k (k x :: seen) l'
  end.

Definition fits64 (z : Z) : bool := (int64_min <=? z)%Z && (z <=? int64_max)%Z.

(** The latest snapshot per bucket, summed; a sum that does not fit an [int64]
    fails to scan. *)
Definition latest_totals (p : UsageSnapshot -> bool) (d : DB) : option (Z * Z) :=
  let rows := first_per us_BucketID [] (desc us_CapturedAt (where_ p (usage d))) in
  let b := sumZ (map us_BytesUsed rows) in
  let o := sumZ (map us_ObjectCount rows) in
  if fits64 b && fits64 o then Some (b, o) else None.

(** Every error is swallowed: the totals are then 0. *)
Definition or_zero (m : M DB DBErr (Z * Z)) : M DB DBErr (Z * Z) :=
  let! r := attempt m in
  ret (match r with inr t => t | inl _ => (0, 0)%Z end).

Definition OrgUsageTotals (orgID : str) : M DB DBErr (Z * Z) :=
  or_zero (query_row (fun _ d => latest_totals (fun u => us_OrgID u =s orgID) d)).

(** * usage.go *)

Definition InsertUsageSnapshot (u : UsageSnapshot) : M DB DBErr unit :=
  mapErr (wrapDB "repository: insert usage snapshot: ")
    (insert (fun _ d => has_id b_ID (us_BucketID u) (all_rows (buckets d)))
            (fun n d => (tt, set_usage (usage d ++ [set_us_CapturedAt (env_now n) u]) d))).

Definition LatestUsageForBucket (bucketID : str) : M DB DBErr (Z * Z) :=
  or_zero (query_row (fun _ d =>
    (fun u => (us_BytesUsed u, us_ObjectCount u)) <$>
      head (desc us_CapturedAt (where_ (fun u => us_BucketID u =s bucketID) (usage d))))).

Record BucketUsageRow := mkBucketUsageRow {
  bur_BucketID : str; bur_Name : str; bur_BytesUsed : Z; bur_ObjectCount : Z;
  bur_QuotaMaxSize : option Z }.

Definition BucketUsageList (projectID : str) : M DB DBErr (list BucketUsageRow) :=
  mapErr (wrapDB "repository: bucket usage list: ")
    (query (fun _ d =>
       u ← first_per us_BucketID []
             (desc us_CapturedAt (where_ (fun u => us_ProjectID u =s projectID) (usage d)));
       b ← where_ (fun b => b_ID b =s us_BucketID u) (live (buckets d));
       [mkBucketUsageRow (us_BucketID u) (b_Name b) (us_BytesUsed u) (us_ObjectCount u)
          (us_QuotaMaxSize u)])).

Definition ProjectUsageTotals (projectID : str) : M DB DBErr (Z * Z) :=
  or_zero (query_row (fun _ d => latest_totals (fun u => us_ProjectID u =s projectID) d)).

(** * org_clusters.go *)

Record OrgCluster := mkOrgCluster {
  oc_StorageClusterID : str; oc_Name : str; oc_Provider : str; oc_Default : bool }.

Definition oc_key (orgID clusterID : str) (r : OrgClusterRow) : bool :=
  (oc_OrgID r =s orgID) && (oc_ClusterID r =s clusterID).

(** The unique index on (org_id) WHERE is_default. *)
Definition default_conflict (orgID clusterID : str) (makeDefault : bool) (d : DB) : bool :=
  makeDefault && exists_ (fun r => (oc_OrgID r =s orgID) && oc_IsDefault r
                                   && negb (oc_ClusterID r =s clusterID)) (org_clusters d).

Definition clear_defaults (orgID : str) (d : DB) : DB :=
  set_org_clusters (upd_rows (fun r => (oc_OrgID r =s orgID) && oc_IsDefault r)
                      (set_oc_IsDefault false) (org_clusters d)) d.

Definition AssignClusterToOrg (orgID clusterID : str) (makeDefault : bool) : M DB DBErr unit :=
  let orgID := env_as_uuid orgID in
  let clusterID := env_as_uuid clusterID in
  do! (if makeDefault
       then mapErr (wrapDB "repository: clear default cluster: ")
              (exec (fun _ d => clear_defaults orgID d))
       else ret tt) in
  mapErr (wrapDB "repository: assign cluster to org: ")
    (insert
       (fun _ d => has_id org_ID orgID (all_rows (orgs d))
                   && has_id cl_ID clusterID (all_rows (clusters d))
                   && negb (default_conflict orgID clusterID makeDefault d))
       (fun n d => (tt,
          if exists_ (oc_key orgID clusterID) (org_clusters d)
          then set_org_clusters (upd_rows (oc_key orgID clusterID)
                 (set_oc_IsDefault makeDefault) (org_clusters d)) d
          else set_org_clusters (org_clusters d ++
                 [mkOrgClusterRow orgID clusterID makeDefault (env_now n)]) d))).

Definition UnassignClusterFromOrg (orgID clusterID : str) : M DB DBErr unit :=
  let orgID := env_as_uuid orgID in
  let clusterID := env_as_uuid clusterID in
  mapErr (wrapDB "repository: unassign cluster: ")
    (stmt (fun _ d =>
       if exists_ (oc_key orgID clusterID) (org_clusters d)
       then inr (tt, set_org_clusters (del_rows (oc_key orgID clusterID) (org_clusters d)) d)
       else inl ErrNotFound)).

Definition default_first (x y : OrgClusterRow) : bool :=
  match oc_IsDefault x, oc_IsDefault y with
  | true, false => true
  | false, true => false
  | _, _ => (oc_CreatedAt x <=? oc_CreatedAt y)%Z
  end.

Definition ListOrgClusters (orgID : str) : M DB DBErr (list OrgCluster) :=
  mapErr (wrapDB "repository: list org clusters: ")
    (query (fun _ d =>
       r ← order_by default_first (where_ (fun r => oc_OrgID r =s env_as_uuid orgID)
                                (org_clusters d));
       c ← where_ (fun c => cl_ID c =s oc_ClusterID r) (live (clusters d));
       [mkOrgCluster (oc_ClusterID r) (cl_Name c) (cl_Provider c) (oc_IsDefault r)])).

Definition default_cluster (orgID : str) (d : DB) : option str :=
  oc_ClusterID <$> head (where_ (fun r => (oc_OrgID r =s orgID) && oc_IsDefault r
                                          && has_id cl_ID (oc_ClusterID r) (live (clusters d)))
                                (org_clusters d)).

Definition DefaultClusterForOrg (orgID : str) : M DB DBErr str :=
  mapErr (wrapDB "repository: default cluster for org: ")
    (query_row (fun _ d => default_cluster orgID d)).

(** * clusters.go *)

Definition GetActiveCluster : M DB DBErr Cluster :=
  mapErr (wrapDB "repository: get cluster: ")
    (query_row (fun _ d => head (asc cl_CreatedAt (live (clusters d))))).

Definition or_default (v dflt : str) : str := if v =s "" then dflt else v.

Definition CreateCluster (c : Cluster) : M DB DBErr str :=
  let c := set_cl_Provider (or_default (cl_Provider c) "garage")
             (set_cl_Mode (or_default (cl_Mode c) "managed")
                (set_cl_Status (or_default (cl_Status c) "healthy") c)) in
  mapErr (wrapDB "repository: create cluster: ")
    (insert (fun n d => negb (has_id cl_ID (env_uuid n) (all_rows (clusters d))))
            (fun n d => (env_uuid n,
               set_clusters (add_live (set_cl_CreatedAt (env_now n)
                                         (set_cl_ID (env_uuid n) c)) (clusters d)) d))).

Definition cluster_row (id : str) (d : DB) : option Cluster :=
  head (where_ (fun c => cl_ID c =s env_as_uuid id) (live (clusters d))).

Definition GetClusterByID (id : str) : M DB DBErr Cluster :=
  mapErr (wrapDB "repository: get cluster: ") (query_row (fun _ d => cluster_row id d)).

Definition ListClusters : M DB DBErr (list Cluster) :=
  mapErr (wrapDB "repository: list clusters: ")
    (query (fun _ d => asc cl_CreatedAt (live (clusters d)))).

(** The cached health payload is written for operators only and not kept here. *)
Definition UpdateClusterStatus (id status : str) : M DB DBErr unit :=
  mapErr (wrapDB "repository: update cluster status: ")
    (exec (fun _ d => set_clusters
       (upd_live (fun c => cl_ID c =s env_as_uuid id) (set_cl_Status status) (clusters d)) d)).

Definition SoftDeleteCluster (id : str) : M DB DBErr unit :=
  exec (fun n d => set_clusters
    (del_live (env_now n) (fun c => cl_ID c =s env_as_uuid id) (clusters d)) d).

Definition CountBucketsInCluster (clusterID : str) : M DB DBErr nat :=
  mapErr (wrapDB "repository: count buckets in cluster: ")
    (query (fun _ d => length (where_ (fun b => b_ClusterID b =s env_as_uuid clusterID)
                                      (live (buckets d))))).

(** * nodes.go *)

Definition node_key (clusterID nodeID : str) (n : StorageNode) : bool :=
  (sn_ClusterID n =s clusterID) && (sn_GarageNodeID n =s nodeID).

Definition UpsertNode (n : StorageNode) : M DB DBErr unit :=
  let n := set_sn_ClusterID (env_as_uuid (sn_ClusterID n)) n in
  mapErr (wrapDB "repository: upsert node: ")
    (insert
       (fun t d => has_id cl_ID (sn_ClusterID n) (all_rows (clusters d))
                   && negb (has_id sn_ID (env_uuid t) (nodes d)))
       (fun t d => (tt,
          if exists_ (node_key (sn_ClusterID n) (sn_GarageNodeID n)) (nodes d)
          then set_nodes (upd_rows (node_key (sn_ClusterID n) (sn_GarageNodeID n))
                 (fun old => set_sn_ID (sn_ID old) n) (nodes d)) d
          else set_nodes (nodes d ++ [set_sn_ID (env_uuid t) n]) d))).

(** NULL (the empty string) sorts last. *)
Definition nulls_last (x y : str) : comparison :=
  if x =s "" then (if y =s "" then Eq else Gt)
  else if y =s "" then Lt else String.compare x y.
Definition node_le (x y : StorageNode) : bool :=
  match nulls_last (sn_Zone x) (sn_Zone y) with
  | Lt => true | Gt => false
  | Eq => match nulls_last (sn_Hostname x) (sn_Hostname y) with
          | Lt => true | Gt => false
          | Eq => String.leb (sn_GarageNodeID x) (sn_GarageNodeID y)
          end
  end.

Definition ListNodesByCluster (clusterID : str) : M DB DBErr (list StorageNode) :=
  mapErr (wrapDB "repository: list nodes: ")
    (query (fun _ d => order_by node_le
       (where_ (fun n => sn_ClusterID n =s env_as_uuid clusterID) (nodes d)))).

Definition stale (clusterID : str) (keep : list str) (n : StorageNode) : bool :=
  (sn_ClusterID n =s clusterID) && negb (bool_decide (sn_GarageNodeID n ∈ keep)).

Definition DeleteStaleNodes (clusterID : str) (keep : list str) : M DB DBErr unit :=
  match keep with
  | [] => ret tt
  | _ => mapErr (wrapDB "repository: delete stale nodes: ")
           (exec (fun _ d => set_nodes (del_rows (stale (env_as_uuid clusterID) keep) (nodes d)) d))
  end.

(** * objects_trash.go *)

Definition InsertTrash (t : TrashItem) : M DB DBErr str :=
  let t := set_t_BucketID (env_as_uuid (t_BucketID t)) t in
  mapErr (wrapDB "repository: insert trash: ")
    (insert
       (fun n d => negb (has_id t_ID (env_uuid n) (trash d))
                   && has_id b_ID (t_BucketID t) (all_rows (buckets d)))
       (fun n d => (env_uuid n,
          set_trash (trash d ++ [set_t_RestoredAt None (set_t_DeletedAt (env_now n)
                                   (set_t_ID (env_uuid n) t))]) d))).

Definition unrestored (t : TrashItem) : bool := bool_decide (t_RestoredAt t = None).

Definition ListTrash (bucketID : str) : M DB DBErr (list TrashItem) :=
  mapErr (wrapDB "repository: list trash: ")
    (query (fun _ d => desc t_DeletedAt
       (where_ (fun t => (t_BucketID t =s env_as_uuid bucketID) && unrestored t) (trash d)))).

Definition trash_row (id : str) (d : DB) : option TrashItem :=
  head (where_ (fun t => (t_ID t =s env_as_uuid id) && unrestored t) (trash d)).

Definition GetTrash (id : str) : M DB DBErr TrashItem :=
  query_row (fun _ d => trash_row id d).

Definition MarkRestored (id : str) : M DB DBErr unit :=
  exec (fun n d => set_trash
    (upd_rows (fun t => t_ID t =s env_as_uuid id) (set_t_RestoredAt (Some (env_now n))) (trash d)) d).

Definition DeleteTrash (id : str) : M DB DBErr unit :=
  exec (fun _ d => set_trash (del_rows (fun t => t_ID t =s env_as_uuid id) (trash d)) d).

Definition DueForPurge (limit : Z) : M DB DBErr (list TrashItem) :=
  let limit := if (limit <=? 0)%Z then 200%Z else limit in
  query (fun n d => take (Z.to_nat limit)
    (where_ (fun t => unrestored t && (t_PurgeAfter t <? env_now n)%Z) (trash d))).

(** * webhooks.go *)

Definition CreateWebhook (orgID bucketID url secret events : str) : M DB DBErr WebhookSub :=
  let bucketID := env_as_uuid bucketID in
  mapErr (wrapDB "repository: create webhook: ")
    (insert
       (fun n d => negb (has_id wh_ID (env_uuid n) (webhooks d))
                   && has_id org_ID orgID (all_rows (orgs d))
                   && has_id b_ID bucketID (all_rows (buckets d)))
       (fun n d =>
          let w := mkWebhookSub (env_uuid n) orgID bucketID url secret events true (env_now n) in
          (w, set_webhooks (webhooks d ++ [w]) d))).

Definition ListWebhooksByBucket (bucketID : str) : M DB DBErr (list WebhookSub) :=
  mapErr (wrapDB "repository: list webhooks: ")
    (query (fun _ d => asc wh_CreatedAt
       (where_ (fun w => wh_BucketID w =s env_as_uuid bucketID) (webhooks d)))).

Definition ListEnabledWebhooksByBucket (bucketID : str) : M DB DBErr (list WebhookSub) :=
  mapErr (wrapDB "repository: list webhooks: ")
    (query (fun _ d => where_ (fun w => (wh_BucketID w =s env_as_uuid bucketID) && wh_Enabled w)
                              (webhooks d))).

Definition DeleteWebhook (id orgID : str) : M DB DBErr unit :=
  mapErr (wrapDB "repository: delete webhook: ")
    (stmt (fun _ d =>
       let p := fun w => (wh_ID w =s env_as_uuid id) && (wh_OrgID w =s orgID) in
       if exists_ p (webhooks d)
       then inr (tt, set_webhooks (del_rows p (webhooks d)) d)
       else inl ErrNotFound)).

(** * migrations_repo.go *)

Definition CreateMigrationJob (j : MigrationJob) : M DB DBErr str :=
  mapErr (wrapDB "repository: create migration job: ")
    (insert
       (fun n d => negb (has_id mj_ID (env_uuid n) (migrations d))
                   && has_id org_ID (mj_OrgID j) (all_rows (orgs d))
                   && has_id b_ID (mj_DestBucketID j) (all_rows (buckets d)))
       (fun n d => (env_uuid n,
          set_migrations (migrations d ++
            [mkMigrationJob (env_uuid n) (mj_OrgID j) (mj_SourceEndpoint j) (mj_SourceRegion j)
               (mj_SourceBucket j) (mj_SourceAccessKey j) (mj_SourceSecretEnc j)
               (mj_DestBucketID j) "pending" 0 0 "" "" (env_now n)]) d))).

Definition job_row (id : str) (d : DB) : option MigrationJob :=
  head (where_ (fun j => mj_ID j =s env_as_uuid id) (migrations d)).

Definition GetMigrationJob (orgID id : str) : M DB DBErr MigrationJob :=
  mapErr (wrapDB "repository: get migration job: ")
    (query_row (fun _ d =>
       head (where_ (fun j => (mj_ID j =s env_as_uuid id) && (mj_OrgID j =s orgID)) (migrations d)))).

Definition GetMigrationJobByID (id : str) : M DB DBErr MigrationJob :=
  mapErr (wrapDB "repository: get migration job: ") (query_row (fun _ d => job_row id d)).

Definition ListMigrationJobs (orgID : str) : M DB DBErr (list MigrationJob) :=
  mapErr (wrapDB "repository: list migration jobs: ")
    (query (fun _ d => take 100 (desc mj_CreatedAt
       (where_ (fun j => mj_OrgID j =s orgID) (migrations d))))).

Definition resumable (j : MigrationJob) : bool :=
  (mj_Status j =s "pending") || (mj_Status j =s "running").

Definition ListResumableMigrationJobIDs : M DB DBErr (list str) :=
  mapErr (wrapDB "repository: list resumable migrations: ")
    (query (fun _ d => map mj_ID (where_ resumable (migrations d)))).

Definition update_job (id : str) (f : MigrationJob -> MigrationJob) (d : DB) : DB :=
  set_migrations (upd_rows (fun j => mj_ID j =s env_as_uuid id) f (migrations d)) d.

Definition UpdateMigrationProgress (id cursor : str) (copiedObjects copiedBytes : Z)
    : M DB DBErr unit :=
  exec (fun _ => update_job id (fun j =>
    set_mj_Status "running" (set_mj_CopiedBytes copiedBytes
      (set_mj_CopiedObjects copiedObjects (set_mj_Cursor cursor j))))).

Definition SetMigrationStatus (id status errMsg : str) : M DB DBErr unit :=
  exec (fun _ => update_job id (fun j => set_mj_Error errMsg (set_mj_Status status j))).

(** * billing.go *)

Definition UpsertBillingCustomer (c : BillingCustomer) : M DB DBErr unit :=
  mapErr (wrapDB "repository: upsert billing customer: ")
    (insert
       (fun _ d => has_id org_ID (bc_OrgID c) (all_rows (orgs d))
                   && negb (exists_ (fun r => (bc_StripeCustomerID r =s bc_StripeCustomerID c)
                                              && negb (bc_OrgID r =s bc_OrgID c)) (billing d)))
       (fun _ d => (tt,
          if has_id bc_OrgID (bc_OrgID c) (billing d)
          then set_billing (upd_rows (fun r => bc_OrgID r =s bc_OrgID c) (fun _ => c)
                              (billing d)) d
          else set_billing (billing d ++ [c]) d))).

Definition GetBillingCustomer (orgID : str) : M DB DBErr BillingCustomer :=
  mapErr (wrapDB "repository: get billing customer: ")
    (query_row (fun _ d => head (where_ (fun c => bc_OrgID c =s orgID) (billing d)))).

Definition OrgByStripeCustomer (customerID : str) : M DB DBErr str :=
  mapErr (wrapDB "repository: org by stripe customer: ")
    (query_row (fun _ d => bc_OrgID <$>
       head (where_ (fun c => bc_StripeCustomerID c =s customerID) (billing d)))).

Definition SetBillingStatus (orgID status : str) : M DB DBErr unit :=
  exec (fun _ d => set_billing
    (upd_rows (fun c => bc_OrgID c =s orgID) (set_bc_Status status) (billing d)) d).

Definition ListBillingOrgIDs : M DB DBErr (list str) :=
  mapErr (wrapDB "repository: list billing orgs: ")
    (query (fun _ d => map bc_OrgID
       (where_ (fun c => negb (bc_Status c =s "canceled")) (billing d)))).

(** INSERT ... ON CONFLICT (idempotency_key) DO NOTHING; was the row new? *)
Definition RecordUsageReport (orgID metric : str) (quantity periodStart periodEnd : Z)
    (idempotencyKey : str) : M DB DBErr bool :=
  mapErr (wrapDB "repository: record usage report: ")
    (insert
       (fun _ d => has_id org_ID orgID (all_rows (orgs d)))
       (fun _ d =>
          if has_id ur_IdempotencyKey idempotencyKey (reports d)
          then (false, d)
          else (true, set_reports (reports d ++
                  [mkUsageReport orgID metric quantity periodStart periodEnd
                     idempotencyKey]) d))).

Definition org_traffic (orgID : str) (since : Z) (d : DB) : list TrafficRow :=
  t ← where_ (fun t => since <=? tr_CapturedAt t)%Z (traffic d);
  b ← where_ (fun b => (b_GarageGlobalAlias b =s tr_Bucket t) && (b_OrgID b =s orgID))
        (live (buckets d));
  [t].

(** [(bytesOut, requests)] *)
Definition TrafficByOrg (orgID : str) (since : Z) : M DB DBErr (Z * Z) :=
  mapErr (wrapDB "repository: traffic by org: ")
    (stmt (fun _ d =>
       let rows := org_traffic orgID since d in
       let out := sumZ (map tr_BytesOut rows) in
       let req := sumZ (map tr_Requests rows) in
       if fits64 out && fits64 req then inr ((out, req), d)
       else inl (DBFail "cannot scan into int64"))).

(** * traffic.go *)

Record TrafficSample := mkTrafficSample {
  ts_ClusterID : str; ts_AccessKeyID : str; ts_Bucket : str; ts_Method : str;
  ts_Requests : Z; ts_BytesIn : Z; ts_BytesOut : Z }.

Definition InsertTrafficSnapshots (samples : list TrafficSample) : M DB DBErr unit :=
  forM_ samples (fun sm =>
    mapErr (wrapDB "repository: insert traffic: ")
      (insert (fun _ d => opt_ref cl_ID (ts_ClusterID sm) (all_rows (clusters d)))
              (fun n d => (tt, set_traffic (traffic d ++
                 [mkTrafficRow (ts_AccessKeyID sm) (ts_Bucket sm) (ts_Method sm)
                    (ts_Requests sm) (ts_BytesIn sm) (ts_BytesOut sm) (env_now n)]) d)))).

(** * tenancy.go *)

Record DefaultTenant := mkDefaultTenant { dt_OrgID : str; dt_ProjectID : str }.

Definition insert_org (name slug : str) : M DB DBErr str :=
  insert
    (fun n d => negb (has_id org_ID (env_uuid n) (all_rows (orgs d)))
                && negb (has_id org_Slug slug (live (orgs d))))
    (fun n d => (env_uuid n,
       set_orgs (add_live (mkOrg (env_uuid n) name slug "active" None "" None (env_now n))
                   (orgs d)) d)).

Definition insert_default_project (orgID : str) : M DB DBErr str :=
  insert
    (fun n d => negb (has_id prj_ID (env_uuid n) (all_rows (projects d)))
                && has_id org_ID orgID (all_rows (orgs d))
                && negb (exists_ (fun p => (prj_OrgID p =s orgID) && (prj_Slug p =s "default"))
                                 (live (projects d))))
    (fun n d => (env_uuid n,
       set_projects (add_live (mkProject (env_uuid n) orgID "Default" "default" (env_now n))
                       (projects d)) d)).

(** [SELECT ...; if ErrNoRows { INSERT ... }] *)
Definition select_or {A} (sel : M DB DBErr A) (ins : M DB DBErr A) (e_sel e_ins : str)
    : M DB DBErr A :=
  let! r := attempt sel in
  match r with
  | inr a => ret a
  | inl ErrNotFound => mapErr (wrapDB e_ins) ins
  | inl e => throw (wrapDB e_sel e)
  end.

Definition EnsureDefaultTenant : M DB DBErr DefaultTenant :=
  transact
    (let! orgID := select_or
       (query_row (fun _ d => org_ID <$>
          head (where_ (fun o => org_Slug o =s "default") (live (orgs d)))))
       (insert_org "Default" "default")
       "repository: lookup default org: " "repository: create default org: " in
     let! projectID := select_or
       (query_row (fun _ d => prj_ID <$>
          head (where_ (fun p => (prj_OrgID p =s orgID) && (prj_Slug p =s "default"))
                       (live (projects d)))))
       (insert_default_project orgID)
       "repository: lookup default project: " "repository: create default project: " in
     ret (mkDefaultTenant orgID projectID))
    "repository: begin: " "repository: commit: ".

(** * signup.go *)

(** [(orgID, projectID, userID)] *)
Definition CreateOrgWithOwner (orgName orgSlug email fullName passwordHash : str)
    : M DB DBErr (str * str * str) :=
  transact
    (let! orgID := mapErr (wrapDB "repository: create org: ") (insert_org orgName orgSlug) in
     let! projectID := mapErr (wrapDB "repository: create project: ")
                         (insert_default_project orgID) in
     let! userID := mapErr (wrapDB "repository: create user: ")
       (insert
          (fun n d => negb (has_id u_ID (env_uuid n) (all_rows (users d)))
                      && negb (exists_ (same_email email) (live (users d))))
          (fun n d => (env_uuid n,
             set_users (add_live (mkUser (env_uuid n) email fullName passwordHash false false
                                    (env_now n) None) (users d)) d))) in
     do! mapErr (wrapDB "repository: create membership: ")
       (insert
          (fun _ d => has_id org_ID orgID (all_rows (orgs d))
                      && has_id u_ID userID (all_rows (users d))
                      && negb (exists_ (is_member orgID userID) (members d)))
          (fun n d => (tt, set_members (members d ++
             [mkMembership orgID userID "owner" (env_now n)]) d))) in
     ret (orgID, projectID, userID))
    "repository: signup begin: " "repository: signup commit: ".

End Store.
End Store.
