(* ===== verification/AccountStore.v ===== *)
(** src/internal/repository, the tables behind accounts and access: api_tokens.go,
    scim_tokens.go, signup.go, identities.go, policies.go, branding.go.

    As in Repository.v, one definition per method of [repository.Store].  The address
    of a sign-up is cast to [inet]: a text Postgres rejects fails the statement, which
    the rate guard of a sign-up ignores. *)
From Stdlib Require Import Ascii.
From S2P Require Import Prelude GoStrings Database Repository.

Module AccountStore.
Section AccountStore.
Context {ENV : Env}.
Import Store.

(** * api_tokens.go *)

Definition CreateAPIToken (userID orgID name tokenHash lastFour : str) (expiresAt : option Z)
    : M DB DBErr str :=
  mapErr (wrapDB "repository: create api token: ")
    (insert
       (fun n d => negb (has_id at_ID (env_uuid n) (all_rows (api_tokens d)))
                   && has_id u_ID userID (all_rows (users d))
                   && opt_ref org_ID orgID (all_rows (orgs d))
                   && negb (has_id at_TokenHash tokenHash (all_rows (api_tokens d))))
       (fun n d => (env_uuid n,
          set_api_tokens (add_live (mkAPIToken (env_uuid n) userID orgID name tokenHash lastFour
                                      [] expiresAt None (env_now n)) (api_tokens d)) d))).

Definition unexpired (now : Z) (t : APIToken) : bool :=
  match at_ExpiresAt t with None => true | Some e => (now <? e)%Z end.

Definition token_user (now : Z) (tokenHash : str) (d : DB) : option User :=
  head (t ← where_ (fun t => (at_TokenHash t =s tokenHash) && unexpired now t)
              (live (api_tokens d));
        where_ (fun u => u_ID u =s at_UserID t) (live (users d))).

(** The time stamp update is best effort. *)
Definition GetUserByAPIToken (tokenHash : str) : M DB DBErr User :=
  let! u := mapErr (wrapDB "repository: get api token: ")
    (query_row (fun n d => set_u_EmailVerified false <$> token_user (env_now n) tokenHash d)) in
  let! _ := attempt (exec (fun n d => set_api_tokens
    (upd_all (fun t => at_TokenHash t =s tokenHash)
       (set_at_LastUsedAt (Some (env_now n))) (api_tokens d)) d)) in
  ret u.

(** The scopes travel as one comma-separated string. *)
Definition read_scopes (t : APIToken) : list str :=
  let scopes := Join (at_Scopes t) "," in
  if scopes =s "" then [] else Split scopes ","%char.

Definition ListAPITokens (userID : str) : M DB DBErr (list (APIToken * list str)) :=
  mapErr (wrapDB "repository: list api tokens: ")
    (query (fun _ d => map (fun t => (t, read_scopes t)) (desc at_CreatedAt
       (where_ (fun t => at_UserID t =s userID) (live (api_tokens d)))))).

Definition SoftDeleteAPIToken (id userID : str) : M DB DBErr unit :=
  exec (fun n d => set_api_tokens
    (del_live (env_now n) (fun t => (at_ID t =s env_as_uuid id) && (at_UserID t =s userID))
       (api_tokens d)) d).

(** * scim_tokens.go *)

Definition CreateSCIMToken (orgID name tokenHash lastFour : str) : M DB DBErr str :=
  mapErr (wrapDB "repository: create scim token: ")
    (insert
       (fun n d => negb (has_id sct_ID (env_uuid n) (all_rows (scim_tokens d)))
                   && has_id org_ID orgID (all_rows (orgs d))
                   && negb (has_id sct_TokenHash tokenHash (live (scim_tokens d))))
       (fun n d => (env_uuid n,
          set_scim_tokens (add_live (mkSCIMToken (env_uuid n) orgID name tokenHash lastFour
                                       (env_now n) None) (scim_tokens d)) d))).

Definition ListSCIMTokens (orgID : str) : M DB DBErr (list SCIMToken) :=
  mapErr (wrapDB "repository: list scim tokens: ")
    (query (fun _ d => desc sct_CreatedAt
       (where_ (fun t => sct_OrgID t =s orgID) (live (scim_tokens d))))).

Definition RevokeSCIMToken (orgID id : str) : M DB DBErr unit :=
  let p t := (sct_ID t =s env_as_uuid id) && (sct_OrgID t =s orgID) in
  mapErr (wrapDB "repository: revoke scim token: ")
    (affecting (fun d => exists_ p (live (scim_tokens d)))
       (fun n d => set_scim_tokens (del_live (env_now n) p (scim_tokens d)) d)).

(** [UPDATE ... RETURNING org_id] *)
Definition ResolveSCIMOrg (tokenHash : str) : M DB DBErr str :=
  let p t := sct_TokenHash t =s tokenHash in
  mapErr (wrapDB "repository: resolve scim org: ")
    (stmt (fun n d =>
       match head (where_ p (live (scim_tokens d))) with
       | None => inl ErrNotFound
       | Some t => inr (sct_OrgID t,
           set_scim_tokens (upd_live p (set_sct_LastUsedAt (Some (env_now n)))
                              (scim_tokens d)) d)
       end)).

(** * signup.go *)

Definition CreateEmailVerification (userID tokenHash : str) (expiresAt : Z) : M DB DBErr unit :=
  mapErr (wrapDB "repository: create email verification: ")
    (insert
       (fun n d => negb (has_id ev_ID (env_uuid n) (email_verifications d))
                   && has_id u_ID userID (all_rows (users d))
                   && negb (has_id ev_TokenHash tokenHash (email_verifications d)))
       (fun n d => (tt, set_email_verifications (email_verifications d ++
          [mkEmailVerification (env_uuid n) userID tokenHash expiresAt None]) d))).

Definition consumable (now : Z) (tokenHash : str) (v : EmailVerification) : bool :=
  (ev_TokenHash v =s tokenHash) && bool_decide (ev_ConsumedAt v = None)
  && (now <? ev_ExpiresAt v)%Z.

Definition ConsumeEmailVerification (tokenHash : str) : M DB DBErr str :=
  transact
    (let! userID := mapErr (wrapDB "repository: consume verification: ")
       (stmt (fun n d =>
          let p := consumable (env_now n) tokenHash in
          match head (where_ p (email_verifications d)) with
          | None => inl ErrNotFound
          | Some v => inr (ev_UserID v,
              set_email_verifications
                (upd_rows p (set_ev_ConsumedAt (Some (env_now n))) (email_verifications d)) d)
          end)) in
     do! mapErr (wrapDB "repository: mark verified: ")
       (exec (fun _ d => set_users
          (upd_all (fun u => u_ID u =s userID) (set_u_EmailVerified true) (users d)) d)) in
     ret userID)
    "repository: verify begin: " "repository: verify commit: ".

(** [$1::inet] of a text that is no address: the statement fails. *)
Definition inet_syntax : DBErr := DBFail "invalid input syntax for type inet".

(** [ip = a], for an address [a]: a NULL address never matches. *)
Definition recent_signup (a : str) (since : Z) (r : SignupAttempt) : bool :=
  negb (sa_IP r =s "") && (sa_IP r =s a) && (since <=? sa_CreatedAt r)%Z.

Definition CountRecentSignups (ip : str) (since : Z) : M DB DBErr nat :=
  mapErr (wrapDB "repository: count signups: ")
    (stmt (fun _ d =>
       match env_inet ip with
       | Some a => inr (length (where_ (recent_signup a since) (signup_attempts d)), d)
       | None => inl inet_syntax
       end)).

(** [NULLIF($1,'')::inet]: the empty text is NULL, which the row has as the empty
    string. *)
Definition nullif_inet (ip : str) : option str := if ip =s "" then Some "" else env_inet ip.

(** The error is dropped inside the method. *)
Definition RecordSignupAttempt (ip email : str) : M DB DBErr unit :=
  let! _ := attempt (stmt (fun n d =>
    match nullif_inet ip with
    | Some a => inr (tt, set_signup_attempts
                           (signup_attempts d ++ [mkSignupAttempt a email (env_now n)]) d)
    | None => inl inet_syntax
    end)) in
  ret tt.

Definition UnverifiedUserByEmail (email : str) : M DB DBErr str :=
  mapErr (wrapDB "repository: unverified user: ")
    (query_row (fun _ d => u_ID <$> head
       (where_ (fun u => same_email email u && negb (u_EmailVerified u)) (live (users d))))).

(** * identities.go *)

Definition identity_of (provider subject : str) (i : UserIdentity) : bool :=
  (ui_Provider i =s provider) && (ui_Subject i =s subject).

Definition GetUserByExternalIdentity (provider subject : str) : M DB DBErr User :=
  let! userID := mapErr (wrapDB "repository: get user by identity: ")
    (query_row (fun _ d => ui_UserID <$>
       head (where_ (identity_of provider subject) (user_identities d)))) in
  GetUserByID userID.

Definition LinkIdentity (userID provider subject : str) : M DB DBErr unit :=
  mapErr (wrapDB "repository: link identity: ")
    (insert
       (fun _ d => has_id u_ID userID (all_rows (users d)))
       (fun _ d => (tt,
          if exists_ (identity_of provider subject) (user_identities d) then d
          else set_user_identities
                 (user_identities d ++ [mkUserIdentity userID provider subject]) d))).

(** * policies.go *)

(** repository.Policy *)
Record Policy := mkPolicy {
  p_ID : str; p_Name : str; p_Template : str; p_Config : gmap str str; p_Enabled : bool;
  p_Roles : list str; p_CreatedAt : Z }.
(** authz.Policy *)
Record AuthzPolicy := mkAuthzPolicy {
  ap_Name : str; ap_Template : str; ap_Roles : list str; ap_Config : gmap str str }.

(** the enumeration [org_member_role] *)
Definition org_member_role (role : str) : bool :=
  bool_decide (role ∈ ["owner"; "admin"; "member"; "viewer"]).

Definition is_binding (policyID role : str) (b : PolicyBinding) : bool :=
  (pb_PolicyID b =s policyID) && (pb_Role b =s role).

Definition bind_role (policyID role : str) : M DB DBErr unit :=
  mapErr (wrapDB "repository: bind policy role: ")
    (insert
       (fun _ d => org_member_role role && has_id pol_ID policyID (policies d))
       (fun _ d => (tt,
          if exists_ (is_binding policyID role) (policy_bindings d) then d
          else set_policy_bindings (policy_bindings d ++ [mkPolicyBinding policyID role]) d))).

(** The policy and its bindings are separate statements, outside a transaction. *)
Definition CreatePolicy (orgID name template : str) (config : gmap str str) (roles : list str)
    : M DB DBErr str :=
  let! id := mapErr (wrapDB "repository: create policy: ")
    (insert
       (fun n d => negb (has_id pol_ID (env_uuid n) (policies d))
                   && has_id org_ID orgID (all_rows (orgs d)))
       (fun n d => (env_uuid n, set_policies (policies d ++
          [mkPolicyRow (env_uuid n) orgID name template config true (env_now n)]) d))) in
  do! forM_ roles (bind_role id) in
  ret id.

Definition org_policy (orgID id : str) (p : PolicyRow) : bool :=
  (pol_ID p =s env_as_uuid id) && (pol_OrgID p =s orgID).

Definition SetPolicyEnabled (orgID id : str) (enabled : bool) : M DB DBErr unit :=
  mapErr (wrapDB "repository: set policy enabled: ")
    (affecting (fun d => exists_ (org_policy orgID id) (policies d))
       (fun _ d => set_policies
          (upd_rows (org_policy orgID id) (set_pol_Enabled enabled) (policies d)) d)).

Definition DeletePolicy (orgID id : str) : M DB DBErr unit :=
  mapErr (wrapDB "repository: delete policy: ")
    (affecting (fun d => exists_ (org_policy orgID id) (policies d))
       (fun _ d => set_policy_bindings
          (del_rows (fun b => pb_PolicyID b =s env_as_uuid id) (policy_bindings d))
          (set_policies (del_rows (org_policy orgID id) (policies d)) d))).

Definition policy_of (d : DB) (p : PolicyRow) : Policy :=
  mkPolicy (pol_ID p) (pol_Name p) (pol_Template p) (pol_Config p) (pol_Enabled p)
    (map pb_Role (where_ (fun b => pb_PolicyID b =s pol_ID p) (policy_bindings d)))
    (pol_CreatedAt p).

(** The query aggregates the roles with [array_agg]. *)
Definition ListPolicies (orgID : str) : M DB DBErr (list Policy) :=
  mapErr (wrapDB "repository: list policies: ")
    (pg_only (query (fun _ d => map (policy_of d) (desc pol_CreatedAt
       (where_ (fun p => pol_OrgID p =s orgID) (policies d)))))).

Definition EnabledPoliciesForAuthz (orgID : str) : M DB DBErr (list AuthzPolicy) :=
  let! rows := ListPolicies orgID in
  ret (map (fun p => mkAuthzPolicy (p_Name p) (p_Template p) (p_Roles p) (p_Config p))
           (where_ p_Enabled rows)).

(** * branding.go *)

Definition GetBranding (orgID : str) : M DB DBErr Branding :=
  mapErr (wrapDB "repository: get branding: ")
    (query_row (fun _ d => head (where_ (fun b => br_OrgID b =s orgID) (org_branding d)))).

(** [lower(custom_domain) = lower($1)]: a NULL domain never matches. *)
Definition has_domain (domain : str) (b : Branding) : bool :=
  negb (br_CustomDomain b =s "") && (ToLower (br_CustomDomain b) =s ToLower domain).

Definition GetBrandingByDomain (domain : str) : M DB DBErr Branding :=
  mapErr (wrapDB "repository: get branding: ")
    (query_row (fun _ d => head (where_ (has_domain domain) (org_branding d)))).

Definition other_domain (b r : Branding) : bool :=
  negb (br_OrgID r =s br_OrgID b) && has_domain (br_CustomDomain b) r.

Definition UpsertBranding (b : Branding) : M DB DBErr unit :=
  mapErr (wrapDB "repository: upsert branding: ")
    (insert
       (fun _ d => has_id org_ID (br_OrgID b) (all_rows (orgs d))
                   && negb (exists_ (other_domain b) (org_branding d)))
       (fun _ d => (tt, set_org_branding
          (if has_id br_OrgID (br_OrgID b) (org_branding d)
           then upd_rows (fun r => br_OrgID r =s br_OrgID b) (fun _ => b) (org_branding d)
           else org_branding d ++ [b]) d))).

Definition DomainRegistered (domain : str) : M DB DBErr bool :=
  mapErr (wrapDB "repository: domain registered: ")
    (query (fun _ d => (0 <? length (where_ (has_domain domain) (org_branding d)))%nat)).

End AccountStore.
End AccountStore.
