(* ===== verification/JobStore.v ===== *)
(** src/internal/repository, the tables behind background jobs and the read models:
    replication.go, backups.go, backup_schedules.go, and the queries of usage.go,
    traffic.go and install.go that only the dashboard uses. *)
From S2P Require Import Prelude GoStrings Database Repository.

Module JobStore.
Section JobStore.
Context {ENV : Env}.
Import Store.

(** * replication.go *)

Definition CreateReplicationJob (orgID srcBucketID dstBucketID : str) : M DB DBErr str :=
  let srcBucketID := env_as_uuid srcBucketID in
  let dstBucketID := env_as_uuid dstBucketID in
  mapErr (wrapDB "repository: create replication job: ")
    (insert
       (fun n d => negb (has_id rj_ID (env_uuid n) (replications d))
                   && has_id org_ID orgID (all_rows (orgs d))
                   && has_id b_ID srcBucketID (all_rows (buckets d))
                   && has_id b_ID dstBucketID (all_rows (buckets d)))
       (fun n d => (env_uuid n, set_replications (replications d ++
          [mkReplicationJob (env_uuid n) orgID srcBucketID dstBucketID "pending" 0 0 0 "" ""
             (env_now n) (env_now n)]) d))).

Definition repl_row (id : str) (d : DB) : option ReplicationJob :=
  head (where_ (fun j => rj_ID j =s id) (replications d)).

(** Every failure is reported as [ErrNotFound]. *)
Definition GetReplicationJobByID (id : str) : M DB DBErr ReplicationJob :=
  mapErr (fun _ => ErrNotFound) (query_row (fun _ d => repl_row id d)).

Definition ListReplicationJobsBySrc (srcBucketID : str) : M DB DBErr (list ReplicationJob) :=
  mapErr (wrapDB "repository: list replication jobs: ")
    (query (fun _ d => take 50 (desc rj_CreatedAt
       (where_ (fun j => rj_SrcBucketID j =s env_as_uuid srcBucketID) (replications d))))).

Definition ListResumableReplicationJobIDs : M DB DBErr (list str) :=
  mapErr (wrapDB "repository: list resumable replications: ")
    (query (fun _ d => map rj_ID
       (where_ (fun j => (rj_Status j =s "pending") || (rj_Status j =s "running"))
          (replications d)))).

Definition update_repl (id : str) (f : ReplicationJob -> ReplicationJob) (d : DB) : DB :=
  set_replications (upd_rows (fun j => rj_ID j =s id) f (replications d)) d.

Definition UpdateReplicationProgress (id cursor : str) (copied skipped copiedBytes : Z)
    : M DB DBErr unit :=
  exec (fun n => update_repl id (fun j =>
    set_rj_Cursor cursor (set_rj_CopiedObjects copied (set_rj_SkippedObjects skipped
      (set_rj_CopiedBytes copiedBytes (set_rj_Status "running"
        (set_rj_UpdatedAt (env_now n) j))))))).

Definition SetReplicationStatus (id status errMsg : str) : M DB DBErr unit :=
  exec (fun n => update_repl id (fun j =>
    set_rj_Status status (set_rj_Error errMsg (set_rj_UpdatedAt (env_now n) j)))).

(** * backups.go *)

Definition insert_backup (orgID kind scheduleID : str) : M DB DBErr str :=
  insert
    (fun n d => negb (has_id bj_ID (env_uuid n) (backup_jobs d))
                && opt_ref org_ID orgID (all_rows (orgs d))
                && opt_ref bs_ID scheduleID (backup_schedules d))
    (fun n d => (env_uuid n, set_backup_jobs (backup_jobs d ++
       [mkBackupJob (env_uuid n) orgID kind "pending" "" 0 "" None None (env_now n)
          scheduleID ""]) d)).

Definition CreateBackupJob (orgID kind : str) : M DB DBErr str :=
  mapErr (wrapDB "repository: create backup job: ") (insert_backup orgID kind "").

Definition update_backup (id : str) (f : BackupJob -> BackupJob) (d : DB) : DB :=
  set_backup_jobs (upd_rows (fun j => bj_ID j =s id) f (backup_jobs d)) d.

Definition MarkBackupRunning (id : str) : M DB DBErr unit :=
  exec (fun n => update_backup id (fun j =>
    set_bj_Status "running" (set_bj_StartedAt (Some (env_now n)) j))).

Definition FinishBackupJob (id status path : str) (size : Z) (errMsg : str) : M DB DBErr unit :=
  mapErr (wrapDB "repository: finish backup job: ")
    (exec (fun n => update_backup id (fun j =>
       set_bj_Status status (set_bj_Path path (set_bj_SizeBytes size (set_bj_Error errMsg
         (set_bj_FinishedAt (Some (env_now n)) j))))))).

Definition backup_row (id : str) (d : DB) : option BackupJob :=
  head (where_ (fun j => bj_ID j =s env_as_uuid id) (backup_jobs d)).

Definition GetBackupJob (id : str) : M DB DBErr BackupJob :=
  mapErr (wrapDB "repository: get backup job: ") (query_row (fun _ d => backup_row id d)).

Definition ListBackupJobs (orgID : str) (limit : Z) : M DB DBErr (list BackupJob) :=
  let limit := if (limit <=? 0)%Z || (200 <? limit)%Z then 50%Z else limit in
  mapErr (wrapDB "repository: list backup jobs: ")
    (query (fun _ d => take (Z.to_nat limit) (desc bj_CreatedAt
       (where_ (fun j => bj_OrgID j =s orgID) (backup_jobs d))))).

(** * backup_schedules.go *)

(** The columns are [integer]: Postgres rejects what does not fit in 32 bits. *)
Definition int4_ok (z : Z) : bool :=
  match env_driver with
  | Postgres => (- 2 ^ 31 <=? z)%Z && (z <? 2 ^ 31)%Z
  | SQLite => true
  end.
(** [make_interval(mins => m)], in nanoseconds *)
Definition make_interval (mins : Z) : Z := (mins * 60 * 1000000000)%Z.

Definition CreateBackupSchedule (orgID : str) (intervalMin retention : Z) (offsite : bool)
    : M DB DBErr str :=
  mapErr (wrapDB "repository: create backup schedule: ")
    (pg_only (insert
       (fun n d => negb (has_id bs_ID (env_uuid n) (backup_schedules d))
                   && opt_ref org_ID orgID (all_rows (orgs d))
                   && int4_ok intervalMin && int4_ok retention)
       (fun n d => (env_uuid n, set_backup_schedules (backup_schedules d ++
          [mkBackupSchedule (env_uuid n) orgID true intervalMin retention offsite
             (env_now n + make_interval intervalMin) None (env_now n)]) d)))).

Definition ListBackupSchedules (orgID : str) : M DB DBErr (list BackupSchedule) :=
  mapErr (wrapDB "repository: list backup schedules: ")
    (query (fun _ d => asc bs_CreatedAt
       (where_ (fun b => bs_OrgID b =s orgID) (backup_schedules d)))).

Definition org_schedule (id orgID : str) (b : BackupSchedule) : bool :=
  (bs_ID b =s env_as_uuid id) && (bs_OrgID b =s orgID).

Definition UpdateBackupSchedule (id orgID : str) (enabled : bool) (intervalMin retention : Z)
    (offsite : bool) : M DB DBErr unit :=
  stmt (fun _ d =>
    if negb (int4_ok intervalMin && int4_ok retention)
    then inl (DBFail "is out of range for type integer"%string)
    else if exists_ (org_schedule id orgID) (backup_schedules d)
    then inr (tt, set_backup_schedules (upd_rows (org_schedule id orgID)
           (fun b => set_bs_Enabled enabled (set_bs_IntervalMinutes intervalMin
              (set_bs_RetentionCount retention (set_bs_OffsiteEnabled offsite b))))
           (backup_schedules d)) d)
    else inl ErrNotFound).

(** [backup_jobs.schedule_id] references the schedule without an [ON DELETE] rule. *)
Definition DeleteBackupSchedule (id orgID : str) : M DB DBErr unit :=
  stmt (fun _ d =>
    if negb (exists_ (org_schedule id orgID) (backup_schedules d)) then inl ErrNotFound
    else if has_id bj_ScheduleID (env_as_uuid id) (backup_jobs d)
    then inl (DBFail "violates foreign key constraint"%string)
    else inr (tt, set_backup_schedules
                    (del_rows (org_schedule id orgID) (backup_schedules d)) d)).

Definition due (now : Z) (b : BackupSchedule) : bool :=
  bs_Enabled b && (bs_NextRunAt b <=? now)%Z.

Definition DueBackupSchedules : M DB DBErr (list BackupSchedule) :=
  mapErr (wrapDB "repository: due backup schedules: ")
    (query (fun n d => where_ (due (env_now n)) (backup_schedules d))).

Definition MarkScheduleRan (id : str) (intervalMin : Z) : M DB DBErr unit :=
  pg_only (exec (fun n d => set_backup_schedules
    (upd_rows (fun b => bs_ID b =s id)
       (fun b => set_bs_LastRunAt (Some (env_now n))
          (set_bs_NextRunAt (env_now n + make_interval intervalMin) b))
       (backup_schedules d)) d)).

Definition succeeded (orgID : str) (j : BackupJob) : bool :=
  (bj_OrgID j =s orgID) && (bj_Status j =s "succeeded") && negb (bj_Path j =s "").

(** [OFFSET] without [LIMIT] is Postgres syntax. *)
Definition SucceededBackupPathsBeyond (orgID : str) (keep : Z) : M DB DBErr (list str) :=
  mapErr (wrapDB "repository: prune list: ")
    (pg_only (query (fun _ d => map bj_Path (drop (Z.to_nat keep) (desc bj_CreatedAt
       (where_ (succeeded orgID) (backup_jobs d))))))).

Definition CreateBackupJobForSchedule (orgID scheduleID : str) : M DB DBErr str :=
  mapErr (wrapDB "repository: create scheduled backup job: ")
    (insert_backup orgID "metadata" scheduleID).

Definition SetBackupOffsiteURI (id uri : str) : M DB DBErr unit :=
  exec (fun _ => update_backup id (set_bj_OffsiteURI uri)).

(** * usage.go *)

Record StoragePoint := mkStoragePoint { sp_TS : Z; sp_BytesUsed : Z; sp_ObjectCount : Z }.

(** The start of the interval of [step] seconds a time falls in. *)
Definition interval_of (step t : Z) : Z :=
  (t / (step * 1000000000) * (step * 1000000000))%Z.

(** The snapshots [row_number() = 1]: the latest of its interval and bucket. *)
Definition latest_in (step ts : Z) (rows : list UsageSnapshot) : list UsageSnapshot :=
  let here := where_ (fun u => interval_of step (us_CapturedAt u) =? ts)%Z rows in
  b ← remove_dups (map us_BucketID here);
  option_list (head (desc us_CapturedAt (where_ (fun u => us_BucketID u =s b) here))).

Definition series (step : Z) (rows : list UsageSnapshot) : list StoragePoint :=
  map (fun ts => let l := latest_in step ts rows in
                 mkStoragePoint ts (sumZ (map us_BytesUsed l)) (sumZ (map us_ObjectCount l)))
      (asc id (remove_dups (map (fun u => interval_of step (us_CapturedAt u)) rows))).

(** SQLite compares with the time cut to seconds. *)
Definition since_param (since : Z) : Z :=
  match env_driver with Postgres => since | SQLite => (since / 1000000000 * 1000000000)%Z end.

Definition StorageSeries (projectID : str) (since stepSeconds : Z)
    : M DB DBErr (list StoragePoint) :=
  mapErr (wrapDB "repository: storage series: ")
    (stmt (fun _ d =>
       let rows := where_ (fun u => (us_ProjectID u =s projectID)
                                    && (since_param since <=? us_CapturedAt u)%Z) (usage d) in
       let pts := series stepSeconds rows in
       if forallb (fun p => fits64 (sp_BytesUsed p) && fits64 (sp_ObjectCount p)) pts
       then inr (pts, d) else inl (DBFail "scan: value out of range"%string))).

(** * traffic.go *)

Record TrafficKeyRow := mkTrafficKeyRow {
  tk_AccessKeyID : str; tk_KeyName : str; tk_Requests : Z; tk_BytesIn : Z; tk_BytesOut : Z }.

(** [traffic_snapshots LEFT JOIN access_keys] *)
Definition traffic_join (since : Z) (d : DB) : list (str * TrafficRow) :=
  t ← where_ (fun t => since <=? tr_CapturedAt t)%Z (traffic d);
  match where_ (fun k => k_GarageAccessKeyID k =s tr_AccessKeyID t) (live (keys d)) with
  | [] => [("", t)]
  | ks => map (fun k => (k_Name k, t)) ks
  end.

Definition traffic_group (rows : list (str * TrafficRow)) (g : str * str) : TrafficKeyRow :=
  let mine := map snd (where_ (fun r => (tr_AccessKeyID (snd r) =s fst g)
                                        && (fst r =s snd g)) rows) in
  mkTrafficKeyRow (fst g) (snd g) (sumZ (map tr_Requests mine)) (sumZ (map tr_BytesIn mine))
    (sumZ (map tr_BytesOut mine)).

Definition TrafficByKey (since : Z) : M DB DBErr (list TrafficKeyRow) :=
  mapErr (wrapDB "repository: traffic by key: ")
    (stmt (fun _ d =>
       let rows := traffic_join since d in
       let out := desc tk_BytesOut (map (traffic_group rows)
         (remove_dups (map (fun r => (tr_AccessKeyID (snd r), fst r)) rows))) in
       if forallb (fun r => fits64 (tk_Requests r) && fits64 (tk_BytesIn r)
                            && fits64 (tk_BytesOut r)) out
       then inr (out, d) else inl (DBFail "bigint out of range"%string))).

(** * install.go *)

Definition GetInstallStep : M DB DBErr str := query (fun _ d => install_step d).

End JobStore.
End JobStore.
