(* ===== verification/SqlRows.v ===== *)
(** src/internal/repository: the text of the INSERT statements and column lists, the
    arguments they are given and the [scan] functions that read rows back, with the
    column types and defaults of db/migrations.

    Repository.v, JobStore.v and AccountStore.v read an insert followed by a select as
    the row they add to a table.  Here the text of the statements is parsed and
    evaluated, down to the numbered parameters, casts, NULLIF and COALESCE, and shown
    to give that row.  Whether a text is an enumeration value or a uuid is not checked,
    as in the model of the tables (a text that is neither fails the statement); a uuid is
    stored in the spelling [uuid_in] gives its text. *)
From Stdlib Require Import Ascii.
From S2P Require Import Prelude GoStrings Database Repository AccountStore JobStore.
#[local] Open Scope string_scope.

Module SqlRows.

(** ** Expressions *)

Inductive Expr :=
  | EColumn (c : str) | EParam (n : nat) | ELit (s : str) | ENow
  | ENowPlus (mins : Expr) | ECast (e : Expr) (ty : str) | ENullIf (a b : Expr) | ECoalesce (a b : Expr).

(** The parts of a list between the commas outside parentheses. *)
Fixpoint split_top (depth : nat) (acc : str) (s : str) : list str :=
  match s with
  | "" => [acc]
  | String c s' =>
      if Ascii.eqb c "(" then split_top (S depth) (acc ++ String c "") s'
      else if Ascii.eqb c ")" then split_top (pred depth) (acc ++ String c "") s'
      else if Ascii.eqb c "," && Nat.eqb depth 0 then acc :: split_top depth "" s'
      else split_top depth (acc ++ String c "") s'
  end.
Definition items (s : str) : list str := map TrimSpace (split_top 0 "" s).

(** What stands before the parenthesis that closes here, and after it. *)
Fixpoint until_close (depth : nat) (s : str) : option (str * str) :=
  match s with
  | "" => None
  | String c s' =>
      if Ascii.eqb c ")" then
        match depth with
        | O => Some ("", s')
        | S d => '(a, r) ← until_close d s'; Some (String c a, r)
        end
      else '(a, r) ← until_close (if Ascii.eqb c "(" then S depth else depth) s'; Some (String c a, r)
  end.
(** The next parenthesised text, and what follows it. *)
Fixpoint parens (s : str) : option (str * str) :=
  match s with
  | "" => None
  | String c s' => if Ascii.eqb c "(" then until_close 0 s' else parens s'
  end.
(** The cast of an expression: what stands before and after the first [::] outside
    parentheses. *)
Fixpoint cut_cast (depth : nat) (s : str) : option (str * str) :=
  match s with
  | "" => None
  | String c s' =>
      if Nat.eqb depth 0 && HasPrefix s "::" then Some ("", TrimPrefix s "::")
      else
        let depth := if Ascii.eqb c "(" then S depth else if Ascii.eqb c ")" then pred depth else depth in
        '(a, ty) ← cut_cast depth s'; Some (String c a, ty)
  end.

Definition plus_interval : str := "now() + make_interval(mins => ".
Fixpoint parse_expr (fuel : nat) (s : str) : option Expr :=
  match fuel with
  | O => None
  | S fuel =>
      match cut_cast 0 s with
      | Some (e, ty) => e ← parse_expr fuel e; Some (ECast e ty)
      | None =>
          if s =s "now()" then Some ENow
          else if HasPrefix s plus_interval then
            let e := TrimPrefix s plus_interval in
            e ← parse_expr fuel (str_take (pred (String.length e)) e); Some (ENowPlus e)
          else if HasPrefix s "NULLIF(" || HasPrefix s "COALESCE(" then
            '(args, _) ← parens s;
            match items args with
            | [a; b] =>
                a ← parse_expr fuel a; b ← parse_expr fuel b;
                Some (if HasPrefix s "NULLIF(" then ENullIf a b else ECoalesce a b)
            | _ => None
            end
          else match s with
               | String "$" n => z ← Atoi n; Some (EParam (Z.to_nat z))
               | String "'" t => Some (ELit (str_take (pred (String.length t)) t))
               | _ => Some (EColumn s)
               end
      end
  end.
(** Expressions are nested at most three deep. *)
Definition parse_list (s : str) : option (list Expr) := mapM (parse_expr 4) (items s).

(** INSERT INTO t (columns) VALUES (values) ...; what follows the values. *)
Definition parse_insert (s : str) : option (list str * list Expr * str) :=
  '(cols, rest) ← parens s;
  '(vals, rest) ← parens rest;
  vals ← parse_list vals;
  Some (items cols, vals, rest).

(** ** Values *)

Inductive Sql :=
  | SNull | SText (s : str) | SUuid (s : str) | SEnum (s : str) | SBool (b : bool)
  | SInt (z : Z) | STime (t : Z) | SBytes (s : str).

Section Statements.
(** [::uuid]: the uuid a text spells *)
Variable uuid_in : str -> str.

Definition nullif (s : str) : Sql := if s =s "" then SNull else SText s.
Definition cast (ty : str) (v : Sql) : option Sql :=
  match v with
  | SNull => Some SNull
  | SText s =>
      if ty =s "text" then Some (SText s) else if ty =s "uuid" then Some (SUuid (uuid_in s)) else Some (SEnum s)
  | SUuid s => if (ty =s "text") then Some (SText s) else None
  | SEnum s => if (ty =s "text") then Some (SText s) else None
  | _ => None
  end.
Definition coalesce (a b : Sql) : Sql := match a with SNull => b | _ => a end.

(** A row of a table, by column name. *)
Definition Row : Type := list (str * Sql).
Definition column (r : Row) (c : str) : option Sql := snd <$> head (where_ (fun kv => fst kv =s c) r).

(** The value of an expression at time [now]; the flag says it has no type of its own
    yet (a bare parameter or literal) and takes that of the column it goes to. *)
Fixpoint eval (now : Z) (args : list Sql) (r : Row) (e : Expr) : option (bool * Sql) :=
  match e with
  | EColumn c => v ← column r c; Some (false, v)
  | EParam n => v ← args !! pred n; Some (true, v)
  | ELit s => Some (true, SText s)
  | ENow => Some (false, STime now)
  | ENowPlus e =>
      match eval now args r e with
      | Some (_, SInt m) => Some (false, STime (now + JobStore.make_interval m))
      | _ => None
      end
  | ECast e ty => '(_, v) ← eval now args r e; v ← cast ty v; Some (false, v)
  | ENullIf a b =>
      match eval now args r a, eval now args r b with
      | Some (_, SText s), Some (_, SText "") => Some (false, nullif s)
      | _, _ => None
      end
  | ECoalesce a b =>
      '(_, a) ← eval now args r a; '(_, b) ← eval now args r b; Some (false, coalesce a b)
  end.

(** ** Tables *)

Inductive Ty := Tuuid | Ttext | Tenum | Tbool | Tint | Ttime | Tbytea.
Inductive Default := DNull | DUuid | DNow | DVal (v : Sql).
Record Column := mkColumn { c_Name : str; c_Ty : Ty; c_NotNull : bool; c_Default : Default }.

(** The value a column takes. *)
Definition assign (ty : Ty) (v : bool * Sql) : option Sql :=
  match ty, v with
  | Tuuid, (true, SText s) => Some (SUuid (uuid_in s))
  | Tuuid, (_, SUuid s) => Some (SUuid s)
  | Ttext, (_, SText s) => Some (SText s)
  | Tenum, (true, SText s) => Some (SEnum s)
  | Tenum, (_, SEnum s) => Some (SEnum s)
  | Tbool, (_, SBool b) => Some (SBool b)
  | Tint, (_, SInt z) => Some (SInt z)
  | Ttime, (_, STime t) => Some (STime t)
  | Tbytea, (_, SBytes s) => Some (SBytes s)
  | _, (_, SNull) => Some SNull
  | _, _ => None
  end.
Definition not_null (c : Column) (v : Sql) : option Sql :=
  if c_NotNull c then match v with SNull => None | _ => Some v end else Some v.
Definition default_of (now : Z) (uuid : str) (d : Default) : Sql :=
  match d with DNull => SNull | DUuid => SUuid uuid | DNow => STime now | DVal v => v end.

(** One value for every column of the table. *)
Definition insert_row (schema : list Column) (now : Z) (uuid : str) (text : str) (args : list Sql) : option Row :=
  '(cols, vals, _) ← parse_insert text;
  if negb (Nat.eqb (length cols) (length vals)
           && forallb (fun c => existsb (fun k => c_Name k =s c) schema) cols) then None
  else
    mapM (fun c =>
      v ← match head (where_ (fun kv => fst kv =s c_Name c) (zip cols vals)) with
          | Some (_, e) => v ← eval now args [] e; assign (c_Ty c) v
          | None => Some (default_of now uuid (c_Default c))
          end;
      v ← not_null c v;
      Some (c_Name c, v)) schema.
Definition select (cols : str) (r : Row) : option (list Sql) :=
  es ← parse_list cols; mapM (fun e => snd <$> eval 0 [] r e) es.

(** ON CONFLICT (key) DO UPDATE SET c=EXCLUDED.c, ..., c=now(): the stored row [old] takes
    the values of the row that was to be inserted. *)
Definition after_set (s : str) : str :=
  match Index s " SET" with Some i => str_drop (i + 4) s | None => "" end.
Definition set_column (now : Z) (new : Row) (r : option Row) (assignment : str) : option Row :=
  r ← r;
  i ← IndexByte assignment "=";
  let c := str_take i assignment in
  let e := str_drop (S i) assignment in
  v ← if e =s "EXCLUDED." ++ c then column new c else if e =s "now()" then Some (STime now) else None;
  Some (map (fun kv => if fst kv =s c then (c, v) else kv) r).
Definition upsert_row (schema : list Column) (now : Z) (uuid : str) (text : str) (args : list Sql)
  (old : Row) : option Row :=
  '(_, _, rest) ← parse_insert text;
  new ← insert_row schema now uuid text args;
  foldl (set_column now new) (Some old) (items (after_set rest)).

End Statements.

(** ** Scan *)

Definition Scan (A : Type) : Type := list Sql -> option (A * list Sql).
Definition dest {A} (f : Sql -> option A) : Scan A :=
  fun l => match l with v :: l' => a ← f v; Some (a, l') | [] => None end.
Definition string_ : Scan str := dest (fun v => match v with SText s => Some s | _ => None end).
Definition bool_ : Scan bool := dest (fun v => match v with SBool b => Some b | _ => None end).
Definition int_ : Scan Z := dest (fun v => match v with SInt z => Some z | _ => None end).
Definition time_ : Scan Z := dest (fun v => match v with STime t => Some t | _ => None end).
(** Pointers take NULL as nil, and so does a byte slice (which is empty here). *)
Definition string_ptr : Scan (option str) :=
  dest (fun v => match v with SText s => Some (Some s) | SNull => Some None | _ => None end).
Definition int_ptr : Scan (option Z) :=
  dest (fun v => match v with SInt z => Some (Some z) | SNull => Some None | _ => None end).
Definition time_ptr : Scan (option Z) :=
  dest (fun v => match v with STime t => Some (Some t) | SNull => Some None | _ => None end).
Definition bytes_ : Scan str := dest (fun v => match v with SBytes s => Some s | SNull => Some "" | _ => None end).
Definition scan_bind {A C} (m : Scan A) (k : A -> Scan C) : Scan C :=
  fun l => '(a, l) ← m l; k a l.
Definition scan_ret {A} (a : A) : Scan A := fun l => Some (a, l).
Declare Scope scan_scope.
Notation "'let%' x := m 'in' k" := (scan_bind m (fun x => k))
  (at level 10, x binder, m at level 100, k at level 200, only parsing) : scan_scope.
#[local] Open Scope scan_scope.

(** [row.Scan]: no row is [ErrNotFound] (which a caller of [scanReplication] makes of any
    error), and every column has its destination. *)
Definition scan {A} (m : Scan A) (row : option (list Sql)) : DBErr + A :=
  match row with
  | None => inl ErrNotFound
  | Some l => match m l with Some (a, []) => inr a | _ => inl (DBFail "cannot scan") end
  end.

(** Go values as arguments: a nil pointer or slice is NULL. *)
Definition opt_int (z : option Z) : Sql := match z with Some z => SInt z | None => SNull end.
Definition byte_arg (s : str) : Sql := if s =s "" then SNull else SBytes s.

(** ** buckets.go *)

Definition uuid_col (name : str) (notnull : bool) : Column := mkColumn name Tuuid notnull DNull.
Definition id_col : Column := mkColumn "id" Tuuid true DUuid.
Definition text_col (name : str) (notnull : bool) : Column := mkColumn name Ttext notnull DNull.
Definition now_col (name : str) : Column := mkColumn name Ttime true DNow.
Definition time_col (name : str) : Column := mkColumn name Ttime false DNull.

(** The tables leave out the jsonb columns, which default to NULL and which no statement
    below names. *)
Definition buckets_table : list Column :=
  [id_col; uuid_col "org_id" true; uuid_col "project_id" true; uuid_col "storage_cluster_id" true;
   text_col "name" true; text_col "garage_bucket_id" true; text_col "garage_global_alias" true;
   mkColumn "visibility" Tenum true (DVal (SEnum "private"));
   mkColumn "website_enabled" Tbool true (DVal (SBool false));
   mkColumn "website_index_doc" Ttext true (DVal (SText "index.html")); text_col "website_error_doc" false;
   mkColumn "quota_max_size" Tint false DNull; mkColumn "quota_max_objects" Tint false DNull;
   now_col "created_at"; now_col "updated_at"; time_col "deleted_at"].

Definition bucketCols : str :=
"id::text, org_id::text, project_id::text, storage_cluster_id::text,
       name, garage_bucket_id, garage_global_alias, visibility::text,
       website_enabled, website_index_doc, COALESCE(website_error_doc,''),
       quota_max_size, quota_max_objects, created_at".

Definition scanBucket : option (list Sql) -> DBErr + Bucket := scan (
  let% id := string_ in let% org := string_ in let% project := string_ in let% cluster := string_ in
  let% name := string_ in let% gid := string_ in let% alias := string_ in let% visibility := string_ in
  let% website := bool_ in let% index := string_ in let% err := string_ in
  let% size := int_ptr in let% objects := int_ptr in let% created := time_ in
  scan_ret (mkBucket id org project cluster name gid alias visibility website index err size objects created)).

Definition insertBucket : str :=
"INSERT INTO buckets
  (org_id, project_id, storage_cluster_id, name, garage_bucket_id, garage_global_alias,
   visibility, website_enabled, website_index_doc, quota_max_size, quota_max_objects)
VALUES ($1::uuid,$2::uuid,$3::uuid,$4,$5,$6,$7::bucket_visibility,$8,$9,$10,$11)
RETURNING id::text".
Definition bucketArgs (b : Bucket) : list Sql :=
  [SText (b_OrgID b); SText (b_ProjectID b); SText (b_ClusterID b); SText (b_Name b);
   SText (b_GarageBucketID b); SText (b_GarageGlobalAlias b);
   SText (if b_Visibility b =s "" then "private" else b_Visibility b); SBool (b_WebsiteEnabled b);
   SText (if b_WebsiteIndexDoc b =s "" then "index.html" else b_WebsiteIndexDoc b);
   opt_int (b_QuotaMaxSize b); opt_int (b_QuotaMaxObjects b)].

(** ** keys.go *)

Definition access_keys_table : list Column :=
  [id_col; uuid_col "org_id" true; uuid_col "project_id" false; uuid_col "storage_cluster_id" true;
   text_col "name" true; text_col "garage_access_key_id" true; mkColumn "secret_hash" Tbytea true DNull;
   text_col "secret_last_four" false; time_col "secret_revealed_at";
   mkColumn "can_create_bucket" Tbool true (DVal (SBool false)); time_col "expires_at"; time_col "last_used_at";
   now_col "created_at"; now_col "updated_at"; time_col "deleted_at"].
Definition keyCols : str :=
"id::text, org_id::text, COALESCE(project_id::text,''), storage_cluster_id::text,
       name, garage_access_key_id, COALESCE(secret_last_four,''), can_create_bucket, created_at".
(** The hash of the secret is not read back. *)
Definition scanKey : option (list Sql) -> DBErr + AccessKey := scan (
  let% id := string_ in let% org := string_ in let% project := string_ in let% cluster := string_ in
  let% name := string_ in let% gid := string_ in let% four := string_ in let% create := bool_ in
  let% created := time_ in
  scan_ret (mkAccessKey id org project cluster name gid four create created "")).
Definition insertKey : str :=
"INSERT INTO access_keys
  (org_id, project_id, storage_cluster_id, name, garage_access_key_id,
   secret_hash, secret_last_four, can_create_bucket, secret_revealed_at)
VALUES ($1::uuid, NULLIF($2,'')::uuid, $3::uuid, $4, $5, $6, NULLIF($7,''), $8, now())
RETURNING id::text".
Definition keyArgs (k : AccessKey) (secretHash : str) : list Sql :=
  [SText (k_OrgID k); SText (k_ProjectID k); SText (k_ClusterID k); SText (k_Name k);
   SText (k_GarageAccessKeyID k); SBytes secretHash; SText (k_SecretLastFour k); SBool (k_CanCreateBucket k)].

(** ** clusters.go *)

(** With mode of 0010, which also made rpc_secret_enc nullable, and 0011, which made
    admin_token_enc so. *)
Definition storage_clusters_table : list Column :=
  [id_col; text_col "name" true; mkColumn "provider" Tenum true (DVal (SEnum "garage"));
   text_col "s3_endpoint" true; text_col "admin_endpoint" true;
   mkColumn "s3_region" Ttext true (DVal (SText "garage")); text_col "web_endpoint" false;
   text_col "garage_version" false; mkColumn "admin_api_version" Ttext true (DVal (SText "v2"));
   mkColumn "rpc_secret_enc" Tbytea false DNull; mkColumn "admin_token_enc" Tbytea false DNull;
   mkColumn "metrics_token_enc" Tbytea false DNull; text_col "system_s3_access_key_id" false;
   mkColumn "system_s3_secret_enc" Tbytea false DNull;
   mkColumn "db_engine" Ttext true (DVal (SText "sqlite")); mkColumn "replication_factor" Tint true (DVal (SInt 1));
   mkColumn "status" Tenum true (DVal (SEnum "provisioning")); time_col "last_health_at";
   now_col "created_at"; now_col "updated_at"; time_col "deleted_at";
   mkColumn "mode" Tenum true (DVal (SEnum "managed"))].
Definition clusterCols : str :=
"id::text, name, provider::text, mode::text, s3_endpoint, admin_endpoint, s3_region,
       COALESCE(web_endpoint,''), COALESCE(garage_version,''),
       rpc_secret_enc, admin_token_enc, metrics_token_enc,
       COALESCE(system_s3_access_key_id,''), system_s3_secret_enc,
       db_engine, replication_factor, status::text".
(** The creation time is not read back. *)
Definition scanCluster : option (list Sql) -> DBErr + Cluster := scan (
  let% id := string_ in let% name := string_ in let% provider := string_ in let% mode := string_ in
  let% s3 := string_ in let% admin := string_ in let% region := string_ in let% web := string_ in
  let% version := string_ in let% rpc := bytes_ in let% token := bytes_ in let% metrics := bytes_ in
  let% sysid := string_ in let% secret := bytes_ in let% engine := string_ in let% factor := int_ in
  let% status := string_ in
  scan_ret (mkCluster id name provider mode s3 admin region web version rpc token metrics sysid secret
              engine factor status 0)).
Definition insertCluster : str :=
"INSERT INTO storage_clusters
  (name, provider, mode, s3_endpoint, admin_endpoint, s3_region, web_endpoint, garage_version,
   rpc_secret_enc, admin_token_enc, metrics_token_enc,
   system_s3_access_key_id, system_s3_secret_enc,
   db_engine, replication_factor, status)
VALUES ($1, $2::provider_type, $3::cluster_mode, $4, $5, $6, NULLIF($7,''), NULLIF($8,''),
        $9, $10, $11, NULLIF($12,''), $13, $14, $15, $16::cluster_status)
RETURNING id::text".
Definition clusterArgs (c : Cluster) : list Sql :=
  [SText (cl_Name c); SText (Store.or_default (cl_Provider c) "garage");
   SText (Store.or_default (cl_Mode c) "managed"); SText (cl_S3Endpoint c); SText (cl_AdminEndpoint c);
   SText (cl_S3Region c); SText (cl_WebEndpoint c); SText (cl_GarageVersion c); byte_arg (cl_RPCSecretEnc c);
   byte_arg (cl_AdminTokenEnc c); byte_arg (cl_MetricsTokenEnc c); SText (cl_SystemS3AccessKeyID c);
   byte_arg (cl_SystemS3SecretEnc c); SText (cl_DBEngine c); SInt (cl_ReplicationFactor c);
   SText (Store.or_default (cl_Status c) "healthy")].

(** ** objects_trash.go *)

Definition object_trash_table : list Column :=
  [id_col; uuid_col "bucket_id" true; uuid_col "org_id" true; text_col "original_key" true;
   text_col "trash_key" true; mkColumn "size_bytes" Tint true (DVal (SInt 0)); now_col "deleted_at";
   mkColumn "purge_after" Ttime true DNull; time_col "restored_at"].
Definition trashCols : str :=
"id::text, bucket_id::text, org_id::text, original_key, trash_key, size_bytes, deleted_at, purge_after".
(** The queries read unrestored items only. *)
Definition scanTrash : option (list Sql) -> DBErr + TrashItem := scan (
  let% id := string_ in let% bucket := string_ in let% org := string_ in let% key := string_ in
  let% tkey := string_ in let% size := int_ in let% deleted := time_ in let% purge := time_ in
  scan_ret (mkTrashItem id bucket org key tkey size deleted purge None)).
Definition insertTrash : str :=
"INSERT INTO object_trash (bucket_id, org_id, original_key, trash_key, size_bytes, purge_after)
		 VALUES ($1::uuid,$2::uuid,$3,$4,$5,$6) RETURNING id::text".
Definition trashArgs (t : TrashItem) : list Sql :=
  [SText (t_BucketID t); SText (t_OrgID t); SText (t_OriginalKey t); SText (t_TrashKey t);
   SInt (t_SizeBytes t); STime (t_PurgeAfter t)].

(** ** webhooks.go *)

Definition webhook_subscriptions_table : list Column :=
  [id_col; uuid_col "org_id" true; uuid_col "bucket_id" true; text_col "url" true;
   mkColumn "secret" Ttext true (DVal (SText "")); mkColumn "events" Ttext true (DVal (SText ""));
   mkColumn "enabled" Tbool true (DVal (SBool true)); now_col "created_at"].
(** The list of the RETURNING clause and of both queries. *)
Definition webhookCols : str :=
"id::text, org_id::text, bucket_id::text, url, secret, events, enabled, created_at".
Definition scanWebhook : option (list Sql) -> DBErr + WebhookSub := scan (
  let% id := string_ in let% org := string_ in let% bucket := string_ in let% url := string_ in
  let% secret := string_ in let% events := string_ in let% enabled := bool_ in let% created := time_ in
  scan_ret (mkWebhookSub id org bucket url secret events enabled created)).
Definition insertWebhook : str :=
"INSERT INTO webhook_subscriptions (org_id, bucket_id, url, secret, events)
VALUES ($1::uuid,$2::uuid,$3,$4,$5)
RETURNING id::text, org_id::text, bucket_id::text, url, secret, events, enabled, created_at".

(** ** migrations_repo.go *)

Definition migration_jobs_table : list Column :=
  [id_col; uuid_col "org_id" true; text_col "source_endpoint" true;
   mkColumn "source_region" Ttext true (DVal (SText "us-east-1")); text_col "source_bucket" true;
   text_col "source_access_key" true; mkColumn "source_secret_enc" Tbytea true DNull;
   uuid_col "dest_bucket_id" true; mkColumn "status" Ttext true (DVal (SText "pending"));
   mkColumn "copied_objects" Tint true (DVal (SInt 0)); mkColumn "copied_bytes" Tint true (DVal (SInt 0));
   mkColumn "cursor" Ttext true (DVal (SText "")); text_col "error" false; now_col "created_at";
   now_col "updated_at"].
Definition migrationCols : str :=
"id::text, org_id::text, source_endpoint, source_region, source_bucket,
	source_access_key, source_secret_enc, dest_bucket_id::text, status, copied_objects, copied_bytes,
	cursor, COALESCE(error,''), created_at".
Definition scanMigrationJob : option (list Sql) -> DBErr + MigrationJob := scan (
  let% id := string_ in let% org := string_ in let% endpoint := string_ in let% region := string_ in
  let% bucket := string_ in let% key := string_ in let% secret := bytes_ in let% dst := string_ in
  let% status := string_ in let% objects := int_ in let% bytes := int_ in let% cursor := string_ in
  let% err := string_ in let% created := time_ in
  scan_ret (mkMigrationJob id org endpoint region bucket key secret dst status objects bytes cursor err created)).
Definition insertMigrationJob : str :=
"INSERT INTO migration_jobs
		   (org_id, source_endpoint, source_region, source_bucket, source_access_key, source_secret_enc, dest_bucket_id)
		 VALUES ($1::uuid,$2,$3,$4,$5,$6,$7::uuid) RETURNING id::text".
(** The sealed secret is never nil. *)
Definition migrationArgs (j : MigrationJob) : list Sql :=
  [SText (mj_OrgID j); SText (mj_SourceEndpoint j); SText (mj_SourceRegion j); SText (mj_SourceBucket j);
   SText (mj_SourceAccessKey j); SBytes (mj_SourceSecretEnc j); SText (mj_DestBucketID j)].

(** ** replication.go *)

Definition replication_jobs_table : list Column :=
  [id_col; uuid_col "org_id" true; uuid_col "src_bucket_id" true; uuid_col "dst_bucket_id" true;
   mkColumn "status" Ttext true (DVal (SText "pending")); mkColumn "copied_objects" Tint true (DVal (SInt 0));
   mkColumn "skipped_objects" Tint true (DVal (SInt 0)); mkColumn "copied_bytes" Tint true (DVal (SInt 0));
   mkColumn "cursor" Ttext true (DVal (SText "")); mkColumn "error" Ttext true (DVal (SText ""));
   now_col "created_at"; now_col "updated_at"].
Definition replicationCols : str :=
"id::text, org_id::text, src_bucket_id::text, dst_bucket_id::text, status,
  copied_objects, skipped_objects, copied_bytes, cursor, error, created_at, updated_at".
Definition scanReplication : option (list Sql) -> DBErr + ReplicationJob := scan (
  let% id := string_ in let% org := string_ in let% src := string_ in let% dst := string_ in
  let% status := string_ in let% copied := int_ in let% skipped := int_ in let% bytes := int_ in
  let% cursor := string_ in let% err := string_ in let% created := time_ in let% updated := time_ in
  scan_ret (mkReplicationJob id org src dst status copied skipped bytes cursor err created updated)).
Definition insertReplicationJob : str :=
"INSERT INTO replication_jobs (org_id, src_bucket_id, dst_bucket_id, status)
		 VALUES ($1::uuid,$2::uuid,$3::uuid,'pending') RETURNING id::text".

(** ** backups.go, backup_schedules.go *)

Definition backup_jobs_table : list Column :=
  [id_col; uuid_col "org_id" false; mkColumn "kind" Tenum true (DVal (SEnum "metadata"));
   mkColumn "status" Tenum true (DVal (SEnum "pending")); mkColumn "path" Ttext true (DVal (SText ""));
   mkColumn "size_bytes" Tint true (DVal (SInt 0)); mkColumn "error" Ttext true (DVal (SText ""));
   time_col "started_at"; time_col "finished_at"; now_col "created_at";
   mkColumn "offsite_uri" Ttext true (DVal (SText "")); uuid_col "schedule_id" false].
Definition backupCols : str :=
"id::text, COALESCE(org_id::text,''), kind::text, status::text,
       path, size_bytes, error, started_at, finished_at, created_at".
(** The schedule and the off-box location are not read back. *)
Definition scanBackup : option (list Sql) -> DBErr + BackupJob := scan (
  let% id := string_ in let% org := string_ in let% kind := string_ in let% status := string_ in
  let% path := string_ in let% size := int_ in let% err := string_ in let% started := time_ptr in
  let% finished := time_ptr in let% created := time_ in
  scan_ret (mkBackupJob id org kind status path size err started finished created "" "")).
Definition insertBackupJob : str :=
"INSERT INTO backup_jobs (org_id, kind, status) VALUES (NULLIF($1,'')::uuid, $2::backup_kind, 'pending')
		 RETURNING id::text".
Definition insertScheduledJob : str :=
"INSERT INTO backup_jobs (org_id, kind, status, schedule_id)
		 VALUES (NULLIF($1,'')::uuid, 'metadata', 'pending', NULLIF($2,'')::uuid) RETURNING id::text".

Definition backup_schedules_table : list Column :=
  [id_col; uuid_col "org_id" false; mkColumn "enabled" Tbool true (DVal (SBool true));
   mkColumn "interval_minutes" Tint true (DVal (SInt 1440)); mkColumn "retention_count" Tint true (DVal (SInt 7));
   mkColumn "offsite_enabled" Tbool true (DVal (SBool false)); now_col "next_run_at"; time_col "last_run_at";
   now_col "created_at"; now_col "updated_at"].
Definition scheduleCols : str :=
"id::text, COALESCE(org_id::text,''), enabled, interval_minutes,
       retention_count, offsite_enabled, next_run_at, last_run_at".
(** The creation time is not read back. *)
Definition scanSchedule : option (list Sql) -> DBErr + BackupSchedule := scan (
  let% id := string_ in let% org := string_ in let% enabled := bool_ in let% interval := int_ in
  let% retention := int_ in let% offsite := bool_ in let% next := time_ in let% last := time_ptr in
  scan_ret (mkBackupSchedule id org enabled interval retention offsite next last 0)).
Definition insertSchedule : str :=
"INSERT INTO backup_schedules (org_id, interval_minutes, retention_count, offsite_enabled, next_run_at)
		 VALUES (NULLIF($1,'')::uuid, $2, $3, $4, now() + make_interval(mins => $2))
		 RETURNING id::text".

(** ** billing.go, branding.go *)

Definition billing_customers_table : list Column :=
  [uuid_col "org_id" true; text_col "stripe_customer_id" true; text_col "stripe_subscription_id" false;
   text_col "storage_item_id" false; text_col "egress_item_id" false; text_col "requests_item_id" false;
   mkColumn "status" Ttext true (DVal (SText "active")); now_col "created_at"; now_col "updated_at"].
Definition billingCols : str :=
"org_id::text, stripe_customer_id, stripe_subscription_id, storage_item_id, egress_item_id, requests_item_id, status".
Definition deref (s : option str) : str := default "" s.
Definition scanBillingCustomer : option (list Sql) -> DBErr + BillingCustomer := scan (
  let% org := string_ in let% customer := string_ in let% sub := string_ptr in let% storage := string_ptr in
  let% egress := string_ptr in let% requests := string_ptr in let% status := string_ in
  scan_ret (mkBillingCustomer org customer (deref sub) (deref storage) (deref egress) (deref requests) status)).
Definition upsertBillingCustomer : str :=
"INSERT INTO billing_customers
		   (org_id, stripe_customer_id, stripe_subscription_id, storage_item_id, egress_item_id, requests_item_id, status, updated_at)
		 VALUES ($1::uuid,$2,NULLIF($3,''),NULLIF($4,''),NULLIF($5,''),NULLIF($6,''),$7,now())
		 ON CONFLICT (org_id) DO UPDATE SET
		   stripe_customer_id=EXCLUDED.stripe_customer_id,
		   stripe_subscription_id=EXCLUDED.stripe_subscription_id,
		   storage_item_id=EXCLUDED.storage_item_id,
		   egress_item_id=EXCLUDED.egress_item_id,
		   requests_item_id=EXCLUDED.requests_item_id,
		   status=EXCLUDED.status, updated_at=now()".
Definition billingArgs (c : BillingCustomer) : list Sql :=
  map SText [bc_OrgID c; bc_StripeCustomerID c; bc_StripeSubscriptionID c; bc_StorageItemID c;
             bc_EgressItemID c; bc_RequestsItemID c; bc_Status c].

Definition org_branding_table : list Column :=
  [uuid_col "org_id" true; text_col "display_name" false; text_col "logo_url" false;
   text_col "primary_color" false; text_col "email_from" false; text_col "custom_domain" false;
   now_col "updated_at"].
(** The list of both queries. *)
Definition brandingCols : str :=
"org_id::text, COALESCE(display_name,''), COALESCE(logo_url,''),
		        COALESCE(primary_color,''), COALESCE(email_from,''), COALESCE(custom_domain,'')".
Definition scanBranding : option (list Sql) -> DBErr + Branding := scan (
  let% org := string_ in let% name := string_ in let% logo := string_ in let% color := string_ in
  let% from := string_ in let% domain := string_ in
  scan_ret (mkBranding org name logo color from domain)).
Definition upsertBranding : str :=
"INSERT INTO org_branding (org_id, display_name, logo_url, primary_color, email_from, custom_domain, updated_at)
		 VALUES ($1::uuid, NULLIF($2,''), NULLIF($3,''), NULLIF($4,''), NULLIF($5,''), NULLIF($6,''), now())
		 ON CONFLICT (org_id) DO UPDATE SET
		   display_name=EXCLUDED.display_name, logo_url=EXCLUDED.logo_url,
		   primary_color=EXCLUDED.primary_color, email_from=EXCLUDED.email_from,
		   custom_domain=EXCLUDED.custom_domain, updated_at=now()".
Definition brandingArgs (b : Branding) : list Sql :=
  map SText [br_OrgID b; br_DisplayName b; br_LogoURL b; br_PrimaryColor b; br_EmailFrom b; br_CustomDomain b].

(** ** Rows and records

    The row of a table that a record stands for, column by column; [x] holds the columns
    the record leaves out. *)

Definition uuid_or_null (s : str) : Sql := if s =s "" then SNull else SUuid s.
Definition opt_time (t : option Z) : Sql := match t with Some t => STime t | None => SNull end.

(** What the records of the tables with time stamps leave out. *)
Record Stamps := mkStamps { x_Updated : Z; x_Deleted : option Z; x_Seen : option Z; x_Used : option Z;
                            x_Expires : option Z }.
(** The stamps of a row that was just inserted. *)
Definition fresh (now : Z) : Stamps := mkStamps now None None None None.

Definition bucket_row (b : Bucket) (x : Stamps) : Row :=
  [("id", SUuid (b_ID b)); ("org_id", SUuid (b_OrgID b)); ("project_id", SUuid (b_ProjectID b));
   ("storage_cluster_id", SUuid (b_ClusterID b)); ("name", SText (b_Name b));
   ("garage_bucket_id", SText (b_GarageBucketID b)); ("garage_global_alias", SText (b_GarageGlobalAlias b));
   ("visibility", SEnum (b_Visibility b)); ("website_enabled", SBool (b_WebsiteEnabled b));
   ("website_index_doc", SText (b_WebsiteIndexDoc b)); ("website_error_doc", nullif (b_WebsiteErrorDoc b));
   ("quota_max_size", opt_int (b_QuotaMaxSize b)); ("quota_max_objects", opt_int (b_QuotaMaxObjects b));
   ("created_at", STime (b_CreatedAt b)); ("updated_at", STime (x_Updated x)); ("deleted_at", opt_time (x_Deleted x))].
(** [x_Seen] is secret_revealed_at, which the insert sets. *)
Definition key_row (k : AccessKey) (x : Stamps) : Row :=
  [("id", SUuid (k_ID k)); ("org_id", SUuid (k_OrgID k)); ("project_id", uuid_or_null (k_ProjectID k));
   ("storage_cluster_id", SUuid (k_ClusterID k)); ("name", SText (k_Name k));
   ("garage_access_key_id", SText (k_GarageAccessKeyID k)); ("secret_hash", SBytes (k_SecretHash k));
   ("secret_last_four", nullif (k_SecretLastFour k)); ("secret_revealed_at", opt_time (x_Seen x));
   ("can_create_bucket", SBool (k_CanCreateBucket k)); ("expires_at", opt_time (x_Expires x));
   ("last_used_at", opt_time (x_Used x)); ("created_at", STime (k_CreatedAt k));
   ("updated_at", STime (x_Updated x)); ("deleted_at", opt_time (x_Deleted x))].
Definition revealed (now : Z) : Stamps := mkStamps now None (Some now) None None.
(** [x_Seen] is last_health_at; the version of the admin API is always the default. *)
Definition cluster_row (c : Cluster) (x : Stamps) : Row :=
  [("id", SUuid (cl_ID c)); ("name", SText (cl_Name c)); ("provider", SEnum (cl_Provider c));
   ("s3_endpoint", SText (cl_S3Endpoint c)); ("admin_endpoint", SText (cl_AdminEndpoint c));
   ("s3_region", SText (cl_S3Region c)); ("web_endpoint", nullif (cl_WebEndpoint c));
   ("garage_version", nullif (cl_GarageVersion c)); ("admin_api_version", SText "v2");
   ("rpc_secret_enc", byte_arg (cl_RPCSecretEnc c)); ("admin_token_enc", byte_arg (cl_AdminTokenEnc c));
   ("metrics_token_enc", byte_arg (cl_MetricsTokenEnc c));
   ("system_s3_access_key_id", nullif (cl_SystemS3AccessKeyID c));
   ("system_s3_secret_enc", byte_arg (cl_SystemS3SecretEnc c)); ("db_engine", SText (cl_DBEngine c));
   ("replication_factor", SInt (cl_ReplicationFactor c)); ("status", SEnum (cl_Status c));
   ("last_health_at", opt_time (x_Seen x)); ("created_at", STime (cl_CreatedAt c));
   ("updated_at", STime (x_Updated x)); ("deleted_at", opt_time (x_Deleted x)); ("mode", SEnum (cl_Mode c))].
Definition trash_item_row (t : TrashItem) (_ : Stamps) : Row :=
  [("id", SUuid (t_ID t)); ("bucket_id", SUuid (t_BucketID t)); ("org_id", SUuid (t_OrgID t));
   ("original_key", SText (t_OriginalKey t)); ("trash_key", SText (t_TrashKey t));
   ("size_bytes", SInt (t_SizeBytes t)); ("deleted_at", STime (t_DeletedAt t));
   ("purge_after", STime (t_PurgeAfter t)); ("restored_at", opt_time (t_RestoredAt t))].
Definition webhook_row (w : WebhookSub) (_ : Stamps) : Row :=
  [("id", SUuid (wh_ID w)); ("org_id", SUuid (wh_OrgID w)); ("bucket_id", SUuid (wh_BucketID w));
   ("url", SText (wh_URL w)); ("secret", SText (wh_Secret w)); ("events", SText (wh_Events w));
   ("enabled", SBool (wh_Enabled w)); ("created_at", STime (wh_CreatedAt w))].
Definition migration_row (j : MigrationJob) (x : Stamps) : Row :=
  [("id", SUuid (mj_ID j)); ("org_id", SUuid (mj_OrgID j)); ("source_endpoint", SText (mj_SourceEndpoint j));
   ("source_region", SText (mj_SourceRegion j)); ("source_bucket", SText (mj_SourceBucket j));
   ("source_access_key", SText (mj_SourceAccessKey j)); ("source_secret_enc", SBytes (mj_SourceSecretEnc j));
   ("dest_bucket_id", SUuid (mj_DestBucketID j)); ("status", SText (mj_Status j));
   ("copied_objects", SInt (mj_CopiedObjects j)); ("copied_bytes", SInt (mj_CopiedBytes j));
   ("cursor", SText (mj_Cursor j)); ("error", nullif (mj_Error j)); ("created_at", STime (mj_CreatedAt j));
   ("updated_at", STime (x_Updated x))].
Definition replication_row (j : ReplicationJob) (_ : Stamps) : Row :=
  [("id", SUuid (rj_ID j)); ("org_id", SUuid (rj_OrgID j)); ("src_bucket_id", SUuid (rj_SrcBucketID j));
   ("dst_bucket_id", SUuid (rj_DstBucketID j)); ("status", SText (rj_Status j));
   ("copied_objects", SInt (rj_CopiedObjects j)); ("skipped_objects", SInt (rj_SkippedObjects j));
   ("copied_bytes", SInt (rj_CopiedBytes j)); ("cursor", SText (rj_Cursor j)); ("error", SText (rj_Error j));
   ("created_at", STime (rj_CreatedAt j)); ("updated_at", STime (rj_UpdatedAt j))].
Definition backup_job_row (j : BackupJob) (_ : Stamps) : Row :=
  [("id", SUuid (bj_ID j)); ("org_id", uuid_or_null (bj_OrgID j)); ("kind", SEnum (bj_Kind j));
   ("status", SEnum (bj_Status j)); ("path", SText (bj_Path j)); ("size_bytes", SInt (bj_SizeBytes j));
   ("error", SText (bj_Error j)); ("started_at", opt_time (bj_StartedAt j));
   ("finished_at", opt_time (bj_FinishedAt j)); ("created_at", STime (bj_CreatedAt j));
   ("offsite_uri", SText (bj_OffsiteURI j)); ("schedule_id", uuid_or_null (bj_ScheduleID j))].
Definition schedule_row (s : BackupSchedule) (x : Stamps) : Row :=
  [("id", SUuid (bs_ID s)); ("org_id", uuid_or_null (bs_OrgID s)); ("enabled", SBool (bs_Enabled s));
   ("interval_minutes", SInt (bs_IntervalMinutes s)); ("retention_count", SInt (bs_RetentionCount s));
   ("offsite_enabled", SBool (bs_OffsiteEnabled s)); ("next_run_at", STime (bs_NextRunAt s));
   ("last_run_at", opt_time (bs_LastRunAt s)); ("created_at", STime (bs_CreatedAt s));
   ("updated_at", STime (x_Updated x))].

(** ** The text against the model of the tables *)

Section Agreement.
Context {ENV : Env}.

(** *** Inserts *)

(** Whenever the operation of the model succeeds, it added one record, and the statement
    stores the row of that record: every column of it, the ones no query reads too. *)
Definition stores {A R} (table : DB -> list R) (row_of : R -> Stamps -> Row) (x : Z -> Stamps) (m : M DB DBErr A)
  (schema : list Column) (text : str) (args : list Sql) : Prop :=
  forall d a d', m d = (inr a, d') ->
  exists r, table d' = (table d ++ [r])%list /\
    insert_row env_as_uuid schema (env_now (db_tick d)) (env_uuid (db_tick d)) text args
    = Some (row_of r (x (env_now (db_tick d)))).

Lemma insert_stores {A R} (table : DB -> list R) row_of x ok (f : nat -> DB -> A * DB) pfx schema text args :
  (forall n d, table (set_db_tick n d) = table d) ->
  (forall n d, exists r, table (snd (f n d)) = (table d ++ [r])%list /\
     insert_row env_as_uuid schema (env_now n) (env_uuid n) text args = Some (row_of r (x (env_now n)))) ->
  stores table row_of x (mapErr (wrapDB pfx) (insert ok f)) schema text args.
Proof.
  intros Ht Hf d a d' H. apply mapErr_inr, insert_inr in H as [_ H].
  destruct (Hf (db_tick d) (set_db_tick (S (db_tick d)) d)) as (r & Hr & Hw).
  rewrite H, Ht in Hr. by exists r.
Qed.
Lemma all_rows_add {A} (x : A) l : Store.all_rows (add_live x l) = (Store.all_rows l ++ [x])%list.
Proof. unfold Store.all_rows, add_live. by rewrite map_app. Qed.

(** The statement of an insert is evaluated; what is left are a case for every column that
    an empty text or a nil makes NULL, and the casts of ids that are canonical. *)
Ltac insert_stores :=
  apply insert_stores; [done|]; intros n d; eexists;
  split; [first [apply all_rows_add | reflexivity]|]; unfold canonical in *.
Ltac evaluate := vm_compute in *; congruence.

Lemma bucket_stored b (Ho : canonical (b_OrgID b)) (Hp : canonical (b_ProjectID b)) :
  stores (fun d => Store.all_rows (buckets d)) bucket_row fresh (Store.CreateBucket b)
    buckets_table insertBucket (bucketArgs b).
Proof.
  insert_stores. destruct b as [i o p c nm g a v w ix e s ob cr].
  unfold Store.new_bucket_row, bucketArgs, set_b_ClusterID.
  cbn [b_OrgID b_ProjectID b_ClusterID b_Name b_GarageBucketID b_GarageGlobalAlias b_Visibility
       b_WebsiteEnabled b_WebsiteIndexDoc b_QuotaMaxSize b_QuotaMaxObjects].
  generalize (if v =s "" then "private" else v), (if ix =s "" then "index.html" else ix). intros v' ix'.
  destruct s, ob; evaluate.
Qed.
Lemma key_stored k h (Ho : canonical (k_OrgID k)) (Hp : canonical (k_ProjectID k))
    (Hc : canonical (k_ClusterID k)) :
  stores (fun d => Store.all_rows (keys d)) key_row revealed (Store.CreateAccessKey k h)
    access_keys_table insertKey (keyArgs k h).
Proof.
  insert_stores. destruct k as [i o p c nm g four cr t h']. destruct p, four; evaluate.
Qed.
Lemma cluster_stored c : stores (fun d => Store.all_rows (clusters d)) cluster_row fresh (Store.CreateCluster c)
  storage_clusters_table insertCluster (clusterArgs c).
Proof.
  insert_stores. destruct c as [i nm pr mo s3 ad re we ve rpc tok me si se en rf stt t]. unfold clusterArgs.
  cbn [cl_Name cl_Provider cl_Mode cl_S3Endpoint cl_AdminEndpoint cl_S3Region cl_WebEndpoint cl_GarageVersion
       cl_RPCSecretEnc cl_AdminTokenEnc cl_MetricsTokenEnc cl_SystemS3AccessKeyID cl_SystemS3SecretEnc cl_DBEngine
       cl_ReplicationFactor cl_Status set_cl_Provider set_cl_Mode set_cl_Status].
  generalize (Store.or_default pr "garage"), (Store.or_default mo "managed"), (Store.or_default stt "healthy").
  intros pr' mo' st'. destruct we, ve, rpc, tok, me, si, se; vm_compute; reflexivity.
Qed.
Lemma trash_stored t (Ho : canonical (t_OrgID t)) :
  stores trash trash_item_row fresh (Store.InsertTrash t) object_trash_table insertTrash (trashArgs t).
Proof. insert_stores. destruct t. evaluate. Qed.
Lemma webhook_stored org bucket url secret events (Ho : canonical org) :
  stores webhooks webhook_row fresh (Store.CreateWebhook org bucket url secret events)
    webhook_subscriptions_table insertWebhook (map SText [org; bucket; url; secret; events]).
Proof. insert_stores. evaluate. Qed.
Lemma migration_stored j (Ho : canonical (mj_OrgID j)) (Hd : canonical (mj_DestBucketID j)) :
  stores migrations migration_row fresh (Store.CreateMigrationJob j)
    migration_jobs_table insertMigrationJob (migrationArgs j).
Proof. insert_stores. destruct j. evaluate. Qed.
Lemma replication_stored org src dst (Ho : canonical org) :
  stores replications replication_row fresh (JobStore.CreateReplicationJob org src dst)
    replication_jobs_table insertReplicationJob (map SText [org; src; dst]).
Proof. insert_stores. evaluate. Qed.
Lemma backup_stored org kind (Ho : canonical org) :
  stores backup_jobs backup_job_row fresh (JobStore.CreateBackupJob org kind)
    backup_jobs_table insertBackupJob (map SText [org; kind]).
Proof. insert_stores. destruct org; evaluate. Qed.
Lemma scheduled_stored org sched (Ho : canonical org) (Hs : canonical sched) :
  stores backup_jobs backup_job_row fresh (JobStore.CreateBackupJobForSchedule org sched)
    backup_jobs_table insertScheduledJob (map SText [org; sched]).
Proof. insert_stores. destruct org, sched; evaluate. Qed.
Lemma schedule_stored org mins keep offsite (Ho : canonical org) :
  stores backup_schedules schedule_row fresh (JobStore.CreateBackupSchedule org mins keep offsite)
    backup_schedules_table insertSchedule [SText org; SInt mins; SInt keep; SBool offsite].
Proof.
  unfold JobStore.CreateBackupSchedule, pg_only. destruct env_driver.
  - insert_stores. destruct org; evaluate.
  - intros d a d' H. apply mapErr_inr, stmt_inr in H as [_ H]. done.
Qed.

(** *** Reading back *)

(** A row has the columns of its table, and the column list and scan function the queries
    use turn it into its record, less what they do not select ([norm]). *)
Definition reads_back {R} (schema : list Column) (row_of : R -> Stamps -> Row) (norm : R -> R) (cols : str)
  (read : option (list Sql) -> DBErr + R) : Prop :=
  forall r x, map fst (row_of r x) = map c_Name schema /\
    read (select env_as_uuid cols (row_of r x)) = inr (norm r).

(** No query selects the schedule and the off-box location of a backup job, or the creation
    time of a schedule. *)
Definition without_schedule (j : BackupJob) : BackupJob :=
  mkBackupJob (bj_ID j) (bj_OrgID j) (bj_Kind j) (bj_Status j) (bj_Path j) (bj_SizeBytes j) (bj_Error j)
    (bj_StartedAt j) (bj_FinishedAt j) (bj_CreatedAt j) "" "".
Definition without_created (s : BackupSchedule) : BackupSchedule :=
  mkBackupSchedule (bs_ID s) (bs_OrgID s) (bs_Enabled s) (bs_IntervalMinutes s) (bs_RetentionCount s)
    (bs_OffsiteEnabled s) (bs_NextRunAt s) (bs_LastRunAt s) 0.

Lemma bucket_reads_back : reads_back buckets_table bucket_row id bucketCols scanBucket.
Proof.
  intros [i o p c nm g a v w ix e s ob cr] x. split; [reflexivity|]. destruct e, s, ob; vm_compute; reflexivity.
Qed.
Lemma key_reads_back : reads_back access_keys_table key_row (set_k_SecretHash "") keyCols scanKey.
Proof. intros [i o p c nm g four cr t h] x. split; [reflexivity|]. destruct p, four; vm_compute; reflexivity. Qed.
Lemma cluster_reads_back : reads_back storage_clusters_table cluster_row (set_cl_CreatedAt 0) clusterCols scanCluster.
Proof.
  intros [i nm pr mo s3 ad re we ve rpc tok me si se en rf stt t] x. split; [reflexivity|].
  destruct we, ve, rpc, tok, me, si, se; vm_compute; reflexivity.
Qed.
Lemma trash_reads_back : reads_back object_trash_table trash_item_row (set_t_RestoredAt None) trashCols scanTrash.
Proof. intros [i b o k tk z de pu re] x. split; [reflexivity|]. vm_compute. reflexivity. Qed.
Lemma webhook_reads_back : reads_back webhook_subscriptions_table webhook_row id webhookCols scanWebhook.
Proof. intros [i o b u se ev en cr] x. split; [reflexivity|]. vm_compute. reflexivity. Qed.
Lemma migration_reads_back : reads_back migration_jobs_table migration_row id migrationCols scanMigrationJob.
Proof. intros [i o e rg b k s d st co cb cu er cr] u. split; [reflexivity|]. destruct er; vm_compute; reflexivity. Qed.
Lemma replication_reads_back :
  reads_back replication_jobs_table replication_row id replicationCols scanReplication.
Proof. intros [i o s d st c sk cb cu er cr u] x. split; [reflexivity|]. vm_compute. reflexivity. Qed.
Lemma backup_reads_back : reads_back backup_jobs_table backup_job_row without_schedule backupCols scanBackup.
Proof.
  intros [i o k s p z e st fi cr sc off] x. split; [reflexivity|].
  destruct o, st, fi, sc; vm_compute; reflexivity.
Qed.
Lemma schedule_reads_back :
  reads_back backup_schedules_table schedule_row without_created scheduleCols scanSchedule.
Proof. intros [i o en m k off nx l cr] u. split; [reflexivity|]. destruct o, l; vm_compute; reflexivity. Qed.

(** *** Upserts *)

(** An upsert leaves its record in the table; inserted or written over any row of the same
    organization, it reads back as the record. *)
Definition upsert_agrees {R} (table : DB -> list R) (m : M DB DBErr unit) (x : R) (org : str) (schema : list Column)
  (text : str) (args : list Sql) (cols : str) (read : option (list Sql) -> DBErr + R) : Prop :=
  (forall d u d', m d = (inr u, d') -> x ∈ table d') /\
  (forall now uuid, read (insert_row env_as_uuid schema now uuid text args ≫= select env_as_uuid cols) = inr x) /\
  (forall now uuid old, map fst old = map c_Name schema -> column old "org_id" = Some (SUuid org) ->
     read (upsert_row env_as_uuid schema now uuid text args old ≫= select env_as_uuid cols) = inr x).

Lemma upserted {R} (key : R -> str) (x : R) l :
  x ∈ (if Store.has_id key (key x) l then upd_rows (fun r => key r =s key x) (fun _ => x) l else l ++ [x])%list.
Proof.
  destruct (Store.has_id key (key x) l) eqn:E; [|apply elem_of_app; right; left].
  apply exists_spec in E as (y & Hy & Hk). unfold upd_rows.
  apply list_elem_of_fmap. exists y. by rewrite Hk.
Qed.

Lemma billing_agrees c (Ho : canonical (bc_OrgID c)) :
  upsert_agrees billing (Store.UpsertBillingCustomer c) c (bc_OrgID c)
    billing_customers_table upsertBillingCustomer (billingArgs c) billingCols scanBillingCustomer.
Proof.
  destruct c as [org cu s st e r status]. split; [|split].
  - intros d u d' H. apply mapErr_inr, insert_inr in H as [_ H]. injection H as _ <-.
    pose proof (upserted bc_OrgID (mkBillingCustomer org cu s st e r status) (billing d)) as Hu.
    cbn [bc_OrgID] in *. cbn [billing set_db_tick]. by destruct (Store.has_id _ _ _).
  - intros now uuid. destruct s, st, e, r; evaluate.
  - intros now uuid old Hn Hold. do 9 (destruct old as [|[? ?] old]; [discriminate Hn|]).
    destruct old; [|discriminate Hn]. cbn in Hn. injection Hn as -> -> -> -> -> -> -> -> ->.
    vm_compute in Hold. injection Hold as ->. destruct s, st, e, r; evaluate.
Qed.
Lemma branding_agrees b (Ho : canonical (br_OrgID b)) :
  upsert_agrees org_branding (AccountStore.UpsertBranding b) b (br_OrgID b)
    org_branding_table upsertBranding (brandingArgs b) brandingCols scanBranding.
Proof.
  destruct b as [org n l c f cd]. split; [|split].
  - intros d u d' H. apply mapErr_inr, insert_inr in H as [_ H]. injection H as _ <-.
    exact (upserted br_OrgID (mkBranding org n l c f cd) (org_branding d)).
  - intros now uuid. destruct n, l, c, f, cd; evaluate.
  - intros now uuid old Hn Hold. do 7 (destruct old as [|[? ?] old]; [discriminate Hn|]).
    destruct old; [|discriminate Hn]. cbn in Hn. injection Hn as -> -> -> -> -> -> ->.
    vm_compute in Hold. injection Hold as ->. destruct n, l, c, f, cd; evaluate.
Qed.

(** C17: the statements store what the model of the tables says.  For the ten inserts of
    buckets, access keys, clusters, trash, webhooks, migration and replication jobs,
    backup jobs (two) and schedules: evaluating the text of the INSERT on the arguments
    the code passes, with the types, NOT NULL constraints and defaults of the schema,
    gives the row of the record the model's operation adds to its table, every column of
    it; a uuid is stored in the canonical spelling of the id passed, and the ids the
    model does not cast (the organization, the project, a schedule, the destination of a
    migration, a key's cluster) are assumed to be in it.  On any such row, also after
    updates, the column list and scan function of the queries give the record back, less
    the columns they do not select: a key's secret hash, the creation time of a cluster
    and of a schedule, the restore time of a trash item, a backup job's schedule and
    off-box location.  The two upserts (billing customers, branding) leave their record
    in the table, and inserted or written over a row of the same organization they read
    back as it. *)
Theorem statements_agree :
  (forall b, canonical (b_OrgID b) -> canonical (b_ProjectID b) ->
     stores (fun d => Store.all_rows (buckets d)) bucket_row fresh (Store.CreateBucket b)
       buckets_table insertBucket (bucketArgs b)) /\
  (forall k h, canonical (k_OrgID k) -> canonical (k_ProjectID k) -> canonical (k_ClusterID k) ->
     stores (fun d => Store.all_rows (keys d)) key_row revealed (Store.CreateAccessKey k h)
       access_keys_table insertKey (keyArgs k h)) /\
  (forall c, stores (fun d => Store.all_rows (clusters d)) cluster_row fresh (Store.CreateCluster c)
     storage_clusters_table insertCluster (clusterArgs c)) /\
  (forall t, canonical (t_OrgID t) ->
     stores trash trash_item_row fresh (Store.InsertTrash t) object_trash_table insertTrash (trashArgs t)) /\
  (forall org bucket url secret events, canonical org ->
     stores webhooks webhook_row fresh (Store.CreateWebhook org bucket url secret events)
       webhook_subscriptions_table insertWebhook (map SText [org; bucket; url; secret; events])) /\
  (forall j, canonical (mj_OrgID j) -> canonical (mj_DestBucketID j) ->
     stores migrations migration_row fresh (Store.CreateMigrationJob j)
       migration_jobs_table insertMigrationJob (migrationArgs j)) /\
  (forall org src dst, canonical org ->
     stores replications replication_row fresh (JobStore.CreateReplicationJob org src dst)
       replication_jobs_table insertReplicationJob (map SText [org; src; dst])) /\
  (forall org kind, canonical org ->
     stores backup_jobs backup_job_row fresh (JobStore.CreateBackupJob org kind)
       backup_jobs_table insertBackupJob (map SText [org; kind])) /\
  (forall org sched, canonical org -> canonical sched ->
     stores backup_jobs backup_job_row fresh (JobStore.CreateBackupJobForSchedule org sched)
       backup_jobs_table insertScheduledJob (map SText [org; sched])) /\
  (forall org mins keep offsite, canonical org ->
     stores backup_schedules schedule_row fresh (JobStore.CreateBackupSchedule org mins keep offsite)
       backup_schedules_table insertSchedule [SText org; SInt mins; SInt keep; SBool offsite]) /\
  reads_back buckets_table bucket_row id bucketCols scanBucket /\
  reads_back access_keys_table key_row (set_k_SecretHash "") keyCols scanKey /\
  reads_back storage_clusters_table cluster_row (set_cl_CreatedAt 0) clusterCols scanCluster /\
  reads_back object_trash_table trash_item_row (set_t_RestoredAt None) trashCols scanTrash /\
  reads_back webhook_subscriptions_table webhook_row id webhookCols scanWebhook /\
  reads_back migration_jobs_table migration_row id migrationCols scanMigrationJob /\
  reads_back replication_jobs_table replication_row id replicationCols scanReplication /\
  reads_back backup_jobs_table backup_job_row without_schedule backupCols scanBackup /\
  reads_back backup_schedules_table schedule_row without_created scheduleCols scanSchedule /\
  (forall c, canonical (bc_OrgID c) ->
     upsert_agrees billing (Store.UpsertBillingCustomer c) c (bc_OrgID c) billing_customers_table
       upsertBillingCustomer (billingArgs c) billingCols scanBillingCustomer) /\
  (forall b, canonical (br_OrgID b) ->
     upsert_agrees org_branding (AccountStore.UpsertBranding b) b (br_OrgID b) org_branding_table
       upsertBranding (brandingArgs b) brandingCols scanBranding).
Proof.
  split_and!; intros;
    auto using bucket_stored, key_stored, cluster_stored, trash_stored, webhook_stored, migration_stored,
      replication_stored, backup_stored, scheduled_stored, schedule_stored, billing_agrees, branding_agrees,
      bucket_reads_back, key_reads_back, cluster_reads_back, trash_reads_back, webhook_reads_back,
      migration_reads_back, replication_reads_back, backup_reads_back, schedule_reads_back.
Qed.

End Agreement.

(** On a database that spells uuids in lower case, a bucket created with an upper-case
    cluster id is stored with the lower-case one. *)
Definition lower_env : Env := {|
  env_driver := Postgres; env_fault := no_fault; env_now := fun _ => 7%Z; env_uuid := fun _ => "b9";
  env_token := fun _ => None; env_hash_password := fun _ _ => None; env_verify_password := fun _ _ => None;
  env_jsonb := fun _ => "{}"; env_as_uuid := ToLower; env_as_uuid_gen := fun _ => eq_refl; env_inet := Some |}.
Definition photos (cluster : str) : Bucket :=
  mkBucket "" "o1" "p1" cluster "photos" "g1" "photos" "" false "" "" (Some 10%Z) None 0.
Definition one_cluster : DB :=
  set_orgs [mkLive (mkOrg "o1" "o1" "o1" "active" None "" None 0) None]
  (set_projects [mkLive (mkProject "p1" "o1" "Default" "default" 0) None]
  (set_clusters [mkLive (mkCluster "c1" "c1" "garage" "managed" "s3" "admin" "garage" "" "v2.3.0" "" "" "" "" ""
                           "sqlite" 1 "healthy" 0) None] empty_db)).
Lemma statements_agree_witness :
  exists d' r, @Store.CreateBucket lower_env (photos "C1") one_cluster = (inr "b9", d') /\
    Store.all_rows (buckets d') = [r] /\ b_ClusterID r = "c1" /\
    insert_row ToLower buckets_table 7 "b9" insertBucket (bucketArgs (photos "C1")) = Some (bucket_row r (fresh 7)).
Proof.
  pose proof (proj1 (@statements_agree lower_env) (photos "C1") eq_refl eq_refl one_cluster "b9" _ eq_refl)
    as (r & Hr & Hi).
  exists (snd (@Store.CreateBucket lower_env (photos "C1") one_cluster)), r.
  split; [reflexivity|]. split; [exact Hr|]. split; [|exact Hi].
  vm_compute in Hr. injection Hr as <-. reflexivity.
Defined.
(** A NULL in a column that is scanned into a string fails the read. *)
Example null_is_refused : scanTrash (Some [SNull]) = inl (DBFail "cannot scan").
Proof. reflexivity. Qed.

End SqlRows.
