(* ===== verification/AuditLog.v ===== *)
(** src/internal/repository/audit.go: the hash-chained audit log.

    [WriteAudit] appends a row whose hash covers the previous row's hash;
    [VerifyAuditChain] recomputes the chain.  The theorems: the chain stays
    intact under every failure pattern on Postgres, an edited row and a deleted
    middle row are reported, and what the check cannot see (a truncated end, a
    shifted field boundary, a lost read on SQLite). *)
From S2P Require Import Prelude GoStrings GoTime Hashes Database Repository.

Module AuditLog.
Section AuditLog.
Context {ENV : Env}.

Definition auditCanonical (prev : str) (id : Z)
    (orgID actorUserID actorType action targetType targetID metadata : str)
    (createdAt : Z) : str :=
  Sha256.Sum256 (prev ++ Join [Itoa id; orgID; actorUserID; actorType; action; targetType;
                            targetID; metadata; Time.RFC3339Nano createdAt] "|")%string.

(** org_id IS NOT DISTINCT FROM NULLIF($1,'') AND row_hash IS NOT NULL *)
Definition chained (orgID : str) (r : AuditRow) : bool :=
  (ar_OrgID r =s orgID) && bool_decide (ar_RowHash r <> None).

Definition last_row_hash (orgID : str) (l : list AuditRow) : option str :=
  r ← head (desc ar_ID (where_ (chained orgID) l));
  ar_RowHash r.
Definition last_hash (orgID : str) (d : DB) : option str := last_row_hash orgID (audit_events d).

(** The key of the advisory lock: an unsigned hash read as an [int64]. *)
Definition orgLockKey (orgID : str) : Z := wrap64 (fnv64a ("audit:" ++ orgID)).

(** The identity column: greater than every id of the table. *)
Definition next_id (l : list AuditRow) : Z := (1 + foldr Z.max 0 (map ar_ID l))%Z.

Definition set_hash (id : Z) (h : str) (d : DB) : DB :=
  set_audit_events (upd_rows (fun r => ar_ID r =? id)%Z (set_ar_RowHash (Some h))
                      (audit_events d)) d.

(** After a failed statement Postgres refuses the rest of the transaction. *)
Definition aborts (r : DBErr + str) : bool :=
  match env_driver, r with Postgres, inl (DBFail _) => true | _, _ => false end.

Definition audit_insert_ok (orgID actorUserID : str) (d : DB) : bool :=
  Store.opt_ref org_ID orgID (Store.all_rows (orgs d))
  && Store.opt_ref u_ID actorUserID (Store.all_rows (users d)).

Definition audit_body
    (orgID actorUserID actorType action targetType targetID meta ip : str)
    : M DB DBErr unit :=
  do! (match env_driver with
       | SQLite => ret tt
       | Postgres => mapErr (wrapDB "repository: audit lock: ") (exec (fun _ d => d))
       end) in
  let! r := attempt (query_row (fun _ d => last_hash orgID d)) in
  let prev := match r with inr h => h | inl _ => "" end in
  reject! aborts r
    with DBFail "repository: audit insert: current transaction is aborted" in
  let! row := mapErr (wrapDB "repository: audit insert: ")
    (insert
       (fun _ d => audit_insert_ok orgID actorUserID d)
       (fun n d =>
          let row := mkAuditRow (next_id (audit_events d)) orgID actorUserID actorType action
                       targetType targetID meta ip prev None (env_now n) in
          (row, set_audit_events (audit_events d ++ [row]) d))) in
  let rowHash := auditCanonical prev (ar_ID row) orgID actorUserID actorType action
                   targetType targetID (ar_Metadata row) (ar_CreatedAt row) in
  mapErr (wrapDB "repository: audit hash: ")
    (exec (fun _ d => set_hash (ar_ID row) rowHash d)).

Definition WriteAudit
    (orgID actorUserID actorType action targetType targetID : str)
    (metadata : option Meta) (ip : str) : M DB DBErr unit :=
  let meta := env_jsonb (default [] metadata) in
  transact (audit_body orgID actorUserID actorType action targetType targetID meta ip)
    "repository: audit begin: " "".

Record AuditVerifyResult := mkAuditVerifyResult {
  av_Checked : nat; av_OK : bool; av_BrokenID : Z; av_BrokenWhy : str }.

Definition row_hash_of (orgID : str) (r : AuditRow) : str :=
  auditCanonical (ar_PrevHash r) (ar_ID r) orgID (ar_ActorUserID r) (ar_ActorType r)
    (ar_Action r) (ar_TargetType r) (ar_TargetID r) (ar_Metadata r) (ar_CreatedAt r).
Definition stored_hash (r : AuditRow) : str := default "" (ar_RowHash r).

(** The loop of VerifyAuditChain; [expected] is [None] for the first row. *)
Fixpoint verify_rows (orgID : str) (expected : option str) (checked : nat)
    (rows : list AuditRow) : AuditVerifyResult :=
  match rows with
  | [] => mkAuditVerifyResult checked true 0 ""
  | r :: rows' =>
      if match expected with Some h => negb (ar_PrevHash r =s h) | None => false end
      then mkAuditVerifyResult checked false (ar_ID r) "prev_hash mismatch"
      else if negb (row_hash_of orgID r =s stored_hash r)
      then mkAuditVerifyResult checked false (ar_ID r) "row_hash mismatch"
      else verify_rows orgID (Some (stored_hash r)) (S checked) rows'
  end.

Definition chain_rows (orgID : str) (l : list AuditRow) : list AuditRow :=
  asc ar_ID (where_ (chained orgID) l).

Definition VerifyAuditChain (orgID : str) : M DB DBErr AuditVerifyResult :=
  mapErr (wrapDB "repository: audit verify: ")
    (query (fun _ d => verify_rows orgID None 0 (chain_rows orgID (audit_events d)))).

Record AuditFilter := mkAuditFilter {
  af_OrgID : str; af_Actor : str; af_Action : str; af_TargetType : str;
  af_From : option Z; af_To : option Z; af_Limit : Z; af_Offset : Z }.

(** A zero-valued field adds no condition. *)
Definition unset_or_eq (want got : str) : bool := (want =s "") || (got =s want).
Definition audit_matches (f : AuditFilter) (r : AuditRow) : bool :=
  unset_or_eq (af_OrgID f) (ar_OrgID r)
  && ((af_Actor f =s "") || (ar_ActorUserID r =s env_as_uuid (af_Actor f)))
  && unset_or_eq (af_Action f) (ar_Action r)
  && unset_or_eq (af_TargetType f) (ar_TargetType r)
  && match af_From f with Some t => t <=? ar_CreatedAt r | None => true end%Z
  && match af_To f with Some t => ar_CreatedAt r <=? t | None => true end%Z.

Definition ListAuditFiltered (f : AuditFilter) : M DB DBErr (list AuditRow) :=
  let limit := if (af_Limit f <=? 0)%Z || (5000 <? af_Limit f)%Z then 100%Z else af_Limit f in
  let offset := if (af_Offset f <? 0)%Z then 0%Z else af_Offset f in
  query (fun _ d => take (Z.to_nat limit) (drop (Z.to_nat offset)
    (desc ar_CreatedAt (where_ (audit_matches f) (audit_events d))))).

Definition ListAudit (limit : Z) : M DB DBErr (list AuditRow) :=
  let limit := if (limit <=? 0)%Z || (500 <? limit)%Z then 100%Z else limit in
  query (fun _ d => take (Z.to_nat limit) (desc ar_CreatedAt (audit_events d))).

(** * The chain invariant *)

Fixpoint linked (orgID : str) (expected : option str) (rows : list AuditRow) : Prop :=
  match rows with
  | [] => True
  | r :: rows' =>
      match expected with Some h => ar_PrevHash r = h | None => True end /\
      row_hash_of orgID r = stored_hash r /\
      linked orgID (Some (stored_hash r)) rows'
  end.

(** Every org's chain verifies and ids are distinct. *)
Definition chain_inv (d : DB) : Prop :=
  NoDup (map ar_ID (audit_events d)) /\
  forall orgID, linked orgID None (chain_rows orgID (audit_events d)).

Lemma verify_ok_linked orgID e c rows :
  av_OK (verify_rows orgID e c rows) = true <-> linked orgID e rows.
Proof.
  revert e c. induction rows as [|r rows IH]; intros e c; [done|]. simpl.
  destruct e as [h|].
  - destruct (ar_PrevHash r =s h) eqn:E1; simpl; bool_prop.
    + destruct (row_hash_of orgID r =s stored_hash r) eqn:E2; simpl; bool_prop.
      * rewrite IH. naive_solver.
      * naive_solver.
    + naive_solver.
  - destruct (row_hash_of orgID r =s stored_hash r) eqn:E2; simpl; bool_prop.
    + rewrite IH. naive_solver.
    + naive_solver.
Qed.

Definition end_hash (e : option str) (rows : list AuditRow) : option str :=
  match last rows with Some r => Some (stored_hash r) | None => e end.

Lemma linked_app orgID e l1 l2 :
  linked orgID e (l1 ++ l2) <-> linked orgID e l1 /\ linked orgID (end_hash e l1) l2.
Proof.
  revert e. induction l1 as [|r l1 IH]; intros e; simpl; [unfold end_hash; naive_solver|].
  rewrite IH. assert (end_hash (Some (stored_hash r)) l1 = end_hash e (r :: l1)) as ->.
  { unfold end_hash. rewrite last_cons. by destruct (last l1). }
  naive_solver.
Qed.

Lemma next_id_gt l r : r ∈ l -> (ar_ID r < next_id l)%Z.
Proof.
  unfold next_id. induction l as [|x l IH]; [set_solver|].
  intros [->|H]%elem_of_cons; simpl; [lia|]. specialize (IH H). lia.
Qed.

(** A row with the greatest id of its chain comes last. *)
Lemma chain_rows_last orgID l r :
  (chained orgID r = true -> forall x, x ∈ l -> chained orgID x = true -> (ar_ID x < ar_ID r)%Z) ->
  chain_rows orgID (l ++ [r]) =
  chain_rows orgID l ++ (if chained orgID r then [r] else []).
Proof.
  intros Hid. unfold chain_rows. rewrite where_app. simpl.
  destruct (chained orgID r); [|by rewrite !app_nil_r].
  apply order_by_snoc. intros x [Hx Hc]%where_elem. apply Z.leb_le.
  specialize (Hid eq_refl x Hx Hc). lia.
Qed.
Lemma chain_rows_snoc orgID l r :
  ar_ID r = next_id l ->
  chain_rows orgID (l ++ [r]) =
  chain_rows orgID l ++ (if chained orgID r then [r] else []).
Proof.
  intros Hid. apply chain_rows_last. intros _ x Hx _. rewrite Hid. by apply next_id_gt.
Qed.

(** The hash WriteAudit reads is the one the verifier expects next. *)
Definition ids_differ (l : list AuditRow) : Prop :=
  forall x y, x ∈ l -> y ∈ l -> ar_ID x = ar_ID y -> x = y.
Lemma last_row_hash_end orgID l :
  ids_differ (where_ (chained orgID) l) ->
  last_row_hash orgID l = end_hash None (chain_rows orgID l).
Proof.
  intros Hinj. unfold last_row_hash, end_hash, chain_rows.
  rewrite (desc_head_asc_last ar_ID _ Hinj).
  destruct (last (asc ar_ID _)) as [r|] eqn:E; [|done]. simpl.
  apply last_Some_elem_of in E. apply order_by_elem in E.
  apply where_elem in E as [_ E]. unfold chained in E. bool_prop.
  apply bool_decide_eq_true in H0. unfold stored_hash. by destruct (ar_RowHash r).
Qed.
Lemma last_hash_end orgID d :
  NoDup (map ar_ID (audit_events d)) ->
  last_hash orgID d = end_hash None (chain_rows orgID (audit_events d)).
Proof.
  intros Hnd. apply last_row_hash_end. intros x y [Hx _]%where_elem [Hy _]%where_elem.
  apply list_elem_of_lookup in Hx as [i Hi], Hy as [j Hj]. intros Heq.
  assert (i = j) as ->; [|congruence].
  eapply NoDup_lookup; [exact Hnd|..]; rewrite list_lookup_fmap.
  - rewrite Hi. done.
  - rewrite Hj. simpl. by rewrite Heq.
Qed.

(** ** What a successful append does *)

Lemma set_hash_snoc l row h :
  ar_ID row = next_id l ->
  upd_rows (fun r => ar_ID r =? ar_ID row)%Z (set_ar_RowHash (Some h)) (l ++ [row]) =
  l ++ [set_ar_RowHash (Some h) row].
Proof.
  intros Hid. rewrite upd_rows_app, upd_rows_none.
  - cbn. by rewrite Z.eqb_refl.
  - intros x Hx. pose proof (next_id_gt _ _ Hx). apply Z.eqb_neq. lia.
Qed.

(** The row an append adds: its number, contents and link. *)
Definition appended (orgID actorUserID actorType action targetType targetID meta ip : str)
    (prev : str) (l : list AuditRow) (row : AuditRow) : Prop :=
  ar_ID row = next_id l /\ ar_OrgID row = orgID /\ ar_ActorUserID row = actorUserID /\
  ar_ActorType row = actorType /\ ar_Action row = action /\ ar_TargetType row = targetType /\
  ar_TargetID row = targetID /\ ar_Metadata row = meta /\ ar_IP row = ip /\ ar_PrevHash row = prev /\
  ar_RowHash row = Some (row_hash_of orgID row).

(** Everything but the audit table and the statement counter. *)
Definition other_tables (d : DB) : DB := set_db_tick 0 (set_audit_events [] d).
Definition same_tables (d d' : DB) : Prop := other_tables d = other_tables d'.

Lemma audit_body_spec orgID actor ty action tt_ tid meta ip d u d' :
  audit_body orgID actor ty action tt_ tid meta ip d = (inr u, d') ->
  exists prev row,
    audit_events d' = audit_events d ++ [row] /\
    appended orgID actor ty action tt_ tid meta ip prev (audit_events d) row /\
    (env_driver = Postgres -> prev = default "" (last_hash orgID d)) /\
    same_tables d d'.
Proof.
  unfold audit_body. intros H. run_simpl.
  assert (audit_events x0 = audit_events d /\ same_tables d x0) as [He Ho].
  { destruct env_driver; run_simpl; [|done]. by apply exec_inr in H0 as ->. }
  destruct (query_row _ x0) as [r x2'] eqn:Eq. simplify_eq/=.
  assert (x2 = set_db_tick (S (db_tick x0)) x0 /\
          (env_driver = Postgres -> aborts x1 = false ->
           match x1 with inr h => h | inl _ => "" end = default "" (last_hash orgID d)))
    as [-> Hprev].
  { assert (last_hash orgID (set_db_tick (S (db_tick x0)) x0) = last_hash orgID d) as Hl
      by (unfold last_hash; cbn; by rewrite He).
    destruct x1 as [e|h].
    - pose proof (stmt_inl _ _ _ _ Eq) as ->. split; [done|]. intros Hd Ha.
      unfold aborts in Ha. rewrite Hd in Ha. destruct e; [|done].
      unfold query_row, stmt in Eq. destruct (env_fault _); [done|].
      rewrite <- Hl. by destruct (last_hash _ _).
    - apply query_row_inr in Eq as [-> Eq]. split; [done|]. intros _ _.
      by rewrite <- Hl, Eq. }
  destruct (aborts x1) eqn:Ea; run_simpl.
  apply insert_inr in H3 as [_ H3]. cbn in H3. injection H3 as <- <-.
  apply exec_inr in H. subst d'.
  eexists _, _. split; [|split; [|split]].
  - rewrite <- He.
    apply (set_hash_snoc (audit_events x0)
             (mkAuditRow (next_id (audit_events x0)) orgID actor ty action tt_ tid meta ip
                _ None _)).
    reflexivity.
  - unfold appended. cbn. rewrite He. repeat split.
  - intros Hd. by apply Hprev.
  - unfold same_tables in *. rewrite Ho. reflexivity.
Qed.

Lemma row_hash_set orgID h row :
  row_hash_of orgID (set_ar_RowHash h row) = row_hash_of orgID row.
Proof. reflexivity. Qed.

Lemma appended_chained orgID a ty ac tt_ ti m ip prev l row o :
  appended orgID a ty ac tt_ ti m ip prev l row ->
  chained o row = (orgID =s o).
Proof.
  intros (_ & Ho & _ & _ & _ & _ & _ & _ & _ & _ & Hh). unfold chained. rewrite Ho, Hh.
  rewrite bool_decide_true by done. apply andb_true_r.
Qed.

Lemma append_keeps_inv orgID a ty ac tt_ ti m ip row d d' :
  audit_events d' = audit_events d ++ [row] ->
  appended orgID a ty ac tt_ ti m ip (default "" (last_hash orgID d)) (audit_events d) row ->
  chain_inv d -> chain_inv d'.
Proof.
  intros Hev Happ [Hnd Hlink]. split.
  - rewrite Hev, map_app. apply NoDup_app. split; [done|]. split.
    + intros x (r & -> & Hr)%list_elem_of_fmap. destruct Happ as (Hid & _).
      pose proof (next_id_gt _ _ Hr). simpl. rewrite list_elem_of_singleton. lia.
    + apply NoDup_singleton.
  - intros o. rewrite Hev, chain_rows_snoc by apply Happ.
    rewrite (appended_chained _ _ _ _ _ _ _ _ _ _ _ o Happ).
    destruct (orgID =s o) eqn:E; [|rewrite app_nil_r; apply Hlink].
    bool_prop. subst o. apply linked_app. split; [apply Hlink|].
    destruct Happ as (_ & _ & _ & _ & _ & _ & _ & _ & _ & Hp & Hh). cbn.
    unfold stored_hash. rewrite Hh, Hp. repeat split. cbn.
    rewrite <- last_hash_end by done. by destruct (last_hash orgID d).
Qed.

Lemma chain_inv_tick n d : chain_inv d -> chain_inv (set_db_tick n d).
Proof. done. Qed.

Lemma transact_inr {A} (m : M DB DBErr A) p1 p2 d a d' :
  transact m p1 p2 d = (inr a, d') ->
  exists n d2 n2, m (set_db_tick n d) = (inr a, d2) /\ d' = set_db_tick n2 d2.
Proof.
  unfold transact. destruct (exec _ d) as [[e|u] d1] eqn:E1; [done|].
  apply exec_inr in E1. destruct (m d1) as [[e|b] d2] eqn:E2; [done|].
  destruct (exec _ d2) as [[e|u'] d3] eqn:E3; [done|]. apply exec_inr in E3.
  intros [= -> ->]. subst. eauto.
Qed.
Lemma transact_inl {A} (m : M DB DBErr A) p1 p2 d e d' :
  transact m p1 p2 d = (inl e, d') -> exists n, d' = set_db_tick n d.
Proof.
  unfold transact. destruct (exec _ d) as [[e1|u] d1] eqn:E1.
  { intros H. simplify_eq. apply stmt_inl in E1. eauto. }
  apply exec_inr in E1. destruct (m d1) as [[e1|b] d2] eqn:E2.
  { intros H. simplify_eq. eauto. }
  destruct (exec _ d2) as [[e1|u'] d3] eqn:E3; intros H; simplify_eq. eauto.
Qed.

(** ** The hashed fields of a row *)

Definition row_fields (orgID : str) (r : AuditRow) : list str :=
  [Itoa (ar_ID r); orgID; ar_ActorUserID r; ar_ActorType r; ar_Action r; ar_TargetType r;
   ar_TargetID r; ar_Metadata r; Time.RFC3339Nano (ar_CreatedAt r)].

(** What is written to the hash. *)
Definition hashed_text (orgID : str) (r : AuditRow) : str :=
  (ar_PrevHash r ++ Join (row_fields orgID r) "|")%string.
Lemma row_hash_text orgID r : row_hash_of orgID r = Sha256.Sum256 (hashed_text orgID r).
Proof. reflexivity. Qed.

Lemma Join_insert_inj l i x sep :
  Join (<[i:=x]> l) sep = Join l sep -> i < length l -> l !! i = Some x.
Proof.
  revert i. induction l as [|y l IH]; intros [|i] H Hi; simpl in Hi; try lia.
  - simpl in *. destruct l as [|z l]; [by subst|].
    by apply str_app_inj_r in H as ->.
  - simpl in *. apply IH; [|lia].
    destruct l as [|z l]; [simpl in Hi; lia|].
    destruct i; simpl in H |- *; by do 2 apply str_app_inj_l in H.
Qed.

Lemma verify_ok_count orgID e c rows :
  linked orgID e rows ->
  verify_rows orgID e c rows = mkAuditVerifyResult (c + length rows) true 0 "".
Proof.
  revert e c. induction rows as [|r rows IH]; intros e c H; simpl.
  { by rewrite Nat.add_0_r. }
  destruct H as (Hp & Hh & Hl).
  assert (match e with Some h => negb (ar_PrevHash r =s h) | None => false end = false) as ->.
  { destruct e; [|done]. by rewrite Hp, eqb_refl_str. }
  rewrite Hh, eqb_refl_str. cbn. rewrite IH by done. f_equal. lia.
Qed.

Lemma verify_app orgID e c l1 l2 :
  linked orgID e l1 ->
  verify_rows orgID e c (l1 ++ l2) =
  verify_rows orgID (end_hash e l1) (c + length l1) l2.
Proof.
  revert e c. induction l1 as [|r l1 IH]; intros e c H; simpl.
  { by rewrite Nat.add_0_r. }
  destruct H as (Hp & Hh & Hl).
  assert (match e with Some h => negb (ar_PrevHash r =s h) | None => false end = false) as ->.
  { destruct e; [|done]. by rewrite Hp, eqb_refl_str. }
  rewrite Hh, eqb_refl_str. cbn. rewrite IH by done.
  assert (end_hash (Some (stored_hash r)) l1 = end_hash e (r :: l1)) as ->.
  { unfold end_hash. rewrite last_cons. by destruct (last l1). }
  f_equal. lia.
Qed.

(** * Claims *)

(** C10: on Postgres, whatever statements fail, [WriteAudit] leaves every org's
    hash chain intact: [VerifyAuditChain] then reports OK and counts every
    chained row of the org. *)
Theorem WriteAudit_keeps_chain
    (Hpg : env_driver = Postgres)
    orgID actor ty action tt_ tid meta ip d r d' (Hinv : chain_inv d)
    (Hrun : WriteAudit orgID actor ty action tt_ tid meta ip d = (r, d')) :
  chain_inv d' /\
  forall o v d'', VerifyAuditChain o d' = (inr v, d'') ->
    v = mkAuditVerifyResult (length (chain_rows o (audit_events d'))) true 0 "".
Proof.
  assert (chain_inv d') as Hinv'.
  { destruct r as [e|u].
    - apply transact_inl in Hrun as [n ->]. by apply chain_inv_tick.
    - apply transact_inr in Hrun as (n & d2 & n2 & Hm & ->). apply chain_inv_tick.
      apply audit_body_spec in Hm as (prev & row & Hev & Happ & Hprev & _).
      rewrite (Hprev Hpg) in Happ. by eapply append_keeps_inv. }
  split; [done|]. intros o v d'' Hv. apply mapErr_inr, query_inr in Hv as [_ ->].
  apply (verify_ok_count o None 0). by apply Hinv'.
Qed.

(** An append is atomic and complete: on success exactly one row is added,
    numbered after all others, carrying the event's fields, the previous row's
    hash (read on Postgres) and its own hash, and no other table changes; on
    failure no table changes. *)
Theorem WriteAudit_appends
    orgID actor ty action tt_ tid meta ip d r d'
    (Hrun : WriteAudit orgID actor ty action tt_ tid meta ip d = (r, d')) :
  same_tables d d' /\
  match r with
  | inl _ => audit_events d' = audit_events d
  | inr _ => exists prev row,
      audit_events d' = audit_events d ++ [row] /\
      appended orgID actor ty action tt_ tid (env_jsonb (default [] meta)) ip prev
        (audit_events d) row /\
      (env_driver = Postgres -> prev = default "" (last_hash orgID d))
  end.
Proof.
  destruct r as [e|u].
  - apply transact_inl in Hrun as [n ->]. done.
  - apply transact_inr in Hrun as (n & d2 & n2 & Hm & ->).
    apply audit_body_spec in Hm as (prev & row & Hev & Happ & Hprev & Hs).
    split; [exact Hs|]. by exists prev, row.
Qed.

(** ** Edited rows *)

(** The ten hashed columns, [prev_hash] first. *)
Definition hashed_fields (r : AuditRow) : list str := ar_PrevHash r :: row_fields (ar_OrgID r) r.
(** Exactly one of them differs; the stored [row_hash] stays. *)
Definition one_edit (r r' : AuditRow) : Prop :=
  ar_RowHash r' = ar_RowHash r /\
  exists i x, i < 10 /\ hashed_fields r' = <[i:=x]> (hashed_fields r) /\
    hashed_fields r !! i <> Some x.
(** [UPDATE audit_events SET ... WHERE id = ...], behind the application's back. *)
Definition edit_row (r r' : AuditRow) (d : DB) : DB :=
  set_audit_events (upd_rows (fun y => ar_ID y =? ar_ID r)%Z (fun _ => r') (audit_events d)) d.
(** Two different texts with the same SHA-256. *)
Definition collision (r r' : AuditRow) : Prop :=
  hashed_text (ar_OrgID r) r <> hashed_text (ar_OrgID r') r' /\
  Sha256.Sum256 (hashed_text (ar_OrgID r) r) = Sha256.Sum256 (hashed_text (ar_OrgID r') r').

Lemma one_edit_text r r' : one_edit r r' ->
  hashed_text (ar_OrgID r) r <> hashed_text (ar_OrgID r') r'.
Proof.
  intros (_ & i & x & Hi & He & Hd) Heq. unfold hashed_text, hashed_fields in *.
  generalize dependent (row_fields (ar_OrgID r') r'). intros f' He Heq.
  destruct i as [|i]; cbn in He; injection He as Hp ->.
  - apply str_app_inj_r in Heq. apply Hd. cbn. congruence.
  - rewrite Hp in Heq. apply str_app_inj_l in Heq. apply Hd. cbn. symmetry in Heq.
    eapply Join_insert_inj; [exact Heq|cbn; lia].
Qed.

(** The hash a row of an intact chain carries is that of its own text. *)
Lemma linked_row orgID e rows r : linked orgID e rows -> r ∈ rows ->
  row_hash_of orgID r = stored_hash r.
Proof.
  revert e. induction rows as [|x rows IH]; intros e H Hin; [set_solver|].
  destruct H as (_ & Hh & Hl). apply elem_of_cons in Hin as [->|Hin]; [done|]. by eapply IH.
Qed.
Lemma chain_rows_elem o l r : r ∈ chain_rows o l <-> r ∈ l /\ chained o r = true.
Proof. unfold chain_rows, asc. by rewrite order_by_elem, where_elem. Qed.
Lemma chained_self r : ar_RowHash r <> None -> chained (ar_OrgID r) r = true.
Proof. intros H. unfold chained. rewrite eqb_refl_str. by apply bool_decide_eq_true. Qed.
Lemma edited_elem r r' (l : list AuditRow) : r ∈ l ->
  r' ∈ upd_rows (fun y => ar_ID y =? ar_ID r)%Z (fun _ => r') l.
Proof.
  intros H. apply list_elem_of_fmap. exists r. split; [|done]. by rewrite Z.eqb_refl.
Qed.

(** An edit that keeps id and organization keeps the row's place in the chain. *)
Lemma order_by_map {X} (le : X -> X -> bool) (f : X -> X) l :
  (forall x y, le (f x) (f y) = le x y) -> order_by le (map f l) = map f (order_by le l).
Proof.
  intros Hle. induction l as [|x l IH]; [done|]. unfold order_by in *. cbn. rewrite IH.
  generalize (foldr (insert_by le) [] l). intros m. induction m as [|y m IHm]; [done|]. cbn.
  rewrite Hle. destruct (le x y); [done|]. cbn. by rewrite IHm.
Qed.
Lemma map_id_in {X} (f : X -> X) l : (forall x, x ∈ l -> f x = x) -> map f l = l.
Proof. induction l as [|x l IH]; intros H; [done|]. cbn. rewrite H, IH by set_solver. done. Qed.
Lemma chain_rows_map o (f : AuditRow -> AuditRow) l :
  (forall x, ar_ID (f x) = ar_ID x) -> (forall x, x ∈ l -> chained o (f x) = chained o x) ->
  chain_rows o (map f l) = map f (chain_rows o l).
Proof.
  intros Hid Hf. unfold chain_rows, asc. rewrite <-order_by_map by (intros; by rewrite !Hid).
  f_equal. induction l as [|x l IH]; [done|]. cbn. rewrite Hf by set_solver.
  destruct (chained o x); cbn; by rewrite IH by set_solver.
Qed.
Lemma chain_rows_edit d r r' : NoDup (map ar_ID (audit_events d)) -> r ∈ audit_events d ->
  ar_RowHash r <> None -> ar_ID r' = ar_ID r -> ar_OrgID r' = ar_OrgID r ->
  ar_RowHash r' = ar_RowHash r ->
  exists l1 l2, chain_rows (ar_OrgID r) (audit_events d) = l1 ++ r :: l2 /\
    chain_rows (ar_OrgID r) (audit_events (edit_row r r' d)) = l1 ++ r' :: l2.
Proof.
  intros Hnd Hr Hh Hid Ho Hrh.
  assert (r ∈ chain_rows (ar_OrgID r) (audit_events d)) as Hin
    by (apply chain_rows_elem; split; [done|by apply chained_self]).
  assert (NoDup (map ar_ID (chain_rows (ar_OrgID r) (audit_events d)))) as Hndc.
  { unfold chain_rows, asc. rewrite order_by_perm. by apply NoDup_map_where. }
  apply list_elem_of_split in Hin as (l1 & l2 & El). exists l1, l2. split; [done|].
  cbn. unfold upd_rows. rewrite chain_rows_map.
  - rewrite El, map_app. cbn. rewrite Z.eqb_refl.
    rewrite El, map_app in Hndc. cbn in Hndc. apply NoDup_app in Hndc as (_ & H1 & H2).
    apply NoDup_cons in H2 as [H2 _].
    f_equal; [|f_equal]; apply map_id_in; intros y Hy;
      (destruct (Z.eqb_spec (ar_ID y) (ar_ID r)) as [E|]; [exfalso|done]).
    + apply (H1 (ar_ID y)); [by apply list_elem_of_fmap; exists y|rewrite E; set_solver].
    + apply H2. apply list_elem_of_fmap. by exists y.
  - intros x. destruct (Z.eqb_spec (ar_ID x) (ar_ID r)) as [E|]; congruence.
  - intros x Hx. destruct (Z.eqb_spec (ar_ID x) (ar_ID r)) as [E|]; [|done].
    rewrite (NoDup_map_eq ar_ID (audit_events d) x r Hnd Hx Hr E).
    unfold chained. by rewrite Ho, Hrh.
Qed.

(** Where the verification of the edited chain stops. *)
Lemma verify_edited o l1 r r' l2 : linked o None (l1 ++ r :: l2) -> ar_ID r' = ar_ID r ->
  row_hash_of o r' <> stored_hash r' ->
  exists why, verify_rows o None 0 (l1 ++ r' :: l2) =
    mkAuditVerifyResult (length l1) false (ar_ID r) why.
Proof.
  intros [H1 _]%linked_app Hid Hh. rewrite verify_app by done. cbn. rewrite Hid.
  apply eqb_false_str in Hh. rewrite Hh. cbn.
  by destruct (match end_hash None l1 with Some h => _ | None => false end); eexists.
Qed.

(** C11: no hashed column of an audit event can be changed unnoticed.  When every chain
    of the log is intact and exactly one of the ten hashed columns of a hashed row
    (prev_hash, id, org_id, actor, actor type, action, target type, target id,
    metadata, time) is overwritten, its row_hash left as stored, then the verification
    of the chain the row is in after the edit (that of its new organization when org_id
    was changed) fails; and unless id or org_id was changed, it names this row as the
    first broken one, after counting all rows before it.  The one exception is an edit
    whose hashed text collides with the original under SHA-256. *)
Theorem edited_row_detected d r r' v d''
    (Hinv : chain_inv d) (Hr : r ∈ audit_events d) (Hhash : ar_RowHash r <> None)
    (Hedit : one_edit r r')
    (Hrun : VerifyAuditChain (ar_OrgID r') (edit_row r r' d) = (inr v, d'')) :
  (av_OK v = false /\
   (ar_ID r' = ar_ID r -> ar_OrgID r' = ar_OrgID r ->
    exists l1 l2, chain_rows (ar_OrgID r) (audit_events d) = l1 ++ r :: l2 /\
      av_Checked v = length l1 /\ av_BrokenID v = ar_ID r)) \/
  collision r r'.
Proof.
  destruct Hinv as [Hnd Hl]. pose proof (one_edit_text _ _ Hedit) as Htext.
  destruct Hedit as [Hrh _]. apply mapErr_inr, query_inr in Hrun as [_ ->].
  change (audit_events (set_db_tick _ ?x)) with (audit_events x).
  assert (row_hash_of (ar_OrgID r) r = stored_hash r) as Hown
    by (eapply linked_row; [apply Hl|apply chain_rows_elem; split; [done|by apply chained_self]]).
  assert (stored_hash r' = stored_hash r) as Hst by (unfold stored_hash; by rewrite Hrh).
  destruct (decide (row_hash_of (ar_OrgID r') r' = stored_hash r')) as [Heq|Hne].
  { right. split; [done|]. rewrite <-!row_hash_text. congruence. }
  left. split.
  - apply not_true_is_false. rewrite verify_ok_linked. intros Hlk. apply Hne.
    eapply linked_row; [exact Hlk|]. apply chain_rows_elem. split; [by apply edited_elem|].
    apply chained_self. by rewrite Hrh.
  - intros Hid Ho. destruct (chain_rows_edit d r r') as (l1 & l2 & E & E'); [done..|].
    exists l1, l2. split; [done|]. rewrite Ho in *. rewrite E'.
    specialize (Hl (ar_OrgID r)). rewrite E in Hl.
    by destruct (verify_edited _ _ _ _ _ Hl Hid Hne) as (why & ->).
Qed.

(** Deleting a row from the middle of an intact chain is reported at the row
    that followed it, as long as the deleted row and its predecessor have
    different hashes. *)
Theorem deleted_middle_row_detected orgID l1 r0 r r2 l2
    (Hchain : linked orgID None (l1 ++ r0 :: r :: r2 :: l2))
    (Hdiff : stored_hash r0 <> stored_hash r) :
  verify_rows orgID None 0 (l1 ++ r0 :: r2 :: l2) =
  mkAuditVerifyResult (S (length l1)) false (ar_ID r2) "prev_hash mismatch".
Proof.
  change (l1 ++ r0 :: r :: r2 :: l2) with (l1 ++ [r0] ++ r :: r2 :: l2) in Hchain.
  change (l1 ++ r0 :: r2 :: l2) with (l1 ++ [r0] ++ r2 :: l2).
  rewrite app_assoc in Hchain |- *. apply linked_app in Hchain as [H1 H2].
  rewrite verify_app by done.
  assert (end_hash None (l1 ++ [r0]) = Some (stored_hash r0)) as ->
    by (unfold end_hash; by rewrite last_snoc).
  destruct H2 as (_ & _ & Hp2 & _). simpl. rewrite Hp2.
  apply not_eq_sym, eqb_false_str in Hdiff. rewrite Hdiff. cbn.
  rewrite length_app. cbn. by rewrite Nat.add_1_r.
Qed.

(** The check does not protect the ends of the log: an intact chain stays
    intact when its first row, or any number of rows at its end, are deleted. *)
Theorem chain_ends_unprotected orgID r l1 l2
    (Hchain : linked orgID None (r :: l1 ++ l2)) :
  av_OK (verify_rows orgID None 0 (r :: l1)) = true /\
  av_OK (verify_rows orgID None 0 (l1 ++ l2)) = true.
Proof.
  split; apply verify_ok_linked.
  - change (r :: l1 ++ l2) with ((r :: l1) ++ l2) in Hchain.
    by apply linked_app in Hchain as [Hc _].
  - destruct Hchain as (_ & _ & Hc). destruct (l1 ++ l2); [done|]. simpl in *. tauto.
Qed.

(** The hashed text does not delimit its fields: moving text across the
    border of target type and target id leaves the row hash unchanged, so that
    edit is not reported. *)
Theorem field_shift_same_hash orgID row x y z :
  row_hash_of orgID (set_ar_TargetID z (set_ar_TargetType (x ++ "|" ++ y) row)) =
  row_hash_of orgID (set_ar_TargetID (y ++ "|" ++ z) (set_ar_TargetType x row)).
Proof.
  unfold row_hash_of, auditCanonical. cbn. by rewrite !str_app_assoc.
Qed.

End AuditLog.

(** ** Worked examples *)

Definition demo_row (id : Z) (action prev : str) : AuditRow :=
  mkAuditRow id "o1" "" "system" action "bucket" "b1" "" "" prev None 5.
Definition with_hash (r : AuditRow) : AuditRow :=
  set_ar_RowHash (Some (row_hash_of "o1" r)) r.
Definition demo_chain : list AuditRow :=
  let r1 := with_hash (demo_row 1 "a" "") in
  let r2 := with_hash (demo_row 2 "b" (stored_hash r1)) in
  let r3 := with_hash (demo_row 3 "c" (stored_hash r2)) in
  [r1; r2; r3].
Definition demo_db : DB :=
  set_orgs [mkLive (mkOrg "o1" "Org" "org" "active" None "" None 0) None]
    (set_audit_events demo_chain empty_db).

Lemma chain_inv_one o0 d :
  bool_decide (NoDup (map ar_ID (audit_events d))) = true ->
  forallb (fun r => ar_OrgID r =s o0) (audit_events d) = true ->
  av_OK (verify_rows o0 None 0 (chain_rows o0 (audit_events d))) = true -> chain_inv d.
Proof.
  intros H1 H2 H3. split; [by apply bool_decide_eq_true in H1|]. intros o.
  destruct (decide (o = o0)) as [->|Hne]; [by apply verify_ok_linked in H3|].
  unfold chain_rows. rewrite where_false; [done|]. intros r Hr.
  rewrite List.forallb_forall in H2. apply list_elem_of_In, H2 in Hr.
  unfold chained. bool_prop. subst. apply not_eq_sym, eqb_false_str in Hne. by rewrite Hne.
Qed.

Lemma WriteAudit_keeps_chain_witness :
  let E := example_env Postgres no_fault in
  chain_inv (snd (WriteAudit "o1" "" "system" "x" "t" "id" None "" demo_db)).
Proof.
  intros E. refine (proj1 (WriteAudit_keeps_chain (ENV := E) eq_refl "o1" "" "system" "x" "t"
    "id" None "" demo_db _ _ _ (surjective_pairing _))).
  apply (chain_inv_one "o1"); vm_compute; reflexivity.
Defined.

Lemma WriteAudit_appends_witness :
  let E := example_env Postgres no_fault in
  let out := WriteAudit "o1" "" "system" "x" "t" "id" None "" demo_db in
  fst out = inr tt /\ same_tables demo_db (snd out).
Proof.
  intros E out. split; [vm_compute; reflexivity|].
  exact (proj1 (WriteAudit_appends (ENV := E) "o1" "" "system" "x" "t" "id" None "" demo_db
    _ _ (surjective_pairing _))).
Defined.

Lemma edited_row_detected_witness :
  let E := example_env Postgres no_fault in
  let r2 := with_hash (demo_row 2 "b" (stored_hash (with_hash (demo_row 1 "a" "")))) in
  let r2' := set_ar_Action "forged" r2 in
  let out := VerifyAuditChain "o1" (edit_row r2 r2' demo_db) in
  exists v, fst out = inr v /\
    (av_OK v = false /\
     (ar_ID r2' = ar_ID r2 -> ar_OrgID r2' = ar_OrgID r2 ->
      exists l1 l2, chain_rows "o1" (audit_events demo_db) = l1 ++ r2 :: l2 /\
        av_Checked v = length l1 /\ av_BrokenID v = 2%Z) \/
     collision r2 r2').
Proof.
  intros E r2 r2' out. destruct (fst out) as [e|v] eqn:Ev; [exfalso; vm_compute in Ev; discriminate|].
  exists v. split; [done|].
  refine (edited_row_detected (ENV := E) demo_db r2 r2' v (snd out) _ _ _ _
            (eq_trans (surjective_pairing _) (f_equal2 pair Ev eq_refl))).
  - apply (chain_inv_one "o1"); vm_compute; reflexivity.
  - apply list_elem_of_lookup. exists 1. vm_compute. reflexivity.
  - vm_compute. discriminate.
  - split; [reflexivity|]. exists 5, "forged". split; [lia|]. split; [reflexivity|].
    vm_compute. discriminate.
Defined.

Lemma deleted_middle_row_detected_witness :
  let E := example_env Postgres no_fault in
  let r1 := with_hash (demo_row 1 "a" "") in
  let r2 := with_hash (demo_row 2 "b" (stored_hash r1)) in
  let r3 := with_hash (demo_row 3 "c" (stored_hash r2)) in
  verify_rows "o1" None 0 [r1; r3] = mkAuditVerifyResult 1 false 3 "prev_hash mismatch".
Proof.
  intros E r1 r2 r3.
  refine (deleted_middle_row_detected "o1" [] r1 r2 r3 [] _ _).
  - apply (proj1 (verify_ok_linked "o1" None 0 [r1; r2; r3])).
    vm_compute. reflexivity.
  - vm_compute. discriminate.
Defined.

Lemma chain_ends_unprotected_witness :
  let E := example_env Postgres no_fault in
  let r1 := with_hash (demo_row 1 "a" "") in
  let r2 := with_hash (demo_row 2 "b" (stored_hash r1)) in
  av_OK (verify_rows "o1" None 0 [r1]) = true /\ av_OK (verify_rows "o1" None 0 [r2]) = true.
Proof.
  intros E r1 r2.
  refine (chain_ends_unprotected "o1" r1 [] [r2] _).
  apply (proj1 (verify_ok_linked "o1" None 0 [r1; r2])). vm_compute. reflexivity.
Defined.

(** On SQLite the read of the previous hash may fail unnoticed: the append
    then starts a new chain in the middle of the log and the intact log no longer
    verifies. *)
Theorem sqlite_lost_read_breaks_chain :
  exists (E : Env) d d', env_driver = SQLite /\ chain_inv d /\
    WriteAudit "o1" "" "system" "x" "t" "id" None "" d = (inr tt, d') /\
    av_OK (verify_rows "o1" None 0 (chain_rows "o1" (audit_events d'))) = false.
Proof.
  set (E := example_env SQLite (fault_at 1)).
  exists E, demo_db, (snd (@WriteAudit E "o1" "" "system" "x" "t" "id" None "" demo_db)).
  split; [done|]. split; [|split; vm_compute; reflexivity].
  apply (chain_inv_one "o1"); vm_compute; reflexivity.
Qed.

End AuditLog.
