(* ===== verification/AuditConcurrency.v ===== *)
(** src/internal/repository/audit.go under concurrent writers: the transactions of
    [WriteAudit] on Postgres, interleaved statement by statement.

    A transaction starts, takes the advisory lock of its organization, reads the
    newest hash, inserts its row, writes the row's hash and commits.  A statement
    sees what is committed when it runs; a row is visible to others from the commit
    on; the lock is released by the commit or the rollback; ids come from a sequence
    that rolls nothing back.  Any statement may fail and the process may die: the
    transaction is then rolled back, at any point. *)
From S2P Require Import Prelude GoStrings Hashes GoTime Database Repository AuditLog.
#[local] Open Scope string_scope.

Module AuditConcurrency.
Import AuditLog.

(** The arguments of one call of [WriteAudit]. *)
Record Event := mkEvent {
  e_OrgID : str; e_ActorUserID : str; e_ActorType : str; e_Action : str; e_TargetType : str;
  e_TargetID : str; e_Metadata : str; e_IP : str }.

(** How far a transaction has come. *)
Inductive Stage :=
  | Started
  | Locked
  | Linked (prev : str)
  | Inserted (row : AuditRow)
  | Hashed (row : AuditRow).
Record Tx := mkTx { tx_event : Event; tx_stage : Stage }.

(** The server: committed rows in the order of their commits, the next id, who
    holds which lock, the open transactions. *)
Record Pg := mkPg {
  pg_rows : list AuditRow; pg_seq : Z; pg_locks : gmap Z nat; pg_txs : gmap nat Tx }.

Inductive Action :=
  | Begin (t : nat) (e : Event)
  | AcquireLock (t : nat)
  | ReadPrev (t : nat)
  | Insert (t : nat) (now : Z)
  | SetHash (t : nat)
  | Commit (t : nat)
  | Rollback (t : nat).

Definition row_of (e : Event) (prev : str) (id now : Z) : AuditRow :=
  mkAuditRow id (e_OrgID e) (e_ActorUserID e) (e_ActorType e) (e_Action e) (e_TargetType e)
    (e_TargetID e) (e_Metadata e) (e_IP e) prev None now.
Definition event_of (r : AuditRow) : Event :=
  mkEvent (ar_OrgID r) (ar_ActorUserID r) (ar_ActorType r) (ar_Action r) (ar_TargetType r)
    (ar_TargetID r) (ar_Metadata r) (ar_IP r).

Definition release (t : nat) (locks : gmap Z nat) : gmap Z nat :=
  filter (fun kv => snd kv <> t) locks.
Definition at_stage (t : nat) (e : Event) (s : Stage) (st : Pg) : Pg :=
  mkPg (pg_rows st) (pg_seq st) (pg_locks st) (<[t := mkTx e s]> (pg_txs st)).

(** One statement of one transaction, with the row it commits; [None] when it
    cannot run now. *)
Definition next (a : Action) (st : Pg) : option (Pg * list Event) :=
  match a with
  | Begin t e =>
      match pg_txs st !! t with Some _ => None | None => Some (at_stage t e Started st, []) end
  | AcquireLock t =>
      match pg_txs st !! t with
      | Some (mkTx e Started) =>
          let k := orgLockKey (e_OrgID e) in
          match pg_locks st !! k with
          | Some _ => None
          | None =>
              Some (mkPg (pg_rows st) (pg_seq st) (<[k := t]> (pg_locks st))
                      (<[t := mkTx e Locked]> (pg_txs st)), [])
          end
      | _ => None
      end
  | ReadPrev t =>
      match pg_txs st !! t with
      | Some (mkTx e Locked) =>
          Some (at_stage t e (Linked (default "" (last_row_hash (e_OrgID e) (pg_rows st)))) st, [])
      | _ => None
      end
  | Insert t now =>
      match pg_txs st !! t with
      | Some (mkTx e (Linked prev)) =>
          Some (mkPg (pg_rows st) (pg_seq st + 1) (pg_locks st)
                  (<[t := mkTx e (Inserted (row_of e prev (pg_seq st) now))]> (pg_txs st)), [])
      | _ => None
      end
  | SetHash t =>
      match pg_txs st !! t with
      | Some (mkTx e (Inserted row)) =>
          Some (at_stage t e (Hashed (set_ar_RowHash (Some (row_hash_of (e_OrgID e) row)) row)) st, [])
      | _ => None
      end
  | Commit t =>
      match pg_txs st !! t with
      | Some (mkTx e (Hashed row)) =>
          Some (mkPg (pg_rows st ++ [row]) (pg_seq st) (release t (pg_locks st))
                  (delete t (pg_txs st)), [e])
      | _ => None
      end
  | Rollback t =>
      match pg_txs st !! t with
      | Some _ => Some (mkPg (pg_rows st) (pg_seq st) (release t (pg_locks st))
                          (delete t (pg_txs st)), [])
      | None => None
      end
  end.

(** Every interleaving, with the events in the order of their commits. *)
Inductive runs (st : Pg) : list Event -> Pg -> Prop :=
  | runs_start : runs st [] st
  | runs_next log st1 a st2 new :
      runs st log st1 -> next a st1 = Some (st2, new) -> runs st (log ++ new)%list st2.

(** ** The invariant *)

Definition org_of (x : Tx) : str := e_OrgID (tx_event x).
Definition chain_end (org : str) (rows : list AuditRow) : str := default "" (last_row_hash org rows).
Definition started (s : Stage) : bool := match s with Started => true | _ => false end.

(** A row that was inserted: it continues the chain as it is committed now. *)
Definition continues (rows : list AuditRow) (seq : Z) (e : Event) (row : AuditRow) : Prop :=
  event_of row = e /\ ar_PrevHash row = chain_end (e_OrgID e) rows /\ (ar_ID row < seq)%Z /\
  forall r, r ∈ rows -> chained (e_OrgID e) r = true -> (ar_ID r < ar_ID row)%Z.
Definition tx_ok (rows : list AuditRow) (seq : Z) (x : Tx) : Prop :=
  let e := tx_event x in
  match tx_stage x with
  | Started | Locked => True
  | Linked prev => prev = chain_end (e_OrgID e) rows
  | Inserted row => continues rows seq e row
  | Hashed row => continues rows seq e row /\ ar_RowHash row = Some (row_hash_of (e_OrgID e) row)
  end.

(** Each organization's committed rows verify, in the order of their commits. *)
Record chain_ok (rows : list AuditRow) (o : str) : Prop := {
  co_linked : linked o None (chain_rows o rows);
  co_order : chain_rows o rows = where_ (chained o) rows;
  co_ids : ids_differ (where_ (chained o) rows) }.

Record Inv (st : Pg) : Prop := {
  inv_seq : forall r, r ∈ pg_rows st -> (ar_ID r < pg_seq st)%Z;
  inv_chain : forall o, chain_ok (pg_rows st) o;
  inv_holds : forall t x, pg_txs st !! t = Some x -> started (tx_stage x) = false ->
    pg_locks st !! orgLockKey (org_of x) = Some t;
  inv_held : forall k t, pg_locks st !! k = Some t ->
    exists x, pg_txs st !! t = Some x /\ started (tx_stage x) = false;
  inv_tx : forall t x, pg_txs st !! t = Some x -> tx_ok (pg_rows st) (pg_seq st) x }.

(** The lock keeps the writers of an organization apart. *)
Lemma one_writer st t1 t2 x1 x2 : Inv st ->
  pg_txs st !! t1 = Some x1 -> pg_txs st !! t2 = Some x2 ->
  started (tx_stage x1) = false -> started (tx_stage x2) = false -> org_of x1 = org_of x2 -> t1 = t2.
Proof.
  intros H H1 H2 S1 S2 Ho. pose proof (inv_holds _ H _ _ H1 S1) as L1.
  pose proof (inv_holds _ H _ _ H2 S2) as L2. rewrite Ho in L1. congruence.
Qed.

Lemma release_lookup t locks k u :
  release t locks !! k = Some u <-> locks !! k = Some u /\ u <> t.
Proof. unfold release. rewrite map_lookup_filter_Some. done. Qed.

(** A longer sequence changes nothing for the others. *)
Lemma tx_ok_seq rows seq seq' x : (seq <= seq')%Z -> tx_ok rows seq x -> tx_ok rows seq' x.
Proof.
  intros Hs. unfold tx_ok, continues. destruct (tx_stage x); try done; intros H;
    naive_solver lia.
Qed.

(** ** Every statement keeps it *)

(** A transaction that holds its lock and goes on. *)
Lemma inv_move st t e s s' seq' : Inv st -> pg_txs st !! t = Some (mkTx e s) ->
  started s = false -> started s' = false -> (pg_seq st <= seq')%Z ->
  tx_ok (pg_rows st) seq' (mkTx e s') ->
  Inv (mkPg (pg_rows st) seq' (pg_locks st) (<[t := mkTx e s']> (pg_txs st))).
Proof.
  intros H Ht Hs Hs' Hq Hok. split; cbn [pg_rows pg_seq pg_locks pg_txs].
  - intros r Hr. pose proof (inv_seq _ H r Hr). lia.
  - apply (inv_chain _ H).
  - intros u x [[<- <-]|[_ Hx]]%lookup_insert_Some Hst; [|by eapply inv_holds].
    by apply (inv_holds _ H _ _ Ht).
  - intros k u Hk. destruct (decide (u = t)) as [->|Hne].
    + exists (mkTx e s'). by rewrite lookup_insert_eq.
    + rewrite lookup_insert_ne by done. by eapply inv_held.
  - intros u x [[<- <-]|[_ Hx]]%lookup_insert_Some; [done|].
    eapply tx_ok_seq; [exact Hq|]. by eapply inv_tx.
Qed.

Lemma inv_begin st t e : Inv st -> pg_txs st !! t = None -> Inv (at_stage t e Started st).
Proof.
  intros H Ht. split; cbn [pg_rows pg_seq pg_locks pg_txs at_stage].
  - apply (inv_seq _ H).
  - apply (inv_chain _ H).
  - intros u x [[<- <-]|[_ Hx]]%lookup_insert_Some Hst; [done|by eapply inv_holds].
  - intros k u Hk. destruct (inv_held _ H k u Hk) as (x & Hx & Hst). exists x.
    rewrite lookup_insert_ne; [done|]. intros ->. congruence.
  - intros u x [[<- <-]|[_ Hx]]%lookup_insert_Some; [done|by eapply inv_tx].
Qed.

Lemma inv_lock st t e : Inv st -> pg_txs st !! t = Some (mkTx e Started) ->
  pg_locks st !! orgLockKey (e_OrgID e) = None ->
  Inv (mkPg (pg_rows st) (pg_seq st) (<[orgLockKey (e_OrgID e) := t]> (pg_locks st))
         (<[t := mkTx e Locked]> (pg_txs st))).
Proof.
  intros H Ht Hfree. split; cbn [pg_rows pg_seq pg_locks pg_txs].
  - apply (inv_seq _ H).
  - apply (inv_chain _ H).
  - intros u x [[<- <-]|[_ Hx]]%lookup_insert_Some Hst; [by rewrite lookup_insert_eq|].
    pose proof (inv_holds _ H u x Hx Hst) as Hl. rewrite lookup_insert_ne; [done|congruence].
  - intros k u [[<- <-]|[_ Hk]]%lookup_insert_Some.
    + exists (mkTx e Locked). by rewrite lookup_insert_eq.
    + destruct (inv_held _ H k u Hk) as (x & Hx & Hst). exists x.
      rewrite lookup_insert_ne; [done|]. intros ->. rewrite Ht in Hx. by injection Hx as <-.
  - intros u x [[<- <-]|[_ Hx]]%lookup_insert_Some; [done|by eapply inv_tx].
Qed.

(** The end of a transaction, with the rows it leaves. *)
Lemma inv_end st t x rows : Inv st -> pg_txs st !! t = Some x ->
  (forall r, r ∈ rows -> (ar_ID r < pg_seq st)%Z) -> (forall o, chain_ok rows o) ->
  (forall u y, u <> t -> pg_txs st !! u = Some y -> tx_ok rows (pg_seq st) y) ->
  Inv (mkPg rows (pg_seq st) (release t (pg_locks st)) (delete t (pg_txs st))).
Proof.
  intros H Ht Hseq Hch Hok. split; cbn [pg_rows pg_seq pg_locks pg_txs]; [done|done|..].
  - intros u y [Hne Hy]%lookup_delete_Some Hst. apply release_lookup.
    split; [by eapply inv_holds|congruence].
  - intros k u [Hk Hne]%release_lookup. destruct (inv_held _ H k u Hk) as (y & Hy & Hst).
    exists y. by rewrite lookup_delete_ne.
  - intros u y [Hne Hy]%lookup_delete_Some. by apply (Hok u).
Qed.

Lemma where_snoc_false {A} (f : A -> bool) l r : f r = false -> where_ f (l ++ [r]) = where_ f l.
Proof. intros H. rewrite where_app. cbn. rewrite H. apply app_nil_r. Qed.

(** Rows of other organizations do not show in a chain. *)
Lemma chain_end_other o rows row : chained o row = false ->
  chain_end o (rows ++ [row]) = chain_end o rows.
Proof. intros H. unfold chain_end, last_row_hash. by rewrite where_snoc_false. Qed.
Lemma tx_ok_other rows seq row x : chained (org_of x) row = false ->
  tx_ok rows seq x -> tx_ok (rows ++ [row]) seq x.
Proof.
  unfold org_of. intros Hc. unfold tx_ok, continues. rewrite (chain_end_other _ _ _ Hc).
  assert (forall id, (forall r, r ∈ rows -> chained (e_OrgID (tx_event x)) r = true -> (ar_ID r < id)%Z) ->
    forall r, r ∈ (rows ++ [row])%list -> chained (e_OrgID (tx_event x)) r = true -> (ar_ID r < id)%Z) as Hid.
  { intros id Hr r [Hin|Hin%list_elem_of_singleton]%elem_of_app Hcr; [by apply Hr|]. congruence. }
  destruct (tx_stage x); naive_solver.
Qed.

Lemma chained_row e rows seq row o : continues rows seq e row -> ar_RowHash row <> None ->
  chained o row = (e_OrgID e =s o).
Proof.
  intros (He & _) Hh. unfold chained. rewrite <- He. cbn. rewrite bool_decide_true by done.
  apply andb_true_r.
Qed.

(** A committed row extends the chain of its organization. *)
Lemma chain_ok_snoc rows seq e row o : (forall o, chain_ok rows o) -> continues rows seq e row ->
  ar_RowHash row = Some (row_hash_of (e_OrgID e) row) -> chain_ok (rows ++ [row]) o.
Proof.
  intros Hch Hc Hh. pose proof (chained_row e rows seq row o Hc ltac:(by rewrite Hh)) as Ho.
  destruct Hc as (He & Hp & Hseq & Hmax). destruct (Hch o) as [Hl Hord Hinj].
  assert (chain_rows o (rows ++ [row]) = chain_rows o rows ++ (if chained o row then [row] else []))%list
    as Hcr.
  { apply chain_rows_last. rewrite Ho. intros Heq%String.eqb_eq. subst o. exact Hmax. }
  rewrite Ho in Hcr. destruct (e_OrgID e =s o) eqn:Eo.
  - apply String.eqb_eq in Eo. subst o. assert (chained (e_OrgID e) row = true) as Hc1 by exact Ho.
    assert (forall x, x ∈ where_ (chained (e_OrgID e)) rows -> ar_ID x <> ar_ID row) as Hnew.
    { intros x [Hx Hcx]%where_elem Heq. specialize (Hmax x Hx Hcx). lia. }
    split.
    + rewrite Hcr. apply linked_app. split; [exact Hl|]. cbn. rewrite <- last_row_hash_end by done.
      unfold stored_hash. rewrite Hh. split; [|done]. unfold chain_end in Hp.
      destruct (last_row_hash _ rows); [exact Hp|done].
    + rewrite Hcr, where_app, Hord. cbn. by rewrite Hc1.
    + intros x y. rewrite where_app. cbn. rewrite Hc1.
      intros [Hx|Hx%list_elem_of_singleton]%elem_of_app [Hy|Hy%list_elem_of_singleton]%elem_of_app;
        subst; [apply Hinj; done|..|done]; intros Heq; exfalso; by eapply Hnew.
  - split.
    + rewrite Hcr, app_nil_r. exact Hl.
    + rewrite Hcr, app_nil_r, where_snoc_false by done. exact Hord.
    + rewrite where_snoc_false by done. exact Hinj.
Qed.

Lemma inv_next st a st' new : Inv st -> next a st = Some (st', new) -> Inv st'.
Proof.
  intros H. destruct a as [t e|t|t|t now|t|t|t]; cbn [next];
    destruct (pg_txs st !! t) as [[e0 s]|] eqn:Ht; try done.
  - intros [= <- <-]. by apply inv_begin.
  - destruct s; try done. destruct (pg_locks st !! _) eqn:Hl; [done|]. intros [= <- <-].
    by apply inv_lock.
  - destruct s; try done. intros [= <- <-]. by eapply inv_move.
  - destruct s; try done. intros [= <- <-]. eapply inv_move; [done..|lia|].
    pose proof (inv_tx _ H _ _ Ht) as Hp. cbn in Hp |- *.
    split; [by destruct e0|]. split; [exact Hp|]. split; [cbn; lia|].
    intros r Hr _. by apply (inv_seq _ H).
  - destruct s; try done. intros [= <- <-]. eapply inv_move; [done..|].
    pose proof (inv_tx _ H _ _ Ht) as Hp. cbn in Hp |- *. split; [exact Hp|done].
  - destruct s as [| | | |row]; try done. intros [= <- <-].
    destruct (inv_tx _ H _ _ Ht) as [Hc Hh]. cbn in Hc, Hh. eapply inv_end; [done..| | |].
    + intros r [Hr|Hr%list_elem_of_singleton]%elem_of_app; [by apply (inv_seq _ H)|].
      subst r. apply Hc.
    + intros o. by eapply chain_ok_snoc; [apply (inv_chain _ H)|exact Hc|exact Hh].
    + intros u y Hne Hy. pose proof (inv_tx _ H _ _ Hy) as Hok.
      destruct (started (tx_stage y)) eqn:Hs; [by unfold tx_ok; destruct (tx_stage y)|].
      apply tx_ok_other; [|exact Hok].
      rewrite (chained_row _ _ _ _ _ Hc) by (by rewrite Hh). apply eqb_false_str. intros Ho.
      apply Hne. eapply (one_writer st u t y _ H Hy Ht); [done|done|]. by unfold org_of.
  - intros [= <- <-]. eapply inv_end; [done..| | |].
    + apply (inv_seq _ H).
    + apply (inv_chain _ H).
    + intros u y _ Hy. by apply (inv_tx _ H u).
Qed.

(** Only commits add rows, each the row of its event. *)
Lemma rows_next st a st' new : Inv st -> next a st = Some (st', new) ->
  map event_of (pg_rows st') = (map event_of (pg_rows st) ++ new)%list.
Proof.
  intros H. destruct a as [t e|t|t|t now|t|t|t]; cbn [next];
    destruct (pg_txs st !! t) as [[e0 s]|] eqn:Ht; try done;
    try (destruct s; try done); try (destruct (pg_locks st !! _); [done|]); intros [= <- <-];
    cbn [at_stage pg_rows]; rewrite ?app_nil_r; try done.
  rewrite map_app. cbn [map]. destruct (inv_tx _ H _ _ Ht) as [[He _] _]. cbn in He. by rewrite He.
Qed.

(** The statement a transaction waits to run. *)
Definition pending (t : nat) (s : Stage) : Action :=
  match s with
  | Started => AcquireLock t | Locked => ReadPrev t | Linked _ => Insert t 0
  | Inserted _ => SetHash t | Hashed _ => Commit t
  end.

(** Nobody waits forever: some open transaction can run its next statement. *)
Lemma some_can_go st t x : Inv st -> pg_txs st !! t = Some x ->
  exists u y st' new, pg_txs st !! u = Some y /\ next (pending u (tx_stage y)) st = Some (st', new).
Proof.
  intros H Ht.
  assert (forall u y, pg_txs st !! u = Some y -> started (tx_stage y) = false ->
    exists st' new, next (pending u (tx_stage y)) st = Some (st', new)) as Hgo.
  { intros u [e s] Hu Hs. destruct s; try done; cbn; rewrite Hu; eauto. }
  destruct x as [e s]. destruct (started s) eqn:Hs; [|exists t, (mkTx e s); naive_solver].
  destruct s; try done. destruct (pg_locks st !! orgLockKey (e_OrgID e)) as [u|] eqn:Hl.
  - destruct (inv_held _ H _ _ Hl) as (y & Hy & Hsy). destruct (Hgo u y Hy Hsy) as (st' & new & Hn).
    by exists u, y, st', new.
  - eexists t, (mkTx e Started), _, _. split; [done|]. cbn. by rewrite Ht, Hl.
Qed.

(** C9: concurrent writers never fork the hash chain.  However the statements of any number
    of [WriteAudit] transactions interleave, with rollbacks at any point, starting from
    intact chains and no open transaction: every organization's chain verifies and counts
    each of its rows, the rows are the earlier ones followed by the committed events in
    the order of their commits, the order of ids within a chain is the order of commits,
    and while a transaction is open some transaction can take its next step. *)
Theorem concurrent_appends_keep_chain st0 log st
    (Hquiet : pg_txs st0 = ∅ /\ pg_locks st0 = ∅)
    (Hseq : forall r, r ∈ pg_rows st0 -> (ar_ID r < pg_seq st0)%Z)
    (Hchain : forall o, chain_ok (pg_rows st0) o)
    (Hrun : runs st0 log st) :
  (forall o, verify_rows o None 0 (chain_rows o (pg_rows st)) =
     mkAuditVerifyResult (length (where_ (chained o) (pg_rows st))) true 0 "") /\
  map event_of (pg_rows st) = (map event_of (pg_rows st0) ++ log)%list /\
  (forall o, chain_rows o (pg_rows st) = where_ (chained o) (pg_rows st)) /\
  (pg_txs st <> ∅ -> exists t x st' new,
     pg_txs st !! t = Some x /\ next (pending t (tx_stage x)) st = Some (st', new)).
Proof.
  assert (Inv st /\ map event_of (pg_rows st) = (map event_of (pg_rows st0) ++ log)%list) as [H Hev].
  { induction Hrun as [|log st1 a st2 new _ [IH IHe] Hn].
    - split; [|by rewrite app_nil_r]. destruct Hquiet as [Htx Hlk].
      split; [done|done|intros t x|intros k t|intros t x]; by rewrite ?Htx, ?Hlk, lookup_empty.
    - split; [by eapply inv_next|]. rewrite (rows_next _ _ _ _ IH Hn), IHe. by rewrite app_assoc. }
  split; [|split; [exact Hev|split]].
  - intros o. destruct (inv_chain _ H o) as [Hl Hord _]. rewrite <- Hord. by apply verify_ok_count.
  - intros o. apply (inv_chain _ H o).
  - intros (t & x & Ht)%map_choose. by eapply some_can_go.
Qed.

(** ** Runs of given statements *)

Fixpoint run_all (l : list Action) (st : Pg) (log : list Event) : option (Pg * list Event) :=
  match l with
  | [] => Some (st, log)
  | a :: l' => match next a st with Some (st', new) => run_all l' st' (log ++ new)%list | None => None end
  end.
Lemma run_all_runs st0 l st log out :
  runs st0 log st -> run_all l st log = Some out -> runs st0 (snd out) (fst out).
Proof.
  revert st log. induction l as [|a l IH]; intros st log Hr; cbn; [by intros [= <-]|].
  destruct (next a st) as [[st' new]|] eqn:E; [|done]. apply IH. by eapply runs_next.
Qed.

(** ** A writer on its own

    Run without others, the transaction does what [WriteAudit] of AuditLog.v does. *)
Definition alone (t : nat) (e : Event) (now : Z) : list Action :=
  [Begin t e; AcquireLock t; ReadPrev t; Insert t now; SetHash t; Commit t].


Lemma alone_writes {ENV : Env} orgID actor ty action tt_ tid meta ip d u d' t :
  env_driver = Postgres ->
  WriteAudit orgID actor ty action tt_ tid meta ip d = (inr u, d') ->
  let e := mkEvent orgID actor ty action tt_ tid (env_jsonb (default [] meta)) ip in
  exists now st, pg_rows st = audit_events d' /\ pg_txs st = ∅ /\ pg_locks st = ∅ /\
    run_all (alone t e now) (mkPg (audit_events d) (next_id (audit_events d)) ∅ ∅) [] = Some (st, [e]).
Proof.
  intros Hpg H. apply transact_inr in H as (n & d2 & n2 & Hm & ->).
  apply audit_body_spec in Hm as (prev & row & Hev & Happ & Hprev & _).
  destruct Happ as (H1 & H2 & H3 & H4 & H5 & H6 & H7 & H8 & H9 & H10 & H11).
  rewrite (Hprev Hpg) in H10. cbn in Hev.
  change (last_hash orgID (set_db_tick n d)) with (last_hash orgID d) in H10.
  change (audit_events (set_db_tick n d)) with (audit_events d) in H1.
  set (e := mkEvent orgID actor ty action tt_ tid (env_jsonb (default [] meta)) ip).
  assert (row = set_ar_RowHash (Some (row_hash_of orgID row))
    (row_of e (default "" (last_hash orgID d)) (next_id (audit_events d)) (ar_CreatedAt row))) as Hrow.
  { generalize dependent (row_hash_of orgID row). intros h H11. unfold set_ar_RowHash, row_of.
    destruct row; cbn in *; congruence. }
  exists (ar_CreatedAt row), (mkPg (audit_events d ++ [row]) (next_id (audit_events d) + 1) ∅ ∅).
  split; [cbn; by rewrite Hev|]. split; [done|]. split; [done|].
  unfold alone, run_all, next, at_stage. cbn [pg_txs pg_locks pg_rows pg_seq app].
  repeat (rewrite ?lookup_insert_eq, ?lookup_empty; cbn [pg_txs pg_locks pg_rows pg_seq app]).
  do 2 f_equal. f_equal.
  - change (last_row_hash (e_OrgID e) (audit_events d)) with (last_hash orgID d).
    set (base := row_of e _ _ _) in *.
    assert (row_hash_of orgID row = row_hash_of orgID base) as Hh by (rewrite Hrow; reflexivity).
    change (e_OrgID e) with orgID. by rewrite <- Hh, <- Hrow.
  - apply map_empty. intros k. apply eq_None_not_Some. intros [v [Hv Hne]%release_lookup].
    apply lookup_insert_Some in Hv as [[_ Hv]|[_ Hv]]; [congruence|by rewrite lookup_empty in Hv].
  - apply map_empty. intros k. destruct (decide (k = t)) as [->|Hk]; [by rewrite lookup_delete_eq|].
    by rewrite lookup_delete_ne, !lookup_insert_ne, lookup_empty.
Qed.

Definition ev (org action : str) : Event := mkEvent org "" "system" action "bucket" "b1" "{}" "".
Definition no_rows : Pg := mkPg [] 1 ∅ ∅.
Definition schedule : list Action :=
  [Begin 1 (ev "o1" "a"); Begin 2 (ev "o1" "b"); Begin 3 (ev "o2" "c"); AcquireLock 1; ReadPrev 1;
   AcquireLock 3; Insert 1 5; ReadPrev 3; Insert 3 6; SetHash 3; Commit 3; SetHash 1; Commit 1;
   AcquireLock 2; ReadPrev 2; Insert 2 7; SetHash 2; Commit 2].
Definition after : option (Pg * list Event) := run_all schedule no_rows [].

Lemma concurrent_appends_keep_chain_witness :
  match after with
  | Some (st, log) =>
      log = [ev "o2" "c"; ev "o1" "a"; ev "o1" "b"] /\ map ar_ID (pg_rows st) = [2; 1; 3]%Z /\
      verify_rows "o1" None 0 (chain_rows "o1" (pg_rows st)) = mkAuditVerifyResult 2 true 0 ""
  | None => False
  end.
Proof.
  destruct after as [[st log]|] eqn:E; [|by vm_compute in E].
  assert (runs no_rows log st) as Hr by exact (run_all_runs _ _ _ _ _ (runs_start _) E).
  destruct (concurrent_appends_keep_chain no_rows log st) as (Hv & _).
  - split; reflexivity.
  - intros r Hr'. destruct (not_elem_of_nil _ Hr').
  - intros o. split; [exact I|reflexivity|]. intros x y Hx. destruct (not_elem_of_nil _ Hx).
  - exact Hr.
  - specialize (Hv "o1"). vm_compute in E. injection E as <- <-.
    split; [vm_compute; reflexivity|]. split; [vm_compute; reflexivity|]. rewrite Hv.
    vm_compute. reflexivity.
Defined.
(** While a writer of the organization is at work, another one waits. *)
Example second_writer_waits :
  match run_all (take 5 schedule) no_rows [] with
  | Some (st, _) => next (AcquireLock 2) st = None
  | None => False
  end.
Proof. vm_compute. reflexivity. Qed.
End AuditConcurrency.
