(* ===== verification/Service.v ===== *)
(** The common parts of src/internal/service, with the packages it is wired to:
    errors.go, guard.go, tenant_context.go, validate.go, features.go, service.go;
    authz, entitlements, metering, audit (the open-core seams), and the provider
    registry of src/internal/cluster/registry.go.

    A service method is a computation on a [World]: the database, the storage
    backends, the registry's provider cache, and the effects that leave the
    process (SIEM events, metering events, webhook deliveries, mails). *)
From Stdlib Require Import Ascii.
From S2P Require Import Prelude GoStrings Hashes Storage Garage Database Repository AuditLog.
#[local] Open Scope string_scope.

(** * authz, entitlements *)

Inductive Action := ActionRead | ActionCreate | ActionUpdate | ActionDelete.
Inductive ResourceKind :=
  | ResourceBucket | ResourceAccessKey | ResourceProject | ResourceCluster | ResourceSystem
  | ResourceUser | ResourceObject | ResourceMember | ResourceAudit | ResourceBackup
  | ResourceSettings | ResourceAPIToken.

(** The role is the string stored in the membership row; [sub_IP] and [sub_Now]
    are for attribute-based policies, unset when empty. *)
Record Subject := mkSubject {
  sub_UserID : str; sub_TenantID : str; sub_Role : str; sub_PlatformAdmin : bool;
  sub_IP : str; sub_Now : Z }.
(** [SubjectFrom] of a context without a subject yields the zero value. *)
Definition zero_subject : Subject := mkSubject "" "" "" false "" zero_time.
(** [ProjectID] and [Attributes] are left unset by every call. *)
Record Target := mkTarget { tg_Kind : ResourceKind; tg_ID : str }.
Record Decision := mkDecision { dec_Allowed : bool; dec_Reason : str }.
Record Authorizer := mkAuthorizer {
  az_Can : Subject -> Action -> Target -> Decision; az_Enforces : bool }.
Definition PermitAll : Authorizer := mkAuthorizer (fun _ _ _ => mkDecision true "") false.

Inductive Resource :=
  | ResourceTenants | ResourceProjects | ResourceBuckets | ResourceAccessKeys
  | ResourceSeats | ResourceStorageGB.
Record Limit := mkLimit { lim_Unlimited : bool; lim_Max : Z }.
Record Entitlements := mkEntitlements {
  ent_Allowed : str -> str -> Decision; ent_Limit : Resource -> str -> Limit }.
Definition AlwaysAllow : Entitlements :=
  mkEntitlements (fun _ _ => mkDecision true "") (fun _ _ => mkLimit true 0).

(** * service.Error *)

Record Error := mkError { err_Code : str; err_Message : str; err_HTTP : Z }.

Definition validationErr (msg : str) : Error := mkError "validation_failed" msg 400.
Definition notFoundErr : Error := mkError "not_found" "resource not found" 404.
Definition conflictErr (msg : str) : Error := mkError "conflict" msg 409.
Definition storageUnavailableErr (msg : str) : Error := mkError "garage_unavailable" msg 502.
Definition unauthorizedErr : Error := mkError "unauthenticated" "invalid credentials" 401.
Definition unsupportedErr : Error :=
  mkError "not_supported_on_backend"
    "this operation is not supported on the bucket's storage backend" 422.

Definition mapStorageErr (err : StErr) : Error :=
  let unavailable := storageUnavailableErr ("storage backend error: " ++ st_error err) in
  match st_root err with
  | ErrUnsupported => unsupportedErr
  | AdminError _ _ status body =>
      if (status =? 409)%Z then conflictErr "already exists"
      else if (status =? 404)%Z then notFoundErr
      else if (status =? 400)%Z then validationErr body
      else unavailable
  | APIError code msg _ =>
      if bool_decide (code ∈ ["NoSuchKey"; "NoSuchBucket"; "NoSuchCORSConfiguration";
                              "NoSuchLifecycleConfiguration"]) then notFoundErr
      else if code =s "AccessDenied" then mkError "forbidden" "access denied" 403
      else if bool_decide (code ∈ ["InvalidRequest"; "InvalidArgument"; "EntityTooLarge";
                                   "KeyTooLongError"]) then validationErr msg
      else unavailable
  | _ => unavailable
  end.

Definition mapRepoErr (err : DBErr) : Error :=
  match err with
  | ErrNotFound => notFoundErr
  | DBFail m => mkError "internal_error" m 500
  end.

(** * validate.go *)

Definition alnum_lower (c : ascii) : bool := is_lower c || is_digit c.
Definition alnum (c : ascii) : bool := is_lower c || is_upper c || is_digit c.

(** The first character satisfies [p1], the last [p3], those between [p2]. *)
Fixpoint middle_last (p2 p3 : ascii -> bool) (s : str) : bool :=
  match s with
  | "" => false
  | String c "" => p3 c
  | String c s' => p2 c && middle_last p2 p3 s'
  end.

(** ^[a-z0-9][a-z0-9-]{1,61}[a-z0-9]$ *)
Definition bucketNameRe (s : str) : bool :=
  (3 <=? String.length s)%nat && (String.length s <=? 63)%nat &&
  match s with
  | String c s' => alnum_lower c
                   && middle_last (fun c => alnum_lower c || Ascii.eqb c "-") alnum_lower s'
  | "" => false
  end.

Definition ValidateBucketName (name : str) : option str :=
  if (String.length name <? 3)%nat || (63 <? String.length name)%nat
  then Some "bucket name must be 3-63 characters"
  else if bucketNameRe name then None
  else Some "bucket name may contain only lowercase letters, digits and hyphens, and must start/end with a letter or digit".

(** ^[A-Za-z0-9][A-Za-z0-9 _.-]{0,63}$ *)
Definition keyNameRe (s : str) : bool :=
  match s with
  | String c s' =>
      alnum c && (String.length s' <=? 63)%nat &&
      str_all (fun c => alnum c || Ascii.eqb c " " || Ascii.eqb c "_" || Ascii.eqb c "."
                        || Ascii.eqb c "-") s'
  | "" => false
  end.

Definition ValidateKeyName (name : str) : option str :=
  if keyNameRe name then None
  else Some "key name must be 1-64 characters (letters, digits, space, _.-)".

(** \s of RE2: tab, newline, form feed, carriage return, space *)
Definition re_space (c : ascii) : bool :=
  let n := nat_of_ascii c in
  Nat.eqb n 9 || Nat.eqb n 10 || Nat.eqb n 12 || Nat.eqb n 13 || Nat.eqb n 32.

(** A dot with a character before it and one after it. *)
Fixpoint dot_then (s : str) : bool :=
  match s with
  | "" => false
  | String c s' => (Ascii.eqb c "." && negb (s' =s "")) || dot_then s'
  end.
Definition dot_inside (s : str) : bool :=
  match s with "" => false | String _ s' => dot_then s' end.

(** ^[^@\s]+@[^@\s]+\.[^@\s]+$ *)
Definition validEmail (email : str) : bool :=
  str_all (fun c => negb (re_space c)) email &&
  match Split email "@" with
  | [local; domain] => negb (local =s "") && dot_inside domain
  | _ => false
  end.

(** * The request context *)

Record TenantContext := mkTenantContext {
  tc_OrgID : str; tc_ProjectID : str; tc_ClusterID : str }.
Record Ctx := mkCtx {
  ctx_subject : option Subject; ctx_tenant : option TenantContext; ctx_ssec : option str }.
Definition subjectFrom (ctx : Ctx) : Subject := default zero_subject (ctx_subject ctx).
(** [currentUserID] of api_tokens.go *)
Definition currentUserID (ctx : Ctx) : str := sub_UserID (subjectFrom ctx).

(** * Effects that leave the process *)

Inductive EventType :=
  | EventBucketCreated | EventBucketDeleted | EventKeyCreated | EventKeyRevoked
  | EventUsageSnapshot | EventObjectUploaded.
Inductive ObjectEvent := EventObjectCreated | EventObjectDeleted.

Inductive Effect :=
  | FxSIEM (orgID actor actorType action targetType targetID : str) (meta : option Meta)
  | FxMeter (t : EventType) (tenant subject : str) (qty : Z)
  | FxWebhook (bucketID : str) (ev : ObjectEvent) (key : str)
  | FxInviteMail (email link : str)
  | FxUsagePost (item : str) (qty : Z) (idem : str)
  | FxRunMigration (id : str)
  | FxRunReplication (id : str)
  | FxRunBackup (id : str)
  | FxVerifyMail (email link : str)
  | FxWriteFile (path : str)
  | FxRemoveFile (path : str).

(** * The world of a service method *)

Record World (B : Type) := mkWorld {
  w_db : DB; w_be : B; w_cache : gmap str (StorageProvider B); w_rand : nat;
  w_fx : list Effect }.
Arguments mkWorld {B}. Arguments w_db {B}. Arguments w_be {B}. Arguments w_cache {B}.
Arguments w_rand {B}. Arguments w_fx {B}.

Definition set_w_db {B} (d : DB) (w : World B) : World B :=
  mkWorld d (w_be w) (w_cache w) (w_rand w) (w_fx w).
Definition set_w_be {B} (b : B) (w : World B) : World B :=
  mkWorld (w_db w) b (w_cache w) (w_rand w) (w_fx w).
Definition set_w_cache {B} c (w : World B) : World B :=
  mkWorld (w_db w) (w_be w) c (w_rand w) (w_fx w).
Definition set_w_rand {B} n (w : World B) : World B :=
  mkWorld (w_db w) (w_be w) (w_cache w) n (w_fx w).
Definition set_w_fx {B} fx (w : World B) : World B :=
  mkWorld (w_db w) (w_be w) (w_cache w) (w_rand w) fx.

(** A repository call, a backend call, an effect. *)
Definition db {B A} (m : M DB DBErr A) : M (World B) DBErr A := zoom w_db set_w_db m.
Definition be {B A} (m : M B StErr A) : M (World B) StErr A := zoom w_be set_w_be m.
Definition fx {B E} (e : Effect) : M (World B) E unit :=
  modify (fun w => set_w_fx (w_fx w ++ [e]) w).

(** A result the code discards: [_ = f()]. *)
Definition ignore {S E E' A} (m : M S E A) : M S E' unit :=
  let! _ := attempt m in ret tt.

(** * Identity provider, host, deployment settings *)

(** sso.ExternalIdentity and sso.IdentityProvider; the exchange is an answer of
    the provider to the n-th request. *)
Record ExternalIdentity := mkExternalIdentity {
  ei_Subject : str; ei_Email : str; ei_EmailVerified : bool; ei_Name : str;
  ei_Groups : list str }.
Record IdentityProvider := mkIdentityProvider {
  idp_Enabled : bool; idp_AuthURL : str -> str;
  idp_Exchange : nat -> str -> option ExternalIdentity; idp_MapRole : list str -> str }.
(** sso.Disabled *)
Definition SSODisabled : IdentityProvider :=
  mkIdentityProvider false (fun _ => "") (fun _ _ => None) (fun _ => "member").

(** The host the server runs on, at the n-th statement: the outcome of
    [os.MkdirAll], of [pg_dump] or [VACUUM INTO], of [os.Stat] and [os.Open], of the
    upload to the off-box target. *)
Record Host := mkHost {
  host_Mkdir : nat -> option str; host_ParseURL : str -> option str;
  host_Dump : nat -> str -> option str; host_Size : nat -> str -> option Z;
  host_Open : nat -> str -> bool; host_Upload : nat -> str -> bool }.

Record BackupOffsiteConfig := mkBackupOffsiteConfig {
  off_Endpoint : str; off_Region : str; off_Bucket : str; off_AccessKey : str;
  off_Secret : str }.

(** The fields of [Services] set by the wiring layer from the configuration. *)
Record Settings := mkSettings {
  cfg_IdP : option IdentityProvider; cfg_SelfServeSignup : bool;
  cfg_SignupDevReturnToken : bool; cfg_SCIMEnabled : bool; cfg_RLSEnabled : bool;
  cfg_DatabaseURL : str; cfg_BackupDir : str; cfg_BackupOffsite : BackupOffsiteConfig;
  cfg_Host : Host; cfg_Version : str; cfg_S3PublicEndpoint : str; cfg_S3Region : str;
  cfg_GarageVersion : str; cfg_ClusterMode : str }.

(** * Services *)

Record Services (B : Type) := mkServices {
  s_Provider : StorageProvider B;
  s_HasReg : bool;
  (** the provider factories registered at init time *)
  s_Factories : gmap str (Factory B);
  s_PrimaryPublicEndpoint : str;
  s_SealerOpen : str -> str + str;
  s_SealerSeal : nat -> str -> str + str;
  s_Authz : Authorizer;
  s_Ent : Entitlements;
  (** [Provision orgID dedicated primaryClusterID]: the cluster and whether it is ready *)
  s_Provision : str -> bool -> str -> str + (str * bool);
  s_BillingEnabled : bool;
  (** does the processor accept this usage post? *)
  s_BillingReport : nat -> str -> Z -> str -> bool;
  s_OrgID : str; s_ProjectID : str; s_ClusterID : str; s_SystemKeyID : str;
  s_WebPublicDomain : str; s_PublicBaseURL : str;
  s_Settings : Settings }.
Arguments mkServices {B}.
Arguments s_Provider {B}. Arguments s_HasReg {B}. Arguments s_Factories {B}.
Arguments s_PrimaryPublicEndpoint {B}. Arguments s_SealerOpen {B}. Arguments s_SealerSeal {B}.
Arguments s_Authz {B}. Arguments s_Ent {B}. Arguments s_Provision {B}.
Arguments s_BillingEnabled {B}. Arguments s_BillingReport {B}.
Arguments s_OrgID {B}. Arguments s_ProjectID {B}. Arguments s_ClusterID {B}.
Arguments s_SystemKeyID {B}. Arguments s_WebPublicDomain {B}. Arguments s_PublicBaseURL {B}. Arguments s_Settings {B}.

(** ** cluster.Registry *)

Module Registry.
Section Registry.
Context {ENV : Env} {B : Type} (s : Services B).

Definition open_field (blob errPrefix : str) : str + str :=
  if blob =s "" then inr ""
  else match s_SealerOpen s blob with
       | inl e => inl (errPrefix ++ e)
       | inr plain => inr plain
       end.

Definition publicEndpointFor (c : Cluster) : str :=
  if cl_Provider c =s Kind then s_PrimaryPublicEndpoint s
  else if cl_WebEndpoint c =s "" then cl_S3Endpoint c else cl_WebEndpoint c.

(** Errors are plain Go errors: only their text is used. *)
Definition build (c : Cluster) : str + StorageProvider B :=
  match open_field (cl_AdminTokenEnc c) "cluster: decrypt admin token: " with
  | inl e => inl e
  | inr adminToken =>
      match open_field (cl_SystemS3SecretEnc c) "cluster: decrypt system key secret: " with
      | inl e => inl e
      | inr systemSecret =>
          match New (s_Factories s)
                  (mkProviderConfig (cl_Provider c) (cl_S3Endpoint c) (cl_S3Region c)
                     (cl_AdminEndpoint c) adminToken
                     (mkCredential (cl_SystemS3AccessKeyID c) systemSecret "" false zero_time
                        None)
                     (publicEndpointFor c)) with
          | inl e => inl (st_error e)
          | inr p => inr p
          end
      end
  end.

Definition Provider (clusterID : str) : M (World B) str (StorageProvider B) :=
  let! w := get in
  match w_cache w !! clusterID with
  | Some p => ret p
  | None =>
      let! c := mapErr dbErrText (db (Store.GetClusterByID clusterID)) in
      match build c with
      | inl e => throw e
      | inr p =>
          do! modify (fun w => set_w_cache (<[clusterID := p]> (w_cache w)) w) in
          ret p
      end
  end.

Definition Primary : M (World B) str (StorageProvider B * Cluster) :=
  let! c := mapErr dbErrText (db Store.GetActiveCluster) in
  let! p := Provider (cl_ID c) in
  ret (p, c).

Definition ProviderForOrg (orgID : str) : M (World B) str (StorageProvider B * str) :=
  let! r := (if orgID =s "" then ret (inl ErrNotFound)
             else attempt (db (Store.DefaultClusterForOrg orgID))) in
  let primary :=
    let! pc := Primary in ret (fst pc, cl_ID (snd pc)) in
  match r with
  | inr cid => if cid =s "" then primary
               else let! p := Provider cid in ret (p, cid)
  | inl _ => primary
  end.

Definition Invalidate {E} (clusterID : str) : M (World B) E unit :=
  modify (fun w => set_w_cache (delete clusterID (w_cache w)) w).

End Registry.
End Registry.

(** ** Helpers of the facade *)

Section Facade.
Context {ENV : Env} {B : Type} (s : Services B).

(** A service method. *)
Definition Svc (A : Type) : Type := M (World B) Error A.

Definition tenant (ctx : Ctx) : TenantContext :=
  match ctx_tenant ctx with
  | Some t =>
      if tc_OrgID t =s "" then mkTenantContext (s_OrgID s) (s_ProjectID s) (s_ClusterID s)
      else mkTenantContext (tc_OrgID t) (tc_ProjectID t)
             (if tc_ClusterID t =s "" then s_ClusterID s else tc_ClusterID t)
  | None => mkTenantContext (s_OrgID s) (s_ProjectID s) (s_ClusterID s)
  end.

Definition ResolveSubject (userID : str) (isPlatformAdmin : bool)
    : Svc (Subject * TenantContext) :=
  let! r := attempt (db (Store.ResolveUserTenant userID (s_OrgID s) (s_ProjectID s))) in
  let '(orgID, projectID, role) :=
    match r with
    | inr (o, p, ro) => if o =s "" then (s_OrgID s, s_ProjectID s, "") else (o, p, ro)
    | inl _ => (s_OrgID s, s_ProjectID s, "")
    end in
  let role := if role =s "" then (if isPlatformAdmin then "owner" else "admin") else role in
  ret (mkSubject userID orgID role isPlatformAdmin "" zero_time,
       mkTenantContext orgID projectID (s_ClusterID s)).

Definition forbiddenMsg (reason : str) : str :=
  if reason =s "" then "you do not have permission to perform this action" else reason.

Definition authorize (ctx : Ctx) (a : Action) (t : Target) : Svc unit :=
  let d := az_Can (s_Authz s) (subjectFrom ctx) a t in
  if dec_Allowed d then ret tt
  else throw (mkError "forbidden" (forbiddenMsg (dec_Reason d)) 403).

Definition loadBucket (ctx : Ctx) (id : str) : Svc Bucket :=
  let! b := mapErr mapRepoErr (db (Store.GetBucket id)) in
  guard! (b_ProjectID b =s tc_ProjectID (tenant ctx)) else notFoundErr in
  ret b.

Definition loadKey (ctx : Ctx) (id : str) : Svc AccessKey :=
  let! k := mapErr mapRepoErr (db (Store.GetAccessKey id)) in
  guard! (k_ProjectID k =s tc_ProjectID (tenant ctx)) else notFoundErr in
  ret k.

(** The effective ceiling in bytes, -1 for unlimited. *)
Definition orgStorageCap (orgID : str) : Svc Z :=
  let! st := attempt (db (Store.GetOrgStatus orgID)) in
  let capBytes := match st with
                  | inr o => default (-1)%Z (Store.os_QuotaMaxBytes o)
                  | inl _ => (-1)%Z
                  end in
  let lim := ent_Limit (s_Ent s) ResourceStorageGB orgID in
  if lim_Unlimited lim then ret capBytes
  else
    let licBytes := mul64 (mul64 (mul64 (lim_Max lim) 1024) 1024) 1024 in
    ret (if (capBytes <? 0)%Z || (licBytes <? capBytes)%Z then licBytes else capBytes).

Definition quotaExceededErr : Error :=
  mkError "quota_exceeded" "organization storage quota exceeded" 402.

(** [OrgUsageTotals] answers zeros instead of an error, as in the source. *)
Definition quotaGuard (ctx : Ctx) (addBytes : Z) : Svc unit :=
  let orgID := tc_OrgID (tenant ctx) in
  if orgID =s "" then ret tt
  else
    let! capBytes := orgStorageCap orgID in
    if (capBytes <? 0)%Z then ret tt
    else
      let! used := mapErr mapRepoErr (db (Store.OrgUsageTotals orgID)) in
      if (capBytes <? add64 (fst used) addBytes)%Z then throw quotaExceededErr else ret tt.

Definition providerFor (clusterID : str) : M (World B) str (StorageProvider B) :=
  if negb (s_HasReg s) || (clusterID =s "") || (clusterID =s s_ClusterID s)
  then ret (s_Provider s)
  else Registry.Provider s clusterID.

Definition providerForBucket (b : Bucket) : M (World B) str (StorageProvider B) :=
  providerFor (b_ClusterID b).

Definition unreachable (e : str) : Error :=
  storageUnavailableErr ("cannot reach the bucket's cluster: " ++ e).

Definition bucketProvider (ctx : Ctx) (bucketID : str) : Svc (Bucket * StorageProvider B) :=
  let! b := loadBucket ctx bucketID in
  let! prov := mapErr unreachable (providerForBucket b) in
  ret (b, prov).

(** A failed audit write is logged, never returned. *)
Definition audit (ctx : Ctx) (action targetType targetID : str) (meta : option Meta)
    : Svc unit :=
  let '(actorUserID, actorType) :=
    match ctx_subject ctx with
    | Some subj => if sub_UserID subj =s "" then ("", "system") else (sub_UserID subj, "user")
    | None => ("", "system")
    end in
  let orgID := tc_OrgID (tenant ctx) in
  do! ignore (db (AuditLog.WriteAudit orgID actorUserID actorType action targetType targetID
                    meta "")) in
  fx (FxSIEM orgID actorUserID actorType action targetType targetID meta).

Definition emit (ctx : Ctx) (t : EventType) (subject : str) (qty : Z) : Svc unit :=
  fx (FxMeter t (tc_OrgID (tenant ctx)) subject qty).

(** The delivery itself runs in a goroutine of its own. *)
Definition fireWebhook (bucketID : str) (ev : ObjectEvent) (key : str) : Svc unit :=
  fx (FxWebhook bucketID ev key).

(** [time.Now()] *)
Definition now {E} : M (World B) E Z := fun w => (inr (env_now (db_tick (w_db w))), w).

(** [auth.NewToken] *)
Definition NewToken : Svc str :=
  fun w => (match env_token (w_rand w) with
            | Some t => inr t
            | None => inl (mkError "internal_error" "auth: generate token" 500)
            end, set_w_rand (S (w_rand w)) w).
(** [auth.HashToken] *)
Definition HashToken (token : str) : str := Sha256.Sum256 token.

(** [Sealer.Seal] draws its nonce from the random source. *)
Definition seal (plain : str) : Svc str :=
  fun w => (match s_SealerSeal s (w_rand w) plain with
            | inr blob => inr blob
            | inl e => inl (mkError "internal_error" e 500)
            end, set_w_rand (S (w_rand w)) w).

(** ** DTOs *)

Record QuotaDTO := mkQuotaDTO { q_MaxBytes : option Z; q_MaxObjects : option Z }.
Record UsageDTO := mkUsageDTO { u_Bytes : Z; u_Objects : Z }.
Record BucketDTO := mkBucketDTO {
  bd_ID : str; bd_Name : str; bd_GarageID : str; bd_ClusterID : str; bd_Visibility : str;
  bd_WebsiteEnabled : bool; bd_PublicURL : str; bd_Quota : QuotaDTO; bd_Usage : UsageDTO;
  bd_CreatedAt : Z }.

Definition bucketToDTO (b : Bucket) (usage : UsageDTO) : BucketDTO :=
  mkBucketDTO (b_ID b) (b_Name b) (b_GarageBucketID b) (b_ClusterID b) (b_Visibility b)
    (b_WebsiteEnabled b)
    (if b_WebsiteEnabled b && negb (s_WebPublicDomain s =s "")
     then "https://" ++ b_GarageGlobalAlias b ++ "." ++ s_WebPublicDomain s ++ "/" else "")
    (mkQuotaDTO (b_QuotaMaxSize b) (b_QuotaMaxObjects b)) usage (b_CreatedAt b).

End Facade.

(** ** Inverting repository and backend calls *)

Lemma db_inv {B A} (m : M DB DBErr A) (w : World B) r w' :
  db m w = (r, w') -> exists d, m (w_db w) = (r, d) /\ w' = set_w_db d w.
Proof. unfold db, zoom. destruct (m (w_db w)) as [r1 d]. intros H. simplify_eq. eauto. Qed.
Lemma be_inv {B A} (m : M B StErr A) (w : World B) r w' :
  be m w = (r, w') -> exists b, m (w_be w) = (r, b) /\ w' = set_w_be b w.
Proof. unfold be, zoom. destruct (m (w_be w)) as [r1 d]. intros H. simplify_eq. eauto. Qed.
