(* ===== verification/Frames.v ===== *)
(** Frame conditions of the service helpers: which parts of the world a helper
    can change.  [quiet] says nothing but the statement counter changes;
    [Guar (view V)] says a view [V] of the tables is unchanged. *)
From S2P Require Import Prelude GoStrings Storage Database Repository AuditLog Service.
#[local] Open Scope string_scope.

(** * Runs without visible effect *)

Definition tables (d : DB) : DB := set_db_tick 0 d.
Definition quiet_view {B} (w : World B) :=
  (tables (w_db w), w_be w, w_cache w, w_rand w, w_fx w).
(** Nothing but the statement counter may differ. *)
Definition quiet {B} : World B -> World B -> Prop := same quiet_view.
#[export] Instance quiet_preorder {B} : PreOrder (@quiet B).
Proof. apply same_preorder. Qed.

Section Quiet.
Context {ENV : Env} {B : Type}.
Implicit Types (w : World B).

Lemma tables_tick d n : same tables d (set_db_tick n d).
Proof. reflexivity. Qed.
Lemma reads_query {A} (f : nat -> DB -> A) : Guar (same tables) (query f).
Proof. apply guar_query; [typeclasses eauto|apply tables_tick]. Qed.
Lemma reads_query_row {A} (f : nat -> DB -> option A) : Guar (same tables) (query_row f).
Proof. apply guar_query_row; [typeclasses eauto|apply tables_tick]. Qed.
Lemma quiet_db {A} (m : M DB DBErr A) : Guar (same tables) m -> Guar quiet (db (B := B) m).
Proof.
  intros Hm. apply guar_zoom. intros w r d Hr. specialize (Hm _ _ _ Hr).
  unfold quiet, same, quiet_view, same in *. cbn. by rewrite Hm.
Qed.
Lemma quiet_tables w w' : quiet w w' -> tables (w_db w) = tables (w_db w').
Proof. intros H. exact (f_equal (fun v => fst (fst (fst (fst v)))) H). Qed.
Lemma quiet_inv w w' : quiet w w' ->
  tables (w_db w) = tables (w_db w') /\ w_be w = w_be w' /\ w_cache w = w_cache w' /\
  w_rand w = w_rand w' /\ w_fx w = w_fx w'.
Proof.
  intros H. split; [by apply quiet_tables|]. split; [|split; [|split]].
  - exact (f_equal (fun v => snd (fst (fst (fst v)))) H).
  - exact (f_equal (fun v => snd (fst (fst v))) H).
  - exact (f_equal (fun v => snd (fst v)) H).
  - exact (f_equal snd H).
Qed.
Lemma bucket_row_tables id d d' :
  tables d = tables d' -> Store.bucket_row id d = Store.bucket_row id d'.
Proof.
  intros H. apply (f_equal buckets) in H. cbn in H. unfold Store.bucket_row. by rewrite H.
Qed.
End Quiet.
#[export] Hint Resolve reads_query reads_query_row quiet_db quiet_preorder : guar.

(** Solves [Guar quiet m] for the read-only helpers. *)
Ltac quiet :=
  repeat first [ guar_step
               | apply quiet_db | apply reads_query | apply reads_query_row
               | progress cbv zeta ];
  try done.

Section QuietServices.
Context {ENV : Env} {B : Type} (s : Services B).

Lemma quiet_authorize ctx a t : Guar quiet (authorize s ctx a t).
Proof. unfold authorize. quiet. Qed.
Lemma quiet_loadBucket ctx id : Guar quiet (loadBucket s ctx id).
Proof. unfold loadBucket, Store.GetBucket. quiet. Qed.
Lemma quiet_loadKey ctx id : Guar quiet (loadKey s ctx id).
Proof. unfold loadKey, Store.GetAccessKey. quiet. Qed.
Lemma quiet_quotaGuard ctx n : Guar quiet (quotaGuard s ctx n).
Proof.
  unfold quotaGuard, orgStorageCap, Store.GetOrgStatus, Store.OrgUsageTotals, Store.or_zero.
  quiet.
Qed.
End QuietServices.

(** * Views of the tables *)

(** A view that sees neither the statement counter nor the audit table. *)
Class Blind {V} (v : DB -> V) : Prop := blind d : v d = v (AuditLog.other_tables d).
#[export] Hint Extern 0 (Blind _) => (intros ?; reflexivity) : typeclass_instances.

Definition view {B V} (v : DB -> V) : World B -> World B -> Prop :=
  same (fun w => v (w_db w)).
#[export] Instance view_preorder {B V} (v : DB -> V) : PreOrder (@view B V v).
Proof. apply same_preorder. Qed.

Section Views.
Context {ENV : Env} {B : Type} (s : Services B) {V : Type} (v : DB -> V) `{!Blind v}.

Lemma blind_tick d n : same v d (set_db_tick n d).
Proof. exact (eq_trans (blind d) (eq_sym (blind (set_db_tick n d)))). Qed.
Lemma blind_tables d d' : tables d = tables d' -> v d = v d'.
Proof.
  intros H. apply (f_equal (set_audit_events [])) in H.
  exact (eq_trans (blind d) (eq_trans (f_equal v H) (eq_sym (blind d')))).
Qed.
Lemma blind_same_tables d d' : AuditLog.same_tables d d' -> v d = v d'.
Proof. intros H. exact (eq_trans (blind d) (eq_trans (f_equal v H) (eq_sym (blind d')))). Qed.

Lemma view_quiet {E A} (m : M (World B) E A) : Guar quiet m -> Guar (view v) m.
Proof.
  intros Hm w r w' H. specialize (Hm _ _ _ H). apply blind_tables. by apply quiet_tables.
Qed.
Lemma view_db {A} (m : M DB DBErr A) : Guar (same v) m -> Guar (view v) (db (B := B) m).
Proof. intros Hm. apply guar_zoom. intros w r d Hr. apply (Hm _ _ _ Hr). Qed.
Lemma view_reads {A} (m : M DB DBErr A) : Guar (same tables) m -> Guar (view v) (db (B := B) m).
Proof. intros Hm. by apply view_quiet, quiet_db. Qed.
Lemma view_be {A} (m : M B StErr A) : Guar (view v) (be m).
Proof. apply guar_zoom. reflexivity. Qed.
Lemma view_fx {E} e : Guar (view v) (fx (B := B) (E := E) e).
Proof. intros w r w' H. unfold fx, modify in H. by simplify_eq. Qed.
Lemma view_modify_cache {E} f :
  Guar (view v) (modify (E := E) (fun w : World B => set_w_cache (f w) w)).
Proof. intros w r w' H. unfold modify in H. by simplify_eq. Qed.
Lemma view_ignore {E E' A} (m : M (World B) E A) :
  Guar (view v) m -> Guar (view v) (ignore (E' := E') m).
Proof. intros. unfold ignore. guar. Qed.
Lemma view_now {E} : Guar (view v) (now (B := B) (E := E)).
Proof. intros w r w' H. unfold now in H. by simplify_eq. Qed.
Lemma view_NewToken : Guar (view v) (NewToken (B := B)).
Proof. intros w r w' H. unfold NewToken in H. by simplify_eq. Qed.

Lemma same_WriteAudit o a ty ac t ti m ip : Guar (same v) (AuditLog.WriteAudit o a ty ac t ti m ip).
Proof.
  intros d [e|u] d' H.
  - apply AuditLog.transact_inl in H as [n ->]. apply blind_tick.
  - apply AuditLog.transact_inr in H as (n & d2 & n2 & Hm & ->).
    apply AuditLog.audit_body_spec in Hm as (_ & _ & _ & _ & _ & Hs).
    etrans; [|apply blind_tick]. etrans; [apply (blind_tick d n)|].
    by apply blind_same_tables.
Qed.
Lemma view_audit ctx action tt_ tid m : Guar (view v) (audit s ctx action tt_ tid m).
Proof.
  unfold audit. destruct (match ctx_subject ctx with _ => _ end).
  apply guar_bind; [typeclasses eauto| |intros; apply view_fx].
  apply view_ignore, view_db, same_WriteAudit.
Qed.
Lemma view_Provider id : Guar (view v) (Registry.Provider s id).
Proof.
  unfold Registry.Provider, Store.GetClusterByID. guar.
  - apply view_reads; guar.
  - apply view_modify_cache.
Qed.
Lemma view_providerFor id : Guar (view v) (providerFor s id).
Proof. unfold providerFor. guar. apply view_Provider. Qed.
Lemma view_providerForBucket b : Guar (view v) (providerForBucket s b).
Proof. apply view_providerFor. Qed.
Lemma view_bucketProvider ctx id : Guar (view v) (bucketProvider s ctx id).
Proof.
  unfold bucketProvider. guar; [apply view_quiet, quiet_loadBucket|apply view_providerForBucket].
Qed.
Lemma view_ProviderForOrg o : Guar (view v) (Registry.ProviderForOrg s o).
Proof.
  assert (Guar (view v) (Registry.Primary s)) as Hp.
  { unfold Registry.Primary, Store.GetActiveCluster. guar; [|apply view_Provider].
    apply view_reads; guar. }
  unfold Registry.ProviderForOrg, Store.DefaultClusterForOrg. guar.
  - apply view_reads; guar.
  - apply view_Provider.
Qed.
End Views.

(** Splits [Guar (view v) m] and closes the helper calls; what is left are the
    statements that write the viewed tables. *)
Ltac frames :=
  repeat first
    [ guar_step
    | apply view_be | apply view_fx | apply view_audit | apply view_ignore
    | apply view_now | apply view_NewToken
    | apply view_providerForBucket | apply view_providerFor | apply view_bucketProvider
    | apply view_ProviderForOrg
    | apply view_quiet; [|first [apply quiet_authorize | apply quiet_loadBucket
                                | apply quiet_loadKey | apply quiet_quotaGuard]]
    | apply view_reads; [|solve [unfold Store.or_zero; repeat first
                             [guar_step | apply reads_query | apply reads_query_row]]]
    | typeclasses eauto | progress cbv zeta ].

(** Closes [Guar (view v)] of statements that write other tables. *)
Ltac elsewhere :=
  apply view_db;
  repeat first [ guar_step | apply guar_transact; [typeclasses eauto|reflexivity|] ];
  try (first [apply guar_insert | apply guar_exec | apply guar_affecting | apply guar_query_row
             | apply guar_query | apply guar_stmt];
       [typeclasses eauto|reflexivity|..];
       intros; repeat case_match; simplify_eq; reflexivity).
