(* ===== verification/Example.v ===== *)
(** A small deployment on the in-memory backend: two organizations with a
    project and a bucket each, one storage cluster, a few members.  The worked
    examples of the service files run on it. *)
From stdpp Require Import pretty.
From S2P Require Import Prelude GoStrings Storage MemStore Database Repository Service.
#[local] Open Scope string_scope.

Definition org_row (id : str) : Live Org :=
  mkLive (mkOrg id id id "active" None "" None 0) None.
Definition project_row (id org : str) : Live Project :=
  mkLive (mkProject id org "Default" "default" 0) None.
Definition user_row (id : str) : Live User :=
  mkLive (mkUser id (id ++ "@example.com") id "argon2:pw" false true 0 None) None.
Definition cluster_row (id : str) : Live Cluster :=
  mkLive (mkCluster id id "garage" "managed" "s3" "admin" "garage" "" "v2.3.0" "" "" "" "" ""
            "sqlite" 1 "healthy" 0) None.
Definition bucket_of (id org project alias : str) : Bucket :=
  mkBucket id org project "c1" alias alias alias "private" false "index.html" "" None None 0.

(** Bucket b1 belongs to org o1 and b2 to org o2; alice owns o1. *)
Definition ex_db : DB :=
  set_orgs [org_row "o1"; org_row "o2"]
  (set_projects [project_row "p1" "o1"; project_row "p2" "o2"]
  (set_users [user_row "alice"; user_row "bob"]
  (set_clusters [cluster_row "c1"; cluster_row "c2"]
  (set_members [mkMembership "o1" "alice" "owner" 0; mkMembership "o1" "bob" "member" 1]
  (set_buckets [mkLive (bucket_of "b1" "o1" "p1" "one") None;
                mkLive (bucket_of "b2" "o2" "p2" "two") None] empty_db))))).

Definition ex_backend : MemB :=
  {[ "one" := {[ "a.txt" := "hello"; "b.txt" := "world!" ]}; "two" := {[ "x" := "foreign" ]} ]}.

Definition ex_world : World MemB := mkWorld ex_db ex_backend ∅ 0 [].

(** A host where every file operation succeeds. *)
Definition ex_host : Host :=
  mkHost (fun _ => None) (fun _ => None) (fun _ _ => None) (fun _ _ => Some 42%Z)
    (fun _ _ => true) (fun _ _ => true).
Definition ex_settings : Settings :=
  mkSettings (Some SSODisabled) true false false false "postgres://db" "/backups"
    (mkBackupOffsiteConfig "" "" "" "" "") ex_host "dev" "s3" "garage" "v2.3.0" "managed".

Definition ex_services_with (caps : Capabilities) (reuse : bool) (az : Authorizer)
    (ent : Entitlements) (hasReg : bool) : Services MemB := {|
  s_Provider := mem_provider caps reuse;
  s_HasReg := hasReg; s_Factories := ∅; s_PrimaryPublicEndpoint := "";
  s_SealerOpen := fun b => inr b; s_SealerSeal := fun _ p => inr p;
  s_Authz := az; s_Ent := ent;
  s_Provision := fun _ _ primary => inr (primary, true);
  s_BillingEnabled := true; s_BillingReport := fun _ _ _ _ => true;
  s_OrgID := "o1"; s_ProjectID := "p1"; s_ClusterID := "c1"; s_SystemKeyID := "GKsystem";
  s_WebPublicDomain := ""; s_PublicBaseURL := "";
  s_Settings := ex_settings |}.
Definition ex_services : Services MemB :=
  ex_services_with caps_garage false PermitAll AlwaysAllow false.

(** A request of [user] with [role] in org o1 or o2. *)
Definition ctx_of (user role org project : str) (admin : bool) : Ctx :=
  mkCtx (Some (mkSubject user org role admin "" zero_time)) (Some (mkTenantContext org project "")) None.
Definition ctx_alice : Ctx := ctx_of "alice" "owner" "o1" "p1" false.
Definition ex_env : Env := example_env Postgres no_fault.

(** The same on a database that reads some ids in other spellings, as Postgres reads a
    uuid in upper case. *)
Definition respell (id : str) : str :=
  if id =s "ALICE" then "alice" else if id =s "C2" then "c2" else if id =s "B1" then "b1" else id.
Definition spelling_env : Env := {|
  env_driver := Postgres; env_fault := no_fault; env_now := @env_now ex_env;
  env_uuid := @env_uuid ex_env; env_token := @env_token ex_env;
  env_hash_password := @env_hash_password ex_env;
  env_verify_password := @env_verify_password ex_env; env_jsonb := @env_jsonb ex_env;
  env_as_uuid := respell; env_as_uuid_gen := fun _ => eq_refl; env_inet := Some |}.

(** Its ids are distinct. *)
Lemma ex_uuid_inj : Inj (=) (=) (@env_uuid ex_env).
Proof. intros n m H. cbn in H. injection H as H. apply pretty_Z_inj in H. lia. Qed.
