(* ===== verification/Buckets.v ===== *)
(** src/internal/service/buckets.go and keys.go: buckets and access keys. *)
From S2P Require Import Prelude GoStrings Hashes Storage Database Repository Service.
#[local] Open Scope string_scope.

Module Buckets.
Section Buckets.
Context {ENV : Env} {B : Type} (s : Services B).
#[local] Abbreviation Svc := (@Service.Svc B).
Implicit Types (ctx : Ctx) (id : str).

(** ** buckets.go *)

(** The usage part of [GetBucket]: live from the backend, else the last snapshot;
    [LatestUsageForBucket] answers zeros instead of an error. *)
Definition usage_now (b : Bucket) : Svc UsageDTO :=
  let! p := attempt (providerForBucket s b) in
  let! live := (match p with
                | inl _ => ret None
                | inr prov =>
                    let! u := attempt (be (sp_GetBucketUsage prov (b_GarageBucketID b))) in
                    ret (match u with
                         | inr u => Some (mkUsageDTO (bu_BytesUsed u) (bu_ObjectCount u))
                         | inl _ => None
                         end)
                end) in
  match live with
  | Some u => ret u
  | None =>
      let! u := mapErr mapRepoErr (db (Store.LatestUsageForBucket (b_ID b))) in
      ret (mkUsageDTO (fst u) (snd u))
  end.

Definition GetBucket ctx id : Svc BucketDTO :=
  let! b := loadBucket s ctx id in
  let! usage := usage_now b in
  ret (bucketToDTO s b usage).

(** The cluster a new bucket lands on. *)
Definition pickCluster ctx (clusterID : str) : Svc str :=
  if negb (clusterID =s "") then ret clusterID
  else
    let! r := (if s_HasReg s
               then attempt (Registry.ProviderForOrg s (tc_OrgID (tenant s ctx)))
               else ret (inl "")) in
    ret (match r with
         | inr (_, ocid) => if ocid =s "" then s_ClusterID s else ocid
         | inl _ => s_ClusterID s
         end).

Definition new_row ctx (name cid gid : str) (quota : QuotaDTO) : Bucket :=
  mkBucket "" (tc_OrgID (tenant s ctx)) (tc_ProjectID (tenant s ctx)) cid name gid name
    "private" false "" "" (q_MaxBytes quota) (q_MaxObjects quota) zero_time.

Definition isSome {A} (o : option A) : bool := match o with Some _ => true | None => false end.

(** The backend part: create, grant the system key, apply the quota. *)
Definition provision (prov : StorageProvider B) (alias : str) (quota : QuotaDTO)
    : Svc SBucket :=
  let caps := sp_Capabilities prov in
  let! gb := mapErr mapStorageErr (be (sp_CreateBucket prov alias)) in
  do! (if cap_ManagesKeys caps && negb (s_SystemKeyID s =s "")
       then mapErr mapStorageErr
              (be (sp_GrantKey prov (sb_ID gb) (s_SystemKeyID s) (mkPermissions true true true)))
       else ret tt) in
  do! (if (isSome (q_MaxBytes quota) || isSome (q_MaxObjects quota)) && cap_ManagesQuota caps
       then mapErr mapStorageErr
              (be (sp_SetQuota prov (sb_ID gb) (mkQuota (q_MaxBytes quota) (q_MaxObjects quota))))
       else ret tt) in
  ret gb.

(** The insert, undoing the backend bucket when it fails. *)
Definition record_bucket (prov : StorageProvider B) (row : Bucket) : Svc str :=
  let! r := attempt (db (Store.CreateBucket row)) in
  match r with
  | inr id => ret id
  | inl e =>
      do! ignore (be (sp_DeleteBucket prov (b_GarageBucketID row))) in
      throw (mapRepoErr e)
  end.

Definition CreateBucket ctx (name : str) (quota : QuotaDTO) (clusterID : str)
    : Svc BucketDTO :=
  do! authorize s ctx ActionCreate (mkTarget ResourceBucket "") in
  do! (match ValidateBucketName name with
       | Some msg => throw (validationErr msg)
       | None => ret tt
       end) in
  do! quotaGuard s ctx 0 in
  let! cid := pickCluster ctx clusterID in
  do! (if cid =s s_ClusterID s then ret tt
       else
         let! r := attempt (db (Store.GetClusterByID cid)) in
         match r with
         | inl _ => throw (validationErr "unknown or invalid cluster_id")
         | inr _ => ret tt
         end) in
  let! prov := mapErr (fun e => storageUnavailableErr ("cannot reach the selected cluster: " ++ e))
                 (providerFor s cid) in
  let! gb := provision prov name quota in
  let! id := record_bucket prov (new_row ctx name cid (sb_ID gb) quota) in
  do! audit s ctx "bucket.create" "bucket" id
        (Some [("name", JStr name); ("cluster_id", JStr cid)]) in
  do! emit s ctx EventBucketCreated id 0 in
  GetBucket ctx id.

Definition ListBuckets ctx : Svc (list BucketDTO) :=
  let! rows := mapErr mapRepoErr (db (Store.ListBuckets (tc_ProjectID (tenant s ctx)))) in
  mapM_ (fun b =>
    let! u := mapErr mapRepoErr (db (Store.LatestUsageForBucket (b_ID b))) in
    ret (bucketToDTO s b (mkUsageDTO (fst u) (snd u)))) rows.

Definition object_keys (l : list Object) : list str :=
  map obj_Key (where_ (fun o => negb (obj_IsPrefix o)) l).

(** At most [n] rounds of list-and-delete; the code runs 1000. *)
Fixpoint empty_rounds (n : nat) (prov : StorageProvider B) (alias : str)
    : M B StErr unit :=
  match n with
  | O => ret tt
  | S n' =>
      let! res := sp_ListObjects prov alias (mkListObjectsInput "" "" "" 1000) in
      let keys := object_keys (lor_Objects res) in
      match keys with
      | [] => ret tt
      | _ =>
          do! sp_DeleteObjects prov alias keys in
          if negb (lor_IsTruncated res) && (length keys <? 1000)%nat then ret tt
          else empty_rounds n' prov alias
      end
  end.
Definition emptyBucket (prov : StorageProvider B) (alias : str) : M B StErr unit :=
  empty_rounds 1000 prov alias.

Definition DeleteBucket ctx id : Svc unit :=
  do! authorize s ctx ActionDelete (mkTarget ResourceBucket id) in
  let! b := loadBucket s ctx id in
  let! prov := mapErr unreachable (providerForBucket s b) in
  do! mapErr mapStorageErr (be (emptyBucket prov (b_GarageGlobalAlias b))) in
  do! mapErr mapStorageErr (be (sp_DeleteBucket prov (b_GarageBucketID b))) in
  do! mapErr mapRepoErr (db (Store.SoftDeleteBucket id)) in
  do! audit s ctx "bucket.delete" "bucket" id (Some [("name", JStr (b_Name b))]) in
  emit s ctx EventBucketDeleted id 0.

Definition SetQuota ctx id (quota : QuotaDTO) : Svc BucketDTO :=
  do! authorize s ctx ActionUpdate (mkTarget ResourceBucket id) in
  let! b := loadBucket s ctx id in
  let! prov := mapErr unreachable (providerForBucket s b) in
  do! (if cap_ManagesQuota (sp_Capabilities prov)
       then mapErr mapStorageErr (be (sp_SetQuota prov (b_GarageBucketID b)
              (mkQuota (q_MaxBytes quota) (q_MaxObjects quota))))
       else ret tt) in
  do! mapErr mapRepoErr (db (Store.UpdateBucketQuota id (q_MaxBytes quota) (q_MaxObjects quota))) in
  do! audit s ctx "bucket.set_quota" "bucket" id None in
  GetBucket ctx id.

Definition SetVisibility ctx id (public : bool) (index errorDoc : str) : Svc BucketDTO :=
  do! authorize s ctx ActionUpdate (mkTarget ResourceBucket id) in
  let! b := loadBucket s ctx id in
  let! prov := mapErr unreachable (providerForBucket s b) in
  guard! cap_PublicWebsite (sp_Capabilities prov) else unsupportedErr in
  let '(vis, dbVis) := if public then (VisibilityPublic, "public_website")
                       else (VisibilityPrivate, "private") in
  do! mapErr mapStorageErr (be (sp_SetVisibility prov (b_GarageBucketID b) vis
        (mkWebsiteConfig public index errorDoc))) in
  do! mapErr mapRepoErr (db (Store.UpdateBucketVisibility id dbVis public index errorDoc)) in
  do! audit s ctx "bucket.set_visibility" "bucket" id (Some [("public", JBool public)]) in
  GetBucket ctx id.

(** ** keys.go *)

Record GrantInput := mkGrantInput {
  gi_BucketID : str; gi_Read : bool; gi_Write : bool; gi_Owner : bool }.
Record GrantDTO := mkGrantDTO {
  gd_BucketID : str; gd_BucketName : str; gd_Read : bool; gd_Write : bool; gd_Owner : bool }.
Record KeyDTO := mkKeyDTO {
  kd_ID : str; kd_Name : str; kd_AccessKeyID : str; kd_CanCreateBucket : bool;
  kd_SecretLastFour : str; kd_Grants : list GrantDTO; kd_CreatedAt : Z }.
Record KeyCreateResult := mkKeyCreateResult {
  kcr_Key : KeyDTO; kcr_SecretAccessKey : str; kcr_SecretShownOnce : bool }.

Definition lastFour (x : str) : str :=
  if (String.length x <=? 4)%nat then x else str_drop (String.length x - 4) x.

Definition keyToDTO (k : AccessKey) (grants : list GrantDTO) : KeyDTO :=
  mkKeyDTO (k_ID k) (k_Name k) (k_GarageAccessKeyID k) (k_CanCreateBucket k)
    (k_SecretLastFour k) grants (k_CreatedAt k).

(** On an error the callers go on with no grants. *)
Definition keyGrants (keyID : str) : Svc (list GrantDTO) :=
  let! r := attempt (db (Store.ListGrantsForKey keyID)) in
  ret (match r with
       | inr gs => map (fun g => mkGrantDTO (g_BucketID g) (g_BucketName g) (g_CanRead g)
                                   (g_CanWrite g) (g_IsOwner g)) gs
       | inl _ => []
       end).

Definition grant ctx (keyID garageKeyID : str) (g : GrantInput) : Svc unit :=
  let! bp := bucketProvider s ctx (gi_BucketID g) in
  let '(b, prov) := bp in
  guard! cap_ManagesKeys (sp_Capabilities prov) else unsupportedErr in
  do! mapErr mapStorageErr (be (sp_GrantKey prov (b_GarageBucketID b) garageKeyID
        (mkPermissions (gi_Read g) (gi_Write g) (gi_Owner g)))) in
  mapErr mapRepoErr (db (Store.UpsertGrant
    (mkGrant (gi_BucketID g) keyID "" "" (gi_Read g) (gi_Write g) (gi_Owner g)))).

Definition CreateAccessKey ctx (name : str) (canCreateBucket : bool)
    (grants : list GrantInput) : Svc KeyCreateResult :=
  do! authorize s ctx ActionCreate (mkTarget ResourceAccessKey "") in
  do! (match ValidateKeyName name with
       | Some msg => throw (validationErr msg)
       | None => ret tt
       end) in
  let! cred := mapErr mapStorageErr (be (sp_CreateAccessKey (s_Provider s) name canCreateBucket)) in
  let secret := cred_SecretAccessKey cred in
  let row := mkAccessKey "" (tc_OrgID (tenant s ctx)) (tc_ProjectID (tenant s ctx))
               (s_ClusterID s) name (cred_AccessKeyID cred) (lastFour secret) canCreateBucket
               zero_time "" in
  let! id := mapErr mapRepoErr (db (Store.CreateAccessKey row (Sha256.Sum256 secret))) in
  do! forM_ grants (grant ctx id (cred_AccessKeyID cred)) in
  do! audit s ctx "access_key.create" "access_key" id (Some [("name", JStr name)]) in
  do! emit s ctx EventKeyCreated id 0 in
  let! k2 := attempt (db (Store.GetAccessKey id)) in
  let row := set_k_ID id row in
  let row := match k2 with inr k => set_k_CreatedAt (k_CreatedAt k) row | inl _ => row end in
  let! gdtos := keyGrants id in
  ret (mkKeyCreateResult (keyToDTO row gdtos) secret true).

Definition ListAccessKeys ctx : Svc (list KeyDTO) :=
  let! rows := mapErr mapRepoErr (db (Store.ListAccessKeys (tc_ProjectID (tenant s ctx)))) in
  mapM_ (fun k => let! g := keyGrants (k_ID k) in ret (keyToDTO k g)) rows.

Definition GetAccessKey ctx id : Svc KeyDTO :=
  let! k := loadKey s ctx id in
  let! g := keyGrants id in
  ret (keyToDTO k g).

Definition DeleteAccessKey ctx id : Svc unit :=
  do! authorize s ctx ActionDelete (mkTarget ResourceAccessKey id) in
  let! k := loadKey s ctx id in
  do! mapErr mapStorageErr (be (sp_DeleteAccessKey (s_Provider s) (k_GarageAccessKeyID k))) in
  do! mapErr mapRepoErr (db (Store.SoftDeleteAccessKey id)) in
  do! audit s ctx "access_key.delete" "access_key" id (Some [("name", JStr (k_Name k))]) in
  emit s ctx EventKeyRevoked id 0.

Definition GrantBucket ctx (keyID : str) (g : GrantInput) : Svc unit :=
  do! authorize s ctx ActionUpdate (mkTarget ResourceAccessKey keyID) in
  let! k := loadKey s ctx keyID in
  do! grant ctx keyID (k_GarageAccessKeyID k) g in
  audit s ctx "access_key.grant" "access_key" keyID (Some [("bucket_id", JStr (gi_BucketID g))]).

Definition RevokeBucket ctx (keyID bucketID : str) : Svc unit :=
  do! authorize s ctx ActionUpdate (mkTarget ResourceAccessKey keyID) in
  let! k := loadKey s ctx keyID in
  let! bp := bucketProvider s ctx bucketID in
  let '(b, prov) := bp in
  guard! cap_ManagesKeys (sp_Capabilities prov) else unsupportedErr in
  do! mapErr mapStorageErr (be (sp_RevokeKey prov (b_GarageBucketID b) (k_GarageAccessKeyID k))) in
  do! mapErr mapRepoErr (db (Store.DeleteGrant bucketID keyID)) in
  audit s ctx "access_key.revoke" "access_key" keyID (Some [("bucket_id", JStr bucketID)]).

End Buckets.
End Buckets.
