(* ===== verification/Objects.v ===== *)
(** src/internal/service/objects.go, trash.go, cors_lifecycle.go and versions.go:
    the object plane, the trash, CORS, lifecycle rules and versions. *)
From S2P Require Import Prelude GoStrings Storage Database Repository Service.
#[local] Open Scope string_scope.

Module Objects.

(** ** DTOs *)

Record ObjectDTO := mkObjectDTO {
  od_Type : str; od_Key : str; od_SizeBytes : Z; od_ETag : str; od_LastModified : Z }.
Record ObjectListDTO := mkObjectListDTO {
  old_Data : list ObjectDTO; old_CommonPrefixes : list str; old_NextCursor : str;
  old_IsTruncated : bool }.
Record TrashDTO := mkTrashDTO {
  td_ID : str; td_Key : str; td_SizeBytes : Z; td_DeletedAt : Z; td_PurgeAfter : Z }.
Record ObjectVersionDTO := mkObjectVersionDTO {
  vd_Key : str; vd_VersionID : str; vd_IsLatest : bool; vd_IsDeleteMarker : bool;
  vd_SizeBytes : Z; vd_LastModified : Z; vd_ETag : str }.

(** 7 * 24 * time.Hour *)
Definition trashRetention : Z := (7 * 24 * 3600 * 10 ^ 9)%Z.
Definition trashPrefix : str := ".trash/".

Section Objects.
Context {ENV : Env} {B : Type} (s : Services B).
#[local] Abbreviation Svc := (@Service.Svc B).
Implicit Types (ctx : Ctx) (bucketID key : str).

(** ** trash.go *)

Definition trashKeyOf (t : Z) (key : str) : str := trashPrefix ++ Itoa t ++ "/" ++ key.

(** One key of the loop of trashObjects. *)
Definition trashOne (prov : StorageProvider B) (b : Bucket) (t : Z) (key : str) : Svc unit :=
  let alias := b_GarageGlobalAlias b in
  let! h := attempt (be (sp_HeadObject prov alias key)) in
  let size := match h with inr o => obj_Size o | inl _ => 0%Z end in
  let trashKey := trashKeyOf t key in
  do! mapErr mapStorageErr (be (sp_CopyObject prov alias key trashKey)) in
  do! mapErr mapStorageErr (be (sp_DeleteObject prov alias key)) in
  do! mapErr mapRepoErr (db (Store.InsertTrash
        (mkTrashItem "" (b_ID b) (b_OrgID b) key trashKey size 0 (t + trashRetention) None))) in
  ret tt.

Definition trashObjects ctx (b : Bucket) (keys : list str) : Svc unit :=
  let! prov := mapErr unreachable (providerForBucket s b) in
  let! t := now in
  do! forM_ keys (trashOne prov b t) in
  audit s ctx "object.trash" "bucket" (b_ID b) (Some [("count", JInt (Z.of_nat (length keys)))]).

Definition ListTrash ctx bucketID : Svc (list TrashDTO) :=
  let! items := mapErr mapRepoErr (db (Store.ListTrash bucketID)) in
  ret (map (fun t => mkTrashDTO (t_ID t) (t_OriginalKey t) (t_SizeBytes t) (t_DeletedAt t)
                       (t_PurgeAfter t)) items).

Definition RestoreObject ctx bucketID (trashID : str) : Svc unit :=
  do! authorize s ctx ActionCreate (mkTarget ResourceObject "") in
  let! t := mapErr mapRepoErr (db (Store.GetTrash trashID)) in
  let! bp := bucketProvider s ctx bucketID in
  let '(b, prov) := bp in
  let alias := b_GarageGlobalAlias b in
  do! mapErr mapStorageErr (be (sp_CopyObject prov alias (t_TrashKey t) (t_OriginalKey t))) in
  do! mapErr mapStorageErr (be (sp_DeleteObject prov alias (t_TrashKey t))) in
  do! mapErr mapRepoErr (db (Store.MarkRestored trashID)) in
  audit s ctx "object.restore" "bucket" bucketID (Some [("key", JStr (t_OriginalKey t))]).

Definition PurgeObject ctx bucketID (trashID : str) : Svc unit :=
  do! authorize s ctx ActionDelete (mkTarget ResourceObject "") in
  let! t := mapErr mapRepoErr (db (Store.GetTrash trashID)) in
  let! bp := bucketProvider s ctx bucketID in
  let '(b, prov) := bp in
  do! mapErr mapStorageErr (be (sp_DeleteObject prov (b_GarageGlobalAlias b) (t_TrashKey t))) in
  do! mapErr mapRepoErr (db (Store.DeleteTrash trashID)) in
  audit s ctx "object.purge" "bucket" bucketID (Some [("key", JStr (t_OriginalKey t))]).

Definition purgeOne (t : TrashItem) : Svc unit :=
  let! rb := attempt (db (Store.GetBucket (t_BucketID t))) in
  do! (match rb with
       | inl _ => ret tt
       | inr b =>
           let! rp := attempt (providerForBucket s b) in
           match rp with
           | inl _ => ret tt
           | inr prov => ignore (be (sp_DeleteObject prov (b_GarageGlobalAlias b) (t_TrashKey t)))
           end
       end) in
  ignore (db (Store.DeleteTrash (t_ID t))).

Definition PurgeDueTrash : Svc unit :=
  let! due := attempt (db (Store.DueForPurge 200)) in
  match due with
  | inl _ => ret tt
  | inr items => forM_ items purgeOne
  end.

(** ** objects.go *)

Definition ListObjects ctx bucketID (prefix delimiter cursor : str) (maxKeys : Z)
    : Svc ObjectListDTO :=
  let! bp := bucketProvider s ctx bucketID in
  let '(b, prov) := bp in
  let! res := mapErr mapStorageErr (be (sp_ListObjects prov (b_GarageGlobalAlias b)
                (mkListObjectsInput prefix delimiter cursor maxKeys))) in
  ret (mkObjectListDTO
    (map (fun o => mkObjectDTO "object" (obj_Key o) (obj_Size o) (obj_ETag o) (obj_LastModified o))
       (where_ (fun o => negb (HasPrefix (obj_Key o) trashPrefix)) (lor_Objects res)))
    (where_ (fun p => negb (HasPrefix p trashPrefix)) (lor_CommonPrefixes res))
    (lor_NextContinuationToken res) (lor_IsTruncated res)).

Definition DeleteObjects ctx bucketID (keys : list str) (permanent : bool) : Svc unit :=
  do! authorize s ctx ActionDelete (mkTarget ResourceObject "") in
  reject! (length keys =? 0)%nat with validationErr "no object keys provided" in
  let! bp := bucketProvider s ctx bucketID in
  let '(b, prov) := bp in
  do! (if permanent
       then
         do! mapErr mapStorageErr (be (sp_DeleteObjects prov (b_GarageGlobalAlias b) keys)) in
         audit s ctx "object.delete" "bucket" bucketID
           (Some [("count", JInt (Z.of_nat (length keys))); ("permanent", JBool true)])
       else trashObjects ctx b keys) in
  forM_ keys (fireWebhook bucketID EventObjectDeleted).

Definition HeadObject ctx bucketID key : Svc ObjectDTO :=
  let! bp := bucketProvider s ctx bucketID in
  let '(b, prov) := bp in
  let! o := mapErr mapStorageErr (be (sp_HeadObject prov (b_GarageGlobalAlias b) key)) in
  ret (mkObjectDTO "object" (obj_Key o) (obj_Size o) (obj_ETag o) (obj_LastModified o)).

Definition CopyObject ctx bucketID (srcKey dstKey : str) : Svc unit :=
  do! authorize s ctx ActionCreate (mkTarget ResourceObject "") in
  reject! (srcKey =s "") || (dstKey =s "")
    with validationErr "src_key and dst_key are required" in
  let! bp := bucketProvider s ctx bucketID in
  let '(b, prov) := bp in
  do! mapErr mapStorageErr (be (sp_CopyObject prov (b_GarageGlobalAlias b) srcKey dstKey)) in
  do! audit s ctx "object.copy" "bucket" bucketID
        (Some [("src", JStr srcKey); ("dst", JStr dstKey)]) in
  fireWebhook bucketID EventObjectCreated dstKey.

Definition MoveObject ctx bucketID (srcKey dstKey : str) : Svc unit :=
  do! authorize s ctx ActionUpdate (mkTarget ResourceObject "") in
  reject! (srcKey =s "") || (dstKey =s "") || (srcKey =s dstKey)
    with validationErr "distinct src_key and dst_key are required" in
  let! bp := bucketProvider s ctx bucketID in
  let '(b, prov) := bp in
  do! mapErr mapStorageErr (be (sp_CopyObject prov (b_GarageGlobalAlias b) srcKey dstKey)) in
  do! mapErr mapStorageErr (be (sp_DeleteObject prov (b_GarageGlobalAlias b) srcKey)) in
  do! audit s ctx "object.move" "bucket" bucketID
        (Some [("src", JStr srcKey); ("dst", JStr dstKey)]) in
  do! fireWebhook bucketID EventObjectCreated dstKey in
  fireWebhook bucketID EventObjectDeleted srcKey.

Definition PutObjectStream ctx bucketID key (body : str) (size : Z) (contentType ssecKeyB64 : str)
    : Svc unit :=
  do! authorize s ctx ActionCreate (mkTarget ResourceObject "") in
  reject! key =s "" with validationErr "key is required" in
  do! (if (0 <? size)%Z then quotaGuard s ctx size else ret tt) in
  let! bp := bucketProvider s ctx bucketID in
  let '(b, prov) := bp in
  do! mapErr mapStorageErr (be (sp_PutObject prov (WithSSEC (ctx_ssec ctx) ssecKeyB64)
        (b_GarageGlobalAlias b) key body size contentType)) in
  do! audit s ctx "object.upload" "bucket" bucketID
        (Some [("key", JStr key); ("sse_c", JBool (negb (ssecKeyB64 =s "")))]) in
  do! emit s ctx EventObjectUploaded bucketID size in
  fireWebhook bucketID EventObjectCreated key.

Definition GetObjectStream ctx bucketID key (ssecKeyB64 : str) : Svc (str * Object) :=
  reject! key =s "" with validationErr "key is required" in
  let! bp := bucketProvider s ctx bucketID in
  let '(b, prov) := bp in
  mapErr mapStorageErr (be (sp_GetObject prov (WithSSEC (ctx_ssec ctx) ssecKeyB64)
    (b_GarageGlobalAlias b) key)).

(** The duration is an int64 of nanoseconds. *)
Definition PresignObject ctx bucketID key (method contentType : str) (expiresSeconds : Z)
    : Svc str :=
  let! bp := bucketProvider s ctx bucketID in
  let '(b, prov) := bp in
  let method := ToUpper method in
  guard! (method =s "GET") || (method =s "PUT")
    else validationErr "method must be GET or PUT" in
  do! authorize s ctx (if method =s "PUT" then ActionCreate else ActionRead)
        (mkTarget ResourceObject "") in
  reject! key =s "" with validationErr "key is required" in
  let expires := mul64 expiresSeconds (10 ^ 9) in
  let expires := if (expires <=? 0)%Z then (15 * 60 * 10 ^ 9)%Z else expires in
  mapErr mapStorageErr (be (sp_Presign prov
    (mkPresignInput (b_GarageGlobalAlias b) key method contentType expires))).

(** ** cors_lifecycle.go *)

Definition resolveAlias ctx bucketID : Svc (str * StorageProvider B) :=
  let! b := loadBucket s ctx bucketID in
  let! prov := mapErr unreachable (providerForBucket s b) in
  ret (b_GarageGlobalAlias b, prov).

(** The DTO and the storage rule have the same fields. *)
Definition GetBucketCORS ctx bucketID : Svc (list CORSRule) :=
  let! ap := resolveAlias ctx bucketID in
  mapErr mapStorageErr (be (sp_GetCORS (snd ap) (fst ap))).

Definition cors_ok (r : CORSRule) : bool :=
  negb ((length (cors_AllowedOrigins r) =? 0)%nat || (length (cors_AllowedMethods r) =? 0)%nat).

Definition SetBucketCORS ctx bucketID (rules : list CORSRule) : Svc unit :=
  do! authorize s ctx ActionUpdate (mkTarget ResourceBucket bucketID) in
  let! ap := resolveAlias ctx bucketID in
  guard! forallb cors_ok rules
    else validationErr "each CORS rule needs at least one allowed origin and method" in
  do! mapErr mapStorageErr (be (sp_SetCORS (snd ap) (fst ap) rules)) in
  audit s ctx "bucket.set_cors" "bucket" bucketID
    (Some [("rules", JInt (Z.of_nat (length rules)))]).

Definition DeleteBucketCORS ctx bucketID : Svc unit :=
  do! authorize s ctx ActionUpdate (mkTarget ResourceBucket bucketID) in
  let! ap := resolveAlias ctx bucketID in
  do! mapErr mapStorageErr (be (sp_DeleteCORS (snd ap) (fst ap))) in
  audit s ctx "bucket.delete_cors" "bucket" bucketID None.

Definition GetBucketLifecycle ctx bucketID : Svc (list LifecycleRule) :=
  let! ap := resolveAlias ctx bucketID in
  mapErr mapStorageErr (be (sp_GetLifecycle (snd ap) (fst ap))).

Definition lifecycle_ok (r : LifecycleRule) : bool :=
  negb ((lr_ExpireDays r <=? 0)%Z && (lr_AbortIncompleteMPUDays r <=? 0)%Z).

Definition SetBucketLifecycle ctx bucketID (rules : list LifecycleRule) : Svc unit :=
  do! authorize s ctx ActionUpdate (mkTarget ResourceBucket bucketID) in
  let! ap := resolveAlias ctx bucketID in
  guard! forallb lifecycle_ok rules
    else validationErr "each lifecycle rule needs an expiry or abort-incomplete-MPU day count" in
  do! mapErr mapStorageErr (be (sp_SetLifecycle (snd ap) (fst ap) rules)) in
  audit s ctx "bucket.set_lifecycle" "bucket" bucketID
    (Some [("rules", JInt (Z.of_nat (length rules)))]).

Definition DeleteBucketLifecycle ctx bucketID : Svc unit :=
  do! authorize s ctx ActionUpdate (mkTarget ResourceBucket bucketID) in
  let! ap := resolveAlias ctx bucketID in
  do! mapErr mapStorageErr (be (sp_DeleteLifecycle (snd ap) (fst ap))) in
  audit s ctx "bucket.delete_lifecycle" "bucket" bucketID None.

(** ** versions.go *)

Definition GetBucketVersioning ctx bucketID : Svc bool :=
  let! bp := bucketProvider s ctx bucketID in
  let '(b, prov) := bp in
  mapErr mapStorageErr (be (sp_GetBucketVersioning prov (b_GarageGlobalAlias b))).

Definition SetBucketVersioning ctx bucketID (enabled : bool) : Svc unit :=
  do! authorize s ctx ActionUpdate (mkTarget ResourceBucket "") in
  let! bp := bucketProvider s ctx bucketID in
  let '(b, prov) := bp in
  do! mapErr mapStorageErr (be (sp_SetBucketVersioning prov (b_GarageGlobalAlias b) enabled)) in
  audit s ctx "bucket.versioning" "bucket" bucketID (Some [("enabled", JBool enabled)]).

Definition ListObjectVersions ctx bucketID (prefix : str) : Svc (list ObjectVersionDTO) :=
  let! bp := bucketProvider s ctx bucketID in
  let '(b, prov) := bp in
  let! vs := mapErr mapStorageErr (be (sp_ListObjectVersions prov (b_GarageGlobalAlias b) prefix)) in
  ret (map (fun v => mkObjectVersionDTO (ov_Key v) (ov_VersionID v) (ov_IsLatest v)
                       (ov_IsDeleteMarker v) (ov_Size v) (ov_LastModified v) (ov_ETag v)) vs).

Definition DeleteObjectVersion ctx bucketID key (versionID : str) : Svc unit :=
  do! authorize s ctx ActionDelete (mkTarget ResourceObject "") in
  reject! (key =s "") || (versionID =s "")
    with validationErr "key and version_id are required" in
  let! bp := bucketProvider s ctx bucketID in
  let '(b, prov) := bp in
  do! mapErr mapStorageErr (be (sp_DeleteObjectVersion prov (b_GarageGlobalAlias b) key versionID)) in
  audit s ctx "object.version.delete" "bucket" bucketID
    (Some [("key", JStr key); ("version", JStr versionID)]).

Definition RestoreObjectVersion ctx bucketID key (versionID : str) : Svc unit :=
  do! authorize s ctx ActionUpdate (mkTarget ResourceObject "") in
  reject! (key =s "") || (versionID =s "")
    with validationErr "key and version_id are required" in
  let! bp := bucketProvider s ctx bucketID in
  let '(b, prov) := bp in
  do! mapErr mapStorageErr (be (sp_RestoreObjectVersion prov (b_GarageGlobalAlias b) key versionID)) in
  do! audit s ctx "object.version.restore" "bucket" bucketID
        (Some [("key", JStr key); ("version", JStr versionID)]) in
  fireWebhook bucketID EventObjectCreated key.

End Objects.
End Objects.
