(* ===== verification/Tenants.v ===== *)
(** src/internal/service/tenants.go and tenant_cluster.go: the platform
    operator's view of organizations: suspension, storage ceilings, and the
    clusters an organization is placed on.  The SCIM tokens of tenants.go are
    not modelled. *)
From S2P Require Import Prelude GoStrings GoTime Storage Database Repository Service.
#[local] Open Scope string_scope.

Module Tenants.

Record OrgStatusDTO := mkOrgStatusDTO {
  osd_OrgID : str; osd_Status : str; osd_SuspendedAt : str; osd_SuspendReason : str;
  osd_QuotaMaxBytes : option Z; osd_BytesUsed : Z }.
Record OrgClusterDTO := mkOrgClusterDTO {
  ocd_ClusterID : str; ocd_Name : str; ocd_Provider : str; ocd_IsDefault : bool }.
Record TenantClusterResult := mkTenantClusterResult {
  tcr_OrgID : str; tcr_ClusterID : str; tcr_Mode : str; tcr_Status : str }.

Section Tenants.
Context {ENV : Env} {B : Type} (s : Services B).
#[local] Abbreviation Svc := (@Service.Svc B).
Implicit Types (ctx : Ctx).

Definition adminErr : Error :=
  mkError "forbidden" "platform administrator privilege required" 403.

Definition requirePlatformAdmin ctx : Svc unit :=
  if sub_PlatformAdmin (subjectFrom ctx) then ret tt else throw adminErr.

(** Owner of the organization, or platform administrator. *)
Definition ownerOrAdminErr : Error :=
  mkError "forbidden" "owner or platform administrator privilege required" 403.
Definition scimTokenActor ctx : Svc unit :=
  let subj := subjectFrom ctx in
  if sub_PlatformAdmin subj || (sub_Role subj =s "owner") then ret tt else throw ownerOrAdminErr.

(** [OrgUsageTotals] never returns an error. *)
Definition GetOrgStatus ctx (orgID : str) : Svc OrgStatusDTO :=
  do! requirePlatformAdmin ctx in
  let! st := mapErr mapRepoErr (db (Store.GetOrgStatus orgID)) in
  let! used := attempt (db (Store.OrgUsageTotals orgID)) in
  let bytes := match used with inr t => fst t | inl _ => 0%Z end in
  ret (mkOrgStatusDTO orgID (Store.os_Status st)
         (match Store.os_SuspendedAt st with Some t => Time.RFC3339 t | None => "" end)
         (Store.os_SuspendReason st) (Store.os_QuotaMaxBytes st) bytes).

Definition SuspendOrg ctx (orgID reason : str) : Svc unit :=
  do! requirePlatformAdmin ctx in
  do! mapErr mapRepoErr (db (Store.SuspendOrg orgID reason)) in
  audit s ctx "org.suspend" "organization" orgID (Some [("reason", JStr reason)]).

Definition ResumeOrg ctx (orgID : str) : Svc unit :=
  do! requirePlatformAdmin ctx in
  do! mapErr mapRepoErr (db (Store.ResumeOrg orgID)) in
  audit s ctx "org.resume" "organization" orgID None.

Definition opt_json (z : option Z) : JSON := match z with Some n => JInt n | None => JNull end.

Definition SetOrgQuota ctx (orgID : str) (maxBytes : option Z) : Svc unit :=
  do! requirePlatformAdmin ctx in
  reject! (match maxBytes with Some n => n <? 0 | None => false end)%Z
    with validationErr "quota_max_bytes must be >= 0" in
  do! mapErr mapRepoErr (db (Store.SetOrgQuota orgID maxBytes)) in
  audit s ctx "org.set_quota" "organization" orgID
    (Some [("quota_max_bytes", opt_json maxBytes)]).

Definition ListOrgClusters ctx (orgID : str) : Svc (list OrgClusterDTO) :=
  do! requirePlatformAdmin ctx in
  let! rows := mapErr mapRepoErr (db (Store.ListOrgClusters orgID)) in
  ret (map (fun oc => mkOrgClusterDTO (Store.oc_StorageClusterID oc) (Store.oc_Name oc)
                        (Store.oc_Provider oc) (Store.oc_Default oc)) rows).

Definition AssignClusterToOrg ctx (orgID clusterID : str) (makeDefault : bool) : Svc unit :=
  do! requirePlatformAdmin ctx in
  let! _ := mapErr mapRepoErr (db (Store.GetOrgStatus orgID)) in
  let! _ := mapErr (fun _ => validationErr "unknown or invalid cluster_id")
              (db (Store.GetClusterByID clusterID)) in
  do! mapErr mapRepoErr (db (Store.AssignClusterToOrg orgID clusterID makeDefault)) in
  audit s ctx "org.assign_cluster" "organization" orgID
    (Some [("cluster_id", JStr clusterID); ("default", JBool makeDefault)]).

Definition UnassignClusterFromOrg ctx (orgID clusterID : str) : Svc unit :=
  do! requirePlatformAdmin ctx in
  do! mapErr mapRepoErr (db (Store.UnassignClusterFromOrg orgID clusterID)) in
  audit s ctx "org.unassign_cluster" "organization" orgID (Some [("cluster_id", JStr clusterID)]).

(** A failed lookup counts as not suspended. *)
Definition OrgIsSuspended (orgID : str) : Svc bool :=
  if orgID =s "" then ret false
  else
    let! r := attempt (db (Store.GetOrgStatus orgID)) in
    ret (match r with inr st => Store.os_Status st =s "suspended" | inl _ => false end).

(** ** tenant_cluster.go *)

Definition AssignTenantCluster ctx (orgID mode : str) : Svc TenantClusterResult :=
  do! requirePlatformAdmin ctx in
  let! _ := mapErr mapRepoErr (db (Store.GetOrgStatus orgID)) in
  reject! negb (mode =s "pooled") && negb (mode =s "dedicated")
    with validationErr "mode must be 'pooled' or 'dedicated'" in
  match s_Provision s orgID (mode =s "dedicated") (s_ClusterID s) with
  | inl e => throw (mkError "provision_failed" e 502)
  | inr (cid, ready) =>
      let clusterID := if cid =s "" then s_ClusterID s else cid in
      do! mapErr mapRepoErr (db (Store.AssignClusterToOrg orgID clusterID true)) in
      let status := if ready : bool then "active" else "pending_setup" in
      do! mapErr mapRepoErr (db (Store.SetOrgStatus orgID status)) in
      do! audit s ctx "org.assign_tenant_cluster" "organization" orgID
            (Some [("mode", JStr mode); ("cluster_id", JStr clusterID); ("status", JStr status)]) in
      ret (mkTenantClusterResult orgID clusterID mode status)
  end.

(** One organization of the control loop. *)
Definition reconcileOrg (orgID : str) : Svc unit :=
  if negb (s_HasReg s) then ret tt
  else
    let! r := attempt (Registry.ProviderForOrg s orgID) in
    match r with
    | inl _ => ret tt
    | inr (prov, clusterID) =>
        if clusterID =s "" then ret tt
        else
          let! h := attempt (be (sp_GetClusterHealth prov)) in
          let ready := match h with
                       | inr h => (ch_Status h =s "healthy") || (0 <? ch_StorageNodesOK h)%Z
                       | inl _ => true
                       end in
          if ready then ignore (db (Store.SetOrgStatus orgID "active")) else ret tt
    end.

Definition reconcilePendingOrgs : Svc unit :=
  let! orgs := attempt (db (Store.ListOrgIDsByStatus "pending_setup")) in
  match orgs with
  | inl _ => ret tt
  | inr ids => forM_ ids reconcileOrg
  end.

End Tenants.
End Tenants.
