(* ===== verification/Migrations.v ===== *)
(** src/internal/service/migrations.go: importing a bucket of another S3 service.

    The worker is a small machine.  [Check] is the top of its loop, [Body] one
    page of the listing with the progress it saves; a request may cancel the job
    between any two steps.  [runMigration] runs it from the job's row to the
    end. *)
From S2P Require Import Prelude GoStrings Storage S3core Database Repository Service Tenants.
#[local] Open Scope string_scope.

Module Migrations.

Record MigrationInput := mkMigrationInput {
  mi_SourceEndpoint : str; mi_SourceRegion : str; mi_SourceBucket : str; mi_AccessKeyID : str;
  mi_SecretAccessKey : str; mi_DestBucketID : str }.
Record MigrationJobDTO := mkMigrationJobDTO {
  mjd_ID : str; mjd_SourceBucket : str; mjd_DestBucketID : str; mjd_Status : str;
  mjd_CopiedObjects : Z; mjd_CopiedBytes : Z; mjd_Error : str }.

Definition migrationDTO (j : MigrationJob) : MigrationJobDTO :=
  mkMigrationJobDTO (mj_ID j) (mj_SourceBucket j) (mj_DestBucketID j) (mj_Status j)
    (mj_CopiedObjects j) (mj_CopiedBytes j) (mj_Error j).

(** How the worker ended. *)
Inductive Outcome := Gone | Finished | Canceled | Failed | Completed.

(** The loop variables [cursor], [copiedObjects], [copiedBytes]. *)
Record Progress := mkProgress { pr_Cursor : str; pr_Objects : Z; pr_Bytes : Z }.

Inductive WState := Check (p : Progress) | Body (p : Progress) | Done (o : Outcome).

Section Migrations.
Context {ENV : Env} {B : Type} `{!S3Service B} (s : Services B).
(** [strconv.Quote], for the error text of a failed copy *)
Variable quote : str -> str.
#[local] Abbreviation Svc := (@Service.Svc B).
Implicit Types (ctx : Ctx).

(** ** Requests *)

Definition StartMigration ctx (i : MigrationInput) : Svc MigrationJobDTO :=
  do! Tenants.scimTokenActor ctx in
  reject! (mi_SourceEndpoint i =s "") || (mi_SourceBucket i =s "") || (mi_AccessKeyID i =s "")
          || (mi_SecretAccessKey i =s "")
    with validationErr "source endpoint, bucket, access key and secret are required" in
  let! dest := loadBucket s ctx (mi_DestBucketID i) in
  let region := if mi_SourceRegion i =s "" then "us-east-1" else mi_SourceRegion i in
  let src := Client.New (mi_SourceEndpoint i) (mi_SourceEndpoint i) region (mi_AccessKeyID i)
               (mi_SecretAccessKey i) in
  let! _ := mapErr (fun e => validationErr ("cannot read the source bucket: " ++ st_error e))
    (be (Client.ListObjects src (mi_SourceBucket i) (mkListObjectsInput "" "" "" 1))) in
  let! secretEnc := seal s (mi_SecretAccessKey i) in
  let! id := mapErr mapRepoErr (db (Store.CreateMigrationJob
    (mkMigrationJob "" (tc_OrgID (tenant s ctx)) (mi_SourceEndpoint i) region (mi_SourceBucket i)
       (mi_AccessKeyID i) secretEnc (b_ID dest) "" 0 0 "" "" 0))) in
  do! audit s ctx "migration.start" "bucket" (b_ID dest)
        (Some [("source", JStr (mi_SourceBucket i))]) in
  do! fx (FxRunMigration id) in
  ret (mkMigrationJobDTO id (mi_SourceBucket i) (b_ID dest) "pending" 0 0 "").

Definition GetMigration ctx (id : str) : Svc MigrationJobDTO :=
  let! j := mapErr mapRepoErr (db (Store.GetMigrationJob (tc_OrgID (tenant s ctx)) id)) in
  ret (migrationDTO j).

Definition ListMigrations ctx : Svc (list MigrationJobDTO) :=
  let! rows := mapErr mapRepoErr (db (Store.ListMigrationJobs (tc_OrgID (tenant s ctx)))) in
  ret (map migrationDTO rows).

(** The error of the last statement is returned as it is; its text is what the
    handler shows. *)
Definition CancelMigration ctx (id : str) : Svc unit :=
  do! Tenants.scimTokenActor ctx in
  let! _ := mapErr mapRepoErr (db (Store.GetMigrationJob (tc_OrgID (tenant s ctx)) id)) in
  mapErr mapRepoErr (db (Store.SetMigrationStatus id "canceled" "")).

Definition ResumeMigrations : Svc unit :=
  let! ids := attempt (db Store.ListResumableMigrationJobIDs) in
  match ids with
  | inl _ => ret tt
  | inr l => forM_ l (fun id => fx (FxRunMigration id))
  end.

(** ** The worker *)

(** What the worker holds while it runs: the source client, the destination's
    provider and bucket, and the context scoped to the job's tenant. *)
Record Worker := mkWorker {
  wk_ID : str; wk_SourceBucket : str; wk_Src : Client.t; wk_Dest : StorageProvider B;
  wk_Alias : str; wk_DestID : str; wk_Ctx : Ctx }.

(** The object is spooled through a temporary file; the file system is not
    modelled.  [n] is the number of bytes read. *)
Definition copyOneObject (k : Worker) (o : Object) : M (World B) StErr unit :=
  let! got := be (Client.GetObject (wk_Src k) None (wk_SourceBucket k) (obj_Key o)) in
  let body := fst got in
  let n := Z.of_nat (String.length body) in
  do! be (sp_PutObject (wk_Dest k) None (wk_Alias k) (obj_Key o) body n "") in
  let! h := attempt (be (sp_HeadObject (wk_Dest k) (wk_Alias k) (obj_Key o))) in
  match h with
  | inr h => if (0 <? n)%Z && negb (obj_Size h =? n)%Z
             then throw (OtherErr ("size mismatch after copy: got " ++ Itoa (obj_Size h)
                                     ++ " want " ++ Itoa n))
             else ret tt
  | inl _ => ret tt
  end.

(** The inner loop over a page: the error carries the key it stopped at. *)
Definition copyPage (k : Worker) (p : Progress) (l : list Object)
    : M (World B) (str * StErr) (Z * Z) :=
  foldM (fun acc o =>
    if obj_IsPrefix o then ret acc
    else
      do! mapErr (pair (obj_Key o)) (copyOneObject k o) in
      do! fx (FxMeter EventObjectUploaded (tc_OrgID (tenant s (wk_Ctx k))) (wk_DestID k)
                (obj_Size o)) in
      ret (add64 (fst acc) 1, add64 (snd acc) (obj_Size o)))
    (pr_Objects p, pr_Bytes p) l.

Definition stop (k : Worker) (status msg : str) (o : Outcome) : Svc WState :=
  do! ignore (db (Store.SetMigrationStatus (wk_ID k) status msg)) in ret (Done o).

Definition is_canceled (r : DBErr + MigrationJob) : bool :=
  match r with inr cur => mj_Status cur =s "canceled" | inl _ => false end.

Definition workerCheck (k : Worker) (p : Progress) : Svc WState :=
  let! cur := attempt (db (Store.GetMigrationJobByID (wk_ID k))) in
  ret (if is_canceled cur then Done Canceled else Body p).

Definition workerBody (k : Worker) (p : Progress) : Svc WState :=
  let! page := attempt (be (Client.ListObjects (wk_Src k) (wk_SourceBucket k)
                              (mkListObjectsInput "" "" (pr_Cursor p) 1000))) in
  match page with
  | inl e => stop k "failed" ("list source: " ++ st_error e) Failed
  | inr page =>
      let! copied := attempt (copyPage k p (lor_Objects page)) in
      match copied with
      | inl (key, e) =>
          stop k "failed" ("copy " ++ quote key ++ ": " ++ st_error e) Failed
      | inr (objects, bytes) =>
          let cursor := lor_NextContinuationToken page in
          do! ignore (db (Store.UpdateMigrationProgress (wk_ID k) cursor objects bytes)) in
          if negb (lor_IsTruncated page) || (cursor =s "")
          then stop k "completed" "" Completed
          else ret (Check (mkProgress cursor objects bytes))
      end
  end.

Definition workerStep (k : Worker) (st : WState) : Svc WState :=
  match st with
  | Check p => workerCheck k p
  | Body p => workerBody k p
  | Done _ => ret st
  end.

(** [fuel] bounds the steps: two for each page of the source's listing. *)
Fixpoint runWorker (fuel : nat) (k : Worker) (st : WState) : Svc WState :=
  match st, fuel with
  | Done _, _ | _, 0 => ret st
  | _, S fuel' => let! st' := workerStep k st in runWorker fuel' k st'
  end.

Definition loadBucketUnscoped (id : str) : Svc Bucket :=
  mapErr mapRepoErr (db (Store.GetBucket id)).

(** Everything before the loop: the worker and where it starts, or how it ended. *)
Definition prepare (id : str) : Svc (Outcome + (Worker * Progress)) :=
  let fail msg := do! ignore (db (Store.SetMigrationStatus id "failed" msg)) in ret (inl Failed) in
  let! rj := attempt (db (Store.GetMigrationJobByID id)) in
  match rj with
  | inl _ => ret (inl Gone)
  | inr j =>
      if (mj_Status j =s "completed") || (mj_Status j =s "canceled") then ret (inl Finished)
      else
        match s_SealerOpen s (mj_SourceSecretEnc j) with
        | inl _ => fail "cannot decrypt source secret"
        | inr secret =>
            let src := Client.New (mj_SourceEndpoint j) (mj_SourceEndpoint j) (mj_SourceRegion j)
                         (mj_SourceAccessKey j) secret in
            let! rd := attempt (loadBucketUnscoped (mj_DestBucketID j)) in
            match rd with
            | inl _ => fail "dest bucket unavailable"
            | inr dest =>
                let! rp := attempt (providerForBucket s dest) in
                match rp with
                | inl _ => fail "dest cluster unreachable"
                | inr prov =>
                    ret (inr (mkWorker id (mj_SourceBucket j) src prov (b_GarageGlobalAlias dest)
                                (b_ID dest)
                                (mkCtx None (Some (mkTenantContext (mj_OrgID j) (b_ProjectID dest)
                                                     (b_ClusterID dest))) None),
                              mkProgress (mj_Cursor j) (mj_CopiedObjects j) (mj_CopiedBytes j)))
                end
            end
        end
  end.

Definition runMigration (fuel : nat) (id : str) : Svc WState :=
  let! r := prepare id in
  match r with
  | inl o => ret (Done o)
  | inr (k, p) => runWorker fuel k (Check p)
  end.

End Migrations.
End Migrations.
