(* ===== verification/Webhooks.v ===== *)
(** src/internal/service/webhooks.go: object event subscriptions of a bucket, which
    of them an event goes to, and the signed requests a delivery makes. *)
From Stdlib Require Import Ascii.
From S2P Require Import Prelude GoStrings Encoding Hashes GoTime Json JsonText Storage Database Repository Service.
#[local] Open Scope string_scope.

Module Webhooks.

Definition event_name (e : ObjectEvent) : str :=
  match e with
  | EventObjectCreated => "object.created"
  | EventObjectDeleted => "object.deleted"
  end.

Definition validWebhookEvents (e : str) : bool :=
  (e =s event_name EventObjectCreated) || (e =s event_name EventObjectDeleted).

Record WebhookDTO := mkWebhookDTO {
  wd_ID : str; wd_URL : str; wd_Events : list str; wd_Enabled : bool; wd_HasSecret : bool;
  wd_CreatedAt : Z }.

Definition splitEvents (csv : str) : list str := if csv =s "" then [] else Split csv ",".

Definition eventMatches (csv event : str) : bool :=
  exists_ (fun e => e =s event) (Split csv ",").

Section Webhooks.
Context {ENV : Env} {B : Type} (s : Services B).
#[local] Abbreviation Svc := (@Service.Svc B).
Implicit Types (ctx : Ctx) (bucketID : str).

Definition webhookToDTO (w : WebhookSub) : WebhookDTO :=
  mkWebhookDTO (wh_ID w) (wh_URL w) (splitEvents (wh_Events w)) (wh_Enabled w)
    (negb (wh_Secret w =s "")) (wh_CreatedAt w).

Definition ListWebhooks ctx bucketID : Svc (list WebhookDTO) :=
  let! _ := bucketProvider s ctx bucketID in
  let! rows := mapErr mapRepoErr (db (Store.ListWebhooksByBucket bucketID)) in
  ret (map webhookToDTO rows).

(** The loop over the requested events: the first unknown one is the error. *)
Fixpoint checkEvents (events : list str) : Svc unit :=
  match events with
  | [] => ret tt
  | e :: rest =>
      if validWebhookEvents e then checkEvents rest
      else throw (validationErr ("unknown event: " ++ e))
  end.

Definition CreateWebhook ctx bucketID (url : str) (events : list str) (secret : str)
    : Svc WebhookDTO :=
  do! authorize s ctx ActionUpdate (mkTarget ResourceBucket "") in
  let! _ := bucketProvider s ctx bucketID in
  let url := TrimSpace url in
  reject! negb (HasPrefix url "http://") && negb (HasPrefix url "https://")
    with validationErr "url must be an http(s) URL" in
  do! checkEvents events in
  reject! (length events =? 0)%nat with validationErr "select at least one event" in
  let! w := mapErr mapRepoErr (db (Store.CreateWebhook (tc_OrgID (tenant s ctx)) bucketID url secret
                                     (Join events ","))) in
  do! audit s ctx "webhook.create" "bucket" bucketID
        (Some [("url", JStr url); ("events", JStrs events)]) in
  ret (mkWebhookDTO (wh_ID w) (wh_URL w) events (wh_Enabled w) (negb (wh_Secret w =s ""))
         (wh_CreatedAt w)).

Definition DeleteWebhook ctx bucketID (id : str) : Svc unit :=
  do! authorize s ctx ActionUpdate (mkTarget ResourceBucket "") in
  do! mapErr mapRepoErr (db (Store.DeleteWebhook id (tc_OrgID (tenant s ctx)))) in
  audit s ctx "webhook.delete" "bucket" bucketID (Some [("id", JStr id)]).

(** ** Delivery *)

(** The JSON body; a time outside the years 0 to 9999 cannot be written. *)
Definition webhookPayload (event bucketID key : str) (t : Z) : Json.JV :=
  Json.JObj [("event", Json.JStr event); ("bucket_id", Json.JStr bucketID); ("key", Json.JStr key);
             ("time", Json.JStr (Time.RFC3339Nano t))].
Definition year_ok (t : Z) : bool :=
  let '(y, _, _) := Time.civil (t / Time.day_ns) in ((0 <=? y) && (y <? 10 ^ 4))%Z.
Definition webhook_body (event bucketID key : str) (t : Z) : option str :=
  if year_ok t then Some (JsonText.print (webhookPayload event bucketID key t)) else None.

(** Every attempt sends the same request. *)
Record HookRequest := mkHookRequest {
  hr_Method : str; hr_URL : str; hr_Headers : list (str * str); hr_Body : str }.
Definition signature (secret body : str) : str :=
  if secret =s "" then "" else "sha256=" ++ Encoding.encode_hex (hmac_sha256 secret body).
Definition hook_request (url secret event body : str) : HookRequest :=
  let sig := signature secret body in
  mkHookRequest "POST" url
    ([("Content-Type", "application/json"); ("User-Agent", "buktio-webhook"); ("X-Buktio-Event", event)]
     ++ (if sig =s "" then [] else [("X-Buktio-Signature", sig)]))%list
    body.

(** What a delivery does: it posts, waits (nanoseconds) and complains. *)
Inductive Act := Post (r : HookRequest) | Sleep (ns : Z) | Warn (url event : str).

(** [valid_url]: [http.NewRequest] accepts the URL.  [answer url n]: the status the
    receiver gives to the n-th attempt, [None] when there is no answer in time. *)
Context (valid_url : str -> bool) (answer : str -> nat -> option Z).
Definition accepted (a : option Z) : bool := match a with Some status => (status <? 300)%Z | None => false end.

(** The loop: [left] attempts are left, [n] were made. *)
Fixpoint attempts (left n : nat) (backoff : Z) (url secret event body : str) : list Act :=
  match left with
  | O => [Warn url event]
  | S left' =>
      if negb (valid_url url) then []
      else
        Post (hook_request url secret event body) ::
        (if accepted (answer url n) then []
         else (match left' with O => [] | S _ => [Sleep backoff] end)
              ++ attempts left' (S n) (backoff * 3) url secret event body)%list
  end.
Definition deliverWebhook (url secret event body : str) : list Act :=
  attempts 3 0 Time.second_ns url secret event body.

(** The goroutine of [fireWebhook]: what each of the deliveries it starts does; they
    run beside each other. *)
Definition dispatch (bucketID : str) (ev : ObjectEvent) (key : str) : M (World B) Error (list (list Act)) :=
  let! r := attempt (db (Store.ListEnabledWebhooksByBucket bucketID)) in
  match r with
  | inl _ | inr [] => ret []
  | inr subs =>
      let! t := now in
      match webhook_body (event_name ev) bucketID key t with
      | None => ret []
      | Some body =>
          ret (map (fun w => deliverWebhook (wh_URL w) (wh_Secret w) (event_name ev) body)
                 (where_ (fun w => eventMatches (wh_Events w) (event_name ev)) subs))
      end
  end.

End Webhooks.
End Webhooks.
