(* ===== verification/Replications.v ===== *)
(** src/internal/service/replication.go: copying one bucket into another, possibly
    on another backend.

    As in Migrations.v the worker is a machine: [Check] is the top of its loop,
    [Body] one page of the source's listing; objects the destination already holds
    with the same size are skipped. *)
From S2P Require Import Prelude GoStrings Storage Database Repository JobStore AuditLog Service Migrations.
#[local] Open Scope string_scope.

Module Replications.

Record ReplicationJobDTO := mkReplicationJobDTO {
  rd_ID : str; rd_SrcBucketID : str; rd_DstBucketID : str; rd_Status : str;
  rd_CopiedObjects : Z; rd_SkippedObjects : Z; rd_CopiedBytes : Z; rd_Error : str;
  rd_CreatedAt : Z; rd_UpdatedAt : Z }.

Definition replicationDTO (j : ReplicationJob) : ReplicationJobDTO :=
  mkReplicationJobDTO (rj_ID j) (rj_SrcBucketID j) (rj_DstBucketID j) (rj_Status j)
    (rj_CopiedObjects j) (rj_SkippedObjects j) (rj_CopiedBytes j) (rj_Error j)
    (rj_CreatedAt j) (rj_UpdatedAt j).

(** The loop variables [cursor], [copied], [skipped], [copiedBytes]. *)
Record Progress := mkProgress {
  pr_Cursor : str; pr_Copied : Z; pr_Skipped : Z; pr_Bytes : Z }.

Inductive WState := Check (p : Progress) | Body (p : Progress) | Done (o : Migrations.Outcome).

Section Replications.
Context {ENV : Env} {B : Type} (s : Services B).
(** [strconv.Quote], for the error text of a failed copy *)
Variable quote : str -> str.
#[local] Abbreviation Svc := (@Service.Svc B).
Implicit Types (ctx : Ctx).

(** ** Requests *)

Definition StartReplication ctx (srcBucketID dstBucketID : str) : Svc ReplicationJobDTO :=
  do! authorize s ctx ActionUpdate (mkTarget ResourceBucket "") in
  reject! (srcBucketID =s "") || (dstBucketID =s "") || (srcBucketID =s dstBucketID)
    with validationErr "distinct source and destination buckets are required" in
  let! _ := bucketProvider s ctx srcBucketID in
  let! _ := bucketProvider s ctx dstBucketID in
  let! id := mapErr mapRepoErr (db (JobStore.CreateReplicationJob (tc_OrgID (tenant s ctx))
                                      srcBucketID dstBucketID)) in
  do! audit s ctx "replication.start" "bucket" srcBucketID
        (Some [("dst", JStr dstBucketID); ("job", JStr id)]) in
  do! fx (FxRunReplication id) in
  let! j := mapErr mapRepoErr (db (JobStore.GetReplicationJobByID id)) in
  ret (replicationDTO j).

Definition ListReplications ctx (srcBucketID : str) : Svc (list ReplicationJobDTO) :=
  let! _ := bucketProvider s ctx srcBucketID in
  let! rows := mapErr mapRepoErr (db (JobStore.ListReplicationJobsBySrc srcBucketID)) in
  ret (map replicationDTO rows).

Definition ResumeReplications : Svc unit :=
  let! ids := attempt (db JobStore.ListResumableReplicationJobIDs) in
  match ids with
  | inl _ => ret tt
  | inr l => forM_ l (fun id => fx (FxRunReplication id))
  end.

(** ** The worker *)

Record Worker := mkWorker {
  wk_ID : str; wk_Src : StorageProvider B; wk_Dst : StorageProvider B; wk_SrcAlias : str;
  wk_DstAlias : str; wk_DstID : str; wk_Ctx : Ctx }.

(** The object is spooled through a temporary file, which is not modelled; [n] is
    the number of bytes read. *)
Definition copyOneObjectProv (srcProv dstProv : StorageProvider B) (srcAlias dstAlias : str)
    (o : Object) : M (World B) StErr unit :=
  let! got := be (sp_GetObject srcProv None srcAlias (obj_Key o)) in
  let body := fst got in
  let n := Z.of_nat (String.length body) in
  do! be (sp_PutObject dstProv None dstAlias (obj_Key o) body n "") in
  let! h := attempt (be (sp_HeadObject dstProv dstAlias (obj_Key o))) in
  match h with
  | inr h => if (0 <? n)%Z && negb (obj_Size h =? n)%Z
             then throw (OtherErr ("size mismatch after copy: got " ++ Itoa (obj_Size h)
                                     ++ " want " ++ Itoa n))
             else ret tt
  | inl _ => ret tt
  end.

(** Does the destination already hold the object with the same size? *)
Definition present (k : Worker) (o : Object) : M (World B) (str * StErr) bool :=
  let! h := attempt (be (sp_HeadObject (wk_Dst k) (wk_DstAlias k) (obj_Key o))) in
  ret (match h with inr h => (obj_Size h =? obj_Size o)%Z | inl _ => false end).

(** The inner loop over a page: the error carries the key it stopped at. *)
Definition copyObject (k : Worker) (p : Progress) (o : Object)
    : M (World B) (str * StErr) Progress :=
  if obj_IsPrefix o then ret p
  else
    let! same := present k o in
    if same
    then ret (mkProgress (pr_Cursor p) (pr_Copied p) (add64 (pr_Skipped p) 1) (pr_Bytes p))
    else
      do! mapErr (pair (obj_Key o))
            (copyOneObjectProv (wk_Src k) (wk_Dst k) (wk_SrcAlias k) (wk_DstAlias k) o) in
      do! fx (FxMeter EventObjectUploaded (tc_OrgID (tenant s (wk_Ctx k))) (wk_DstID k)
                (obj_Size o)) in
      ret (mkProgress (pr_Cursor p) (add64 (pr_Copied p) 1) (pr_Skipped p)
             (add64 (pr_Bytes p) (obj_Size o))).

Definition copyPage (k : Worker) : Progress -> list Object -> M (World B) (str * StErr) Progress :=
  foldM (copyObject k).

Definition stop (k : Worker) (status msg : str) (o : Migrations.Outcome) : Svc WState :=
  do! ignore (db (JobStore.SetReplicationStatus (wk_ID k) status msg)) in ret (Done o).

Definition is_canceled (r : DBErr + ReplicationJob) : bool :=
  match r with inr cur => rj_Status cur =s "canceled" | inl _ => false end.

Definition workerCheck (k : Worker) (p : Progress) : Svc WState :=
  let! cur := attempt (db (JobStore.GetReplicationJobByID (wk_ID k))) in
  ret (if is_canceled cur then Done Migrations.Canceled else Body p).

Definition workerBody (k : Worker) (p : Progress) : Svc WState :=
  let! page := attempt (be (sp_ListObjects (wk_Src k) (wk_SrcAlias k)
                              (mkListObjectsInput "" "" (pr_Cursor p) 1000))) in
  match page with
  | inl e => stop k "failed" ("list source: " ++ st_error e) Migrations.Failed
  | inr page =>
      let! copied := attempt (copyPage k p (lor_Objects page)) in
      match copied with
      | inl (key, e) =>
          stop k "failed" ("copy " ++ quote key ++ ": " ++ st_error e) Migrations.Failed
      | inr p' =>
          let cursor := lor_NextContinuationToken page in
          do! ignore (db (JobStore.UpdateReplicationProgress (wk_ID k) cursor (pr_Copied p')
                            (pr_Skipped p') (pr_Bytes p'))) in
          if negb (lor_IsTruncated page) || (cursor =s "")
          then stop k "completed" "" Migrations.Completed
          else ret (Check (mkProgress cursor (pr_Copied p') (pr_Skipped p') (pr_Bytes p')))
      end
  end.

Definition workerStep (k : Worker) (st : WState) : Svc WState :=
  match st with
  | Check p => workerCheck k p
  | Body p => workerBody k p
  | Done _ => ret st
  end.

(** [fuel] bounds the steps: two for each page of the source's listing. *)
Fixpoint runWorker (fuel : nat) (k : Worker) (st : WState) : Svc WState :=
  match st, fuel with
  | Done _, _ | _, 0 => ret st
  | _, S fuel' => let! st' := workerStep k st in runWorker fuel' k st'
  end.

(** Everything before the loop: the worker and where it starts, or how it ended. *)
Definition prepare (id : str) : Svc (Migrations.Outcome + (Worker * Progress)) :=
  let fail msg := do! ignore (db (JobStore.SetReplicationStatus id "failed" msg)) in
                  ret (inl Migrations.Failed) in
  let! rj := attempt (db (JobStore.GetReplicationJobByID id)) in
  match rj with
  | inl _ => ret (inl Migrations.Gone)
  | inr j =>
      if (rj_Status j =s "completed") || (rj_Status j =s "canceled")
      then ret (inl Migrations.Finished)
      else
        let! rs := attempt (Migrations.loadBucketUnscoped (rj_SrcBucketID j)) in
        match rs with
        | inl _ => fail "source bucket unavailable"
        | inr srcB =>
            let! rd := attempt (Migrations.loadBucketUnscoped (rj_DstBucketID j)) in
            match rd with
            | inl _ => fail "destination bucket unavailable"
            | inr dstB =>
                let! sp := attempt (providerForBucket s srcB) in
                match sp with
                | inl _ => fail "source cluster unreachable"
                | inr srcProv =>
                    let! dp := attempt (providerForBucket s dstB) in
                    match dp with
                    | inl _ => fail "destination cluster unreachable"
                    | inr dstProv =>
                        ret (inr (mkWorker id srcProv dstProv (b_GarageGlobalAlias srcB)
                                    (b_GarageGlobalAlias dstB) (b_ID dstB)
                                    (mkCtx None (Some (mkTenantContext (rj_OrgID j)
                                       (b_ProjectID dstB) (b_ClusterID dstB))) None),
                                  mkProgress (rj_Cursor j) (rj_CopiedObjects j)
                                    (rj_SkippedObjects j) (rj_CopiedBytes j)))
                    end
                end
            end
        end
  end.

Definition runReplication (fuel : nat) (id : str) : Svc WState :=
  let! r := prepare id in
  match r with
  | inl o => ret (Done o)
  | inr (k, p) => runWorker fuel k (Check p)
  end.

End Replications.
End Replications.
