(* ===== verification/Isolation.v ===== *)
(** Tenant isolation of the by-id bucket operations.

    [loadBucket] of guard.go is the choke point the by-id operations pass
    before they touch a backend or a table.  [BucketOp] lists the operations of the
    services that take the id of a bucket and pass it; the theorems say that none of
    them can see or change a bucket of another project.

    Not in the list are the calls that do not pass [loadBucket] with the id:
    [ListTrash] and [Snippets], which read a foreign bucket's rows (ObjectProofs.v and
    ReportProofs.v), [DeleteWebhook], which deletes by the webhook's own id within the
    organization, and [CreateAccessKey], which has created the key before it refuses a
    grant on a foreign bucket.  The destination of a replication is loaded after the
    source, whose provider may have been cached by then; it is refused too. *)
From S2P Require Import Prelude GoStrings Storage S3core MemStore S3Laws Database Repository Service Frames Example Buckets Objects Tenants Migrations Webhooks Replications.
#[local] Open Scope string_scope.

(** * The by-id operations *)

Inductive BucketOp :=
  | OpGetBucket | OpDeleteBucket | OpSetQuota (q : QuotaDTO)
  | OpSetVisibility (public : bool) (index errorDoc : str)
  | OpListObjects (prefix delimiter cursor : str) (maxKeys : Z)
  | OpDeleteObjects (keys : list str) (permanent : bool)
  | OpHeadObject (key : str) | OpCopyObject (src dst : str) | OpMoveObject (src dst : str)
  | OpPutObject (key body : str) (size : Z) (contentType ssec : str)
  | OpGetObject (key ssec : str)
  | OpPresign (key method contentType : str) (expires : Z)
  | OpRestoreObject (trashID : str) | OpPurgeObject (trashID : str)
  | OpGetCORS | OpSetCORS (rules : list CORSRule) | OpDeleteCORS
  | OpGetLifecycle | OpSetLifecycle (rules : list LifecycleRule) | OpDeleteLifecycle
  | OpGetVersioning | OpSetVersioning (enabled : bool) | OpListVersions (prefix : str)
  | OpDeleteVersion (key versionID : str) | OpRestoreVersion (key versionID : str)
  | OpGrantKey (keyID garageKeyID : str) (read write owner : bool)
  | OpGrantBucket (keyID : str) (read write owner : bool)
  | OpRevokeKey (keyID : str)
  | OpListWebhooks | OpCreateWebhook (url : str) (events : list str) (secret : str)
  | OpListReplications | OpStartReplication (dst : str)
  | OpStartMigration (endpoint region bucket accessKey secretKey : str).

Definition discard {S E A} (m : M S E A) : M S E unit := let! _ := m in ret tt.

Section Ops.
Context {ENV : Env} {B : Type} `{!S3Service B} (s : Services B).

Definition run_op (ctx : Ctx) (id : str) (op : BucketOp) : M (World B) Error unit :=
  match op with
  | OpGetBucket => discard (Buckets.GetBucket s ctx id)
  | OpDeleteBucket => Buckets.DeleteBucket s ctx id
  | OpSetQuota q => discard (Buckets.SetQuota s ctx id q)
  | OpSetVisibility p i e => discard (Buckets.SetVisibility s ctx id p i e)
  | OpListObjects p d c m => discard (Objects.ListObjects s ctx id p d c m)
  | OpDeleteObjects ks p => Objects.DeleteObjects s ctx id ks p
  | OpHeadObject k => discard (Objects.HeadObject s ctx id k)
  | OpCopyObject a b => Objects.CopyObject s ctx id a b
  | OpMoveObject a b => Objects.MoveObject s ctx id a b
  | OpPutObject k b n ct se => Objects.PutObjectStream s ctx id k b n ct se
  | OpGetObject k se => discard (Objects.GetObjectStream s ctx id k se)
  | OpPresign k m ct e => discard (Objects.PresignObject s ctx id k m ct e)
  | OpRestoreObject t => Objects.RestoreObject s ctx id t
  | OpPurgeObject t => Objects.PurgeObject s ctx id t
  | OpGetCORS => discard (Objects.GetBucketCORS s ctx id)
  | OpSetCORS rs => Objects.SetBucketCORS s ctx id rs
  | OpDeleteCORS => Objects.DeleteBucketCORS s ctx id
  | OpGetLifecycle => discard (Objects.GetBucketLifecycle s ctx id)
  | OpSetLifecycle rs => Objects.SetBucketLifecycle s ctx id rs
  | OpDeleteLifecycle => Objects.DeleteBucketLifecycle s ctx id
  | OpGetVersioning => discard (Objects.GetBucketVersioning s ctx id)
  | OpSetVersioning b => Objects.SetBucketVersioning s ctx id b
  | OpListVersions p => discard (Objects.ListObjectVersions s ctx id p)
  | OpDeleteVersion k v => Objects.DeleteObjectVersion s ctx id k v
  | OpRestoreVersion k v => Objects.RestoreObjectVersion s ctx id k v
  | OpGrantKey k g r w o => Buckets.grant s ctx k g (Buckets.mkGrantInput id r w o)
  | OpGrantBucket k r w o => Buckets.GrantBucket s ctx k (Buckets.mkGrantInput id r w o)
  | OpRevokeKey k => Buckets.RevokeBucket s ctx k id
  | OpListWebhooks => discard (Webhooks.ListWebhooks s ctx id)
  | OpCreateWebhook u es se => discard (Webhooks.CreateWebhook s ctx id u es se)
  | OpListReplications => discard (Replications.ListReplications s ctx id)
  | OpStartReplication dst => discard (Replications.StartReplication s ctx id dst)
  | OpStartMigration e r b a k => discard (Migrations.StartMigration s ctx
      (Migrations.mkMigrationInput e r b a k id))
  end.

(** The id names no live bucket of the caller's project: it is another tenant's
    bucket, or there is none. *)
Definition foreign (ctx : Ctx) (id : str) (d : DB) : Prop :=
  match Store.bucket_row id d with
  | Some b => b_ProjectID b <> tc_ProjectID (tenant s ctx)
  | None => True
  end.

(** From a foreign id, [m] fails and leaves no trace. *)
Definition Refused (ctx : Ctx) (id : str) {A} (m : M (World B) Error A) : Prop :=
  forall w r w', foreign ctx id (w_db w) -> m w = (r, w') ->
    quiet w w' /\ exists e, r = inl e.

(** Nothing but the statement counter and the cache of providers differs. *)
Definition calm : World B -> World B -> Prop :=
  same (fun w => (tables (w_db w), w_be w, w_rand w, w_fx w)).
#[export] Instance calm_preorder : PreOrder calm.
Proof. apply same_preorder. Qed.
Lemma quiet_calm w w' : quiet w w' -> calm w w'.
Proof. intros H. exact (f_equal (fun '(t, b, _, r, e) => (t, b, r, e)) H). Qed.
Lemma calm_bucketProvider ctx id : Guar calm (bucketProvider s ctx id).
Proof.
  unfold bucketProvider, providerForBucket, providerFor, Registry.Provider. guar.
  - intros w r w' H. by eapply quiet_calm, quiet_loadBucket.
  - intros w r w' H. eapply quiet_calm, (quiet_db (Store.GetClusterByID _)); [|exact H].
    unfold Store.GetClusterByID. guar; apply reads_query_row.
  - intros w r w' H. unfold modify in H. by simplify_eq.
Qed.

Lemma foreign_quiet ctx id (w w' : World B) :
  quiet w w' -> foreign ctx id (w_db w) -> foreign ctx id (w_db w').
Proof.
  intros H. unfold foreign. by rewrite (bucket_row_tables id _ _ (quiet_tables _ _ H)).
Qed.

Lemma refused_first ctx id {A A'} (m : M (World B) Error A) (k : A -> M (World B) Error A') :
  Refused ctx id m -> Refused ctx id (bind m k).
Proof.
  intros Hm w r w' Hf Hr. rewrite bind_run in Hr.
  destruct (m w) as [[e|a] w1] eqn:E; destruct (Hm _ _ _ Hf E) as [Hq [e' He]]; simplify_eq.
  eauto.
Qed.
Lemma refused_later ctx id {A A'} (m : M (World B) Error A) (k : A -> M (World B) Error A') :
  Guar quiet m -> (forall a, Refused ctx id (k a)) -> Refused ctx id (bind m k).
Proof.
  intros Hm Hk w r w' Hf Hr. rewrite bind_run in Hr.
  destruct (m w) as [[e|a] w1] eqn:E; simplify_eq.
  - split; [by eapply Hm|eauto].
  - destruct (Hk a w1 r w') as [Hq He]; [by eapply foreign_quiet; [eapply Hm|]|done|].
    split; [|done]. etrans; [by eapply Hm|done].
Qed.

Lemma refused_discard ctx id {A} (m : M (World B) Error A) :
  Refused ctx id (discard m) -> Refused ctx id m.
Proof.
  intros Hm w r w' Hf Hr. unfold Refused, discard in Hm. specialize (Hm w).
  rewrite bind_run, Hr in Hm. destruct r as [e|a]; [by destruct (Hm _ _ Hf eq_refl) as [? _]; eauto|].
  by destruct (Hm _ _ Hf eq_refl) as [_ [e [=]]].
Qed.
Lemma refused_loadBucket ctx id : Refused ctx id (loadBucket s ctx id).
Proof.
  intros w r w' Hf Hr. split; [by eapply quiet_loadBucket|].
  destruct r as [e|b]; [eauto|exfalso]. unfold loadBucket in Hr. run_simpl.
  apply db_inv in H as (d & Hq & ->). apply query_row_inr in Hq as [-> Hb].
  change (Store.bucket_row id (w_db w) = Some b) in Hb.
  unfold foreign in Hf. rewrite Hb in Hf. apply eqb_false_str in Hf. by rewrite Hf in H0.
Qed.
Lemma refused_bucketProvider ctx id : Refused ctx id (bucketProvider s ctx id).
Proof. apply refused_first, refused_loadBucket. Qed.
Lemma refused_resolveAlias ctx id : Refused ctx id (Objects.resolveAlias s ctx id).
Proof. apply refused_first, refused_loadBucket. Qed.
End Ops.

(** Walks down an operation to the point where it loads the bucket. *)
Ltac refused :=
  unfold discard;
  repeat first
    [ apply refused_loadBucket | apply refused_bucketProvider | apply refused_resolveAlias
    | apply refused_later; [apply quiet_authorize|intros ?]
    | apply refused_later; [apply quiet_loadKey|intros ?]
    | apply refused_later;
        [solve [unfold Store.GetTrash; quiet; apply quiet_quotaGuard]|intros ?]
    | apply refused_first ].

Section Claims.
Context {ENV : Env} {B : Type} `{!S3Service B} (s : Services B).

Lemma run_op_refused ctx id op : Refused s ctx id (run_op s ctx id op).
Proof.
  destruct op; cbn [run_op];
    unfold Buckets.GetBucket, Buckets.DeleteBucket, Buckets.SetQuota, Buckets.SetVisibility,
      Buckets.GrantBucket, Buckets.grant, Buckets.RevokeBucket, Objects.ListObjects, Objects.DeleteObjects,
      Objects.HeadObject, Objects.CopyObject, Objects.MoveObject, Objects.PutObjectStream,
      Objects.GetObjectStream, Objects.PresignObject, Objects.RestoreObject,
      Objects.PurgeObject, Objects.GetBucketCORS, Objects.SetBucketCORS,
      Objects.DeleteBucketCORS, Objects.GetBucketLifecycle, Objects.SetBucketLifecycle,
      Objects.DeleteBucketLifecycle, Objects.GetBucketVersioning,
      Objects.SetBucketVersioning, Objects.ListObjectVersions, Objects.DeleteObjectVersion,
      Objects.RestoreObjectVersion, Webhooks.ListWebhooks, Webhooks.CreateWebhook,
      Replications.ListReplications, Replications.StartReplication, Migrations.StartMigration,
      Tenants.scimTokenActor; refused.
Qed.

Lemma foreign_destination_refused ctx src id w r w' :
  foreign s ctx id (w_db w) -> Replications.StartReplication s ctx src id w = (r, w') ->
  calm w w' /\ exists e, r = inl e.
Proof.
  unfold Replications.StartReplication. intros Hf H. rewrite bind_run in H.
  destruct (authorize _ _ _ _ w) as [[e|[]] w1] eqn:E1; [injection H as <- <-|];
    apply (quiet_authorize s) in E1 as Hq1; [split; [by apply quiet_calm|eauto]|].
  rewrite bind_run in H. destruct (_ || _); cbn in H;
    [injection H as <- <-; split; [by apply quiet_calm|eauto]|].
  rewrite bind_run in H. destruct (bucketProvider s ctx src w1) as [[e|bp] w2] eqn:E2;
    pose proof (calm_bucketProvider s ctx src _ _ _ E2) as Hq2;
    apply quiet_calm in Hq1; [injection H as <- <-; split; [by etrans|eauto]|].
  assert (foreign s ctx id (w_db w2)) as Hf2.
  { unfold foreign in *. erewrite <-(bucket_row_tables id (w_db w)); [done|].
    unfold calm, same in *. apply (f_equal (fun '(t, _, _, _) => t)) in Hq1, Hq2. congruence. }
  apply (refused_first s ctx id _ _ (refused_bucketProvider s ctx id)) in H as [Hq3 He]; [|done].
  split; [|done]. etrans; [done|]. etrans; [done|]. by apply quiet_calm.
Qed.

(** C1: tenant isolation.  For every backend, every authorizer and every pattern
    of database failures, each of the operations of [BucketOp] (reading, changing and
    deleting a bucket, its objects, versions, trash items, CORS and lifecycle rules,
    granting and revoking keys, listing and creating webhooks, listing and starting
    replications from it, starting a migration into it) fails when its bucket id is not
    a live bucket of the caller's project, and it changes nothing: no table, no backend,
    no cache, and no event leaves the process.  So does a replication into such a
    bucket, except that the provider of its source may have been cached.  The calls
    that do not check the id are named at the top of this file. *)
Theorem foreign_bucket_untouched ctx id (w : World B)
    (Hforeign : foreign s ctx id (w_db w)) :
  (forall op r w', run_op s ctx id op w = (r, w') -> quiet w w' /\ exists e, r = inl e) /\
  (forall src r w', Replications.StartReplication s ctx src id w = (r, w') ->
     calm w w' /\ exists e, r = inl e).
Proof.
  split; [intros op r w' H; by eapply run_op_refused|].
  intros src r w' H. by eapply foreign_destination_refused.
Qed.

(** C38: no existence leak.  When the database answers, reading a foreign bucket
    gives the very same answer as reading an id that does not exist. *)
Theorem foreign_bucket_hidden ctx id (w : World B)
    (Hok : env_fault (db_tick (w_db w)) = None)
    (Hforeign : foreign s ctx id (w_db w)) :
  Buckets.GetBucket s ctx id w =
  (inl notFoundErr, set_w_db (set_db_tick (S (db_tick (w_db w))) (w_db w)) w).
Proof.
  unfold Buckets.GetBucket, loadBucket, bind, mapErr, db, zoom, Store.GetBucket, query_row, stmt.
  rewrite Hok. unfold foreign in Hforeign.
  change (Store.bucket_row id (set_db_tick (S (db_tick (w_db w))) (w_db w)))
    with (Store.bucket_row id (w_db w)).
  destruct (Store.bucket_row id (w_db w)) as [b|]; cbn; [|done].
  apply eqb_false_str in Hforeign. by rewrite Hforeign.
Qed.

End Claims.

(** ** Worked examples: alice of org o1 and bucket b2 of org o2 *)

#[local] Instance isolation_s3 : S3Service MemB := mem_endpoint (fun _ => false).

Lemma foreign_bucket_untouched_witness :
  exists r w', @run_op ex_env _ _ ex_services ctx_alice "b2" OpDeleteBucket ex_world = (r, w') /\
    quiet ex_world w' /\ exists e, r = inl e.
Proof.
  eexists _, _. split; [apply surjective_pairing|].
  refine (proj1 (foreign_bucket_untouched (ENV := ex_env) ex_services ctx_alice "b2" ex_world _)
            OpDeleteBucket _ _ (surjective_pairing _)).
  vm_compute. discriminate.
Defined.

Lemma foreign_bucket_hidden_witness :
  @Buckets.GetBucket ex_env _ ex_services ctx_alice "b2" ex_world =
  (inl notFoundErr, set_w_db (set_db_tick 1 ex_db) ex_world).
Proof.
  refine (foreign_bucket_hidden (ENV := ex_env) ex_services ctx_alice "b2" ex_world eq_refl _).
  vm_compute. discriminate.
Defined.
