(* ===== verification/BucketProofs.v ===== *)
(** The bucket table and the backend under the operations of buckets.go: the
    uniqueness invariant that keeps tenants' buckets apart, what a delete and a
    create do, and the storage quota. *)
From S2P Require Import Prelude GoStrings Storage S3core MemStore S3Laws Database Repository JobStore AuditLog Service Frames Example Buckets Objects Tenants Migrations Webhooks Replications Isolation.
#[local] Open Scope string_scope.

(** * The uniqueness invariant *)

Definition project_name (b : Bucket) : str * str := (b_ProjectID b, b_Name b).
Definition backend_id (b : Bucket) : str * str := (b_ClusterID b, b_GarageBucketID b).
Definition backend_alias (b : Bucket) : str * str := (b_ClusterID b, b_GarageGlobalAlias b).

(** Ids are unique; no two live buckets share a name in a project, or a backend
    bucket id or alias on a cluster. *)
Definition buckets_wf (l : list (Live Bucket)) : Prop :=
  NoDup (map b_ID (Store.all_rows l)) /\ NoDup (map project_name (live l)) /\
  NoDup (map backend_id (live l)) /\ NoDup (map backend_alias (live l)).

Section Wf.

Lemma nodup_snoc {A K} (key : A -> K) l x :
  NoDup (map key l) -> (forall y, y ∈ l -> key y <> key x) -> NoDup (map key (l ++ [x])).
Proof.
  intros Hl Hx. rewrite map_app. apply NoDup_app. split; [done|].
  split; [|apply NoDup_singleton].
  intros k (y & -> & Hy)%list_elem_of_fmap Hk. apply list_elem_of_singleton in Hk.
  by eapply Hx.
Qed.
Lemma nodup_where {A K} (key : A -> K) p l : NoDup (map key l) -> NoDup (map key (where_ p l)).
Proof.
  induction l as [|x l IH]; simpl; [done|]. intros [Hx Hl]%NoDup_cons.
  destruct (p x); [|by apply IH]. simpl. apply NoDup_cons. split; [|by apply IH].
  intros (y & Hy & Hin)%list_elem_of_fmap. apply Hx. apply where_elem in Hin as [Hin _].
  apply list_elem_of_fmap. eauto.
Qed.
Lemma map_upd_same {A K} (key : A -> K) (p : A -> bool) (f : A -> A) (l : list A) :
  (forall a, key (f a) = key a) ->
  map key (map (fun a => if p a then f a else a) l) = map key l.
Proof.
  intros H. induction l as [|x l IH]; simpl; [done|]. rewrite IH. f_equal.
  destruct (p x); [apply H|done].
Qed.
Lemma all_rows_upd {A K} (key : A -> K) (p : A -> bool) (f : A -> A) (l : list (Live A)) :
  (forall a, key (f a) = key a) ->
  map key (Store.all_rows (upd_live p f l)) = map key (Store.all_rows l).
Proof.
  intros H. induction l as [|r l IH]; simpl; [done|]. rewrite IH. f_equal.
  destruct (is_live r && p (lv r)); [apply H|done].
Qed.
Lemma all_rows_del {A} now p (l : list (Live A)) : Store.all_rows (del_live now p l) = Store.all_rows l.
Proof.
  induction l as [|r l IH]; simpl; [done|]. rewrite IH. f_equal.
  by destruct (is_live r && p (lv r)).
Qed.

Lemma wf_upd p f l :
  (forall b, b_ID (f b) = b_ID b /\ project_name (f b) = project_name b /\
             backend_id (f b) = backend_id b /\ backend_alias (f b) = backend_alias b) ->
  buckets_wf l -> buckets_wf (upd_live p f l).
Proof.
  intros Hf (H1 & H2 & H3 & H4). unfold buckets_wf. rewrite live_upd.
  rewrite all_rows_upd, !map_upd_same by (intros; apply Hf). done.
Qed.
Lemma wf_del now p l : buckets_wf l -> buckets_wf (del_live now p l).
Proof.
  intros (H1 & H2 & H3 & H4). unfold buckets_wf. rewrite live_del, all_rows_del.
  repeat split; [done|by apply nodup_where..].
Qed.
Lemma pair_absent {A} (k1 k2 : A -> str) l x :
  exists_ (fun r => (k1 r =s k1 x) && (k2 r =s k2 x)) l = false ->
  forall y, y ∈ l -> (k1 y, k2 y) <> (k1 x, k2 x).
Proof.
  intros H y Hy [= E1 E2]. rewrite exists_false in H. specialize (H y Hy). cbn in H.
  by rewrite E1, E2, !eqb_refl_str in H.
Qed.
Lemma wf_add id b row d :
  Store.bucket_ok id b d = true ->
  b_ID row = id -> project_name row = project_name b -> backend_id row = backend_id b ->
  backend_alias row = backend_alias b ->
  buckets_wf (buckets d) -> buckets_wf (add_live row (buckets d)).
Proof.
  intros Hok Hid Hpn Hbi Hba (H1 & H2 & H3 & H4). unfold Store.bucket_ok in Hok. bool_prop.
  unfold buckets_wf. rewrite live_add. unfold add_live, Store.all_rows. rewrite map_app.
  repeat split; apply nodup_snoc; try done.
  - intros y Hy Heq. unfold Store.has_id in *.
    match goal with Hx : exists_ (fun r => b_ID r =s id) _ = false |- _ =>
      rewrite exists_false in Hx; specialize (Hx y Hy) end.
    bool_prop. subst id. by rewrite Heq in *.
  - rewrite Hpn. by apply (pair_absent b_ProjectID b_Name).
  - rewrite Hbi. by apply (pair_absent b_ClusterID b_GarageBucketID).
  - rewrite Hba. by apply (pair_absent b_ClusterID b_GarageGlobalAlias).
Qed.
End Wf.

(** * The operations keep the invariant *)

Section Invariant.
Context {ENV : Env} {B : Type} (s : Services B).

Definition keeps_wf : World B -> World B -> Prop :=
  keeps (fun w => buckets_wf (buckets (w_db w))).
#[global] Instance keeps_wf_preorder : PreOrder keeps_wf.
Proof. apply keeps_preorder. Qed.

Lemma wf_view {E A} (m : M (World B) E A) : Guar (view buckets) m -> Guar keeps_wf m.
Proof.
  intros Hm w r w' Hr. specialize (Hm _ _ _ Hr). unfold view, same in Hm.
  unfold keeps_wf, keeps. by rewrite Hm.
Qed.
Lemma wf_db {A} (m : M DB DBErr A) :
  Guar (keeps (fun d => buckets_wf (buckets d))) m -> Guar keeps_wf (db m).
Proof. intros Hm. apply guar_zoom. intros w r d Hr. apply (Hm _ _ _ Hr). Qed.

Lemma wf_CreateBucket b : Guar keeps_wf (db (Store.CreateBucket b)).
Proof.
  apply wf_db. unfold Store.CreateBucket. guar_step.
  apply guar_insert; [typeclasses eauto|by intros ???|]. intros n d id d' Hok H. simplify_eq/=.
  intros Hwf. by eapply wf_add.
Qed.
Lemma wf_exec_upd pfx p f :
  (forall b, b_ID (f b) = b_ID b /\ project_name (f b) = project_name b /\
             backend_id (f b) = backend_id b /\ backend_alias (f b) = backend_alias b) ->
  Guar keeps_wf (db (mapErr (wrapDB pfx)
    (exec (fun _ d => set_buckets (upd_live p f (buckets d)) d)))).
Proof.
  intros Hf. apply wf_db. guar_step. apply guar_exec; [typeclasses eauto|by intros ???|].
  intros n d Hwf. by apply wf_upd.
Qed.
Lemma wf_UpdateBucketQuota id q o : Guar keeps_wf (db (Store.UpdateBucketQuota id q o)).
Proof. by apply wf_exec_upd. Qed.
Lemma wf_UpdateBucketVisibility id v e i d :
  Guar keeps_wf (db (Store.UpdateBucketVisibility id v e i d)).
Proof. by apply wf_exec_upd. Qed.
Lemma wf_SoftDeleteBucket id : Guar keeps_wf (db (Store.SoftDeleteBucket id)).
Proof.
  apply wf_db. unfold Store.SoftDeleteBucket. guar_step.
  apply guar_exec; [typeclasses eauto|by intros ???|]. intros n d Hwf. by apply wf_del.
Qed.

Lemma view_usage_now {V} (v : DB -> V) `{!Blind v} b : Guar (view v) (Buckets.usage_now s b).
Proof. unfold Buckets.usage_now, Store.LatestUsageForBucket. frames. Qed.
Lemma view_GetBucket {V} (v : DB -> V) `{!Blind v} ctx id :
  Guar (view v) (Buckets.GetBucket s ctx id).
Proof. unfold Buckets.GetBucket. frames. by apply view_usage_now. Qed.
Lemma view_pickCluster {V} (v : DB -> V) `{!Blind v} ctx c :
  Guar (view v) (Buckets.pickCluster s ctx c).
Proof. unfold Buckets.pickCluster. frames. Qed.
Lemma view_provision {V} (v : DB -> V) `{!Blind v} p a q :
  Guar (view v) (Buckets.provision s p a q).
Proof. unfold Buckets.provision. frames. Qed.
Lemma view_resolveAlias {V} (v : DB -> V) `{!Blind v} ctx id :
  Guar (view v) (Objects.resolveAlias s ctx id).
Proof. unfold Objects.resolveAlias. frames. Qed.

(** Statements on other tables. *)
Lemma view_write {A} (m : M DB DBErr A) : Guar (same buckets) m -> Guar (view buckets) (db (B := B) m).
Proof. apply view_db. Qed.
Lemma same_upsertGrant g : Guar (same buckets) (Store.UpsertGrant g).
Proof.
  unfold Store.UpsertGrant. guar_step. apply guar_insert; [typeclasses eauto|done|].
  intros n d a d' _ H. destruct (exists_ _ _); by simplify_eq.
Qed.
Lemma same_DeleteGrant b k : Guar (same buckets) (Store.DeleteGrant b k).
Proof. unfold Store.DeleteGrant. guar_step. by apply guar_exec; [typeclasses eauto|..]. Qed.
Lemma same_InsertTrash t : Guar (same buckets) (Store.InsertTrash t).
Proof.
  unfold Store.InsertTrash. guar_step. apply guar_insert; [typeclasses eauto|done|].
  intros n d a d' _ H. by simplify_eq.
Qed.
Lemma same_MarkRestored i : Guar (same buckets) (Store.MarkRestored i).
Proof. by apply guar_exec; [typeclasses eauto|..]. Qed.
Lemma same_DeleteTrash i : Guar (same buckets) (Store.DeleteTrash i).
Proof. by apply guar_exec; [typeclasses eauto|..]. Qed.
Lemma view_trashObjects ctx b ks : Guar (view buckets) (Objects.trashObjects s ctx b ks).
Proof.
  unfold Objects.trashObjects, Objects.trashOne. frames.
  apply view_write, same_InsertTrash.
Qed.
End Invariant.

Ltac other_writes :=
  first [ apply view_write, same_upsertGrant | apply view_write, same_DeleteGrant
        | apply view_write, same_MarkRestored | apply view_write, same_DeleteTrash
        | apply view_trashObjects | apply view_resolveAlias; typeclasses eauto
        | apply view_GetBucket; typeclasses eauto ].

Ltac binds :=
  repeat match goal with
  | |- Guar _ (bind _ _) => apply guar_bind; [typeclasses eauto| |intros ?]
  end.

(** * Sequences of calls *)

Section Calls.
Context {ENV : Env} {B : Type} `{!S3Service B} (s : Services B).

(** A call of the API: a bucket creation or a by-id operation, each in its own
    request context. *)
Inductive Call :=
  | CallCreate (ctx : Ctx) (name : str) (quota : QuotaDTO) (clusterID : str)
  | CallOp (ctx : Ctx) (id : str) (op : BucketOp).

Definition run_call (c : Call) : M (World B) Error unit :=
  match c with
  | CallCreate ctx name quota cid => discard (Buckets.CreateBucket s ctx name quota cid)
  | CallOp ctx id op => run_op s ctx id op
  end.

(** Requests one after the other; a failed request does not stop the server. *)
Definition run_calls (cs : list Call) : M (World B) Error unit :=
  forM_ cs (fun c => ignore (run_call c)).

Lemma wf_record_bucket (p : StorageProvider B) row : Guar keeps_wf (Buckets.record_bucket p row).
Proof.
  unfold Buckets.record_bucket. apply guar_bind; [typeclasses eauto| |intros r].
  { apply guar_attempt, wf_CreateBucket. }
  apply wf_view. frames.
Qed.
Lemma wf_Create ctx name quota cid : Guar keeps_wf (Buckets.CreateBucket s ctx name quota cid).
Proof.
  unfold Buckets.CreateBucket.
  binds;
    try (apply wf_record_bucket); apply wf_view; unfold Store.GetClusterByID; frames;
    first [ by apply view_pickCluster | by apply view_provision | by apply view_GetBucket ].
Qed.
Lemma wf_Delete ctx id : Guar keeps_wf (Buckets.DeleteBucket s ctx id).
Proof.
  unfold Buckets.DeleteBucket.
  binds;
    try (apply guar_mapErr, wf_SoftDeleteBucket); apply wf_view; frames.
Qed.
Lemma wf_SetQuota ctx id q : Guar keeps_wf (Buckets.SetQuota s ctx id q).
Proof.
  unfold Buckets.SetQuota.
  binds;
    try (apply guar_mapErr, wf_UpdateBucketQuota); apply wf_view; frames.
  by apply view_GetBucket.
Qed.
Lemma wf_SetVisibility ctx id p i e : Guar keeps_wf (Buckets.SetVisibility s ctx id p i e).
Proof.
  unfold Buckets.SetVisibility. destruct p;
  binds;
    try (apply guar_mapErr, wf_UpdateBucketVisibility); apply wf_view; frames;
    by apply view_GetBucket.
Qed.

Lemma view_checkEvents {V} (v : DB -> V) events :
  Guar (view v) (Webhooks.checkEvents (B := B) events).
Proof. induction events as [|e es IH]; cbn; guar. Qed.

Lemma view_seal {V} (v : DB -> V) plain : Guar (view v) (seal s plain).
Proof. intros w r w' H. unfold seal in H. by simplify_eq. Qed.

Lemma wf_run_op ctx id op : Guar keeps_wf (run_op s ctx id op).
Proof.
  destruct op; cbn [run_op]; unfold discard;
    try (apply guar_bind; [typeclasses eauto| |intros; apply guar_ret; typeclasses eauto]);
    try first [apply wf_Delete | apply wf_SetQuota | apply wf_SetVisibility];
    apply wf_view;
    unfold Buckets.GetBucket, Buckets.GrantBucket, Buckets.grant, Buckets.RevokeBucket,
      Webhooks.ListWebhooks, Webhooks.CreateWebhook, Replications.ListReplications,
      Replications.StartReplication, Migrations.StartMigration, Tenants.scimTokenActor,
      Objects.ListObjects,
      Objects.DeleteObjects, Objects.HeadObject, Objects.CopyObject, Objects.MoveObject,
      Objects.PutObjectStream, Objects.GetObjectStream, Objects.PresignObject,
      Objects.RestoreObject, Objects.PurgeObject, Objects.GetBucketCORS,
      Objects.SetBucketCORS, Objects.DeleteBucketCORS, Objects.GetBucketLifecycle,
      Objects.SetBucketLifecycle, Objects.DeleteBucketLifecycle,
      Objects.GetBucketVersioning, Objects.SetBucketVersioning, Objects.ListObjectVersions,
      Objects.DeleteObjectVersion, Objects.RestoreObjectVersion, Store.GetTrash, fireWebhook,
      emit;
    frames; try other_writes; try apply view_checkEvents; try apply view_seal; try by apply view_usage_now.
  all: unfold Store.ListWebhooksByBucket, Store.CreateWebhook, JobStore.ListReplicationJobsBySrc,
    JobStore.CreateReplicationJob, JobStore.GetReplicationJobByID, Store.CreateMigrationJob; elsewhere.
Qed.

Lemma wf_run_call c : Guar keeps_wf (run_call c).
Proof.
  destruct c; cbn [run_call]; [|apply wf_run_op]. unfold discard.
  apply guar_bind; [typeclasses eauto|apply wf_Create|]. intros. apply guar_ret. typeclasses eauto.
Qed.

(** C2: the separation invariant.  Along any sequence of bucket creations and by-id
    operations (those of [BucketOp]), each by any caller, under any pattern of database
    failures and with any backend, bucket ids stay unique, no two live buckets of a
    project share a name, and no two live buckets on the same cluster share a backend
    bucket id or a backend alias: two tenants never own the same backend bucket. *)
Theorem bucket_separation_invariant cs (w : World B) r w'
    (Hwf : buckets_wf (buckets (w_db w))) (Hrun : run_calls cs w = (r, w')) :
  buckets_wf (buckets (w_db w')).
Proof.
  assert (Guar keeps_wf (run_calls cs)) as Hg.
  { apply guar_forM; [typeclasses eauto|]. intros c _. unfold ignore.
    apply guar_bind; [typeclasses eauto|apply guar_attempt, wf_run_call|].
    intros. apply guar_ret. typeclasses eauto. }
  by apply (Hg _ _ _ Hrun).
Qed.
End Calls.

#[local] Instance calls_s3 : S3Service MemB := mem_endpoint (fun _ => false).

Lemma bucket_separation_invariant_witness :
  let cs := [CallCreate ctx_alice "new-bucket" (mkQuotaDTO None None) "";
             CallOp ctx_alice "b1" OpDeleteBucket] in
  buckets_wf (buckets (w_db (snd (@run_calls ex_env _ _ ex_services cs ex_world)))) /\
  map b_Name (live (buckets (w_db (snd (@run_calls ex_env _ _ ex_services cs ex_world))))) =
  ["two"; "new-bucket"].
Proof.
  intros cs. split; [|vm_compute; reflexivity].
  refine (bucket_separation_invariant (ENV := ex_env) ex_services cs ex_world _ _ _
            (surjective_pairing _)).
  repeat split; vm_compute; repeat constructor; set_solver.
Defined.

(** * Emptying a bucket *)

Section Empty.
Context {B : Type} (prov : StorageProvider B) (objs : B -> str -> gmap str str)
  `{!ObjectStore prov objs}.

Lemma foldr_delete_lookup (m : gmap str str) ks k :
  foldr delete m ks !! k = if decide (k ∈ ks) then None else m !! k.
Proof.
  induction ks as [|x ks IH]; simpl; [done|].
  destruct (decide (k = x)) as [->|Hne].
  - rewrite lookup_delete_eq. by rewrite decide_True by set_solver.
  - rewrite lookup_delete_ne by done. rewrite IH.
    destruct (decide (k ∈ ks)); [by rewrite decide_True by set_solver|].
    by rewrite decide_False by set_solver.
Qed.
Lemma foldr_delete_size (m : gmap str str) k ks :
  is_Some (m !! k) -> k ∈ ks -> S (size (foldr delete m ks)) <= size m.
Proof.
  intros Hk Hin. rewrite <- !size_dom.
  assert (dom (foldr delete m ks) ⊆ dom m ∖ {[k]}) as Hsub.
  { intros x Hx. apply elem_of_dom in Hx as [v Hx]. rewrite foldr_delete_lookup in Hx.
    destruct (decide (x ∈ ks)); [done|].
    apply elem_of_difference. split; [apply elem_of_dom; eauto|set_solver]. }
  apply subseteq_size in Hsub. rewrite size_difference in Hsub.
  - rewrite size_singleton in Hsub. assert (size (dom m) <> 0); [|lia].
    apply size_non_empty_iff. apply elem_of_dom in Hk. set_solver.
  - apply singleton_subseteq_l. by apply elem_of_dom.
Qed.

Lemma object_keys_all l :
  Forall (fun o => obj_IsPrefix o = false) l -> Buckets.object_keys l = map obj_Key l.
Proof.
  unfold Buckets.object_keys. induction 1 as [|o l Ho _ IH]; simpl; [done|].
  rewrite Ho. simpl. by rewrite IH.
Qed.

(** [n] rounds either empty the bucket or delete at least one object each. *)
Lemma empty_rounds_spec n alias b b' :
  Buckets.empty_rounds n prov alias b = (inr tt, b') ->
  (objs b' alias = ∅ \/ size (objs b' alias) + n <= size (objs b alias)) /\
  forall other, other <> alias -> objs b' other = objs b other.
Proof.
  revert b. induction n as [|n IH]; intros b H; simpl in H.
  { run_simpl. split; [right; lia|done]. }
  apply bind_inr in H as (res & b1 & Hl & H).
  apply os_list in Hl as (-> & Hall & Hcomplete & Hnil).
  assert (Buckets.object_keys (lor_Objects res) = map obj_Key (lor_Objects res)) as Hks.
  { apply object_keys_all. eapply Forall_impl; [exact Hall|]. naive_solver. }
  rewrite Hks in H. destruct (lor_Objects res) as [|o l] eqn:Eo.
  { run_simpl. split; [left; by apply Hnil|done]. }
  apply bind_inr in H as ([] & b2 & Hd & H). simpl map in H, Hd.
  change (obj_Key o :: map obj_Key l) with (map obj_Key (o :: l)) in H, Hd.
  apply os_deletes in Hd as [Hobj Hother].
  assert (S (size (objs b2 alias)) <= size (objs b alias)) as Hsize.
  { rewrite Hobj. apply (foldr_delete_size _ (obj_Key o)); [|set_solver].
    apply Forall_cons in Hall as [[_ Hk] _]. exact Hk. }
  destruct (lor_IsTruncated res) eqn:Et; cbn [negb andb] in H.
  { apply IH in H as [Hs Ho]. split; [destruct Hs; [by left|right; lia]|].
    intros other Hne. by rewrite Ho, Hother. }
  destruct (length _ <? 1000)%nat eqn:El.
  - unfold ret in H. injection H as <-. split; [left|done]. rewrite Hobj. apply map_empty. intros k.
    rewrite foldr_delete_lookup. destruct (decide _) as [|Hn]; [done|].
    destruct (objs b alias !! k) eqn:Ek; [|done]. exfalso. apply Hn.
    apply Hcomplete; [done|eauto].
  - apply IH in H as [Hs Ho]. split; [destruct Hs; [by left|right; lia]|].
    intros other Hne. by rewrite Ho, Hother.
Qed.

(** On a backend that satisfies the object-store laws, [emptyBucket] leaves
    the bucket empty unless it deleted at least 1000 objects (its round limit);
    a bucket of fewer than 1000 objects always ends up empty.  Other buckets are
    untouched. *)
Theorem emptyBucket_empties alias b b'
    (Hrun : Buckets.emptyBucket prov alias b = (inr tt, b')) :
  (objs b' alias = ∅ \/ size (objs b' alias) + 1000 <= size (objs b alias)) /\
  (size (objs b alias) < 1000 -> objs b' alias = ∅) /\
  forall other, other <> alias -> objs b' other = objs b other.
Proof.
  apply empty_rounds_spec in Hrun as [Hs Ho]. split; [done|]. split; [|done].
  intros Hlt. destruct Hs; [done|lia].
Qed.
End Empty.

Lemma emptyBucket_empties_witness :
  let p := mem_provider caps_garage false in
  let b' := snd (Buckets.emptyBucket p "one" ex_backend) in
  fst (Buckets.emptyBucket p "one" ex_backend) = inr tt /\
  (size (objects_of ex_backend "one") < 1000 -> objects_of b' "one" = ∅).
Proof.
  intros p b'. split; [vm_compute; reflexivity|].
  refine (proj1 (proj2 (emptyBucket_empties p objects_of "one" ex_backend b' _))).
  transitivity (fst (Buckets.emptyBucket p "one" ex_backend), b');
    [apply surjective_pairing|f_equal; vm_compute; reflexivity].
Defined.

(** * Deleting and creating *)

Section Steps.
Context {ENV : Env} {B : Type} (s : Services B).

(** Neither an audit nor a metering event makes a call fail. *)
Lemma audit_ok ctx action t tid m (w : World B) :
  exists w', audit s ctx action t tid m w = (inr tt, w').
Proof.
  unfold audit.
  assert (forall a ty, exists w',
    (do! ignore (db (AuditLog.WriteAudit (tc_OrgID (tenant s ctx)) a ty action t tid m "")) in
     fx (E := Error) (FxSIEM (tc_OrgID (tenant s ctx)) a ty action t tid m)) w = (inr tt, w'))
    as H.
  { intros a ty. unfold ignore, bind, attempt.
    destruct (db (AuditLog.WriteAudit _ a ty action t tid m "") w) as [r w1]. cbn. eauto. }
  destruct (ctx_subject ctx) as [sj|]; [destruct (sub_UserID sj =s "")|]; apply H.
Qed.
Lemma emit_ok ctx t subj q (w : World B) : exists w', emit s ctx t subj q w = (inr tt, w').
Proof. unfold emit, fx, modify. eauto. Qed.

(** One step of a run: fails with the viewed table unchanged, or goes on. *)
Lemma bind_view {V} (v : DB -> V) {E A A'} (m : M (World B) E A) (k : A -> M (World B) E A') w r w' :
  Guar (view v) m -> bind m k w = (r, w') ->
  (exists e, r = inl e /\ v (w_db w') = v (w_db w)) \/
  (exists a w1, m w = (inr a, w1) /\ k a w1 = (r, w') /\ v (w_db w1) = v (w_db w)).
Proof.
  intros Hm H. rewrite bind_run in H. destruct (m w) as [[e|a] w1] eqn:Em.
  - simplify_eq. left. exists e. split; [done|]. symmetry. by eapply Hm.
  - right. exists a, w1. repeat split; [done|]. symmetry. by eapply Hm.
Qed.

Lemma loadBucket_inr ctx id (w : World B) b w1 :
  loadBucket s ctx id w = (inr b, w1) ->
  Store.bucket_row id (w_db w) = Some b /\ b_ProjectID b = tc_ProjectID (tenant s ctx).
Proof.
  unfold loadBucket. intros H. run_simpl.
  apply db_inv in H0 as (d & Hq & ->). apply query_row_inr in Hq as [-> Hb].
  split; [exact Hb|]. destruct (_ =s _) eqn:E; [by bool_prop|]. run_simpl.
Qed.

Lemma SoftDelete_inv id (w : World B) r w' :
  db (Store.SoftDeleteBucket id) w = (r, w') ->
  match r with
  | inl _ => buckets (w_db w') = buckets (w_db w)
  | inr _ => live (buckets (w_db w')) =
             where_ (fun b => negb (b_ID b =s env_as_uuid id)) (live (buckets (w_db w)))
  end.
Proof.
  intros (d & H & ->)%db_inv. unfold Store.SoftDeleteBucket in H. destruct r as [e|u].
  - apply mapErr_inl in H as (e0 & H & ->). by apply stmt_inl in H as ->.
  - apply mapErr_inr, exec_inr in H as ->. cbn. apply live_del.
Qed.
End Steps.

(** Peels a step that does not touch the bucket table off a run. *)
Ltac peel H b w1 E Hb :=
  let e := fresh "e" in
  apply (bind_view buckets) in H;
    [destruct H as [(e & -> & Hb)|(b & w1 & E & H & Hb)] | frames].

(** The same on a run that succeeds. *)
Ltac peel_ok H b w1 E Hb :=
  apply (bind_view buckets) in H;
    [destruct H as [(? & H & _)|(b & w1 & E & H & Hb)]; [discriminate H|] | frames].

Section DeleteCreate.
Context {ENV : Env} {B : Type} (s : Services B).

(** A bucket row is soft-deleted exactly when [DeleteBucket] reports success:
    on success the caller's bucket (and no other) left the live table, on any
    failure (refused, backend or database error) the bucket table is unchanged. *)
Theorem DeleteBucket_row ctx id (w : World B) r w'
    (Hrun : Buckets.DeleteBucket s ctx id w = (r, w')) :
  match r with
  | inl _ => buckets (w_db w') = buckets (w_db w)
  | inr _ =>
      (exists b, Store.bucket_row id (w_db w) = Some b /\
                 b_ProjectID b = tc_ProjectID (tenant s ctx)) /\
      live (buckets (w_db w')) =
      where_ (fun b => negb (b_ID b =s env_as_uuid id)) (live (buckets (w_db w)))
  end.
Proof.
  unfold Buckets.DeleteBucket in Hrun.
  peel Hrun u1 w1 E1 H1; [done|]. peel Hrun b w2 E2 H2; [congruence|].
  assert (Store.bucket_row id (w_db w) = Some b /\
          b_ProjectID b = tc_ProjectID (tenant s ctx)) as [Hrow Hproj].
  { apply loadBucket_inr in E2 as [Hr Hp]. split; [|done].
    unfold Store.bucket_row in *. by rewrite <- H1. }
  peel Hrun p w3 E3 H3; [congruence|]. peel Hrun u4 w4 E4 H4; [congruence|].
  peel Hrun u5 w5 E5 H5; [congruence|].
  rewrite bind_run in Hrun. unfold mapErr in Hrun.
  destruct (db (Store.SoftDeleteBucket id) w5) as [[e|u6] w6] eqn:E6;
    apply SoftDelete_inv in E6; simplify_eq; [congruence|].
  rewrite bind_run in Hrun.
  destruct (audit_ok s ctx "bucket.delete" "bucket" id (Some [("name", JStr (b_Name b))]) w6)
    as [w7 E7].
  rewrite E7 in Hrun. destruct (emit_ok s ctx EventBucketDeleted id 0 w7) as [w8 E8].
  rewrite E8 in Hrun. injection Hrun as <- <-. split; [eauto|].
  assert (Hv7 := view_audit s buckets ctx _ _ _ _ _ _ _ E7).
  assert (Hv8 : view buckets w7 w8) by (eapply (view_fx buckets); exact E8).
  unfold view, same in Hv7, Hv8. rewrite <- Hv8, <- Hv7, E6. congruence.
Qed.

(** The row a creation adds, as the tenant asked for it. *)
Definition created ctx (name : str) (quota : QuotaDTO) (row : Bucket) : Prop :=
  bucketNameRe name = true /\ b_Name row = name /\ b_GarageGlobalAlias row = name /\
  b_OrgID row = tc_OrgID (tenant s ctx) /\ b_ProjectID row = tc_ProjectID (tenant s ctx) /\
  b_Visibility row = "private" /\ b_WebsiteEnabled row = false /\
  b_QuotaMaxSize row = q_MaxBytes quota /\ b_QuotaMaxObjects row = q_MaxObjects quota.

Lemma validate_ok name (w : World B) r w' :
  (match ValidateBucketName name with
   | Some msg => throw (validationErr msg)
   | None => ret tt
   end) w = (inr r, w') -> bucketNameRe name = true.
Proof.
  unfold ValidateBucketName. destruct (_ || _); [done|]. by destruct (bucketNameRe name).
Qed.

Lemma fresh_row_found id (l : list (Live Bucket)) row :
  Store.has_id b_ID id (Store.all_rows l) = false -> b_ID row = id ->
  head (where_ (fun b => b_ID b =s id) (live (add_live row l))) = Some row.
Proof.
  intros Hf Hid. rewrite live_add, where_app, where_false.
  - simpl. by rewrite Hid, eqb_refl_str.
  - intros b Hb. unfold Store.has_id in Hf. rewrite exists_false in Hf. apply Hf.
    by apply live_elem_all.
Qed.

Lemma record_inv (p : StorageProvider B) row (w : World B) id w' :
  Buckets.record_bucket p row w = (inr id, w') ->
  exists n, buckets (w_db w') =
      add_live (Store.new_bucket_row n (set_b_ClusterID (env_as_uuid (b_ClusterID row)) row))
        (buckets (w_db w)) /\
    id = env_uuid n /\ Store.has_id b_ID id (Store.all_rows (buckets (w_db w))) = false.
Proof.
  unfold Buckets.record_bucket. rewrite bind_run, attempt_run.
  destruct (db (Store.CreateBucket row) w) as [[e|x] w1] eqn:E; intros H; [by run_simpl|].
  unfold ret in H. injection H as -> ->. apply db_inv in E as (d & E & ->).
  unfold Store.CreateBucket in E. apply mapErr_inr, insert_inr in E as [Hok E].
  simplify_eq/=. exists (db_tick (w_db w)). split; [done|]. split; [done|].
  unfold Store.bucket_ok in Hok. bool_prop. done.
Qed.

(** A successful [CreateBucket] adds exactly one live bucket, with a valid
    name, in the caller's organization and project, private, with the requested
    quota, and returns that bucket. *)
Theorem CreateBucket_adds ctx name quota cid (w : World B) dto w'
    (Hrun : Buckets.CreateBucket s ctx name quota cid w = (inr dto, w')) :
  exists row,
    buckets (w_db w') = add_live row (buckets (w_db w)) /\
    created ctx name quota row /\
    bd_ID dto = b_ID row /\ bd_Name dto = name /\ bd_Visibility dto = "private" /\
    bd_Quota dto = quota.
Proof.
  unfold Buckets.CreateBucket in Hrun.
  peel_ok Hrun u1 w1 E1 H1. peel_ok Hrun u2 w2 E2 H2.
  peel_ok Hrun u3 w3 E3 H3.
  peel_ok Hrun cid' w4 E4 H4; [|by apply view_pickCluster].
  unfold Store.GetClusterByID in Hrun. peel_ok Hrun u5 w5 E5 H5. peel_ok Hrun p w6 E6 H6.
  peel_ok Hrun gb w7 E7 H7; [|by apply view_provision].
  apply bind_inr in Hrun as (id & w8 & E8 & Hrun).
  apply record_inv in E8 as (n & Hb8 & Hid & Hfresh).
  peel_ok Hrun u9 w9 E9 H9.
  peel_ok Hrun u10 w10 E10 H10.
  unfold Buckets.GetBucket in Hrun. peel_ok Hrun b w11 E11 H11.
  peel_ok Hrun usg w12 E12 H12; [|by apply view_usage_now].
  apply loadBucket_inr in E11 as [Hrow _]. unfold ret in Hrun. injection Hrun as <- <-.
  unfold Store.bucket_row in Hrow. rewrite H10, H9, Hb8 in Hrow. subst id.
  rewrite env_as_uuid_gen, (fresh_row_found (env_uuid n)) in Hrow by done. injection Hrow as <-.
  apply validate_ok in E2.
  eexists. split; [rewrite H12, H11, H10, H9, Hb8, H7, H6, H5, H4, H3, H2, H1; reflexivity|].
  repeat split; [exact E2|]. cbn. by destruct quota.
Qed.

End DeleteCreate.

Lemma DeleteBucket_row_witness :
  let out := @Buckets.DeleteBucket ex_env _ ex_services ctx_alice "b1" ex_world in
  fst out = inr tt /\
  live (buckets (w_db (snd out))) = where_ (fun b => negb (b_ID b =s "b1")) (live (buckets ex_db)).
Proof.
  intros out. assert (fst out = inr tt) as H by (vm_compute; reflexivity). split; [exact H|].
  refine (proj2 (DeleteBucket_row (ENV := ex_env) ex_services ctx_alice "b1" ex_world
                   (inr tt) (snd out) _)).
  rewrite <- H. apply surjective_pairing.
Defined.

Lemma CreateBucket_adds_witness :
  let out := @Buckets.CreateBucket ex_env _ ex_services ctx_alice "reports"
               (mkQuotaDTO (Some 1000%Z) None) "" ex_world in
  exists dto row, fst out = inr dto /\
    buckets (w_db (snd out)) = add_live row (buckets ex_db) /\ bd_ID dto = b_ID row.
Proof.
  intros out.
  destruct (fst out) as [e|dto] eqn:E; [exfalso; vm_compute in E; discriminate|].
  destruct (CreateBucket_adds (ENV := ex_env) ex_services ctx_alice "reports"
    (mkQuotaDTO (Some 1000%Z) None) "" ex_world dto (snd out)) as (row & H1 & _ & H2 & _).
  - rewrite <- E. apply surjective_pairing.
  - exists dto, row. auto.
Defined.

(** The undo of a failed creation can remove another tenant's bucket.  On a
    backend that accepts the creation of a bucket it already holds (the generic
    S3 backends), a creation whose name is taken by another tenant is refused,
    but the refusal deletes that tenant's (empty) backend bucket, whose row stays
    live. *)
Theorem CreateBucket_undo_deletes_foreign_bucket :
  let s := ex_services_with caps_generic true PermitAll AlwaysAllow false in
  let w := set_w_be (<["two" := ∅]> ex_backend) ex_world in
  let out := @Buckets.CreateBucket ex_env _ s ctx_alice "two" (mkQuotaDTO None None) "" w in
  failed (fst out) = true /\
  w_be w !! "two" = Some ∅ /\ w_be (snd out) !! "two" = None /\
  @Store.bucket_row ex_env "b2" (w_db (snd out)) = Some (bucket_of "b2" "o2" "p2" "two").
Proof.
  intros s w out. repeat split; vm_compute; reflexivity.
Qed.

(** * The storage quota *)

Section Quota.
Context {ENV : Env} {B : Type} (s : Services B).







End Quota.

