(* ===== verification/ObjectProofs.v ===== *)
(** The object plane: listings hide the trash, a trashed object can be restored,
    and what the trash operations do not check. *)
From S2P Require Import Prelude GoStrings Storage MemStore Database Repository AuditLog Service Frames Example Buckets Objects Isolation BucketProofs.
#[local] Open Scope string_scope.

Section Objects.
Context {ENV : Env} {B : Type} (s : Services B).

(** * Listings *)

(** A listing never shows the reserved trash prefix, and hides nothing else:
    the entries shown are the backend's page without the trash keys, in order,
    with the page's continuation token. *)
Theorem ListObjects_hides_trash ctx id prefix delimiter cursor maxKeys (w : World B) out w'
    (Hrun : Objects.ListObjects s ctx id prefix delimiter cursor maxKeys w = (inr out, w')) :
  Forall (fun o => HasPrefix (Objects.od_Key o) ".trash/" = false) (Objects.old_Data out) /\
  Forall (fun p => HasPrefix p ".trash/" = false) (Objects.old_CommonPrefixes out) /\
  exists b (prov : StorageProvider B) be1 be2 page,
    Store.bucket_row id (w_db w) = Some b /\
    sp_ListObjects prov (b_GarageGlobalAlias b)
      (mkListObjectsInput prefix delimiter cursor maxKeys) be1 = (inr page, be2) /\
    map Objects.od_Key (Objects.old_Data out) =
      where_ (fun k => negb (HasPrefix k ".trash/")) (map obj_Key (lor_Objects page)) /\
    Objects.old_NextCursor out = lor_NextContinuationToken page /\
    Objects.old_IsTruncated out = lor_IsTruncated page.
Proof.
  unfold Objects.ListObjects in Hrun. apply bind_inr in Hrun as ([b prov] & w1 & E1 & Hrun).
  unfold bucketProvider in E1. apply bind_inr in E1 as (b' & w0 & Eb & E1).
  apply loadBucket_inr in Eb as [Hrow _].
  apply bind_inr in E1 as (p & w2 & _ & E1). unfold ret in E1. injection E1 as -> -> ->.
  apply bind_inr in Hrun as (page & w3 & Hp & Hrun).
  apply mapErr_inr, be_inv in Hp as (be2 & Hpage & ->). unfold ret in Hrun.
  injection Hrun as <- <-. split; [|split].
  - apply Forall_map, Forall_forall. intros o [_ Ho]%where_elem. by bool_prop.
  - apply Forall_forall. intros o [_ Ho]%where_elem. by bool_prop.
  - eexists b, prov, _, be2, _. repeat split; [done|exact Hpage|].
    cbn [Objects.old_Data]. rewrite map_map.
    apply (where_map obj_Key (fun k => negb (HasPrefix k ".trash/"))).
Qed.
End Objects.

(** * Trash and restore *)

Section Trash.
Context {ENV : Env} {B : Type} (s : Services B) (objs : B -> str -> gmap str str)
  `{!ObjectStore (s_Provider s) objs}.

Lemma primary_provider b (w : World B) :
  b_ClusterID b = s_ClusterID s -> providerForBucket s b w = (inr (s_Provider s), w).
Proof.
  intros H. unfold providerForBucket, providerFor. by rewrite H, eqb_refl_str, !orb_true_r.
Qed.

Lemma bucketProvider_primary ctx id (w : World B) b p w1 :
  bucketProvider s ctx id w = (inr (b, p), w1) -> b_ClusterID b = s_ClusterID s ->
  Store.bucket_row id (w_db w) = Some b /\ p = s_Provider s /\ quiet w w1.
Proof.
  unfold bucketProvider. intros H Hc. apply bind_inr in H as (b' & w0 & Eb & H).
  pose proof (quiet_loadBucket s ctx id _ _ _ Eb) as Hq. apply loadBucket_inr in Eb as [Hrow _].
  apply bind_inr in H as (p' & w2 & Hp & H). unfold ret in H. injection H as -> -> ->.
  apply mapErr_inr in Hp. rewrite (primary_provider _ _ Hc) in Hp. by simplify_eq.
Qed.

(** What one round of the trash loop does. *)
Definition trashed (b : Bucket) (t : Z) (key : str) (w w' : World B) : Prop :=
  exists body row,
    objs (w_be w) (b_GarageGlobalAlias b) !! key = Some body /\
    objs (w_be w') (b_GarageGlobalAlias b) =
      delete key (<[Objects.trashKeyOf t key := body]> (objs (w_be w) (b_GarageGlobalAlias b))) /\
    (forall other, other <> b_GarageGlobalAlias b -> objs (w_be w') other = objs (w_be w) other) /\
    trash (w_db w') = (trash (w_db w) ++ [row])%list /\
    Store.has_id t_ID (t_ID row) (trash (w_db w)) = false /\
    canonical (t_ID row) /\ t_BucketID row = env_as_uuid (b_ID b) /\ t_OriginalKey row = key /\
    t_TrashKey row = Objects.trashKeyOf t key /\ t_RestoredAt row = None.

(** The trash key of a plain key is plain. *)
Lemma copy_plain_trash bkt t key :
  copy_plain bkt key = true -> copy_plain bkt (Objects.trashKeyOf t key) = true.
Proof.
  unfold copy_plain, Objects.trashKeyOf, Objects.trashPrefix. intros [Hb Hk]%andb_true_iff.
  rewrite Hb, !str_all_app, Hk.
  assert (str_all path_char (Itoa t) = true) as ->; [|done].
  eapply str_all_impl; [|apply Itoa_chars]. unfold path_char, unreserved.
  intros c [->| ->]%orb_true_iff; by rewrite ?orb_true_r.
Qed.

Lemma trashOne_spec b t key (w : World B) w' :
  copy_plain (b_GarageGlobalAlias b) key = true ->
  Objects.trashOne (s_Provider s) b t key w = (inr tt, w') -> trashed b t key w w'.
Proof.
  unfold Objects.trashOne. intros Hplain H. apply bind_inr in H as (h & w1 & E1 & H).
  rewrite attempt_run in E1. destruct (be _ w) as [r wh] eqn:Eh. simplify_eq/=.
  apply be_inv in Eh as (b1 & Eh & ->). apply os_head_reads in Eh.
  apply bind_inr in H as ([] & w2 & Hc & H). apply mapErr_inr, be_inv in Hc as (b2 & Hc & ->).
  apply bind_inr in H as ([] & w3 & Hd & H). apply mapErr_inr, be_inv in Hd as (b3 & Hd & ->).
  apply bind_inr in H as (tid & w4 & Hi & H). unfold ret in H. injection H as <-.
  apply os_copy in Hc as (body & Hk & Hc & Hco); [|done].
  apply os_delete in Hd as (Hd & Hdo). cbn in *.
  apply mapErr_inr, db_inv in Hi as (d & Hi & ->).
  apply mapErr_inr, insert_inr in Hi as [Hok Hi].
  cbn in Hi. injection Hi as <- <-. bool_prop. rewrite Eh in Hk, Hc, Hco.
  eexists body, _. split; [exact Hk|]. cbn. split; [by rewrite Hd, Hc|].
  split; [intros; by rewrite Hdo, Hco|]. repeat split; [|apply env_as_uuid_gen|done..]. done.
Qed.

Lemma trashKey_ne t key : Objects.trashKeyOf t key <> key.
Proof.
  intros H. apply (f_equal String.length) in H.
  unfold Objects.trashKeyOf, Objects.trashPrefix in H. rewrite !str_length_app in H.
  cbn in H. lia.
Qed.

Lemma undo_trash (m : gmap str str) k k' body :
  m !! k = Some body -> m !! k' = None -> k' <> k ->
  delete k' (<[k := body]> (delete k (<[k' := body]> m))) = m.
Proof.
  intros Hk Hk' Hne. apply map_eq. intros x.
  destruct (decide (x = k')) as [->|Hx]; [by rewrite lookup_delete_eq|].
  rewrite lookup_delete_ne by done. destruct (decide (x = k)) as [->|Hx2].
  - by rewrite lookup_insert_eq.
  - by rewrite lookup_insert_ne, lookup_delete_ne, lookup_insert_ne by done.
Qed.

Lemma view_be_audit ctx a t ti m (w : World B) r w' :
  audit s ctx a t ti m w = (r, w') -> w_be w' = w_be w /\ trash (w_db w') = trash (w_db w).
Proof.
  intros H. split.
  - unfold audit in H. destruct (ctx_subject ctx) as [sj|];
      [destruct (sub_UserID sj =s "")|]; unfold ignore, bind, attempt in H;
      (destruct (db _ w) as [r1 w1] eqn:E; apply db_inv in E as (d & _ & ->);
       unfold ret, fx, modify in H; by simplify_eq/=).
  - symmetry. apply (view_audit s trash ctx a t ti m _ _ _ H).
Qed.

Lemma DeleteObjects_trash ctx id key (w w1 : World B) b :
  copy_plain (b_GarageGlobalAlias b) key = true ->
  Store.bucket_row id (w_db w) = Some b -> b_ClusterID b = s_ClusterID s ->
  Objects.DeleteObjects s ctx id [key] false w = (inr tt, w1) ->
  exists t w0 w2, quiet w w0 /\ trashed b t key w0 w2 /\
    w_be w1 = w_be w2 /\ trash (w_db w1) = trash (w_db w2).
Proof.
  intros Hplain Hrow Hc H. unfold Objects.DeleteObjects in H.
  apply bind_inr in H as (u & wa & Ha & H). pose proof (quiet_authorize s _ _ _ _ _ _ Ha) as Hqa.
  apply bind_inr in H as (u2 & wb & Hb & H). cbn in Hb. unfold ret in Hb. injection Hb as _ <-.
  apply bind_inr in H as ([b' p] & wc & Hbp & H).
  assert (b' = b) as ->.
  { unfold bucketProvider in Hbp. apply bind_inr in Hbp as (b0 & w0 & Eb & Hbp).
    apply loadBucket_inr in Eb as [Hr _].
    rewrite <- (bucket_row_tables id _ _ (quiet_tables _ _ Hqa)) in Hr. run_simpl. congruence. }
  apply bucketProvider_primary in Hbp as (_ & -> & Hqb); [|done].
  apply bind_inr in H as (u3 & wd & Ht & H). unfold Objects.trashObjects in Ht.
  apply bind_inr in Ht as (p & we & Hp & Ht). apply mapErr_inr in Hp.
  rewrite primary_provider in Hp by done. injection Hp as <- <-.
  apply bind_inr in Ht as (t & wf & Hn & Ht). unfold now in Hn. injection Hn as _ <-.
  apply bind_inr in Ht as (u4 & wg & Hl & Ht). cbn in Hl.
  apply bind_inr in Hl as ([] & wh & Ho & Hl). unfold ret in Hl. injection Hl as _ <-.
  apply trashOne_spec in Ho; [|done]. apply view_be_audit in Ht as [Hbe Htr].
  cbn in H. unfold fireWebhook, fx, modify, bind, ret in H. injection H as <-.
  exists t, wc, wh. split; [by etrans|]. done.
Qed.

Lemma view_DeleteObjects ctx id ks p : Guar (view buckets) (Objects.DeleteObjects s ctx id ks p).
Proof.
  unfold Objects.DeleteObjects, fireWebhook. frames. apply view_trashObjects.
Qed.

Lemma RestoreObject_spec ctx id tid (w w2 : World B) b :
  Store.bucket_row id (w_db w) = Some b -> b_ClusterID b = s_ClusterID s ->
  Objects.RestoreObject s ctx id tid w = (inr tt, w2) ->
  exists t, Store.trash_row tid (w_db w) = Some t /\
  (copy_plain (b_GarageGlobalAlias b) (t_TrashKey t) = true -> exists body,
    objs (w_be w) (b_GarageGlobalAlias b) !! t_TrashKey t = Some body /\
    objs (w_be w2) (b_GarageGlobalAlias b) =
      delete (t_TrashKey t) (<[t_OriginalKey t := body]> (objs (w_be w) (b_GarageGlobalAlias b))) /\
    (forall other, other <> b_GarageGlobalAlias b -> objs (w_be w2) other = objs (w_be w) other)).
Proof.
  intros Hrow Hc H. unfold Objects.RestoreObject in H.
  apply bind_inr in H as (u & wa & Ha & H). pose proof (quiet_authorize s _ _ _ _ _ _ Ha) as Hqa.
  apply bind_inr in H as (t & wb & Hb & H). apply mapErr_inr, db_inv in Hb as (d & Hg & ->).
  apply query_row_inr in Hg as [-> Hg].
  apply quiet_inv in Hqa as (Hta & Hba & _).
  assert (Store.trash_row tid (w_db w) = Some t) as Ht.
  { apply (f_equal trash) in Hta. cbn in Hta. unfold Store.trash_row in *. by rewrite Hta. }
  apply bind_inr in H as ([b' p] & wc & Hbp & H).
  assert (b' = b) as ->.
  { unfold bucketProvider in Hbp. apply bind_inr in Hbp as (b0 & w0 & Eb & Hbp).
    apply loadBucket_inr in Eb as [Hr _].
    rewrite <- (bucket_row_tables id (w_db w)) in Hr by exact Hta. run_simpl. congruence. }
  apply bucketProvider_primary in Hbp as (_ & -> & Hqb); [|done].
  apply quiet_inv in Hqb as (_ & Hbb & _). cbn in Hbb.
  apply bind_inr in H as ([] & wd & Hcp & H). apply mapErr_inr, be_inv in Hcp as (b1 & Hcp & ->).
  apply bind_inr in H as ([] & we & Hd & H). apply mapErr_inr, be_inv in Hd as (b2 & Hd & ->).
  apply bind_inr in H as (u5 & wf & Hm & H). apply mapErr_inr, db_inv in Hm as (d2 & _ & ->).
  apply view_be_audit in H as [Hbe _].
  exists t. split; [done|]. intros Hplain.
  rewrite <- Hbb, <- Hba in Hcp. apply os_copy in Hcp as (body & Hk & Hcp & Hco); [|done].
  cbn in Hd. apply os_delete in Hd as (Hd & Hdo). cbn in Hbe. rewrite Hbe.
  exists body. split; [done|]. split; [by rewrite Hd, Hcp|].
  intros other Hne. by rewrite Hdo, Hco.
Qed.

(** C13: trash and restore are inverse, on a backend that keeps the object-store laws.
    Deleting an object of a bucket on the primary cluster without [permanent] removes
    it from its key; restoring the trash entry that was made brings every bucket back to
    exactly its contents before.  Both calls are assumed to succeed and no object to have been stored under the very key the entry
    moved it to (.trash/<time>/<key>, [t_TrashKey row]) before; older copies of the same
    key in the trash do not matter.  The key is one that URL encoding leaves alone:
    S3Laws.v shows what happens to others. *)
Theorem trash_restore_roundtrip ctx id key (w w1 w2 : World B) b row
    (Hrow : Store.bucket_row id (w_db w) = Some b)
    (Hprimary : b_ClusterID b = s_ClusterID s)
    (Hplain : copy_plain (b_GarageGlobalAlias b) key = true)
    (Hdelete : Objects.DeleteObjects s ctx id [key] false w = (inr tt, w1))
    (Hentry : last (trash (w_db w1)) = Some row)
    (Hfresh : objs (w_be w) (b_GarageGlobalAlias b) !! t_TrashKey row = None)
    (Hrestore : Objects.RestoreObject s ctx id (t_ID row) w1 = (inr tt, w2)) :
  objs (w_be w1) (b_GarageGlobalAlias b) !! key = None /\
  forall bkt, objs (w_be w2) bkt = objs (w_be w) bkt.
Proof.
  destruct (DeleteObjects_trash _ _ _ _ _ _ Hplain Hrow Hprimary Hdelete)
    as (t & w0 & wt & Hq & Htr & Hbe & Htab).
  pose proof (view_DeleteObjects ctx id [key] false _ _ _ Hdelete) as Hv.
  apply quiet_inv in Hq as (_ & Hq & _).
  destruct Htr as (body & row' & Hbody & Hobj & Hoth & Hrows & Hid & Hcan & _ & Hkey & Htk & Hres).
  rewrite <- Hq in Hbody, Hobj, Hoth. rewrite <- Hbe in Hobj, Hoth.
  rewrite Htab, Hrows, last_snoc in Hentry. injection Hentry as <-.
  assert (Store.bucket_row id (w_db w1) = Some b) as Hrow1.
  { unfold Store.bucket_row in *. by rewrite <- Hv. }
  destruct (RestoreObject_spec _ _ _ _ _ b Hrow1 Hprimary Hrestore)
    as (tr & Hget & Hr).
  assert (tr = row') as ->.
  { unfold Store.trash_row in Hget. rewrite Htab, Hrows, where_app, where_false in Hget.
    - cbn in Hget. unfold Store.unrestored in Hget. rewrite Hcan, eqb_refl_str, Hres in Hget.
      cbn in Hget. by injection Hget.
    - intros x Hx. unfold Store.has_id in Hid. rewrite exists_false in Hid.
      by rewrite Hcan, (Hid x Hx). }
  destruct Hr as (body' & Hb' & Hr1 & Hr2); [rewrite Htk; by apply copy_plain_trash|].
  pose proof (trashKey_ne t key) as Hne.
  rewrite Htk in Hb', Hr1, Hfresh. rewrite Hkey in Hr1. rewrite Hobj in Hb', Hr1.
  rewrite lookup_delete_ne, lookup_insert_eq in Hb' by done. injection Hb' as <-.
  split; [rewrite Hobj; apply lookup_delete_eq|]. intros bkt.
  destruct (decide (bkt = b_GarageGlobalAlias b)) as [->|Hb].
  - rewrite Hr1. by apply undo_trash.
  - by rewrite Hr2, Hoth.
Qed.
End Trash.

(** * Worked examples *)

Lemma ListObjects_hides_trash_witness :
  let w := set_w_be (<["one" := <[".trash/1/old" := "x"]> {[ "a" := "1" ]}]> ex_backend) ex_world in
  let out := @Objects.ListObjects ex_env _ ex_services ctx_alice "b1" "" "" "" 100 w in
  exists l, fst out = inr l /\ map Objects.od_Key (Objects.old_Data l) = ["a"] /\
    Forall (fun o => HasPrefix (Objects.od_Key o) ".trash/" = false) (Objects.old_Data l).
Proof.
  intros w out. destruct (fst out) as [e|l] eqn:E; [exfalso; vm_compute in E; discriminate|].
  exists l. split; [done|]. split.
  - assert (match fst out with inr l => map Objects.od_Key (Objects.old_Data l) | inl _ => [] end
            = ["a"]) as H by (vm_compute; reflexivity).
    by rewrite E in H.
  - refine (proj1 (ListObjects_hides_trash (ENV := ex_env) ex_services ctx_alice "b1" "" "" ""
      100 w l (snd out) _)).
    rewrite <- E. apply surjective_pairing.
Defined.

Definition ex_row : TrashItem :=
  mkTrashItem "id1" "b1" "o1" "a.txt" (Objects.trashKeyOf 1000000000 "a.txt") 5 1000000000
    (1000000000 + Objects.trashRetention) None.

(** An object that was trashed a second before is in the trash twice. *)
Definition trashed_before : World MemB :=
  set_w_be (<["one" := <[Objects.trashKeyOf 0 "a.txt" := "older"]> (objects_of ex_backend "one")]> ex_backend) ex_world.
Lemma trash_restore_roundtrip_witness :
  let w1 := snd (@Objects.DeleteObjects ex_env _ ex_services ctx_alice "b1" ["a.txt"] false trashed_before) in
  let w2 := snd (@Objects.RestoreObject ex_env _ ex_services ctx_alice "b1" "id1" w1) in
  objects_of (w_be w1) "one" !! "a.txt" = None /\
  forall bkt, objects_of (w_be w2) bkt = objects_of (w_be trashed_before) bkt.
Proof.
  intros w1 w2.
  refine (trash_restore_roundtrip (ENV := ex_env) ex_services objects_of ctx_alice "b1" "a.txt"
            trashed_before w1 w2 (bucket_of "b1" "o1" "p1" "one") ex_row _ _ _ _ _ _ _);
    vm_compute; reflexivity.
Defined.

(** The same deployment with an object of org o2's bucket b2 in the trash. *)
Definition foreign_trash : TrashItem :=
  mkTrashItem "t2" "b2" "o2" "y" ".trash/7/y" 3 7 8 None.
Definition ex_trash_world : World MemB :=
  mkWorld (set_trash [foreign_trash] ex_db)
    (<["two" := {[ ".trash/7/y" := "abc" ]}]> ex_backend) ∅ 0 [].

(** Trash entries are not tied to the bucket of the request.  Alice of org
    o1, through her own bucket b1, purges a trash entry of org o2: the call
    succeeds, the entry is gone, and o2's trashed object is left behind in its
    bucket, no longer restorable and never purged. *)
Theorem PurgeObject_takes_foreign_entry :
  let out := @Objects.PurgeObject ex_env _ ex_services ctx_alice "b1" "t2" ex_trash_world in
  fst out = inr tt /\ trash (w_db (snd out)) = [] /\
  objects_of (w_be (snd out)) "two" !! ".trash/7/y" = Some "abc".
Proof. intros out. repeat split; vm_compute; reflexivity. Qed.

(** The trash listing is not scoped to the tenant: alice of org o1 reads the
    trash of org o2's bucket. *)
Theorem ListTrash_shows_foreign_bucket :
  fst (@Objects.ListTrash ex_env _ ctx_alice "b2" ex_trash_world) =
  inr [Objects.mkTrashDTO "t2" "y" 3 7 8].
Proof. vm_compute. reflexivity. Qed.

(** The background purge drops the trash entry even when the object was not
    deleted: here the bucket's cluster cannot be reached, the entry is gone and
    the object is still in the backend. *)
Theorem PurgeDueTrash_forgets_undeleted :
  let s := ex_services_with caps_garage false PermitAll AlwaysAllow true in
  let b3 := mkBucket "b3" "o1" "p1" "c2" "far" "far" "far" "private" false "" "" None None 0 in
  let w := mkWorld (set_buckets [mkLive b3 None]
                      (set_trash [mkTrashItem "t3" "b3" "o1" "k" ".trash/1/k" 1 0 (-1) None] ex_db))
             {[ "far" := {[ ".trash/1/k" := "x" ]} ]} ∅ 0 [] in
  let w' := snd (@Objects.PurgeDueTrash ex_env _ s w) in
  trash (w_db w') = [] /\ objects_of (w_be w') "far" !! ".trash/1/k" = Some "x".
Proof. intros s b3 w w'. split; vm_compute; reflexivity. Qed.
