(* ===== verification/Members.v ===== *)
(** src/internal/service/members.go and auth.go: organization members,
    invitations, sign-in and sessions. *)
From S2P Require Import Prelude GoStrings Storage Database Repository Service.
#[local] Open Scope string_scope.

Module Members.

(** 7 * 24 * time.Hour *)
Definition inviteTTL : Z := (7 * 24 * 3600 * 10 ^ 9)%Z.
Definition SessionTTL : Z := (7 * 24 * 3600 * 10 ^ 9)%Z.

Record MemberDTO := mkMemberDTO {
  md_UserID : str; md_Email : str; md_FullName : str; md_Role : str; md_CreatedAt : Z }.
Record InvitationDTO := mkInvitationDTO {
  ivd_ID : str; ivd_Email : str; ivd_Role : str; ivd_ExpiresAt : Z }.
Record InviteResult := mkInviteResult { ir_Invitation : InvitationDTO; ir_Link : str }.
Record UserDTO := mkUserDTO { ud_ID : str; ud_Email : str; ud_FullName : str; ud_Role : str }.
Record AuthResult := mkAuthResult {
  ar_User : UserDTO; ar_SessionToken : str; ar_CSRFToken : str }.

Definition validRoles (role : str) : bool :=
  bool_decide (role ∈ ["owner"; "admin"; "member"; "viewer"]).

Definition roleRank (r : str) : nat :=
  if r =s "owner" then 3 else if r =s "admin" then 2 else if r =s "member" then 1 else 0.

Definition userDTO (u : User) : UserDTO :=
  mkUserDTO (u_ID u) (u_Email u) (u_FullName u)
    (if u_IsPlatformAdmin u then "owner" else "admin").

Section Members.
Context {ENV : Env} {B : Type} (s : Services B).
#[local] Abbreviation Svc := (@Service.Svc B).
Implicit Types (ctx : Ctx).

Definition ceilingErr : Error :=
  mkError "forbidden" "you cannot grant a role higher than your own" 403.

Definition guardRoleCeiling ctx (requested : str) : Svc unit :=
  if (roleRank (sub_Role (subjectFrom ctx)) <? roleRank requested)%nat
  then throw ceilingErr else ret tt.

Definition ListMembers ctx : Svc (list MemberDTO * list InvitationDTO) :=
  do! authorize s ctx ActionRead (mkTarget ResourceMember "") in
  let org := tc_OrgID (tenant s ctx) in
  let! rows := mapErr mapRepoErr (db (Store.ListMembers org)) in
  let! inv := attempt (db (Store.ListInvitations org)) in
  let invRows := match inv with inr l => l | inl _ => [] end in
  ret (map (fun m => mkMemberDTO (Store.m_UserID m) (Store.m_Email m) (Store.m_FullName m)
                       (Store.m_Role m) (Store.m_CreatedAt m)) rows,
       map (fun iv => mkInvitationDTO (inv_ID iv) (inv_Email iv) (inv_Role iv)
                        (inv_ExpiresAt iv)) invRows).

Definition seatErr : Error :=
  mkError "seat_limit_reached" "your plan's seat limit has been reached" 402.

(** Members plus pending invites must stay within the entitlement; a failed count
    counts as zero. *)
Definition seatGuard (org : str) : Svc unit :=
  let lim := ent_Limit (s_Ent s) ResourceSeats org in
  if lim_Unlimited lim then ret tt
  else
    let! m := attempt (db (Store.CountMembers org)) in
    let! iv := attempt (db (Store.ListInvitations org)) in
    let members := match m with inr n => n | inl _ => 0 end in
    let invites := match iv with inr l => length l | inl _ => 0 end in
    if (lim_Max lim <=? Z.of_nat (members + invites))%Z then throw seatErr else ret tt.

Definition InviteMember ctx (email role : str) : Svc InviteResult :=
  do! authorize s ctx ActionUpdate (mkTarget ResourceMember "") in
  guard! validEmail email else validationErr "invalid email address" in
  let role := if role =s "" then "member" else role in
  guard! validRoles role else validationErr "role must be owner, admin, member, or viewer" in
  do! guardRoleCeiling ctx role in
  let org := tc_OrgID (tenant s ctx) in
  do! seatGuard org in
  let! token := NewToken in
  let! t := now in
  let! id := mapErr mapRepoErr (db (Store.CreateInvitation org email role (HashToken token)
               (currentUserID ctx) (t + inviteTTL))) in
  let link := s_PublicBaseURL s ++ "/accept-invite?token=" ++ token in
  do! fx (FxInviteMail email link) in
  do! audit s ctx "member.invite" "invitation" id
        (Some [("email", JStr email); ("role", JStr role)]) in
  let! t2 := now in
  ret (mkInviteResult (mkInvitationDTO id email role (t2 + inviteTTL)) link).

Definition is_owner (m : Store.Member) : bool := Store.m_Role m =s "owner".

Definition lastOwnerErr : Error := conflictErr "cannot remove or demote the last owner".

(** The error of the read is dropped: no members are then seen. *)
Definition guardLastOwner (orgID userID : str) : Svc unit :=
  let! r := attempt (db (Store.ListMembers orgID)) in
  let members := match r with inr l => l | inl _ => [] end in
  let owners := where_ is_owner members in
  if (length owners <=? 1)%nat && exists_ (fun m => Store.m_UserID m =s userID) owners
  then throw lastOwnerErr else ret tt.

Definition ChangeMemberRole ctx (userID role : str) : Svc unit :=
  do! authorize s ctx ActionUpdate (mkTarget ResourceMember userID) in
  guard! validRoles role else validationErr "invalid role" in
  do! guardRoleCeiling ctx role in
  let org := tc_OrgID (tenant s ctx) in
  do! (if role =s "owner" then ret tt else guardLastOwner org userID) in
  do! mapErr mapRepoErr (db (Store.UpsertMember org userID role)) in
  audit s ctx "member.role_change" "user" userID (Some [("role", JStr role)]).

Definition RemoveMember ctx (userID : str) : Svc unit :=
  do! authorize s ctx ActionDelete (mkTarget ResourceMember userID) in
  let org := tc_OrgID (tenant s ctx) in
  do! guardLastOwner org userID in
  do! mapErr mapRepoErr (db (Store.RemoveMember org userID)) in
  audit s ctx "member.remove" "user" userID None.

(** ** auth.go *)

Definition newSession (u : User) : Svc AuthResult :=
  let! token := NewToken in
  let! csrf := NewToken in
  let! t := now in
  do! mapErr mapRepoErr (db (Store.CreateSession (u_ID u) (HashToken token) (t + SessionTTL))) in
  ret (mkAuthResult (userDTO u) token csrf).

(** [auth.HashPassword] *)
Definition HashPassword (pw : str) : Svc str :=
  fun w => (match env_hash_password (w_rand w) pw with
            | Some h => inr h
            | None => inl (mkError "internal_error" "auth: hash password" 500)
            end, set_w_rand (S (w_rand w)) w).

(** The user value the code builds without reading it back. *)
Definition session_user_of (id email fullName : str) (platformAdmin : bool) : User :=
  mkUser id email fullName "" platformAdmin false zero_time None.

Definition SetupInitialized : Svc bool :=
  let! n := mapErr mapRepoErr (db Store.CountUsers) in
  ret (0 <? n)%nat.

Definition CreateAdmin ctx (email password fullName : str) : Svc AuthResult :=
  let! n := mapErr mapRepoErr (db Store.CountUsers) in
  reject! (0 <? n)%nat
    with mkError "setup_already_complete" "an admin account already exists" 409 in
  guard! validEmail email else validationErr "invalid email address" in
  reject! (String.length password <? 8)%nat
    with validationErr "password must be at least 8 characters" in
  let! hash := HashPassword password in
  let! id := mapErr mapRepoErr (db (Store.CreateUser email fullName hash true)) in
  do! ignore (db (Store.UpsertMember (s_OrgID s) id "owner")) in
  do! ignore (db (Store.SetInstallStep "completed")) in
  do! audit s ctx "auth.create_admin" "user" id (Some [("email", JStr email)]) in
  newSession (session_user_of id email fullName true).

Definition Login (email password : str) : Svc AuthResult :=
  let! u := mapErr (fun _ => unauthorizedErr) (db (Store.GetUserByEmail email)) in
  guard! (match env_verify_password password (u_PasswordHash u) with
          | Some ok => ok
          | None => false
          end) else unauthorizedErr in
  guard! u_EmailVerified u
    else mkError "email_not_verified" "please verify your email before signing in" 403 in
  do! ignore (db (Store.TouchUserLogin (u_ID u))) in
  newSession u.

Definition Logout (token : str) : M (World B) DBErr unit :=
  if token =s "" then ret tt else db (Store.RevokeSessionByToken (HashToken token)).

Definition SessionUser (token : str) : M (World B) DBErr User :=
  db (Store.GetUserBySessionToken (HashToken token)).

Definition invalidInviteErr : Error :=
  mkError "invalid_invite" "invitation is invalid or expired" 400.

(** The user of an accepted invitation: the existing account, or a new one. *)
Definition invitedUser (iv : Invitation) (password fullName : str) : Svc str :=
  let! r := attempt (db (Store.GetUserByEmail (inv_Email iv))) in
  match r with
  | inr existing => ret (u_ID existing)
  | inl _ =>
      reject! (String.length password <? 8)%nat
        with validationErr "password must be at least 8 characters" in
      let! hash := HashPassword password in
      mapErr mapRepoErr (db (Store.CreateUser (inv_Email iv) fullName hash false))
  end.

Definition AcceptInvite ctx (token password fullName : str) : Svc AuthResult :=
  let! iv := mapErr (fun _ => invalidInviteErr) (db (Store.GetInvitationByToken (HashToken token))) in
  let! userID := invitedUser iv password fullName in
  do! mapErr mapRepoErr (db (Store.UpsertMember (inv_OrgID iv) userID (inv_Role iv))) in
  do! ignore (db (Store.MarkInvitationAccepted (inv_ID iv))) in
  do! audit s ctx "member.accept_invite" "user" userID
        (Some [("org_id", JStr (inv_OrgID iv)); ("role", JStr (inv_Role iv))]) in
  newSession (session_user_of userID (inv_Email iv) fullName false).

End Members.
End Members.
