(* ===== verification/MemberProofs.v ===== *)
(** Members and sessions: the last owner, the role ceiling, the seat limit,
    invitations and session tokens. *)
From S2P Require Import Prelude GoStrings Storage MemStore Database Repository AuditLog Service Frames Example Members.
#[local] Open Scope string_scope.

(** * The member list *)

Section Rows.
Implicit Types (d : DB) (org user : str).

Lemma member_rows_elem org d m :
  m ∈ Store.member_rows org d <->
  exists om u, om ∈ members d /\ om_OrgID om = org /\ u ∈ live (users d) /\
    u_ID u = om_UserID om /\
    m = Store.mkMember (u_ID u) (u_Email u) (u_FullName u) (om_Role om) (om_CreatedAt om).
Proof.
  unfold Store.member_rows. rewrite list_elem_of_bind. split.
  - intros (om & Hm & Hom). apply where_elem in Hom as [Hom Horg]. bool_prop.
    apply list_elem_of_bind in Hm as (u & Hm & Hu). apply where_elem in Hu as [Hu Hid].
    bool_prop. apply list_elem_of_singleton in Hm. by exists om, u.
  - intros (om & u & Hom & Horg & Hu & Hid & ->). exists om. split.
    + apply list_elem_of_bind. exists u. split; [by apply list_elem_of_singleton|].
      apply where_elem. split; [done|]. by apply eqb_true_str.
    + apply where_elem. split; [done|]. by apply eqb_true_str.
Qed.

Definition has_owner org d : Prop :=
  exists m, m ∈ Store.member_rows org d /\ Members.is_owner m = true.

(** A row survives when its membership does and the users are the same. *)
Lemma row_survives org d d' m :
  m ∈ Store.member_rows org d -> users d' = users d ->
  (forall om, om ∈ members d -> om_OrgID om = org -> om_UserID om = Store.m_UserID m ->
     om_Role om = Store.m_Role m -> exists om', om' ∈ members d' /\ om_OrgID om' = org /\
       om_UserID om' = om_UserID om /\ om_Role om' = om_Role om) ->
  exists m', m' ∈ Store.member_rows org d' /\ Store.m_UserID m' = Store.m_UserID m /\
    Store.m_Role m' = Store.m_Role m.
Proof.
  intros (om & u & Hom & Horg & Hu & Hid & ->)%member_rows_elem Husers Hkeep. cbn in Hkeep.
  destruct (Hkeep om Hom Horg (eq_sym Hid) eq_refl) as (om' & Hom' & Ho' & Hu' & Hr').
  eexists. split; [apply member_rows_elem; exists om', u; repeat split|].
  - done.
  - done.
  - by rewrite Husers.
  - congruence.
  - cbn. done.
Qed.

Lemma other_owner org d user :
  NoDup (map Store.m_UserID (Store.member_rows org d)) ->
  2 <= length (where_ Members.is_owner (Store.member_rows org d)) ->
  exists m, m ∈ Store.member_rows org d /\ Members.is_owner m = true /\ Store.m_UserID m <> user.
Proof.
  generalize (Store.member_rows org d). intros l Hnd Hlen.
  assert (NoDup (map Store.m_UserID (where_ Members.is_owner l))) as Hnd'.
  { by apply NoDup_map_where. }
  assert (forall m, m ∈ where_ Members.is_owner l -> m ∈ l /\ Members.is_owner m = true) as Hw
    by (intros m; apply where_elem).
  destruct (where_ Members.is_owner l) as [|a [|b t]]; cbn in Hlen; [lia|lia|].
  cbn in Hnd'. apply NoDup_cons in Hnd' as [Hab _].
  destruct (decide (Store.m_UserID a = user)) as [Ha|Ha].
  - exists b. destruct (Hw b) as [H1 H2]; [set_solver|]. split; [done|]. split; [done|].
    intros Hb. apply Hab. cbn. rewrite Ha, <- Hb. set_solver.
  - exists a. destruct (Hw a) as [H1 H2]; [set_solver|]. done.
Qed.
End Rows.

(** * The last owner *)

Inductive MemberOp := OpChangeRole (role : str) | OpRemove.

Section LastOwner.
Context {ENV : Env} {B : Type} (s : Services B).

Definition run_member_op (ctx : Ctx) (user : str) (op : MemberOp) : M (World B) Error unit :=
  match op with
  | OpChangeRole role => Members.ChangeMemberRole s ctx user role
  | OpRemove => Members.RemoveMember s ctx user
  end.

(** The guard compares the id as the request spells it; it can be trusted for an id in
    the database's spelling, or when two owners are there. *)
Definition guarded_id org (user : str) (d : DB) : Prop :=
  canonical user \/ 2 <= length (where_ Members.is_owner (Store.member_rows org d)).

(** Passing the guard means an owner other than the target is there. *)
Lemma guardLastOwner_passed org user (w : World B) w1 :
  env_fault (db_tick (w_db w)) = None ->
  Members.guardLastOwner org user w = (inr tt, w1) -> guarded_id org user (w_db w) ->
  NoDup (map Store.m_UserID (Store.member_rows org (w_db w))) -> has_owner org (w_db w) ->
  tables (w_db w1) = tables (w_db w) /\
  exists m, m ∈ Store.member_rows org (w_db w) /\ Members.is_owner m = true /\
    Store.m_UserID m <> env_as_uuid user.
Proof.
  intros Hok H Hid Hnd (m0 & Hm0 & Hown0).
  unfold Members.guardLastOwner, bind, attempt, db, zoom, Store.ListMembers, mapErr, query, stmt in H.
  cbv beta iota zeta in H. rewrite Hok in H. cbv beta iota in H.
  change (Store.member_rows org (set_db_tick (S (db_tick (w_db w))) (w_db w)))
    with (Store.member_rows org (w_db w)) in H.
  unfold guarded_id in Hid. set (rows := Store.member_rows org (w_db w)) in *.
  assert (Hperm : where_ Members.is_owner (asc Store.m_CreatedAt rows) ≡ₚ
                  where_ Members.is_owner rows).
  { apply where_perm, order_by_perm. }
  rewrite (Permutation_length Hperm) in H.
  destruct (length (where_ Members.is_owner rows) <=? 1)%nat eqn:El; cbn [andb] in H.
  - apply Nat.leb_le in El. destruct Hid as [Hcan|]; [|lia].
    destruct (exists_ _ _) eqn:Ex; [done|]. unfold ret in H. injection H as <-.
    split; [done|]. exists m0. split; [done|]. split; [done|]. rewrite Hcan. intros Heq.
    rewrite exists_false in Ex. specialize (Ex m0). rewrite Hperm, where_elem in Ex.
    specialize (Ex (conj Hm0 Hown0)). cbn in Ex. by rewrite Heq, eqb_refl_str in Ex.
  - unfold ret in H. injection H as <-. split; [done|]. apply Nat.leb_gt in El.
    by apply other_owner.
Qed.

Lemma RemoveMember_keeps org user d r d' m :
  Store.RemoveMember org user d = (r, d') -> m ∈ Store.member_rows org d ->
  Store.m_UserID m <> env_as_uuid user ->
  exists m', m' ∈ Store.member_rows org d' /\ Store.m_Role m' = Store.m_Role m.
Proof.
  intros H Hm Hne. unfold Store.RemoveMember in H.
  assert (users d' = users d /\
    (members d' = members d \/ members d' = del_rows (Store.is_member org (env_as_uuid user)) (members d)))
    as [Hu Hms].
  { destruct r as [e|u]; [apply stmt_inl in H as ->; auto|].
    apply exec_inr in H as ->. auto. }
  destruct (row_survives org d d' m Hm Hu) as (m' & H1 & _ & H2); [|eauto].
  intros om Hom Ho Hus Hr. exists om. split; [|done]. destruct Hms as [->| ->]; [done|].
  apply where_elem. split; [done|]. apply negb_true_iff. unfold Store.is_member.
  apply andb_false_iff. right. apply eqb_false_str. congruence.
Qed.

Lemma UpsertMember_inv org user role d r d' :
  Store.UpsertMember org user role d = (r, d') ->
  users d' = users d /\
  (members d' = members d \/
   (r = inr tt /\
    ((exists_ (Store.is_member org (env_as_uuid user)) (members d) = true /\
      members d' = upd_rows (Store.is_member org (env_as_uuid user)) (set_om_Role role) (members d)) \/
     (exists_ (Store.is_member org (env_as_uuid user)) (members d) = false /\
      exists t, members d' = (members d ++ [mkMembership org (env_as_uuid user) role t])%list)))).
Proof.
  intros H. unfold Store.UpsertMember in H. destruct r as [e|[]].
  - apply mapErr_inl in H as (e0 & H & _). apply stmt_inl in H as ->. auto.
  - apply mapErr_inr, insert_inr in H as [_ H]. cbv beta in H.
    destruct (exists_ _ _) eqn:E; injection H as <-; (split; [reflexivity|]); right;
      (split; [reflexivity|]); [left|right]; cbn; eauto.
Qed.

Lemma UpsertMember_keeps org user role d r d' m :
  Store.UpsertMember org user role d = (r, d') -> m ∈ Store.member_rows org d ->
  Store.m_UserID m <> env_as_uuid user \/ role = Store.m_Role m ->
  exists m', m' ∈ Store.member_rows org d' /\ Store.m_Role m' = Store.m_Role m.
Proof.
  intros [Hu Hms]%UpsertMember_inv Hm Hor.
  destruct (row_survives org d d' m Hm Hu) as (m' & H1 & _ & H2); [|eauto].
  intros om Hom Ho Hus Hr.
  destruct Hms as [->|(_ & [(_ & ->)|(_ & t & ->)])]; [by exists om| |exists om; set_solver].
  exists (if Store.is_member org (env_as_uuid user) om then set_om_Role role om else om). split.
  - apply list_elem_of_fmap. eauto.
  - destruct (Store.is_member org (env_as_uuid user) om) eqn:E; [|done]. cbn. split; [done|]. split; [done|].
    destruct Hor as [Hne| ->]; [|done]. unfold Store.is_member in E. bool_prop. congruence.
Qed.

Lemma has_owner_tables org d d' : tables d = tables d' -> has_owner org d -> has_owner org d'.
Proof.
  intros H. assert (Store.member_rows org d = Store.member_rows org d') as Heq.
  { unfold Store.member_rows.
    pose proof (f_equal members H) as H1. pose proof (f_equal users H) as H2. cbn in H1, H2.
    by rewrite H1, H2. }
  unfold has_owner. by rewrite Heq.
Qed.
Lemma has_owner_audit org ctx a t ti m (w : World B) r w' :
  audit s ctx a t ti m w = (r, w') -> has_owner org (w_db w) -> has_owner org (w_db w').
Proof.
  intros H (x & Hx & Ho). exists x. split; [|done].
  pose proof (view_audit s (fun d => (members d, users d)) _ _ _ _ _ _ _ _ H) as Hv.
  unfold view, same in Hv. unfold Store.member_rows in *.
  pose proof (f_equal fst Hv) as H1. pose proof (f_equal snd Hv) as H2. cbn in H1, H2.
  by rewrite <- H1, <- H2.
Qed.

(** A failed audit write is not an error of the operation. *)
Lemma audit_inr ctx a t ti m (w : World B) r w' : audit s ctx a t ti m w = (r, w') -> r = inr tt.
Proof.
  unfold audit, ignore, bind, attempt, fx, modify.
  destruct (ctx_subject ctx) as [sj|]; [destruct (sub_UserID sj =s "")|];
    destruct (db _ _); cbn; congruence.
Qed.

(** Steps that run no statement. *)
Lemma authorize_same ctx a t (w : World B) r w1 : authorize s ctx a t w = (r, w1) -> w1 = w.
Proof. unfold authorize. destruct (dec_Allowed _); intros H; unfold ret, throw in H; congruence. Qed.
Lemma ceiling_same ctx role (w : World B) r w1 :
  Members.guardRoleCeiling ctx role w = (r, w1) -> w1 = w.
Proof.
  unfold Members.guardRoleCeiling. destruct (_ <? _)%nat; intros H; unfold ret, throw in H; congruence.
Qed.
Lemma guard_tables org user (w : World B) r w1 :
  Members.guardLastOwner org user w = (r, w1) -> tables (w_db w1) = tables (w_db w).
Proof.
  intros H. symmetry. apply quiet_tables.
  assert (Guar quiet (Members.guardLastOwner (B := B) org user)) as Hq.
  { unfold Members.guardLastOwner, Store.ListMembers. quiet. }
  by eapply Hq.
Qed.

(** The write of either operation, once the guard passed. *)
Lemma write_keeps_owner org user role (w w1 : World B) r w' :
  (exists m, m ∈ Store.member_rows org (w_db w) /\ Members.is_owner m = true /\
     (Store.m_UserID m <> env_as_uuid user \/ role = "owner")) ->
  tables (w_db w1) = tables (w_db w) ->
  db (Store.UpsertMember org user role) w1 = (r, w') -> has_owner org (w_db w').
Proof.
  intros (m & Hm & Ho & Hor) Ht (d & H & ->)%db_inv. cbn.
  assert (m ∈ Store.member_rows org (w_db w1)) as Hm1.
  { unfold Store.member_rows in *. pose proof (f_equal members Ht) as H1.
    pose proof (f_equal users Ht) as H2. cbn in H1, H2. by rewrite H1, H2. }
  destruct (UpsertMember_keeps _ _ _ _ _ _ m H Hm1) as (m' & Hm' & Hr).
  - destruct Hor; [by left|right]. unfold Members.is_owner in Ho. bool_prop. congruence.
  - exists m'. split; [done|]. unfold Members.is_owner in *. by rewrite Hr.
Qed.

Lemma change_keeps_owner ctx user role (w : World B) r w' :
  env_fault (db_tick (w_db w)) = None ->
  NoDup (map Store.m_UserID (Store.member_rows (tc_OrgID (tenant s ctx)) (w_db w))) ->
  guarded_id (tc_OrgID (tenant s ctx)) user (w_db w) ->
  has_owner (tc_OrgID (tenant s ctx)) (w_db w) ->
  Members.ChangeMemberRole s ctx user role w = (r, w') ->
  has_owner (tc_OrgID (tenant s ctx)) (w_db w').
Proof.
  set (org := tc_OrgID (tenant s ctx)). intros Hok Hnd Hid Hown H.
  unfold Members.ChangeMemberRole in H. fold org in H.
  rewrite bind_run in H. destruct (authorize s ctx _ _ w) as [[e|u] w1] eqn:E1;
    apply authorize_same in E1 as ->; [by simplify_eq|].
  rewrite bind_run in H. destruct (Members.validRoles role); [|unfold throw in H; by simplify_eq].
  cbn [ret] in H. rewrite bind_run in H.
  destruct (Members.guardRoleCeiling ctx role w) as [[e|u2] w2] eqn:E2;
    apply ceiling_same in E2 as ->; [by simplify_eq|].
  rewrite bind_run in H.
  destruct ((if role =s "owner" then ret tt else Members.guardLastOwner org user) w)
    as [[e|[]] w3] eqn:E3.
  { simplify_eq. destruct (role =s "owner"); [done|].
    eapply has_owner_tables; [symmetry; by eapply guard_tables|done]. }
  assert (tables (w_db w3) = tables (w_db w) /\
    exists m, m ∈ Store.member_rows org (w_db w) /\ Members.is_owner m = true /\
      (Store.m_UserID m <> env_as_uuid user \/ role = "owner")) as [Ht Hm].
  { destruct (role =s "owner") eqn:Er.
    - unfold ret in E3. injection E3 as <-. split; [done|]. bool_prop.
      destruct Hown as (m & H1 & H2). exists m. auto.
    - destruct (guardLastOwner_passed org user w w3 Hok E3 Hid Hnd Hown) as (Ht & m & H1 & H2 & H3).
      split; [done|]. exists m. auto. }
  rewrite bind_run in H. unfold mapErr in H.
  destruct (db (Store.UpsertMember org user role) w3) as [[e|u4] w4] eqn:E4;
    pose proof (write_keeps_owner _ _ _ _ _ _ _ Hm Ht E4) as Ho4; [by simplify_eq|].
  by eapply has_owner_audit.
Qed.

Lemma remove_keeps_owner ctx user (w : World B) r w' :
  env_fault (db_tick (w_db w)) = None ->
  NoDup (map Store.m_UserID (Store.member_rows (tc_OrgID (tenant s ctx)) (w_db w))) ->
  guarded_id (tc_OrgID (tenant s ctx)) user (w_db w) ->
  has_owner (tc_OrgID (tenant s ctx)) (w_db w) ->
  Members.RemoveMember s ctx user w = (r, w') ->
  has_owner (tc_OrgID (tenant s ctx)) (w_db w').
Proof.
  set (org := tc_OrgID (tenant s ctx)). intros Hok Hnd Hid Hown H.
  unfold Members.RemoveMember in H. fold org in H.
  rewrite bind_run in H. destruct (authorize s ctx _ _ w) as [[e|u] w1] eqn:E1;
    apply authorize_same in E1 as ->; [by simplify_eq|].
  rewrite bind_run in H.
  destruct (Members.guardLastOwner org user w) as [[e|[]] w2] eqn:E2.
  { simplify_eq. eapply has_owner_tables; [symmetry; by eapply guard_tables|done]. }
  destruct (guardLastOwner_passed org user w w2 Hok E2 Hid Hnd Hown) as (Ht & m & H1 & H2 & H3).
  rewrite bind_run in H. unfold mapErr in H.
  destruct (db (Store.RemoveMember org user) w2) as [r3 w3] eqn:E3.
  assert (has_owner org (w_db w3)) as Ho3.
  { apply db_inv in E3 as (d & Hd & ->). cbn.
    assert (m ∈ Store.member_rows org (w_db w2)) as Hm1.
    { unfold Store.member_rows in *. pose proof (f_equal members Ht) as Ha.
      pose proof (f_equal users Ht) as Hb. cbn in Ha, Hb. by rewrite Ha, Hb. }
    destruct (RemoveMember_keeps _ _ _ _ _ m Hd Hm1 H3) as (m' & Hm' & Hr).
    exists m'. split; [done|]. unfold Members.is_owner in *. by rewrite Hr. }
  destruct r3 as [e|u3]; [by simplify_eq|]. by eapply has_owner_audit.
Qed.

(** C12: an organization keeps an owner.  When the guard's read of the member list
    succeeds, the list has each user once (the table's primary key), and the request
    names the user by the id the database spells (or two owners are there), neither a role change nor a removal, whatever its outcome, leaves an org
    without a live owner.  The guard compares ids as texts and the statements compare
    uuids: [last_owner_removed_in_upper_case] is what another spelling does. *)
Theorem last_owner_kept ctx user op (w : World B) r w'
    (Hread : env_fault (db_tick (w_db w)) = None)
    (Honce : NoDup (map Store.m_UserID (Store.member_rows (tc_OrgID (tenant s ctx)) (w_db w))))
    (Hspelling : guarded_id (tc_OrgID (tenant s ctx)) user (w_db w))
    (Howner : has_owner (tc_OrgID (tenant s ctx)) (w_db w))
    (Hrun : run_member_op ctx user op w = (r, w')) :
  has_owner (tc_OrgID (tenant s ctx)) (w_db w').
Proof.
  destruct op; [by eapply change_keeps_owner|by eapply remove_keeps_owner].
Qed.

(** No escalation.  A member whose role was changed never gets a role above
    the acting user's, other memberships are untouched, and on failure nothing
    changes. *)
Theorem ChangeMemberRole_ceiling ctx user role (w : World B) r w'
    (Hrun : Members.ChangeMemberRole s ctx user role w = (r, w')) :
  match r with
  | inl _ => members (w_db w') = members (w_db w)
  | inr _ =>
      Members.roleRank role <= Members.roleRank (sub_Role (subjectFrom ctx)) /\
      Members.validRoles role = true /\
      (exists om, om ∈ members (w_db w') /\
         Store.is_member (tc_OrgID (tenant s ctx)) (env_as_uuid user) om = true) /\
      forall om, om ∈ members (w_db w') ->
        if Store.is_member (tc_OrgID (tenant s ctx)) (env_as_uuid user) om then om_Role om = role
        else om ∈ members (w_db w)
  end.
Proof.
  set (org := tc_OrgID (tenant s ctx)). unfold Members.ChangeMemberRole in Hrun. fold org in Hrun.
  rewrite bind_run in Hrun. destruct (authorize s ctx _ _ w) as [[e|u] w1] eqn:E1;
    apply authorize_same in E1 as ->; [by simplify_eq|].
  rewrite bind_run in Hrun. destruct (Members.validRoles role) eqn:Ev;
    [|unfold throw in Hrun; by simplify_eq].
  cbn [ret] in Hrun. rewrite bind_run in Hrun. unfold Members.guardRoleCeiling in Hrun.
  destruct (_ <? _)%nat eqn:Er in Hrun; [unfold throw in Hrun; by simplify_eq|].
  apply Nat.ltb_ge in Er. cbn [ret] in Hrun. rewrite bind_run in Hrun.
  destruct ((if role =s "owner" then ret tt else Members.guardLastOwner org user) w)
    as [g w3] eqn:E3.
  assert (members (w_db w3) = members (w_db w)) as Hm3.
  { destruct (role =s "owner"); [unfold ret in E3; by simplify_eq|].
    by apply guard_tables, (f_equal members) in E3. }
  destruct g as [e|[]]; [by simplify_eq|].
  rewrite bind_run in Hrun. unfold mapErr in Hrun.
  destruct (db (Store.UpsertMember org user role) w3) as [r4 w4] eqn:E4.
  apply db_inv in E4 as (d & E4 & ->). apply UpsertMember_inv in E4 as E5.
  destruct E5 as [_ Hms]. destruct r4 as [e|[]].
  { simplify_eq. destruct Hms as [Hms|(? & _)]; [|done]. cbn. congruence. }
  destruct r as [e|[]].
  { by apply audit_inr in Hrun. }
  pose proof (view_audit s members _ _ _ _ _ _ _ _ Hrun) as Hv. unfold view, same in Hv.
  rewrite <- Hv. cbn. split; [done|]. split; [done|].
  unfold Store.UpsertMember in E4. apply mapErr_inr, insert_inr in E4 as [_ E4]. cbv beta in E4.
  cbn [members set_db_tick] in E4. rewrite <- Hm3.
  destruct (exists_ _ _) eqn:Ex; injection E4 as <-; cbn.
  - split.
    + apply exists_spec in Ex as (om & Hom & Hp). exists (set_om_Role role om).
      split; [|done]. apply list_elem_of_fmap. exists om. by rewrite Hp.
    + intros om (om0 & -> & Hom)%list_elem_of_fmap.
      destruct (Store.is_member org (env_as_uuid user) om0) eqn:E0; [|by rewrite E0].
      assert (Store.is_member org (env_as_uuid user) (set_om_Role role om0) = true) as -> by exact E0. done.
  - split.
    + eexists. split; [apply elem_of_app; right; apply list_elem_of_singleton; reflexivity|].
      unfold Store.is_member. cbn. by rewrite !eqb_refl_str.
    + intros om [Hom|Hom]%elem_of_app.
      * rewrite exists_false in Ex. by rewrite (Ex om Hom).
      * apply list_elem_of_singleton in Hom as ->. unfold Store.is_member. cbn.
        by rewrite !eqb_refl_str.
Qed.
End LastOwner.

(** * Invitations *)

Section Invitations.
Context {ENV : Env} {B : Type} (s : Services B).

Lemma NewToken_inr (w : World B) t w1 :
  NewToken w = (inr t, w1) -> w1 = set_w_rand (S (w_rand w)) w /\ env_token (w_rand w) = Some t.
Proof.
  unfold NewToken. intros H. injection H as H <-. split; [done|].
  destruct (env_token _); by simplify_eq.
Qed.

(** What the seat guard saw when it let the request through. *)
Lemma seatGuard_passed org (w : World B) r w1
    (H1 : env_fault (db_tick (w_db w)) = None)
    (H2 : env_fault (S (db_tick (w_db w))) = None) :
  Members.seatGuard s org w = (r, w1) ->
  tables (w_db w1) = tables (w_db w) /\
  (r = inr tt -> let lim := ent_Limit (s_Ent s) ResourceSeats org in
   lim_Unlimited lim = true \/
   (Z.of_nat (length (where_ (fun m => om_OrgID m =s org) (members (w_db w))) +
      length (where_ (fun iv => (inv_OrgID iv =s org) &&
                Store.pending (env_now (S (db_tick (w_db w)))) iv) (invitations (w_db w))))
    < lim_Max lim)%Z).
Proof.
  unfold Members.seatGuard. destruct (lim_Unlimited _).
  { intros H. unfold ret in H. injection H as <- <-. auto. }
  unfold bind, attempt, db, zoom, Store.CountMembers, Store.ListInvitations, mapErr, query, stmt.
  cbv beta iota zeta. rewrite H1. cbv beta iota zeta.
  cbn [w_db set_w_db db_tick set_db_tick]. rewrite H2. cbv beta iota zeta.
  cbn [members invitations set_db_tick].
  unfold desc. rewrite (Permutation_length (order_by_perm _ _)).
  destruct (_ <=? _)%Z eqn:El; intros H; [unfold throw in H|unfold ret in H];
    injection H as <- <-; (split; [reflexivity|]); intros Hr; [discriminate Hr|].
  right. bool_prop. lia.
Qed.

Lemma CreateInvitation_inv org email role th by_ exp d r d' :
  Store.CreateInvitation org email role th by_ exp d = (r, d') ->
  (forall n iv, r = inr n -> iv ∈ invitations d -> inv_TokenHash iv <> th) /\
  match r with
  | inl _ => invitations d' = invitations d
  | inr id => exists t, invitations d' =
      (invitations d ++ [mkInvitation id org email role th by_ exp None t])%list
  end.
Proof.
  unfold Store.CreateInvitation. intros H. destruct r as [e|id].
  - apply mapErr_inl in H as (e0 & H & _). apply stmt_inl in H as ->. done.
  - apply mapErr_inr, insert_inr in H as [Hok H]. cbv beta in H.
    injection H as <- <-. split; [|eexists; reflexivity].
    intros _ iv _ Hiv Heq. apply andb_true_iff in Hok as [_ Hok]. apply negb_true_iff in Hok.
    unfold Store.has_id in Hok. rewrite exists_false in Hok. specialize (Hok iv Hiv).
    cbv beta in Hok. apply eqb_false_str in Hok. done.
Qed.

(** Invitations respect the plan and the ceiling.  When the two counts can
    be read, a successful invitation adds exactly one row, with a valid role not
    above the inviting member's and a token no other invitation has, and members
    plus pending invitations were below the seat limit; a refused one changes
    no invitation. *)
Theorem InviteMember_within_limits ctx email role (w : World B) r w'
    (Hcount : env_fault (db_tick (w_db w)) = None)
    (Hlist : env_fault (S (db_tick (w_db w))) = None)
    (Hrun : Members.InviteMember s ctx email role w = (r, w')) :
  let org := tc_OrgID (tenant s ctx) in
  let role' := if role =s "" then "member" else role in
  let lim := ent_Limit (s_Ent s) ResourceSeats org in
  match r with
  | inl _ => invitations (w_db w') = invitations (w_db w)
  | inr res =>
      Members.validRoles role' = true /\
      Members.roleRank role' <= Members.roleRank (sub_Role (subjectFrom ctx)) /\
      (lim_Unlimited lim = true \/
       (Z.of_nat (length (where_ (fun m => om_OrgID m =s org) (members (w_db w))) +
          length (where_ (fun iv => (inv_OrgID iv =s org) &&
                    Store.pending (env_now (S (db_tick (w_db w)))) iv) (invitations (w_db w))))
        < lim_Max lim)%Z) /\
      exists iv, invitations (w_db w') = (invitations (w_db w) ++ [iv])%list /\
        inv_ID iv = Members.ivd_ID (Members.ir_Invitation res) /\
        inv_OrgID iv = org /\ inv_Email iv = email /\ inv_Role iv = role' /\
        forall iv0, iv0 ∈ invitations (w_db w) -> inv_TokenHash iv0 <> inv_TokenHash iv
  end.
Proof.
  cbv zeta. set (org := tc_OrgID (tenant s ctx)).
  set (role' := if role =s "" then "member" else role).
  unfold Members.InviteMember in Hrun. fold org role' in Hrun. cbv zeta in Hrun.
  rewrite bind_run in Hrun. destruct (authorize s ctx _ _ w) as [[e|u] w1] eqn:E1;
    apply authorize_same in E1 as ->; [by simplify_eq|].
  rewrite bind_run in Hrun. destruct (validEmail email); [|unfold throw in Hrun; by simplify_eq].
  cbn [ret] in Hrun. rewrite bind_run in Hrun. destruct (Members.validRoles role') eqn:Ev;
    [|unfold throw in Hrun; by simplify_eq].
  cbn [ret] in Hrun. rewrite bind_run in Hrun. unfold Members.guardRoleCeiling in Hrun.
  destruct (_ <? _)%nat eqn:Er in Hrun; [unfold throw in Hrun; by simplify_eq|].
  apply Nat.ltb_ge in Er. cbn [ret] in Hrun. rewrite bind_run in Hrun.
  destruct (Members.seatGuard s org w) as [g w2] eqn:E2.
  apply seatGuard_passed in E2 as [Ht2 Hseat]; [|done|done].
  pose proof (f_equal invitations Ht2) as Hi2. cbn in Hi2.
  destruct g as [e|[]]; [by simplify_eq|]. specialize (Hseat eq_refl).
  rewrite bind_run in Hrun. destruct (NewToken w2) as [[e|tok] w3] eqn:E3.
  { pose proof (view_NewToken invitations _ _ _ E3) as Hv. unfold view, same in Hv.
    simplify_eq. congruence. }
  apply NewToken_inr in E3 as [-> _].
  rewrite bind_run in Hrun. unfold now in Hrun at 1.
  rewrite bind_run in Hrun. unfold mapErr in Hrun.
  destruct (db _ (set_w_rand _ w2)) as [r4 w4] eqn:E4.
  apply db_inv in E4 as (d & E4 & ->). apply CreateInvitation_inv in E4 as [Hfresh Hins].
  destruct r4 as [e|id]; [simplify_eq; cbn in *; congruence|].
  destruct Hins as (t & Hins).
  assert (exists res, r = inr res /\ Members.ivd_ID (Members.ir_Invitation res) = id /\
    invitations (w_db w') = invitations d) as (res & -> & Hid & Hend).
  { rewrite bind_run in Hrun. cbn [fx modify] in Hrun. rewrite bind_run in Hrun.
    destruct (audit s ctx _ _ _ _ _) as [r5 w5] eqn:E5.
    pose proof (view_audit s invitations _ _ _ _ _ _ _ _ E5) as Hv. unfold view, same in Hv.
    cbn in Hv. destruct r5 as [e|u5].
    - by apply audit_inr in E5.
    - unfold bind, now, ret in Hrun. injection Hrun as <- <-. eauto. }
  split; [done|]. split; [done|]. split; [done|].
  eexists. split; [rewrite Hend, Hins; cbn; rewrite Hi2; reflexivity|].
  cbn. split; [done|]. split; [done|]. split; [done|]. split; [done|].
  intros iv0 Hiv0. apply (Hfresh id); [done|]. cbn. by rewrite Hi2.
Qed.

Lemma MarkInvitationAccepted_inv id d r d' :
  reliable -> Store.MarkInvitationAccepted id d = (r, d') ->
  exists t, invitations d' =
    upd_rows (fun iv => inv_ID iv =s id) (set_inv_AcceptedAt (Some t)) (invitations d).
Proof.
  intros Hok. unfold Store.MarkInvitationAccepted, exec, stmt. rewrite Hok. intros H.
  injection H as <- <-. eexists. reflexivity.
Qed.


(** Statements on other tables leave the invitations. *)
Ltac writes_elsewhere :=
  apply view_db; repeat guar_step;
  (apply guar_insert || apply guar_exec); [typeclasses eauto|reflexivity|];
  intros; repeat case_match; simplify_eq; reflexivity.
Lemma view_invitedUser iv pw name : Guar (view invitations) (Members.invitedUser (B := B) iv pw name).
Proof.
  unfold Members.invitedUser, Store.GetUserByEmail, Members.HashPassword, Store.CreateUser. frames.
  - intros w r w' H. by simplify_eq.
  - writes_elsewhere.
Qed.
Lemma view_newSession_invitations u : Guar (view invitations) (Members.newSession (B := B) u).
Proof. unfold Members.newSession, Store.CreateSession. frames. writes_elsewhere. Qed.

(** What an accepted invitation leaves in the table. *)
Lemma AcceptInvite_marks ctx token pw name (w : World B) a w' :
  reliable -> Members.AcceptInvite s ctx token pw name w = (inr a, w') ->
  exists iv t, iv ∈ invitations (w_db w) /\ inv_TokenHash iv = HashToken token /\
    invitations (w_db w') = upd_rows (fun iv' => inv_ID iv' =s inv_ID iv)
      (set_inv_AcceptedAt (Some t)) (invitations (w_db w)).
Proof.
  intros Hok H. unfold Members.AcceptInvite in H.
  apply bind_inr in H as (iv & w1 & H1 & H). apply mapErr_inr, db_inv in H1 as (d1 & H1 & ->).
  unfold Store.GetInvitationByToken in H1. apply mapErr_inr, query_row_inr in H1 as [-> Hiv].
  cbv beta in Hiv. apply head_elem, where_elem in Hiv as [Hiv Hp]. cbn in Hiv.
  apply andb_true_iff in Hp as [Hh _]. apply eqb_true_str in Hh.
  apply bind_inr in H as (u & w2 & H2 & H). apply view_invitedUser in H2.
  apply bind_inr in H as ([] & w3 & H3 & H). apply mapErr_inr in H3.
  assert (view invitations w2 w3) as H3'.
  { revert H3. generalize w2 (inr (A := DBErr) tt) w3.
    change (Guar (view (B := B) invitations)
              (db (Store.UpsertMember (inv_OrgID iv) u (inv_Role iv)))).
    unfold Store.UpsertMember. writes_elsewhere. }
  apply bind_inr in H as ([] & w4 & H4 & H).
  assert (exists r, db (Store.MarkInvitationAccepted (inv_ID iv)) w3 = (r, w4)) as [r4 H4'].
  { unfold ignore, bind, attempt in H4. destruct (db _ w3) as [r4 w4']. unfold ret in H4.
    simplify_eq. eauto. }
  apply db_inv in H4' as (d4 & H4' & ->). apply MarkInvitationAccepted_inv in H4' as [t Ht]; [|done].
  apply bind_inr in H as ([] & w5 & H5 & H). apply (view_audit s invitations) in H5.
  apply view_newSession_invitations in H.
  exists iv, t. split; [done|]. split; [done|].
  unfold view, same in *. cbn in *. by rewrite <- H, <- H5, Ht, <- H3', <- H2.
Qed.

(** An invitation is accepted once.  After a successful acceptance, with the
    database answering, the same token is refused in every later state whose
    invitations are those: with the error of an unknown token, and without any
    effect. *)
Theorem invitation_single_use ctx token pw name (w : World B) a w' ctx2 pw2 name2 w2 r w2'
    (Hok : reliable)
    (Huniq : NoDup (map inv_TokenHash (invitations (w_db w))))
    (Haccept : Members.AcceptInvite s ctx token pw name w = (inr a, w'))
    (Hlater : invitations (w_db w2) = invitations (w_db w'))
    (Hagain : Members.AcceptInvite s ctx2 token pw2 name2 w2 = (r, w2')) :
  r = inl Members.invalidInviteErr /\ quiet w2 w2'.
Proof.
  apply AcceptInvite_marks in Haccept as (iv & t & Hin & Hh & Hinv); [|done].
  unfold Members.AcceptInvite in Hagain. rewrite bind_run in Hagain. unfold mapErr at 1 in Hagain.
  destruct (db (Store.GetInvitationByToken _) w2) as [r1 w1] eqn:E1.
  assert (quiet w2 w1) as Hq.
  { revert E1. generalize w2 r1 w1. change (Guar (quiet (B := B))
      (db (Store.GetInvitationByToken (HashToken token)))).
    unfold Store.GetInvitationByToken. quiet. }
  apply db_inv in E1 as (d1 & E1 & ->). destruct r1 as [e|iv2]; [by simplify_eq|]. exfalso.
  unfold Store.GetInvitationByToken in E1. apply mapErr_inr, query_row_inr in E1 as [-> E1].
  cbv beta in E1. apply head_elem, where_elem in E1 as [E1 Hp]. cbn in E1.
  rewrite Hlater, Hinv in E1. apply list_elem_of_fmap in E1 as (iv0 & -> & Hin0).
  apply andb_true_iff in Hp as [Hh0 Hp]. apply eqb_true_str in Hh0.
  assert (iv0 = iv) as ->.
  { apply (NoDup_map_eq inv_TokenHash (invitations (w_db w))); [done..|].
    rewrite Hh, <- Hh0. by destruct (_ =s _). }
  rewrite eqb_refl_str in Hp. unfold Store.pending in Hp. cbn in Hp. done.
Qed.

(** * Sessions *)

Lemma TouchUserLogin_users id d r d' :
  Store.TouchUserLogin id d = (r, d') ->
  sessions d' = sessions d /\ map u_ID (live (users d')) = map u_ID (live (users d)).
Proof.
  unfold Store.TouchUserLogin. intros H. destruct r as [e|[]].
  - apply stmt_inl in H as ->. done.
  - apply exec_inr in H as ->. split; [done|]. cbn. unfold live.
    induction (users d) as [|[u dl] l IH]; [done|]. cbn.
    destruct (u_ID u =s id); cbn; destruct dl; cbn; by rewrite ?IH.
Qed.

Lemma newSession_inv u (w : World B) a w' :
  Members.newSession u w = (inr a, w') ->
  users (w_db w') = users (w_db w) /\ Members.ar_User a = Members.userDTO u /\
  Store.has_id ses_TokenHash (HashToken (Members.ar_SessionToken a)) (sessions (w_db w)) = false /\
  exists sid, sessions (w_db w') = (sessions (w_db w) ++
    [mkSession sid (u_ID u) (HashToken (Members.ar_SessionToken a))
       (env_now (db_tick (w_db w)) + Members.SessionTTL) None])%list.
Proof.
  unfold Members.newSession. intros H.
  apply bind_inr in H as (tok & w1 & H1 & H). apply NewToken_inr in H1 as [-> _].
  apply bind_inr in H as (csrf & w2 & H2 & H). apply NewToken_inr in H2 as [-> _].
  apply bind_inr in H as (t & w3 & H3 & H). unfold now in H3. injection H3 as <- <-.
  apply bind_inr in H as (sid & w4 & H4 & H). unfold ret in H. injection H as <- <-.
  apply mapErr_inr, db_inv in H4 as (d & H4 & ->). unfold Store.CreateSession in H4.
  apply mapErr_inr, insert_inr in H4 as [Hok H4]. cbv beta in H4. injection H4 as <- <-.
  apply andb_true_iff in Hok as [_ Hok]. apply negb_true_iff in Hok.
  split; [done|]. split; [done|]. split; [exact Hok|]. eexists. reflexivity.
Qed.

Lemma session_user_new t h d d' uid sid exp :
  Store.has_id ses_TokenHash h (sessions d) = false ->
  sessions d' = (sessions d ++ [mkSession sid uid h exp None])%list ->
  uid ∈ map u_ID (live (users d')) -> (t < exp)%Z ->
  u_ID <$> Store.session_user t h d' = Some uid.
Proof.
  intros Hnew Hs Hu Ht. unfold Store.session_user. rewrite Hs, where_app.
  rewrite where_false; cbn.
  - rewrite eqb_refl_str. unfold Store.session_live. cbn. apply Z.ltb_lt in Ht as ->. cbn.
    rewrite app_nil_r. apply list_elem_of_fmap in Hu as (u & -> & Hu).
    destruct (head _) as [u'|] eqn:E.
    + apply head_elem, where_elem in E as [_ E]. apply eqb_true_str in E. cbn. by rewrite E.
    + destruct (where_ _ _) eqn:E2; [|done]. exfalso.
      assert (u ∈ where_ (fun x => u_ID x =s u_ID u) (live (users d'))) as Hin
        by (apply where_elem; by rewrite eqb_refl_str).
      rewrite E2 in Hin. set_solver.
  - intros s0 Hs0. unfold Store.has_id in Hnew. rewrite exists_false in Hnew.
    specialize (Hnew s0 Hs0). cbv beta in Hnew. by rewrite Hnew.
Qed.

(** What a successful sign-in went through, up to the session. *)
Lemma Login_steps email password (w : World B) a w' :
  Members.Login email password w = (inr a, w') ->
  exists u w4,
    u ∈ live (users (w_db w)) /\ ToLower (u_Email u) = ToLower email /\
    env_verify_password password (u_PasswordHash u) = Some true /\ u_EmailVerified u = true /\
    sessions (w_db w4) = sessions (w_db w) /\
    map u_ID (live (users (w_db w4))) = map u_ID (live (users (w_db w))) /\
    Members.newSession u w4 = (inr a, w').
Proof.
  unfold Members.Login. intros Hrun.
  apply bind_inr in Hrun as (u & w1 & H1 & H). apply mapErr_inr, db_inv in H1 as (d1 & H1 & ->).
  unfold Store.GetUserByEmail in H1. apply mapErr_inr, query_row_inr in H1 as [-> Hu].
  apply head_elem, where_elem in Hu as [Hu He]. cbn in Hu. apply eqb_true_str in He.
  apply bind_inr in H as ([] & w2 & H2 & H).
  destruct (env_verify_password password (u_PasswordHash u)) as [[]|] eqn:Ev; try done.
  unfold ret in H2. injection H2 as <-.
  apply bind_inr in H as ([] & w3 & H3 & H). destruct (u_EmailVerified u) eqn:Evf; [|done].
  unfold ret in H3. injection H3 as <-.
  apply bind_inr in H as ([] & w4 & H4 & H).
  unfold ignore, bind, attempt in H4. destruct (db _ _) as [r4 w4'] eqn:E4.
  unfold ret in H4. injection H4 as ->. apply db_inv in E4 as (d4 & E4 & ->).
  apply TouchUserLogin_users in E4 as [Hs4 Hu4]. eexists u, _.
  do 4 (split; [done|]). split; [|split; [|exact H]]; done.
Qed.

(** Sign-in is sound and gives a working session.  A successful login was
    made with the password of a live, verified account of that address; it adds
    one session, and the token it returns names that user until seven days
    later. *)
Theorem Login_session email password (w : World B) a w'
    (Hrun : Members.Login email password w = (inr a, w')) :
  exists u k,
    u ∈ live (users (w_db w)) /\ ToLower (u_Email u) = ToLower email /\
    env_verify_password password (u_PasswordHash u) = Some true /\ u_EmailVerified u = true /\
    Members.ar_User a = Members.userDTO u /\
    length (sessions (w_db w')) = S (length (sessions (w_db w))) /\
    forall t, (t < env_now k + Members.SessionTTL)%Z ->
      u_ID <$> Store.session_user t (HashToken (Members.ar_SessionToken a)) (w_db w') =
      Some (u_ID u).
Proof.
  apply Login_steps in Hrun as (u & w4 & Hu & He & Ev & Evf & Hs4 & Hu4 & H).
  apply newSession_inv in H as (Hu5 & Ha & Hnew & sid & Hs5).
  exists u, (db_tick (w_db w4)).
  split; [done|]. split; [done|]. split; [done|]. split; [done|]. split; [done|]. split.
  - rewrite Hs5, length_app, Hs4. cbn. lia.
  - intros t Ht. eapply session_user_new; [exact Hnew|exact Hs5| |exact Ht].
    rewrite Hu5, Hu4. apply list_elem_of_fmap. eauto.
Qed.

Lemma session_where_revoked now h h0 f l :
  h <> h0 -> (forall x, ses_TokenHash (f x) = ses_TokenHash x) ->
  where_ (fun s => (ses_TokenHash s =s h) && Store.session_live now s)
    (upd_rows (fun s => ses_TokenHash s =s h0) f l) =
  where_ (fun s => (ses_TokenHash s =s h) && Store.session_live now s) l.
Proof.
  intros Hne Hf. unfold upd_rows. induction l as [|x l IH]; [done|]. cbn.
  destruct (ses_TokenHash x =s h0) eqn:E; cbn; rewrite IH; [|done].
  apply eqb_true_str in E. rewrite Hf, E.
  assert ((h0 =s h) = false) as -> by (apply eqb_false_str; congruence). done.
Qed.

(** Logging out ends the session and no other.  After it, in every state
    with these sessions, the token names nobody; every other token names whom it
    named before. *)
Theorem Logout_ends_session token (w w' w2 : World B) r w3
    (Htoken : token <> "")
    (Hrun : Members.Logout token w = (inr tt, w'))
    (Hlater : sessions (w_db w2) = sessions (w_db w'))
    (Huse : Members.SessionUser token w2 = (r, w3)) :
  failed r = true /\
  forall t h, h <> HashToken token ->
    Store.session_user t h (w_db w') = Store.session_user t h (w_db w).
Proof.
  unfold Members.Logout in Hrun. apply eqb_false_str in Htoken. rewrite Htoken in Hrun.
  apply db_inv in Hrun as (d & Hrun & ->). unfold Store.RevokeSessionByToken in Hrun.
  apply exec_inr in Hrun as ->. cbn in Hlater. split.
  - apply db_inv in Huse as (d2 & Huse & _). destruct r as [e|u]; [done|]. exfalso.
    unfold Store.GetUserBySessionToken in Huse.
    apply mapErr_inr, query_row_inr in Huse as [_ Hu].
    destruct (Store.session_user _ _ _) as [x|] eqn:E; [|done].
    apply head_elem, list_elem_of_bind in E as (se & _ & Hse).
    apply where_elem in Hse as [Hse Hp]. cbn in Hse. rewrite Hlater in Hse.
    apply list_elem_of_fmap in Hse as (se0 & -> & _).
    apply andb_true_iff in Hp as [Hh Hp]. apply eqb_true_str in Hh.
    destruct (ses_TokenHash se0 =s HashToken token) eqn:E0; [done|].
    apply eqb_false_str in E0. done.
  - intros t h Hne. unfold Store.session_user.
    cbn [sessions users set_sessions set_db_tick w_db set_w_db].
    rewrite session_where_revoked; [done|done|by intros []].
Qed.
End Invitations.

(** * Where the rules end *)

(** The guard on the last owner trusts a failed read.  If the member list
    cannot be read, the guard sees no members at all, and the only owner of o1 is
    removed. *)
Theorem last_owner_removed_on_failed_read :
  let out := @Members.RemoveMember (example_env Postgres (fault_at 0)) _ ex_services ctx_alice
               "alice" ex_world in
  fst out = inr tt /\ Store.member_rows "o1" ex_db <> [] /\
  where_ Members.is_owner (Store.member_rows "o1" ex_db) <> [] /\
  where_ Members.is_owner (Store.member_rows "o1" (w_db (snd out))) = [].
Proof. by_eval. Qed.

(** The guard on the last owner trusts the spelling of the id.  On a database that reads
    an upper-case id as the uuid it spells, DELETE /members/ALICE and a role change of
    ALICE pass the guard and take away the only owner of o1. *)
Theorem last_owner_removed_in_upper_case :
  let remove := @Members.RemoveMember spelling_env _ ex_services ctx_alice "ALICE" ex_world in
  let demote := @Members.ChangeMemberRole spelling_env _ ex_services ctx_alice "ALICE" "viewer" ex_world in
  fst (@Members.RemoveMember spelling_env _ ex_services ctx_alice "alice" ex_world)
    = inl Members.lastOwnerErr /\
  fst remove = inr tt /\ fst demote = inr tt /\
  where_ Members.is_owner (Store.member_rows "o1" ex_db) <> [] /\
  where_ Members.is_owner (Store.member_rows "o1" (w_db (snd remove))) = [] /\
  where_ Members.is_owner (Store.member_rows "o1" (w_db (snd demote))) = [].
Proof. by_eval. Qed.

Definition invite_row (email role token : str) : Invitation :=
  mkInvitation "inv1" "o1" email role (HashToken token) "alice" (10 ^ 15)%Z None 0.
Definition with_invite (iv : Invitation) : World MemB :=
  set_w_db (set_invitations [iv] ex_db) ex_world.

(** Accepting an invitation is not guarded.  When the only owner accepts a
    pending invitation with a lower role, the org is left without an owner. *)
Theorem AcceptInvite_demotes_last_owner :
  let w := with_invite (invite_row "alice@example.com" "viewer" "t1") in
  let out := @Members.AcceptInvite ex_env _ ex_services ctx_alice "t1" "" "" w in
  failed (fst out) = false /\
  where_ Members.is_owner (Store.member_rows "o1" (w_db w)) <> [] /\
  where_ Members.is_owner (Store.member_rows "o1" (w_db (snd out))) = [].
Proof. by_eval. Qed.

(** A role change can add a member past the seat limit.  With two seats
    taken of two, an invitation is refused, but changing the role of a user of
    another organization makes that user a third member. *)
Theorem ChangeMemberRole_adds_member :
  let ent := mkEntitlements (fun _ _ => mkDecision true "") (fun _ _ => mkLimit false 2) in
  let s := ex_services_with caps_garage false PermitAll ent false in
  let w := set_w_db (set_users (users ex_db ++ [user_row "carol"])%list ex_db) ex_world in
  let out := @Members.ChangeMemberRole ex_env _ s ctx_alice "carol" "member" w in
  fst (@Members.InviteMember ex_env _ s ctx_alice "carol@example.com" "member" w)
    = inl Members.seatErr /\
  fst out = inr tt /\ length (Store.member_rows "o1" (w_db w)) = 2 /\
  length (Store.member_rows "o1" (w_db (snd out))) = 3.
Proof. by_eval. Qed.

(** ** Worked examples *)

Lemma last_owner_kept_witness :
  has_owner "o1" (w_db (snd (@run_member_op ex_env _ ex_services ctx_alice "bob" OpRemove
                               ex_world))).
Proof.
  refine (last_owner_kept (ENV := ex_env) ex_services ctx_alice "bob" OpRemove ex_world _ _
            eq_refl _ _ _ (surjective_pairing _)).
  - vm_compute. repeat constructor; set_solver.
  - by left.
  - eexists. split; [apply list_elem_of_here|vm_compute; reflexivity].
Defined.

Lemma ChangeMemberRole_ceiling_witness :
  let out := @Members.ChangeMemberRole ex_env _ ex_services ctx_alice "bob" "admin" ex_world in
  fst out = inr tt /\ Members.roleRank "admin" <= 3.
Proof.
  intros out. assert (fst out = inr tt) as H by (vm_compute; reflexivity). split; [exact H|].
  refine (proj1 (ChangeMemberRole_ceiling (ENV := ex_env) ex_services ctx_alice "bob" "admin"
                   ex_world (inr tt) (snd out) _)).
  rewrite <- H. apply surjective_pairing.
Defined.

Lemma InviteMember_within_limits_witness :
  let out := @Members.InviteMember ex_env _ ex_services ctx_alice "dan@example.com" "" ex_world in
  exists res, fst out = inr res /\ length (invitations (w_db (snd out))) = 1.
Proof.
  intros out. destruct (fst out) as [e|res] eqn:E; [exfalso; vm_compute in E; discriminate|].
  exists res. split; [done|].
  destruct (proj2 (proj2 (proj2 (InviteMember_within_limits (ENV := ex_env) ex_services ctx_alice
    "dan@example.com" "" ex_world (inr res) (snd out) eq_refl eq_refl
    (eq_trans (surjective_pairing _) (f_equal2 pair E eq_refl)))))) as (iv & H & _).
  by rewrite H.
Defined.

Lemma invitation_single_use_witness :
  let w := with_invite (invite_row "dan@example.com" "member" "t1") in
  let out := @Members.AcceptInvite ex_env _ ex_services ctx_alice "t1" "longpassword" "Dan" w in
  failed (fst out) = false /\
  fst (@Members.AcceptInvite ex_env _ ex_services ctx_alice "t1" "longpassword" "Dan" (snd out)) =
  inl Members.invalidInviteErr.
Proof.
  intros w out. split; [vm_compute; reflexivity|].
  destruct (fst out) as [e|a] eqn:E; [exfalso; vm_compute in E; discriminate|].
  refine (proj1 (invitation_single_use (ENV := ex_env) ex_services ctx_alice "t1" "longpassword"
    "Dan" w a (snd out) ctx_alice "longpassword" "Dan" (snd out) _ _ _ _
    (eq_trans (surjective_pairing _) (f_equal2 pair E eq_refl)) eq_refl (surjective_pairing _))).
  - intros n. reflexivity.
  - exact (NoDup_singleton (HashToken "t1")).
Defined.

Lemma Login_session_witness :
  let out := @Members.Login ex_env _ "Alice@Example.com" "pw" ex_world in
  failed (fst out) = false /\ length (sessions (w_db (snd out))) = 1.
Proof.
  intros out. split; [vm_compute; reflexivity|].
  destruct (fst out) as [e|a] eqn:E; [exfalso; vm_compute in E; discriminate|].
  destruct (Login_session (ENV := ex_env) "Alice@Example.com" "pw" ex_world a (snd out)
    (eq_trans (surjective_pairing _) (f_equal2 pair E eq_refl)))
    as (u & k & _ & _ & _ & _ & _ & H & _). exact H.
Defined.

Lemma Logout_ends_session_witness :
  let w := set_w_db (set_sessions [mkSession "s1" "alice" (HashToken "tok") (10 ^ 15)%Z None] ex_db)
             ex_world in
  let w' := snd (@Members.Logout ex_env _ "tok" w) in
  failed (fst (@Members.SessionUser ex_env _ "tok" w)) = false /\
  failed (fst (@Members.SessionUser ex_env _ "tok" w')) = true.
Proof.
  intros w w'. split; [vm_compute; reflexivity|].
  refine (proj1 (Logout_ends_session (ENV := ex_env) "tok" w w' w' _ _ _ _ eq_refl
                   (surjective_pairing _))); [done|vm_compute; reflexivity].
Defined.
