(* ===== verification/Billing.v ===== *)
(** src/internal/service/billing.go and collector.go: metered usage.

    The payment processor (src/internal/billing is an interface; the processor
    behind it is not part of the sources) is what [Services] holds
    ([s_BillingEnabled], [s_BillingReport]) and two functions the definitions
    take: [subscribe] creates a customer, [parse] verifies a webhook. *)
From S2P Require Import Prelude GoStrings GoTime Storage Database Repository Service Tenants Objects.
#[local] Open Scope string_scope.

Module Billing.

(** billing.Subscription and billing.WebhookEvent *)
Record Subscription := mkSubscription {
  sb_CustomerID : str; sb_SubscriptionID : str; sb_StorageItemID : str; sb_EgressItemID : str;
  sb_RequestsItemID : str }.
Record Event := mkEvent { ev_Type : str; ev_CustomerID : str; ev_OrgID : str }.

Record BillingStatusDTO := mkBillingStatusDTO {
  bsd_Enabled : bool; bsd_Status : str; bsd_StorageBytes : Z; bsd_EgressBytes : Z;
  bsd_Requests : Z; bsd_CustomerSet : bool; bsd_PeriodStartIS : str }.

Definition gib : Z := (1024 * 1024 * 1024)%Z.

(** ** Days *)

Definition dayStart (t : Z) : Z := (t / Time.day_ns * Time.day_ns)%Z.

Section Billing.
Context {ENV : Env} {B : Type} (s : Services B).
#[local] Abbreviation Svc := (@Service.Svc B).
Implicit Types (ctx : Ctx).

Definition disabledErr : Error := mkError "billing_disabled" "billing is not enabled" 404.

Definition SetupBilling (subscribe : str -> str -> str + Subscription) ctx (email : str)
    : Svc unit :=
  do! Tenants.scimTokenActor ctx in
  guard! s_BillingEnabled s else disabledErr in
  let orgID := tc_OrgID (tenant s ctx) in
  let! existing := attempt (db (Store.GetBillingCustomer orgID)) in
  match existing with
  | inr _ => ret tt
  | inl _ =>
      match subscribe orgID email with
      | inl e => throw (mkError "billing_setup_failed" e 502)
      | inr sub =>
          do! mapErr mapRepoErr (db (Store.UpsertBillingCustomer
                (mkBillingCustomer orgID (sb_CustomerID sub) (sb_SubscriptionID sub)
                   (sb_StorageItemID sub) (sb_EgressItemID sub) (sb_RequestsItemID sub)
                   "active"))) in
          audit s ctx "billing.setup" "organization" orgID
            (Some [("customer", JStr (sb_CustomerID sub))])
      end
  end.

(** A result pair whose error the code drops: the zero values. *)
Definition or_zeros {E A} (r : E + (Z * Z)) (k : Z * Z -> A) : A :=
  k (match r with inr t => t | inl _ => (0, 0)%Z end).

Definition BillingStatus ctx : Svc BillingStatusDTO :=
  let orgID := tc_OrgID (tenant s ctx) in
  let! c := attempt (db (Store.GetBillingCustomer orgID)) in
  let! t := now in
  let start := dayStart t in
  let! storage := attempt (db (Store.OrgUsageTotals orgID)) in
  let! tr := attempt (db (Store.TrafficByOrg orgID start)) in
  or_zeros storage (fun st => or_zeros tr (fun er =>
    ret (mkBillingStatusDTO (s_BillingEnabled s)
           (match c with inr c => bc_Status c | inl _ => "" end)
           (fst st) (fst er) (snd er)
           (match c with inr _ => true | inl _ => false end) (Time.RFC3339 start)))).

(** [Billing.ReportUsage]: the post leaves the process whether or not the
    processor accepts it. *)
Definition ReportUsage (item : str) (qty : Z) (idem : str) : M (World B) unit unit :=
  fun w => ((if s_BillingReport s (length (w_fx w)) item qty idem then inr tt else inl tt),
            set_w_fx (w_fx w ++ [FxUsagePost item qty idem])%list w).

Definition idem_key (orgID metric day : str) : str := orgID ++ ":" ++ metric ++ ":" ++ day.

Definition reportMetric (orgID metric : str) (qty : Z) (itemID : str) (start end_ : Z) (day : str)
    : Svc unit :=
  if itemID =s "" then ret tt
  else
    let idem := idem_key orgID metric day in
    let! fresh := attempt (db (Store.RecordUsageReport orgID metric qty start end_ idem)) in
    match fresh with
    | inr true => ignore (ReportUsage itemID qty idem)
    | _ => ret tt
    end.

(** One organization of the reporting pass; the division truncates. *)
Definition reportOrg (start end_ : Z) (day orgID : str) : Svc unit :=
  let! c := attempt (db (Store.GetBillingCustomer orgID)) in
  match c with
  | inl _ => ret tt
  | inr c =>
      let! storage := attempt (db (Store.OrgUsageTotals orgID)) in
      let! tr := attempt (db (Store.TrafficByOrg orgID start)) in
      or_zeros storage (fun st => or_zeros tr (fun er =>
        do! reportMetric orgID "storage_gb_month" (Z.quot (fst st) gib) (bc_StorageItemID c)
              start end_ day in
        do! reportMetric orgID "egress_gb" (Z.quot (fst er) gib) (bc_EgressItemID c)
              start end_ day in
        reportMetric orgID "requests" (snd er) (bc_RequestsItemID c) start end_ day))
  end.

Definition BillingReportOnce : Svc unit :=
  if negb (s_BillingEnabled s) then ret tt
  else
    let! orgs := attempt (db Store.ListBillingOrgIDs) in
    match orgs with
    | inl _ => ret tt
    | inr ids =>
        let! t := now in
        let start := dayStart t in
        forM_ ids (reportOrg start (start + Time.day_ns) (Time.day_string start))
    end.

Definition TriggerBillingReport ctx : Svc unit :=
  do! Tenants.requirePlatformAdmin ctx in
  guard! s_BillingEnabled s else disabledErr in
  BillingReportOnce.

Definition HandleBillingWebhook (parse : str -> str -> str + Event) ctx (payload sig : str)
    : Svc unit :=
  match parse payload sig with
  | inl _ => throw (mkError "invalid_webhook" "could not verify webhook" 400)
  | inr ev =>
      let! orgID :=
        (if (ev_OrgID ev =s "") && negb (ev_CustomerID ev =s "")
         then let! r := attempt (db (Store.OrgByStripeCustomer (ev_CustomerID ev))) in
              ret (match r with inr id => id | inl _ => ev_OrgID ev end)
         else ret (ev_OrgID ev)) in
      if orgID =s "" then ret tt
      else if ev_Type ev =s "payment_failed" then
        do! ignore (db (Store.SetBillingStatus orgID "past_due")) in
        do! ignore (db (Store.SuspendOrg orgID "payment failed")) in
        audit s ctx "billing.suspend" "organization" orgID
          (Some [("reason", JStr "payment_failed")])
      else if ev_Type ev =s "payment_succeeded" then
        do! ignore (db (Store.SetBillingStatus orgID "active")) in
        do! ignore (db (Store.ResumeOrg orgID)) in
        audit s ctx "billing.resume" "organization" orgID None
      else if ev_Type ev =s "subscription_canceled" then
        ignore (db (Store.SetBillingStatus orgID "canceled"))
      else ret tt
  end.

(** ** collector.go *)

(** One bucket of the collection pass. *)
Definition collectBucket (b : Bucket) : Svc unit :=
  let! rp := attempt (providerForBucket s b) in
  match rp with
  | inl _ => ret tt
  | inr prov =>
      let! ru := attempt (be (sp_GetBucketUsage prov (b_GarageBucketID b))) in
      match ru with
      | inl _ => ret tt
      | inr u =>
          let! ins := attempt (db (Store.InsertUsageSnapshot
            (mkUsageSnapshot (b_ID b) (b_ProjectID b) (b_OrgID b) (b_ClusterID b) (bu_BytesUsed u)
               (bu_ObjectCount u) (bu_UnfinishedUploads u) (bu_UnfinishedMultipartUploads u)
               (bu_QuotaMaxSize u) (bu_QuotaMaxObjects u) 0))) in
          match ins with
          | inl _ => ret tt
          | inr _ => fx (FxMeter EventUsageSnapshot (b_OrgID b) (b_ID b) (bu_BytesUsed u))
          end
      end
  end.

(** Only the buckets of the installation's default project are visited. *)
Definition CollectUsageOnce : Svc unit :=
  do! Objects.PurgeDueTrash s in
  let! bs := attempt (db (Store.ListBuckets (s_ProjectID s))) in
  match bs with
  | inl _ => ret tt
  | inr l => forM_ l collectBucket
  end.

End Billing.
End Billing.
