(* ===== verification/TenantProofs.v ===== *)
(** Organizations, their clusters and their bills: who may act, the default
    cluster, metered usage posted at most once, and what the payment
    processor's events do. *)
From S2P Require Import Prelude GoStrings Storage MemStore Database Repository AuditLog Service Frames Example Objects Tenants Billing.
#[local] Open Scope string_scope.

(** * Operator calls *)

Inductive TenantOp :=
  | OpGetStatus | OpSuspend (reason : str) | OpResume | OpSetQuota (max : option Z)
  | OpListClusters | OpAssign (cluster : str) (makeDefault : bool) | OpUnassign (cluster : str)
  | OpPlace (mode : str).

Section Ops.
Context {ENV : Env} {B : Type} (s : Services B).

Definition run_tenant_op (ctx : Ctx) (org : str) (op : TenantOp) : M (World B) Error unit :=
  match op with
  | OpGetStatus => let! _ := Tenants.GetOrgStatus ctx org in ret tt
  | OpSuspend r => Tenants.SuspendOrg s ctx org r
  | OpResume => Tenants.ResumeOrg s ctx org
  | OpSetQuota m => Tenants.SetOrgQuota s ctx org m
  | OpListClusters => let! _ := Tenants.ListOrgClusters ctx org in ret tt
  | OpAssign c d => Tenants.AssignClusterToOrg s ctx org c d
  | OpUnassign c => Tenants.UnassignClusterFromOrg s ctx org c
  | OpPlace m => let! _ := Tenants.AssignTenantCluster s ctx org m in ret tt
  end.

(** Operator calls need the operator flag.  Without it, every call on an
    organization is refused with the same error and the world is unchanged, not
    even the statement counter: nothing of the organization is read. *)
Theorem platform_admin_gate ctx org op (w : World B)
    (Hplain : sub_PlatformAdmin (subjectFrom ctx) = false) :
  run_tenant_op ctx org op w = (inl Tenants.adminErr, w).
Proof.
  destruct op; cbn [run_tenant_op];
    unfold Tenants.GetOrgStatus, Tenants.SuspendOrg, Tenants.ResumeOrg, Tenants.SetOrgQuota,
      Tenants.ListOrgClusters, Tenants.AssignClusterToOrg, Tenants.UnassignClusterFromOrg,
      Tenants.AssignTenantCluster, Tenants.requirePlatformAdmin, bind; by rewrite Hplain.
Qed.

(** * The default cluster *)

(** Rows are unique per organization and cluster, and an organization has at
    most one default. *)
Definition placement_wf (l : list OrgClusterRow) : Prop :=
  NoDup (map (fun r => (oc_OrgID r, oc_ClusterID r)) l) /\
  forall r1 r2, r1 ∈ l -> r2 ∈ l -> oc_OrgID r1 = oc_OrgID r2 ->
    oc_IsDefault r1 = true -> oc_IsDefault r2 = true -> oc_ClusterID r1 = oc_ClusterID r2.

Lemma set_default_keys p v l :
  map (fun r => (oc_OrgID r, oc_ClusterID r)) (upd_rows p (set_oc_IsDefault v) l) =
  map (fun r => (oc_OrgID r, oc_ClusterID r)) l.
Proof.
  unfold upd_rows. rewrite map_map. apply map_ext. intros r. by destruct (p r).
Qed.

Lemma set_default_elem p v l r :
  r ∈ upd_rows p (set_oc_IsDefault v) l ->
  exists r0, r0 ∈ l /\ oc_OrgID r = oc_OrgID r0 /\ oc_ClusterID r = oc_ClusterID r0 /\
    oc_IsDefault r = (if p r0 then v else oc_IsDefault r0).
Proof.
  intros (r0 & -> & H)%list_elem_of_fmap. exists r0. by destruct (p r0).
Qed.

Lemma clear_wf org d :
  placement_wf (org_clusters d) ->
  placement_wf (org_clusters (Store.clear_defaults org d)) /\
  forall r, r ∈ org_clusters (Store.clear_defaults org d) -> oc_OrgID r = org ->
    oc_IsDefault r = false.
Proof.
  intros [Hk Hd]. unfold Store.clear_defaults. cbn [org_clusters set_org_clusters]. split; [split|].
  - by rewrite set_default_keys.
  - intros r1 r2 (a & Ha & Ho1 & Hc1 & Hv1)%set_default_elem
      (b & Hb & Ho2 & Hc2 & Hv2)%set_default_elem Ho D1 D2.
    rewrite Hc1, Hc2. apply Hd; [done|done|congruence| |].
    + rewrite D1 in Hv1. destruct (_ && _) in Hv1; congruence.
    + rewrite D2 in Hv2. destruct (_ && _) in Hv2; congruence.
  - intros r (a & Ha & Ho & _ & Hv)%set_default_elem Horg. rewrite Hv, <- Ho, Horg, eqb_refl_str.
    by destruct (oc_IsDefault a).
Qed.

Lemma assign_insert_wf org cid dflt d (n : nat) d' :
  negb (Store.default_conflict org cid dflt d) = true ->
  (if exists_ (Store.oc_key org cid) (org_clusters d)
   then set_org_clusters (upd_rows (Store.oc_key org cid) (set_oc_IsDefault dflt)
          (org_clusters d)) d
   else set_org_clusters (org_clusters d ++ [mkOrgClusterRow org cid dflt (env_now n)])%list d)
  = d' ->
  placement_wf (org_clusters d) -> placement_wf (org_clusters d').
Proof.
  intros Hc <- [Hk Hd]. apply negb_true_iff in Hc. unfold Store.default_conflict in Hc.
  assert (dflt = true -> forall r, r ∈ org_clusters d -> oc_OrgID r = org ->
            oc_IsDefault r = true -> oc_ClusterID r = cid) as Hother.
  { intros -> r Hr Ho D. cbn [andb] in Hc. rewrite exists_false in Hc. specialize (Hc r Hr).
    cbv beta in Hc. rewrite Ho, eqb_refl_str, D in Hc. cbn in Hc. by bool_prop. }
  destruct (exists_ (Store.oc_key org cid) (org_clusters d)) eqn:E; cbn [org_clusters set_org_clusters]; split.
  - by rewrite set_default_keys.
  - assert (forall r, r ∈ upd_rows (Store.oc_key org cid) (set_oc_IsDefault dflt) (org_clusters d) ->
      oc_IsDefault r = true ->
      (oc_OrgID r = org /\ oc_ClusterID r = cid /\ dflt = true) \/
      (exists r0, r0 ∈ org_clusters d /\ oc_OrgID r = oc_OrgID r0 /\
         oc_ClusterID r = oc_ClusterID r0 /\ oc_IsDefault r0 = true)) as Hcase.
    { intros r (a & Ha & Ho & Hci & Hv)%set_default_elem D. rewrite D in Hv.
      destruct (Store.oc_key org cid a) eqn:Ek; [left|right; by exists a].
      unfold Store.oc_key in Ek. bool_prop. split; [congruence|]. split; [congruence|done]. }
    intros r1 r2 H1 H2 Ho D1 D2.
    destruct (Hcase r1 H1 D1) as [(O1 & C1 & F1)|(a & Ha & O1 & C1 & Da)],
             (Hcase r2 H2 D2) as [(O2 & C2 & F2)|(b & Hb & O2 & C2 & Db)].
    + congruence.
    + rewrite C1, C2. symmetry. apply Hother; congruence.
    + rewrite C1, C2. apply Hother; congruence.
    + rewrite C1, C2. apply Hd; congruence.
  - rewrite map_app. apply NoDup_app. split; [done|]. split; [|apply NoDup_singleton].
    intros k Hin Hk1. apply list_elem_of_singleton in Hk1.
    apply list_elem_of_fmap in Hin as (r & Heq & Hr). rewrite Hk1 in Heq.
    injection Heq as Ho Hci. rewrite exists_false in E. specialize (E r Hr).
    unfold Store.oc_key in E. by rewrite <- Ho, <- Hci, !eqb_refl_str in E.
  - intros r1 r2 H1 H2 Ho D1 D2. apply elem_of_app in H1 as [H1|H1], H2 as [H2|H2];
      rewrite ?list_elem_of_singleton in *; subst; cbn in *.
    + by apply Hd.
    + by apply Hother.
    + symmetry. apply Hother; [done|done|by symmetry|done].
    + done.
Qed.

Lemma Assign_keeps org cid dflt :
  Guar (keeps (fun d => placement_wf (org_clusters d))) (Store.AssignClusterToOrg org cid dflt).
Proof.
  unfold Store.AssignClusterToOrg. apply guar_bind; [typeclasses eauto| |intros _].
  - apply guar_if; [|apply guar_ret; typeclasses eauto]. apply guar_mapErr, guar_exec.
    + typeclasses eauto.
    + intros d n Hw. exact Hw.
    + intros n d Hw. by apply clear_wf.
  - apply guar_mapErr, guar_insert; [typeclasses eauto|intros d n Hw; exact Hw|].
    intros n d a d' Hok [= _ Hd'] Hw. apply andb_true_iff in Hok as [_ Hok].
    by eapply assign_insert_wf.
Qed.

Lemma Unassign_keeps org cid :
  Guar (keeps (fun d => placement_wf (org_clusters d))) (Store.UnassignClusterFromOrg org cid).
Proof.
  unfold Store.UnassignClusterFromOrg. apply guar_mapErr, guar_stmt; [typeclasses eauto|intros d n Hw; exact Hw|].
  intros d n a d' H. destruct (exists_ _ _); [|done]. injection H as _ <-. intros [Hk Hd].
  cbn [org_clusters set_org_clusters]. split.
  - by apply NoDup_map_where.
  - intros r1 r2 [H1 _]%where_elem [H2 _]%where_elem. by apply Hd.
Qed.

Definition placed : World B -> Prop := fun w => placement_wf (org_clusters (w_db w)).

Lemma keeps_db {A} (m : M DB DBErr A) (P : DB -> Prop) :
  Guar (keeps P) m -> Guar (keeps (fun w : World B => P (w_db w))) (db m).
Proof. intros Hm. apply guar_zoom. intros w r d Hr. exact (Hm _ _ _ Hr). Qed.
Lemma keeps_view {E A} (m : M (World B) E A) (P : list OrgClusterRow -> Prop) :
  Guar (view org_clusters) m -> Guar (keeps (fun w : World B => P (org_clusters (w_db w)))) m.
Proof. intros Hm w r w' H Hp. specialize (Hm _ _ _ H). unfold view, same in Hm. by rewrite <- Hm. Qed.

Lemma update_org_keeps org f :
  Guar (keeps (fun d => placement_wf (org_clusters d))) (Store.update_org org f).
Proof.
  unfold Store.update_org. apply guar_stmt; [typeclasses eauto|intros d n Hw; exact Hw|].
  intros d n a d' H. destruct (exists_ _ _); [|done]. injection H as _ <-. intros Hw. exact Hw.
Qed.

(** An organization has one default cluster at most.  From a state where that
    holds, every sequence of operator calls, by anyone, on any organizations and
    with any database failures, ends in one where it holds. *)
Theorem one_default_cluster (calls : list (Ctx * str * TenantOp)) (w : World B) r w'
    (Hwf : placed w)
    (Hrun : forM_ calls (fun c => let '(ctx, org, op) := c in
              ignore (E' := Error) (run_tenant_op ctx org op)) w = (r, w')) :
  placed w'.
Proof.
  assert (Guar (keeps placed) (forM_ calls (fun c => let '(ctx, org, op) := c in
              ignore (E' := Error) (run_tenant_op ctx org op)))) as Hg; [|by eapply Hg].
  apply guar_forM; [typeclasses eauto|]. intros [[ctx org] op] _. unfold ignore.
  apply guar_bind; [typeclasses eauto| |intros; apply guar_ret; typeclasses eauto].
  apply guar_attempt.
  assert (forall act tid m, Guar (keeps placed) (audit s ctx act "organization" tid m)) as Haud.
  { intros. apply keeps_view, view_audit; typeclasses eauto. }
  assert (forall A (m : M DB DBErr A), Guar (same tables) m -> Guar (keeps placed) (db m)) as Hread.
  { intros A m Hm. apply (keeps_view _ placement_wf), view_reads; [typeclasses eauto|done]. }
  destruct op; cbn [run_tenant_op];
    unfold Tenants.GetOrgStatus, Tenants.SuspendOrg, Tenants.ResumeOrg, Tenants.SetOrgQuota,
      Tenants.ListOrgClusters, Tenants.AssignClusterToOrg, Tenants.UnassignClusterFromOrg,
      Tenants.AssignTenantCluster, Tenants.requirePlatformAdmin, Store.SuspendOrg, Store.ResumeOrg,
      Store.SetOrgQuota, Store.SetOrgStatus;
    repeat first
      [ guar_step | apply Haud | progress cbv zeta
      | apply (keeps_db _ (fun d => placement_wf (org_clusters d))), Assign_keeps
      | apply (keeps_db _ (fun d => placement_wf (org_clusters d))), Unassign_keeps
      | apply Hread; unfold Store.GetOrgStatus, Store.OrgUsageTotals, Store.or_zero,
          Store.ListOrgClusters, Store.GetClusterByID;
        solve [repeat first [guar_step | apply reads_query | apply reads_query_row]]
      | match goal with |- Guar _ (db (mapErr _ (Store.update_org _ _))) =>
          apply (keeps_db _ (fun d => placement_wf (org_clusters d))), guar_mapErr
        end
      | apply update_org_keeps ].
Qed.

(** What a successful assignment leaves in the table. *)
Lemma Assign_inr org cid dflt d d' :
  Store.AssignClusterToOrg org cid dflt d = (inr tt, d') ->
  clusters d' = clusters d /\
  (exists r, r ∈ org_clusters d' /\ oc_OrgID r = env_as_uuid org /\
     oc_ClusterID r = env_as_uuid cid /\ oc_IsDefault r = dflt) /\
  forall o, o <> env_as_uuid org -> where_ (fun r => oc_OrgID r =s o) (org_clusters d') =
                        where_ (fun r => oc_OrgID r =s o) (org_clusters d).
Proof.
  unfold Store.AssignClusterToOrg. cbv zeta.
  generalize (env_as_uuid org), (env_as_uuid cid). clear org cid. intros org cid H.
  assert (forall o p v l, o <> org -> (forall r, p r = true -> oc_OrgID r = org) ->
    where_ (fun r => oc_OrgID r =s o) (upd_rows p (set_oc_IsDefault v) l) =
    where_ (fun r => oc_OrgID r =s o) l) as Hupd.
  { intros o p v l Hne Hp. unfold upd_rows. induction l as [|x l IH]; [done|]. cbn.
    destruct (p x) eqn:E; cbn; rewrite IH; [|done]. rewrite (Hp x E).
    assert ((org =s o) = false) as -> by (by apply eqb_false_str). done. }
  apply bind_inr in H as ([] & d1 & H1 & H).
  assert (clusters d1 = clusters d /\ forall o, o <> org ->
    where_ (fun r => oc_OrgID r =s o) (org_clusters d1) =
    where_ (fun r => oc_OrgID r =s o) (org_clusters d)) as [Hc1 Ho1].
  { destruct dflt; [|unfold ret in H1; by injection H1 as <-].
    apply mapErr_inr, exec_inr in H1 as ->. split; [done|]. intros o Hne.
    unfold Store.clear_defaults. cbn [org_clusters set_org_clusters set_db_tick].
    apply Hupd; [done|]. intros r Hr. by bool_prop. }
  apply mapErr_inr, insert_inr in H as [_ H]. cbv beta in H.
  destruct (exists_ (Store.oc_key org cid) _) eqn:E; injection H as <-;
    cbn [org_clusters set_org_clusters clusters set_db_tick] in *; (split; [done|]); split.
  - apply exists_spec in E as (r & Hr & Hk). exists (set_oc_IsDefault dflt r).
    split; [apply list_elem_of_fmap; exists r; by rewrite Hk|].
    unfold Store.oc_key in Hk. by bool_prop.
  - intros o Hne. rewrite <- Ho1 by done. apply Hupd; [done|]. intros r Hr.
    unfold Store.oc_key in Hr. by bool_prop.
  - eexists. split; [apply elem_of_app; right; by apply list_elem_of_singleton|done].
  - intros o Hne. rewrite where_app, Ho1 by done. cbn.
    assert ((org =s o) = false) as -> by (by apply eqb_false_str). apply app_nil_r.
Qed.

(** The default an organization resolves to, given the one-default invariant. *)
Lemma default_cluster_is org cid d r :
  placement_wf (org_clusters d) -> r ∈ org_clusters d -> oc_OrgID r = org ->
  oc_ClusterID r = cid -> oc_IsDefault r = true ->
  Store.has_id cl_ID cid (live (clusters d)) = true ->
  Store.default_cluster org d = Some cid.
Proof.
  intros [_ Hd] Hr Ho Hc D Hlive. unfold Store.default_cluster.
  destruct (head _) as [r'|] eqn:E.
  - apply head_elem, where_elem in E as [Hr' E]. bool_prop. cbn. f_equal. rewrite <- Hc.
    apply Hd; congruence.
  - exfalso. destruct (where_ _ _) eqn:Ew; [|done].
    assert (r ∈ where_ (fun r => (oc_OrgID r =s org) && oc_IsDefault r
      && Store.has_id cl_ID (oc_ClusterID r) (live (clusters d))) (org_clusters d)) as Hin.
    { apply where_elem. split; [done|]. by rewrite Ho, Hc, eqb_refl_str, D, Hlive. }
    rewrite Ew in Hin. set_solver.
Qed.

(** Assigning a default cluster takes effect, for that organization only.
    After a successful call the organization resolves to the assigned, live
    cluster, and the assignments of every other organization are the same. *)
Theorem AssignClusterToOrg_places ctx org cid (w w' : World B)
    (Hwf : placed w)
    (Hrun : Tenants.AssignClusterToOrg s ctx org cid true w = (inr tt, w')) :
  sub_PlatformAdmin (subjectFrom ctx) = true /\
  Store.default_cluster (env_as_uuid org) (w_db w') = Some (env_as_uuid cid) /\
  forall o, o <> env_as_uuid org -> where_ (fun r => oc_OrgID r =s o) (org_clusters (w_db w')) =
                        where_ (fun r => oc_OrgID r =s o) (org_clusters (w_db w)).
Proof.
  unfold Tenants.AssignClusterToOrg, Tenants.requirePlatformAdmin in Hrun.
  apply bind_inr in Hrun as ([] & w1 & H1 & H).
  destruct (sub_PlatformAdmin (subjectFrom ctx)); [|done]. unfold ret in H1. injection H1 as <-.
  apply bind_inr in H as (st & w1 & H1 & H). apply mapErr_inr, db_inv in H1 as (d1 & H1 & ->).
  unfold Store.GetOrgStatus in H1. apply mapErr_inr, query_row_inr in H1 as [-> _].
  apply bind_inr in H as (c & w2 & H2 & H). apply mapErr_inr, db_inv in H2 as (d2 & H2 & ->).
  unfold Store.GetClusterByID in H2. apply mapErr_inr, query_row_inr in H2 as [-> Hc].
  apply bind_inr in H as ([] & w3 & H3 & H). apply mapErr_inr, db_inv in H3 as (d3 & H3 & ->).
  pose proof (Assign_keeps _ _ _ _ _ _ H3 Hwf) as Hwf3.
  apply Assign_inr in H3 as (Hcl & (r & Hr & Ho & Hci & D) & Hother).
  pose proof (view_audit s (fun d => (org_clusters d, clusters d)) _ _ _ _ _ _ _ _ H) as Hv.
  unfold view, same in Hv. cbn in Hv, Hcl, Hother. injection Hv as Hv1 Hv2.
  split; [done|]. split; [|by rewrite <- Hv1].
  apply (default_cluster_is _ _ _ r); rewrite <- ?Hv1, <- ?Hv2; try done.
  rewrite Hcl. apply exists_spec. apply head_elem, where_elem in Hc as [Hc1 Hc2].
  exists c. auto.
Qed.
End Ops.

(** * Bills *)

Definition post_key (e : Effect) : option str :=
  match e with FxUsagePost _ _ idem => Some idem | _ => None end.
Definition posts (l : list Effect) : list str := omap post_key l.

Section Bills.
Context {ENV : Env} {B : Type} (s : Services B).

(** Every usage post has its own ledger entry, and no key was posted twice. *)
Definition ledger_wf (w : World B) : Prop :=
  NoDup (posts (w_fx w)) /\
  forall k, k ∈ posts (w_fx w) -> k ∈ map ur_IdempotencyKey (reports (w_db w)).

Lemma ledger_view (w w' : World B) :
  w_fx w' = w_fx w -> reports (w_db w') = reports (w_db w) -> ledger_wf w -> ledger_wf w'.
Proof. unfold ledger_wf. by intros -> ->. Qed.

(** A read leaves the ledger and the posts. *)
Lemma ledger_reads {A} (m : M DB DBErr A) :
  Guar (same tables) m -> Guar (keeps ledger_wf) (db m).
Proof.
  intros Hm w r w' H. apply db_inv in H as (d & H & ->). specialize (Hm _ _ _ H).
  intros Hw. apply (ledger_view w); [done| |done].
  apply (f_equal reports) in Hm. symmetry. exact Hm.
Qed.

Lemma RecordUsageReport_inr org metric qty a z idem d b d' :
  Store.RecordUsageReport org metric qty a z idem d = (inr b, d') ->
  if b then (idem ∉ map ur_IdempotencyKey (reports d)) /\
            map ur_IdempotencyKey (reports d') = (map ur_IdempotencyKey (reports d) ++ [idem])%list
  else reports d' = reports d.
Proof.
  unfold Store.RecordUsageReport. intros H. apply mapErr_inr, insert_inr in H as [_ H].
  cbv beta in H. cbn [reports set_db_tick] in H.
  destruct (Store.has_id _ _ _) eqn:E; injection H as <- <-; [done|].
  split; [|cbn; by rewrite map_app].
  intros (r & Hk & Hr)%list_elem_of_fmap. unfold Store.has_id in E. rewrite exists_false in E.
  specialize (E r Hr). cbv beta in E. by rewrite <- Hk, eqb_refl_str in E.
Qed.

Lemma reportMetric_keeps org metric qty item a z day :
  Guar (keeps ledger_wf) (Billing.reportMetric s org metric qty item a z day).
Proof.
  unfold Billing.reportMetric. destruct (item =s ""); [apply guar_ret; typeclasses eauto|].
  set (idem := Billing.idem_key org metric day).
  intros w r w' H. rewrite bind_run, attempt_run in H.
  destruct (db (Store.RecordUsageReport _ _ _ _ _ _) w) as [fr w1] eqn:E1.
  apply db_inv in E1 as (d & E1 & ->). intros [Hnd Hin]. destruct fr as [e|fresh].
  - unfold ret in H. injection H as _ <-. apply (ledger_view w); [done| |done].
    unfold Store.RecordUsageReport in E1. apply mapErr_inl in E1 as (e0 & E1 & _).
    apply stmt_inl in E1 as ->. done.
  - apply RecordUsageReport_inr in E1. destruct fresh.
    + destruct E1 as [Hnew Hrep].
      assert (w' = set_w_fx (w_fx w ++ [FxUsagePost item qty idem])%list (set_w_db d w)) as ->.
      { unfold ignore, bind, attempt, Billing.ReportUsage, ret in H. by injection H as _ <-. }
      unfold ledger_wf, posts. cbn. rewrite omap_app. cbn. rewrite Hrep. split.
      * apply NoDup_app. split; [done|]. split; [|apply NoDup_singleton].
        intros k Hk Hk1. apply list_elem_of_singleton in Hk1 as ->. by apply Hnew, Hin.
      * intros k [Hk|Hk]%elem_of_app; apply elem_of_app; [left; by apply Hin|by right].
    + unfold ret in H. injection H as _ <-. by apply (ledger_view w).
Qed.

Lemma reads_TrafficByOrg org since : Guar (same tables) (Store.TrafficByOrg org since).
Proof.
  unfold Store.TrafficByOrg. apply guar_mapErr, guar_stmt; [typeclasses eauto|apply tables_tick|].
  intros d n a d' H. cbv beta zeta in H.
  destruct (Store.fits64 _ && Store.fits64 _); by simplify_eq.
Qed.

(** C14: usage is posted at most once.  Over any number of reporting passes, with
    any database failures and any answers of the payment processor, no
    idempotency key (organization, metric, day) is posted twice, and every post
    is recorded in the ledger. *)
Theorem usage_posted_once (n : nat) (w : World B) r w'
    (Hwf : ledger_wf w)
    (Hrun : forM_ (repeat tt n) (fun _ => Billing.BillingReportOnce s) w = (r, w')) :
  ledger_wf w'.
Proof.
  assert (Guar (keeps ledger_wf) (forM_ (repeat tt n) (fun _ => Billing.BillingReportOnce s)))
    as Hg; [|by eapply Hg].
  apply guar_forM; [typeclasses eauto|]. intros _ _.
  unfold Billing.BillingReportOnce, Billing.reportOrg, Billing.or_zeros.
  repeat first
    [ guar_step | apply reportMetric_keeps | progress cbv zeta
    | apply ledger_reads;
      unfold Store.ListBillingOrgIDs, Store.GetBillingCustomer, Store.OrgUsageTotals, Store.or_zero;
      solve [repeat first [guar_step | apply reads_query | apply reads_query_row]]
    | apply ledger_reads, reads_TrafficByOrg
    | match goal with |- Guar _ now => intros ??? [= _ <-]; exact id end ].
Qed.

(** ** Events of the processor *)

Lemma upd_live_none {A} (p : A -> bool) f (l : list (Live A)) :
  exists_ p (live l) = false -> upd_live p f l = l.
Proof.
  rewrite exists_false. intros H. unfold upd_live, live in *.
  induction l as [|[a [t|]] l IH]; cbn in *; [done|by rewrite IH|].
  rewrite (H a) by set_solver. rewrite IH; [done|]. intros x Hx. apply H. set_solver.
Qed.

(** With the database answering, an update of an organization's row is done
    exactly when there is a live row. *)
Lemma update_org_run org f d r d' :
  reliable -> Store.update_org org f d = (r, d') ->
  orgs d' = upd_live (fun o => org_ID o =s env_as_uuid org) (f (db_tick d)) (orgs d) /\ billing d' = billing d.
Proof.
  intros Hok H. unfold Store.update_org, stmt in H. rewrite Hok in H.
  cbn [orgs set_db_tick] in H.
  destruct (exists_ _ _) eqn:E; injection H as _ <-; [done|].
  rewrite upd_live_none by done. done.
Qed.

Lemma SetBillingStatus_run org st d r d' :
  Store.SetBillingStatus org st d = (r, d') -> orgs d' = orgs d.
Proof.
  unfold Store.SetBillingStatus. intros H. destruct r; [by apply stmt_inl in H as ->|].
  by apply exec_inr in H as ->.
Qed.

(** The organization an event is about. *)
Definition webhook_target (ev : Billing.Event) (d : DB) : str :=
  if (Billing.ev_OrgID ev =s "") && negb (Billing.ev_CustomerID ev =s "")
  then default "" (bc_OrgID <$> head (where_
         (fun c => bc_StripeCustomerID c =s Billing.ev_CustomerID ev) (billing d)))
  else Billing.ev_OrgID ev.

(** The new organizations table after an event. *)
Definition event_orgs (ty target : str) (t : Z) (l : list (Live Org)) : list (Live Org) :=
  let about := fun o => org_ID o =s env_as_uuid target in
  if target =s "" then l
  else if ty =s "payment_failed" then
    upd_live about (fun o => set_org_SuspendReason "payment failed"
      (set_org_SuspendedAt (Some t) (set_org_Status "suspended" o))) l
  else if ty =s "payment_succeeded" then
    upd_live about (fun o => set_org_SuspendReason ""
      (set_org_SuspendedAt None (set_org_Status "active" o))) l
  else l.

Lemma ignore_db_run {A} (m : M DB DBErr A) (w : World B) r w' :
  ignore (E' := Error) (db m) w = (r, w') ->
  r = inr tt /\ exists r0 d, m (w_db w) = (r0, d) /\ w' = set_w_db d w.
Proof.
  unfold ignore, bind, attempt. destruct (db m w) as [r0 w0] eqn:E. unfold ret.
  intros [= <- <-]. apply db_inv in E as (d & E & ->). eauto.
Qed.

(** The write of a payment event, and its audit entry. *)
Lemma event_step ctx target g act meta (w w1 : World B) org_upd r w' :
  reliable -> orgs (w_db w1) = orgs (w_db w) ->
  (do! ignore (db (mapErr g (Store.update_org target org_upd))) in
   audit s ctx act "organization" target meta) w1 = (r, w') ->
  r = inr tt /\ exists n, orgs (w_db w') =
    upd_live (fun o => org_ID o =s env_as_uuid target) (org_upd n) (orgs (w_db w)).
Proof.
  intros Hok Ho H. rewrite bind_run in H.
  destruct (ignore _ w1) as [r2 w2] eqn:E2.
  apply ignore_db_run in E2 as (-> & r0 & d & E2 & ->).
  assert (exists r1, Store.update_org target org_upd (w_db w1) = (r1, d)) as [r1 E1].
  { unfold mapErr in E2. destruct (Store.update_org _ _ _) as [[e|x] d0]; injection E2 as _ <-;
      eauto. }
  apply update_org_run in E1 as [E1 _]; [|done].
  pose proof (view_audit s orgs _ _ _ _ _ _ _ _ H) as Hv. unfold view, same in Hv. cbn in Hv.
  split; [|exists (db_tick (w_db w1)); by rewrite <- Hv, E1, Ho].
  unfold audit, ignore, bind, attempt, fx, modify in H.
  destruct (ctx_subject ctx) as [sj|]; [destruct (sub_UserID sj =s "")|];
    destruct (db _ _) in H; cbn in H; congruence.
Qed.

(** Payment events drive the organization they are about.  An event that is
    not verified is refused without effect.  A verified one always succeeds; it
    suspends its organization on a failed payment, reactivates it on a
    successful one, and leaves every other organization and every other kind of
    event alone. *)
Theorem webhook_drives_org parse ctx payload sig (w : World B) r w'
    (Hok : reliable)
    (Hrun : Billing.HandleBillingWebhook s parse ctx payload sig w = (r, w')) :
  match parse payload sig with
  | inl _ => failed r = true /\ w' = w
  | inr ev => r = inr tt /\ exists t, orgs (w_db w') =
      event_orgs (Billing.ev_Type ev) (webhook_target ev (w_db w)) t (orgs (w_db w))
  end.
Proof.
  unfold Billing.HandleBillingWebhook in Hrun.
  destruct (parse payload sig) as [e|ev]; [unfold throw in Hrun; by simplify_eq|].
  rewrite bind_run in Hrun.
  assert (exists w1, (if (Billing.ev_OrgID ev =s "") && negb (Billing.ev_CustomerID ev =s "")
         then let! r := attempt (db (Store.OrgByStripeCustomer (Billing.ev_CustomerID ev))) in
              ret (match r with inr id => id | inl _ => Billing.ev_OrgID ev end)
         else ret (E := Error) (Billing.ev_OrgID ev)) w = (inr (webhook_target ev (w_db w)), w1) /\
      orgs (w_db w1) = orgs (w_db w)) as (w1 & E1 & Ho1).
  { unfold webhook_target. destruct (_ && _) eqn:Eb; [|by exists w].
    unfold bind, attempt, db, zoom, Store.OrgByStripeCustomer, mapErr, query_row, stmt.
    cbv beta iota zeta. rewrite Hok. cbv beta iota. cbn [billing set_db_tick].
    apply andb_true_iff in Eb as [Eb _]. apply eqb_true_str in Eb.
    destruct (head _) as [c|]; cbn; eexists; (split; [unfold ret; try rewrite Eb; reflexivity|done]). }
  rewrite E1 in Hrun. unfold event_orgs. set (target := webhook_target ev (w_db w)) in *.
  destruct (target =s ""); [unfold ret in Hrun; injection Hrun as <- <-; split; [done|]; by exists 0%Z|].
  destruct (Billing.ev_Type ev =s "payment_failed").
  { rewrite bind_run in Hrun. destruct (ignore _ w1) as [r2 w2] eqn:E2.
    apply ignore_db_run in E2 as (-> & r0 & d & E2 & ->). apply SetBillingStatus_run in E2.
    unfold Store.SuspendOrg in Hrun.
    apply (event_step _ _ _ _ _ w) in Hrun as [-> (n & H)]; [eauto|done|cbn; congruence]. }
  destruct (Billing.ev_Type ev =s "payment_succeeded").
  { rewrite bind_run in Hrun. destruct (ignore _ w1) as [r2 w2] eqn:E2.
    apply ignore_db_run in E2 as (-> & r0 & d & E2 & ->). apply SetBillingStatus_run in E2.
    unfold Store.ResumeOrg in Hrun.
    apply (event_step _ _ _ _ _ w) in Hrun as [-> (n & H)]; [|done|cbn; congruence].
    split; [done|]. exists 0%Z. exact H. }
  destruct (Billing.ev_Type ev =s "subscription_canceled").
  - apply ignore_db_run in Hrun as (-> & r0 & d & E2 & ->). apply SetBillingStatus_run in E2.
    split; [done|]. exists 0%Z. cbn. congruence.
  - unfold ret in Hrun. simplify_eq. split; [done|]. by exists 0%Z.
Qed.
End Bills.

(** * Where the rules end *)

Definition ctx_root : Ctx := ctx_of "root" "owner" "o1" "p1" true.
Definition with_orgs (l : list (Live Org)) (w : World MemB) : World MemB :=
  set_w_db (set_orgs l (w_db w)) w.
Definition suspended_org (id reason : str) : Live Org :=
  mkLive (mkOrg id id id "suspended" (Some 1%Z) reason None 0) None.
Definition status_of (id : str) (w : World MemB) : option str :=
  org_Status <$> @Store.org_row ex_env id (w_db w).

(** Placing an organization lifts its suspension.  Assigning a cluster to an
    organization that the operator suspended sets its status to active. *)
Theorem AssignTenantCluster_lifts_suspension :
  let w := with_orgs [org_row "o1"; suspended_org "o2" "abuse"] ex_world in
  let out := @Tenants.AssignTenantCluster ex_env _ ex_services ctx_root "o2" "pooled" w in
  failed (fst out) = false /\ status_of "o2" w = Some "suspended" /\
  status_of "o2" (snd out) = Some "active".
Proof. by_eval. Qed.

(** A failed assignment can leave an organization without its default: the
    clearing statement and the insert are not one transaction. *)
Lemma failed_assignment_clears_default :
  let w := set_w_db (set_org_clusters [mkOrgClusterRow "o1" "c1" true 0] ex_db) ex_world in
  let out := @Tenants.AssignClusterToOrg (example_env Postgres (fault_at 3)) _ ex_services
               ctx_root "o1" "c2" true w in
  failed (fst out) = true /\ Store.default_cluster "o1" (w_db w) = Some "c1" /\
  Store.default_cluster "o1" (w_db (snd out)) = None.
Proof. by_eval. Qed.

Definition billed (w : World MemB) : World MemB :=
  set_w_db (set_billing [mkBillingCustomer "o1" "cus1" "sub1" "si1" "si2" "si3" "active"] (w_db w)) w.
(** A processor that refuses the first three posts and accepts every later one. *)
Definition flaky_services : Services MemB :=
  let s := ex_services in
  mkServices (s_Provider s) (s_HasReg s) (s_Factories s) (s_PrimaryPublicEndpoint s)
    (s_SealerOpen s) (s_SealerSeal s) (s_Authz s) (s_Ent s) (s_Provision s) true
    (fun n _ _ _ => (3 <=? n)%nat) (s_OrgID s) (s_ProjectID s) (s_ClusterID s) (s_SystemKeyID s)
    (s_WebPublicDomain s) (s_PublicBaseURL s) (s_Settings s).

(** A refused usage post is never made again.  The ledger entry is written
    before the post: when the processor refuses all three posts of a pass, a
    later pass of the same day posts nothing although it would be accepted. *)
Theorem refused_post_not_retried :
  let w1 := snd (@Billing.BillingReportOnce ex_env _ flaky_services (billed ex_world)) in
  let w2 := snd (@Billing.BillingReportOnce ex_env _ flaky_services w1) in
  length (posts (w_fx w1)) = 3 /\
  forallb (fun n => negb (s_BillingReport flaky_services n "" 0 "")) [0; 1; 2] = true /\
  s_BillingReport flaky_services 3 "" 0 "" = true /\ w_fx w2 = w_fx w1.
Proof. by_eval. Qed.

(** A successful payment reactivates an organization suspended for another
    reason. *)
Lemma payment_lifts_operator_suspension :
  let w := with_orgs [suspended_org "o1" "abuse"] ex_world in
  let parse := fun _ _ => inr (Billing.mkEvent "payment_succeeded" "" "o1") in
  let out := @Billing.HandleBillingWebhook ex_env _ ex_services parse (mkCtx None None None) "" "" w in
  fst out = inr tt /\ status_of "o1" w = Some "suspended" /\
  status_of "o1" (snd out) = Some "active".
Proof. by_eval. Qed.

(** * Usage collection *)

Definition quota_org (id : str) (max : Z) : Live Org :=
  mkLive (mkOrg id id id "active" None "" (Some max) 0) None.
Definition ctx_o2 : Ctx := ctx_of "dora" "owner" "o2" "p2" false.

(** Only the default project is measured.  With a ceiling of 10 bytes for o2
    and 7 stored in its bucket, the collector records nothing for o2, so an
    upload of 10 more bytes is accepted, and after collecting again another. *)
Theorem collector_leaves_quota_unenforced :
  let w0 := with_orgs [org_row "o1"; quota_org "o2" 10] ex_world in
  let w1 := snd (@Billing.CollectUsageOnce ex_env _ ex_services w0) in
  let put := fun k w => @Objects.PutObjectStream ex_env _ ex_services ctx_o2 "b2" k "0123456789" 10
                          "" "" w in
  let w2 := snd (put "y" w1) in
  let w3 := snd (@Billing.CollectUsageOnce ex_env _ ex_services w2) in
  map us_OrgID (usage (w_db w3)) = ["o1"; "o1"] /\
  fst (put "y" w1) = inr tt /\ fst (put "z" w3) = inr tt /\
  (10 < foldr (fun kv n => Z.of_nat (String.length (snd kv)) + n)%Z 0%Z
          (map_to_list (objects_of (w_be (snd (put "z" w3))) "two")))%Z.
Proof. by_eval. Qed.

(** ** Worked examples *)

Lemma platform_admin_gate_witness :
  @run_tenant_op ex_env _ ex_services ctx_alice "o1" OpResume ex_world =
  (inl Tenants.adminErr, ex_world).
Proof. exact (platform_admin_gate (ENV := ex_env) ex_services ctx_alice "o1" OpResume ex_world eq_refl). Defined.

Lemma one_default_cluster_witness :
  let calls := [(ctx_root, "o1", OpAssign "c1" true); (ctx_root, "o1", OpAssign "c2" true)] in
  let out := forM_ calls (fun c => let '(ctx, org, op) := c in
               ignore (E' := Error) (@run_tenant_op ex_env _ ex_services ctx org op)) ex_world in
  map (fun r => (oc_ClusterID r, oc_IsDefault r)) (org_clusters (w_db (snd out))) =
    [("c1", false); ("c2", true)] /\ placed (snd out).
Proof.
  intros calls out. split; [vm_compute; reflexivity|].
  refine (one_default_cluster (ENV := ex_env) ex_services calls ex_world _ _ _
            (surjective_pairing _)).
  split; [exact (NoDup_nil_2 (A := str * str))|]. intros r1 r2 H. vm_compute in H. inversion H.
Defined.

Lemma AssignClusterToOrg_places_witness :
  let out := @Tenants.AssignClusterToOrg ex_env _ ex_services ctx_root "o1" "c2" true ex_world in
  fst out = inr tt /\ Store.default_cluster "o1" (w_db (snd out)) = Some "c2".
Proof.
  intros out. assert (fst out = inr tt) as H by (vm_compute; reflexivity). split; [exact H|].
  refine (proj1 (proj2 (AssignClusterToOrg_places (ENV := ex_env) ex_services ctx_root "o1" "c2"
                          ex_world (snd out) _ _))).
  - split; [exact (NoDup_nil_2 (A := str * str))|]. intros r1 r2 Hr. vm_compute in Hr. inversion Hr.
  - rewrite <- H. apply surjective_pairing.
Defined.

Lemma usage_posted_once_witness :
  let out := forM_ (repeat tt 2) (fun _ => @Billing.BillingReportOnce ex_env _ ex_services)
               (billed ex_world) in
  length (posts (w_fx (snd out))) = 3 /\ ledger_wf (snd out).
Proof.
  intros out. split; [vm_compute; reflexivity|].
  refine (usage_posted_once (ENV := ex_env) ex_services 2 (billed ex_world) _ _ _
            (surjective_pairing _)).
  split; [exact (NoDup_nil_2 (A := str))|]. intros k Hk. vm_compute in Hk. inversion Hk.
Defined.

Lemma webhook_drives_org_witness :
  let parse := fun _ _ => inr (Billing.mkEvent "payment_failed" "cus1" "") in
  let out := @Billing.HandleBillingWebhook ex_env _ ex_services parse (mkCtx None None None) "" ""
               (billed ex_world) in
  status_of "o1" (snd out) = Some "suspended" /\ fst out = inr tt.
Proof.
  intros parse out. split; [vm_compute; reflexivity|].
  refine (proj1 (webhook_drives_org (ENV := ex_env) ex_services parse (mkCtx None None None) "" ""
                   (billed ex_world) _ _ _ (surjective_pairing _))).
  intros n. reflexivity.
Defined.
