(* ===== verification/MigrationProofs.v ===== *)
(** The migration worker: everything is copied when a job completes, a job that
    stopped can be resumed from its saved cursor, and the worker ends.  The
    interleaving with a cancellation closes the file. *)
From S2P Require Import Prelude GoStrings Storage S3core MemStore Database Repository AuditLog Service Frames Example Tenants Migrations.
#[local] Open Scope string_scope.
Import Migrations.

(** * What the worker relies on

    The source is another S3 service.  While the job runs its content is [m];
    [rest token] are the keys a listing continued from [token] has still to
    deliver, [left token] the number of pages. *)
Record SourceLaws {B} `{!S3Service B} (k : Worker (B := B)) (objs : B -> str -> gmap str str)
    (srcv : B -> gmap str str) (m : gmap str str) (rest : str -> gset str) (left_ : str -> nat)
    : Prop := {
  (** listing changes nothing; a page and the pages after it cover what is left *)
  sl_list : forall b b' tok r, srcv b = m ->
    Client.ListObjects (wk_Src k) (wk_SourceBucket k) (mkListObjectsInput "" "" tok 1000) b = (r, b') ->
    srcv b' = m /\ objs b' = objs b /\
    forall page, r = inr page ->
      let next := lor_NextContinuationToken page in
      if negb (lor_IsTruncated page) || (next =s "")
      then rest tok ⊆ list_to_set (obj_Key <$> lor_Objects page)
      else rest tok ⊆ list_to_set (obj_Key <$> lor_Objects page) ∪ rest next /\
           left_ next < left_ tok;
  sl_get : forall b b' key r, srcv b = m ->
    Client.GetObject (wk_Src k) None (wk_SourceBucket k) key b = (r, b') ->
    srcv b' = m /\ objs b' = objs b /\ forall body o, r = inr (body, o) -> m !! key = Some body;
  (** writing to the destination does not touch the source *)
  sl_put : forall b b' key body n ct r,
    sp_PutObject (wk_Dest k) None (wk_Alias k) key body n ct b = (r, b') -> srcv b' = srcv b;
  sl_head : forall b b' key r,
    sp_HeadObject (wk_Dest k) (wk_Alias k) key b = (r, b') -> srcv b' = srcv b;
  sl_start : rest "" = dom m
}.

Section Worker.
Context {ENV : Env} {B : Type} `{!S3Service B} (s : Services B) (quote : str -> str)
  (k : Worker (B := B)) (objs : B -> str -> gmap str str) `{!ObjectStore (wk_Dest k) objs}
  (srcv : B -> gmap str str) (m : gmap str str) (rest : str -> gset str) (left_ : str -> nat)
  (L : SourceLaws k objs srcv m rest left_).

(** Every key in [keys] has arrived. *)
Definition arrived (b : B) (P : str -> Prop) : Prop :=
  forall key body, m !! key = Some body -> P key -> objs b (wk_Alias k) !! key = Some body.
(** What a cursor promises: the keys before it have arrived. *)
Definition passed (b : B) (tok : str) : Prop := arrived b (fun key => key ∉ rest tok).

(** A step that keeps the source and only adds to what has arrived. *)
Definition grows (w w' : World B) : Prop :=
  srcv (w_be w) = m -> srcv (w_be w') = m /\ w_db w' = w_db w /\
  forall P, arrived (w_be w) P -> arrived (w_be w') P.

Lemma copyOne_ok o (w w' : World B) :
  copyOneObject k o w = (inr tt, w') -> srcv (w_be w) = m ->
  grows w w' /\ arrived (w_be w') (fun key => key = obj_Key o).
Proof.
  unfold copyOneObject. intros H Hs.
  apply bind_inr in H as ([body o'] & w1 & H1 & H). apply be_inv in H1 as (b1 & H1 & ->).
  destruct (sl_get _ _ _ _ _ _ L _ _ _ _ Hs H1) as (Hs1 & Ho1 & Hbody).
  specialize (Hbody _ _ eq_refl).
  apply bind_inr in H as ([] & w2 & H2 & H). apply be_inv in H2 as (b2 & H2 & ->). cbn in H2.
  pose proof (sl_put _ _ _ _ _ _ L _ _ _ _ _ _ _ H2) as Hs2.
  apply os_put in H2 as [Ho2 _].
  apply bind_inr in H as (h & w3 & H3 & H).
  rewrite attempt_run in H3. destruct (be (sp_HeadObject _ _ _) _) as [rh w3'] eqn:E3.
  injection H3 as <- <-. apply be_inv in E3 as (b3 & E3 & ->). cbn in E3.
  pose proof (sl_head _ _ _ _ _ _ L _ _ _ _ E3) as Hs3. apply os_head_reads in E3 as Ho3.
  assert (w' = set_w_be b3 w) as ->.
  { destruct rh as [e|ho]; [|destruct (_ && _); [done|]]; unfold ret in H; by injection H as <-. }
  assert (objs b3 (wk_Alias k) = <[obj_Key o := body]> (objs (w_be w) (wk_Alias k))) as Hfin
    by (rewrite Ho3, Ho2, Ho1; done).
  split.
  - intros _. split; [cbn; congruence|]. split; [done|]. intros P HP key body' Hm Hk. cbn.
    rewrite Hfin. destruct (decide (key = obj_Key o)) as [->|Hne].
    + rewrite lookup_insert_eq. congruence.
    + rewrite lookup_insert_ne by done. by apply HP.
  - intros key body' Hm ->. cbn. rewrite Hfin, lookup_insert_eq. congruence.
Qed.

Lemma grows_trans w1 w2 w3 : srcv (w_be w1) = m -> grows w1 w2 -> grows w2 w3 -> grows w1 w3.
Proof.
  intros Hs H12 H23 _. destruct (H12 Hs) as (Hs2 & Hd2 & Ha2).
  destruct (H23 Hs2) as (Hs3 & Hd3 & Ha3). split; [done|]. split; [congruence|]. eauto.
Qed.

Lemma copyPage_ok l : Forall (fun o => obj_IsPrefix o = false) l -> forall acc (w : World B) r w',
  foldM (fun acc o =>
    if obj_IsPrefix o then ret acc
    else do! mapErr (pair (obj_Key o)) (copyOneObject k o) in
      do! fx (FxMeter EventObjectUploaded (tc_OrgID (tenant s (wk_Ctx k))) (wk_DestID k)
                (obj_Size o)) in
      ret (add64 (fst acc) 1, add64 (snd acc) (obj_Size o))) acc l w = (inr r, w') ->
  srcv (w_be w) = m ->
  grows w w' /\ arrived (w_be w') (fun key => key ∈ obj_Key <$> l).
Proof.
  induction l as [|o l IH]; intros Hl acc w r w' H Hs.
  - cbn in H. unfold ret in H. injection H as _ <-. split; [intros _; done|].
    intros key body _ Hk. set_solver.
  - apply Forall_cons in Hl as [Ho Hl]. cbn [foldM] in H. rewrite Ho in H.
    apply bind_inr in H as (acc1 & w1 & H1 & H).
    apply bind_inr in H1 as ([] & wa & Ha & H1). apply mapErr_inr in Ha.
    apply copyOne_ok in Ha as [Hg Harr]; [|done].
    apply bind_inr in H1 as ([] & wb & Hb & H1). unfold fx, modify in Hb. injection Hb as <-.
    unfold ret in H1. injection H1 as _ <-.
    destruct (Hg Hs) as (Hs1 & _ & _).
    apply (IH Hl) in H as [Hg2 Harr2]; [|exact Hs1].
    split; [by eapply grows_trans|].
    intros key body Hm Hk. cbn in Hk. apply elem_of_cons in Hk as [->|Hk].
    + destruct (Hg2 Hs1) as (_ & _ & Hmono).
      exact (Hmono (fun key => key = obj_Key o) Harr _ _ Hm eq_refl).
    + by apply Harr2.
Qed.

(** The objects of a listing are objects: common prefixes come apart. *)
Lemma ListObjects_no_prefix c bkt i b page b' :
  Client.ListObjects c bkt i b = (inr page, b') ->
  Forall (fun o => obj_IsPrefix o = false) (lor_Objects page).
Proof.
  unfold Client.ListObjects. intros H. apply bind_inr in H as (out & b1 & _ & H).
  unfold ret in H. injection H as <- _. cbn. apply Forall_fmap, Forall_true. done.
Qed.

(** The saved cursor of the job, if it has a row, keeps its promise. *)
Definition saved (w : World B) : Prop :=
  forall j, j ∈ migrations (w_db w) -> mj_ID j = wk_ID k -> passed (w_be w) (mj_Cursor j).

Definition everything (w : World B) : Prop := arrived (w_be w) (fun _ => True).

(** What holds between two steps of the worker.  After a failure nothing is
    claimed: a failed write may have done anything. *)
Definition worker_inv (st : WState) (w : World B) : Prop :=
  match st with
  | Done Failed => True
  | Done Completed => srcv (w_be w) = m /\ saved w /\ everything w
  | Done _ => srcv (w_be w) = m /\ saved w
  | Check p | Body p => srcv (w_be w) = m /\ saved w /\ passed (w_be w) (pr_Cursor p)
  end.

Lemma stop_inv status msg o (w : World B) r w' :
  stop k status msg o w = (r, w') ->
  r = inr (Done o) /\ w_be w' = w_be w /\
  forall j', j' ∈ migrations (w_db w') -> exists j, j ∈ migrations (w_db w) /\
    mj_ID j = mj_ID j' /\ mj_Cursor j = mj_Cursor j'.
Proof.
  unfold stop, ignore, bind, attempt. destruct (db _ w) as [r0 w0] eqn:E. unfold ret.
  intros [= <- <-]. apply db_inv in E as (d & E & ->). split; [done|]. split; [done|]. cbn.
  unfold Store.SetMigrationStatus in E. destruct r0 as [e|u].
  - apply stmt_inl in E as ->. intros j' Hj. exists j'. done.
  - apply exec_inr in E as ->. intros j' (j & -> & Hj)%list_elem_of_fmap. exists j.
    split; [done|]. by destruct (_ =s _).
Qed.
Lemma saved_stop (w w' : World B) :
  w_be w' = w_be w ->
  (forall j', j' ∈ migrations (w_db w') -> exists j, j ∈ migrations (w_db w) /\
    mj_ID j = mj_ID j' /\ mj_Cursor j = mj_Cursor j') -> saved w -> saved w'.
Proof.
  intros Hb Hj Hs j' Hin Hid. destruct (Hj j' Hin) as (j & H1 & H2 & H3).
  rewrite Hb, <- H3. apply Hs; [done|congruence].
Qed.

Lemma update_inv cursor n b (w : World B) r w' :
  ignore (E' := Error) (db (Store.UpdateMigrationProgress (wk_ID k) cursor n b)) w = (r, w') ->
  r = inr tt /\ w_be w' = w_be w /\
  forall j', j' ∈ migrations (w_db w') -> mj_ID j' = wk_ID k ->
    mj_Cursor j' = cursor \/ exists j, j ∈ migrations (w_db w) /\
      mj_ID j = wk_ID k /\ mj_Cursor j = mj_Cursor j'.
Proof.
  unfold ignore, bind, attempt. destruct (db _ w) as [r0 w0] eqn:E. unfold ret.
  intros [= <- <-]. apply db_inv in E as (d & E & ->). split; [done|]. split; [done|]. cbn.
  unfold Store.UpdateMigrationProgress in E. destruct r0 as [e|u].
  - apply stmt_inl in E as ->. intros j' Hj Hid. right. eauto.
  - apply exec_inr in E as ->. intros j' (j & -> & Hj)%list_elem_of_fmap Hid.
    destruct (mj_ID j =s env_as_uuid (wk_ID k)) eqn:Ej; [by left|right; eauto].
Qed.

(** A page and what came before it give what the next cursor promises. *)
Lemma page_passed (w w2 : World B) tok page :
  passed (w_be w) tok -> grows w w2 -> srcv (w_be w) = m ->
  arrived (w_be w2) (fun key => key ∈ obj_Key <$> lor_Objects page) ->
  (let next := lor_NextContinuationToken page in
   if negb (lor_IsTruncated page) || (next =s "")
   then rest tok ⊆ list_to_set (obj_Key <$> lor_Objects page)
   else rest tok ⊆ list_to_set (obj_Key <$> lor_Objects page) ∪ rest next /\
        left_ next < left_ tok) ->
  if negb (lor_IsTruncated page) || (lor_NextContinuationToken page =s "")
  then everything w2 else passed (w_be w2) (lor_NextContinuationToken page).
Proof.
  intros Hp Hg Hs Harr Hc. destruct (Hg Hs) as (_ & _ & Hmono). apply Hmono in Hp.
  cbv zeta in Hc. destruct (negb _ || _).
  - intros key body Hm _. destruct (decide (key ∈ rest tok)) as [Hr|Hr]; [|by apply Hp].
    apply Hc in Hr. apply Harr; [done|]. by apply elem_of_list_to_set in Hr.
  - destruct Hc as [Hc _]. intros key body Hm Hk.
    destruct (decide (key ∈ rest tok)) as [Hr|Hr]; [|by apply Hp].
    apply Hc, elem_of_union in Hr as [Hr|Hr]; [|done].
    apply Harr; [done|]. by apply elem_of_list_to_set in Hr.
Qed.

Lemma workerBody_inv p (w : World B) r w' :
  worker_inv (Body p) w -> workerBody s quote k p w = (r, w') ->
  exists st, r = inr st /\ worker_inv st w' /\
    match st with Check p' => left_ (pr_Cursor p') < left_ (pr_Cursor p) | Body _ => False | _ => True end.
Proof.
  intros (Hs & Hsv & Hp) H. unfold workerBody in H. rewrite bind_run, attempt_run in H.
  destruct (be _ w) as [rp w1] eqn:E1. apply be_inv in E1 as (b1 & E1 & ->).
  destruct rp as [e|page]; [apply stop_inv in H as (-> & _); by eexists|].
  destruct (sl_list _ _ _ _ _ _ L _ _ _ _ Hs E1) as (Hs1 & Ho1 & Hpage).
  specialize (Hpage page eq_refl). apply ListObjects_no_prefix in E1 as Hnp.
  assert (grows w (set_w_be b1 w)) as Hg1.
  { intros _. split; [done|]. split; [done|]. intros P HP key body Hm Hk. cbn.
    rewrite Ho1. by apply HP. }
  rewrite bind_run, attempt_run in H.
  destruct (copyPage s k p (lor_Objects page) (set_w_be b1 w)) as [rc w2] eqn:E2.
  destruct rc as [[key e]|[n b]]; [apply stop_inv in H as (-> & _); by eexists|].
  apply copyPage_ok in E2 as [Hg2 Harr]; [|done|done].
  pose proof (grows_trans _ _ _ Hs Hg1 Hg2) as Hg.
  pose proof (page_passed _ _ _ _ Hp Hg Hs Harr Hpage) as Hnext.
  destruct (Hg Hs) as (Hs2 & Hd2 & Hmono). cbv zeta in H. rewrite bind_run in H.
  destruct (ignore _ w2) as [ru w3] eqn:E3. apply update_inv in E3 as (-> & Hb3 & Hj3).
  assert (saved w3 /\ if negb (lor_IsTruncated page) || (lor_NextContinuationToken page =s "")
            then everything w3 else passed (w_be w3) (lor_NextContinuationToken page))
    as [Hsv3 Hn3].
  { assert (passed (w_be w2) (lor_NextContinuationToken page)) as Hpn.
    { destruct (negb _ || _); [|done]. intros key body Hm _. by apply Hnext. }
    split; [|unfold everything in *; by rewrite Hb3]. intros j' Hin Hid. rewrite Hb3.
    destruct (Hj3 j' Hin Hid) as [->|(j & H1 & H2 & <-)]; [done|].
    apply Hmono. rewrite Hd2 in H1. by apply Hsv. }
  rewrite <- Hb3 in Hs2. cbv zeta in Hpage.
  destruct (negb _ || _).
  - apply stop_inv in H as (-> & Hb4 & Hj4). eexists. split; [done|]. split; [|done]. cbn.
    split; [by rewrite Hb4|]. split; [by eapply saved_stop|]. unfold everything. by rewrite Hb4.
  - unfold ret in H. injection H as <- <-. eexists. split; [done|]. split; [done|].
    cbn. apply Hpage.
Qed.

Lemma workerCheck_inv p (w : World B) r w' :
  worker_inv (Check p) w -> workerCheck k p w = (r, w') ->
  exists st, r = inr st /\ worker_inv st w' /\ (st = Body p \/ st = Done Canceled).
Proof.
  intros (Hs & Hsv & Hp) H. unfold workerCheck, Store.GetMigrationJobByID in H.
  rewrite bind_run, attempt_run in H. destruct (db _ w) as [rj w1] eqn:E1.
  assert (migrations (w_db w1) = migrations (w_db w) /\ w_be w1 = w_be w) as [Hm1 Hb1].
  { apply db_inv in E1 as (d & E1 & ->). split; [|done]. cbn. destruct rj as [e|j].
    - apply mapErr_inl in E1 as (e0 & E1 & _). apply stmt_inl in E1 as ->. done.
    - apply mapErr_inr, query_row_inr in E1 as [-> _]. done. }
  assert (saved w1) as Hsv1 by (unfold saved; by rewrite Hm1, Hb1).
  unfold ret in H. injection H as <- <-. eexists. split; [done|].
  destruct (is_canceled rj); cbn; rewrite Hb1; auto.
Qed.

(** Steps still needed, given the pages left. *)
Definition steps_left (st : WState) : nat :=
  match st with
  | Check p => 2 * left_ (pr_Cursor p) + 2
  | Body p => 2 * left_ (pr_Cursor p) + 1
  | Done _ => 0
  end.

(** C6: a migration copies everything, can be resumed, and ends.  Started in a
    state where the keys before its cursor have arrived, the worker keeps that
    promise for the cursor it saves, whenever it stops short of a failure (a
    crash after any step, or a cancellation), so that a later run resumes
    without losing a key; when it reports completion every object of the source
    is in the destination with its content; and it ends within two steps per
    page. *)
Theorem migration_resumable fuel st (w : World B) r w'
    (Hinv : worker_inv st w)
    (Hrun : runWorker s quote fuel k st w = (r, w')) :
  exists st', r = inr st' /\ worker_inv st' w' /\
    (steps_left st <= fuel -> exists o, st' = Done o).
Proof.
  revert st w Hinv Hrun. induction fuel as [|fuel IH]; intros st w Hinv Hrun.
  - exists st. destruct st as [p|p|o]; cbn in Hrun; unfold ret in Hrun; injection Hrun as <- <-;
      (split; [done|]); (split; [done|]); cbn; [lia|lia|eauto].
  - destruct st as [p|p|o]; cbn [runWorker workerStep] in Hrun.
    + rewrite bind_run in Hrun. destruct (workerCheck k p w) as [r1 w1] eqn:E1.
      apply workerCheck_inv in E1 as (st1 & -> & Hinv1 & Hst1); [|done].
      apply IH in Hrun as (st' & -> & Hinv' & Hend); [|done].
      exists st'. split; [done|]. split; [done|]. intros Hf. apply Hend.
      destruct Hst1 as [->| ->]; cbn in *; lia.
    + rewrite bind_run in Hrun. destruct (workerBody s quote k p w) as [r1 w1] eqn:E1.
      apply workerBody_inv in E1 as (st1 & -> & Hinv1 & Hst1); [|done].
      apply IH in Hrun as (st' & -> & Hinv' & Hend); [|done].
      exists st'. split; [done|]. split; [done|]. intros Hf. apply Hend.
      destruct st1; cbn in *; lia.
    + unfold ret in Hrun. injection Hrun as <- <-. eexists. split; [done|]. split; [done|]. eauto.
Qed.
End Worker.

(** * A source in memory

    An S3 service over the in-memory backend whose pages hold one object; only
    the two calls the worker makes on its source are served. *)
Definition refuse {A} : M MemB StErr A := throw (OtherErr "not served").

Definition mem_list_v2 (i : ListV2Input) : M MemB StErr ListV2Output :=
  let! r := mem_list (lv2_Bucket i)
    (mkListObjectsInput (ToString (lv2_Prefix i)) "" (ToString (lv2_ContinuationToken i)) 1) in
  ret (mkListV2Output
    (map (fun o => mkS3Obj (Some (obj_Key o)) (Some (obj_Size o)) None None) (lor_Objects r)) []
    (optString (lor_NextContinuationToken r)) (Some (lor_IsTruncated r))).

#[local] Instance mem_s3 : S3Service MemB := {|
  s3_CreateBucket _ _ := refuse; s3_DeleteBucket _ _ := refuse; s3_ListBuckets _ := refuse;
  s3_ListObjectsV2 _ := mem_list_v2;
  s3_HeadObject _ _ _ := refuse; s3_DeleteObject _ _ _ _ := refuse; s3_DeleteObjects _ _ _ := refuse;
  s3_CopyObject _ _ _ _ := refuse; s3_GetBucketVersioning _ _ := refuse;
  s3_PutBucketVersioning _ _ _ := refuse; s3_ListObjectVersions _ _ _ := refuse;
  s3_PutObject _ _ := refuse;
  s3_GetObject _ bkt key _ := let! r := mem_get None bkt key in
    ret (fst r, mkHeadOutput (Some (obj_Size (snd r))) None None);
  s3_PresignPut _ _ _ _ _ := refuse; s3_PresignGet _ _ _ _ := refuse;
  s3_PutBucketCors _ _ _ := refuse; s3_GetBucketCors _ _ := refuse; s3_DeleteBucketCors _ _ := refuse;
  s3_PutBucketLifecycle _ _ _ := refuse; s3_GetBucketLifecycle _ _ := refuse;
  s3_DeleteBucketLifecycle _ _ := refuse;
  s3_base64_decode _ := None; s3_md5_base64 x := x; s3_now _ := 0%Z |}.

Definition ex_source : gmap str str := {[ "k1" := "first"; "k2" := "second" ]}.
Definition ex_source_list : list (str * str) := map_to_list ex_source.

(** A job that copies bucket src into bucket b1 of the example deployment. *)
Definition ex_job : MigrationJob :=
  mkMigrationJob "j1" "o1" "http://src" "us-east-1" "src" "AK" "secret" "b1" "pending" 0 0 "" "" 0.
Definition mig_world : World MemB :=
  set_w_be (<["src" := ex_source]> ex_backend) (set_w_db (set_migrations [ex_job] ex_db) ex_world).
Definition ex_worker : Worker (B := MemB) :=
  mkWorker "j1" "src" (Client.New "http://src" "http://src" "us-east-1" "AK" "secret")
    (s_Provider ex_services) "one" "b1"
    (mkCtx None (Some (mkTenantContext "o1" "p1" "c1")) None).

Definition offset (tok : str) : nat := Z.to_nat (default 0%Z (Atoi tok)).
Definition ex_rest (tok : str) : gset str := list_to_set (map fst (drop (offset tok) ex_source_list)).
Definition ex_left (tok : str) : nat := length (drop (offset tok) ex_source_list).

Lemma src_lookup (b : MemB) : objects_of b "src" = ex_source -> b !! "src" = Some ex_source.
Proof.
  unfold objects_of. destruct (b !! "src") as [x|] eqn:E; cbn; intros H; [by subst|].
  exfalso. apply (f_equal (fun mm : gmap str str => mm !! "k1")) in H. vm_compute in H. discriminate.
Qed.

Lemma default_optString x : default "" (optString x) = x.
Proof. unfold optString. destruct (x =s "") eqn:E; [by apply eqb_true_str in E as ->|done]. Qed.

Lemma ex_source_laws :
  SourceLaws ex_worker objects_of (fun b => objects_of b "src") ex_source ex_rest ex_left.
Proof.
  constructor.
  - intros b b' tok r Hs H. apply src_lookup in Hs as Hsrc.
    assert (b' = b /\ r = inr (mkListObjectsResult
      (map (fun kv => mkObject (fst kv) (Z.of_nat (String.length (snd kv))) zero_time "" false)
         (take 1 (drop (offset tok) ex_source_list))) []
      (if (1 <? length (drop (offset tok) ex_source_list))%nat
       then Itoa (Z.of_nat (offset tok + 1)) else "")
      (1 <? length (drop (offset tok) ex_source_list))%nat)) as [-> ->].
    { unfold Client.ListObjects, bind, s3_ListObjectsV2, mem_s3, mem_list_v2, mem_list, with_bucket,
        bind in H. cbn [lv2_Bucket] in H. change (wk_SourceBucket ex_worker) with "src" in H.
      rewrite Hsrc in H. cbn in H.
      rewrite !default_optString in H. fold (offset tok) in H. fold ex_source_list in H.
      assert (where_ (fun kv : str * str => HasPrefix (fst kv) "") ex_source_list = ex_source_list)
        as Hw by (vm_compute; reflexivity).
      rewrite Hw in H. unfold ret in H. injection H as <- <-. split; [done|]. f_equal.
      change (Z.to_nat 1) with 1. f_equal. change (@fmap list list_fmap) with (@map).
      rewrite !map_map. reflexivity. }
    split; [done|]. split; [done|]. intros page [= <-]. cbv zeta. cbn [lor_IsTruncated
      lor_NextContinuationToken lor_Objects]. unfold ex_rest, ex_left.
    assert (exists x y, ex_source_list = [x; y]) as (x & y & ->)
      by (eexists _, _; vm_compute; reflexivity).
    destruct (offset tok) as [|[|n]]; [|set_solver|].
    + change (Itoa (Z.of_nat (0 + 1))) with "1".
      change (1 <? length (drop 0 [x; y]))%nat with true. cbv iota. change (offset "1") with 1.
      split; [cbn -[union]; set_solver|cbn; lia].
    + cbn. rewrite drop_nil. set_solver.
  - intros b b' key r Hs H. apply src_lookup in Hs as Hsrc.
    unfold Client.GetObject, bind, s3_GetObject, mem_s3, mem_get, with_bucket, bind in H.
    cbn [wk_SourceBucket ex_worker] in H. rewrite Hsrc in H.
    destruct (ex_source !! key) as [body|] eqn:E; cbn in H; injection H as <- <-;
      (split; [done|]); (split; [done|]); intros body' o [= ->]; done.
  - intros b b' key body n ct r H. cbn in H. unfold mem_put, with_bucket in H.
    destruct (b !! "one"); injection H as _ <-; [|done]. by apply objects_of_insert_ne.
  - intros b b' key r H. cbn in H. unfold mem_head, with_bucket in H.
    destruct (b !! "one"); by injection H as _ <-.
  - vm_compute. reflexivity.
Qed.

(** * A cancellation in the middle *)

(** A cancellation can be lost.  The job has two pages.  The worker checks,
    a request cancels the job and is told so, the worker copies its page and
    saves its progress, which sets the status back to running: the worker goes
    on, copies the rest and ends the job as completed.  Had the request come
    before the check, the worker would have stopped. *)
Theorem cancel_lost :
  let q := fun x => x in
  let p0 := mkProgress "" 0 0 in
  let step := @runWorker ex_env _ _ ex_services q 1 ex_worker in
  let '(st1, w1) := step (Check p0) mig_world in
  let '(c, w2) := @CancelMigration ex_env _ ex_services ctx_alice "j1" w1 in
  let '(st3, w3) := step (Body p0) w2 in
  let out := @runWorker ex_env _ _ ex_services q 10 ex_worker
               (match st3 with inr st => st | inl _ => Done Failed end) w3 in
  let early := @runWorker ex_env _ _ ex_services q 10 ex_worker (Check p0)
                 (snd (@CancelMigration ex_env _ ex_services ctx_alice "j1" mig_world)) in
  st1 = inr (Body p0) /\ c = inr tt /\
  map mj_Status (migrations (w_db w2)) = ["canceled"] /\
  map mj_Status (migrations (w_db w3)) = ["running"] /\
  fst out = inr (Done Completed) /\
  map mj_Status (migrations (w_db (snd out))) = ["completed"] /\
  objects_of (w_be (snd out)) "one" !! "k2" = Some "second" /\
  fst early = inr (Done Canceled).
Proof. vm_compute. repeat split. Qed.

(** ** Worked example: the whole job *)

Lemma migration_resumable_witness :
  let out := @runWorker ex_env _ _ ex_services (fun x => x) 6 ex_worker
               (Check (mkProgress "" 0 0)) mig_world in
  fst out = inr (Done Completed) /\
  forall key body, ex_source !! key = Some body ->
    objects_of (w_be (snd out)) "one" !! key = Some body.
Proof.
  intros out. assert (fst out = inr (Done Completed)) as H by (vm_compute; reflexivity).
  split; [exact H|].
  destruct (migration_resumable (ENV := ex_env) ex_services (fun x => x) ex_worker objects_of
    (fun b => objects_of b "src") ex_source ex_rest ex_left ex_source_laws 6
    (Check (mkProgress "" 0 0)) mig_world (fst out) (snd out)) as (st' & H1 & H2 & _).
  - split; [vm_compute; reflexivity|].
    assert (forall key, key ∈ dom ex_source -> key ∈ ex_rest "") as Hall.
    { rewrite <- (sl_start _ _ _ _ _ _ ex_source_laws). done. }
    assert (forall b, passed ex_worker objects_of ex_source ex_rest b "") as Hp.
    { intros b key body Hm Hk. exfalso. apply Hk, Hall, elem_of_dom. eauto. }
    split; [|apply Hp]. intros j Hj _. cbn in Hj.
    apply list_elem_of_singleton in Hj as ->. apply Hp.
  - apply surjective_pairing.
  - rewrite H in H1. injection H1 as <-. destruct H2 as (_ & _ & H2).
    intros key body Hm. exact (H2 key body Hm I).
Defined.
