(* ===== verification/Envelope.v ===== *)
(** src/internal/secret/envelope.go and kek.go: envelope encryption of
    the secrets kept in the database.

    Bytes are characters.  The random source is a parameter.  Sealing is verified
    against the laws of an authenticated cipher, which AES-GCM (AesGcm.v) meets. *)
From Stdlib Require Import Ascii.
From S2P Require Import Prelude GoStrings AesGcm.
#[local] Open Scope string_scope.

Module Envelope.

Definition KEKSize : nat := 32.
Definition dekSize : nat := 32.
Definition nonceSize : nat := 12.
Definition gcmOverhead : nat := 16.
Definition envVersion : nat := 1.
Definition wrappedDEKSize : nat := dekSize + gcmOverhead.
Definition headerLen : nat := 1 + nonceSize + wrappedDEKSize + nonceSize.

(** crypto/cipher's GCM over crypto/aes, by key and nonce, without additional
    data. *)
Record AEAD := mkAEAD {
  gcm_Seal : str -> str -> str -> str;
  gcm_Open : str -> str -> str -> option str }.

(** What the code relies on, for nonces of the standard size: decryption undoes
    encryption, the tag adds 16 bytes, and a ciphertext that is accepted is the
    encryption of what it decrypts to. *)
Class AEADLaws (G : AEAD) : Prop := {
  gcm_open_seal : forall k n p, String.length n = nonceSize ->
    gcm_Open G k n (gcm_Seal G k n p) = Some p;
  gcm_length : forall k n p, String.length n = nonceSize ->
    String.length (gcm_Seal G k n p) = String.length p + gcmOverhead;
  gcm_authentic : forall k n c p, String.length n = nonceSize ->
    gcm_Open G k n c = Some p -> c = gcm_Seal G k n p }.

Definition aes_gcm : AEAD := mkAEAD AesGcm.Seal AesGcm.Open.
#[global] Instance aes_gcm_laws : AEADLaws aes_gcm.
Proof.
  constructor; cbn [gcm_Open gcm_Seal aes_gcm].
  - intros k n p Hn. by apply AesGcm.Open_Seal.
  - intros k n p Hn. by apply AesGcm.Seal_length.
  - intros k n c p Hn. by apply AesGcm.Open_authentic.
Qed.

Section Envelope.
Context (G : AEAD).
(** [rand.Read] into a buffer of the given size, at the i-th call. *)
Context (rnd : nat -> nat -> option str).

(** [aes.NewCipher] accepts keys of 16, 24 or 32 bytes. *)
Definition newGCM (key : str) : str + str :=
  let n := String.length key in
  if Nat.eqb n 16 || Nat.eqb n 24 || Nat.eqb n 32 then inr key
  else inl ("secret: new cipher: crypto/aes: invalid key size " ++ Itoa (Z.of_nat n)).

(** An [EnvelopeSealer] is its KEK. *)
Definition NewEnvelopeSealer (kek : str) : str + str :=
  if negb (Nat.eqb (String.length kek) KEKSize)
  then inl ("secret: KEK must be 32 bytes, got " ++ Itoa (Z.of_nat (String.length kek)))
  else newGCM kek.

(** A computation that draws random bytes. *)
Definition Rand : Type -> Type := M nat str.
Definition RandomBytes (n : nat) (err : str) : Rand str :=
  fun i => (match rnd i n with Some b => inr b | None => inl err end, S i).
Definition lift {A} (r : str + A) : Rand A := match r with inl e => throw e | inr a => ret a end.

Definition layout (kekNonce wrappedDEK dataNonce ciphertext : str) : str :=
  String (ascii_of_nat envVersion) (kekNonce ++ wrappedDEK ++ dataNonce ++ ciphertext).

Definition Seal (kek plaintext : str) : Rand str :=
  let! dek := RandomBytes dekSize "secret: gen DEK: rand" in
  let! dataGCM := lift (newGCM dek) in
  let! dataNonce := RandomBytes nonceSize "secret: gen data nonce: rand" in
  let ciphertext := gcm_Seal G dataGCM dataNonce plaintext in
  let! kekNonce := RandomBytes nonceSize "secret: gen KEK nonce: rand" in
  let wrappedDEK := gcm_Seal G kek kekNonce dek in
  ret (layout kekNonce wrappedDEK dataNonce ciphertext).

(** [blob[lo : lo+n]] *)
Definition slice (lo n : nat) (blob : str) : str := str_take n (str_drop lo blob).

Definition Open (kek blob : str) : str + str :=
  if (String.length blob <? headerLen)%nat then inl "secret: blob too short"
  else
    match blob with
    | "" => inl "secret: blob too short"
    | String v _ =>
        if negb (Nat.eqb (nat_of_ascii v) envVersion)
        then inl ("secret: unsupported blob version " ++ Itoa (Z.of_nat (nat_of_ascii v)))
        else
          let kekNonce := slice 1 nonceSize blob in
          let wrappedDEK := slice (1 + nonceSize) wrappedDEKSize blob in
          let dataNonce := slice (1 + nonceSize + wrappedDEKSize) nonceSize blob in
          let ciphertext := str_drop headerLen blob in
          match gcm_Open G kek kekNonce wrappedDEK with
          | None => inl "secret: unwrap DEK (wrong KEK or tampered): cipher: message authentication failed"
          | Some dek =>
              match newGCM dek with
              | inl e => inl e
              | inr dataGCM =>
                  match gcm_Open G dataGCM dataNonce ciphertext with
                  | None => inl "secret: decrypt (tampered): cipher: message authentication failed"
                  | Some plaintext => inr plaintext
                  end
              end
          end
    end.

(** kek.go: base64 with or without padding, or exactly 32 raw bytes. *)
Definition decodeKEK (b64 b64raw : str -> option str) (v : str) : str + str :=
  let s := TrimSpace v in
  let is32 := fun o => match o with Some raw => Nat.eqb (String.length raw) KEKSize | None => false end in
  if is32 (b64 s) then inr (default "" (b64 s))
  else if is32 (b64raw s) then inr (default "" (b64raw s))
  else if Nat.eqb (String.length v) KEKSize then inr v
  else inl "secret: KEK must be 32 bytes (base64 or raw)".

(** ** Layout *)

Lemma slice_app (a b c : str) :
  slice (String.length a) (String.length b) (a ++ b ++ c) = b.
Proof. unfold slice. by rewrite str_drop_app, str_take_app. Qed.

(** The fields of a blob are read back from the offsets the layout puts them at. *)
Lemma layout_fields kn wd dn ct :
  String.length kn = nonceSize -> String.length wd = wrappedDEKSize ->
  String.length dn = nonceSize ->
  let blob := layout kn wd dn ct in
  slice 1 nonceSize blob = kn /\ slice (1 + nonceSize) wrappedDEKSize blob = wd /\
  slice (1 + nonceSize + wrappedDEKSize) nonceSize blob = dn /\ str_drop headerLen blob = ct.
Proof.
  intros Hk Hw Hd. cbv zeta. set (v := String (ascii_of_nat envVersion) "").
  assert (String.length v = 1) as Hv by done.
  unfold layout. change (String (ascii_of_nat envVersion) (kn ++ wd ++ dn ++ ct))
    with (v ++ kn ++ wd ++ dn ++ ct).
  split; [rewrite <- Hv, <- Hk; apply slice_app|]. split; [|split].
  - rewrite <- Hv, <- Hk, <- str_length_app, <- Hw, <- (str_app_assoc v kn). apply slice_app.
  - rewrite <- Hv, <- Hk at 1. rewrite <- str_length_app, <- Hw, <- str_length_app, <- Hd.
    rewrite <- (str_app_assoc v kn), <- (str_app_assoc (v ++ kn) wd). apply slice_app.
  - unfold headerLen. rewrite <- Hv. rewrite <- Hk at 1. rewrite <- str_length_app, <- Hw,
      <- str_length_app, <- Hd, <- str_length_app.
    rewrite <- (str_app_assoc v kn), <- (str_app_assoc (v ++ kn) wd),
      <- (str_app_assoc ((v ++ kn) ++ wd) dn). apply str_drop_app.
Qed.

Context `{!AEADLaws G}.

Lemma newGCM_inr key g : newGCM key = inr g -> g = key.
Proof. unfold newGCM. destruct (_ || _); congruence. Qed.

(** [Open] on a blob of the layout. *)
Lemma Open_layout kek kn wd dn ct :
  String.length kn = nonceSize -> String.length wd = wrappedDEKSize ->
  String.length dn = nonceSize ->
  Open kek (layout kn wd dn ct) =
  match gcm_Open G kek kn wd with
  | None => inl "secret: unwrap DEK (wrong KEK or tampered): cipher: message authentication failed"
  | Some dek =>
      match newGCM dek with
      | inl e => inl e
      | inr g => match gcm_Open G g dn ct with
                 | None => inl "secret: decrypt (tampered): cipher: message authentication failed"
                 | Some p => inr p
                 end
      end
  end.
Proof.
  intros Hk Hw Hd. destruct (layout_fields kn wd dn ct Hk Hw Hd) as (F1 & F2 & F3 & F4).
  unfold Open. rewrite F1, F2, F3, F4.
  assert ((String.length (layout kn wd dn ct) <? headerLen)%nat = false) as ->.
  { apply Nat.ltb_ge. unfold layout. cbn [String.length].
    rewrite !str_length_app, Hk, Hw, Hd. unfold headerLen. lia. }
  reflexivity.
Qed.

(** A draw that fills its buffer, or the failure of the random source. *)
Lemma RandomBytes_cases n e i r j :
  RandomBytes n e i = (r, j) ->
  match r with inr b => rnd i n = Some b | inl _ => rnd i n = None end.
Proof. unfold RandomBytes. destruct (rnd i n); by intros [= <- <-]. Qed.

(** Sealing and opening with a cipher that meets the laws. *)
Lemma Seal_then_Open kek p i r j
    (Hrnd : forall i n b, rnd i n = Some b -> String.length b = n)
    (Hrun : Seal kek p i = (r, j)) :
  match r with
  | inr blob => Open kek blob = inr p /\ String.length blob = String.length p + 89
  | inl _ => exists k n, rnd k n = None
  end.
Proof.
  unfold Seal, bind in Hrun. unfold lift, newGCM, ret in Hrun.
  destruct (RandomBytes dekSize _ i) as [[e1|dek] i1] eqn:H1; apply RandomBytes_cases in H1;
    [injection Hrun as <- _; eauto|].
  apply Hrnd in H1. rewrite H1 in Hrun. cbn [Nat.eqb dekSize orb] in Hrun.
  destruct (RandomBytes nonceSize _ i1) as [[e2|dn] i2] eqn:H2; apply RandomBytes_cases in H2;
    [injection Hrun as <- _; eauto|]. apply Hrnd in H2.
  destruct (RandomBytes nonceSize _ i2) as [[e3|kn] i3] eqn:H3; apply RandomBytes_cases in H3;
    [injection Hrun as <- _; eauto|]. apply Hrnd in H3. injection Hrun as <- _.
  assert (String.length (gcm_Seal G kek kn dek) = wrappedDEKSize) as Hw
    by (by rewrite gcm_length, H1 by done).
  rewrite Open_layout by done. unfold newGCM. rewrite gcm_open_seal, H1 by done. cbn [Nat.eqb dekSize orb].
  rewrite gcm_open_seal by done. split; [done|].
  unfold layout. cbn [String.length]. rewrite !str_length_app, !gcm_length, H1, H2, H3 by done.
  unfold nonceSize, dekSize, gcmOverhead. lia.
Qed.

(** A blob of at least the header's length is the layout of its fields. *)
Lemma blob_layout v rest :
  Nat.eqb (nat_of_ascii v) envVersion = true -> headerLen <= String.length (String v rest) ->
  let blob := String v rest in
  blob = layout (slice 1 nonceSize blob) (slice (1 + nonceSize) wrappedDEKSize blob)
           (slice (1 + nonceSize + wrappedDEKSize) nonceSize blob) (str_drop headerLen blob) /\
  String.length (slice 1 nonceSize blob) = nonceSize /\
  String.length (slice (1 + nonceSize) wrappedDEKSize blob) = wrappedDEKSize /\
  String.length (slice (1 + nonceSize + wrappedDEKSize) nonceSize blob) = nonceSize.
Proof.
  intros Hv Hlen. cbv zeta. apply Nat.eqb_eq in Hv.
  assert (v = ascii_of_nat envVersion) as -> by (by rewrite <- Hv, ascii_nat_embedding).
  unfold headerLen, slice in *. cbn [String.length] in Hlen.
  split; [|split; [|split]]; try (apply str_take_length; rewrite str_drop_length;
    cbn [String.length]; unfold nonceSize, wrappedDEKSize, dekSize, gcmOverhead in *; lia).
  unfold layout. f_equal.
  assert (forall a n (x : str), str_drop (a + n) x = str_drop n (str_drop a x)) as Hdd.
  { induction a as [|a IH]; intros n [|c x]; cbn; [done|done|by destruct n|apply IH]. }
  rewrite !Hdd. cbn [str_drop].
  rewrite !str_take_drop. done.
Qed.

Lemma Open_layout_inv kek blob p
    (Hopen : Open kek blob = inr p) :
  exists dek kn dn,
    blob = layout kn (gcm_Seal G kek kn dek) dn (gcm_Seal G dek dn p) /\
    String.length dek = dekSize /\ String.length kn = nonceSize /\ String.length dn = nonceSize.
Proof.
  unfold Open in Hopen. destruct (_ <? _)%nat eqn:El; [done|]. apply Nat.ltb_ge in El.
  destruct blob as [|v rest]; [done|]. destruct (Nat.eqb _ _) eqn:Ev; [|done].
  cbn [negb] in Hopen. destruct (blob_layout v rest Ev El) as (Hb & Lk & Lw & Ld).
  cbv zeta in Hopen, Hb.
  destruct (gcm_Open G kek _ _) as [dek|] eqn:E1; [|done].
  destruct (newGCM dek) as [e|g] eqn:Eg; [done|]. apply newGCM_inr in Eg as ->.
  destruct (gcm_Open G dek _ _) as [p'|] eqn:E2; [|done]. injection Hopen as ->.
  apply gcm_authentic in E1; [|done]. apply gcm_authentic in E2; [|done].
  exists dek, (slice 1 nonceSize (String v rest)),
    (slice (1 + nonceSize + wrappedDEKSize) nonceSize (String v rest)).
  rewrite <- E1, <- E2. split; [exact Hb|]. split; [|done].
  rewrite E1, gcm_length in Lw by done. unfold wrappedDEKSize in Lw. lia.
Qed.
End Envelope.

(** ** With AES-GCM *)

(** C20: sealing and opening are inverse.  With a random source that fills the
    buffers it is given, [Seal] fails only when one of the source's answers is
    an error, and the blob it returns otherwise opens under the same KEK to the
    plaintext and is 89 bytes longer. *)
Theorem Seal_Open_roundtrip rnd kek p i r j
    (Hrnd : forall i n b, rnd i n = Some b -> String.length b = n)
    (Hrun : Seal aes_gcm rnd kek p i = (r, j)) :
  match r with
  | inr blob => Open aes_gcm kek blob = inr p /\ String.length blob = String.length p + 89
  | inl _ => exists k n, rnd k n = None
  end.
Proof. exact (Seal_then_Open aes_gcm rnd kek p i r j Hrnd Hrun). Qed.

(** C21: only sealed blobs open.  A blob that opens is, byte for byte, the layout
    of a 32-byte data key wrapped under the KEK and of the plaintext encrypted
    under that data key with AES-GCM: no other version, length or byte is
    accepted. *)
Theorem Open_only_sealed kek blob p
    (Hopen : Open aes_gcm kek blob = inr p) :
  exists dek kn dn,
    blob = layout kn (AesGcm.Seal kek kn dek) dn (AesGcm.Seal dek dn p) /\
    String.length dek = dekSize /\ String.length kn = nonceSize /\ String.length dn = nonceSize.
Proof. exact (Open_layout_inv aes_gcm kek blob p Hopen). Qed.

(** ** A worked example: a random source that always answers zeros *)

Fixpoint zero_bytes (n : nat) : str := match n with 0 => "" | S n' => String zero (zero_bytes n') end.
Definition zero_rnd (_ n : nat) : option str := Some (zero_bytes n).
Definition zero_kek : str := zero_bytes 32.
Definition zero_sealed : str :=
  match fst (Seal aes_gcm zero_rnd zero_kek "admin-token" 0) with inr b => b | inl _ => "" end.

Lemma Seal_Open_roundtrip_witness :
  exists blob, fst (Seal aes_gcm zero_rnd zero_kek "admin-token" 0) = inr blob /\
    Open aes_gcm zero_kek blob = inr "admin-token" /\ String.length blob = 100.
Proof.
  destruct (Seal aes_gcm zero_rnd zero_kek "admin-token" 0) as [[e|blob] j] eqn:E;
    [exfalso; vm_compute in E; discriminate|].
  exists blob. split; [done|].
  refine (Seal_Open_roundtrip zero_rnd zero_kek "admin-token" 0 (inr blob) j _ E).
  intros _ n b [= <-]. induction n; cbn; congruence.
Defined.

Lemma Open_only_sealed_witness :
  exists dek kn dn, Open aes_gcm zero_kek zero_sealed = inr "admin-token" /\
    zero_sealed = layout kn (AesGcm.Seal zero_kek kn dek) dn (AesGcm.Seal dek dn "admin-token").
Proof.
  assert (Open aes_gcm zero_kek zero_sealed = inr "admin-token") as H by (vm_compute; reflexivity).
  destruct (Open_only_sealed zero_kek _ _ H) as (dek & kn & dn & Hb & _).
  exists dek, kn, dn. split; [exact H|exact Hb].
Defined.
End Envelope.
