(* ===== verification/Proxy.v ===== *)
(** src/internal/proxy/parse.go and proxy.go: the counting reverse proxy.

    The forwarding itself is net/http's; what is modelled is how a request is
    attributed and counted, and how the counters are drained. *)
From Stdlib Require Import Ascii.
From S2P Require Import Prelude GoStrings.
#[local] Open Scope string_scope.

Module Proxy.

(** * parse.go *)

Record Key := mkKey { key_AccessKeyID : str; key_Bucket : str; key_Method : str }.
#[export] Instance Key_eq_dec : EqDecision Key.
Proof. solve_decision. Defined.
#[export] Instance Key_countable : Countable Key.
Proof.
  refine (inj_countable' (fun k => (key_AccessKeyID k, key_Bucket k, key_Method k))
            (fun t => mkKey (fst (fst t)) (snd (fst t)) (snd t)) _). by intros [].
Defined.

(** The parts of an [http.Request] the proxy reads: the Authorization header,
    the decoded X-Amz-Credential query parameter, path, method, length. *)
Record Request := mkRequest {
  rq_Authorization : str; rq_AmzCredential : str; rq_Path : str; rq_Method : str;
  rq_ContentLength : Z }.

Definition beforeSlash (s : str) : str :=
  match IndexByte s "/" with Some i => str_take i s | None => s end.

Definition marker : str := "Credential=".

Definition credentialFromAuth (auth : str) : str :=
  if auth =s "" then ""
  else match Index auth marker with
       | None => ""
       | Some i =>
           let rest := str_drop (i + String.length marker) auth in
           let rest := match IndexAny rest (fun c => Ascii.eqb c "," || Ascii.eqb c " ") with
                       | Some j => str_take j rest
                       | None => rest
                       end in
           beforeSlash rest
       end.

Definition AccessKeyID (r : Request) : str :=
  let cred := credentialFromAuth (rq_Authorization r) in
  if negb (cred =s "") then cred
  else if negb (rq_AmzCredential r =s "") then beforeSlash (rq_AmzCredential r)
  else "".

Definition BucketFromPath (p : str) : str :=
  let p := TrimPrefix p "/" in
  if p =s "" then ""
  else match IndexByte p "/" with Some i => str_take i p | None => p end.

Definition KeyFor (r : Request) : Key :=
  mkKey (AccessKeyID r) (BucketFromPath (rq_Path r)) (rq_Method r).

(** * proxy.go *)

Record counter := mkCounter { ct_Requests : Z; ct_BytesIn : Z; ct_BytesOut : Z }.
Definition zero_counter : counter := mkCounter 0 0 0.

Abbreviation Aggregator := (gmap Key counter).

Definition NewAggregator : Aggregator := ∅.

Definition Add (a : Aggregator) (k : Key) (bytesIn bytesOut : Z) : Aggregator :=
  let c := default zero_counter (a !! k) in
  <[k := mkCounter (add64 (ct_Requests c) 1) (add64 (ct_BytesIn c) bytesIn)
           (add64 (ct_BytesOut c) bytesOut)]> a.

Record Sample := mkSample { sm_Key : Key; sm_Count : counter }.

(** The map is swapped for an empty one; samples come in no particular order. *)
Definition Drain (a : Aggregator) : list Sample * Aggregator :=
  (map (fun kc => mkSample (fst kc) (snd kc)) (map_to_list a), ∅).

(** One request, answered with [egress] bytes. *)
Definition ServeHTTP (a : Aggregator) (r : Request) (egress : Z) : Aggregator :=
  let bytesIn := if (0 <? rq_ContentLength r)%Z then rq_ContentLength r else 0%Z in
  Add a (KeyFor r) bytesIn egress.

(** What the handlers and the flusher do, in the order the mutex puts them. *)
Inductive Event := EvRequest (r : Request) (egress : Z) | EvFlush.

(** The batches handed to the flush function, and what is still held. *)
Fixpoint run (evs : list Event) (a : Aggregator) : list Sample * Aggregator :=
  match evs with
  | [] => ([], a)
  | EvRequest r n :: evs' => run evs' (ServeHTTP a r n)
  | EvFlush :: evs' =>
      let '(out, a') := Drain a in
      let '(more, a'') := run evs' a' in ((out ++ more)%list, a'')
  end.
End Proxy.

(** * Theorems *)

Import Proxy.

(** Counters add up componentwise, with the wrap-around of int64. *)
Definition cadd (c1 c2 : counter) : counter :=
  mkCounter (add64 (ct_Requests c1) (ct_Requests c2)) (add64 (ct_BytesIn c1) (ct_BytesIn c2))
    (add64 (ct_BytesOut c1) (ct_BytesOut c2)).
Definition csum (l : list counter) : counter := foldr cadd zero_counter l.

Lemma add64_comm x y : add64 x y = add64 y x.
Proof. unfold add64. by rewrite Z.add_comm. Qed.
Lemma cadd_assoc a b c : cadd a (cadd b c) = cadd (cadd a b) c.
Proof. unfold cadd. cbn. by rewrite !add64_assoc. Qed.
Lemma cadd_comm a b : cadd a b = cadd b a.
Proof. unfold cadd. f_equal; apply add64_comm. Qed.

(** Counters as the proxy holds them: in range. *)
Definition normal (c : counter) : Prop := cadd c zero_counter = c.
Lemma normal_cadd a b : normal (cadd a b).
Proof.
  unfold normal, cadd, add64. cbn. f_equal; by rewrite Z.add_0_r, wrap64_idem.
Qed.
Lemma normal_zero : normal zero_counter.
Proof. by vm_compute. Qed.
Lemma normal_csum l : normal (csum l).
Proof. destruct l; [apply normal_zero|apply normal_cadd]. Qed.
Lemma csum_app l1 l2 : csum (l1 ++ l2)%list = cadd (csum l1) (csum l2).
Proof.
  induction l1 as [|c l1 IH].
  - change (csum l2 = cadd zero_counter (csum l2)). rewrite cadd_comm. symmetry.
    apply normal_csum.
  - change (cadd c (csum (l1 ++ l2)%list) = cadd (cadd c (csum l1)) (csum l2)).
    by rewrite IH, cadd_assoc.
Qed.

(** What is known of a key: in a batch, in the aggregator, in the requests. *)
Definition drained (k : Key) (l : list Sample) : counter :=
  csum (map sm_Count (where_ (fun x => bool_decide (sm_Key x = k)) l)).
Definition held (k : Key) (a : Aggregator) : counter := default zero_counter (a !! k).
Definition one (r : Request) (egress : Z) : counter :=
  mkCounter 1 (if (0 <? rq_ContentLength r)%Z then rq_ContentLength r else 0%Z) egress.
Fixpoint served (k : Key) (evs : list Event) : counter :=
  match evs with
  | [] => zero_counter
  | EvRequest r n :: evs' =>
      if bool_decide (KeyFor r = k) then cadd (one r n) (served k evs') else served k evs'
  | EvFlush :: evs' => served k evs'
  end.

Definition agg_normal (a : Aggregator) : Prop := forall k c, a !! k = Some c -> normal c.
Lemma held_normal k a : agg_normal a -> normal (held k a).
Proof. intros H. unfold held. destruct (a !! k) eqn:E; [by eapply H|apply normal_zero]. Qed.

Lemma held_serve k a r n :
  held k (ServeHTTP a r n) =
  if bool_decide (KeyFor r = k) then cadd (held k a) (one r n) else held k a.
Proof.
  unfold held, ServeHTTP, Add. cbv zeta. case_bool_decide as Hk.
  - subst k. by rewrite lookup_insert_eq.
  - by rewrite lookup_insert_ne by done.
Qed.
Lemma serve_normal a r n : agg_normal a -> agg_normal (ServeHTTP a r n).
Proof.
  intros H k c. unfold ServeHTTP, Add. cbv zeta.
  destruct (decide (KeyFor r = k)) as [<-|Hne].
  - rewrite lookup_insert_eq. intros [= <-].
    apply (normal_cadd (default zero_counter (a !! KeyFor r)) (one r n)).
  - rewrite lookup_insert_ne by done. apply H.
Qed.

(** Draining hands over exactly what was held, one sample per key. *)
Lemma drained_Drain k a : agg_normal a -> drained k (fst (Drain a)) = held k a.
Proof.
  intros Hn. unfold Drain, drained, held. cbn [fst].
  assert (forall l : list (Key * counter), NoDup l.*1 ->
    map sm_Count (where_ (fun x => bool_decide (sm_Key x = k))
       (map (fun kc => mkSample (fst kc) (snd kc)) l)) =
    match list_to_map (M := gmap Key counter) l !! k with Some c => [c] | None => [] end) as Hl.
  { induction l as [|[k' c] l IH]; intros Hnd; cbn; [by rewrite lookup_empty|].
    apply NoDup_cons in Hnd as [Hnot Hnd]. specialize (IH Hnd).
    case_bool_decide as Hk; cbn.
    - subst k'. rewrite lookup_insert_eq, IH.
      assert (list_to_map (M := gmap Key counter) l !! k = None) as ->
        by (by apply not_elem_of_list_to_map_1). done.
    - rewrite lookup_insert_ne by done. exact IH. }
  rewrite Hl by apply NoDup_fst_map_to_list. rewrite list_to_map_to_list.
  destruct (a !! k) as [c|] eqn:E; [|done]. cbn. by apply (Hn k).
Qed.

Lemma drained_app k l1 l2 : drained k (l1 ++ l2)%list = cadd (drained k l1) (drained k l2).
Proof. unfold drained. by rewrite where_app, map_app, csum_app. Qed.

(** Metering loses and invents nothing.  Whatever order requests and flushes
    happen in, for every access key, bucket and method the counters handed to
    the flush function and those still held add up, with the wrap-around of
    int64, to what was held at first and the requests served. *)
Theorem traffic_conserved evs a k
    (Ha : agg_normal a) :
  let '(out, a') := run evs a in
  cadd (drained k out) (held k a') = cadd (held k a) (served k evs).
Proof.
  revert a Ha. induction evs as [|[r n|] evs IH]; intros a Ha; cbn [run served].
  - cbn. rewrite cadd_comm. reflexivity.
  - specialize (IH (ServeHTTP a r n) (serve_normal a r n Ha)).
    destruct (run evs _) as [out a']. rewrite IH, held_serve.
    case_bool_decide; [|done]. by rewrite cadd_assoc.
  - destruct (Drain a) as [out a0] eqn:ED.
    assert (drained k out = held k a) as Hd
      by (rewrite <- (drained_Drain k a Ha), ED; done).
    assert (a0 = ∅) as -> by (unfold Drain in ED; congruence).
    specialize (IH ∅). destruct (run evs ∅) as [more a''].
    rewrite drained_app, Hd, <- cadd_assoc, IH.
    + f_equal. unfold held. rewrite lookup_empty. cbn. rewrite cadd_comm.
      clear. induction evs as [|[r n|] evs IH]; cbn; [done| |done].
      case_bool_decide; [apply normal_cadd|done].
    + intros k' c. by rewrite lookup_empty.
Qed.

Lemma traffic_conserved_witness :
  let r := mkRequest "AWS4-HMAC-SHA256 Credential=GK1/20240101/garage/s3/aws4_request, Signature=x"
             "" "/photos/a.jpg" "GET" 0 in
  let k := mkKey "GK1" "photos" "GET" in
  let '(out, a') := run [EvRequest r 100; EvFlush; EvRequest r 50] NewAggregator in
  cadd (drained k out) (held k a') = mkCounter 2 0 150.
Proof.
  cbv zeta.
  exact (traffic_conserved
    [EvRequest (mkRequest "AWS4-HMAC-SHA256 Credential=GK1/20240101/garage/s3/aws4_request, Signature=x"
             "" "/photos/a.jpg" "GET" 0) 100; EvFlush;
     EvRequest (mkRequest "AWS4-HMAC-SHA256 Credential=GK1/20240101/garage/s3/aws4_request, Signature=x"
             "" "/photos/a.jpg" "GET" 0) 50] NewAggregator (mkKey "GK1" "photos" "GET")
    (fun k c H => False_ind _ (eq_ind None (fun o => match o with None => True | Some _ => False end)
                                 I (Some c) (eq_trans (eq_sym (lookup_empty k)) H)))).
Defined.
