(* ===== verification/WebhookProofs.v ===== *)
(** Webhook subscriptions: a subscription gets the events it was made for, signed and
    tried as often as it takes, up to three times. *)
From Stdlib Require Import Ascii.
From S2P Require Import Prelude GoStrings Encoding Hashes GoTime Json JsonText Storage MemStore Database Repository AuditLog Service Frames Example Webhooks.
#[local] Open Scope string_scope.

Section Subscriptions.
Context {ENV : Env} {B : Type} (s : Services B).

Lemma checkEvents_inr events (w : World B) w' :
  Webhooks.checkEvents events w = (inr tt, w') ->
  w' = w /\ Forall (fun e => Webhooks.validWebhookEvents e = true) events.
Proof.
  induction events as [|e l IH]; cbn; intros H; [unfold ret in H; by injection H as <-|].
  destruct (Webhooks.validWebhookEvents e) eqn:E; [|done].
  apply IH in H as [-> H]. auto.
Qed.

(** No event name has the separator in it. *)
Lemma valid_no_comma e : Webhooks.validWebhookEvents e = true -> no_byte "," e = true.
Proof.
  unfold Webhooks.validWebhookEvents. intros [H|H]%orb_true_iff; apply eqb_true_str in H as ->;
    vm_compute; reflexivity.
Qed.

Lemma stored_events_match events e :
  events <> [] -> Forall (fun x => Webhooks.validWebhookEvents x = true) events ->
  Webhooks.eventMatches (Join events ",") e = bool_decide (e ∈ events).
Proof.
  intros Hne Hv. unfold Webhooks.eventMatches. rewrite Split_Join; [|done|].
  - destruct (exists_ _ _) eqn:E; symmetry.
    + apply bool_decide_eq_true. apply exists_spec in E as (x & Hx & He).
      apply eqb_true_str in He as <-. done.
    + apply bool_decide_eq_false. intros Hin. rewrite exists_false in E.
      specialize (E e Hin). cbv beta in E. by rewrite eqb_refl_str in E.
  - eapply Forall_impl; [exact Hv|]. intros x. apply valid_no_comma.
Qed.

(** A subscription gets the events it asked for.  A successful creation adds
    one enabled row to a bucket of the caller's project; whatever list of events
    was asked for, the stored text matches exactly the events of that list. *)
Theorem CreateWebhook_matches ctx bucketID url events secret (w : World B) dto w'
    (Hrun : Webhooks.CreateWebhook s ctx bucketID url events secret w = (inr dto, w')) :
  exists row,
    webhooks (w_db w') = (webhooks (w_db w) ++ [row])%list /\
    wh_BucketID row = env_as_uuid bucketID /\ wh_OrgID row = tc_OrgID (tenant s ctx) /\
    wh_Enabled row = true /\ wh_ID row = Webhooks.wd_ID dto /\
    (exists b, Store.bucket_row bucketID (w_db w) = Some b /\
               b_ProjectID b = tc_ProjectID (tenant s ctx)) /\
    forall e, Webhooks.eventMatches (wh_Events row) e = bool_decide (e ∈ events).
Proof.
  unfold Webhooks.CreateWebhook in Hrun.
  apply bind_inr in Hrun as ([] & w1 & H1 & H).
  assert (w1 = w) as -> by (unfold authorize in H1; destruct (dec_Allowed _);
    unfold ret, throw in H1; congruence).
  apply bind_inr in H as ([b prov] & w2 & H2 & H).
  pose proof (view_bucketProvider s webhooks _ _ _ _ _ H2) as Hv2. unfold view, same in Hv2.
  assert (Store.bucket_row bucketID (w_db w) = Some b /\
          b_ProjectID b = tc_ProjectID (tenant s ctx)) as Hb.
  { unfold bucketProvider in H2. apply bind_inr in H2 as (b0 & wb & Hl & H2).
    apply bind_inr in H2 as (p0 & wp & _ & H2). unfold ret in H2. injection H2 as -> _ _.
    unfold loadBucket in Hl. apply bind_inr in Hl as (b1 & wl & Hq & Hl).
    apply mapErr_inr, db_inv in Hq as (d & Hq & ->). unfold Store.GetBucket in Hq.
    apply query_row_inr in Hq as [-> Hq]. apply bind_inr in Hl as ([] & wg & Hg & Hl).
    unfold ret in Hl. injection Hl as -> _.
    destruct (b_ProjectID b =s _) eqn:E; [|done]. apply eqb_true_str in E. done. }
  cbv zeta in H. apply bind_inr in H as ([] & w3 & H3 & H).
  assert (w3 = w2) as -> by (destruct (_ && _) in H3; unfold ret, throw in H3; congruence).
  apply bind_inr in H as ([] & w4 & H4 & H). apply checkEvents_inr in H4 as [-> Hval].
  apply bind_inr in H as ([] & w5 & H5 & H).
  assert (w5 = w2 /\ events <> []) as [-> Hne].
  { destruct events; cbn in H5; [done|]. unfold ret in H5. by injection H5 as <-. }
  apply bind_inr in H as (row & w6 & H6 & H). apply mapErr_inr, db_inv in H6 as (d & H6 & ->).
  unfold Store.CreateWebhook in H6. apply mapErr_inr, insert_inr in H6 as [_ H6]. cbv zeta in H6.
  injection H6 as <- <-.
  apply bind_inr in H as ([] & w7 & H7 & H). unfold ret in H. injection H as <- <-.
  pose proof (view_audit s webhooks _ _ _ _ _ _ _ _ H7) as Hv7. unfold view, same in Hv7.
  cbn in Hv7. eexists. split; [rewrite <- Hv7, Hv2; reflexivity|]. cbn.
  split; [done|]. split; [done|]. split; [done|]. split; [done|]. split; [eauto|].
  intros e. by apply stored_events_match.
Qed.
End Subscriptions.

Lemma CreateWebhook_matches_witness :
  let out := @Webhooks.CreateWebhook ex_env _ ex_services ctx_alice "b1" " https://example.com/h"
               ["object.deleted"; "object.created"] "k" ex_world in
  failed (fst out) = false /\ length (webhooks (w_db (snd out))) = 1.
Proof.
  intros out. split; [vm_compute; reflexivity|].
  destruct (fst out) as [e|dto] eqn:E; [exfalso; vm_compute in E; discriminate|].
  destruct (CreateWebhook_matches (ENV := ex_env) ex_services ctx_alice "b1"
    " https://example.com/h" ["object.deleted"; "object.created"] "k" ex_world dto (snd out)
    (eq_trans (surjective_pairing _) (f_equal2 pair E eq_refl))) as (row & H & _).
  by rewrite H.
Defined.

(** * Delivery *)

(** Times are written in ASCII. *)
Lemma digit_ascii z : (0 <= z < 10)%Z -> JsonText.ascii_byte (Encoding.to_byte (48 + z)) = true.
Proof.
  intros H. unfold JsonText.ascii_byte, JsonText.between, Encoding.byte_of, Encoding.to_byte.
  rewrite nat_ascii_embedding by lia. rewrite andb_true_iff, !Z.leb_le. lia.
Qed.
Lemma fixed_ascii w z : str_all JsonText.ascii_byte (Time.fixed w z) = true.
Proof.
  induction w as [|w IH]; [done|]. cbn [Time.fixed str_all]. rewrite IH, andb_true_r.
  apply digit_ascii, Z.mod_pos_bound. lia.
Qed.
Lemma Itoa_ascii z : str_all JsonText.ascii_byte (Itoa z) = true.
Proof.
  eapply str_all_impl; [|apply Itoa_chars]. intros c H.
  unfold JsonText.ascii_byte, JsonText.between, Encoding.byte_of. rewrite andb_true_iff, !Z.leb_le.
  apply orb_true_iff in H as [H|H%Ascii.eqb_eq]; [|subst c; vm_compute; done].
  unfold is_digit, in_range in H. apply andb_true_iff in H as [_ H%Nat.leb_le]. lia.
Qed.
Lemma trim_right_all p q s : str_all p s = true -> str_all p (trim_right q s) = true.
Proof.
  induction s as [|c s IH]; cbn; [done|]. rewrite andb_true_iff. intros [Hc Hs]. specialize (IH Hs).
  destruct (trim_right q s); [destruct (q c); cbn; by rewrite ?Hc|]. cbn. by rewrite Hc.
Qed.
Lemma appendInt_ascii w z : str_all JsonText.ascii_byte (Time.appendInt w z) = true.
Proof.
  unfold Time.appendInt. rewrite str_all_app.
  destruct (z <? 0)%Z, (Z.abs z <? _)%Z; by rewrite ?fixed_ascii, ?Itoa_ascii.
Qed.
Lemma RFC3339Nano_ascii t : str_all JsonText.ascii_byte (Time.RFC3339Nano t) = true.
Proof.
  unfold Time.RFC3339Nano, Time.second_string, Time.day_string, Time.fraction.
  destruct (Time.clock t) as [[h mi] sec], (Time.civil _) as [[y m] d].
  rewrite !str_all_app, !appendInt_ascii. cbn [andb].
  destruct (_ =? 0)%Z; [done|]. rewrite str_all_app. unfold TrimRightByte.
  by rewrite (trim_right_all _ _ (Time.fixed 9 _) (fixed_ascii 9 _)).
Qed.

(** The body says what happened, where, to what and when. *)
Lemma body_parses ev bucketID key t :
  JsonText.parse (JsonText.print (Webhooks.webhookPayload (Webhooks.event_name ev) bucketID key t)) =
  Some (Webhooks.webhookPayload (Webhooks.event_name ev) (JsonText.to_valid bucketID)
          (JsonText.to_valid key) t).
Proof.
  rewrite JsonText.parse_print by done. unfold Webhooks.webhookPayload. cbn [JsonText.clean map fst snd].
  rewrite (JsonText.to_valid_ascii (Time.RFC3339Nano t)) by apply RFC3339Nano_ascii.
  by destruct ev.
Qed.

Section Delivery.
Import Webhooks.
Context {ENV : Env} {B : Type} (valid_url : str -> bool) (answer : str -> nat -> option Z).

(** The ways a delivery can go. *)
Inductive delivered (url event : str) (req : HookRequest) : list Act -> Prop :=
  | never_sent : valid_url url = false -> delivered url event req []
  | on_first : valid_url url = true -> accepted (answer url 0) = true ->
      delivered url event req [Post req]
  | on_second : valid_url url = true -> accepted (answer url 0) = false ->
      accepted (answer url 1) = true ->
      delivered url event req [Post req; Sleep (10 ^ 9); Post req]
  | on_third : valid_url url = true -> accepted (answer url 0) = false ->
      accepted (answer url 1) = false -> accepted (answer url 2) = true ->
      delivered url event req [Post req; Sleep (10 ^ 9); Post req; Sleep (3 * 10 ^ 9); Post req]
  | given_up : valid_url url = true -> accepted (answer url 0) = false ->
      accepted (answer url 1) = false -> accepted (answer url 2) = false ->
      delivered url event req
        [Post req; Sleep (10 ^ 9); Post req; Sleep (3 * 10 ^ 9); Post req; Warn url event].

Lemma deliverWebhook_spec url secret event body :
  delivered url event (hook_request url secret event body)
    (deliverWebhook valid_url answer url secret event body).
Proof.
  unfold deliverWebhook. cbn [attempts].
  destruct (valid_url url) eqn:Hv; cbn [negb]; [|by constructor].
  destruct (accepted (answer url 0)) eqn:H0; [by constructor|].
  destruct (accepted (answer url 1)) eqn:H1; [by constructor|].
  destruct (accepted (answer url 2)) eqn:H2; by constructor.
Qed.

(** What a receiver sees of a request: the secret signs exactly the body. *)
Definition signed_by (secret : str) (req : HookRequest) : Prop :=
  ("X-Buktio-Signature", "sha256=" ++ Encoding.encode_hex (hmac_sha256 secret (hr_Body req))) ∈ hr_Headers req.
Lemma hook_request_signed url secret event body : secret <> "" ->
  signed_by secret (hook_request url secret event body).
Proof.
  intros Hs. unfold signed_by, hook_request, signature. cbn [hr_Headers hr_Body].
  apply eqb_false_str in Hs. rewrite Hs. cbn -[Encoding.encode_hex hmac_sha256]. set_solver.
Qed.
Lemma hook_request_unsigned url event body h v :
  (h, v) ∈ hr_Headers (hook_request url "" event body) -> h <> "X-Buktio-Signature".
Proof.
  cbn. rewrite !elem_of_cons. intros [[= -> _]|[[= -> _]|[[= -> _]|[]%not_elem_of_nil]]]; discriminate.
Qed.

(** The subscriptions an event goes to. *)
Definition subscribed (bucketID : str) (ev : ObjectEvent) (d : DB) : list WebhookSub :=
  where_ (fun h => (wh_BucketID h =s env_as_uuid bucketID) && wh_Enabled h && eventMatches (wh_Events h) (event_name ev))
    (webhooks d).

(** C37: what subscribers receive.  When the subscriptions can be read, firing an event on an
    object changes no table (the read alone is counted) and nothing else; it starts one delivery for each enabled subscription of the
    bucket that asked for the event, and for no other.  Every delivery sends the same
    request at most three times, until an answer below 300, waiting one and three seconds,
    and complains in the log after the third failure; the body parses as JSON to the
    event, the bucket, the key and the time (with invalid UTF-8 replaced), and with a
    secret it carries the HMAC-SHA256 of exactly that body. *)
Theorem webhook_delivery bucketID ev key (w : World B) r w'
    (Hread : env_fault (db_tick (w_db w)) = None)
    (Hyear : year_ok (env_now (db_tick (w_db w'))) = true)
    (Hrun : dispatch valid_url answer bucketID ev key w = (r, w')) :
  w' = set_w_db (set_db_tick (S (db_tick (w_db w))) (w_db w)) w /\
  exists body traces, r = inr traces /\
    JsonText.parse body = Some (webhookPayload (event_name ev) (JsonText.to_valid bucketID)
      (JsonText.to_valid key) (env_now (db_tick (w_db w')))) /\
    Forall2 (fun h trace =>
        let req := hook_request (wh_URL h) (wh_Secret h) (event_name ev) body in
        delivered (wh_URL h) (event_name ev) req trace /\ hr_Body req = body /\
        (wh_Secret h <> "" -> signed_by (wh_Secret h) req))
      (subscribed bucketID ev (w_db w)) traces.
Proof.
  unfold dispatch in Hrun. rewrite bind_run, attempt_run in Hrun. unfold db, zoom in Hrun.
  unfold Store.ListEnabledWebhooksByBucket, mapErr, query, stmt in Hrun. rewrite Hread in Hrun.
  cbn [w_db db_tick set_db_tick] in Hrun.
  set (subs := where_ _ _) in Hrun.
  assert (subscribed bucketID ev (w_db w) = where_ (fun h => eventMatches (wh_Events h) (event_name ev)) subs)
    as ->. { unfold subs. rewrite where_where. apply where_ext. intros h _. by rewrite andb_comm. }
  set (w1 := set_w_db _ _) in Hrun.
  assert (exists traces, (r, w') = (inr traces, w1) /\
    traces = map (fun h => deliverWebhook valid_url answer (wh_URL h) (wh_Secret h) (event_name ev)
      (JsonText.print (webhookPayload (event_name ev) bucketID key (env_now (db_tick (w_db w'))))))
      (where_ (fun h => eventMatches (wh_Events h) (event_name ev)) subs)) as (traces & [= -> ->] & ->).
  { destruct subs as [|h0 rest]; [injection Hrun as <- <-; by eexists|].
    rewrite bind_run in Hrun. unfold now, webhook_body, ret in Hrun.
    assert (w' = w1) as -> by (destruct (year_ok (env_now (db_tick (w_db w1)))); by injection Hrun).
    rewrite Hyear in Hrun. injection Hrun as <-. by eexists. }
  split; [done|]. eexists _, _. split; [reflexivity|]. split; [apply body_parses|].
  apply Forall2_fmap_r, Forall_Forall2_diag, Forall_forall. intros h _. cbv zeta.
  split; [apply deliverWebhook_spec|]. split; [done|]. apply hook_request_signed.
Qed.
End Delivery.

(** A hook with a secret whose receiver is down at first, and one for other events. *)
Definition hooked_world : World MemB :=
  set_w_db (set_webhooks
    [mkWebhookSub "h1" "o1" "b1" "https://x" "topsecret" "object.created,object.deleted" true 0;
     mkWebhookSub "h2" "o1" "b1" "https://y" "" "object.deleted" true 0;
     mkWebhookSub "h3" "o2" "b2" "https://z" "" "object.created" true 0] ex_db) ex_world.
Definition slow_start (url : str) (n : nat) : option Z := if Nat.eqb n 0 then Some 503%Z else Some 204%Z.
Lemma webhook_delivery_witness :
  let out := @Webhooks.dispatch ex_env _ (fun _ => true) slow_start "b1" EventObjectCreated "a.txt" hooked_world in
  exists body tr, fst out = inr [tr] /\
    JsonText.parse body = Some (Webhooks.webhookPayload "object.created" "b1" "a.txt" 1000000000) /\
    length tr = 3 /\ signed_by "topsecret" (Webhooks.hook_request "https://x" "topsecret" "object.created" body).
Proof.
  intros out.
  destruct (webhook_delivery (ENV := ex_env) (fun _ => true) slow_start "b1" EventObjectCreated "a.txt"
    hooked_world (fst out) (snd out)) as (_ & body & traces & Hr & Hb & Hf).
  - reflexivity.
  - vm_compute. reflexivity.
  - apply surjective_pairing.
  - assert (@subscribed ex_env "b1" EventObjectCreated (w_db hooked_world) =
      [mkWebhookSub "h1" "o1" "b1" "https://x" "topsecret" "object.created,object.deleted" true 0])
      as Hsub by (vm_compute; reflexivity).
    rewrite Hsub in Hf. apply Forall2_cons_inv_l in Hf as (tr & l' & (Hd & _ & Hs) & Ht & ->).
    apply Forall2_nil_inv_l in Ht as ->. exists body, tr. split; [exact Hr|]. split; [exact Hb|].
    split; [|apply Hs; discriminate]. clear -Hd. cbn [wh_URL wh_Secret] in Hd.
    remember (Webhooks.hook_request _ _ _ _) as req eqn:Hreq. clear Hreq.
    destruct Hd as [Hv|_ H0|_ H0 H1|_ H0 H1 H2|_ H0 H1 H2]; try reflexivity; discriminate.
Defined.

(** Deleting a subscription checks the organization, not the bucket it is
    addressed through: the hook of bucket b1 is removed under another bucket. *)
Lemma DeleteWebhook_ignores_bucket :
  let hook := mkWebhookSub "h1" "o1" "b1" "https://x" "" "object.created" true 0 in
  let w := set_w_db (set_webhooks [hook] ex_db) ex_world in
  let out := @Webhooks.DeleteWebhook ex_env _ ex_services ctx_alice "b9" "h1" w in
  fst out = inr tt /\ webhooks (w_db (snd out)) = [].
Proof. by_eval. Qed.
