(* ===== verification/StorageProofs.v ===== *)
(** The storage plane: the version guard of the Garage client, the node a
    bootstrap treats as its own, the round trip of CORS and lifecycle rules
    through the S3 SDK, what a generic S3 backend refuses, and which provider a
    bucket's cluster resolves to. *)
From Stdlib Require Import Ascii.
From stdpp Require Import pretty.
From S2P Require Import Prelude GoStrings Storage S3core Garage S3generic MemStore S3Laws Database Repository Service Frames Example Buckets Objects.
#[local] Open Scope string_scope.

(** * Numbers and their text *)

Lemma digits_value_go x : (0 < x)%N -> forall s,
  digits_value 0 (pretty_N_go x s) = digits_value (Z.of_N x) s.
Proof.
  induction x as [x IH] using (well_founded_ind N.lt_wf_0). intros Hx s.
  rewrite pretty_N_go_step by done.
  assert (x `mod` 10 < 10)%N as Hm by (by apply N.mod_lt).
  destruct (digit_char _ Hm) as [Hd Hv].
  pose proof (N.div_mod x 10 ltac:(done)) as Hdm.
  destruct (decide (x `div` 10 = 0)%N) as [E|E].
  - rewrite E, pretty_N_go_0. cbn [digits_value]. rewrite Hd, Hv. f_equal. lia.
  - rewrite IH; [|apply N.div_lt; lia|lia]. cbn [digits_value]. rewrite Hd, Hv. f_equal. lia.
Qed.

Lemma Itoa_digits z : (0 <= z)%Z -> str_all is_digit (Itoa z) = true.
Proof.
  intros Hz. unfold Itoa. destruct z as [|p|p]; [done| |lia].
  change (str_all is_digit (pretty_N_go (N.pos p) "") = true). by apply digits_go.
Qed.

Lemma Itoa_value z : (0 <= z)%Z -> digits_value 0 (Itoa z) = Some z.
Proof.
  intros Hz. unfold Itoa. destruct z as [|p|p]; [done| |lia].
  change (digits_value 0 (pretty_N_go (N.pos p) "") = Some (Z.pos p)).
  by rewrite digits_value_go.
Qed.

Lemma Atoi_digits s z :
  s <> "" -> str_all is_digit s = true -> digits_value 0 s = Some z ->
  (0 <= z <= int64_max)%Z -> Atoi s = Some z.
Proof.
  intros Hne Hd Hv Hz. destruct s as [|c s]; [done|]. unfold Atoi.
  cbn in Hd. apply andb_true_iff in Hd as [Hc _].
  assert (Ascii.eqb c "-" = false /\ Ascii.eqb c "+" = false) as [-> ->].
  { split; destruct (Ascii.eqb c _) eqn:E; [|done| |done];
      apply Ascii.eqb_eq in E as ->; vm_compute in Hc; discriminate. }
  rewrite Hv. cbv beta iota zeta.
  assert (((int64_min <=? z) && (z <=? int64_max))%Z = true) as ->; [|done].
  apply andb_true_iff. rewrite !Z.leb_le. unfold int64_min in *. lia.
Qed.

Lemma Itoa_nonempty z : (0 <= z)%Z -> Itoa z <> "".
Proof. intros Hz H. pose proof (Itoa_value z Hz) as Hv. rewrite H in Hv. cbn in Hv.
  destruct (decide (z = 0)%Z) as [->|]; [by vm_compute in H|]. injection Hv as Hv. lia. Qed.

Lemma Atoi_Itoa z : (0 <= z <= int64_max)%Z -> Atoi (Itoa z) = Some z.
Proof.
  intros Hz. apply Atoi_digits; [apply Itoa_nonempty; lia|apply Itoa_digits; lia|
    apply Itoa_value; lia|done].
Qed.

(** * Versions *)

Lemma digit_not (c d : ascii) : is_digit c = true -> is_digit d = false -> Ascii.eqb c d = false.
Proof. intros Hc Hd. destruct (Ascii.eqb c d) eqn:E; [|done]. apply Ascii.eqb_eq in E. congruence. Qed.

(** The characters of a printed version: none is trimmed, none ends it. *)
Definition ver_char (c : ascii) : bool := is_digit c || Ascii.eqb c ".".

Lemma ver_char_plain c : ver_char c = true -> is_space c = false /\ is_suffix_mark c = false.
Proof.
  unfold ver_char. intros [H|H]%orb_true_iff.
  - unfold is_suffix_mark. rewrite !(digit_not c) by done. split; [|done].
    unfold is_digit, in_range in H. unfold is_space.
    apply andb_true_iff in H as [H1 H2]. apply Nat.leb_le in H1, H2.
    assert (48 <= nat_of_ascii c) as Hc by lia. clear H1 H2. cbv zeta.
    apply orb_false_iff. split; [apply Nat.eqb_neq; lia|].
    apply andb_false_iff. right. apply Nat.leb_gt. lia.
  - apply Ascii.eqb_eq in H as ->. vm_compute. done.
Qed.

Lemma trim_space_none s : str_all (fun c => negb (is_space c)) s = true -> TrimSpace s = s.
Proof.
  intros H. unfold TrimSpace, trim_both.
  assert (trim_left is_space s = s) as ->.
  { destruct s as [|c s]; [done|]. cbn in *. apply andb_true_iff in H as [H _].
    apply negb_true_iff in H. by rewrite H. }
  induction s as [|c s IH]; [done|]. cbn in *. apply andb_true_iff in H as [Hc H].
  apply negb_true_iff in Hc. rewrite IH by done. destruct s; [by rewrite Hc|done].
Qed.

Lemma Version_String_chars v :
  (0 <= ver_Major v)%Z -> (0 <= ver_Minor v)%Z -> (0 <= ver_Patch v)%Z ->
  str_all ver_char (Version_String v) = true.
Proof.
  intros H1 H2 H3. unfold Version_String. rewrite !str_all_app.
  assert (forall z, (0 <= z)%Z -> str_all ver_char (Itoa z) = true) as Hz.
  { intros z Hz. eapply str_all_impl; [|by apply Itoa_digits]. unfold ver_char. by intros c ->. }
  rewrite !Hz by done. done.
Qed.

Lemma digits_no_dot s : str_all is_digit s = true -> no_byte "." s = true.
Proof.
  apply str_all_impl. intros c Hc. apply negb_true_iff. by apply digit_not.
Qed.

Lemma Split_Version v :
  (0 <= ver_Major v)%Z -> (0 <= ver_Minor v)%Z -> (0 <= ver_Patch v)%Z ->
  Split (Version_String v) "." = [Itoa (ver_Major v); Itoa (ver_Minor v); Itoa (ver_Patch v)].
Proof.
  intros H1 H2 H3. unfold Version_String. cbn [String.append].
  change ("." +:+ Itoa (ver_Minor v) +:+ "." +:+ Itoa (ver_Patch v))
    with (String "." (Itoa (ver_Minor v) +:+ String "." (Itoa (ver_Patch v)))).
  rewrite Split_head by (by apply digits_no_dot, Itoa_digits).
  rewrite Split_head by (by apply digits_no_dot, Itoa_digits).
  rewrite Split_one by (by apply digits_no_dot, Itoa_digits). done.
Qed.

(** A pre-release or build suffix: empty, or starting with its mark. *)
Definition is_suffix (x : str) : bool :=
  match x with "" => true | String c _ => is_suffix_mark c end.

(** Versions survive printing and parsing, and the guard is exact.  A
    printed version, with or without a leading v and with any suffix without
    blanks, parses to itself, and it is accepted exactly from 2.0 on. *)
Theorem ParseVersion_print v (lead : bool) suffix
    (Hmajor : (0 <= ver_Major v <= int64_max)%Z) (Hminor : (0 <= ver_Minor v <= int64_max)%Z)
    (Hpatch : (0 <= ver_Patch v <= int64_max)%Z)
    (Hsuffix : is_suffix suffix = true)
    (Hblank : str_all (fun c => negb (is_space c)) suffix = true) :
  ParseVersion ((if lead then "v" else "") ++ Version_String v ++ suffix) = inr v /\
  (CheckSupported v = None <-> (2 <= ver_Major v)%Z).
Proof.
  assert (str_all ver_char (Version_String v) = true) as Hc by (apply Version_String_chars; lia).
  assert (str_all (fun c => negb (is_space c)) (Version_String v) = true) as Hns.
  { eapply str_all_impl; [|exact Hc]. intros c H. apply negb_true_iff. by apply ver_char_plain. }
  assert (str_all (fun c => negb (is_suffix_mark c)) (Version_String v) = true) as Hnm.
  { eapply str_all_impl; [|exact Hc]. intros c H. apply negb_true_iff. by apply ver_char_plain. }
  assert (exists c r, Version_String v = String c r /\ is_digit c = true) as (c0 & r0 & Hfirst & Hd0).
  { unfold Version_String. pose proof (Itoa_digits (ver_Major v) ltac:(lia)) as Hi.
    pose proof (Itoa_nonempty (ver_Major v) ltac:(lia)) as Hne.
    destruct (Itoa (ver_Major v)) as [|c r]; [done|]. cbn in Hi.
    apply andb_true_iff in Hi as [Hi _]. cbn. eauto. }
  split.
  - unfold ParseVersion. rewrite trim_space_none.
    2: { rewrite !str_all_app, Hns, Hblank. by destruct lead. }
    assert (TrimPrefix ((if lead then "v" else "") ++ Version_String v ++ suffix) "v" =
            Version_String v ++ suffix) as ->.
    { unfold TrimPrefix. destruct lead.
      - rewrite HasPrefix_app. apply str_drop_app.
      - assert (HasPrefix ("" ++ Version_String v ++ suffix) "v" = false) as ->; [|done].
        destruct (HasPrefix _ "v") eqn:E; [|done]. apply HasPrefix_spec in E as (x & E).
        rewrite Hfirst in E. injection E as -> _. by vm_compute in Hd0. }
    assert ((Version_String v ++ suffix =s "") = false) as -> by (rewrite Hfirst; done).
    assert ((match IndexAny (Version_String v ++ suffix) is_suffix_mark with
             | Some i => str_take i (Version_String v ++ suffix)
             | None => Version_String v ++ suffix end) = Version_String v) as ->.
    { destruct suffix as [|c x].
      - rewrite str_app_nil_r, IndexAny_none; done.
      - rewrite IndexAny_stop by done. apply str_take_app. }
    rewrite Split_Version by lia. cbn [lookup list_lookup default from_option id].
    rewrite !Atoi_Itoa by done. by destruct v.
  - unfold CheckSupported, atLeast, minMajor, minMinor.
    destruct (ver_Major v =? 2)%Z eqn:E; cbn [negb]; bool_prop.
    + assert ((0 <=? ver_Minor v)%Z = true) as -> by (apply Z.leb_le; lia). split; [lia|done].
    + destruct (2 <? ver_Major v)%Z eqn:E2; bool_prop; split; try done; lia.
Qed.

Lemma ParseVersion_print_witness :
  ParseVersion "v2.3.0-rc1" = inr (mkVersion 2 3 0) /\ CheckSupported (mkVersion 2 3 0) = None.
Proof.
  destruct (ParseVersion_print (mkVersion 2 3 0) true "-rc1") as [H1 H2];
    [vm_compute; split; discriminate..|vm_compute; reflexivity|vm_compute; reflexivity|].
  split; [exact H1|]. apply H2. vm_compute. discriminate.
Defined.

(** * The node of a bootstrap *)

Definition has_storage (n : NodeResp) : bool :=
  match nd_Role n with Some r => match nr_Capacity r with Some _ => true | None => false end | None => false end.

(** The specification: the first node with a storage role, else the first node
    that is up, else the first. *)
Definition primary_spec (l : list NodeResp) : option NodeResp :=
  match head (where_ has_storage l) with
  | Some n => Some n
  | None => match head (where_ nd_IsUp l) with Some n => Some n | None => head l end
  end.

Lemma primary_loop_spec l fb :
  primary_loop l fb =
  match head (where_ has_storage l) with
  | Some n => Some n
  | None => match fb with Some n => Some n | None => head (where_ nd_IsUp l) end
  end.
Proof.
  revert fb. induction l as [|n l IH]; intros fb; [by destruct fb|]. cbn.
  unfold has_storage at 1. destruct (nd_Role n) as [r|].
  - destruct (nr_Capacity r); [done|]. rewrite IH.
    destruct (head (where_ has_storage l)), fb; [done..|]. by destruct (nd_IsUp n).
  - rewrite IH. destruct (head (where_ has_storage l)), fb; [done..|]. by destruct (nd_IsUp n).
Qed.

(** The one-pass search for the node to treat as this node meets its
    specification: the first node with a storage role, else the first node that
    is up, else the first node of the status. *)
Theorem PrimaryNode_spec r : PrimaryNode r = primary_spec (csr_Nodes r).
Proof.
  unfold PrimaryNode, primary_spec. rewrite primary_loop_spec.
  destruct (head (where_ has_storage _)); [done|]. by destruct (head (where_ nd_IsUp _)).
Qed.

(** * CORS and lifecycle rules *)

Definition int32 (z : Z) : Prop := (0 <= z < 2 ^ 31)%Z.

(** CORS and lifecycle rules come back as they were set.  With durations that
    fit 32 bits the conversion to the SDK's types and back is the identity on
    both kinds of rules, where a lifecycle rule without an id gets one from its
    position and a rule keeps its day counts. *)
Theorem rules_roundtrip (cors : list CORSRule) (rules : list LifecycleRule)
    (Hage : Forall (fun r => int32 (cors_MaxAgeSeconds r)) cors)
    (Hdays : Forall (fun r => int32 (lr_ExpireDays r) /\ int32 (lr_AbortIncompleteMPUDays r)) rules) :
  CORSRulesFromAWS (CORSRulesToAWS cors) = cors /\
  lifecycleRuleFromAWS <$> imap lifecycleRuleToAWS rules =
  imap (fun i r => mkLifecycleRule (ruleID (lr_ID r) i) (lr_Prefix r) (lr_Enabled r)
                     (lr_ExpireDays r) (lr_AbortIncompleteMPUDays r)) rules.
Proof.
  assert (forall d, int32 d ->
    match (if (0 <? d)%Z then Some (Some (wrap32 d)) else None) with
    | Some x => ToInt x | None => 0%Z end = d) as Hday.
  { intros d Hd. unfold int32 in Hd. destruct (0 <? d)%Z eqn:E; bool_prop; cbn; [|lia].
    apply wrap32_id. lia. }
  split.
  - unfold CORSRulesFromAWS, CORSRulesToAWS. rewrite <- list_fmap_compose.
    induction Hage as [|r l Hr _ IH]; [done|]. cbn. f_equal; [|exact IH].
    unfold int32 in Hr. rewrite wrap32_id by lia. by destruct r.
  - rewrite fmap_imap. apply imap_ext. intros i r Hi. cbn. unfold lifecycleRuleFromAWS. cbn.
    rewrite Forall_lookup in Hdays. destruct (Hdays i r Hi) as [H1 H2].
    f_equal; [by destruct (lr_Enabled r)|by apply Hday|by apply Hday].
Qed.

Lemma rules_roundtrip_witness :
  CORSRulesFromAWS (CORSRulesToAWS [mkCORSRule ["*"] ["GET"] [] [] 3600]) =
    [mkCORSRule ["*"] ["GET"] [] [] 3600] /\
  lifecycleRuleFromAWS <$> imap lifecycleRuleToAWS [mkLifecycleRule "" "logs/" true 30 0] =
    [mkLifecycleRule "rule-0" "logs/" true 30 0].
Proof.
  apply (rules_roundtrip [mkCORSRule ["*"] ["GET"] [] [] 3600]
           [mkLifecycleRule "" "logs/" true 30 0]);
    repeat constructor; vm_compute; congruence.
Defined.

(** A day count past 32 bits changes on the way: 2^31 days become negative. *)
Lemma rules_truncated :
  CORSRulesFromAWS (CORSRulesToAWS [mkCORSRule ["*"] ["GET"] [] [] (2 ^ 32)]) =
  [mkCORSRule ["*"] ["GET"] [] [] 0].
Proof. by_eval. Qed.

(** The first node with a storage role is taken even when it is down and another
    storage node is up. *)
Lemma PrimaryNode_may_be_down :
  let role := mkNodeRole "n" "z" (Some 1%Z) [] in
  let node id up := mkNodeResp id "" "" "" up false (Some role) None in
  exists n, PrimaryNode (mkClusterStatusResponse 1 [node "a" false; node "b" true]) = Some n /\
    nd_IsUp n = false.
Proof. eexists. split; reflexivity. Qed.

(** * Backends without an admin plane *)

Inductive AdminPlaneOp :=
  | OpVisibility (id : str) (public : bool) (index errorDoc : str)
  | OpNewKey (name : str) (canCreate : bool) (grants : list Buckets.GrantInput)
  | OpGrant (keyID garageKeyID : str) (g : Buckets.GrantInput)
  | OpRevoke (keyID bucketID : str).

Section Generic.
Context {ENV : Env} {B : Type} `{!S3Service B} (s : Services B).

Definition run_admin_op (ctx : Ctx) (op : AdminPlaneOp) : M (World B) Error unit :=
  match op with
  | OpVisibility id p i e => let! _ := Buckets.SetVisibility s ctx id p i e in ret tt
  | OpNewKey n c g => let! _ := Buckets.CreateAccessKey s ctx n c g in ret tt
  | OpGrant k gk g => Buckets.grant s ctx k gk g
  | OpRevoke k b => Buckets.RevokeBucket s ctx k b
  end.

(** Fails, and nothing but the statement counter moves. *)
Definition Fails {A} (m : M (World B) Error A) : Prop :=
  forall w r w', m w = (r, w') -> quiet w w' /\ failed r = true.

Lemma fails_throw {A} e : Fails (throw (A := A) e).
Proof. intros w r w' H. unfold throw in H. by simplify_eq. Qed.
Lemma fails_after {A C} (m : M (World B) Error A) (k : A -> M (World B) Error C) :
  Guar quiet m -> (forall a, Fails (k a)) -> Fails (bind m k).
Proof.
  intros Hm Hk w r w' H. rewrite bind_run in H. destruct (m w) as [[e|a] w1] eqn:E.
  - simplify_eq. split; [by eapply Hm|done].
  - apply Hk in H as [H1 H2]. split; [|done]. etrans; [by eapply Hm|done].
Qed.
Lemma fails_first {A C} (m : M (World B) Error A) (k : A -> M (World B) Error C) :
  Fails m -> Fails (bind m k).
Proof.
  intros Hm w r w' H. rewrite bind_run in H. destruct (m w) as [r1 w1] eqn:E.
  apply Hm in E as [H1 H2]. destruct r1; [by simplify_eq|done].
Qed.

Variables (fuel : nat) (kind : str) (c : Client.t).
Hypotheses (Hprov : s_Provider s = Generic.provider fuel kind c) (Hreg : s_HasReg s = false).

Lemma generic_providerFor {C} id (k : StorageProvider B -> M (World B) Error C) f :
  Fails (k (Generic.provider fuel kind c)) -> Fails (bind (mapErr f (providerFor s id)) k).
Proof.
  intros Hk w r w' H. unfold providerFor in H. rewrite Hreg, Hprov in H. by apply Hk in H.
Qed.
Lemma generic_bucketProvider {C} ctx id (k : Bucket * StorageProvider B -> M (World B) Error C) :
  (forall b, Fails (k (b, Generic.provider fuel kind c))) -> Fails (bind (bucketProvider s ctx id) k).
Proof.
  intros Hk w r w' H. unfold bucketProvider in H. rewrite bind_run, bind_run in H.
  destruct (loadBucket s ctx id w) as [[e|b] w1] eqn:E.
  - simplify_eq. split; [by eapply quiet_loadBucket|done].
  - rewrite bind_run in H. unfold providerForBucket, providerFor, mapErr in H.
    rewrite Hreg, Hprov in H. cbn in H. apply Hk in H as [H1 H2]. split; [|done].
    etrans; [by eapply quiet_loadBucket|done].
Qed.

(** An S3 backend without an admin plane refuses cleanly.  On a generic S3
    backend, publishing a bucket, creating a key and changing grants always
    fail, and no table, backend, cache or event is touched. *)
Theorem generic_backend_refuses ctx op (w : World B) r w'
    (Hrun : run_admin_op ctx op w = (r, w')) :
  quiet w w' /\ failed r = true.
Proof.
  revert w r w' Hrun. change (Fails (run_admin_op ctx op)).
  destruct op; cbn [run_admin_op].
  - apply fails_first. unfold Buckets.SetVisibility. apply fails_after; [apply quiet_authorize|intros _].
    apply fails_after; [apply quiet_loadBucket|intros b]. apply generic_providerFor. cbn.
    apply fails_first, fails_throw.
  - apply fails_first. unfold Buckets.CreateAccessKey. apply fails_after; [apply quiet_authorize|intros _].
    apply fails_after; [destruct (ValidateKeyName name); quiet|intros _].
    apply fails_first. rewrite Hprov. cbn. intros w r w' H.
    unfold mapErr, be, zoom, throw in H. cbn in H. injection H as <- <-.
    split; [by destruct w|done].
  - unfold Buckets.grant. apply generic_bucketProvider. intros b. cbn.
    apply fails_first, fails_throw.
  - unfold Buckets.RevokeBucket. apply fails_after; [apply quiet_authorize|intros _].
    apply fails_after; [apply quiet_loadKey|intros k]. apply generic_bucketProvider. intros b. cbn.
    apply fails_first, fails_throw.
Qed.
End Generic.

(** * Clusters and their providers *)

Section Resolve.
Context {ENV : Env} {B : Type} (s : Services B).

(** A bucket is served by its own cluster.  For a cluster other than the
    primary, the registry returns the provider cached for that cluster or the
    one built from that cluster's live row, which it then caches; it never falls
    back to the primary, and an error leaves tables and cache as they were. *)
Theorem providerFor_own_cluster cid (w : World B) r w'
    (Hreg : s_HasReg s = true) (Hcid : cid <> "") (Hother : cid <> s_ClusterID s)
    (Hrun : providerFor s cid w = (r, w')) :
  match r with
  | inr p =>
      (w_cache w !! cid = Some p /\ w' = w) \/
      (exists row, row ∈ live (clusters (w_db w)) /\ cl_ID row = env_as_uuid cid /\
         Registry.build s row = inr p /\ w_cache w' = <[cid := p]> (w_cache w) /\
         tables (w_db w') = tables (w_db w))
  | inl _ => quiet w w'
  end.
Proof.
  unfold providerFor in Hrun. rewrite Hreg in Hrun.
  assert ((cid =s "") = false) as E1 by (by apply eqb_false_str).
  assert ((cid =s s_ClusterID s) = false) as E2 by (by apply eqb_false_str).
  rewrite E1, E2 in Hrun. cbn [negb orb] in Hrun. unfold Registry.Provider in Hrun.
  rewrite bind_run in Hrun. unfold get in Hrun.
  destruct (w_cache w !! cid) as [p|] eqn:Ec; [unfold ret in Hrun; injection Hrun as <- <-; auto|].
  rewrite bind_run in Hrun. unfold mapErr at 1 in Hrun.
  destruct (db (Store.GetClusterByID cid) w) as [rc w1] eqn:Eq.
  apply db_inv in Eq as (d & Eq & ->). unfold Store.GetClusterByID in Eq.
  destruct rc as [e|row].
  - injection Hrun as <- <-. apply mapErr_inl in Eq as (e0 & Eq & _).
    apply stmt_inl in Eq as ->. by destruct w.
  - apply mapErr_inr, query_row_inr in Eq as [-> Hrow].
    apply head_elem, where_elem in Hrow as [Hin Hid]. apply eqb_true_str in Hid.
    destruct (Registry.build s row) as [e|p] eqn:Eb.
    + unfold throw in Hrun. injection Hrun as <- <-. by destruct w.
    + unfold bind, modify, ret in Hrun. injection Hrun as <- <-. right. exists row. auto.
Qed.
End Resolve.

(** ** Worked examples *)

#[local] Instance no_s3 : S3Service MemB := {|
  s3_CreateBucket _ _ := unsupported; s3_DeleteBucket _ _ := unsupported;
  s3_ListBuckets _ := unsupported; s3_ListObjectsV2 _ _ := unsupported;
  s3_HeadObject _ _ _ := unsupported; s3_DeleteObject _ _ _ _ := unsupported;
  s3_DeleteObjects _ _ _ := unsupported; s3_CopyObject _ _ _ _ := unsupported;
  s3_GetBucketVersioning _ _ := unsupported; s3_PutBucketVersioning _ _ _ := unsupported;
  s3_ListObjectVersions _ _ _ := unsupported; s3_PutObject _ _ := unsupported;
  s3_GetObject _ _ _ _ := unsupported; s3_PresignPut _ _ _ _ _ := unsupported;
  s3_PresignGet _ _ _ _ := unsupported; s3_PutBucketCors _ _ _ := unsupported;
  s3_GetBucketCors _ _ := unsupported; s3_DeleteBucketCors _ _ := unsupported;
  s3_PutBucketLifecycle _ _ _ := unsupported; s3_GetBucketLifecycle _ _ := unsupported;
  s3_DeleteBucketLifecycle _ _ := unsupported;
  s3_base64_decode _ := None; s3_md5_base64 x := x; s3_now _ := 0%Z |}.

Definition ex_client : Client.t := Client.New "http://s3" "" "us-east-1" "AK" "SK".
Definition services_on (p : StorageProvider MemB) (hasReg : bool) (fs : gmap str (Factory MemB))
    : Services MemB :=
  let s := ex_services in
  mkServices p hasReg fs (s_PrimaryPublicEndpoint s) (s_SealerOpen s) (s_SealerSeal s)
    (s_Authz s) (s_Ent s) (s_Provision s) true (s_BillingReport s) (s_OrgID s) (s_ProjectID s)
    (s_ClusterID s) (s_SystemKeyID s) (s_WebPublicDomain s) (s_PublicBaseURL s)
    (s_Settings s).

Lemma generic_backend_refuses_witness :
  let s := services_on (Generic.provider 10 "r2" ex_client) false ∅ in
  let out := @run_admin_op ex_env _ s ctx_alice (OpVisibility "b1" true "" "") ex_world in
  fst out = inl unsupportedErr /\ quiet ex_world (snd out).
Proof.
  intros s out. split; [vm_compute; reflexivity|].
  exact (proj1 (generic_backend_refuses (ENV := ex_env) s 10 "r2" ex_client eq_refl eq_refl
    ctx_alice (OpVisibility "b1" true "" "") ex_world (fst out) (snd out) (surjective_pairing _))).
Defined.

Lemma providerFor_own_cluster_witness :
  let s := services_on (mem_provider caps_garage false) true
             (Register Kind (fun _ => inr (mem_provider caps_generic true)) ∅) in
  let out := @providerFor ex_env _ s "c2" ex_world in
  failed (fst out) = false /\ tables (w_db (snd out)) = tables (w_db ex_world).
Proof.
  intros s out. assert (failed (fst out) = false) as Hf by (vm_compute; reflexivity).
  split; [exact Hf|].
  pose proof (providerFor_own_cluster (ENV := ex_env) s "c2" ex_world (fst out) (snd out) eq_refl
    ltac:(done) ltac:(done) (surjective_pairing _)) as H.
  destruct (fst out) as [e|p]; [discriminate Hf|].
  destruct H as [[H _]|(row & _ & _ & _ & _ & H)]; [|exact H].
  change ((∅ : gmap str (StorageProvider MemB)) !! "c2" = Some p) in H.
  rewrite lookup_empty in H. discriminate H.
Defined.

(** Trashing an object whose key needs URL encoding loses it: with the objects
    [a b] and [a%20b] in the bucket, moving [a%20b] to the trash succeeds, and
    afterwards no object of the bucket has its content. *)
Lemma trash_loses_encoded_key :
  let p := Generic.provider (S3Service0 := mem_endpoint (fun _ => false)) 10 "r2" ex_client in
  let w := set_w_be {[ "one" := {[ "a b" := "other"; "a%20b" := "mine" ]} ]} ex_world in
  let out := @Objects.DeleteObjects ex_env _ (services_on p false ∅) ctx_alice "b1" ["a%20b"] false w in
  fst out = inr tt /\
  map snd (map_to_list (objects_of (w_be (snd out)) "one")) = ["other"; "other"].
Proof. split; vm_compute; reflexivity. Qed.
