(* ===== verification/Clusters.v ===== *)
(** src/internal/service/clusters.go (connecting and removing storage backends) and
    nodes.go (node topology of Garage clusters and its reconciliation). *)
From S2P Require Import Prelude GoStrings Storage S3core Garage GarageManager Database Repository AuditLog Service.
#[local] Open Scope string_scope.

Module Clusters.

(** ** clusters.go *)

Record CapabilitiesDTO := mkCapabilitiesDTO {
  cd_ObjectVersioning : bool; cd_PerObjectPublicACL : bool; cd_BucketCORS : bool;
  cd_LifecycleExpiry : bool; cd_ManagesKeys : bool; cd_ManagesQuota : bool;
  cd_HasClusterHealth : bool; cd_PublicWebsite : bool }.
Definition no_capabilities : CapabilitiesDTO :=
  mkCapabilitiesDTO false false false false false false false false.

Definition capsToDTO (c : Capabilities) : CapabilitiesDTO :=
  mkCapabilitiesDTO (cap_ObjectVersioning c) (cap_PerObjectPublicACL c) (cap_BucketCORS c)
    (cap_LifecycleExpiry c) (cap_ManagesKeys c) (cap_ManagesQuota c) (cap_HasClusterHealth c)
    (cap_PublicWebsite c).

Record ClusterDTO := mkClusterDTO {
  cd_ID : str; cd_Name : str; cd_Provider : str; cd_Mode : str; cd_S3Endpoint : str;
  cd_S3Region : str; cd_Status : str; cd_IsPrimary : bool; cd_BucketCount : nat;
  cd_Capabilities : CapabilitiesDTO }.

Record AddClusterInput := mkAddClusterInput {
  ac_Name : str; ac_Provider : str; ac_S3Endpoint : str; ac_S3Region : str;
  ac_AccessKeyID : str; ac_SecretAccessKey : str; ac_PublicEndpoint : str }.

Definition genericKinds : list str :=
  ["aws_s3"; "r2"; "b2"; "seaweedfs"; "ceph_rgw"; "wasabi"; "storj"; "hetzner"; "gcs";
   "minio"].

Definition cluster_region (i : AddClusterInput) : str :=
  if ac_S3Region i =s "" then (if ac_Provider i =s "r2" then "auto" else "us-east-1")
  else ac_S3Region i.
Definition cluster_public (i : AddClusterInput) : str :=
  if ac_PublicEndpoint i =s "" then ac_S3Endpoint i else ac_PublicEndpoint i.

(** The configuration the connectivity probe is built from. *)
Definition probe_config (i : AddClusterInput) : ProviderConfig :=
  mkProviderConfig (ac_Provider i) (ac_S3Endpoint i) (cluster_region i) "" ""
    (mkCredential (ac_AccessKeyID i) (ac_SecretAccessKey i) "" false zero_time None)
    (cluster_public i).

(** The row that is stored. *)
Definition added_cluster (i : AddClusterInput) (sysEnc : str) : Cluster :=
  mkCluster "" (ac_Name i) (ac_Provider i) "external" (ac_S3Endpoint i) "" (cluster_region i)
    (cluster_public i) "" "" "" "" (ac_AccessKeyID i) sysEnc "s3" 1 "healthy" 0.

(** ** nodes.go *)

Record NodeDTO := mkNodeDTO {
  nd_ID : str; nd_Hostname : str; nd_Addr : str; nd_Zone : str; nd_Role : str; nd_IsUp : bool;
  nd_Draining : bool; nd_CapacityBytes : option Z; nd_DiskTotalBytes : Z;
  nd_DiskAvailBytes : Z }.

(** A role of the layout, as the API shows it, is the wire type itself. *)
Record LayoutDTO := mkLayoutDTO {
  ld_Version : Z; ld_Roles : list LayoutRole; ld_Staged : list LayoutRole }.

Record AddNodeInput := mkAddNodeInput {
  an_NodeID : str; an_Peer : str; an_Zone : str; an_CapacityBytes : Z }.

Definition nodeStatusToDTO (n : NodeStatus) : NodeDTO :=
  mkNodeDTO (ns_ID n) (ns_Hostname n) (ns_Addr n) (ns_Zone n) (ns_Role n) (ns_IsUp n)
    (ns_Draining n) (ns_CapacityBytes n) (add64 (ns_DiskUsed n) (ns_DiskAvail n))
    (ns_DiskAvail n).

(** A disk size of zero or less is stored as NULL. *)
Definition positive (z : Z) : option Z := if (0 <? z)%Z then Some z else None.

(** The row written for a reported node. *)
Definition node_row (clusterID : str) (n : NodeStatus) : StorageNode :=
  mkStorageNode "" clusterID (ns_ID n) (ns_Hostname n) (ns_Addr n) (ns_Zone n)
    (ns_CapacityBytes n) (ns_Role n) (ns_IsUp n) (ns_Draining n)
    (positive (add64 (ns_DiskUsed n) (ns_DiskAvail n))) (positive (ns_DiskAvail n)).

Definition dto_of_row (n : StorageNode) : NodeDTO :=
  mkNodeDTO (sn_GarageNodeID n) (sn_Hostname n) (sn_Addr n) (sn_Zone n) (sn_Role n) (sn_IsUp n)
    (sn_Draining n) (sn_CapacityBytes n) (default 0%Z (sn_DiskTotalBytes n))
    (default 0%Z (sn_DiskAvailBytes n)).

Section Clusters.
Context {ENV : Env} {B : Type} `{!GarageServer B} (s : Services B).
#[local] Abbreviation Svc := (@Service.Svc B).
Implicit Types (ctx : Ctx).

Definition clusterToDTO (c : Cluster) : Svc ClusterDTO :=
  let! n := attempt (db (Store.CountBucketsInCluster (cl_ID c))) in
  let! caps := (if s_HasReg s
                then let! p := attempt (Registry.Provider s (cl_ID c)) in
                     ret (match p with
                          | inr p => capsToDTO (sp_Capabilities p)
                          | inl _ => no_capabilities
                          end)
                else ret no_capabilities) in
  ret (mkClusterDTO (cl_ID c) (cl_Name c) (cl_Provider c) (cl_Mode c) (cl_S3Endpoint c)
         (cl_S3Region c) (cl_Status c) (cl_ID c =s s_ClusterID s)
         (match n with inr n => n | inl _ => 0 end) caps).

Definition ListClusters : Svc (list ClusterDTO) :=
  let! rows := mapErr mapRepoErr (db Store.ListClusters) in
  mapM_ clusterToDTO rows.

Definition GetCluster (id : str) : Svc ClusterDTO :=
  let! c := mapErr mapRepoErr (db (Store.GetClusterByID id)) in
  clusterToDTO c.

Definition invalidate (id : str) : Svc unit :=
  if s_HasReg s then Registry.Invalidate id else ret tt.

Definition valid_input (i : AddClusterInput) : option str :=
  if ac_Name i =s "" then Some "name is required"
  else if negb (bool_decide (ac_Provider i ∈ genericKinds))
  then Some "provider must be one of: aws_s3, r2, b2, seaweedfs, ceph_rgw, wasabi, storj, hetzner, gcs, minio"
  else if (ac_AccessKeyID i =s "") || (ac_SecretAccessKey i =s "")
  then Some "access key id and secret are required"
  else if negb (ac_Provider i =s "aws_s3") && (ac_S3Endpoint i =s "")
  then Some "s3_endpoint is required for this provider"
  else None.

Definition AddCluster ctx (i : AddClusterInput) : Svc ClusterDTO :=
  do! authorize s ctx ActionCreate (mkTarget ResourceCluster "") in
  match valid_input i with
  | Some msg => throw (validationErr msg)
  | None =>
      match New (s_Factories s) (probe_config i) with
      | inl e => throw (validationErr ("unsupported provider: " ++ st_error e))
      | inr probe =>
          do! mapErr (fun e => storageUnavailableErr
                        ("could not connect to backend with supplied credentials: "
                           ++ st_error e)) (be (sp_Ping probe)) in
          let! sysEnc := seal s (ac_SecretAccessKey i) in
          let! id := mapErr mapRepoErr (db (Store.CreateCluster (added_cluster i sysEnc))) in
          do! invalidate id in
          do! audit s ctx "cluster.add" "cluster" id
                (Some [("name", JStr (ac_Name i)); ("provider", JStr (ac_Provider i))]) in
          GetCluster id
      end
  end.

Definition RemoveCluster ctx (id : str) : Svc unit :=
  do! authorize s ctx ActionDelete (mkTarget ResourceCluster id) in
  let! c := mapErr mapRepoErr (db (Store.GetClusterByID id)) in
  reject! (cl_ID c =s s_ClusterID s) with conflictErr "cannot remove the primary cluster" in
  let! n := mapErr mapRepoErr (db (Store.CountBucketsInCluster id)) in
  reject! (0 <? n)%nat with conflictErr "remove the cluster's buckets first" in
  do! mapErr mapRepoErr (db (Store.SoftDeleteCluster id)) in
  do! invalidate id in
  audit s ctx "cluster.remove" "cluster" id (Some [("name", JStr (cl_Name c))]).

(** ** Nodes *)

Definition adminForGarageCluster (clusterID : str) : Svc (AdminConn * Cluster) :=
  let! c := mapErr mapRepoErr (db (Store.GetClusterByID clusterID)) in
  reject! negb (cl_Provider c =s Kind) || (cl_AdminTokenEnc c =s "") with unsupportedErr in
  match s_SealerOpen s (cl_AdminTokenEnc c) with
  | inl e => throw (mkError "internal_error" e 500)
  | inr tok => ret (Admin.NewAdminClient (cl_AdminEndpoint c) tok, c)
  end.

Definition upsertNodes (clusterID : str) (st : ClusterStatus) : Svc unit :=
  do! forM_ (cs_Nodes st) (fun n => ignore (db (Store.UpsertNode (node_row clusterID n)))) in
  ignore (db (Store.DeleteStaleNodes clusterID (map ns_ID (cs_Nodes st)))).

Definition nodesFromDB (clusterID : str) : Svc (list NodeDTO) :=
  let! rows := mapErr mapRepoErr (db (Store.ListNodesByCluster clusterID)) in
  ret (map dto_of_row rows).

Definition ListNodes (clusterID : str) : Svc (list NodeDTO) :=
  let! _ := mapErr mapRepoErr (db (Store.GetClusterByID clusterID)) in
  let! prov := mapErr (fun e => storageUnavailableErr ("cannot reach the cluster: " ++ e))
                 (providerFor s clusterID) in
  reject! negb (cap_HasClusterHealth (sp_Capabilities prov)) with unsupportedErr in
  let! st := attempt (be (sp_GetClusterStatus prov)) in
  match st with
  | inl _ => nodesFromDB clusterID
  | inr st => do! upsertNodes clusterID st in ret (map nodeStatusToDTO (cs_Nodes st))
  end.

Definition reconcileCluster (clusterID : str) : Svc unit :=
  let! prov := attempt (providerFor s clusterID) in
  match prov with
  | inl _ => ret tt
  | inr prov =>
      if negb (cap_HasClusterHealth (sp_Capabilities prov)) then ret tt
      else
        let! st := attempt (be (sp_GetClusterStatus prov)) in
        match st with
        | inl _ => ret tt
        | inr st => upsertNodes clusterID st
        end
  end.

(** One pass of [RunNodeReconciler]'s loop. *)
Definition ReconcileNodesOnce : Svc unit :=
  let! l := attempt (db Store.ListClusters) in
  match l with
  | inl _ => ret tt
  | inr l => forM_ l (fun c => reconcileCluster (cl_ID c))
  end.

Definition AddNode ctx (clusterID : str) (i : AddNodeInput) : Svc unit :=
  do! authorize s ctx ActionUpdate (mkTarget ResourceCluster clusterID) in
  reject! (an_NodeID i =s "") with validationErr "node id is required" in
  let! ac := adminForGarageCluster clusterID in
  let zone := if an_Zone i =s "" then "dc1" else an_Zone i in
  let! _ := mapErr mapStorageErr (be (GarageManager.AddOrUpdateNode (fst ac) (an_Peer i)
              (GarageManager.mkNodeSpec (an_NodeID i) zone (an_CapacityBytes i) []))) in
  do! audit s ctx "cluster.node.add" "cluster" clusterID
        (Some [("node_id", JStr (an_NodeID i)); ("zone", JStr zone)]) in
  reconcileCluster clusterID.

Definition RemoveNode ctx (clusterID nodeID : str) : Svc unit :=
  do! authorize s ctx ActionUpdate (mkTarget ResourceCluster clusterID) in
  let! ac := adminForGarageCluster clusterID in
  let! _ := mapErr mapStorageErr (be (GarageManager.RemoveNode (fst ac) nodeID)) in
  do! audit s ctx "cluster.node.remove" "cluster" clusterID
        (Some [("node_id", JStr nodeID)]) in
  reconcileCluster clusterID.

Definition GetLayout (clusterID : str) : Svc LayoutDTO :=
  let! ac := adminForGarageCluster clusterID in
  let! l := mapErr mapStorageErr (be (Admin.GetClusterLayout (fst ac))) in
  ret (mkLayoutDTO (clr_Version l) (clr_Roles l) (clr_StagedRoleChanges l)).

Definition PreviewLayout (clusterID : str) : Svc (list str) :=
  let! ac := adminForGarageCluster clusterID in
  let! p := mapErr mapStorageErr (be (GarageManager.PreviewStaged (fst ac))) in
  guard! (lpr_Error p =s "") else validationErr (lpr_Error p) in
  ret (lpr_Message p).

Definition RevertLayout ctx (clusterID : str) : Svc unit :=
  do! authorize s ctx ActionUpdate (mkTarget ResourceCluster clusterID) in
  let! ac := adminForGarageCluster clusterID in
  do! mapErr mapStorageErr (be (GarageManager.RevertStaged (fst ac))) in
  audit s ctx "cluster.layout.revert" "cluster" clusterID None.

End Clusters.
End Clusters.
