(* ===== verification/ClusterProofs.v ===== *)
(** Connecting and removing storage backends: the provider cache agrees with the
    stored clusters, a new cluster is served by the provider that was probed, a
    removed one held no bucket; node rows follow the reported topology. *)
From S2P Require Import Prelude GoStrings Storage MemStore Garage GarageManager S3Laws Database Repository AuditLog Service Frames Example Clusters.
#[local] Open Scope string_scope.
Import Clusters.

(** * The provider cache *)

(** What routing depends on: the cluster table and the cache. *)
Definition routing {B} (w : World B) := (clusters (w_db w), w_cache w).

Section Routing.
Context {ENV : Env} {B : Type} (s : Services B).

Lemma routing_db {A} (m : M DB DBErr A) :
  Guar (same clusters) m -> Guar (same routing) (db (B := B) m).
Proof.
  intros Hm. apply guar_zoom. intros w r d H. apply Hm in H.
  unfold same, routing. cbn. by rewrite H.
Qed.
Lemma routing_quiet {E A} (m : M (World B) E A) : Guar quiet m -> Guar (same routing) m.
Proof.
  intros Hm w r w' H. apply Hm, quiet_inv in H as (Ht & _ & Hc & _).
  unfold same, routing. rewrite Hc. f_equal. exact (f_equal clusters Ht).
Qed.
Lemma routing_be {A} (m : M B StErr A) : Guar (same routing) (be m).
Proof. apply guar_zoom. reflexivity. Qed.
Lemma routing_fx {E} e : Guar (same routing) (fx (B := B) (E := E) e).
Proof. intros w r w' H. unfold fx, modify in H. by simplify_eq. Qed.
Lemma routing_seal p : Guar (same routing) (seal s p).
Proof. intros w r w' H. unfold seal in H. by simplify_eq. Qed.
Lemma routing_ignore {E E' A} (m : M (World B) E A) :
  Guar (same routing) m -> Guar (same routing) (ignore (E' := E') m).
Proof. intros. unfold ignore. guar. Qed.
Lemma routing_audit ctx a t i m : Guar (same routing) (audit s ctx a t i m).
Proof.
  unfold audit. guar_step. guar; [|apply routing_fx].
  apply routing_ignore, routing_db, (same_WriteAudit clusters).
Qed.
Lemma same_clusters_tick d n : same clusters d (set_db_tick n d).
Proof. reflexivity. Qed.
Lemma same_clusters_reads {A} (m : M DB DBErr A) : Guar (same tables) m -> Guar (same clusters) m.
Proof. intros Hm d r d' H. apply Hm in H. exact (f_equal clusters H). Qed.
Lemma routing_UpsertNode n : Guar (same routing) (db (B := B) (Store.UpsertNode n)).
Proof.
  apply routing_db. unfold Store.UpsertNode. guar. apply guar_insert;
    [typeclasses eauto|apply same_clusters_tick|]. intros t d a d' _ H. simplify_eq.
  by destruct (exists_ _ _).
Qed.
Lemma routing_DeleteStaleNodes c l : Guar (same routing) (db (B := B) (Store.DeleteStaleNodes c l)).
Proof.
  apply routing_db. unfold Store.DeleteStaleNodes. destruct l; guar.
  apply guar_exec; [typeclasses eauto|apply same_clusters_tick|done].
Qed.
End Routing.

(** Solves [Guar (same routing) m] for code that writes neither clusters nor cache. *)
Ltac routing :=
  repeat first
    [ guar_step | apply routing_be | apply routing_fx | apply routing_seal
    | apply routing_audit | apply routing_UpsertNode | apply routing_DeleteStaleNodes
    | apply routing_ignore | apply routing_quiet, quiet_authorize
    | apply routing_db, same_clusters_reads; solve [repeat first
        [guar_step | apply reads_query | apply reads_query_row]]
    | typeclasses eauto | progress cbv zeta ].

Section Coherence.
Context {ENV : Env} {B : Type} `{!GarageServer B} (s : Services B).
Implicit Types (w : World B).

(** Every cached provider is the one its cluster's row describes, under the id the
    database spells. *)
Definition served w : Prop :=
  forall id p, w_cache w !! id = Some p ->
    canonical id /\ exists c, Store.cluster_row id (w_db w) = Some c /\ Registry.build s c = inr p.
Definition coherent w : Prop :=
  served w /\ Forall (fun c => canonical (cl_ID c)) (live (clusters (w_db w))).
Definition keeps w w' : Prop := coherent w -> coherent w'.
#[local] Instance keeps_preorder : PreOrder keeps.
Proof. unfold keeps. split; [intros w H; exact H|intros w1 w2 w3 H1 H2 H; auto]. Qed.

Lemma keeps_routing {E A} (m : M (World B) E A) : Guar (same routing) m -> Guar keeps m.
Proof.
  intros Hm w r w' H [Hw Hids]. apply Hm in H.
  pose proof (f_equal fst H) as H1. pose proof (f_equal snd H) as H2. cbn in H1, H2.
  split; [|by rewrite <- H1]. intros id p Hp.
  rewrite <- H2 in Hp. destruct (Hw _ _ Hp) as (Hid & c & Hc & Hb). split; [done|].
  exists c. split; [|done]. unfold Store.cluster_row in *. by rewrite <- H1.
Qed.
(** A step whose result is known to satisfy [P] in a coherent state. *)
Lemma keeps_bind {E A A'} (P : A -> Prop) (m : M (World B) E A) (k : A -> M (World B) E A') :
  Guar keeps m -> (forall w a w1, coherent w -> m w = (inr a, w1) -> P a) ->
  (forall a, P a -> Guar keeps (k a)) -> Guar keeps (bind m k).
Proof.
  intros Hm HP Hk w r w' H Hw. rewrite bind_run in H. destruct (m w) as [[e|a] w1] eqn:E1.
  - injection H as <- <-. by eapply Hm.
  - eapply (Hk a); [by eapply HP|exact H|]. by eapply Hm.
Qed.

(** What a call of the registry returns, given a coherent cache. *)
Lemma Provider_spec id w r w' : Registry.Provider s id w = (r, w') -> coherent w ->
  (canonical id -> coherent w') /\ clusters (w_db w') = clusters (w_db w) /\
  forall p, r = inr p ->
    exists c, Store.cluster_row id (w_db w) = Some c /\ Registry.build s c = inr p.
Proof.
  unfold Registry.Provider. intros H Hw. rewrite bind_run in H. cbn in H.
  destruct (w_cache w !! id) as [p0|] eqn:E.
  - unfold ret in H. injection H as <- <-. split; [done|]. split; [done|].
    intros p [= <-]. by apply (proj1 Hw).
  - rewrite bind_run in H. destruct (mapErr _ _ w) as [r1 w1] eqn:E1.
    assert (clusters (w_db w1) = clusters (w_db w) /\ w_cache w1 = w_cache w /\
            forall c, r1 = inr c -> Store.cluster_row id (w_db w) = Some c) as (Hc & Hca & Hrow).
    { unfold mapErr in E1. destruct (db _ w) as [r0 w0] eqn:E0.
      apply db_inv in E0 as (d & E0 & ->). unfold Store.GetClusterByID in E0.
      destruct r0 as [e|c]; injection E1 as <- <-.
      - apply mapErr_inl in E0 as (e0 & E0 & _). apply stmt_inl in E0 as ->. done.
      - apply mapErr_inr, query_row_inr in E0 as [-> E0]. split; [done|]. split; [done|].
        intros c0 [= <-]. exact E0. }
    assert (coherent w1) as Hw1.
    { split; [|rewrite Hc; apply Hw]. intros i p Hp. rewrite Hca in Hp.
      destruct (proj1 Hw i p Hp) as (Hi & c & H1 & H2). split; [done|]. exists c.
      split; [|done]. unfold Store.cluster_row in *. by rewrite Hc. }
    destruct r1 as [e|c]; [injection H as <- <-; done|]. specialize (Hrow c eq_refl).
    destruct (Registry.build s c) as [e|p] eqn:Eb; cbn in H; injection H as <- <-;
      [done|]. split; [|split; [done|]].
    + intros Hid. split; [|apply Hw1]. intros i q Hq. cbn in Hq. destruct (decide (i = id)) as [->|Hne].
      * rewrite lookup_insert_eq in Hq. simplify_eq. split; [done|]. exists c. split; [|done].
        unfold Store.cluster_row in *. cbn. by rewrite Hc.
      * rewrite lookup_insert_ne in Hq by done. by apply (proj1 Hw1).
    + intros q [= <-]. exists c. done.
Qed.
Lemma keeps_Provider id : canonical id -> Guar keeps (Registry.Provider s id).
Proof. intros Hid w r w' H Hw. by destruct (Provider_spec _ _ _ _ H Hw) as [Hk _]; apply Hk. Qed.
Lemma keeps_providerFor id : canonical id -> Guar keeps (providerFor s id).
Proof. intros Hid. unfold providerFor. guar. by apply keeps_Provider. Qed.

Lemma keeps_Invalidate {E} id : Guar keeps (Registry.Invalidate (E := E) id).
Proof.
  intros w r w' H [Hw Hids]. unfold Registry.Invalidate, modify in H. injection H as _ <-.
  split; [|done]. intros i p Hp. cbn in Hp. apply lookup_delete_Some in Hp as [_ Hp]. exact (Hw _ _ Hp).
Qed.

Lemma keeps_CreateCluster c : Guar keeps (db (B := B) (Store.CreateCluster c)).
Proof.
  intros w r w' H [Hw Hids]. apply db_inv in H as (d & H & ->).
  unfold Store.CreateCluster in H. destruct r as [e|i].
  - apply mapErr_inl in H as (e0 & H & _). apply stmt_inl in H as ->. done.
  - apply mapErr_inr, insert_inr in H as [_ H]. injection H as _ <-. split.
    + intros id p Hp. destruct (Hw id p Hp) as (Hid & c0 & H1 & H2). split; [done|].
      exists c0. split; [|done]. unfold Store.cluster_row in *. cbn. rewrite live_add, where_app.
      destruct (where_ _ (live (clusters (w_db w)))); [done|]. exact H1.
    + cbn. rewrite live_add. apply Forall_app. split; [done|].
      apply Forall_singleton, env_as_uuid_gen.
Qed.

(** The deletion and the invalidation together: between them the cache is stale. *)
Lemma keeps_delete_invalidate id : s_HasReg s = true -> canonical id ->
  Guar keeps (do! mapErr mapRepoErr (db (Store.SoftDeleteCluster id)) in invalidate s id).
Proof.
  intros Hreg Hid w r w' H Hw. rewrite bind_run in H.
  destruct (mapErr _ _ w) as [r1 w1] eqn:E1. unfold mapErr in E1.
  destruct (db _ w) as [r0 w0] eqn:E0. apply db_inv in E0 as (d & E0 & ->).
  unfold Store.SoftDeleteCluster in E0. destruct r0 as [e|u]; injection E1 as <- <-.
  - apply stmt_inl in E0 as ->. injection H as _ <-. done.
  - apply exec_inr in E0 as ->. unfold invalidate in H. rewrite Hreg in H.
    unfold Registry.Invalidate, modify in H. injection H as _ <-. destruct Hw as [Hw Hids]. split.
    + intros i p Hp. cbn in Hp. apply lookup_delete_Some in Hp as [Hne Hp].
      destruct (Hw i p Hp) as (Hi & c & H1 & H2). split; [done|].
      exists c. split; [|done]. unfold Store.cluster_row in *. cbn.
      rewrite live_del, where_where. erewrite where_ext; [exact H1|].
      intros x _. cbn. rewrite Hi, Hid. destruct (cl_ID x =s i) eqn:E; [|done].
      apply eqb_true_str in E as ->. by apply not_eq_sym, eqb_false_str in Hne as ->.
    + cbn. rewrite live_del. apply Forall_forall. intros c [Hc _]%where_elem.
      by eapply (proj1 (Forall_forall _ _)) in Hids.
Qed.

(** ** The operations *)

Lemma keeps_clusterToDTO c : canonical (cl_ID c) -> Guar keeps (clusterToDTO s c).
Proof.
  intros Hc. unfold clusterToDTO. guar; [|by apply keeps_Provider].
  apply keeps_routing. unfold Store.CountBucketsInCluster. routing.
Qed.
(** The rows a query returns have canonical ids. *)
Lemma stored_ids w c : coherent w -> c ∈ live (clusters (w_db w)) -> canonical (cl_ID c).
Proof. intros [_ Hids] Hc. exact (proj1 (Forall_forall _ _) Hids c Hc). Qed.
Lemma keeps_GetCluster id : Guar keeps (GetCluster s id).
Proof.
  unfold GetCluster. apply (keeps_bind (fun c => canonical (cl_ID c))); [..|exact keeps_clusterToDTO].
  - apply keeps_routing. unfold Store.GetClusterByID. routing.
  - intros w c w1 Hw H. apply mapErr_inr, db_inv in H as (d & H & _).
    apply mapErr_inr, query_row_inr in H as [_ H].
    apply head_Some_elem_of, where_elem in H as [H _]. by eapply stored_ids.
Qed.
Lemma listed_ids w l w1 : coherent w -> db (B := B) Store.ListClusters w = (inr l, w1) ->
  Forall (fun c => canonical (cl_ID c)) l.
Proof.
  intros Hw H. apply db_inv in H as (d & H & _). apply mapErr_inr, query_inr in H as [_ ->].
  apply Forall_forall. intros c Hc. unfold asc in Hc. rewrite order_by_perm in Hc.
  by eapply stored_ids.
Qed.
Lemma keeps_upsertNodes id st : Guar keeps (upsertNodes (B := B) id st).
Proof. apply keeps_routing. unfold upsertNodes. routing. Qed.
Lemma keeps_reconcile id : canonical id -> Guar keeps (reconcileCluster s id).
Proof.
  intros Hid. unfold reconcileCluster. guar; [by apply keeps_providerFor| |apply keeps_upsertNodes].
  apply keeps_routing, routing_be.
Qed.
Lemma keeps_admin id : Guar keeps (adminForGarageCluster s id).
Proof. apply keeps_routing. unfold adminForGarageCluster, Store.GetClusterByID. routing. Qed.

Inductive ClusterOp :=
  | OpListClusters | OpGetCluster (id : str) | OpAddCluster (i : AddClusterInput)
  | OpRemoveCluster (id : str) | OpListNodes (id : str) | OpReconcile
  | OpAddNode (id : str) (i : AddNodeInput) | OpRemoveNode (id nodeID : str)
  | OpRevertLayout (id : str) | OpRoute (id : str).

(** The cluster a request names is spelled as the database spells it. *)
Definition canonical_op (co : Ctx * ClusterOp) : Prop :=
  match snd co with
  | OpListClusters | OpAddCluster _ | OpReconcile | OpGetCluster _ | OpRevertLayout _ => True
  | OpRemoveCluster id | OpListNodes id | OpAddNode id _ | OpRemoveNode id _ | OpRoute id => canonical id
  end.

(** The outcome of a request is for its caller; the next one runs either way. *)
Definition run_op (co : Ctx * ClusterOp) : M (World B) Error unit :=
  let '(ctx, op) := co in
  match op with
  | OpListClusters => ignore (ListClusters s)
  | OpGetCluster id => ignore (GetCluster s id)
  | OpAddCluster i => ignore (AddCluster s ctx i)
  | OpRemoveCluster id => ignore (RemoveCluster s ctx id)
  | OpListNodes id => ignore (ListNodes s id)
  | OpReconcile => ignore (ReconcileNodesOnce s)
  | OpAddNode id i => ignore (AddNode s ctx id i)
  | OpRemoveNode id nodeID => ignore (RemoveNode s ctx id nodeID)
  | OpRevertLayout id => ignore (RevertLayout s ctx id)
  | OpRoute id => ignore (providerFor s id)
  end.

Lemma keeps_AddCluster ctx i : Guar keeps (AddCluster s ctx i).
Proof.
  unfold AddCluster. guar.
  - apply keeps_routing. routing.
  - apply keeps_routing. routing.
  - apply keeps_routing. routing.
  - apply keeps_CreateCluster.
  - unfold invalidate. guar. apply keeps_Invalidate.
  - apply keeps_routing. routing.
  - apply keeps_GetCluster.
Qed.
Lemma keeps_RemoveCluster ctx id : s_HasReg s = true -> canonical id ->
  Guar keeps (RemoveCluster s ctx id).
Proof.
  intros Hreg Hid. unfold RemoveCluster, Store.GetClusterByID, Store.CountBucketsInCluster.
  do 4 (guar_step; [apply keeps_routing; routing|]). guar_step; [guar|].
  apply guar_bind_assoc. guar_step; [by apply keeps_delete_invalidate|].
  apply keeps_routing. routing.
Qed.

Lemma keeps_ListNodes id : canonical id -> Guar keeps (ListNodes s id).
Proof.
  intros Hid. unfold ListNodes, nodesFromDB, Store.GetClusterByID, Store.ListNodesByCluster.
  guar; try (apply keeps_routing; routing; fail);
    [by apply keeps_providerFor|apply keeps_upsertNodes].
Qed.
Lemma keeps_ReconcileNodesOnce : Guar keeps (ReconcileNodesOnce s).
Proof.
  unfold ReconcileNodesOnce. apply (keeps_bind (fun r => match r with
    | inr l => Forall (fun c => canonical (cl_ID c)) l | inl _ => True end)).
  - apply keeps_routing. unfold Store.ListClusters. routing.
  - intros w [e|l] w1 Hw H; [done|]. rewrite attempt_run in H.
    destruct (db _ w) as [r w2] eqn:E. injection H as -> ->. by eapply listed_ids.
  - intros [e|l] Hl; [guar|]. apply guar_forM; [typeclasses eauto|].
    intros c Hc. by apply keeps_reconcile, (proj1 (Forall_forall _ _) Hl).
Qed.
Lemma keeps_AddNode ctx id i : canonical id -> Guar keeps (AddNode s ctx id i).
Proof.
  intros Hid. unfold AddNode. guar; try (apply keeps_routing; routing; fail);
    [apply keeps_admin|by apply keeps_reconcile].
Qed.
Lemma keeps_RemoveNode ctx id n : canonical id -> Guar keeps (RemoveNode s ctx id n).
Proof.
  intros Hid. unfold RemoveNode. guar; try (apply keeps_routing; routing; fail);
    [apply keeps_admin|by apply keeps_reconcile].
Qed.
Lemma keeps_RevertLayout ctx id : Guar keeps (RevertLayout s ctx id).
Proof.
  unfold RevertLayout. guar; try (apply keeps_routing; routing; fail). apply keeps_admin.
Qed.
Lemma keeps_ListClusters : Guar keeps (ListClusters s).
Proof.
  unfold ListClusters. apply (keeps_bind (Forall (fun c => canonical (cl_ID c)))).
  - apply keeps_routing. unfold Store.ListClusters. routing.
  - intros w l w1 Hw H. apply mapErr_inr in H. by eapply listed_ids.
  - intros l Hl. induction Hl as [|c l Hc Hl IH]; cbn [mapM_]; [guar|].
    apply guar_bind; [typeclasses eauto|by apply keeps_clusterToDTO|intros a].
    apply guar_bind; [typeclasses eauto|exact IH|intros bs; guar].
Qed.
Hint Resolve keeps_ListClusters keeps_GetCluster keeps_AddCluster keeps_RemoveCluster
  keeps_ListNodes keeps_ReconcileNodesOnce keeps_AddNode keeps_RemoveNode keeps_RevertLayout
  keeps_providerFor : guar.

Lemma keeps_run_op co : s_HasReg s = true -> canonical_op co -> Guar keeps (run_op co).
Proof. intros Hreg Hco. destruct co as [ctx op], op; unfold run_op, ignore; cbn in Hco; guar. Qed.

(** C29: the provider cache never goes stale.  Start from a coherent state: the live
    clusters have canonical ids and every cached provider is the one built from the live
    row of its cluster.  Whatever requests on clusters and nodes run, in whatever order
    and with whatever failures, as long as they name clusters by the ids the database
    spells, the state stays coherent; so a call, in whatever spelling, is routed to the
    backend the live row describes, and never to a cluster that was removed.  The cache
    is keyed by the text of the id: [stale_provider_in_upper_case] is what a removal
    under another spelling does. *)
Theorem registry_coherent (ops : list (Ctx * ClusterOp)) w r w'
    (Hreg : s_HasReg s = true) (Hw : coherent w) (Hspelling : Forall canonical_op ops)
    (Hrun : forM_ ops run_op w = (r, w')) :
  coherent w' /\
  forall id p w2, Registry.Provider s id w' = (inr p, w2) ->
    exists c, Store.cluster_row id (w_db w') = Some c /\ Registry.build s c = inr p.
Proof.
  assert (coherent w') as Hw'.
  { assert (Guar keeps (forM_ ops run_op)) as Hk; [|exact (Hk _ _ _ Hrun Hw)].
    apply guar_forM; [typeclasses eauto|]. intros co Hco. apply keeps_run_op; [done|].
    exact (proj1 (Forall_forall _ _) Hspelling co Hco). }
  split; [done|]. intros id p w2 H. by eapply Provider_spec.
Qed.

(** * Adding a cluster *)

(** What the sealer promises: a sealed secret is not empty and opens to itself. *)
Definition sealer_ok : Prop :=
  forall n p blob, p <> "" -> s_SealerSeal s n p = inr blob ->
    blob <> "" /\ s_SealerOpen s blob = inr p.

Lemma valid_input_inv i : valid_input i = None ->
  ac_Provider i ∈ genericKinds /\ ac_SecretAccessKey i <> "".
Proof.
  unfold valid_input. repeat case_match; intros; try done.
  rewrite negb_false_iff, bool_decide_eq_true in *. bool_prop. done.
Qed.

(** The row that is stored rebuilds the provider that was probed. *)
Lemma build_added i enc id t : valid_input i = None -> enc <> "" ->
  s_SealerOpen s enc = inr (ac_SecretAccessKey i) ->
  Registry.build s (set_cl_CreatedAt t (set_cl_ID id
    (set_cl_Provider (Store.or_default (ac_Provider i) "garage")
      (set_cl_Mode (Store.or_default "external" "managed")
        (set_cl_Status (Store.or_default "healthy" "healthy") (added_cluster i enc)))))) =
  match New (s_Factories s) (probe_config i) with
  | inl e => inl (st_error e)
  | inr p => inr p
  end.
Proof.
  intros Hv He Ho. apply valid_input_inv in Hv as [Hk _].
  assert (ac_Provider i <> "" /\ ac_Provider i <> Kind) as [H1 H2].
  { assert (Forall (fun x => x <> "" /\ x <> Kind) genericKinds) as HF by by repeat constructor.
    exact (proj1 (Forall_forall _ _) HF _ Hk). }
  apply eqb_false_str in H1, H2, He.
  unfold Registry.build, Registry.open_field. cbn. rewrite He, Ho.
  unfold Store.or_default. rewrite H1. unfold probe_config, Registry.publicEndpointFor. cbn.
  rewrite H2. destruct (cluster_public i =s "") eqn:Ep; [|done].
  unfold cluster_public in *. destruct (ac_PublicEndpoint i =s "") eqn:E2; [done|].
  apply eqb_true_str in Ep. by rewrite Ep in E2.
Qed.

Lemma view_GetCluster {V} (v : DB -> V) `{!Blind v} id : Guar (view v) (GetCluster s id).
Proof.
  unfold GetCluster, clusterToDTO, Store.GetClusterByID, Store.CountBucketsInCluster. frames.
  apply view_Provider; typeclasses eauto.
Qed.
Lemma view_invalidate {V} (v : DB -> V) `{!Blind v} id : Guar (view v) (invalidate s id).
Proof. unfold invalidate, Registry.Invalidate. guar. apply view_modify_cache. Qed.

Lemma GetCluster_id id w dto w' : GetCluster s id w = (inr dto, w') -> cd_ID dto = env_as_uuid id.
Proof.
  unfold GetCluster. intros H. apply bind_inr in H as (c & w1 & H1 & H).
  apply mapErr_inr, db_inv in H1 as (d & H1 & ->). apply mapErr_inr, query_row_inr in H1 as [_ H1].
  assert (cl_ID c = env_as_uuid id) as <-.
  { unfold Store.cluster_row in H1. apply head_Some_elem_of, where_elem in H1 as [_ H1]. by bool_prop. }
  unfold clusterToDTO in H. run_simpl. done.
Qed.

Lemma CreateCluster_row c w id w' : db (B := B) (Store.CreateCluster c) w = (inr id, w') ->
  canonical id /\ exists n, Store.cluster_row id (w_db w') = Some (set_cl_CreatedAt (env_now n) (set_cl_ID id
    (set_cl_Provider (Store.or_default (cl_Provider c) "garage")
      (set_cl_Mode (Store.or_default (cl_Mode c) "managed")
        (set_cl_Status (Store.or_default (cl_Status c) "healthy") c))))).
Proof.
  intros H. apply db_inv in H as (d & H & ->). unfold Store.CreateCluster in H.
  apply mapErr_inr, insert_inr in H as [Hok H]. injection H as <- <-.
  split; [apply env_as_uuid_gen|]. eexists.
  unfold Store.cluster_row. rewrite env_as_uuid_gen. cbn. rewrite live_add, where_app, (where_false _ (live _)).
  - cbn. by rewrite eqb_refl_str.
  - intros x Hx. bool_prop. unfold Store.has_id in Hok. rewrite exists_false in Hok.
    apply Hok. by apply live_elem_all in Hx.
Qed.

(** A new cluster is served by the backend whose connectivity was verified.
    When connecting a backend succeeds, its row is in the table, the provider
    rebuilt from that row (decrypting the stored secret) is the one the supplied
    credentials were tried on, and the registry answers with no other. *)
Theorem added_cluster_is_probed ctx i w dto w'
    (Hseal : sealer_ok) (Hreg : s_HasReg s = true) (Hw : coherent w)
    (Hrun : AddCluster s ctx i w = (inr dto, w')) :
  exists probe c,
    New (s_Factories s) (probe_config i) = inr probe /\
    Store.cluster_row (cd_ID dto) (w_db w') = Some c /\
    Registry.build s c = inr probe /\
    forall p w2, Registry.Provider s (cd_ID dto) w' = (inr p, w2) -> p = probe.
Proof.
  pose proof (keeps_AddCluster ctx i _ _ _ Hrun Hw) as Hw'.
  unfold AddCluster in Hrun. apply bind_inr in Hrun as ([] & w1 & _ & H).
  destruct (valid_input i) eqn:Ev; [by run_simpl|].
  destruct (New _ _) as [e|probe] eqn:En; [by run_simpl|].
  apply bind_inr in H as ([] & w2 & _ & H). apply bind_inr in H as (enc & w3 & Hs & H).
  apply bind_inr in H as (id & w4 & Hc & H). apply mapErr_inr, CreateCluster_row in Hc as [Hcan [n Hc]].
  apply bind_inr in H as ([] & w5 & H5 & H). apply bind_inr in H as ([] & w6 & H6 & H).
  pose proof (GetCluster_id _ _ _ _ H) as Hid. rewrite Hcan in Hid. rewrite Hid.
  apply (view_invalidate clusters) in H5. apply (view_audit s clusters) in H6.
  apply (view_GetCluster clusters) in H.
  assert (clusters (w_db w4) = clusters (w_db w')) as Hcl
    by (etrans; [exact H5|]; etrans; [exact H6|exact H]).
  unfold Store.cluster_row in Hc. rewrite Hcl in Hc.
  unfold seal in Hs. destruct (s_SealerSeal s _ _) as [e|blob] eqn:Es; [done|].
  injection Hs as <- _. apply Hseal in Es as [Hne Hop]; [|exact (proj2 (valid_input_inv _ Ev))].
  pose proof (build_added i blob id (env_now n) Ev Hne Hop) as Hb. rewrite En in Hb.
  exists probe. eexists. split; [done|]. split; [exact Hc|]. split; [exact Hb|].
  intros p w2' Hp. destruct (Provider_spec _ _ _ _ Hp Hw') as (_ & _ & Hspec).
  destruct (Hspec p eq_refl) as (c & Hr & Hbc). unfold Store.cluster_row in Hr.
  rewrite Hc in Hr. injection Hr as <-. pose proof (eq_trans (eq_sym Hbc) Hb) as He.
  by injection He.
Qed.

(** * Removing a cluster *)

(** Only an empty, secondary cluster can be removed, and it is gone.  When a
    removal succeeds, the cluster was not the primary one and no live bucket was
    placed on it; afterwards the registry has no provider for it, and every other
    cluster is as it was. *)
Theorem removed_cluster_was_empty ctx id w w'
    (Hreg : s_HasReg s = true) (Hw : coherent w) (Hid : canonical id)
    (Hrun : RemoveCluster s ctx id w = (inr tt, w')) :
  id <> s_ClusterID s /\
  (forall b, b ∈ live (buckets (w_db w)) -> b_ClusterID b <> id) /\
  live (buckets (w_db w')) = live (buckets (w_db w)) /\
  live (clusters (w_db w')) = where_ (fun c => negb (cl_ID c =s id)) (live (clusters (w_db w))) /\
  (forall p w2, Registry.Provider s id w' <> (inr p, w2)).
Proof.
  pose proof (keeps_RemoveCluster ctx id Hreg Hid _ _ _ Hrun Hw) as Hw'.
  unfold RemoveCluster in Hrun. apply bind_inr in Hrun as ([] & w1 & H1 & H).
  apply quiet_authorize, quiet_tables in H1.
  apply bind_inr in H as (c & w2 & H2 & H).
  apply mapErr_inr, db_inv in H2 as (d2 & H2 & ->). apply mapErr_inr, query_row_inr in H2 as [-> Hrow].
  apply head_Some_elem_of, where_elem in Hrow as [_ Hci]. rewrite Hid in Hci.
  destruct (cl_ID c =s s_ClusterID s) eqn:Ep; [by run_simpl|].
  apply bind_inr in H as ([] & w2' & Hr & H). unfold ret in Hr. injection Hr as <-.
  apply bind_inr in H as (n & w3 & H3 & H).
  apply mapErr_inr, db_inv in H3 as (d3 & H3 & ->). apply mapErr_inr, query_inr in H3 as [-> Hn].
  destruct (0 <? n)%nat eqn:En; [by run_simpl|].
  apply bind_inr in H as ([] & w3' & Hr & H). unfold ret in Hr. injection Hr as <-.
  apply bind_inr in H as ([] & w4 & H4 & H).
  apply mapErr_inr, db_inv in H4 as (d4 & H4 & ->). apply exec_inr in H4 as ->.
  apply bind_inr in H as ([] & w5 & H5 & H).
  assert (buckets (w_db w5) = buckets (w_db w') /\ clusters (w_db w5) = clusters (w_db w')) as [Hb Hc].
  { split; [exact (view_audit s buckets _ _ _ _ _ _ _ _ H)|exact (view_audit s clusters _ _ _ _ _ _ _ _ H)]. }
  pose proof (view_invalidate buckets _ _ _ _ H5) as Hb5.
  pose proof (view_invalidate clusters _ _ _ _ H5) as Hc5. unfold view, same in Hb5, Hc5. cbn in Hb5, Hc5.
  pose proof (f_equal buckets H1) as Hb1. pose proof (f_equal clusters H1) as Hc1. cbn in Hb1, Hc1.
  assert (live (clusters (w_db w')) =
          where_ (fun c => negb (cl_ID c =s id)) (live (clusters (w_db w)))) as Hlive.
  { by rewrite <- Hc, <- Hc5, live_del, Hc1, Hid. }
  bool_prop. split; [congruence|]. split; [|split; [|split; [done|]]].
  - intros b Hin Heq. apply Nat.ltb_ge, Nat.le_0_r in En. subst n. cbn in En. rewrite <- Hb1, Hid in En.
    assert (b ∈ where_ (fun b => b_ClusterID b =s id) (live (buckets (w_db w)))) as Hbad.
    { apply where_elem. split; [done|]. by apply eqb_true_str. }
    apply nil_length_inv in En. rewrite En in Hbad. by apply not_elem_of_nil in Hbad.
  - by rewrite <- Hb, <- Hb5, Hb1.
  - intros p w2 Hp. destruct (Provider_spec _ _ _ _ Hp Hw') as (_ & _ & Hspec).
    destruct (Hspec p eq_refl) as (c' & Hr & _). unfold Store.cluster_row in Hr.
    rewrite Hid, Hlive, where_where in Hr. apply head_Some_elem_of, where_elem in Hr as [_ Hr].
    destruct (cl_ID c' =s id); by bool_prop.
Qed.
End Coherence.

(** * Worked examples

    A deployment whose registry knows one kind of backend, minio. *)
Definition reg_services : Services MemB :=
  let s := ex_services in
  mkServices (s_Provider s) true {[ "minio" := fun _ => inr (mem_provider caps_garage false) ]}
    (s_PrimaryPublicEndpoint s) (s_SealerOpen s) (s_SealerSeal s) (s_Authz s) (s_Ent s)
    (s_Provision s) true (s_BillingReport s) (s_OrgID s) (s_ProjectID s) (s_ClusterID s)
    (s_SystemKeyID s) (s_WebPublicDomain s) (s_PublicBaseURL s) (s_Settings s).
Definition ex_add : AddClusterInput :=
  mkAddClusterInput "backup" "minio" "http://minio" "" "AK" "SK" "".

Lemma ex_coherent : @coherent ex_env _ reg_services ex_world.
Proof. split; [|by repeat constructor]. intros id p Hp. cbn in Hp. by rewrite lookup_empty in Hp. Qed.

Lemma registry_coherent_witness :
  let ops := [(ctx_alice, OpAddCluster ex_add); (ctx_alice, OpRoute "id0");
              (ctx_alice, OpRemoveCluster "id0"); (ctx_alice, OpListClusters)] in
  let out := forM_ ops (@run_op ex_env _ no_garage reg_services) ex_world in
  length (live (clusters (w_db (snd out)))) = 2 /\ @coherent ex_env _ reg_services (snd out).
Proof.
  intros ops out. split; [vm_compute; reflexivity|].
  exact (proj1 (@registry_coherent ex_env _ no_garage reg_services ops ex_world (fst out) (snd out)
    eq_refl ex_coherent ltac:(by repeat constructor) (surjective_pairing _))).
Defined.

(** A removal under another spelling leaves the provider behind.  With cluster c2 in the
    cache, on a database that reads C2 as the uuid it spells, DELETE /clusters/C2 takes
    the row away and drops the cache entry of C2, which is not there: the registry goes
    on serving the removed cluster. *)
Theorem stale_provider_in_upper_case :
  let s := mkServices (s_Provider ex_services) true
    {[ "garage" := fun _ => inr (mem_provider caps_garage false) ]} "" (s_SealerOpen ex_services)
    (s_SealerSeal ex_services) PermitAll AlwaysAllow (s_Provision ex_services) true
    (s_BillingReport ex_services) "o1" "p1" "c1" "GKsystem" "" "" ex_settings in
  let w := snd (@Registry.Provider spelling_env _ s "c2" ex_world) in
  let out := @RemoveCluster spelling_env _ s ctx_alice "C2" w in
  fst out = inr tt /\ @Store.cluster_row spelling_env "c2" (w_db (snd out)) = None /\
  failed (fst (@Registry.Provider spelling_env _ s "c2" (snd out))) = false /\
  failed (fst (@Registry.Provider spelling_env _ s "c2"
                 (snd (@RemoveCluster spelling_env _ s ctx_alice "c2" w)))) = true.
Proof. intros s w out. repeat split; vm_compute; reflexivity. Qed.

Lemma added_cluster_is_probed_witness :
  let out := @AddCluster ex_env _ reg_services ctx_alice ex_add ex_world in
  exists dto probe, fst out = inr dto /\
    New (s_Factories reg_services) (probe_config ex_add) = inr probe /\
    forall p w2, Registry.Provider (ENV := ex_env) reg_services (cd_ID dto) (snd out) = (inr p, w2) -> p = probe.
Proof.
  intros out. destruct (fst out) as [e|dto] eqn:E; [exfalso; vm_compute in E; discriminate|].
  destruct (added_cluster_is_probed (ENV := ex_env) reg_services ctx_alice ex_add ex_world dto (snd out))
    as (probe & c & H1 & _ & _ & H4).
  - intros n p blob Hp [= <-]. split; [exact Hp|reflexivity].
  - reflexivity.
  - apply ex_coherent.
  - rewrite <- E. apply surjective_pairing.
  - exists dto, probe. split; [reflexivity|]. split; [exact H1|exact H4].
Defined.

Lemma removed_cluster_was_empty_witness :
  let out := @RemoveCluster ex_env _ reg_services ctx_alice "c2" ex_world in
  fst out = inr tt /\ map cl_ID (live (clusters (w_db (snd out)))) = ["c1"] /\
  fst (@RemoveCluster ex_env _ reg_services ctx_alice "c1" ex_world)
    = inl (conflictErr "cannot remove the primary cluster") /\
  "c2" <> s_ClusterID reg_services.
Proof.
  intros out. assert (fst out = inr tt) as E by (vm_compute; reflexivity).
  split; [exact E|]. split; [vm_compute; reflexivity|]. split; [vm_compute; reflexivity|].
  refine (proj1 (removed_cluster_was_empty (ENV := ex_env) reg_services ctx_alice "c2" ex_world
    (snd out) eq_refl ex_coherent eq_refl _)).
  rewrite <- E. apply surjective_pairing.
Defined.
