(* ===== verification/NodeProofs.v ===== *)
(** Node rows follow the reported topology: after a reconciliation the table holds,
    for the cluster, exactly the nodes of the status, and the rows of the other
    clusters are as they were. *)
From S2P Require Import Prelude GoStrings Storage MemStore Database Repository AuditLog Service Frames Example Clusters.
#[local] Open Scope string_scope.
Import Clusters.

Definition nkey (n : StorageNode) : str * str := (sn_ClusterID n, sn_GarageNodeID n).
(** A row without its generated id. *)
Definition strip (n : StorageNode) : StorageNode := set_sn_ID "" n.
Definition of_cluster (c : str) (n : StorageNode) : bool := sn_ClusterID n =s c.
Definition elsewhere (c : str) (n : StorageNode) : bool := negb (of_cluster c n).

Lemma node_key_spec n r : Store.node_key (sn_ClusterID n) (sn_GarageNodeID n) r = true <-> nkey r = nkey n.
Proof.
  unfold Store.node_key, nkey. rewrite andb_true_iff, !eqb_true_str.
  split; [intros [-> ->]; done|by intros [= -> ->]].
Qed.

(** ** The upsert, on the list of rows *)

Definition upsert_rows (uid : str) (n : StorageNode) (l : list StorageNode) : list StorageNode :=
  let p := Store.node_key (sn_ClusterID n) (sn_GarageNodeID n) in
  if exists_ p l then upd_rows p (fun old => set_sn_ID (sn_ID old) n) l
  else l ++ [set_sn_ID uid n].

Lemma upsert_inv uid n l x : x ∈ upsert_rows uid n l ->
  (x ∈ l /\ nkey x <> nkey n) \/
  (strip x = strip n /\ (sn_ID x = uid \/ exists old, old ∈ l /\ sn_ID x = sn_ID old)).
Proof.
  unfold upsert_rows. destruct (exists_ _ l) eqn:E.
  - intros (old & -> & Hold)%list_elem_of_fmap.
    destruct (Store.node_key _ _ old) eqn:Ek; [right; eauto|left].
    split; [done|]. rewrite <- node_key_spec. by rewrite Ek.
  - rewrite elem_of_app, list_elem_of_singleton. intros [Hx| ->]; [left|right; eauto].
    split; [done|]. rewrite <- node_key_spec. rewrite exists_false in E. by rewrite E.
Qed.
Lemma upsert_keeps uid n l x : x ∈ l -> nkey x <> nkey n -> x ∈ upsert_rows uid n l.
Proof.
  intros Hx Hk. rewrite <- node_key_spec, not_true_iff_false in Hk. unfold upsert_rows.
  destruct (exists_ _ l); [|set_solver]. apply list_elem_of_fmap. exists x. by rewrite Hk.
Qed.
Lemma upsert_has uid n l : exists x, x ∈ upsert_rows uid n l /\ strip x = strip n.
Proof.
  unfold upsert_rows. destruct (exists_ _ l) eqn:E; [|exists (set_sn_ID uid n); split; [set_solver|done]].
  apply exists_spec in E as (old & Hold & Ek). exists (set_sn_ID (sn_ID old) n). split; [|done].
  apply list_elem_of_fmap. exists old. by rewrite Ek.
Qed.
Lemma upsert_NoDup uid n l : NoDup (map nkey l) -> NoDup (map nkey (upsert_rows uid n l)).
Proof.
  intros Hnd. unfold upsert_rows. destruct (exists_ _ l) eqn:E.
  - unfold upd_rows. rewrite map_map. erewrite map_ext; [exact Hnd|]. intros r.
    destruct (Store.node_key _ _ r) eqn:Ek; [|done]. by apply node_key_spec in Ek as ->.
  - rewrite map_app. apply NoDup_app. split; [done|]. split; [|apply NoDup_singleton].
    intros k (r & -> & Hr)%list_elem_of_fmap Hk. apply list_elem_of_singleton in Hk.
    rewrite exists_false in E. specialize (E r Hr).
    assert (nkey r = nkey n) as Hk' by exact Hk. apply node_key_spec in Hk'. by rewrite E in Hk'.
Qed.
Lemma upsert_elsewhere uid n l c : sn_ClusterID n = c ->
  where_ (elsewhere c) (upsert_rows uid n l) = where_ (elsewhere c) l.
Proof.
  intros <-. unfold upsert_rows. destruct (exists_ _ l).
  - unfold upd_rows. induction l as [|r l IH]; [done|]. cbn.
    destruct (Store.node_key _ _ r) eqn:Ek; [|by rewrite IH].
    apply node_key_spec in Ek. injection Ek as E1 _. unfold elsewhere, of_cluster in *. cbn.
    rewrite E1, eqb_refl_str. exact IH.
  - rewrite where_app. cbn. unfold elsewhere, of_cluster. cbn. rewrite eqb_refl_str.
    apply app_nil_r.
Qed.

Section Nodes.
Context {ENV : Env} {B : Type} (Hrel : reliable)
  (Huuid : forall t t', env_uuid t = env_uuid t' -> t = t').
Variables (c : str) (Hcan : canonical c) (others : list StorageNode).
Implicit Types (w : World B).

(** What holds after the nodes in [seen] were written. *)
Record written (seen : list NodeStatus) w : Prop := {
  wr_keys : NoDup (map nkey (nodes (w_db w)));
  wr_fresh : forall x t, x ∈ nodes (w_db w) -> db_tick (w_db w) <= t -> sn_ID x <> env_uuid t;
  wr_cluster : Store.has_id cl_ID c (Store.all_rows (clusters (w_db w))) = true;
  wr_seen : forall n, n ∈ seen -> exists x, x ∈ nodes (w_db w) /\ strip x = node_row c n;
  wr_else : where_ (elsewhere c) (nodes (w_db w)) = others }.

Lemma node_row_strip n : strip (node_row c n) = node_row c n.
Proof. reflexivity. Qed.
Lemma strip_key x n : strip x = node_row c n -> nkey x = (c, ns_ID n).
Proof. intros H. exact (f_equal nkey H). Qed.

Lemma upsert_step seen n w r w' :
  ns_ID n ∉ map ns_ID seen -> written seen w ->
  ignore (E' := Error) (db (Store.UpsertNode (node_row c n))) w = (r, w') ->
  r = inr tt /\ written (seen ++ [n]) w'.
Proof.
  intros Hn [Hk Hf Hc Hs He] H. unfold ignore, bind, attempt in H.
  destruct (db _ w) as [r0 w0] eqn:E. unfold ret in H. injection H as <- <-. split; [done|].
  apply db_inv in E as (d & E & ->). unfold Store.UpsertNode, mapErr, insert, stmt in E.
  change (set_sn_ClusterID (env_as_uuid (sn_ClusterID (node_row c n))) (node_row c n))
    with (node_row (env_as_uuid c) n) in E.
  rewrite Hcan, Hrel in E. cbn -[node_row upsert_rows Store.has_id Store.all_rows] in E.
  change (sn_ClusterID (node_row c n)) with c in E.
  change (sn_GarageNodeID (node_row c n)) with (ns_ID n) in E. rewrite Hc in E.
  assert (Store.has_id sn_ID (env_uuid (db_tick (w_db w))) (nodes (w_db w)) = false) as Hid.
  { apply exists_false. intros x Hx. apply eqb_false_str. by apply Hf. }
  rewrite Hid in E. cbn -[node_row upsert_rows Store.has_id Store.all_rows] in E.
  assert (nodes d = upsert_rows (env_uuid (db_tick (w_db w))) (node_row c n) (nodes (w_db w)) /\
          db_tick d = S (db_tick (w_db w)) /\ clusters d = clusters (w_db w)) as (Hd & Ht & Hcl).
  { unfold upsert_rows. change (sn_ClusterID (node_row c n)) with c.
    change (sn_GarageNodeID (node_row c n)) with (ns_ID n).
    unfold exists_. destruct (existsb _ (nodes (w_db w))); injection E as _ <-; done. }
  clear E. constructor; cbn; rewrite ?Hd, ?Ht, ?Hcl; [by apply upsert_NoDup| |done| |].
  - intros x t Hx Hle. apply upsert_inv in Hx as [[Hx _]|[_ [->|(old & Hold & ->)]]].
    + apply Hf; [done|lia].
    + intros Heq%Huuid. lia.
    + apply Hf; [done|lia].
  - intros n' [Hn'|Hn']%elem_of_app.
    + destruct (Hs n' Hn') as (x & Hx & Hst). exists x. split; [|done]. apply upsert_keeps; [done|].
      rewrite (strip_key _ _ Hst). intros [= Heq]. apply Hn. rewrite <- Heq.
      apply list_elem_of_fmap. eauto.
    + apply list_elem_of_singleton in Hn' as ->. apply upsert_has.
  - by rewrite upsert_elsewhere.
Qed.

Lemma upsert_all l : forall seen w r w',
  NoDup (map ns_ID (seen ++ l)) -> written seen w ->
  forM_ l (fun n => ignore (db (Store.UpsertNode (node_row c n)))) w = (r, w') ->
  r = (inr tt : Error + unit) /\ written (seen ++ l) w'.
Proof.
  induction l as [|n l IH]; intros seen w r w' Hnd Hw H.
  - cbn in H. unfold ret in H. injection H as <- <-. by rewrite app_nil_r.
  - cbn in H. rewrite bind_run in H. destruct (ignore _ w) as [r1 w1] eqn:E1.
    assert (seen ++ n :: l = (seen ++ [n]) ++ l)%list as Heq by by rewrite <- app_assoc.
    apply upsert_step with (seen := seen) in E1 as [-> Hw1]; [| |done].
    + rewrite Heq in *. by eapply IH.
    + intros Hin. rewrite map_app in Hnd. apply NoDup_app in Hnd as (_ & Hd & _).
      apply (Hd _ Hin). cbn. set_solver.
Qed.

Lemma key_inj (l : list StorageNode) x y : NoDup (map nkey l) -> x ∈ l -> y ∈ l -> nkey x = nkey y -> x = y.
Proof.
  induction l as [|a l IH]; [set_solver|]. cbn. intros [Hna Hnd]%NoDup_cons Hx Hy Heq.
  apply elem_of_cons in Hx as [->|Hx]; apply elem_of_cons in Hy as [->|Hy]; [done| | |by apply IH].
  - exfalso. apply Hna. rewrite Heq. apply list_elem_of_fmap. eauto.
  - exfalso. apply Hna. rewrite <- Heq. apply list_elem_of_fmap. eauto.
Qed.

Lemma NoDup_where {A K} (key : A -> K) p l : NoDup (map key l) -> NoDup (map key (where_ p l)).
Proof.
  induction l as [|a l IH]; cbn; [done|]. intros [Hna Hnd]%NoDup_cons.
  destruct (p a); cbn; [|by apply IH]. apply NoDup_cons. split; [|by apply IH].
  intros (y & Hy & Hin)%list_elem_of_fmap. apply Hna. apply where_elem in Hin as [Hin _].
  apply list_elem_of_fmap. eauto.
Qed.

(** Once every reported node is written, deleting the stale rows leaves the status. *)
Lemma written_rows st w : NoDup (map ns_ID st) -> written st w ->
  map strip (where_ (of_cluster c) (del_rows (Store.stale c (map ns_ID st)) (nodes (w_db w))))
    ≡ₚ map (node_row c) st.
Proof.
  intros Hnd [Hk Hf Hc Hs He].
  assert (forall x, x ∈ where_ (of_cluster c) (del_rows (Store.stale c (map ns_ID st)) (nodes (w_db w)))
            <-> x ∈ nodes (w_db w) /\ sn_ClusterID x = c /\ sn_GarageNodeID x ∈ map ns_ID st) as Hin.
  { intros x. unfold del_rows, Store.stale, of_cluster. rewrite !where_elem, eqb_true_str.
    rewrite negb_true_iff, andb_false_iff, eqb_false_str, negb_false_iff, bool_decide_eq_true. tauto. }
  apply NoDup_Permutation.
  - apply (NoDup_fmap_1 nkey). change (@fmap list list_fmap) with (@map). rewrite map_map.
    apply NoDup_where, NoDup_where. exact Hk.
  - apply (NoDup_fmap_1 sn_GarageNodeID). change (@fmap list list_fmap) with (@map).
    by rewrite map_map.
  - intros y. rewrite !list_elem_of_fmap. split.
    + intros (x & -> & Hx). apply Hin in Hx as (Hx & Hcx & (n & Hn & Hst)%list_elem_of_fmap).
      exists n. split; [|done]. destruct (Hs n Hst) as (x' & Hx' & Hstrip).
      rewrite <- Hstrip. f_equal. apply (key_inj (nodes (w_db w))); [done..|].
      rewrite (strip_key _ _ Hstrip). unfold nkey. by rewrite Hcx, Hn.
    + intros (n & -> & Hst). destruct (Hs n Hst) as (x & Hx & Hstrip). exists x.
      split; [done|]. apply Hin. split; [done|]. pose proof (strip_key _ _ Hstrip) as [= -> ->].
      split; [done|]. apply list_elem_of_fmap. eauto.
Qed.

(** Reconciliation makes the node table equal to the reported topology.  With
    a working database, after the nodes of a non-empty status are written the rows
    of the cluster are the reported nodes, each once, and the rows of every other
    cluster are unchanged. *)
Theorem nodes_follow_status st w r w'
    (Hne : cs_Nodes st <> []) (Hnd : NoDup (map ns_ID (cs_Nodes st)))
    (Hw : written [] w)
    (Hrun : upsertNodes c st w = (r, w')) :
  r = inr tt /\
  map strip (where_ (of_cluster c) (nodes (w_db w'))) ≡ₚ map (node_row c) (cs_Nodes st) /\
  where_ (elsewhere c) (nodes (w_db w')) = others.
Proof.
  unfold upsertNodes in Hrun. rewrite bind_run in Hrun. destruct (forM_ _ _ w) as [r1 w1] eqn:E1.
  apply (upsert_all _ []) in E1 as [-> Hw1]; [|done|done]. cbn in Hw1.
  unfold ignore, bind, attempt in Hrun. destruct (db _ w1) as [r0 w0] eqn:E. unfold ret in Hrun.
  injection Hrun as <- <-. split; [done|]. apply db_inv in E as (d & E & ->).
  assert (nodes d = del_rows (Store.stale c (map ns_ID (cs_Nodes st))) (nodes (w_db w1))) as Hd.
  { unfold Store.DeleteStaleNodes in E. destruct (cs_Nodes st) as [|n0 st0] eqn:Es; [done|].
    cbn [map] in E. unfold mapErr, exec, stmt in E. rewrite Hcan, Hrel in E. cbn in E.
    by injection E as _ <-. }
  cbn. rewrite Hd. split; [by apply written_rows|]. rewrite <- (wr_else _ _ Hw1).
  unfold del_rows. rewrite where_where. apply where_ext. intros x _. unfold elsewhere, Store.stale.
  unfold of_cluster. by destruct (sn_ClusterID x =s c).
Qed.
End Nodes.

(** ** Worked example: a node left, another joined *)

Definition ex_node (id c g : str) : StorageNode :=
  mkStorageNode id c g "h" "a" "dc1" None "storage" true false None None.
Definition node_world : World MemB :=
  set_w_db (set_nodes [ex_node "x1" "c1" "gone"; ex_node "x2" "c2" "n1"; ex_node "x3" "c1" "n1"] ex_db)
    ex_world.
Definition ex_status : ClusterStatus :=
  mkClusterStatus 3 [mkNodeStatus "n1" "h1" "a1" "dc1" "storage" true (Some 10%Z) 4 6 false;
                     mkNodeStatus "n2" "h2" "a2" "dc2" "gateway" true None 0 0 false].

Lemma nodes_follow_status_witness :
  let out := @upsertNodes ex_env MemB "c1" ex_status node_world in
  map strip (where_ (of_cluster "c1") (nodes (w_db (snd out))))
    ≡ₚ map (node_row "c1") (cs_Nodes ex_status) /\
  where_ (elsewhere "c1") (nodes (w_db (snd out))) = [ex_node "x2" "c2" "n1"].
Proof.
  intros out.
  refine (proj2 (nodes_follow_status (ENV := ex_env) (fun n => eq_refl) ex_uuid_inj "c1" eq_refl
    [ex_node "x2" "c2" "n1"] ex_status node_world (fst out) (snd out) _ _ _ (surjective_pairing _))).
  - discriminate.
  - apply (bool_decide_unpack (NoDup (map ns_ID (cs_Nodes ex_status)))). vm_compute. exact I.
  - constructor.
    + apply (bool_decide_unpack (NoDup (map nkey (nodes (w_db node_world))))). vm_compute. exact I.
    + intros x t Hx _. cbn in Hx. rewrite !elem_of_cons, elem_of_nil in Hx.
      destruct Hx as [->|[->|[->|[]]]]; discriminate.
    + reflexivity.
    + intros n Hn. by apply not_elem_of_nil in Hn.
    + reflexivity.
Defined.
