(* ===== verification/ReplicationProofs.v ===== *)
(** The replication worker: when a job completes the destination is the
    synchronisation of what it held with the source, a job that stopped can be
    resumed from its saved cursor, and the worker ends. *)
From S2P Require Import Prelude GoStrings Storage MemStore Database Repository JobStore AuditLog Service Frames Example Migrations Replications.
#[local] Open Scope string_scope.
Import Replications.

(** * What the worker relies on

    While the job runs the source bucket holds [m]; [rest token] are the keys a
    listing continued from [token] has still to deliver, [left_ token] the pages. *)
Record SourceLaws {B} (k : Worker (B := B)) (objs : B -> str -> gmap str str)
    (srcv : B -> gmap str str) (m : gmap str str) (rest : str -> gset str) (left_ : str -> nat)
    : Prop := {
  (** listing changes nothing; entries carry the size of the object; a page and the
      pages after it cover what is left *)
  sl_list : forall b b' tok r, srcv b = m ->
    sp_ListObjects (wk_Src k) (wk_SrcAlias k) (mkListObjectsInput "" "" tok 1000) b = (r, b') ->
    srcv b' = m /\ objs b' = objs b /\
    forall page, r = inr page ->
      Forall (fun o => obj_IsPrefix o = false /\ exists body, m !! obj_Key o = Some body /\
                       obj_Size o = Z.of_nat (String.length body)) (lor_Objects page) /\
      let next := lor_NextContinuationToken page in
      if negb (lor_IsTruncated page) || (next =s "")
      then rest tok ⊆ list_to_set (obj_Key <$> lor_Objects page)
      else rest tok ⊆ list_to_set (obj_Key <$> lor_Objects page) ∪ rest next /\
           left_ next < left_ tok;
  sl_get : forall b b' key r, srcv b = m ->
    sp_GetObject (wk_Src k) None (wk_SrcAlias k) key b = (r, b') ->
    srcv b' = m /\ objs b' = objs b /\ forall body o, r = inr (body, o) -> m !! key = Some body;
  (** the destination's calls do not touch the source *)
  sl_put : forall b b' key body n ct r,
    sp_PutObject (wk_Dst k) None (wk_DstAlias k) key body n ct b = (r, b') -> srcv b' = srcv b;
  sl_head : forall b b' key r,
    sp_HeadObject (wk_Dst k) (wk_DstAlias k) key b = (r, b') -> srcv b' = srcv b;
  sl_start : rest "" = dom m
}.

(** * What a synchronisation yields

    [d0] is the destination at the start.  Every key is as it was or a copy of the
    source's object; a key that has been dealt with has the source's size. *)
Section Sync.
Context (m d0 : gmap str str).
Implicit Types (d : gmap str str).

Definition untouched_or_copied d : Prop :=
  forall key, d !! key = d0 !! key \/ exists body, m !! key = Some body /\ d !! key = Some body.
Definition same_size d (P : str -> Prop) : Prop :=
  forall key body, m !! key = Some body -> P key ->
    exists body', d !! key = Some body' /\ String.length body' = String.length body.

(** The whole specification, for a job that ran to its end. *)
Definition synced d : Prop :=
  (forall key body, m !! key = Some body ->
     exists body', d !! key = Some body' /\ String.length body' = String.length body /\
       (body' = body \/ d0 !! key = Some body')) /\
  (forall key, m !! key = None -> d !! key = d0 !! key).

Lemma synced_intro d : untouched_or_copied d -> same_size d (fun _ => True) -> synced d.
Proof.
  intros Hu Hs. split.
  - intros key body Hm. destruct (Hs key body Hm I) as (body' & Hd & Hl). exists body'.
    split; [done|]. split; [done|]. destruct (Hu key) as [He|(b & Hb & Hd')]; [right|left]; congruence.
  - intros key Hm. destruct (Hu key) as [He|(b & Hb & _)]; congruence.
Qed.
Lemma copied_insert d key body : m !! key = Some body ->
  untouched_or_copied d -> untouched_or_copied (<[key := body]> d).
Proof.
  intros Hm Hu x. destruct (decide (x = key)) as [->|Hne].
  - right. exists body. by rewrite lookup_insert_eq.
  - rewrite lookup_insert_ne by done. apply Hu.
Qed.
Lemma same_size_insert d key body (P : str -> Prop) : m !! key = Some body ->
  same_size d P -> same_size (<[key := body]> d) (fun x => x = key \/ P x).
Proof.
  intros Hm Hs x b Hx Hor. destruct (decide (x = key)) as [->|Hne].
  - exists body. rewrite lookup_insert_eq. split; [done|congruence].
  - rewrite lookup_insert_ne by done. destruct Hor as [?|HP]; [done|]. by apply Hs.
Qed.
Lemma same_size_weaken d (P Q : str -> Prop) : (forall x, Q x -> P x) -> same_size d P -> same_size d Q.
Proof. intros H Hs x b Hx HQ. apply (Hs x b Hx), H, HQ. Qed.
End Sync.

Section Worker.
Context {ENV : Env} {B : Type} (s : Services B) (quote : str -> str)
  (k : Worker (B := B)) (objs : B -> str -> gmap str str) `{!ObjectStore (wk_Dst k) objs}
  (srcv : B -> gmap str str) (m d0 : gmap str str) (rest : str -> gset str) (left_ : str -> nat)
  (L : SourceLaws k objs srcv m rest left_).

Definition dst (w : World B) : gmap str str := objs (w_be w) (wk_DstAlias k).
(** The source is as it was, and the keys in [P] have been dealt with. *)
Definition progress (w : World B) (P : str -> Prop) : Prop :=
  srcv (w_be w) = m /\ untouched_or_copied m d0 (dst w) /\ same_size m (dst w) P.
(** What a cursor promises: the keys before it have been dealt with. *)
Definition passed (tok : str) : str -> Prop := fun key => key ∉ rest tok.

Lemma progress_weaken w (P Q : str -> Prop) : (forall x, Q x -> P x) -> progress w P -> progress w Q.
Proof. intros H (H1 & H2 & H3). split; [done|]. split; [done|]. by eapply same_size_weaken. Qed.
Lemma progress_same w w' P : w_be w' = w_be w -> progress w P -> progress w' P.
Proof. unfold progress, dst. by intros ->. Qed.
Lemma progress_objs w (b' : B) P : srcv b' = m -> objs b' = objs (w_be w) ->
  progress w P -> progress (set_w_be b' w) P.
Proof. unfold progress, dst. cbn. intros H1 ->. tauto. Qed.

Lemma repl_copyOne_ok o body (w w' : World B) P :
  m !! obj_Key o = Some body ->
  copyOneObjectProv (wk_Src k) (wk_Dst k) (wk_SrcAlias k) (wk_DstAlias k) o w = (inr tt, w') ->
  progress w P -> progress w' (fun x => x = obj_Key o \/ P x) /\ w_db w' = w_db w.
Proof.
  unfold copyOneObjectProv. intros Hm H (Hs & Hu & Hz).
  apply bind_inr in H as ([body1 o'] & w1 & H1 & H). apply be_inv in H1 as (b1 & H1 & ->).
  destruct (sl_get _ _ _ _ _ _ L _ _ _ _ Hs H1) as (Hs1 & Ho1 & Hbody).
  specialize (Hbody _ _ eq_refl). assert (body1 = body) as -> by congruence.
  apply bind_inr in H as ([] & w2 & H2 & H). apply be_inv in H2 as (b2 & H2 & ->). cbn in H2.
  pose proof (sl_put _ _ _ _ _ _ L _ _ _ _ _ _ _ H2) as Hs2. apply os_put in H2 as [Ho2 _].
  rewrite bind_run, attempt_run in H. destruct (be (sp_HeadObject _ _ _) _) as [rh w3] eqn:E3.
  apply be_inv in E3 as (b3 & E3 & ->). cbn in E3.
  pose proof (sl_head _ _ _ _ _ _ L _ _ _ _ E3) as Hs3. apply os_head_reads in E3 as Ho3.
  assert (w' = set_w_be b3 w) as ->.
  { destruct rh as [e|ho]; [|destruct (_ && _); [done|]]; unfold ret in H; by injection H as <-. }
  unfold progress, dst. cbn. rewrite Ho3, Ho2, Ho1. split; [|done]. split; [congruence|].
  split; [by apply copied_insert|by apply same_size_insert].
Qed.

Lemma present_ok o (w w' : World B) r P :
  present k o w = (r, w') -> progress w P ->
  exists b, r = inr b /\ progress w' P /\ w_db w' = w_db w /\
    (b = true -> exists body', dst w' !! obj_Key o = Some body' /\
                 obj_Size o = Z.of_nat (String.length body')).
Proof.
  unfold present. intros H Hp. rewrite bind_run, attempt_run in H.
  destruct (be _ w) as [rh w1] eqn:E. apply be_inv in E as (b1 & E & ->).
  unfold ret in H. injection H as <- <-. eexists. split; [done|].
  pose proof (sl_head _ _ _ _ _ _ L _ _ _ _ E) as Hs. pose proof (os_head_reads _ _ _ _ _ E) as Ho.
  split; [apply progress_objs; [|done|done]; destruct Hp; congruence|]. split; [done|].
  destruct rh as [e|h]; [done|]. cbn. intros Hb. apply Z.eqb_eq in Hb.
  apply os_head in E as (-> & body' & Hd & Hl). exists body'. cbn. split; [done|congruence].
Qed.

Lemma copyObject_ok o body p (w : World B) p' w' P :
  obj_IsPrefix o = false -> m !! obj_Key o = Some body ->
  obj_Size o = Z.of_nat (String.length body) ->
  copyObject s k p o w = (inr p', w') -> progress w P ->
  progress w' (fun x => x = obj_Key o \/ P x) /\ w_db w' = w_db w.
Proof.
  unfold copyObject. intros Hpre Hm Hsz H Hp. rewrite Hpre in H.
  apply bind_inr in H as (b & w1 & H1 & H).
  destruct (present_ok _ _ _ _ _ H1 Hp) as (b1 & [= <-] & Hp1 & Hd1 & Hb).
  destruct b.
  - unfold ret in H. injection H as _ <-. split; [|done].
    destruct (Hb eq_refl) as (body' & Hd & Hl). destruct Hp1 as (? & ? & Hz). split; [done|].
    split; [done|]. intros x bx Hx [->|HP]; [|by apply Hz]. exists body'. split; [done|].
    assert (bx = body) as -> by congruence. lia.
  - apply bind_inr in H as ([] & w2 & H2 & H). apply mapErr_inr in H2.
    apply (repl_copyOne_ok _ body _ _ P) in H2 as [Hp2 Hd2]; [|done|done].
    apply bind_inr in H as ([] & w3 & H3 & H). unfold fx, modify in H3. injection H3 as <-.
    unfold ret in H. injection H as _ <-. split; [|cbn; congruence].
    by apply (progress_same w2).
Qed.

Lemma repl_copyPage_ok l :
  Forall (fun o => obj_IsPrefix o = false /\ exists body, m !! obj_Key o = Some body /\
                   obj_Size o = Z.of_nat (String.length body)) l ->
  forall p (w : World B) p' w' P,
  copyPage s k p l w = (inr p', w') -> progress w P ->
  progress w' (fun x => x ∈ obj_Key <$> l \/ P x) /\ w_db w' = w_db w.
Proof.
  induction l as [|o l IH]; intros Hl p w p' w' P H Hp.
  - cbn in H. unfold ret in H. injection H as _ <-. split; [|done].
    eapply progress_weaken; [|done]. intros x [Hx|Hx]; [set_solver|done].
  - apply Forall_cons in Hl as [(Ho & body & Hm & Hsz) Hl]. cbn [copyPage foldM] in H.
    apply bind_inr in H as (p1 & w1 & H1 & H).
    apply (copyObject_ok _ body _ _ _ _ P) in H1 as [Hp1 Hd1]; [|done..].
    apply (IH Hl _ _ _ _ (fun x => x = obj_Key o \/ P x)) in H as [Hp2 Hd2]; [|done].
    split; [|congruence]. eapply progress_weaken; [|done]. cbn.
    intros x [[->|Hx]%elem_of_cons|Hx]; auto.
Qed.

(** The saved cursor of the job, if it has a row, keeps its promise. *)
Definition saved (w : World B) : Prop :=
  forall j, j ∈ replications (w_db w) -> rj_ID j = wk_ID k -> progress w (passed (rj_Cursor j)).

(** What holds between two steps of the worker.  After a failure nothing is
    claimed: a failed write may have done anything. *)
Definition worker_inv (st : WState) (w : World B) : Prop :=
  match st with
  | Done Migrations.Failed => True
  | Done Migrations.Completed => saved w /\ srcv (w_be w) = m /\ synced m d0 (dst w)
  | Done _ => saved w
  | Check p | Body p => saved w /\ progress w (passed (pr_Cursor p))
  end.

(** ** The statements of the worker *)

(** Rows after a statement: an old row with its cursor, or the new cursor. *)
Definition cursors_from (cursor : option str) (w w' : World B) : Prop :=
  forall j', j' ∈ replications (w_db w') -> rj_ID j' = wk_ID k ->
    Some (rj_Cursor j') = cursor \/
    exists j, j ∈ replications (w_db w) /\ rj_ID j = wk_ID k /\ rj_Cursor j = rj_Cursor j'.

Lemma update_repl_inv f cursor (w : World B) r w' :
  (forall n j, rj_ID (f n j) = rj_ID j) ->
  (forall n j, Some (rj_Cursor (f n j)) = cursor \/ rj_Cursor (f n j) = rj_Cursor j) ->
  ignore (E' := Error) (db (exec (fun n => JobStore.update_repl (wk_ID k) (f n)))) w = (r, w') ->
  r = inr tt /\ w_be w' = w_be w /\ cursors_from cursor w w'.
Proof.
  intros Hid Hcur. unfold ignore, bind, attempt. destruct (db _ w) as [r0 w0] eqn:E. unfold ret.
  intros [= <- <-]. apply db_inv in E as (d & E & ->). split; [done|]. split; [done|].
  intros j' Hj Hk. cbn in Hj. destruct r0 as [e|u].
  - apply stmt_inl in E as ->. right. eauto.
  - apply exec_inr in E as ->. apply list_elem_of_fmap in Hj as (j & -> & Hj). cbn in Hj.
    destruct (rj_ID j =s wk_ID k) eqn:Ej; bool_prop; [|right; eauto].
    destruct (Hcur (db_tick (w_db w)) j) as [Hc|Hc]; [by left|right; exists j; auto].
Qed.

Lemma repl_stop_inv status msg o (w : World B) r w' :
  stop k status msg o w = (r, w') ->
  r = inr (Done o) /\ w_be w' = w_be w /\ cursors_from None w w'.
Proof.
  unfold stop. intros H. rewrite bind_run in H. destruct (ignore _ w) as [r0 w0] eqn:E.
  apply (update_repl_inv (fun n j => set_rj_Status status (set_rj_Error msg
           (set_rj_UpdatedAt (env_now n) j))) None) in E as (-> & Hb & Hc); [|done|by right].
  unfold ret in H. by injection H as <- <-.
Qed.

Lemma saved_from cursor w w' :
  w_be w' = w_be w -> cursors_from cursor w w' -> saved w ->
  (forall c, cursor = Some c -> progress w (passed c)) -> saved w'.
Proof.
  intros Hb Hc Hs Hn j' Hj Hk. apply (progress_same w); [done|].
  destruct (Hc j' Hj Hk) as [He|(j & H1 & H2 & <-)]; [by apply Hn|by apply Hs].
Qed.

(** A page and what came before it give what the next cursor promises. *)
Lemma repl_page_passed (w : World B) tok page :
  progress w (fun x => x ∈ obj_Key <$> lor_Objects page \/ passed tok x) ->
  (let next := lor_NextContinuationToken page in
   if negb (lor_IsTruncated page) || (next =s "")
   then rest tok ⊆ list_to_set (obj_Key <$> lor_Objects page)
   else rest tok ⊆ list_to_set (obj_Key <$> lor_Objects page) ∪ rest next /\
        left_ next < left_ tok) ->
  progress w (if negb (lor_IsTruncated page) || (lor_NextContinuationToken page =s "")
              then fun _ => True else passed (lor_NextContinuationToken page)).
Proof.
  intros Hp Hc. eapply progress_weaken; [|exact Hp]. intros x Hx. cbv zeta in Hc.
  destruct (decide (x ∈ rest tok)) as [Hr|Hr]; [|by right]. left.
  destruct (negb _ || _); [|destruct Hc as [Hc _]]; apply Hc in Hr;
    [|apply elem_of_union in Hr as [Hr|Hr]; [|done]]; by apply elem_of_list_to_set in Hr.
Qed.

Lemma repl_workerBody_inv p (w : World B) r w' :
  worker_inv (Body p) w -> workerBody s quote k p w = (r, w') ->
  exists st, r = inr st /\ worker_inv st w' /\
    match st with Check p' => left_ (pr_Cursor p') < left_ (pr_Cursor p) | Body _ => False | _ => True end.
Proof.
  intros (Hsv & Hp) H. unfold workerBody in H. rewrite bind_run, attempt_run in H.
  destruct (be _ w) as [rp w1] eqn:E1. apply be_inv in E1 as (b1 & E1 & ->).
  destruct rp as [e|page]; [apply repl_stop_inv in H as (-> & _); by eexists|].
  destruct (sl_list _ _ _ _ _ _ L _ _ _ _ (proj1 Hp) E1) as (Hs1 & Ho1 & Hpage).
  destruct (Hpage page eq_refl) as [Hl Hcov].
  rewrite bind_run, attempt_run in H.
  destruct (copyPage s k p (lor_Objects page) (set_w_be b1 w)) as [rc w2] eqn:E2.
  destruct rc as [[key e]|p']; [apply repl_stop_inv in H as (-> & _); by eexists|].
  assert (forall P, progress w P -> progress w2 (fun x => x ∈ obj_Key <$> lor_Objects page \/ P x)
            /\ w_db w2 = w_db w) as Hpg.
  { intros P HP. eapply repl_copyPage_ok in E2 as [? ?]; [split; [done|by subst]|done|].
    by apply progress_objs. }
  destruct (Hpg _ Hp) as [Hp2 Hd2]. apply (repl_page_passed _ _ _ Hp2) in Hcov as Hnext.
  assert (saved w2) as Hsv2.
  { intros j Hj Hk. rewrite Hd2 in Hj. eapply progress_weaken; [|by apply Hpg, Hsv]. by right. }
  cbv zeta in H. rewrite bind_run in H. destruct (ignore _ w2) as [ru w3] eqn:E3.
  apply (update_repl_inv (fun n j => set_rj_Cursor (lor_NextContinuationToken page)
      (set_rj_CopiedObjects (pr_Copied p') (set_rj_SkippedObjects (pr_Skipped p')
        (set_rj_CopiedBytes (pr_Bytes p') (set_rj_Status "running"
          (set_rj_UpdatedAt (env_now n) j))))))
      (Some (lor_NextContinuationToken page))) in E3 as (-> & Hb3 & Hc3); [|done|by left].
  assert (saved w3) as Hsv3.
  { eapply saved_from; [done..|]. intros c [= <-]. eapply progress_weaken; [|exact Hnext].
    by destruct (negb _ || _). }
  apply (progress_same _ w3) in Hnext; [|done]. cbv zeta in Hcov. destruct (negb _ || _).
  - apply repl_stop_inv in H as (-> & Hb4 & Hc4). eexists. split; [done|]. split; [|done]. cbn.
    split; [by eapply saved_from|]. apply (progress_same _ w') in Hnext as (? & ? & ?); [|done].
    split; [done|]. by apply synced_intro.
  - unfold ret in H. injection H as <- <-. eexists. split; [done|]. split; [done|].
    cbn. apply Hcov.
Qed.

Lemma repl_workerCheck_inv p (w : World B) r w' :
  worker_inv (Check p) w -> workerCheck k p w = (r, w') ->
  exists st, r = inr st /\ worker_inv st w' /\ (st = Body p \/ st = Done Migrations.Canceled).
Proof.
  intros (Hsv & Hp) H. unfold workerCheck, JobStore.GetReplicationJobByID in H.
  rewrite bind_run, attempt_run in H. destruct (db _ w) as [rj w1] eqn:E1.
  assert (replications (w_db w1) = replications (w_db w) /\ w_be w1 = w_be w) as [Hm1 Hb1].
  { apply db_inv in E1 as (d & E1 & ->). split; [|done]. cbn. destruct rj as [e|j].
    - apply mapErr_inl in E1 as (e0 & E1 & _). apply stmt_inl in E1 as ->. done.
    - apply mapErr_inr, query_row_inr in E1 as [-> _]. done. }
  assert (saved w1) as Hsv1.
  { intros j Hj Hk. apply (progress_same w); [done|]. rewrite Hm1 in Hj. by apply Hsv. }
  unfold ret in H. injection H as <- <-. eexists. split; [done|].
  destruct (is_canceled rj); cbn; [auto|]. split; [|by left]. split; [done|].
  by apply (progress_same w).
Qed.

(** Steps still needed, given the pages left. *)
Definition steps_left (st : WState) : nat :=
  match st with
  | Check p => 2 * left_ (pr_Cursor p) + 2
  | Body p => 2 * left_ (pr_Cursor p) + 1
  | Done _ => 0
  end.

(** C18: a replication synchronises the destination with the source, can be
    resumed, and ends.  With [d0] the destination at the start: the cursor the
    worker saves keeps its promise whenever the worker stops short of a failure;
    on completion every object of the source is at the destination with its
    size, as a copy or as the object of that size the destination already held,
    and no other object of the destination has changed; the worker ends within
    two steps per page of the source's listing. *)
Theorem replication_synchronises fuel st (w : World B) r w'
    (Hinv : worker_inv st w)
    (Hrun : runWorker s quote fuel k st w = (r, w')) :
  exists st', r = inr st' /\ worker_inv st' w' /\
    (steps_left st <= fuel -> exists o, st' = Done o).
Proof.
  revert st w Hinv Hrun. induction fuel as [|fuel IH]; intros st w Hinv Hrun.
  - exists st. destruct st as [p|p|o]; cbn in Hrun; unfold ret in Hrun; injection Hrun as <- <-;
      (split; [done|]); (split; [done|]); cbn; [lia|lia|eauto].
  - destruct st as [p|p|o]; cbn [runWorker workerStep] in Hrun.
    + rewrite bind_run in Hrun. destruct (workerCheck k p w) as [r1 w1] eqn:E1.
      apply repl_workerCheck_inv in E1 as (st1 & -> & Hinv1 & Hst1); [|done].
      apply IH in Hrun as (st' & -> & Hinv' & Hend); [|done].
      exists st'. split; [done|]. split; [done|]. intros Hf. apply Hend.
      destruct Hst1 as [->| ->]; cbn in *; lia.
    + rewrite bind_run in Hrun. destruct (workerBody s quote k p w) as [r1 w1] eqn:E1.
      apply repl_workerBody_inv in E1 as (st1 & -> & Hinv1 & Hst1); [|done].
      apply IH in Hrun as (st' & -> & Hinv' & Hend); [|done].
      exists st'. split; [done|]. split; [done|]. intros Hf. apply Hend.
      destruct st1; cbn in *; lia.
    + unfold ret in Hrun. injection Hrun as <- <-. eexists. split; [done|]. split; [done|]. eauto.
Qed.
End Worker.

(** * A source in memory *)

Definition ex_source : gmap str str := {[ "k1" := "first"; "k2" := "second" ]}.
Definition ex_dest : gmap str str := {[ "k1" := "FIRST"; "old" := "kept" ]}.
Definition ex_source_list : list (str * str) := map_to_list ex_source.

(** A job that copies bucket src of the example backend into bucket b1, which holds
    an object of the size of the source's k1. *)
Definition ex_job : ReplicationJob :=
  mkReplicationJob "r1" "o1" "bsrc" "b1" "pending" 0 0 0 "" "" 0 0.
Definition repl_world : World MemB :=
  set_w_be (<["src" := ex_source]> (<["one" := ex_dest]> ex_backend))
    (set_w_db (set_replications [ex_job] (set_buckets
       [mkLive (bucket_of "b1" "o1" "p1" "one") None; mkLive (bucket_of "bsrc" "o1" "p1" "src") None]
       ex_db)) ex_world).
Definition ex_worker : Worker (B := MemB) :=
  mkWorker "r1" (s_Provider ex_services) (s_Provider ex_services) "src" "one" "b1"
    (mkCtx None (Some (mkTenantContext "o1" "p1" "c1")) None).

Definition offset (tok : str) : nat := Z.to_nat (default 0%Z (Atoi tok)).
Definition ex_rest (tok : str) : gset str := list_to_set (map fst (drop (offset tok) ex_source_list)).

Lemma repl_src_lookup (b : MemB) : objects_of b "src" = ex_source -> b !! "src" = Some ex_source.
Proof.
  unfold objects_of. destruct (b !! "src") as [x|] eqn:E; cbn; intros H; [by subst|].
  exfalso. apply (f_equal (fun mm : gmap str str => mm !! "k1")) in H. vm_compute in H. discriminate.
Qed.

Lemma repl_ex_source_laws :
  SourceLaws ex_worker objects_of (fun b => objects_of b "src") ex_source ex_rest (fun _ => 0).
Proof.
  constructor.
  - intros b b' tok r Hs H. apply repl_src_lookup in Hs as Hsrc. cbn in H.
    unfold mem_list, with_bucket in H. rewrite Hsrc in H. cbn in H. injection H as <- <-.
    split; [done|]. split; [done|]. intros page [= <-].
    assert (where_ (fun kv : str * str => HasPrefix (fst kv) "") (map_to_list ex_source)
              = ex_source_list) as -> by (vm_compute; reflexivity).
    fold (offset tok). unfold ex_rest.
    assert (exists x y, ex_source_list = [x; y] /\ ex_source !! fst x = Some (snd x) /\
              ex_source !! fst y = Some (snd y)) as (x & y & -> & Hx & Hy)
      by (eexists _, _; vm_compute; done).
    destruct (offset tok) as [|[|n]]; cbn -[String.length union];
      rewrite ?drop_nil; (split; [|set_solver]); repeat constructor; eauto.
  - intros b b' key r Hs H. apply repl_src_lookup in Hs as Hsrc. cbn in H.
    unfold mem_get, with_bucket in H. rewrite Hsrc in H.
    destruct (ex_source !! key) as [body|] eqn:E; cbn in H; injection H as <- <-;
      (split; [done|]); (split; [done|]); intros body' o [= ->]; done.
  - intros b b' key body n ct r H. cbn in H. unfold mem_put, with_bucket in H.
    destruct (b !! "one"); injection H as _ <-; [|done]. by apply objects_of_insert_ne.
  - intros b b' key r H. cbn in H. unfold mem_head, with_bucket in H.
    destruct (b !! "one"); by injection H as _ <-.
  - vm_compute. reflexivity.
Qed.

Lemma replication_synchronises_witness :
  let out := @runWorker ex_env _ ex_services (fun x => x) 4 ex_worker
               (Check (mkProgress "" 0 0 0)) repl_world in
  fst out = inr (Done Migrations.Completed) /\
  synced ex_source ex_dest (objects_of (w_be (snd out)) "one").
Proof.
  intros out. assert (fst out = inr (Done Migrations.Completed)) as H by (vm_compute; reflexivity).
  split; [exact H|].
  destruct (replication_synchronises (ENV := ex_env) ex_services (fun x => x) ex_worker objects_of
    (fun b => objects_of b "src") ex_source ex_dest ex_rest (fun _ => 0) repl_ex_source_laws 4
    (Check (mkProgress "" 0 0 0)) repl_world (fst out) (snd out)) as (st' & H1 & H2 & _).
  - assert (progress ex_worker objects_of (fun b => objects_of b "src") ex_source ex_dest
              repl_world (passed ex_rest "")) as Hp.
    { split; [vm_compute; reflexivity|]. split; [intros key; by left|].
      intros key body Hm Hk. exfalso. apply Hk.
      rewrite (sl_start _ _ _ _ _ _ repl_ex_source_laws). by apply elem_of_dom_2 in Hm. }
    split; [|exact Hp]. intros j Hj _. cbn in Hj. apply list_elem_of_singleton in Hj as ->. exact Hp.
  - apply surjective_pairing.
  - rewrite H in H1. injection H1 as <-. apply H2.
Defined.

(** An object that has changed at the source without changing its size is not
    copied: the destination keeps the old content of k1 and the job reports
    completion, with one object copied and one skipped. *)
Theorem same_size_edit_not_synced :
  let out := @runReplication ex_env _ ex_services (fun x => x) 4 "r1" repl_world in
  fst out = inr (Done Migrations.Completed) /\
  ex_source !! "k1" = Some "first" /\
  objects_of (w_be (snd out)) "one" !! "k1" = Some "FIRST" /\
  map (fun j => (rj_Status j, rj_CopiedObjects j, rj_SkippedObjects j))
      (replications (w_db (snd out))) = [("completed", 1%Z, 1%Z)].
Proof. vm_compute. repeat split. Qed.
