(* ===== verification/LayoutProofs.v ===== *)
(** Editing the layout of a Garage cluster and bootstrapping a fresh node, against
    the documented behaviour of Garage's layout endpoints. *)
From S2P Require Import Prelude GoStrings Storage Garage GarageManager.
#[local] Open Scope string_scope.
Import GarageManager.

(** * The layout endpoints

    Garage keeps the applied roles with a version and the staged changes.  Staging
    adds changes; applying takes only the successor of the current version, turns
    the staged changes into roles and empties them. *)
Record Layout := mkLayout {
  ly_Version : Z; ly_Roles : list LayoutRole; ly_Staged : list LayoutRoleChange }.

Definition role_of (c : LayoutRoleChange) : LayoutRole :=
  mkLayoutRole (lrc_ID c) (lrc_Zone c) (lrc_Capacity c) (lrc_Tags c).
Definition apply_change (roles : list LayoutRole) (c : LayoutRoleChange) : list LayoutRole :=
  let others := where_ (fun r => negb (lro_ID r =s lrc_ID c)) roles in
  if lrc_Remove c then others else others ++ [role_of c].
Definition apply_changes : list LayoutRole -> list LayoutRoleChange -> list LayoutRole :=
  foldl apply_change.

Definition stage (ch : list LayoutRoleChange) (l : Layout) : Layout :=
  mkLayout (ly_Version l) (ly_Roles l) (ly_Staged l ++ ch).
Definition applied (l : Layout) : Layout :=
  mkLayout (ly_Version l + 1) (apply_changes (ly_Roles l) (ly_Staged l)) [].

Definition has_storage (roles : list LayoutRole) (id : str) : bool :=
  existsb (fun r => (lro_ID r =s id) && negb (bool_decide (lro_Capacity r = None))) roles.
Definition is_storage (n : NodeResp) : bool :=
  match nd_Role n with
  | Some r => negb (bool_decide (nr_Capacity r = None))
  | None => false
  end.

Definition ok2xx (st : Z) : bool := negb ((st <? 200) || (300 <=? st))%Z.

(** A request that neither stages nor applies nor reverts. *)
Definition layout_neutral (q : AdminReq) : bool :=
  match q with
  | ReqUpdateClusterLayout _ | ReqApplyClusterLayout _ | ReqRevertClusterLayout => false
  | _ => true
  end.

Record LayoutServer {B} `{!GarageServer B} (c : AdminConn) (lay : B -> Layout) (ids : list str)
    : Prop := {
  ls_neutral : forall q b r b', layout_neutral q = true -> ga_http c q b = (r, b') -> lay b' = lay b;
  ls_get : forall b st l sn b', ga_http c ReqGetClusterLayout b = (inr (st, PLayout l, sn), b') ->
    clr_Version l = ly_Version (lay b) /\ clr_Roles l = ly_Roles (lay b);
  ls_stage : forall ch b st p sn b', ga_http c (ReqUpdateClusterLayout ch) b = (inr (st, p, sn), b') ->
    ok2xx st = true -> lay b' = stage ch (lay b);
  ls_apply : forall v b st p sn b', ga_http c (ReqApplyClusterLayout v) b = (inr (st, p, sn), b') ->
    ok2xx st = true -> v = (ly_Version (lay b) + 1)%Z /\ lay b' = applied (lay b);
  (** the status lists the cluster's nodes with the roles of the applied layout *)
  ls_status : forall b st s sn b', ga_http c ReqGetClusterStatus b = (inr (st, PStatus s, sn), b') ->
    nd_ID <$> csr_Nodes s = ids /\
    forall n, n ∈ csr_Nodes s -> is_storage n = has_storage (ly_Roles (lay b)) (nd_ID n)
}.

(** ** The roles after a change *)

Lemma apply_change_storage roles c cap :
  lrc_Remove c = false -> lrc_Capacity c = Some cap ->
  has_storage (apply_change roles c) (lrc_ID c) = true.
Proof.
  intros Hr Hc. unfold has_storage, apply_change. rewrite Hr, existsb_app. cbn.
  by rewrite Hc, eqb_refl_str, orb_true_r.
Qed.
Lemma apply_change_other roles c r : lro_ID r <> lrc_ID c ->
  r ∈ apply_change roles c <-> r ∈ roles.
Proof.
  intros Hne. apply eqb_false_str in Hne as Hb. unfold apply_change.
  destruct (lrc_Remove c); rewrite ?elem_of_app, where_elem, Hb; [tauto|].
  rewrite list_elem_of_singleton. split; [|tauto]. intros [?| ->]; [tauto|done].
Qed.

Section Manager.
Context {B : Type} `{!GarageServer B} (c : AdminConn) (lay : B -> Layout) (ids : list str)
  (L : LayoutServer c lay ids).
Implicit Types (b : B).

Lemma doJSON_inr {A} q (dec : AdminPayload -> option A) b a b' :
  Admin.doJSON c q dec b = (inr a, b') ->
  exists st p sn, ga_http c q b = (inr (st, p, sn), b') /\ ok2xx st = true /\ dec p = Some a.
Proof.
  unfold Admin.doJSON. intros H. apply bind_inr in H as ([[st p] sn] & b1 & H1 & H).
  apply mapErr_inr in H1. unfold ok2xx. destruct ((st <? 200) || (300 <=? st))%Z eqn:E; [by run_simpl|].
  destruct (dec p) as [a0|] eqn:Ed; [|by run_simpl]. unfold ret in H. injection H as <- <-.
  exists st, p, sn. by rewrite E.
Qed.
Lemma doJSON_neutral {A} q (dec : AdminPayload -> option A) :
  layout_neutral q = true -> Guar (same lay) (Admin.doJSON c q dec).
Proof.
  intros Hq. unfold Admin.doJSON. guar.
  intros b r b' H. symmetry. by eapply (ls_neutral _ _ _ L).
Qed.
Lemma Health_neutral : Guar (same lay) (Admin.Health c).
Proof.
  unfold Admin.Health. guar. intros b r b' H. symmetry.
  exact (ls_neutral _ _ _ L ReqHealth _ _ _ eq_refl H).
Qed.
Lemma get_layout b l b' : Admin.GetClusterLayout c b = (inr l, b') ->
  lay b' = lay b /\ clr_Version l = ly_Version (lay b) /\ clr_Roles l = ly_Roles (lay b).
Proof.
  intros H. split; [symmetry; exact (doJSON_neutral ReqGetClusterLayout _ eq_refl _ _ _ H)|].
  apply doJSON_inr in H as (st & p & sn & H & _ & Hd). destruct p; simplify_eq. by eapply (ls_get _ _ _ L).
Qed.

Lemma apply_next_ok pfx b v b' : apply_next c pfx b = (inr v, b') ->
  v = (ly_Version (lay b) + 1)%Z /\ lay b' = applied (lay b).
Proof.
  unfold apply_next. intros H. apply bind_inr in H as (l & b1 & H1 & H). apply mapErr_inr in H1.
  apply get_layout in H1 as (Hl & Hv & _). apply bind_inr in H as ([] & b2 & H2 & H).
  apply mapErr_inr in H2. unfold ret in H. injection H as <- <-.
  apply doJSON_inr in H2 as (st & p & sn & H2 & Hok & _).
  eapply (ls_apply _ _ _ L) in H2 as [H2 H3]; [|done]. by rewrite H2, H3, Hl.
Qed.

Lemma StageAndApply_ok ch b v b' : StageAndApplyRoles c ch b = (inr v, b') ->
  v = (ly_Version (lay b) + 1)%Z /\ lay b' = applied (stage ch (lay b)).
Proof.
  unfold StageAndApplyRoles. intros H. apply bind_inr in H as ([] & b0 & H0 & H).
  case_bool_decide as Hch; [done|]. unfold ret in H0. injection H0 as <-.
  apply bind_inr in H as ([] & b1 & H1 & H). apply mapErr_inr in H1.
  apply doJSON_inr in H1 as (st & p & sn & H1 & Hok & _). eapply (ls_stage _ _ _ L) in H1; [|done].
  apply apply_next_ok in H. by rewrite H1 in H.
Qed.

Lemma AddOrUpdate_ok peer spec b v b' : AddOrUpdateNode c peer spec b = (inr v, b') ->
  v = (ly_Version (lay b) + 1)%Z /\ lay b' = applied (stage [change_of spec] (lay b)).
Proof.
  unfold AddOrUpdateNode. intros H. apply bind_inr in H as ([] & b0 & H0 & H).
  destruct (spec_NodeID spec =s ""); [done|]. unfold ret in H0. injection H0 as <-.
  apply bind_inr in H as ([] & b1 & H1 & H). apply StageAndApply_ok in H.
  assert (lay b1 = lay b) as Hl; [|by rewrite Hl in H]. symmetry. revert H1.
  assert (Guar (same lay) (if peer =s "" then ret (E := StErr) tt else ConnectNode c peer)) as Hg
    by (unfold ConnectNode; guar; by apply doJSON_neutral).
  apply Hg.
Qed.
Lemma RemoveNode_ok nodeID b v b' : RemoveNode c nodeID b = (inr v, b') ->
  v = (ly_Version (lay b) + 1)%Z /\
  lay b' = applied (stage [mkLayoutRoleChange nodeID "" None [] true] (lay b)).
Proof.
  unfold RemoveNode. intros H. apply bind_inr in H as ([] & b1 & H0 & H).
  destruct (nodeID =s ""); [done|]. unfold ret in H0. injection H0 as <-.
  by apply StageAndApply_ok in H.
Qed.

(** An edit of the layout, and the change it stages. *)
Inductive Edit := EditAdd (peer : str) (spec : NodeSpec) | EditRemove (nodeID : str).
Definition run_edit (e : Edit) : M B StErr Z :=
  match e with
  | EditAdd peer spec => AddOrUpdateNode c peer spec
  | EditRemove nodeID => RemoveNode c nodeID
  end.
Definition edit_change (e : Edit) : LayoutRoleChange :=
  match e with
  | EditAdd _ spec => change_of spec
  | EditRemove nodeID => mkLayoutRoleChange nodeID "" None [] true
  end.

(** A node edit is one layout version.  When adding a node (with a capacity, or
    as a gateway) or removing one succeeds, the layout went to the next version, the
    staged changes with the requested one last became roles, and nothing is left
    staged; if nothing was staged before, the roles of all other nodes are as they
    were and the node has the requested role, or none after a removal. *)
Theorem node_edit_is_one_version e b v b' (Hrun : run_edit e b = (inr v, b')) :
  v = (ly_Version (lay b) + 1)%Z /\
  lay b' = mkLayout v (apply_changes (ly_Roles (lay b)) (ly_Staged (lay b) ++ [edit_change e])) [] /\
  (ly_Staged (lay b) = [] -> forall r,
     if lro_ID r =s lrc_ID (edit_change e)
     then r ∈ ly_Roles (lay b') <->
          lrc_Remove (edit_change e) = false /\ r = role_of (edit_change e)
     else r ∈ ly_Roles (lay b') <-> r ∈ ly_Roles (lay b)).
Proof.
  assert (v = (ly_Version (lay b) + 1)%Z /\ lay b' = applied (stage [edit_change e] (lay b))) as [-> Hl]
    by (destruct e; [by apply AddOrUpdate_ok in Hrun|by apply RemoveNode_ok in Hrun]).
  split; [done|]. split; [exact Hl|]. intros Hs r. rewrite Hl. cbn. rewrite Hs. cbn.
  destruct (lro_ID r =s _) eqn:E; bool_prop; [|by apply apply_change_other].
  unfold apply_change. destruct (lrc_Remove _); rewrite ?elem_of_app, where_elem, ?list_elem_of_singleton;
    rewrite E, eqb_refl_str; naive_solver.
Qed.

(** ** Bootstrap *)

Lemma primary_in l : forall f n, primary_loop l f = Some n -> n ∈ l \/ f = Some n.
Proof.
  induction l as [|a l IH]; intros f n H; [by right|]. cbn in H.
  assert (forall g, primary_loop l g = Some n -> (g = f \/ g = Some a \/ g = None) ->
    n ∈ a :: l \/ f = Some n) as Hg.
  { intros g Hl Hor. apply IH in Hl as [Hl| ->]; [left; set_solver|].
    destruct Hor as [<-|[[= ->]|?]]; [by right|left; set_solver|done]. }
  repeat case_match; simplify_eq; try (left; set_solver); eapply Hg; eauto.
Qed.
Lemma primary_storage l f n : primary_loop l f = Some n -> (exists x, x ∈ l /\ is_storage x = true) ->
  is_storage n = true.
Proof.
  revert f. induction l as [|a l IH]; intros f H (x & Hx & Hs); [set_solver|]. cbn in H.
  apply elem_of_cons in Hx as [<-|Hx].
  - unfold is_storage in *. destruct (nd_Role x) as [r|] eqn:Er; [|done].
    destruct (nr_Capacity r) eqn:Ec; [|done]. injection H as <-. by rewrite Er, Ec.
  - destruct (nd_Role a) as [r|] eqn:Er; [|eauto]. destruct (nr_Capacity r) eqn:Ec; [|eauto].
    injection H as <-. unfold is_storage. by rewrite Er, Ec.
Qed.
Lemma primary_some l : forall f, (exists x, x ∈ l /\ is_storage x = true) -> primary_loop l f <> None.
Proof.
  induction l as [|a l IH]; intros f (x & Hx & Hs); [set_solver|]. cbn.
  apply elem_of_cons in Hx as [->|Hx].
  - unfold is_storage in Hs. by repeat case_match.
  - repeat case_match; try done; apply IH; eauto.
Qed.
Lemma PrimaryNode_in s n : PrimaryNode s = Some n -> n ∈ csr_Nodes s.
Proof.
  unfold PrimaryNode. destruct (primary_loop _ _) as [x|] eqn:E.
  - intros [= <-]. by apply primary_in in E as [E|E].
  - apply head_elem.
Qed.
Lemma PrimaryNode_storage s n : PrimaryNode s = Some n ->
  (exists x, x ∈ csr_Nodes s /\ is_storage x = true) -> is_storage n = true.
Proof.
  unfold PrimaryNode. intros H Hx. destruct (primary_loop _ _) as [x|] eqn:E.
  - injection H as <-. by eapply primary_storage.
  - by apply (primary_some _ None) in Hx.
Qed.

Lemma ensure_role_ok p id b va b' : (0 < bp_CapacityBytes p)%Z -> ensure_role c p id b = (inr va, b') ->
  has_storage (ly_Roles (lay b')) id = true /\ fst va = ly_Version (lay b') /\
  (has_storage (ly_Roles (lay b)) id = true -> snd va = false /\ lay b' = lay b).
Proof.
  intros Hcap H. unfold ensure_role in H. apply bind_inr in H as (l & b1 & H1 & H).
  apply mapErr_inr, get_layout in H1 as (Hl & Hv & Hr).
  assert (nodeHasStorageRole l id = has_storage (ly_Roles (lay b)) id) as Hn
    by (unfold nodeHasStorageRole; by rewrite Hr).
  rewrite Hn in H. destruct (has_storage (ly_Roles (lay b)) id) eqn:E.
  - unfold ret in H. injection H as <- <-. rewrite Hl. cbn. auto.
  - split; [|split; [|done]]; apply bind_inr in H as ([] & b2 & H2 & H); apply mapErr_inr in H2;
      apply doJSON_inr in H2 as (st & pl & sn & H2 & Hok & _); eapply (ls_stage _ _ _ L) in H2; try done;
      apply bind_inr in H as (v & b3 & H3 & H); apply apply_next_ok in H3 as [-> H3];
      unfold ret in H; injection H as <- <-; rewrite H3, H2; [|done].
    cbn. unfold apply_changes. rewrite foldl_app. cbn. by eapply (apply_change_storage _
      (mkLayoutRoleChange id _ _ _ false)).
Qed.

Lemma waitHealthy_neutral n : Guar (same lay) (waitHealthy c n).
Proof. induction n as [|n IH]; cbn [waitHealthy]; guar; apply Health_neutral. Qed.
Lemma version_guard_neutral v : Guar (same lay) (version_guard (B := B) v).
Proof. unfold version_guard. guar. Qed.

(** The whole run: the node it settled on has a storage role afterwards. *)
Lemma Bootstrap_ok ticks p b res b' : Bootstrap c ticks p b = (inr res, b') ->
  has_storage (ly_Roles (lay b')) (br_NodeID res) = true /\ br_NodeID res ∈ ids /\
  br_LayoutVersion res = ly_Version (lay b') /\
  ((exists id, id ∈ ids /\ has_storage (ly_Roles (lay b)) id = true) ->
     br_LayoutApplied res = false /\ lay b' = lay b).
Proof.
  unfold Bootstrap. intros H. apply bind_inr in H as ([] & b1 & H1 & H).
  apply waitHealthy_neutral in H1. apply bind_inr in H as (s & b2 & H2 & H). apply mapErr_inr in H2.
  pose proof (doJSON_neutral ReqGetClusterStatus _ eq_refl _ _ _ H2) as Hl2.
  apply doJSON_inr in H2 as (st & pl & sn & H2 & _ & Hd). destruct pl; simplify_eq.
  eapply (ls_status _ _ _ L) in H2 as [Hids Hst].
  destruct (PrimaryNode s) as [node|] eqn:Ep; [|done].
  apply bind_inr in H as ([] & b3 & H3 & H). destruct (nd_ID node =s ""); [done|].
  unfold ret in H3. injection H3 as <-.
  apply bind_inr in H as ([] & b4 & H4 & H). apply version_guard_neutral in H4.
  apply bind_inr in H as (va & b5 & H5 & H).
  assert (0 < bp_CapacityBytes (setDefaults p))%Z as Hcap.
  { unfold setDefaults. cbn. destruct (_ <=? 0)%Z eqn:E; bool_prop; [done|lia]. }
  apply ensure_role_ok in H5 as (Hs & Hv & Hkeep); [|done]. unfold same in *.
  assert (lay b5 = lay b' /\ br_NodeID res = nd_ID node /\ br_LayoutVersion res = fst va /\
          br_LayoutApplied res = snd va) as (Hl & -> & -> & ->).
  { destruct (negb _).
    - unfold ret in H. injection H as <- <-. done.
    - apply bind_inr in H as (key & b6 & H6 & H). apply mapErr_inr in H6.
      pose proof (doJSON_neutral (ReqCreateKey _ _) _ eq_refl _ _ _ H6) as Hl6.
      unfold ret in H. injection H as <- <-. done. }
  rewrite <- Hl. apply PrimaryNode_in in Ep as Hin. split; [done|]. split; [|split; [done|]].
  - rewrite <- Hids. apply list_elem_of_fmap. eauto.
  - intros (id & Hid & Hhas). rewrite <- Hids in Hid. apply list_elem_of_fmap in Hid as (x & -> & Hx).
    assert (is_storage node = true) as Hnode.
    { eapply PrimaryNode_storage; [done|]. exists x. split; [done|]. rewrite Hst, <- H1; done. }
    rewrite (Hst node Hin), Hl2, H4 in Hnode. apply Hkeep in Hnode as [-> ->]. split; [done|]. congruence.
Qed.

(** Bootstrapping is idempotent.  After a bootstrap succeeded the node it
    settled on has a storage role; running it again, with any parameters, edits no
    layout: it reports the same version as not applied by it, and roles, version and
    staged changes are as the first run left them. *)
Theorem bootstrap_idempotent ticks p b res b1 ticks' p' res' b2
    (H1 : Bootstrap c ticks p b = (inr res, b1))
    (H2 : Bootstrap c ticks' p' b1 = (inr res', b2)) :
  has_storage (ly_Roles (lay b1)) (br_NodeID res) = true /\
  br_LayoutApplied res' = false /\ br_LayoutVersion res' = br_LayoutVersion res /\
  lay b2 = lay b1.
Proof.
  apply Bootstrap_ok in H1 as (Hs & Hin & Hv & _). apply Bootstrap_ok in H2 as (_ & _ & Hv2 & Hk).
  destruct Hk as [Ha Hl]; [eauto|]. split; [done|]. split; [done|]. split; [|done]. congruence.
Qed.

(** ** Bootstrap comes to an end

    A server that answers: it becomes healthy after [wait] more polls, and from then
    on accepts every request, an apply if it is for the next version; its status has a
    node, and every node of it is supported. *)

(** The node has an id, and its version, if it can be read, is at least 2.0. *)
Definition supported (n : NodeResp) : Prop :=
  nd_ID n <> "" /\ forall v, ParseVersion (nd_GarageVersion n) = inr v -> CheckSupported v = None.

Record Responsive (wait : B -> nat) : Prop := {
  up_health : forall b, exists st p sn b', ga_http c ReqHealth b = (inr (st, p, sn), b') /\
    wait b' = pred (wait b) /\ (st = 200%Z <-> wait b = 0);
  up_status : forall b, wait b = 0 -> exists s sn b',
    ga_http c ReqGetClusterStatus b = (inr (200%Z, PStatus s, sn), b') /\ wait b' = 0 /\
    csr_Nodes s <> [] /\ Forall supported (csr_Nodes s);
  up_layout : forall b, wait b = 0 -> exists l sn b',
    ga_http c ReqGetClusterLayout b = (inr (200%Z, PLayout l, sn), b') /\ wait b' = 0;
  up_stage : forall b ch, wait b = 0 -> exists p sn b',
    ga_http c (ReqUpdateClusterLayout ch) b = (inr (200%Z, p, sn), b') /\ wait b' = 0;
  up_apply : forall b v, wait b = 0 -> v = (ly_Version (lay b) + 1)%Z -> exists p sn b',
    ga_http c (ReqApplyClusterLayout v) b = (inr (200%Z, p, sn), b') /\ wait b' = 0;
  up_key : forall b name cc, wait b = 0 -> exists k sn b',
    ga_http c (ReqCreateKey name cc) b = (inr (200%Z, PCreateKey k, sn), b')
}.

Section Liveness.
Context (wait : B -> nat) (U : Responsive wait).

Lemma doJSON_ok {A} q (dec : AdminPayload -> option A) b p sn b' a :
  ga_http c q b = (inr (200%Z, p, sn), b') -> dec p = Some a ->
  Admin.doJSON c q dec b = (inr a, b').
Proof. intros H Hd. unfold Admin.doJSON, bind, mapErr. rewrite H. cbn. by rewrite Hd. Qed.

Lemma waitHealthy_ends ticks : forall b, wait b <= ticks ->
  exists b', waitHealthy c ticks b = (inr tt, b') /\ wait b' = 0.
Proof.
  induction ticks as [|n IH]; intros b Hle;
    destruct (up_health _ U b) as (st & p & sn & b1 & H & Hw & H0);
    cbn [waitHealthy]; unfold Admin.Health, bind, attempt, mapErr; rewrite H.
  - assert (st = 200%Z) as -> by (apply H0; lia). cbn. eexists. split; [done|]. lia.
  - destruct (st =? 200)%Z eqn:E; bool_prop; cbn.
    + eexists. split; [done|]. apply H0 in E. lia.
    + assert (wait b <> 0) by (intros Hz; by apply E, H0). apply IH. lia.
Qed.

Lemma apply_next_ends pfx b : wait b = 0 -> (ly_Version (lay b) + 1 <= int64_max)%Z ->
  (int64_min <= ly_Version (lay b))%Z ->
  exists v b', apply_next c pfx b = (inr v, b') /\ wait b' = 0.
Proof.
  intros Hw Hmax Hmin. destruct (up_layout _ U b Hw) as (l & sn & b1 & H1 & Hw1).
  destruct (ls_get _ _ _ L _ _ _ _ _ H1) as [Hv _].
  assert (lay b1 = lay b) as Hl1 by exact (ls_neutral _ _ _ L ReqGetClusterLayout _ _ _ eq_refl H1).
  assert (add64 (clr_Version l) 1 = (ly_Version (lay b1) + 1)%Z) as Hnext.
  { rewrite Hl1, <- Hv. apply wrap64_id. unfold in_int64. rewrite Hv. lia. }
  destruct (up_apply _ U b1 _ Hw1 Hnext) as (p & sn2 & b2 & H2 & Hw2).
  eexists _, b2. split; [|done]. unfold apply_next, bind, mapErr, Admin.GetClusterLayout.
  erewrite doJSON_ok; [|exact H1|reflexivity]. unfold Admin.ApplyClusterLayout.
  erewrite doJSON_ok; [|exact H2|reflexivity]. reflexivity.
Qed.

(** The ticks that fire before the deadline when every poll is answered within one
    interval: 59 with the defaults of two minutes and two seconds.  A slower poll drops
    ticks; one more may fire together with the deadline. *)
Definition ticks_before_deadline (p : BootstrapParams) : nat :=
  Z.to_nat ((bp_HealthTimeout (setDefaults p) - 1) / bp_PollInterval (setDefaults p)).

(** C28: a bootstrap of a responsive node comes to an end with success.  If the polls
    are answered within one interval, the node becomes healthy within the polls that
    fit before the health timeout, and from then on it answers its status with at least
    one node, each with a non-empty id and no version below 2.0, its layout, every
    staged change, an apply for the next version and the creation of a key with
    success, and its layout version is at least 0 and below the largest int64, then the
    bootstrap returns a result, whatever roles the node had; a system key is created
    exactly if none was passed. *)
Theorem bootstrap_completes ticks p b
    (Hticks : ticks_before_deadline p <= ticks) (Hwait : wait b <= ticks_before_deadline p)
    (Hver : (0 <= ly_Version (lay b) < int64_max)%Z) :
  exists res b', Bootstrap c ticks p b = (inr res, b') /\
    br_SystemKeyCreated res = (bp_ExistingSystemKeyID p =s "").
Proof.
  destruct (waitHealthy_ends ticks b (Nat.le_trans _ _ _ Hwait Hticks)) as (b1 & H1 & Hw1).
  pose proof (waitHealthy_neutral _ _ _ _ H1) as Hl1.
  destruct (up_status _ U b1 Hw1) as (s & sn & b2 & H2 & Hw2 & Hne & Hsup).
  assert (lay b2 = lay b1) as Hl2 by exact (ls_neutral _ _ _ L ReqGetClusterStatus _ _ _ eq_refl H2).
  assert (exists node, PrimaryNode s = Some node) as [node Hn].
  { unfold PrimaryNode. destruct (primary_loop _ _); [eauto|]. destruct (csr_Nodes s); [done|eauto]. }
  pose proof (PrimaryNode_in _ _ Hn) as Hin. rewrite Forall_forall in Hsup.
  destruct (Hsup node Hin) as [Hid Hv].
  assert (version_guard (B := B) (nd_GarageVersion node) b2 = (inr tt, b2)) as Hg.
  { unfold version_guard. destruct (_ =s ""); [done|]. destruct (ParseVersion _) eqn:Ev; [done|].
    by rewrite (Hv _ eq_refl). }
  assert (exists va b3, ensure_role c (setDefaults p) (nd_ID node) b2 = (inr va, b3) /\ wait b3 = 0)
    as (va & b3 & H3 & Hw3).
  { destruct (up_layout _ U b2 Hw2) as (l & sn2 & b4 & H4 & Hw4).
    assert (lay b4 = lay b2) as Hl4 by exact (ls_neutral _ _ _ L ReqGetClusterLayout _ _ _ eq_refl H4).
    unfold ensure_role, bind at 1, mapErr at 1, Admin.GetClusterLayout.
    erewrite doJSON_ok; [|exact H4|reflexivity]. destruct (nodeHasStorageRole _ _); [eexists _, _; done|].
    edestruct (up_stage _ U b4) as (pl & sn3 & b5 & H5 & Hw5); [done|].
    pose proof (ls_stage _ _ _ L _ _ _ _ _ _ H5 eq_refl) as Hl5.
    destruct (apply_next_ends "bootstrap: " b5) as (v & b6 & H6 & Hw6); [done|rewrite Hl5; cbn..|].
    1, 2: rewrite Hl4, Hl2, <- Hl1; unfold int64_min, int64_max in *; lia.
    unfold bind at 1, mapErr at 1, Admin.UpdateClusterLayout.
    erewrite doJSON_ok; [|exact H5|reflexivity]. unfold bind. rewrite H6. eexists _, _. done. }
  unfold Bootstrap. unfold bind at 1. rewrite H1. unfold bind at 1, mapErr at 1, Admin.GetClusterStatus.
  erewrite doJSON_ok; [|exact H2|reflexivity]. rewrite Hn. apply eqb_false_str in Hid as ->.
  cbn [bind ret]. unfold bind at 1. rewrite Hg. unfold bind at 1. rewrite H3.
  change (bp_ExistingSystemKeyID (setDefaults p)) with (bp_ExistingSystemKeyID p).
  destruct (bp_ExistingSystemKeyID p =s ""); cbn; [|by eexists _, _].
  destruct (up_key _ U b3 (bp_SystemKeyName (setDefaults p)) true Hw3) as (k & sn3 & b6 & H6).
  unfold bind, mapErr, Admin.CreateKey. erewrite doJSON_ok; [|exact H6|reflexivity].
  by eexists _, _.
Qed.
End Liveness.
End Manager.

(** * A Garage in memory: the polls until it is healthy, and its layout *)

Definition GarageB : Type := nat * Layout.
Definition ex_ids : list str := ["n1"; "n2"].

Definition ex_node_resp (roles : list LayoutRole) (id : str) : NodeResp :=
  mkNodeResp id "v2.3.0" "a" "h" true false
    (if has_storage roles id then Some (mkNodeRole id "dc1" (Some 1%Z) []) else None) None.
Definition wire_layout (l : Layout) : ClusterLayoutResponse :=
  mkClusterLayoutResponse (ly_Version l) (ly_Roles l) (map role_of (ly_Staged l)).

Definition garage_http (q : AdminReq) : M GarageB str (Z * AdminPayload * str) := fun b =>
  let '(wait, l) := b in
  let ok p b' := (inr (200%Z, p, ""), b') in
  match q with
  | ReqHealth => (inr (if Nat.eqb wait 0 then 200%Z else 503%Z, PNone, ""), (pred wait, l))
  | ReqGetClusterStatus =>
      ok (PStatus (mkClusterStatusResponse (ly_Version l) (ex_node_resp (ly_Roles l) <$> ex_ids))) b
  | ReqGetClusterLayout => ok (PLayout (wire_layout l)) b
  | ReqUpdateClusterLayout ch => ok PNone (wait, stage ch l)
  | ReqApplyClusterLayout v =>
      if (v =? ly_Version l + 1)%Z then ok PNone (wait, applied l)
      else (inr (500%Z, PNone, "bad version"), b)
  | ReqRevertClusterLayout => ok PNone (wait, mkLayout (ly_Version l) (ly_Roles l) [])
  | ReqCreateKey name _ => ok (PCreateKey (mkCreateKeyResponse "GK1" "secret" name)) b
  | ReqConnectClusterNodes _ => ok (PConnect [mkConnectNodeResult true ""]) b
  | _ => (inr (404%Z, PNone, "not served"), b)
  end.
#[local] Instance garage_mem : GarageServer GarageB :=
  {| ga_http := fun _ => garage_http; ga_now := fun _ => 0%Z; ga_escape := fun x => x |}.
Definition ex_conn : AdminConn := mkAdminConn "http://garage" "token".

Lemma garage_mem_laws : LayoutServer (B := GarageB) ex_conn snd ex_ids.
Proof.
  constructor.
  - intros q [wt l] r b' Hq H. destruct q; cbn in Hq, H; simplify_eq; done.
  - intros [wt l] st lr sn b' H. cbn in H. injection H as _ <- _ _. done.
  - intros ch [wt l] st p sn b' H _. cbn in H. by injection H as _ _ _ <-.
  - intros v [wt l] st p sn b' H Hok. cbn in H. destruct (v =? _)%Z eqn:E; injection H as <- _ _ <-;
      [by bool_prop|done].
  - intros [wt l] st s sn b' H. cbn in H. injection H as _ <- _ _. split; [done|].
    intros n Hn. change (n ∈ ex_node_resp (ly_Roles l) <$> ex_ids) in Hn.
    apply list_elem_of_fmap in Hn as (id & -> & _). unfold is_storage, ex_node_resp. cbn.
    by destruct (has_storage _ id).
Qed.
Lemma garage_mem_up : Responsive (B := GarageB) ex_conn snd fst.
Proof.
  constructor.
  - intros [wt l]. eexists _, _, _, _. split; [reflexivity|]. split; [done|]. cbn.
    destruct wt; cbn; split; done.
  - intros [wt l] Hw. eexists _, _, _. split; [reflexivity|]. split; [done|]. split; [done|].
    apply Forall_forall. intros n Hn. change (n ∈ ex_node_resp (ly_Roles l) <$> ex_ids) in Hn.
    apply list_elem_of_fmap in Hn as (id & -> & Hid). split.
    + cbn. intros ->. unfold ex_ids in Hid. rewrite !elem_of_cons, elem_of_nil in Hid. naive_solver.
    + intros v Hv. assert (ParseVersion (nd_GarageVersion (ex_node_resp (ly_Roles l) id))
        = inr (mkVersion 2 3 0)) as E by (vm_compute; reflexivity).
      rewrite E in Hv. injection Hv as <-. vm_compute. reflexivity.
  - intros [wt l] Hw. eexists _, _, _. split; [reflexivity|done].
  - intros [wt l] ch Hw. eexists _, _, _. split; [reflexivity|done].
  - intros [wt l] v Hw ->. cbn [snd]. eexists _, _, _. cbn. rewrite Z.eqb_refl.
    split; [reflexivity|done].
  - intros [wt l] name cc Hw. eexists _, _, _. reflexivity.
Qed.

Definition fresh_node : GarageB := (3, mkLayout 0 [] []).
Definition ex_params : BootstrapParams := mkBootstrapParams "" 0 "" "" 0 0.

Lemma node_edit_is_one_version_witness :
  let b : GarageB := (0, mkLayout 4 [mkLayoutRole "n1" "dc1" (Some 5%Z) []] []) in
  let out := run_edit ex_conn (EditAdd "" (mkNodeSpec "n2" "dc2" 7 [])) b in
  fst out = inr 5%Z /\
  snd (snd out) = mkLayout 5 [mkLayoutRole "n1" "dc1" (Some 5%Z) []; mkLayoutRole "n2" "dc2" (Some 7%Z) []] [].
Proof.
  intros b out. assert (fst out = inr 5%Z) as E by (vm_compute; reflexivity). split; [exact E|].
  refine (proj1 (proj2 (node_edit_is_one_version ex_conn snd ex_ids garage_mem_laws
    (EditAdd "" (mkNodeSpec "n2" "dc2" 7 [])) b 5%Z (snd out) _))).
  rewrite <- E. apply surjective_pairing.
Defined.

Lemma bootstrap_idempotent_witness :
  let out1 := Bootstrap ex_conn 60 ex_params fresh_node in
  let out2 := Bootstrap ex_conn 60 (mkBootstrapParams "" 0 "" "GK1" 0 0) (snd out1) in
  exists r1 r2, fst out1 = inr r1 /\ fst out2 = inr r2 /\ br_LayoutApplied r1 = true /\
    br_LayoutApplied r2 = false /\ br_SystemKeyCreated r2 = false /\
    snd (snd out2) = snd (snd out1).
Proof.
  intros out1 out2.
  destruct (fst out1) as [e|r1] eqn:E1; [exfalso; vm_compute in E1; discriminate|].
  destruct (fst out2) as [e|r2] eqn:E2; [exfalso; vm_compute in E2; discriminate|].
  exists r1, r2. split; [reflexivity|]. split; [reflexivity|].
  split; [vm_compute in E1; injection E1 as <-; reflexivity|].
  destruct (bootstrap_idempotent ex_conn snd ex_ids garage_mem_laws 60 ex_params fresh_node r1 (snd out1)
    60 (mkBootstrapParams "" 0 "" "GK1" 0 0) r2 (snd out2)) as (_ & Ha & _ & Hl).
  - rewrite <- E1. apply surjective_pairing.
  - rewrite <- E2. apply surjective_pairing.
  - split; [exact Ha|]. split; [|exact Hl]. vm_compute in E2. injection E2 as <-. reflexivity.
Defined.

Lemma bootstrap_completes_witness :
  exists res b', Bootstrap ex_conn 59 ex_params fresh_node = (inr res, b') /\
    br_SystemKeyCreated res = true.
Proof.
  apply (bootstrap_completes ex_conn snd ex_ids garage_mem_laws fst garage_mem_up 59 ex_params fresh_node).
  - apply Nat.leb_le. vm_compute. reflexivity.
  - apply Nat.leb_le. vm_compute. reflexivity.
  - cbn. unfold int64_max. lia.
Defined.
