(* ===== verification/Accounts.v ===== *)
(** src/internal/service/signup.go, sso.go, api_tokens.go, and the SCIM tokens of
    tenants.go: how accounts come to exist and how programs authenticate. *)
From Stdlib Require Import Ascii.
From S2P Require Import Prelude GoStrings GoTime Storage Database Repository AccountStore AuditLog Service Members Tenants.
#[local] Open Scope string_scope.

Module Accounts.

(** ** signup.go *)

Definition signupWindow : Z := (3600 * 10 ^ 9)%Z.
Definition signupPerIP : nat := 5.
Definition verifyTokenTTL : Z := (24 * 3600 * 10 ^ 9)%Z.
Definition verifyTokenPref : str := "bk_verify_".

Record SignupResult := mkSignupResult {
  sr_UserID : str; sr_VerificationSent : bool; sr_VerificationToken : str }.

(** [slugInvalid.ReplaceAllString(s, "-")]: a run of other characters becomes one
    hyphen; [inRun] tells that the previous character was replaced. *)
Definition slug_char (c : ascii) : bool := is_lower c || is_digit c || Ascii.eqb c "-".
Fixpoint replace_runs (inRun : bool) (s : str) : str :=
  match s with
  | "" => ""
  | String c s' =>
      if slug_char c then String c (replace_runs false s')
      else if inRun then replace_runs true s' else String "-" (replace_runs true s')
  end.

(** The slug without its random suffix. *)
Definition slug_base (name : str) : str :=
  let slug := trim_both (Ascii.eqb "-") (replace_runs false (ToLower (TrimSpace name))) in
  let slug := if slug =s "" then "org" else slug in
  if (50 <? String.length slug)%nat then str_take 50 slug else slug.

(** ** api_tokens.go *)

Definition APITokenPrefix : str := "bk_pat_".

Record APITokenDTO := mkAPITokenDTO {
  atd_ID : str; atd_Name : str; atd_SecretLastFour : str; atd_Scopes : list str;
  atd_ExpiresAt : option Z; atd_LastUsedAt : option Z; atd_CreatedAt : Z }.
Record APITokenCreateResult := mkAPITokenCreateResult {
  atc_DTO : APITokenDTO; atc_Token : str; atc_SecretShownOnce : bool }.

(** [token[len(token)-4:]] *)
Definition last_four (token : str) : str := str_drop (String.length token - 4) token.

(** ** SCIM tokens *)

Record SCIMTokenDTO := mkSCIMTokenDTO {
  std_ID : str; std_Name : str; std_LastFour : str; std_CreatedAt : str; std_LastUsedAt : str }.
Record CreateSCIMTokenResult := mkCreateSCIMTokenResult { scr_ID : str; scr_Token : str }.

Section Accounts.
Context {ENV : Env} {B : Type} (s : Services B).
#[local] Abbreviation Svc := (@Service.Svc B).
Implicit Types (ctx : Ctx).
Let cfg := s_Settings s.

Definition signupEnabled : bool :=
  cfg_SelfServeSignup cfg && dec_Allowed (ent_Allowed (s_Ent s) "self_serve_signup" "").

Definition signupDisabledErr : Error :=
  mkError "signup_disabled" "self-serve signup is not enabled" 404.
Definition rateLimitedErr : Error :=
  mkError "rate_limited" "too many signups from this address; try again later" 429.

Definition verifyLink (token : str) : str :=
  TrimRightByte (s_PublicBaseURL s) "/" ++ "/signup/verify?token=" ++ token.

(** [raw, _ := auth.NewToken()]: the empty string when the random source fails. *)
Definition newTokenOrEmpty : Svc str :=
  let! r := attempt NewToken in ret (match r with inr t => t | inl _ => "" end).

(** [suffix[:6]] of a shorter token is a run-time panic, which the recovery
    middleware turns into a 500. *)
Definition orgSlug (name : str) : Svc str :=
  let! suffix := newTokenOrEmpty in
  if (String.length suffix <? 6)%nat
  then throw (mkError "internal_error" "slice bounds out of range" 500)
  else ret (slug_base name ++ "-" ++ ToLower (str_take 6 suffix)).

(** A failed count counts as zero; the address is unknown when empty. *)
Definition signupRateGuard (ip : str) : Svc unit :=
  if ip =s "" then ret tt
  else
    let! t := now in
    let! n := attempt (db (AccountStore.CountRecentSignups ip (t - signupWindow))) in
    if (signupPerIP <=? match n with inr n => n | inl _ => 0 end)%nat
    then throw rateLimitedErr else ret tt.

(** Stores a fresh verification token for a user, and mails its link. *)
Definition sendVerification (userID email : str) : Svc str :=
  let! raw := newTokenOrEmpty in
  let token := verifyTokenPref ++ raw in
  let! t := now in
  do! mapErr mapRepoErr (db (AccountStore.CreateEmailVerification userID (HashToken token)
                               (t + verifyTokenTTL))) in
  do! fx (FxVerifyMail email (verifyLink token)) in
  ret token.

Definition Register ctx (email password orgName ip : str) : Svc SignupResult :=
  guard! signupEnabled else signupDisabledErr in
  let email := TrimSpace (ToLower email) in
  guard! validEmail email else validationErr "invalid email address" in
  reject! (String.length password <? 8)%nat
    with validationErr "password must be at least 8 characters" in
  reject! (TrimSpace orgName =s "") with validationErr "organization name is required" in
  do! signupRateGuard ip in
  do! ignore (db (AccountStore.RecordSignupAttempt ip email)) in
  let! existing := attempt (db (Store.GetUserByEmail email)) in
  match existing with
  | inr _ => ret (mkSignupResult "" true "")
  | inl _ =>
      let! hash := Members.HashPassword password in
      let! slug := orgSlug orgName in
      let! ids := mapErr (fun _ => conflictErr
                            "could not create the organization (the name may be taken)")
                    (db (Store.CreateOrgWithOwner orgName slug email "" hash)) in
      let userID := snd ids in
      let! token := sendVerification userID email in
      do! audit s ctx "auth.signup" "user" userID
            (Some [("email", JStr email); ("org", JStr orgName)]) in
      ret (mkSignupResult userID true (if cfg_SignupDevReturnToken cfg then token else ""))
  end.

Definition VerifyEmail ctx (token : str) : Svc Members.AuthResult :=
  let! userID := mapErr (fun _ => mkError "invalid_token"
                           "the verification link is invalid or has expired" 400)
                   (db (AccountStore.ConsumeEmailVerification (HashToken token))) in
  let! u := mapErr mapRepoErr (db (Store.GetUserByID userID)) in
  do! audit s ctx "auth.verify_email" "user" userID (Some [("email", JStr (u_Email u))]) in
  Members.newSession u.

Definition ResendVerification (email : str) : Svc unit :=
  guard! signupEnabled else signupDisabledErr in
  let email := TrimSpace (ToLower email) in
  let! r := attempt (db (AccountStore.UnverifiedUserByEmail email)) in
  match r with
  | inl _ => ret tt
  | inr userID => let! _ := sendVerification userID email in ret tt
  end.

(** ** sso.go *)

Definition ssoProvider : str := "oidc".

Definition SSOEnabled : bool :=
  match cfg_IdP cfg with Some idp => idp_Enabled idp | None => false end.

Definition SSOAuthURL (state : str) : str :=
  match cfg_IdP cfg with
  | Some idp => if idp_Enabled idp then idp_AuthURL idp state else ""
  | None => ""
  end.

Definition SSOExchange (code : str) : Svc ExternalIdentity :=
  match cfg_IdP cfg with
  | Some idp =>
      guard! idp_Enabled idp else unauthorizedErr in
      let! w := get in
      match idp_Exchange idp (db_tick (w_db w)) code with
      | Some ext => ret ext
      | None => throw unauthorizedErr
      end
  | None => throw unauthorizedErr
  end.

(** The account of a verified identity: the linked one, the one with its address
    (only if the provider vouches for it), or a new one. *)
Definition externalUser (ext : ExternalIdentity) : Svc User :=
  let! linked := attempt (db (AccountStore.GetUserByExternalIdentity ssoProvider
                                (ei_Subject ext))) in
  match linked with
  | inr u => ret u
  | inl _ =>
      let! byEmail := attempt (db (Store.GetUserByEmail (ei_Email ext))) in
      match byEmail with
      | inr u =>
          guard! ei_EmailVerified ext else unauthorizedErr in
          do! ignore (db (AccountStore.LinkIdentity (u_ID u) ssoProvider (ei_Subject ext))) in
          ret u
      | inl _ =>
          let! rnd := newTokenOrEmpty in
          let! hash := Members.HashPassword rnd in
          let! id := mapErr mapRepoErr
                       (db (Store.CreateUser (ei_Email ext) (ei_Name ext) hash false)) in
          do! ignore (db (AccountStore.LinkIdentity id ssoProvider (ei_Subject ext))) in
          ret (Members.session_user_of id (ei_Email ext) (ei_Name ext) false)
      end
  end.

Definition ssoSeatErr : Error :=
  mkError "seat_limit_reached" "seat limit reached; ask an admin to add a seat" 402.

(** A failed count counts as zero. *)
Definition ssoSeatGuard : Svc unit :=
  let lim := ent_Limit (s_Ent s) ResourceSeats (s_OrgID s) in
  if lim_Unlimited lim then ret tt
  else
    let! n := attempt (db (Store.CountMembers (s_OrgID s))) in
    if (lim_Max lim <=? Z.of_nat (match n with inr n => n | inl _ => 0 end))%Z
    then throw ssoSeatErr else ret tt.

(** Any error of the membership read, not only its absence, adds the member. *)
Definition ensureMembership (userID : str) (groups : list str) : Svc unit :=
  let! role := attempt (db (Store.GetMembershipRole (s_OrgID s) userID)) in
  match role with
  | inr _ => ret tt
  | inl _ =>
      do! ssoSeatGuard in
      let role := match cfg_IdP cfg with Some idp => idp_MapRole idp groups | None => "member" end in
      ignore (db (Store.UpsertMember (s_OrgID s) userID role))
  end.

(** [None] is the nil identity. *)
Definition LoginWithExternalIdentity ctx (ext : option ExternalIdentity)
    : Svc Members.AuthResult :=
  match ext with
  | None => throw unauthorizedErr
  | Some ext =>
      reject! (ei_Subject ext =s "") || (ei_Email ext =s "") with unauthorizedErr in
      let! u := externalUser ext in
      do! ensureMembership (u_ID u) (ei_Groups ext) in
      do! audit s ctx "auth.sso_login" "user" (u_ID u) (Some [("email", JStr (ei_Email ext))]) in
      Members.newSession u
  end.

(** ** API tokens *)

Definition CreateAPIToken ctx (name : str) (expiresAt : option Z) : Svc APITokenCreateResult :=
  let uid := currentUserID ctx in
  reject! (uid =s "") with unauthorizedErr in
  do! authorize s ctx ActionCreate (mkTarget ResourceAPIToken "") in
  reject! (TrimSpace name =s "") with validationErr "token name is required" in
  let! raw := NewToken in
  let token := APITokenPrefix ++ raw in
  let! id := mapErr mapRepoErr (db (AccountStore.CreateAPIToken uid (tc_OrgID (tenant s ctx)) name
               (HashToken token) (last_four token) expiresAt)) in
  do! audit s ctx "api_token.create" "api_token" id (Some [("name", JStr name)]) in
  let! t := now in
  ret (mkAPITokenCreateResult (mkAPITokenDTO id name (last_four token) [] expiresAt None t)
         token true).

Definition ListAPITokens ctx : Svc (list APITokenDTO) :=
  let uid := currentUserID ctx in
  reject! (uid =s "") with unauthorizedErr in
  let! rows := mapErr mapRepoErr (db (AccountStore.ListAPITokens uid)) in
  ret (map (fun '(t, scopes) => mkAPITokenDTO (at_ID t) (at_Name t) (at_SecretLastFour t) scopes
                                  (at_ExpiresAt t) (at_LastUsedAt t) (at_CreatedAt t)) rows).

Definition RevokeAPIToken ctx (id : str) : Svc unit :=
  let uid := currentUserID ctx in
  reject! (uid =s "") with unauthorizedErr in
  do! authorize s ctx ActionDelete (mkTarget ResourceAPIToken id) in
  do! mapErr mapRepoErr (db (AccountStore.SoftDeleteAPIToken id uid)) in
  audit s ctx "api_token.revoke" "api_token" id None.

Definition UserByAPIToken (token : str) : M (World B) DBErr User :=
  guard! HasPrefix token APITokenPrefix else ErrNotFound in
  db (AccountStore.GetUserByAPIToken (HashToken token)).

(** ** SCIM provisioning tokens *)

Definition CreateSCIMToken ctx (name : str) : Svc CreateSCIMTokenResult :=
  do! Tenants.scimTokenActor ctx in
  reject! (name =s "") with validationErr "name is required" in
  let! raw := NewToken in
  let token := "bk_scim_" ++ raw in
  let! id := mapErr mapRepoErr (db (AccountStore.CreateSCIMToken (tc_OrgID (tenant s ctx)) name
               (HashToken token) (last_four token))) in
  do! audit s ctx "scim.token_create" "scim_token" id (Some [("name", JStr name)]) in
  ret (mkCreateSCIMTokenResult id token).

Definition ListSCIMTokens ctx : Svc (list SCIMTokenDTO) :=
  do! Tenants.scimTokenActor ctx in
  let! rows := mapErr mapRepoErr (db (AccountStore.ListSCIMTokens (tc_OrgID (tenant s ctx)))) in
  ret (map (fun t => mkSCIMTokenDTO (sct_ID t) (sct_Name t) (sct_LastFour t)
              (Time.RFC3339 (sct_CreatedAt t))
              (match sct_LastUsedAt t with Some u => Time.RFC3339 u | None => "" end)) rows).

Definition RevokeSCIMToken ctx (id : str) : Svc unit :=
  do! Tenants.scimTokenActor ctx in
  do! mapErr mapRepoErr (db (AccountStore.RevokeSCIMToken (tc_OrgID (tenant s ctx)) id)) in
  audit s ctx "scim.token_revoke" "scim_token" id None.

End Accounts.
End Accounts.
