(* ===== verification/Settings.v ===== *)
(** src/internal/service/policies.go (attribute-based policies), branding.go
    (white-label settings and custom domains) and features.go (what the deployment
    offers). *)
From Stdlib Require Import Ascii.
From S2P Require Import Prelude GoStrings GoTime Storage Database Repository AccountStore AuditLog Service Tenants Accounts.
#[local] Open Scope string_scope.

Module OrgSettings.

Record PolicyDTO := mkPolicyDTO {
  pd_ID : str; pd_Name : str; pd_Template : str; pd_Config : gmap str str; pd_Enabled : bool;
  pd_Roles : list str; pd_CreatedAt : str }.
Record CreatePolicyInput := mkCreatePolicyInput {
  cp_Name : str; cp_Template : str; cp_Config : gmap str str; cp_Roles : list str }.

Definition validPolicyTemplates : list str := ["ip_allowlist"; "business_hours"; "read_only"].

(** The first role that cannot be bound, with the message. *)
Fixpoint check_roles (roles : list str) : option str :=
  match roles with
  | [] => None
  | r :: rest =>
      if r =s "owner" then Some "owners cannot be bound to a policy (no lock-out)"
      else if bool_decide (r ∈ ["admin"; "member"; "viewer"]) then check_roles rest
      else Some ("invalid role: " ++ r)
  end.

Record BrandingDTO := mkBrandingDTO {
  bd_DisplayName : str; bd_LogoURL : str; bd_PrimaryColor : str; bd_EmailFrom : str;
  bd_CustomDomain : str }.
Definition no_branding : BrandingDTO := mkBrandingDTO "" "" "" "" "".
Definition brandingDTO (b : Branding) : BrandingDTO :=
  mkBrandingDTO (br_DisplayName b) (br_LogoURL b) (br_PrimaryColor b) (br_EmailFrom b)
    (br_CustomDomain b).

Definition normalizeHost (h : str) : str :=
  let h := TrimSpace (ToLower h) in
  match IndexByte h ":" with Some i => str_take i h | None => h end.

Definition label_char (c : ascii) : bool := Ascii.eqb c "-" || is_digit c || is_lower c.
Definition validDomain (h : str) : bool :=
  negb ((String.length h <? 3)%nat || (253 <? String.length h)%nat || negb (Contains h "."))
  && forallb (fun label => negb ((label =s "") || (63 <? String.length label)%nat)
                           && str_all label_char label) (Split h ".").

Section OrgSettings.
Context {ENV : Env} {B : Type} (s : Services B).
#[local] Abbreviation Svc := (@Service.Svc B).
Implicit Types (ctx : Ctx).

(** ** policies.go *)

Definition policyActor ctx : Svc unit :=
  let subj := subjectFrom ctx in
  if sub_PlatformAdmin subj || (sub_Role subj =s "owner") then ret tt
  else throw Tenants.ownerOrAdminErr.

Definition ListPolicies ctx : Svc (list PolicyDTO) :=
  do! policyActor ctx in
  let! rows := mapErr mapRepoErr (db (AccountStore.ListPolicies (tc_OrgID (tenant s ctx)))) in
  ret (map (fun p => mkPolicyDTO (AccountStore.p_ID p) (AccountStore.p_Name p)
              (AccountStore.p_Template p) (AccountStore.p_Config p) (AccountStore.p_Enabled p)
              (AccountStore.p_Roles p) (Time.RFC3339 (AccountStore.p_CreatedAt p))) rows).

Definition CreatePolicy ctx (i : CreatePolicyInput) : Svc str :=
  do! policyActor ctx in
  reject! (cp_Name i =s "") with validationErr "name is required" in
  guard! bool_decide (cp_Template i ∈ validPolicyTemplates)
    else validationErr "unknown policy template" in
  match check_roles (cp_Roles i) with
  | Some msg => throw (validationErr msg)
  | None =>
      let! id := mapErr mapRepoErr (db (AccountStore.CreatePolicy (tc_OrgID (tenant s ctx))
                   (cp_Name i) (cp_Template i) (cp_Config i) (cp_Roles i))) in
      do! audit s ctx "policy.create" "policy" id
            (Some [("template", JStr (cp_Template i)); ("roles", JStrs (cp_Roles i))]) in
      ret id
  end.

Definition SetPolicyEnabled ctx (id : str) (enabled : bool) : Svc unit :=
  do! policyActor ctx in
  do! mapErr mapRepoErr (db (AccountStore.SetPolicyEnabled (tc_OrgID (tenant s ctx)) id
                               enabled)) in
  audit s ctx "policy.set_enabled" "policy" id (Some [("enabled", JBool enabled)]).

Definition DeletePolicy ctx (id : str) : Svc unit :=
  do! policyActor ctx in
  do! mapErr mapRepoErr (db (AccountStore.DeletePolicy (tc_OrgID (tenant s ctx)) id)) in
  audit s ctx "policy.delete" "policy" id None.

(** ** branding.go *)

(** An unset branding is the empty one. *)
Definition or_no_branding (m : M DB DBErr Branding) : Svc BrandingDTO :=
  let! r := attempt (db m) in
  match r with
  | inr b => ret (brandingDTO b)
  | inl ErrNotFound => ret no_branding
  | inl e => throw (mapRepoErr e)
  end.

Definition GetBranding ctx : Svc BrandingDTO :=
  or_no_branding (AccountStore.GetBranding (tc_OrgID (tenant s ctx))).

Definition BrandingForHost (host : str) : Svc BrandingDTO :=
  let host := normalizeHost host in
  if host =s "" then ret no_branding else or_no_branding (AccountStore.GetBrandingByDomain host).

(** The check is advisory: its read may fail, the unique index decides. *)
Definition claimGuard (orgID domain : str) : Svc unit :=
  if domain =s "" then ret tt
  else
    guard! validDomain domain else validationErr "custom_domain is not a valid hostname" in
    let! r := attempt (db (AccountStore.GetBrandingByDomain domain)) in
    match r with
    | inr existing =>
        if br_OrgID existing =s orgID then ret tt
        else throw (conflictErr "that custom domain is already claimed by another organization")
    | inl _ => ret tt
    end.

Definition SetBranding ctx (i : BrandingDTO) : Svc unit :=
  do! policyActor ctx in
  let orgID := tc_OrgID (tenant s ctx) in
  let domain := normalizeHost (bd_CustomDomain i) in
  do! claimGuard orgID domain in
  do! mapErr mapRepoErr (db (AccountStore.UpsertBranding (mkBranding orgID (bd_DisplayName i)
        (bd_LogoURL i) (bd_PrimaryColor i) (bd_EmailFrom i) domain))) in
  audit s ctx "branding.update" "organization" orgID (Some [("custom_domain", JStr domain)]).

Definition DomainAllowed (domain : str) : Svc bool :=
  let domain := normalizeHost domain in
  if domain =s "" then ret false
  else
    let! r := attempt (db (AccountStore.DomainRegistered domain)) in
    ret (match r with inr ok => ok | inl _ => false end).

(** ** features.go *)

Definition gatedFeatures : list str :=
  ["rbac_enforced"; "multi_user"; "sso"; "scheduled_backups"; "advanced_audit"; "white_label";
   "scim"; "self_serve_signup"; "billing"].

(** What a feature needs besides the entitlement. *)
Definition wired (f : str) : bool :=
  if f =s "rbac_enforced" then az_Enforces (s_Authz s)
  else if f =s "sso" then Accounts.SSOEnabled s
  else if f =s "scim" then cfg_SCIMEnabled (s_Settings s)
  else if f =s "billing" then s_BillingEnabled s
  else if f =s "self_serve_signup" then Accounts.signupEnabled s
  else true.

Definition Features ctx : gmap str bool :=
  let org := tc_OrgID (tenant s ctx) in
  <["sso_configured" := Accounts.SSOEnabled s]>
    (foldl (fun out f => <[f := dec_Allowed (ent_Allowed (s_Ent s) f org) && wired f]> out)
       ∅ gatedFeatures).

End OrgSettings.
End OrgSettings.
