(* ===== verification/Backups.v ===== *)
(** src/internal/service/backups.go and backup_scheduler.go: metadata backups, the
    drift report, backup schedules and the scheduler's tick.

    The files a run writes and removes are effects; what the host answers
    ([os.MkdirAll], [pg_dump], [os.Stat], the off-box upload) is a setting of the
    deployment. *)
From Stdlib Require Import Ascii.
From S2P Require Import Prelude GoStrings GoTime Storage Database Repository JobStore AuditLog Service.
#[local] Open Scope string_scope.

Module Backups.

(** ** path/filepath *)

(** [filepath.Clean]: the components kept so far are in reverse. *)
Definition clean_step (rooted : bool) (acc : list str) (c : str) : list str :=
  if (c =s "") || (c =s ".") then acc
  else if c =s ".." then
    match acc with
    | [] => if rooted then [] else [".."]
    | x :: rest => if x =s ".." then ".." :: acc else rest
    end
  else c :: acc.
Definition Clean (path : str) : str :=
  let rooted := HasPrefix path "/" in
  let body := Join (rev (foldl (clean_step rooted) [] (Split path "/"))) "/" in
  if rooted then "/" ++ body else if body =s "" then "." else body.
(** [filepath.Join] of two elements. *)
Definition PathJoin (dir name : str) : str :=
  if negb (dir =s "") then Clean (dir ++ "/" ++ name)
  else if negb (name =s "") then Clean name else "".
(** [filepath.Base] *)
Definition Base (path : str) : str :=
  if path =s "" then "."
  else
    let path := TrimRightByte path "/" in
    if path =s "" then "/" else List.last (Split path "/") "".

Record BackupDTO := mkBackupDTO {
  bkd_ID : str; bkd_Kind : str; bkd_Status : str; bkd_Path : str; bkd_SizeBytes : Z;
  bkd_Error : str; bkd_CreatedAt : Z; bkd_FinishedAt : option Z }.
Definition backupToDTO (b : BackupJob) : BackupDTO :=
  mkBackupDTO (bj_ID b) (bj_Kind b) (bj_Status b) (bj_Path b) (bj_SizeBytes b) (bj_Error b)
    (bj_CreatedAt b) (bj_FinishedAt b).

Record DriftDTO := mkDriftDTO {
  BucketsOnlyInDB : list str; BucketsOnlyInBackend : list str; InSync : bool }.

Record ScheduleDTO := mkScheduleDTO {
  sd_ID : str; sd_Enabled : bool; sd_IntervalMinutes : Z; sd_RetentionCount : Z;
  sd_OffsiteEnabled : bool; sd_NextRunAt : Z; sd_LastRunAt : option Z }.
Definition scheduleToDTO (sc : BackupSchedule) : ScheduleDTO :=
  mkScheduleDTO (bs_ID sc) (bs_Enabled sc) (bs_IntervalMinutes sc) (bs_RetentionCount sc)
    (bs_OffsiteEnabled sc) (bs_NextRunAt sc) (bs_LastRunAt sc).

Definition offsite_enabled (c : BackupOffsiteConfig) : bool :=
  negb (off_Bucket c =s "") && negb (off_AccessKey c =s "") && negb (off_Secret c =s "").

Section Backups.
Context {ENV : Env} {B : Type} (s : Services B).
#[local] Abbreviation Svc := (@Service.Svc B).
Implicit Types (ctx : Ctx).
Let cfg := s_Settings s.
Let host := cfg_Host cfg.

(** ** backups.go *)

Definition GetBackup ctx (id : str) : Svc BackupDTO :=
  let! b := mapErr mapRepoErr (db (JobStore.GetBackupJob id)) in
  guard! (bj_OrgID b =s tc_OrgID (tenant s ctx)) else notFoundErr in
  ret (backupToDTO b).

Definition backupUnavailableErr : Error :=
  mkError "backup_unavailable" "backups are not configured on this deployment" 503.

Definition backups_configured : bool :=
  negb ((cfg_DatabaseURL cfg =s "") || (cfg_BackupDir cfg =s "")).

Definition CreateBackup ctx : Svc BackupDTO :=
  do! authorize s ctx ActionCreate (mkTarget ResourceBackup "") in
  guard! backups_configured else backupUnavailableErr in
  let! id := mapErr mapRepoErr (db (JobStore.CreateBackupJob (tc_OrgID (tenant s ctx))
                                      "metadata")) in
  do! audit s ctx "backup.start" "backup" id None in
  do! fx (FxRunBackup id) in
  GetBackup ctx id.

(** [_ = s.Store.FinishBackupJob(...)] *)
Definition finish (id status path : str) (size : Z) (errMsg : str) : Svc unit :=
  ignore (db (JobStore.FinishBackupJob id status path size errMsg)).

(** The answer of the host at this point of the run. *)
Definition ask {A} (f : nat -> A) : Svc A :=
  let! w := get in ret (f (db_tick (w_db w))).

Definition dump_ext : str := match env_driver with SQLite => ".sqlite" | Postgres => ".dump" end.
Definition dump_err : str := match env_driver with SQLite => "vacuum into: " | Postgres => "pg_dump: " end.

(** The file is written, its size read (zero when that fails) and the job closed. *)
Definition dump (id path : str) : Svc unit :=
  let! out := ask (fun n => host_Dump host n path) in
  match out with
  | Some err => finish id "failed" "" 0 (dump_err ++ err)
  | None =>
      do! fx (FxWriteFile path) in
      let! size := ask (fun n => host_Size host n path) in
      finish id "succeeded" path (default 0%Z size) ""
  end.

Definition runBackup (id : str) : Svc unit :=
  do! ignore (db (JobStore.MarkBackupRunning id)) in
  let! mk := ask (host_Mkdir host) in
  match mk with
  | Some err => finish id "failed" "" 0 ("create backup dir: " ++ err)
  | None =>
      let! t := now in
      let path := PathJoin (cfg_BackupDir cfg)
                    ("buktio-metadata-" ++ Time.file_stamp t ++ dump_ext) in
      match env_driver with
      | SQLite => dump id path
      | Postgres =>
          match host_ParseURL host (cfg_DatabaseURL cfg) with
          | Some err => finish id "failed" "" 0 ("parse database url: " ++ err)
          | None => dump id path
          end
      end
  end.

Definition ListBackups ctx (limit : Z) : Svc (list BackupDTO) :=
  let! rows := mapErr mapRepoErr (db (JobStore.ListBackupJobs (tc_OrgID (tenant s ctx)) limit)) in
  ret (map backupToDTO rows).

(** The sets are Go maps: the loops over them visit their elements in some order. *)
Definition ReconcileReport ctx : Svc DriftDTO :=
  do! authorize s ctx ActionRead (mkTarget ResourceSystem "") in
  let! rows := mapErr mapRepoErr (db (Store.ListBuckets (tc_ProjectID (tenant s ctx)))) in
  let dbSet : gset str :=
    foldl (fun acc b => if b_ClusterID b =s s_ClusterID s
                        then {[ b_GarageGlobalAlias b ]} ∪ acc else acc) ∅ rows in
  let! bks := attempt (be (sp_ListBuckets (s_Provider s))) in
  let backendSet : gset str :=
    match bks with
    | inr l => foldl (fun acc b => foldl (fun acc a => {[ a ]} ∪ acc) acc (sb_GlobalAliases b)) ∅ l
    | inl _ => ∅
    end in
  let onlyDB := where_ (fun n => bool_decide (n ∉ backendSet)) (elements dbSet) in
  let onlyBackend := where_ (fun n => bool_decide (n ∉ dbSet)) (elements backendSet) in
  ret (mkDriftDTO onlyDB onlyBackend
         (Nat.eqb (length onlyDB) 0 && Nat.eqb (length onlyBackend) 0)).

(** ** backup_scheduler.go: requests *)

Definition scheduleByID ctx (id : str) : Svc ScheduleDTO :=
  let! rows := mapErr mapRepoErr (db (JobStore.ListBackupSchedules (tc_OrgID (tenant s ctx)))) in
  match head (where_ (fun r => bs_ID r =s id) rows) with
  | Some r => ret (scheduleToDTO r)
  | None => throw notFoundErr
  end.

Definition notEntitledErr : Error :=
  mkError "not_entitled" "scheduled backups are not in your plan" 402.

Definition CreateBackupSchedule ctx (intervalMin retention : Z) (offsite : bool)
    : Svc ScheduleDTO :=
  do! authorize s ctx ActionCreate (mkTarget ResourceBackup "") in
  let org := tc_OrgID (tenant s ctx) in
  guard! dec_Allowed (ent_Allowed (s_Ent s) "scheduled_backups" org) else notEntitledErr in
  let intervalMin := if (intervalMin <? 5)%Z then 5%Z else intervalMin in
  let retention := if (retention <? 1)%Z then 7%Z else retention in
  let! id := mapErr mapRepoErr (db (JobStore.CreateBackupSchedule org intervalMin retention
                                      offsite)) in
  do! audit s ctx "backup.schedule.create" "backup_schedule" id None in
  scheduleByID ctx id.

Definition ListBackupSchedules ctx : Svc (list ScheduleDTO) :=
  do! authorize s ctx ActionRead (mkTarget ResourceBackup "") in
  let! rows := mapErr mapRepoErr (db (JobStore.ListBackupSchedules (tc_OrgID (tenant s ctx)))) in
  ret (map scheduleToDTO rows).

Definition UpdateBackupSchedule ctx (id : str) (enabled : bool) (intervalMin retention : Z)
    (offsite : bool) : Svc unit :=
  do! authorize s ctx ActionUpdate (mkTarget ResourceBackup id) in
  let intervalMin := if (intervalMin <? 5)%Z then 5%Z else intervalMin in
  do! mapErr mapRepoErr (db (JobStore.UpdateBackupSchedule id (tc_OrgID (tenant s ctx)) enabled
                               intervalMin retention offsite)) in
  audit s ctx "backup.schedule.update" "backup_schedule" id None.

Definition DeleteBackupSchedule ctx (id : str) : Svc unit :=
  do! authorize s ctx ActionDelete (mkTarget ResourceBackup id) in
  do! mapErr mapRepoErr (db (JobStore.DeleteBackupSchedule id (tc_OrgID (tenant s ctx)))) in
  audit s ctx "backup.schedule.delete" "backup_schedule" id None.

(** ** The scheduler's tick *)

Definition offsiteCopy (jobID : str) : Svc unit :=
  if negb (offsite_enabled (cfg_BackupOffsite cfg)) then ret tt
  else
    let! r := attempt (db (JobStore.GetBackupJob jobID)) in
    match r with
    | inl _ => ret tt
    | inr job =>
        if negb (bj_Status job =s "succeeded") || (bj_Path job =s "") then ret tt
        else
          let! opened := ask (fun n => host_Open host n (bj_Path job)) in
          if negb opened then ret tt
          else
            let key := Base (bj_Path job) in
            let! up := ask (fun n => host_Upload host n key) in
            if negb up then ret tt
            else ignore (db (JobStore.SetBackupOffsiteURI jobID
                   ("s3://" ++ off_Bucket (cfg_BackupOffsite cfg) ++ "/" ++ key)))
    end.

(** The error of [os.Remove] is dropped. *)
Definition pruneBackups (orgID : str) (keep : Z) : Svc unit :=
  let keep := if (keep <? 1)%Z then 1%Z else keep in
  let! r := attempt (db (JobStore.SucceededBackupPathsBeyond orgID keep)) in
  match r with
  | inl _ => ret tt
  | inr paths => forM_ paths (fun p => fx (FxRemoveFile p))
  end.

Definition runSchedule (sc : BackupSchedule) : Svc unit :=
  let! r := attempt (db (JobStore.CreateBackupJobForSchedule (bs_OrgID sc) (bs_ID sc))) in
  match r with
  | inl _ => ret tt
  | inr id =>
      do! runBackup id in
      do! (if bs_OffsiteEnabled sc then offsiteCopy id else ret tt) in
      do! ignore (db (JobStore.MarkScheduleRan (bs_ID sc) (bs_IntervalMinutes sc))) in
      pruneBackups (bs_OrgID sc) (bs_RetentionCount sc)
  end.

Definition runDueBackups : Svc unit :=
  if negb backups_configured then ret tt
  else
    let! r := attempt (db JobStore.DueBackupSchedules) in
    match r with
    | inl _ => ret tt
    | inr due => forM_ due runSchedule
    end.

End Backups.
End Backups.
