(* ===== verification/Reports.v ===== *)
(** src/internal/service/dashboard.go, usage.go and snippets.go: what the panel
    reads (dashboard, audit log and its export, traffic and storage reports,
    connection snippets). *)
From Stdlib Require Import Ascii SpecFloat.
From S2P Require Import Prelude GoStrings GoTime Storage Database Repository JobStore AuditLog Service.
#[local] Open Scope string_scope.

Module Reports.

(** ** float64 *)

Definition float64 : Type := spec_float.
(** The conversion of an [int64], rounded to nearest even. *)
Definition float_of_int (z : Z) : float64 := binary_normalize 53 1024 z 0 false.
(** [float64(a) / float64(b) * 100] *)
Definition percent (a b : Z) : float64 :=
  SFmul 53 1024 (SFdiv 53 1024 (float_of_int a) (float_of_int b)) (float_of_int 100).

(** ** dashboard.go *)

Record ClusterHealthDTO := mkClusterHealthDTO {
  chd_Status : str; chd_Mode : str; chd_NodesTotal : Z; chd_NodesOK : Z }.
Record CapacityDTO := mkCapacityDTO {
  cap_DiskTotalBytes : Z; cap_DiskAvailBytes : Z; cap_UsedPct : float64 }.
Record TotalsDTO := mkTotalsDTO {
  tot_Buckets : nat; tot_AccessKeys : nat; tot_Objects : Z; tot_BytesUsed : Z }.
Record VersionsDTO := mkVersionsDTO { ver_Buktio : str; ver_StorageEngine : str }.
Record AlertDTO := mkAlertDTO { al_Level : str; al_Code : str; al_Message : str }.
Record DashboardDTO := mkDashboardDTO {
  dd_Cluster : ClusterHealthDTO; dd_Capacity : CapacityDTO; dd_Totals : TotalsDTO;
  dd_Versions : VersionsDTO; dd_Alerts : list AlertDTO; dd_S3Endpoint : str }.

Definition single_node_alert : AlertDTO :=
  mkAlertDTO "info" "single_node_no_redundancy"
    "Single-node deployment has no built-in data redundancy. Configure disk-level backups.".

(** The two sums over the nodes. *)
Definition node_sums (nodes : list NodeStatus) : Z * Z :=
  foldl (fun acc n => (add64 (fst acc) (ns_DiskUsed n), add64 (snd acc) (ns_DiskAvail n)))
    (0, 0)%Z nodes.
Definition capacity_of (nodes : list NodeStatus) : CapacityDTO :=
  let '(used, avail) := node_sums nodes in
  let total := add64 used avail in
  mkCapacityDTO total avail (if (0 <? total)%Z then percent used total else float_of_int 0).

Record AuditDTO := mkAuditDTO {
  ad_ID : Z; ad_Action : str; ad_ActorType : str; ad_ActorUserID : str; ad_TargetType : str;
  ad_TargetID : str; ad_Metadata : str; ad_CreatedAt : Z }.
Definition auditDTO (e : AuditRow) : AuditDTO :=
  mkAuditDTO (ar_ID e) (ar_Action e) (ar_ActorType e) (ar_ActorUserID e) (ar_TargetType e)
    (ar_TargetID e) (ar_Metadata e) (ar_CreatedAt e).
Record AuditFilterInput := mkAuditFilterInput {
  afi_From : option Z; afi_To : option Z; afi_Actor : str; afi_Action : str;
  afi_TargetType : str; afi_Limit : Z; afi_Offset : Z }.
Definition set_afi_Limit (v : Z) (i : AuditFilterInput) : AuditFilterInput :=
  mkAuditFilterInput (afi_From i) (afi_To i) (afi_Actor i) (afi_Action i) (afi_TargetType i) v
    (afi_Offset i).
Record AuditVerifyDTO := mkAuditVerifyDTO {
  avd_Checked : nat; avd_OK : bool; avd_BrokenID : Z; avd_BrokenWhy : str }.

(** ** encoding/csv: the Writer with its defaults *)

Definition dquote : ascii := Ascii.ascii_of_nat 34.
Definition lf : ascii := Ascii.ascii_of_nat 10.
Definition cr : ascii := Ascii.ascii_of_nat 13.
Definition needs_quote_char (c : ascii) : bool :=
  Ascii.eqb c "," || Ascii.eqb c dquote || Ascii.eqb c cr || Ascii.eqb c lf.
(** [fieldNeedsQuotes]; a leading space is one of the ASCII spaces. *)
Definition fieldNeedsQuotes (f : str) : bool :=
  match f with
  | "" => false
  | String c _ => (f =s "\.") || negb (str_all (fun c => negb (needs_quote_char c)) f) || is_space c
  end.
(** Doubles the quotes of a field. *)
Fixpoint escape_quotes (f : str) : str :=
  match f with
  | "" => ""
  | String c f' => if Ascii.eqb c dquote then String dquote (String dquote (escape_quotes f'))
                   else String c (escape_quotes f')
  end.
Definition csv_field (f : str) : str :=
  if fieldNeedsQuotes f then String dquote (escape_quotes f ++ String dquote "") else f.
Definition csv_record (fields : list str) : str := Join (map csv_field fields) "," ++ String lf "".
Definition csv_header : list str :=
  ["id"; "created_at"; "actor_type"; "actor_user_id"; "action"; "target_type"; "target_id"].

Inductive Export := ExportJSON (rows : list AuditDTO) | ExportCSV (text : str).
Definition contentType (e : Export) : str :=
  match e with ExportJSON _ => "application/json" | ExportCSV _ => "text/csv" end.

(** ** usage.go *)

Record TrafficDTO := mkTrafficDTO {
  td_AccessKeyID : str; td_KeyName : str; td_Requests : Z; td_BytesIn : Z; td_BytesOut : Z }.
Record StoragePointDTO := mkStoragePointDTO { spd_TS : Z; spd_BytesUsed : Z; spd_ObjectCount : Z }.
Record BucketUsageDTO := mkBucketUsageDTO {
  bud_BucketID : str; bud_Name : str; bud_BytesUsed : Z; bud_ObjectCount : Z;
  bud_QuotaMaxSize : option Z; bud_QuotaPct : option float64 }.

Definition hour : Z := 3600000000000.

(** ** snippets.go *)

Record SnippetsDTO := mkSnippetsDTO {
  sn_Endpoint : str; sn_Region : str; sn_Bucket : str; sn_AccessKeyID : str;
  sn_Addressing : str; sn_Signature : str; sn_Snippets : gmap str str }.
Definition secretPlaceholder : str := "<YOUR_SECRET_ACCESS_KEY>".
Definition nl : str := String lf "".

Definition snippet_texts (accessKeyID region endpoint bucket : str) : gmap str str :=
  let sec := secretPlaceholder in
  <["aws_cli" := "aws configure set aws_access_key_id " ++ accessKeyID ++ nl ++
      "aws configure set aws_secret_access_key " ++ sec ++ nl ++
      "aws configure set region " ++ region ++ nl ++
      "aws --endpoint-url " ++ endpoint ++ " s3 ls s3://" ++ bucket ++ "/"]>
  (<["rclone" := "[buktio]" ++ nl ++ "type = s3" ++ nl ++ "provider = Other" ++ nl ++
      "env_auth = false" ++ nl ++ "access_key_id = " ++ accessKeyID ++ nl ++
      "secret_access_key = " ++ sec ++ nl ++ "region = " ++ region ++ nl ++
      "endpoint = " ++ endpoint ++ nl ++ "force_path_style = true" ++ nl ++
      "# usage: rclone ls buktio:" ++ bucket]>
  (<["boto3" := "import boto3" ++ nl ++ "s3 = boto3.client(" ++ nl ++ "    's3'," ++ nl ++
      "    endpoint_url='" ++ endpoint ++ "'," ++ nl ++
      "    aws_access_key_id='" ++ accessKeyID ++ "'," ++ nl ++
      "    aws_secret_access_key='" ++ sec ++ "'," ++ nl ++
      "    region_name='" ++ region ++ "'," ++ nl ++
      "    config=boto3.session.Config(s3={'addressing_style': 'path'}, signature_version='s3v4'),"
      ++ nl ++ ")" ++ nl ++ "s3.upload_file('local.txt', '" ++ bucket ++ "', 'local.txt')"]>
  (<["node_sdk" := "import { S3Client, PutObjectCommand } from '@aws-sdk/client-s3';" ++ nl ++
      "const s3 = new S3Client({" ++ nl ++ "  endpoint: '" ++ endpoint ++ "'," ++ nl ++
      "  region: '" ++ region ++ "'," ++ nl ++ "  forcePathStyle: true," ++ nl ++
      "  credentials: { accessKeyId: '" ++ accessKeyID ++ "', secretAccessKey: '" ++ sec ++
      "' }," ++ nl ++ "});" ++ nl ++
      "await s3.send(new PutObjectCommand({ Bucket: '" ++ bucket ++
      "', Key: 'hello.txt', Body: 'hi' }));"]>
  (<["restic" := "export AWS_ACCESS_KEY_ID=" ++ accessKeyID ++ nl ++
      "export AWS_SECRET_ACCESS_KEY=" ++ sec ++ nl ++
      "export AWS_DEFAULT_REGION=" ++ region ++ nl ++
      "restic -r s3:" ++ endpoint ++ "/" ++ bucket ++ " init"]> ∅)))).

Section Reports.
Context {ENV : Env} {B : Type} (s : Services B).
(** [uuid.Parse] succeeds *)
Variable valid_uuid : str -> bool.
#[local] Abbreviation Svc := (@Service.Svc B).
Implicit Types (ctx : Ctx).
Let cfg := s_Settings s.

(** A count whose error is dropped is zero. *)
Definition or_default {A} (a : A) (m : M DB DBErr A) : Svc A :=
  let! r := attempt (db m) in ret (match r with inr x => x | inl _ => a end).

Definition Dashboard ctx : Svc DashboardDTO :=
  let! h := attempt (be (sp_GetClusterHealth (s_Provider s))) in
  let cluster := match h with
                 | inr h => mkClusterHealthDTO (ch_Status h) (cfg_ClusterMode cfg) (ch_KnownNodes h)
                              (ch_StorageNodesOK h)
                 | inl _ => mkClusterHealthDTO "unavailable" (cfg_ClusterMode cfg) 0 0
                 end in
  let! st := attempt (be (sp_GetClusterStatus (s_Provider s))) in
  let capacity := match st with
                  | inr st => capacity_of (cs_Nodes st)
                  | inl _ => mkCapacityDTO 0 0 (float_of_int 0)
                  end in
  let project := tc_ProjectID (tenant s ctx) in
  let! buckets := or_default 0 (Store.CountBuckets project) in
  let! keys := or_default 0 (Store.CountAccessKeys project) in
  let! usage := or_default (0, 0)%Z (Store.ProjectUsageTotals project) in
  ret (mkDashboardDTO cluster capacity (mkTotalsDTO buckets keys (snd usage) (fst usage))
         (mkVersionsDTO (cfg_Version cfg) (cfg_GarageVersion cfg)) [single_node_alert]
         (cfg_S3PublicEndpoint cfg)).

Definition auditEntries ctx (i : AuditFilterInput) : Svc (list AuditDTO) :=
  do! authorize s ctx ActionRead (mkTarget ResourceAudit "") in
  reject! negb (afi_Actor i =s "") && negb (valid_uuid (afi_Actor i))
    with validationErr "actor must be a valid user id" in
  let! entries := mapErr mapRepoErr (db (AuditLog.ListAuditFiltered
    (AuditLog.mkAuditFilter (tc_OrgID (tenant s ctx)) (afi_Actor i) (afi_Action i)
       (afi_TargetType i) (afi_From i) (afi_To i) (afi_Limit i) (afi_Offset i)))) in
  ret (map auditDTO entries).

Definition ListAudit ctx (i : AuditFilterInput) : Svc (list AuditDTO) := auditEntries ctx i.

Definition VerifyAuditChain ctx : Svc AuditVerifyDTO :=
  do! authorize s ctx ActionRead (mkTarget ResourceAudit "") in
  let! res := mapErr mapRepoErr (db (AuditLog.VerifyAuditChain (tc_OrgID (tenant s ctx)))) in
  ret (mkAuditVerifyDTO (AuditLog.av_Checked res) (AuditLog.av_OK res) (AuditLog.av_BrokenID res)
         (AuditLog.av_BrokenWhy res)).

(** One record; [time.RFC3339] has whole seconds. *)
Definition csv_fields (e : AuditDTO) : list str :=
  [Itoa (ad_ID e); Time.RFC3339 (ad_CreatedAt e); ad_ActorType e; ad_ActorUserID e; ad_Action e;
   ad_TargetType e; ad_TargetID e].
Definition csv_text (rows : list AuditDTO) : str :=
  Join (map csv_record (csv_header :: map csv_fields rows)) "".

Definition ExportAudit ctx (i : AuditFilterInput) (format : str) : Svc (Export * str) :=
  let i := if (afi_Limit i <=? 0)%Z then set_afi_Limit 5000 i else i in
  let! rows := auditEntries ctx i in
  let out := if format =s "json" then ExportJSON rows else ExportCSV (csv_text rows) in
  ret (out, contentType out).

(** [time.Now().Add(-time.Duration(hours) * time.Hour)] *)
Definition ago (hours : Z) : Svc Z :=
  let! t := now in ret (t + mul64 (wrap64 (- hours)) hour)%Z.

Definition TrafficUsage (hours : Z) : Svc (list TrafficDTO) :=
  let hours := if (hours <=? 0)%Z then 24%Z else hours in
  let! since := ago hours in
  let! rows := mapErr mapRepoErr (db (JobStore.TrafficByKey since)) in
  ret (map (fun r => mkTrafficDTO (JobStore.tk_AccessKeyID r) (JobStore.tk_KeyName r)
              (JobStore.tk_Requests r) (JobStore.tk_BytesIn r) (JobStore.tk_BytesOut r)) rows).

Definition series_step (hours : Z) : Z :=
  let step := Z.quot (mul64 hours 3600) 48 in if (step <? 300)%Z then 300%Z else step.

Definition StorageSeries ctx (hours : Z) : Svc (list StoragePointDTO) :=
  let hours := if (hours <=? 0)%Z then (24 * 7)%Z else hours in
  let! since := ago hours in
  let! pts := mapErr mapRepoErr (db (JobStore.StorageSeries (tc_ProjectID (tenant s ctx)) since
                                       (series_step hours))) in
  ret (map (fun p => mkStoragePointDTO (JobStore.sp_TS p) (JobStore.sp_BytesUsed p)
                       (JobStore.sp_ObjectCount p)) pts).

Definition bucketUsageDTO (r : Store.BucketUsageRow) : BucketUsageDTO :=
  mkBucketUsageDTO (Store.bur_BucketID r) (Store.bur_Name r) (Store.bur_BytesUsed r)
    (Store.bur_ObjectCount r) (Store.bur_QuotaMaxSize r)
    (match Store.bur_QuotaMaxSize r with
     | Some q => if (0 <? q)%Z then Some (percent (Store.bur_BytesUsed r) q) else None
     | None => None
     end).

(** [sort.Slice] by decreasing size; the order of equal sizes is not specified. *)
Definition BucketUsage ctx : Svc (list BucketUsageDTO) :=
  let! rows := mapErr mapRepoErr (db (Store.BucketUsageList (tc_ProjectID (tenant s ctx)))) in
  ret (desc bud_BytesUsed (map bucketUsageDTO rows)).

(** The bucket is loaded by id alone. *)
Definition Snippets (bucketID accessKeyID : str) : Svc SnippetsDTO :=
  let! bucket := (if bucketID =s "" then ret "my-bucket"
                  else let! b := mapErr mapRepoErr (db (Store.GetBucket bucketID)) in
                       ret (b_GarageGlobalAlias b)) in
  let accessKeyID := if accessKeyID =s "" then "<YOUR_ACCESS_KEY_ID>" else accessKeyID in
  let endpoint := if cfg_S3PublicEndpoint cfg =s "" then "https://your-host/s3"
                  else cfg_S3PublicEndpoint cfg in
  let region := if cfg_S3Region cfg =s "" then "garage" else cfg_S3Region cfg in
  ret (mkSnippetsDTO endpoint region bucket accessKeyID "path-style" "s3v4"
         (snippet_texts accessKeyID region endpoint bucket)).

End Reports.
End Reports.
