(* ===== verification/Requests.v ===== *)
(** The request bodies of src/internal/httpapi: one record per request struct, its
    zero value and its decoder with the keys of the json tags. *)
From S2P Require Import Prelude GoStrings Storage Json.
#[local] Open Scope string_scope.

Module Requests.

(** ** buckets.go *)

Record createBucketReq := mkcreateBucketReq { cb_Name : str; cb_QuotaMaxBytes : option
  Z; cb_QuotaMaxObjects : option Z; cb_ClusterID : str }.
Definition zero_createBucketReq : createBucketReq := mkcreateBucketReq "" None None "".
Definition dec_createBucketReq : Json.Decoder createBucketReq := Json.struct [
  Json.field "name" cb_Name
    (fun x r => mkcreateBucketReq x (cb_QuotaMaxBytes r) (cb_QuotaMaxObjects r) (cb_ClusterID r)) Json.string_;
  Json.field "quota_max_bytes" cb_QuotaMaxBytes
    (fun x r => mkcreateBucketReq (cb_Name r) x (cb_QuotaMaxObjects r) (cb_ClusterID r)) (Json.pointer 0%Z Json.int_);
  Json.field "quota_max_objects" cb_QuotaMaxObjects
    (fun x r => mkcreateBucketReq (cb_Name r) (cb_QuotaMaxBytes r) x (cb_ClusterID r)) (Json.pointer 0%Z Json.int_);
  Json.field "cluster_id" cb_ClusterID
    (fun x r => mkcreateBucketReq (cb_Name r) (cb_QuotaMaxBytes r) (cb_QuotaMaxObjects r) x) Json.string_].

Record patchBucketReq := mkpatchBucketReq { pb_QuotaMaxBytes : option Z;
  pb_QuotaMaxObjects : option Z }.
Definition zero_patchBucketReq : patchBucketReq := mkpatchBucketReq None None.
Definition dec_patchBucketReq : Json.Decoder patchBucketReq := Json.struct [
  Json.field "quota_max_bytes" pb_QuotaMaxBytes
    (fun x r => mkpatchBucketReq x (pb_QuotaMaxObjects r)) (Json.pointer 0%Z Json.int_);
  Json.field "quota_max_objects" pb_QuotaMaxObjects
    (fun x r => mkpatchBucketReq (pb_QuotaMaxBytes r) x) (Json.pointer 0%Z Json.int_)].

Record setAccessReq := mksetAccessReq { sa_Public : bool; sa_IndexDocument : str;
  sa_ErrorDocument : str }.
Definition zero_setAccessReq : setAccessReq := mksetAccessReq false "" "".
Definition dec_setAccessReq : Json.Decoder setAccessReq := Json.struct [
  Json.field "public" sa_Public
    (fun x r => mksetAccessReq x (sa_IndexDocument r) (sa_ErrorDocument r)) Json.bool_;
  Json.field "index_document" sa_IndexDocument
    (fun x r => mksetAccessReq (sa_Public r) x (sa_ErrorDocument r)) Json.string_;
  Json.field "error_document" sa_ErrorDocument
    (fun x r => mksetAccessReq (sa_Public r) (sa_IndexDocument r) x) Json.string_].

(** ** keys.go *)

Record grantReq := mkgrantReq { gr_BucketID : str; gr_Read : bool; gr_Write : bool;
  gr_Owner : bool }.
Definition zero_grantReq : grantReq := mkgrantReq "" false false false.
Definition dec_grantReq : Json.Decoder grantReq := Json.struct [
  Json.field "bucket_id" gr_BucketID
    (fun x r => mkgrantReq x (gr_Read r) (gr_Write r) (gr_Owner r)) Json.string_;
  Json.field "read" gr_Read
    (fun x r => mkgrantReq (gr_BucketID r) x (gr_Write r) (gr_Owner r)) Json.bool_;
  Json.field "write" gr_Write
    (fun x r => mkgrantReq (gr_BucketID r) (gr_Read r) x (gr_Owner r)) Json.bool_;
  Json.field "owner" gr_Owner
    (fun x r => mkgrantReq (gr_BucketID r) (gr_Read r) (gr_Write r) x) Json.bool_].

Record createKeyReq := mkcreateKeyReq { ck_Name : str; ck_AllowCreateBucket : bool;
  ck_Grants : list grantReq }.
Definition zero_createKeyReq : createKeyReq := mkcreateKeyReq "" false [].
Definition dec_createKeyReq : Json.Decoder createKeyReq := Json.struct [
  Json.field "name" ck_Name
    (fun x r => mkcreateKeyReq x (ck_AllowCreateBucket r) (ck_Grants r)) Json.string_;
  Json.field "allow_create_bucket" ck_AllowCreateBucket
    (fun x r => mkcreateKeyReq (ck_Name r) x (ck_Grants r)) Json.bool_;
  Json.field "grants" ck_Grants
    (fun x r => mkcreateKeyReq (ck_Name r) (ck_AllowCreateBucket r) x) (Json.slice zero_grantReq dec_grantReq)].

(** ** objects.go *)

Record deleteObjectsReq := mkdeleteObjectsReq { do_Keys : list str }.
Definition zero_deleteObjectsReq : deleteObjectsReq := mkdeleteObjectsReq [].
Definition dec_deleteObjectsReq : Json.Decoder deleteObjectsReq := Json.struct [
  Json.field "keys" do_Keys
    (fun x _ => mkdeleteObjectsReq x) (Json.slice "" Json.string_)].

Record presignReq := mkpresignReq { ps_Operation : str; ps_Key : str; ps_ExpiresIn : Z;
  ps_ContentType : str }.
Definition zero_presignReq : presignReq := mkpresignReq "" "" 0%Z "".
Definition dec_presignReq : Json.Decoder presignReq := Json.struct [
  Json.field "operation" ps_Operation
    (fun x r => mkpresignReq x (ps_Key r) (ps_ExpiresIn r) (ps_ContentType r)) Json.string_;
  Json.field "key" ps_Key
    (fun x r => mkpresignReq (ps_Operation r) x (ps_ExpiresIn r) (ps_ContentType r)) Json.string_;
  Json.field "expires_in" ps_ExpiresIn
    (fun x r => mkpresignReq (ps_Operation r) (ps_Key r) x (ps_ContentType r)) Json.int_;
  Json.field "content_type" ps_ContentType
    (fun x r => mkpresignReq (ps_Operation r) (ps_Key r) (ps_ExpiresIn r) x) Json.string_].

Record copyMoveReq := mkcopyMoveReq { cm_SrcKey : str; cm_DstKey : str }.
Definition zero_copyMoveReq : copyMoveReq := mkcopyMoveReq "" "".
Definition dec_copyMoveReq : Json.Decoder copyMoveReq := Json.struct [
  Json.field "src_key" cm_SrcKey
    (fun x r => mkcopyMoveReq x (cm_DstKey r)) Json.string_;
  Json.field "dst_key" cm_DstKey
    (fun x r => mkcopyMoveReq (cm_SrcKey r) x) Json.string_].

(** ** cors_lifecycle.go *)

Definition zero_CORSRule : CORSRule := mkCORSRule [] [] [] [] 0%Z.
Definition dec_CORSRule : Json.Decoder CORSRule := Json.struct [
  Json.field "allowed_origins" cors_AllowedOrigins
    (fun x r => mkCORSRule x (cors_AllowedMethods r) (cors_AllowedHeaders r) (cors_ExposeHeaders r) (cors_MaxAgeSeconds r)) (Json.slice "" Json.string_);
  Json.field "allowed_methods" cors_AllowedMethods
    (fun x r => mkCORSRule (cors_AllowedOrigins r) x (cors_AllowedHeaders r) (cors_ExposeHeaders r) (cors_MaxAgeSeconds r)) (Json.slice "" Json.string_);
  Json.field "allowed_headers" cors_AllowedHeaders
    (fun x r => mkCORSRule (cors_AllowedOrigins r) (cors_AllowedMethods r) x (cors_ExposeHeaders r) (cors_MaxAgeSeconds r)) (Json.slice "" Json.string_);
  Json.field "expose_headers" cors_ExposeHeaders
    (fun x r => mkCORSRule (cors_AllowedOrigins r) (cors_AllowedMethods r) (cors_AllowedHeaders r) x (cors_MaxAgeSeconds r)) (Json.slice "" Json.string_);
  Json.field "max_age_seconds" cors_MaxAgeSeconds
    (fun x r => mkCORSRule (cors_AllowedOrigins r) (cors_AllowedMethods r) (cors_AllowedHeaders r) (cors_ExposeHeaders r) x) Json.int_].

Definition zero_LifecycleRule : LifecycleRule := mkLifecycleRule "" "" false 0%Z 0%Z.
Definition dec_LifecycleRule : Json.Decoder LifecycleRule := Json.struct [
  Json.field "id" lr_ID
    (fun x r => mkLifecycleRule x (lr_Prefix r) (lr_Enabled r) (lr_ExpireDays r) (lr_AbortIncompleteMPUDays r)) Json.string_;
  Json.field "prefix" lr_Prefix
    (fun x r => mkLifecycleRule (lr_ID r) x (lr_Enabled r) (lr_ExpireDays r) (lr_AbortIncompleteMPUDays r)) Json.string_;
  Json.field "enabled" lr_Enabled
    (fun x r => mkLifecycleRule (lr_ID r) (lr_Prefix r) x (lr_ExpireDays r) (lr_AbortIncompleteMPUDays r)) Json.bool_;
  Json.field "expire_days" lr_ExpireDays
    (fun x r => mkLifecycleRule (lr_ID r) (lr_Prefix r) (lr_Enabled r) x (lr_AbortIncompleteMPUDays r)) Json.int_;
  Json.field "abort_incomplete_mpu_days" lr_AbortIncompleteMPUDays
    (fun x r => mkLifecycleRule (lr_ID r) (lr_Prefix r) (lr_Enabled r) (lr_ExpireDays r) x) Json.int_].

Record setCORSReq := mksetCORSReq { sc_Rules : list CORSRule }.
Definition zero_setCORSReq : setCORSReq := mksetCORSReq [].
Definition dec_setCORSReq : Json.Decoder setCORSReq := Json.struct [
  Json.field "rules" sc_Rules
    (fun x _ => mksetCORSReq x) (Json.slice zero_CORSRule dec_CORSRule)].

Record setLifecycleReq := mksetLifecycleReq { sl_Rules : list LifecycleRule }.
Definition zero_setLifecycleReq : setLifecycleReq := mksetLifecycleReq [].
Definition dec_setLifecycleReq : Json.Decoder setLifecycleReq := Json.struct [
  Json.field "rules" sl_Rules
    (fun x _ => mksetLifecycleReq x) (Json.slice zero_LifecycleRule dec_LifecycleRule)].

(** ** versions.go *)

Record setVersioningReq := mksetVersioningReq { sv_Enabled : bool }.
Definition zero_setVersioningReq : setVersioningReq := mksetVersioningReq false.
Definition dec_setVersioningReq : Json.Decoder setVersioningReq := Json.struct [
  Json.field "enabled" sv_Enabled
    (fun x _ => mksetVersioningReq x) Json.bool_].

Record versionRef := mkversionRef { vr_Key : str; vr_VersionID : str }.
Definition zero_versionRef : versionRef := mkversionRef "" "".
Definition dec_versionRef : Json.Decoder versionRef := Json.struct [
  Json.field "key" vr_Key
    (fun x r => mkversionRef x (vr_VersionID r)) Json.string_;
  Json.field "version_id" vr_VersionID
    (fun x r => mkversionRef (vr_Key r) x) Json.string_].

(** ** webhooks.go *)

Record createWebhookReq := mkcreateWebhookReq { cw_URL : str; cw_Events : list str;
  cw_Secret : str }.
Definition zero_createWebhookReq : createWebhookReq := mkcreateWebhookReq "" [] "".
Definition dec_createWebhookReq : Json.Decoder createWebhookReq := Json.struct [
  Json.field "url" cw_URL
    (fun x r => mkcreateWebhookReq x (cw_Events r) (cw_Secret r)) Json.string_;
  Json.field "events" cw_Events
    (fun x r => mkcreateWebhookReq (cw_URL r) x (cw_Secret r)) (Json.slice "" Json.string_);
  Json.field "secret" cw_Secret
    (fun x r => mkcreateWebhookReq (cw_URL r) (cw_Events r) x) Json.string_].

(** ** replications.go *)

Record startReplicationReq := mkstartReplicationReq { sr_DstBucketID : str }.
Definition zero_startReplicationReq : startReplicationReq := mkstartReplicationReq "".
Definition dec_startReplicationReq : Json.Decoder startReplicationReq := Json.struct [
  Json.field "dst_bucket_id" sr_DstBucketID
    (fun x _ => mkstartReplicationReq x) Json.string_].

(** ** members.go *)

Record inviteReq := mkinviteReq { iv_Email : str; iv_Role : str }.
Definition zero_inviteReq : inviteReq := mkinviteReq "" "".
Definition dec_inviteReq : Json.Decoder inviteReq := Json.struct [
  Json.field "email" iv_Email
    (fun x r => mkinviteReq x (iv_Role r)) Json.string_;
  Json.field "role" iv_Role
    (fun x r => mkinviteReq (iv_Email r) x) Json.string_].

Record roleReq := mkroleReq { rr_Role : str }.
Definition zero_roleReq : roleReq := mkroleReq "".
Definition dec_roleReq : Json.Decoder roleReq := Json.struct [
  Json.field "role" rr_Role
    (fun x _ => mkroleReq x) Json.string_].

Record acceptInviteReq := mkacceptInviteReq { ai_Token : str; ai_Password : str;
  ai_FullName : str }.
Definition zero_acceptInviteReq : acceptInviteReq := mkacceptInviteReq "" "" "".
Definition dec_acceptInviteReq : Json.Decoder acceptInviteReq := Json.struct [
  Json.field "token" ai_Token
    (fun x r => mkacceptInviteReq x (ai_Password r) (ai_FullName r)) Json.string_;
  Json.field "password" ai_Password
    (fun x r => mkacceptInviteReq (ai_Token r) x (ai_FullName r)) Json.string_;
  Json.field "full_name" ai_FullName
    (fun x r => mkacceptInviteReq (ai_Token r) (ai_Password r) x) Json.string_].

(** ** tenants.go *)

Record suspendReq := mksuspendReq { su_Reason : str }.
Definition zero_suspendReq : suspendReq := mksuspendReq "".
Definition dec_suspendReq : Json.Decoder suspendReq := Json.struct [
  Json.field "reason" su_Reason
    (fun x _ => mksuspendReq x) Json.string_].

Record quotaReq := mkquotaReq { qr_MaxBytes : option Z }.
Definition zero_quotaReq : quotaReq := mkquotaReq None.
Definition dec_quotaReq : Json.Decoder quotaReq := Json.struct [
  Json.field "max_bytes" qr_MaxBytes
    (fun x _ => mkquotaReq x) (Json.pointer 0%Z Json.int_)].

Record assignClusterReq := mkassignClusterReq { ac_ClusterID : str; ac_Default : bool }.
Definition zero_assignClusterReq : assignClusterReq := mkassignClusterReq "" false.
Definition dec_assignClusterReq : Json.Decoder assignClusterReq := Json.struct [
  Json.field "cluster_id" ac_ClusterID
    (fun x r => mkassignClusterReq x (ac_Default r)) Json.string_;
  Json.field "default" ac_Default
    (fun x r => mkassignClusterReq (ac_ClusterID r) x) Json.bool_].

Record tenantClusterReq := mktenantClusterReq { tc_Mode : str }.
Definition zero_tenantClusterReq : tenantClusterReq := mktenantClusterReq "".
Definition dec_tenantClusterReq : Json.Decoder tenantClusterReq := Json.struct [
  Json.field "mode" tc_Mode
    (fun x _ => mktenantClusterReq x) Json.string_].

Record scimTokenReq := mkscimTokenReq { st_Name : str }.
Definition zero_scimTokenReq : scimTokenReq := mkscimTokenReq "".
Definition dec_scimTokenReq : Json.Decoder scimTokenReq := Json.struct [
  Json.field "name" st_Name
    (fun x _ => mkscimTokenReq x) Json.string_].

(** ** nodes.go *)

Record addNodeReq := mkaddNodeReq { an_NodeID : str; an_Peer : str; an_Zone : str;
  an_CapacityBytes : Z }.
Definition zero_addNodeReq : addNodeReq := mkaddNodeReq "" "" "" 0%Z.
Definition dec_addNodeReq : Json.Decoder addNodeReq := Json.struct [
  Json.field "node_id" an_NodeID
    (fun x r => mkaddNodeReq x (an_Peer r) (an_Zone r) (an_CapacityBytes r)) Json.string_;
  Json.field "peer" an_Peer
    (fun x r => mkaddNodeReq (an_NodeID r) x (an_Zone r) (an_CapacityBytes r)) Json.string_;
  Json.field "zone" an_Zone
    (fun x r => mkaddNodeReq (an_NodeID r) (an_Peer r) x (an_CapacityBytes r)) Json.string_;
  Json.field "capacity_bytes" an_CapacityBytes
    (fun x r => mkaddNodeReq (an_NodeID r) (an_Peer r) (an_Zone r) x) Json.int_].

(** ** clusters.go *)

Record addClusterReq := mkaddClusterReq { acl_Name : str; acl_Provider : str;
  acl_S3Endpoint : str; acl_S3Region : str; acl_AccessKeyID : str; acl_SecretAccessKey :
  str; acl_PublicEndpoint : str }.
Definition zero_addClusterReq : addClusterReq := mkaddClusterReq "" "" "" "" "" "" "".
Definition dec_addClusterReq : Json.Decoder addClusterReq := Json.struct [
  Json.field "name" acl_Name
    (fun x r => mkaddClusterReq x (acl_Provider r) (acl_S3Endpoint r) (acl_S3Region r) (acl_AccessKeyID r) (acl_SecretAccessKey r) (acl_PublicEndpoint r)) Json.string_;
  Json.field "provider" acl_Provider
    (fun x r => mkaddClusterReq (acl_Name r) x (acl_S3Endpoint r) (acl_S3Region r) (acl_AccessKeyID r) (acl_SecretAccessKey r) (acl_PublicEndpoint r)) Json.string_;
  Json.field "s3_endpoint" acl_S3Endpoint
    (fun x r => mkaddClusterReq (acl_Name r) (acl_Provider r) x (acl_S3Region r) (acl_AccessKeyID r) (acl_SecretAccessKey r) (acl_PublicEndpoint r)) Json.string_;
  Json.field "s3_region" acl_S3Region
    (fun x r => mkaddClusterReq (acl_Name r) (acl_Provider r) (acl_S3Endpoint r) x (acl_AccessKeyID r) (acl_SecretAccessKey r) (acl_PublicEndpoint r)) Json.string_;
  Json.field "access_key_id" acl_AccessKeyID
    (fun x r => mkaddClusterReq (acl_Name r) (acl_Provider r) (acl_S3Endpoint r) (acl_S3Region r) x (acl_SecretAccessKey r) (acl_PublicEndpoint r)) Json.string_;
  Json.field "secret_access_key" acl_SecretAccessKey
    (fun x r => mkaddClusterReq (acl_Name r) (acl_Provider r) (acl_S3Endpoint r) (acl_S3Region r) (acl_AccessKeyID r) x (acl_PublicEndpoint r)) Json.string_;
  Json.field "public_endpoint" acl_PublicEndpoint
    (fun x r => mkaddClusterReq (acl_Name r) (acl_Provider r) (acl_S3Endpoint r) (acl_S3Region r) (acl_AccessKeyID r) (acl_SecretAccessKey r) x) Json.string_].

(** ** branding.go *)

Record setBrandingReq := mksetBrandingReq { sb_DisplayName : str; sb_LogoURL : str;
  sb_PrimaryColor : str; sb_EmailFrom : str; sb_CustomDomain : str }.
Definition zero_setBrandingReq : setBrandingReq := mksetBrandingReq "" "" "" "" "".
Definition dec_setBrandingReq : Json.Decoder setBrandingReq := Json.struct [
  Json.field "display_name" sb_DisplayName
    (fun x r => mksetBrandingReq x (sb_LogoURL r) (sb_PrimaryColor r) (sb_EmailFrom r) (sb_CustomDomain r)) Json.string_;
  Json.field "logo_url" sb_LogoURL
    (fun x r => mksetBrandingReq (sb_DisplayName r) x (sb_PrimaryColor r) (sb_EmailFrom r) (sb_CustomDomain r)) Json.string_;
  Json.field "primary_color" sb_PrimaryColor
    (fun x r => mksetBrandingReq (sb_DisplayName r) (sb_LogoURL r) x (sb_EmailFrom r) (sb_CustomDomain r)) Json.string_;
  Json.field "email_from" sb_EmailFrom
    (fun x r => mksetBrandingReq (sb_DisplayName r) (sb_LogoURL r) (sb_PrimaryColor r) x (sb_CustomDomain r)) Json.string_;
  Json.field "custom_domain" sb_CustomDomain
    (fun x r => mksetBrandingReq (sb_DisplayName r) (sb_LogoURL r) (sb_PrimaryColor r) (sb_EmailFrom r) x) Json.string_].

(** ** policies.go *)

Record createPolicyReq := mkcreatePolicyReq { cp_Name : str; cp_Template : str;
  cp_Config : gmap str str; cp_Roles : list str }.
Definition zero_createPolicyReq : createPolicyReq := mkcreatePolicyReq "" "" ∅ [].
Definition dec_createPolicyReq : Json.Decoder createPolicyReq := Json.struct [
  Json.field "name" cp_Name
    (fun x r => mkcreatePolicyReq x (cp_Template r) (cp_Config r) (cp_Roles r)) Json.string_;
  Json.field "template" cp_Template
    (fun x r => mkcreatePolicyReq (cp_Name r) x (cp_Config r) (cp_Roles r)) Json.string_;
  Json.field "config" cp_Config
    (fun x r => mkcreatePolicyReq (cp_Name r) (cp_Template r) x (cp_Roles r)) Json.string_map;
  Json.field "roles" cp_Roles
    (fun x r => mkcreatePolicyReq (cp_Name r) (cp_Template r) (cp_Config r) x) (Json.slice "" Json.string_)].

Record policyEnabledReq := mkpolicyEnabledReq { pe_Enabled : bool }.
Definition zero_policyEnabledReq : policyEnabledReq := mkpolicyEnabledReq false.
Definition dec_policyEnabledReq : Json.Decoder policyEnabledReq := Json.struct [
  Json.field "enabled" pe_Enabled
    (fun x _ => mkpolicyEnabledReq x) Json.bool_].

(** ** migrations.go *)

Record startMigrationReq := mkstartMigrationReq { sm_SourceEndpoint : str;
  sm_SourceRegion : str; sm_SourceBucket : str; sm_AccessKeyID : str; sm_SecretAccessKey
  : str; sm_DestBucketID : str }.
Definition zero_startMigrationReq : startMigrationReq := mkstartMigrationReq "" "" "" "" "" "".
Definition dec_startMigrationReq : Json.Decoder startMigrationReq := Json.struct [
  Json.field "source_endpoint" sm_SourceEndpoint
    (fun x r => mkstartMigrationReq x (sm_SourceRegion r) (sm_SourceBucket r) (sm_AccessKeyID r) (sm_SecretAccessKey r) (sm_DestBucketID r)) Json.string_;
  Json.field "source_region" sm_SourceRegion
    (fun x r => mkstartMigrationReq (sm_SourceEndpoint r) x (sm_SourceBucket r) (sm_AccessKeyID r) (sm_SecretAccessKey r) (sm_DestBucketID r)) Json.string_;
  Json.field "source_bucket" sm_SourceBucket
    (fun x r => mkstartMigrationReq (sm_SourceEndpoint r) (sm_SourceRegion r) x (sm_AccessKeyID r) (sm_SecretAccessKey r) (sm_DestBucketID r)) Json.string_;
  Json.field "access_key_id" sm_AccessKeyID
    (fun x r => mkstartMigrationReq (sm_SourceEndpoint r) (sm_SourceRegion r) (sm_SourceBucket r) x (sm_SecretAccessKey r) (sm_DestBucketID r)) Json.string_;
  Json.field "secret_access_key" sm_SecretAccessKey
    (fun x r => mkstartMigrationReq (sm_SourceEndpoint r) (sm_SourceRegion r) (sm_SourceBucket r) (sm_AccessKeyID r) x (sm_DestBucketID r)) Json.string_;
  Json.field "dest_bucket_id" sm_DestBucketID
    (fun x r => mkstartMigrationReq (sm_SourceEndpoint r) (sm_SourceRegion r) (sm_SourceBucket r) (sm_AccessKeyID r) (sm_SecretAccessKey r) x) Json.string_].

(** ** backup_schedules.go *)

Record scheduleReq := mkscheduleReq { sch_Enabled : bool; sch_IntervalMinutes : Z;
  sch_RetentionCount : Z; sch_OffsiteEnabled : bool }.
Definition zero_scheduleReq : scheduleReq := mkscheduleReq false 0%Z 0%Z false.
Definition dec_scheduleReq : Json.Decoder scheduleReq := Json.struct [
  Json.field "enabled" sch_Enabled
    (fun x r => mkscheduleReq x (sch_IntervalMinutes r) (sch_RetentionCount r) (sch_OffsiteEnabled r)) Json.bool_;
  Json.field "interval_minutes" sch_IntervalMinutes
    (fun x r => mkscheduleReq (sch_Enabled r) x (sch_RetentionCount r) (sch_OffsiteEnabled r)) Json.int_;
  Json.field "retention_count" sch_RetentionCount
    (fun x r => mkscheduleReq (sch_Enabled r) (sch_IntervalMinutes r) x (sch_OffsiteEnabled r)) Json.int_;
  Json.field "offsite_enabled" sch_OffsiteEnabled
    (fun x r => mkscheduleReq (sch_Enabled r) (sch_IntervalMinutes r) (sch_RetentionCount r) x) Json.bool_].

(** ** billing.go *)

Record setupBillingReq := mksetupBillingReq { sbi_Email : str }.
Definition zero_setupBillingReq : setupBillingReq := mksetupBillingReq "".
Definition dec_setupBillingReq : Json.Decoder setupBillingReq := Json.struct [
  Json.field "email" sbi_Email
    (fun x _ => mksetupBillingReq x) Json.string_].

(** ** api_tokens.go *)

Record createTokenReq := mkcreateTokenReq { ct_Name : str; ct_ExpiresIn : Z }.
Definition zero_createTokenReq : createTokenReq := mkcreateTokenReq "" 0%Z.
Definition dec_createTokenReq : Json.Decoder createTokenReq := Json.struct [
  Json.field "name" ct_Name
    (fun x r => mkcreateTokenReq x (ct_ExpiresIn r)) Json.string_;
  Json.field "expires_in_days" ct_ExpiresIn
    (fun x r => mkcreateTokenReq (ct_Name r) x) Json.int_].

(** ** auth.go *)

Record createAdminReq := mkcreateAdminReq { ca_Email : str; ca_Password : str;
  ca_FullName : str }.
Definition zero_createAdminReq : createAdminReq := mkcreateAdminReq "" "" "".
Definition dec_createAdminReq : Json.Decoder createAdminReq := Json.struct [
  Json.field "email" ca_Email
    (fun x r => mkcreateAdminReq x (ca_Password r) (ca_FullName r)) Json.string_;
  Json.field "password" ca_Password
    (fun x r => mkcreateAdminReq (ca_Email r) x (ca_FullName r)) Json.string_;
  Json.field "full_name" ca_FullName
    (fun x r => mkcreateAdminReq (ca_Email r) (ca_Password r) x) Json.string_].

Record loginReq := mkloginReq { lo_Email : str; lo_Password : str }.
Definition zero_loginReq : loginReq := mkloginReq "" "".
Definition dec_loginReq : Json.Decoder loginReq := Json.struct [
  Json.field "email" lo_Email
    (fun x r => mkloginReq x (lo_Password r)) Json.string_;
  Json.field "password" lo_Password
    (fun x r => mkloginReq (lo_Email r) x) Json.string_].

(** ** signup.go *)

Record signupReq := mksignupReq { sg_Email : str; sg_Password : str; sg_OrgName : str }.
Definition zero_signupReq : signupReq := mksignupReq "" "" "".
Definition dec_signupReq : Json.Decoder signupReq := Json.struct [
  Json.field "email" sg_Email
    (fun x r => mksignupReq x (sg_Password r) (sg_OrgName r)) Json.string_;
  Json.field "password" sg_Password
    (fun x r => mksignupReq (sg_Email r) x (sg_OrgName r)) Json.string_;
  Json.field "org_name" sg_OrgName
    (fun x r => mksignupReq (sg_Email r) (sg_Password r) x) Json.string_].

Record verifyReq := mkverifyReq { ve_Token : str }.
Definition zero_verifyReq : verifyReq := mkverifyReq "".
Definition dec_verifyReq : Json.Decoder verifyReq := Json.struct [
  Json.field "token" ve_Token
    (fun x _ => mkverifyReq x) Json.string_].

Record resendReq := mkresendReq { rs_Email : str }.
Definition zero_resendReq : resendReq := mkresendReq "".
Definition dec_resendReq : Json.Decoder resendReq := Json.struct [
  Json.field "email" rs_Email
    (fun x _ => mkresendReq x) Json.string_].

End Requests.
