(* ===== verification/HttpAuth.v ===== *)
(** src/internal/httpapi: auth.go (sessions, the authentication middleware),
    signup.go and sso.go (the public sign-up and single-sign-on handlers),
    middleware.go (headers, the metrics guard), respond.go (error envelopes).

    A handler is a computation that always yields a response; a service error
    becomes one through [writeErr].  The decoded request body is an argument: [inl]
    is a body the JSON decoder refuses. *)
From Stdlib Require Import Ascii.
From S2P Require Import Prelude GoStrings Storage Database Repository AccountStore AuditLog Service Buckets Objects Members Tenants Billing Migrations Webhooks Clusters Replications Accounts Settings Backups Reports.
#[local] Open Scope string_scope.

Module Http.

(** ** Requests and responses *)

Record Request := mkRequest {
  rq_Method : str; rq_Headers : gmap str str; rq_Cookies : list (str * str);
  rq_Query : gmap str str; rq_RemoteAddr : str; rq_TLS : bool }.
(** [r.Header.Get] and [r.URL.Query().Get]: empty when absent. *)
Definition header (r : Request) (name : str) : str := default "" (rq_Headers r !! name).
Definition query_param (r : Request) (name : str) : str := default "" (rq_Query r !! name).
(** [r.Cookie]: the first cookie of that name. *)
Definition cookie (r : Request) (name : str) : option str :=
  snd <$> head (where_ (fun c => fst c =s name) (rq_Cookies r)).

(** [http.Cookie]; every cookie has the path "/".  [ck_Lax]: [SameSite] is Lax. *)
Record SetCookie := mkSetCookie {
  ck_Name : str; ck_Value : str; ck_HttpOnly : bool; ck_Secure : bool; ck_Lax : bool;
  ck_MaxAge : Z }.

(** What the product endpoints answer: a DTO, a list of them ([listEnvelope] or a map
    with one key), or the small maps the handlers build. *)
Inductive Data :=
  | Bucket_ (b : BucketDTO) | BucketList (l : list BucketDTO) | Usage_ (u : UsageDTO)
  | KeyCreated (k : Buckets.KeyCreateResult) | Key_ (k : Buckets.KeyDTO)
  | KeyList (l : list Buckets.KeyDTO)
  | ObjectList (l : Objects.ObjectListDTO) | TrashList (l : list Objects.TrashDTO)
  | Presigned (url method : str)
  | CORSList (l : list CORSRule) | LifecycleList (l : list LifecycleRule)
  | Enabled_ (on : bool) | VersionList (l : list Objects.ObjectVersionDTO)
  | MemberList (m : list Members.MemberDTO) (i : list Members.InvitationDTO)
  | Invited (r : Members.InviteResult)
  | OrgStatus (st : Tenants.OrgStatusDTO) | OrgClusterList (l : list Tenants.OrgClusterDTO)
  | TenantCluster (r : Tenants.TenantClusterResult)
  | SCIMTokenList (l : list Accounts.SCIMTokenDTO)
  | SCIMTokenCreated (r : Accounts.CreateSCIMTokenResult)
  | APITokenList (l : list Accounts.APITokenDTO)
  | APITokenCreated (r : Accounts.APITokenCreateResult)
  | NodeList (l : list Clusters.NodeDTO) | Layout (l : Clusters.LayoutDTO)
  | LayoutPreview (msgs : list str)
  | Cluster_ (c : Clusters.ClusterDTO) | ClusterList (l : list Clusters.ClusterDTO)
  | Branding (b : OrgSettings.BrandingDTO)
  | PolicyList (l : list OrgSettings.PolicyDTO) | PolicyCreated (id : str)
  | Migration (j : Migrations.MigrationJobDTO) | MigrationList (l : list Migrations.MigrationJobDTO)
  | Replication (j : Replications.ReplicationJobDTO)
  | ReplicationList (l : list Replications.ReplicationJobDTO)
  | Backup (j : Backups.BackupDTO) | BackupList (l : list Backups.BackupDTO)
  | Drift (d : Backups.DriftDTO)
  | Schedule (sc : Backups.ScheduleDTO) | ScheduleList (l : list Backups.ScheduleDTO)
  | BillingState (b : Billing.BillingStatusDTO)
  | Webhook (h : Webhooks.WebhookDTO) | WebhookList (l : list Webhooks.WebhookDTO)
  | Dashboard_ (d : Reports.DashboardDTO) | TrafficList (l : list Reports.TrafficDTO)
  | StoragePoints (l : list Reports.StoragePointDTO)
  | BucketUsageList (l : list Reports.BucketUsageDTO)
  | AuditList (l : list Reports.AuditDTO) | AuditVerdict (v : Reports.AuditVerifyDTO)
  | Snippets_ (sn : Reports.SnippetsDTO)
  | ServiceInfo (version : str)
  | Health (status version : str) (components : option (gmap str str)).

Inductive Body :=
  | NoBody
  | DataBody (d : Data)
  (** an attachment: its type, its disposition, its length when announced *)
  | FileBody (contentType disposition : str) (length : option Z) (content : str)
  | ExportBody (contentType disposition : str) (e : Reports.Export)
  | ErrBody (code msg : str)
  | InitializedBody (b : bool)
  | UserBody (u : Members.UserDTO)
  | MeBody (id email fullName role : str) (features : gmap str bool)
  | SignupBody (r : Accounts.SignupResult)
  | MethodsBody (password sso : bool)
  | TextBody (t : str)
  (** the web panel: its shell, or a file of the export, with the Cache-Control header *)
  | PageBody (cache contentType content : str)
  | StaticFile (cache path : str).

Record Response := mkResponse {
  rs_Status : Z; rs_Body : Body; rs_Cookies : list SetCookie; rs_Location : str }.
Definition json (status : Z) (b : Body) : Response := mkResponse status b [] "".

(** ** respond.go *)

Definition writeErr (e : Error) : Response := json (err_HTTP e) (ErrBody (err_Code e) (err_Message e)).
Definition writeAuthErr (code msg : str) (status : Z) : Response := json status (ErrBody code msg).
(** A plain error, which is not a [service.Error]. *)
Definition internalErr : Response := json 500 (ErrBody "internal_error" "internal error").

(** ** Addresses *)

Definition LastIndexByte (s : str) (c : ascii) : option nat :=
  (fix go (i : nat) (s : str) (acc : option nat) := match s with
   | "" => acc
   | String x s' => go (S i) s' (if Ascii.eqb x c then Some i else acc)
   end) 0 s None.

(** [net.SplitHostPort], the host only; [None] is an error. *)
Definition SplitHostPort (hostport : str) : option str :=
  match LastIndexByte hostport ":" with
  | None => None
  | Some i =>
      match hostport with
      | String "[" rest =>
          match IndexByte hostport "]" with
          | None => None
          | Some e =>
              if Nat.eqb (e + 1) i && negb (Contains rest "[")
                 && negb (Contains (str_drop (e + 1) hostport) "]")
              then Some (str_take (e - 1) rest) else None
          end
      | _ =>
          let host := str_take i hostport in
          if Contains host ":" || Contains hostport "[" || Contains hostport "]" then None
          else Some host
      end
  end.

Definition clientIP (r : Request) : str :=
  match SplitHostPort (rq_RemoteAddr r) with Some host => host | None => rq_RemoteAddr r end.

Definition bearer_prefix : str := "Bearer ".
Definition bearerToken (r : Request) : str :=
  let h := header r "Authorization" in
  if HasPrefix h bearer_prefix then TrimSpace (str_drop (String.length bearer_prefix) h) else "".

Definition isSecure (r : Request) : bool :=
  rq_TLS r || (header r "X-Forwarded-Proto" =s "https").

(** ** Cookies *)

Definition sessionCookie : str := "buktio_session".
Definition csrfCookie : str := "buktio_csrf".
Definition ssoStateCookie : str := "buktio_sso_state".

Definition setAuthCookies (r : Request) (res : Members.AuthResult) : list SetCookie :=
  let maxAge := (Members.SessionTTL / 10 ^ 9)%Z in
  [mkSetCookie sessionCookie (Members.ar_SessionToken res) true (isSecure r) true maxAge;
   mkSetCookie csrfCookie (Members.ar_CSRFToken res) false (isSecure r) true maxAge].
Definition clearAuthCookies (r : Request) : list SetCookie :=
  [mkSetCookie sessionCookie "" true (isSecure r) true (-1);
   mkSetCookie csrfCookie "" false (isSecure r) true (-1)].

(** ** middleware.go *)

(** The metrics endpoint: open when no token is configured. *)
Definition metricsGuard (token : str) (r : Request) (next : Response) : Response :=
  if token =s "" then next
  else if header r "Authorization" =s ("Bearer " ++ token) then next
  else json 401 (TextBody "unauthorized").

(** The headers added to every response. *)
Definition securityHeaders (r : Request) : list (str * str) :=
  [("X-Content-Type-Options", "nosniff"); ("X-Frame-Options", "DENY");
   ("Referrer-Policy", "no-referrer")] ++
  (if isSecure r then [("Strict-Transport-Security", "max-age=31536000; includeSubDomains")]
   else []).

(** Methods that change something. *)
Definition unsafe_method (m : str) : bool :=
  bool_decide (m ∈ ["POST"; "PUT"; "PATCH"; "DELETE"]).

Section Http.
Context {ENV : Env} {B : Type} (s : Services B).
#[local] Abbreviation Svc := (@Service.Svc B).

(** What a guarded handler is given: the request's context and its user. *)
Definition Handler : Type := Ctx -> User -> Svc Response.

Definition respond {A} (m : Svc A) (k : A -> Svc Response) : Svc Response :=
  let! r := attempt m in
  match r with inl e => ret (writeErr e) | inr a => k a end.

Definition decodeJSON {A} (body : str + A) (k : A -> Svc Response) : Svc Response :=
  match body with
  | inl e => ret (json 400 (ErrBody "validation_failed" ("invalid JSON body: " ++ e)))
  | inr a => k a
  end.

(** ** The middleware *)

Definition withUser (u : User) : Svc Ctx :=
  let! st := ResolveSubject s (u_ID u) (u_IsPlatformAdmin u) in
  ret (mkCtx (Some (fst st)) (Some (snd st)) None).

(** [Store.WithOrgConn]: a statement of its own that pins the connection; releasing
    it is another.  The row policies it activates are the database's. *)
Definition ScopeRequest {A} (ctx : Ctx) (refused : Svc A) (m : Svc A) : Svc A :=
  let orgID := tc_OrgID (tenant s ctx) in
  match cfg_RLSEnabled (s_Settings s) && negb (orgID =s ""), env_driver with
  | true, Postgres =>
      let! r := attempt (db (exec (fun _ d => d))) in
      match r with
      | inl _ => refused
      | inr _ => let! out := attempt m in
                 do! ignore (db (exec (fun _ d => d))) in
                 match out with inl e => throw e | inr a => ret a end
      end
  | _, _ => m
  end.

Definition suspendedResp : Response :=
  writeAuthErr "org_suspended" "this organization is suspended; contact your administrator" 403.

(** The subject with the attributes of the request: client address and time. *)
Definition with_attributes (r : Request) (t : Z) (ctx : Ctx) : Ctx :=
  match ctx_subject ctx with
  | Some subj => mkCtx (Some (mkSubject (sub_UserID subj) (sub_TenantID subj) (sub_Role subj)
                                (sub_PlatformAdmin subj) (clientIP r) t))
                   (ctx_tenant ctx) (ctx_ssec ctx)
  | None => ctx
  end.

Definition serveAuthed (r : Request) (next : Handler) (u : User) : Svc Response :=
  let! ctx := withUser u in
  let! t := now in
  let ctx := with_attributes r t ctx in
  let subj := subjectFrom ctx in
  let! suspended := (if sub_PlatformAdmin subj then ret false
                     else Tenants.OrgIsSuspended (sub_TenantID subj)) in
  if suspended then ret suspendedResp
  else ScopeRequest ctx
         (ret (writeAuthErr "internal" "could not establish tenant scope" 500))
         (next ctx u).

Definition unauthenticated (msg : str) : Response := writeAuthErr "unauthenticated" msg 401.
Definition csrfResp : Response := writeAuthErr "csrf_failed" "CSRF token missing or invalid" 403.

(** The double-submit check: header and cookie agree. *)
Definition csrf_ok (r : Request) : bool :=
  match cookie r csrfCookie with
  | None => false
  | Some cc => negb (header r "X-CSRF-Token" =s "") && (header r "X-CSRF-Token" =s cc)
  end.

Definition authMiddleware (next : Handler) (r : Request) : Svc Response :=
  let bearer := bearerToken r in
  if negb (bearer =s "") then
    let! u := attempt (Accounts.UserByAPIToken bearer) in
    match u with
    | inl _ => ret (unauthenticated "invalid or expired token")
    | inr u => serveAuthed r next u
    end
  else
    match cookie r sessionCookie with
    | None => ret (unauthenticated "authentication required")
    | Some c =>
        if c =s "" then ret (unauthenticated "authentication required")
        else
          let! u := attempt (Members.SessionUser c) in
          match u with
          | inl _ => ret (unauthenticated "invalid or expired session")
          | inr u =>
              if unsafe_method (rq_Method r) && negb (csrf_ok r) then ret csrfResp
              else serveAuthed r next u
          end
    end.

(** ** Handlers of auth.go *)

(** The public handlers run without subject and tenant. *)
Definition public_ctx : Ctx := mkCtx None None None.

Definition setupStatus : Svc Response :=
  respond Members.SetupInitialized (fun b => ret (json 200 (InitializedBody b))).

Definition createAdmin (r : Request) (body : str + (str * str * str)) : Svc Response :=
  decodeJSON body (fun '(email, password, fullName) =>
    respond (Members.CreateAdmin s public_ctx email password fullName) (fun res =>
      ret (mkResponse 201 (UserBody (Members.ar_User res)) (setAuthCookies r res) ""))).

Definition login (r : Request) (body : str + (str * str)) : Svc Response :=
  decodeJSON body (fun '(email, password) =>
    respond (Members.Login email password) (fun res =>
      ret (mkResponse 200 (UserBody (Members.ar_User res)) (setAuthCookies r res) ""))).

Definition logout (r : Request) : Svc Response :=
  do! (match cookie r sessionCookie with
       | Some c => ignore (Members.Logout c)
       | None => ret tt
       end) in
  ret (mkResponse 204 NoBody (clearAuthCookies r) "").

(** A guarded handler: the middleware always provides the user. *)
Definition me : Handler := fun ctx u =>
  let role := match ctx_subject ctx with
              | Some subj => if sub_Role subj =s ""
                             then (if u_IsPlatformAdmin u then "owner" else "admin")
                             else sub_Role subj
              | None => if u_IsPlatformAdmin u then "owner" else "admin"
              end in
  ret (json 200 (MeBody (u_ID u) (u_Email u) (u_FullName u) role (OrgSettings.Features s ctx))).

(** ** Handlers of signup.go *)

Definition signup (r : Request) (body : str + (str * str * str)) : Svc Response :=
  decodeJSON body (fun '(email, password, orgName) =>
    respond (Accounts.Register s public_ctx email password orgName (clientIP r)) (fun res =>
      ret (json 201 (SignupBody res)))).

Definition signupVerify (r : Request) (body : str + str) : Svc Response :=
  let run token :=
    respond (Accounts.VerifyEmail s public_ctx token) (fun res =>
      ret (mkResponse 200 (UserBody (Members.ar_User res)) (setAuthCookies r res) "")) in
  if query_param r "token" =s "" then decodeJSON body run else run (query_param r "token").

Definition signupResend (body : str + str) : Svc Response :=
  decodeJSON body (fun email =>
    respond (Accounts.ResendVerification s email) (fun _ => ret (json 202 NoBody))).

(** ** Handlers of sso.go *)

Definition ssoDisabledResp : Response := writeAuthErr "sso_disabled" "SSO is not enabled" 404.

(** [randState]: the error of the random source is dropped; the all-zero state is
    then the text [zero_state]. *)
Definition randState (zero_state : str) : Svc str :=
  let! r := attempt NewToken in ret (match r with inr t => t | inl _ => zero_state end).

Definition ssoLogin (zero_state : str) (r : Request) : Svc Response :=
  if negb (Accounts.SSOEnabled s) then ret ssoDisabledResp
  else
    let! state := randState zero_state in
    ret (mkResponse 302 NoBody [mkSetCookie ssoStateCookie state true (isSecure r) true 600]
           (Accounts.SSOAuthURL s state)).

Definition ssoCallback (r : Request) : Svc Response :=
  if negb (Accounts.SSOEnabled s) then ret ssoDisabledResp
  else
    let ok := match cookie r ssoStateCookie with
              | None => false
              | Some c => negb (c =s "") && (c =s query_param r "state")
              end in
    if negb ok then ret (writeAuthErr "sso_state_mismatch" "invalid SSO state" 403)
    else
      respond (Accounts.SSOExchange s (query_param r "code")) (fun ext =>
        respond (Accounts.LoginWithExternalIdentity s public_ctx (Some ext)) (fun res =>
          ret (mkResponse 302 NoBody
                 (setAuthCookies r res ++ [mkSetCookie ssoStateCookie "" false (isSecure r) false (-1)])
                 "/"))).

Definition authMethods : Svc Response :=
  ret (json 200 (MethodsBody true (Accounts.SSOEnabled s))).

End Http.
End Http.
