(* ===== verification/HttpApi.v ===== *)
(** src/internal/httpapi: the product handlers (one definition per handler, in the
    order of the files), the health probes of health.go, the route table of api.go and
    router.go, and the request pipeline [New] builds; service/ops.go.

    A handler decodes the body, calls one service method and answers.  What is outside
    the repository or below it is the [Platform]: the text-to-JSON reader, the error
    texts of encoding/json, [time.Parse], the MIME table, the storage engine's HTTP
    endpoints, the billing processor, and chi (its matcher and its RealIP). *)
From Stdlib Require Import Ascii.
From S2P Require Import Prelude GoStrings JsonText GoTime Storage S3core Garage Migrations Database Repository Service Buckets Objects Members Tenants Billing Webhooks Clusters Replications Accounts Settings Backups Reports Json Requests HttpAuth.
#[local] Open Scope string_scope.
Import Http Requests.

Module Api.

(** ** Requests *)

(** [http.Request] with the path, the host, the body and chi's URL parameters. *)
Record Req := mkReq {
  rq : Request; rq_Path : str; rq_Host : str; rq_Body : Json.Stream; rq_Params : gmap str str }.
Definition URLParam (r : Req) (name : str) : str := default "" (rq_Params r !! name).
Definition QueryGet (r : Req) (name : str) : str := query_param (rq r) name.
Definition HeaderGet (r : Req) (name : str) : str := header (rq r) name.

(** The answer to an outgoing GET: the URL is no URL, the host does not answer, or a
    status with a body that may break off. *)
Inductive Fetched := BadURL (e : str) | Unreachable (e : str) | Answered (status : Z) (body : Json.Stream).

(** ** Routes *)

(** A segment of a pattern: text, a parameter, or the rest of the path (a mount). *)
Inductive Seg := Static (s : str) | Param (name : str) | Rest.
#[export] Instance Seg_eq_dec : EqDecision Seg.
Proof. solve_decision. Defined.
(** A pattern is its segments after the root slash. *)
Abbreviation Pattern := (list Seg).
(** The text of a pattern: "{name}" is a parameter, "*" the rest. *)
Definition segment (s : str) : Seg :=
  if s =s "*" then Rest
  else match s with
       | String "{" rest => Param (str_take (String.length rest - 1) rest)
       | _ => Static s
       end.
Definition pattern (text : str) : Pattern := map segment (tail (Split text "/")).

Definition seg_text (params : gmap str str) (g : Seg) : str :=
  match g with
  | Static s => s
  | Param n => default "" (params !! n)
  | Rest => default "" (params !! "*")
  end.
Definition path_of (p : Pattern) (params : gmap str str) : str :=
  Join (map (fun g => "/" ++ seg_text params g) p) "".
Definition is_param (g : Seg) : bool := match g with Param _ => true | _ => false end.
(** The paths chi resolves to a pattern: its instances, and at the root of a
    sub-router the path without its last slash. *)
Definition denotes (p : Pattern) (params : gmap str str) (path : str) : Prop :=
  path = path_of p params \/
  exists p' g, p = (p' ++ [g])%list /\ is_param g = false /\ seg_text params g = "" /\
    path = path_of p' params.

(** The answer of the matcher; a miss has the pattern of the sub-router it happened in. *)
Inductive Routing :=
  | Matched (i : nat) (params : gmap str str)
  (** the path is known, not with this method *)
  | MethodMissing (within : Pattern)
  | Unknown (within : Pattern).

(** What the handlers rely on and the repository does not define. *)
Class Platform := mkPlatform {
  (** the texts of a syntax error and of a value of the wrong type *)
  pf_syntax_error : str -> str;
  pf_json_error : str -> Json.JV -> str;
  pf_parse_time : str -> option Z;
  pf_valid_uuid : str -> bool;
  pf_mime_type : str -> str;
  pf_fetch : str -> str -> Fetched;
  (** the methods of the billing provider the services were wired with *)
  pf_subscribe : str -> str -> str + Billing.Subscription;
  pf_parse_event : str -> str -> str + Billing.Event;
  pf_zero_state : str;
  (** the status and the Location of [http.FileServer] for a path of the export *)
  pf_file_server : str -> Z * str;
  pf_realIP : Request -> Request;
  (** the table's methods ([None]: any) and patterns, the request's method and path *)
  pf_mux : list (option str * Pattern) -> str -> str -> Routing }.

(** What chi documents: RealIP rewrites the remote address and nothing else; the
    matcher answers a row of the table with the request's method whose pattern stands
    for the path. *)
Class PlatformLaws `{Platform} := mkPlatformLaws {
  realIP_law r : exists a, pf_realIP r =
    mkRequest (rq_Method r) (rq_Headers r) (rq_Cookies r) (rq_Query r) a (rq_TLS r);
  mux_law table m path i params : pf_mux table m path = Matched i params ->
    exists row, table !! i = Some row /\ (fst row = None \/ fst row = Some m) /\
      denotes (snd row) params path }.

(** ** path *)

(** [path.Ext]: from the last dot after the last slash. *)
Definition Ext (p : str) : str :=
  match LastIndexByte p "." with
  | None => ""
  | Some i =>
      match LastIndexByte p "/" with
      | Some j => if Nat.ltb i j then "" else str_drop i p
      | None => str_drop i p
      end
  end.

Definition data (status : Z) (d : Data) : Response := json status (DataBody d).
(** [w.WriteHeader] without a body *)
Definition status_only (status : Z) : Response := json status NoBody.

Section Api.
Context {ENV : Env} {B : Type} `{!S3Service B} `{!GarageServer B} `{PF : Platform} (s : Services B).
(** Fields of [Services] only the metrics proxy reads. *)
Context (GarageAdminURL MetricsToken : str).
#[local] Abbreviation Svc := (@Service.Svc B).
#[local] Abbreviation Guarded := (Req -> Handler (B := B)).
#[local] Abbreviation Open := (Req -> Svc Response).

(** ** respond.go *)

Definition maxBodyBytes : Z := Z.shiftl 2 20.

Definition body_of {A} (struct : str) (d : Json.Decoder A) (zero : A) (r : Req) : str + A :=
  Json.Decode (pf_json_error struct) d zero (JsonText.read_json pf_syntax_error (Json.MaxBytes maxBodyBytes (rq_Body r))).
Definition withBody {A} (struct : str) (d : Json.Decoder A) (zero : A) (r : Req)
    (k : A -> Svc Response) : Svc Response :=
  decodeJSON (body_of struct d zero r) k.

(** The common tails of the handlers. *)
Definition reply {A} (status : Z) (f : A -> Data) (m : Svc A) : Svc Response :=
  respond m (fun a => ret (data status (f a))).
Definition done {A} (status : Z) (m : Svc A) : Svc Response :=
  respond m (fun _ => ret (status_only status)).

(** ** buckets.go *)

Definition createBucket : Guarded := fun r ctx _ =>
  withBody "createBucketReq" dec_createBucketReq zero_createBucketReq r (fun req =>
    reply 201 Bucket_ (Buckets.CreateBucket s ctx (cb_Name req)
      (mkQuotaDTO (cb_QuotaMaxBytes req) (cb_QuotaMaxObjects req)) (cb_ClusterID req))).
Definition listBuckets : Guarded := fun _ ctx _ => reply 200 BucketList (Buckets.ListBuckets s ctx).
Definition getBucket : Guarded := fun r ctx _ =>
  reply 200 Bucket_ (Buckets.GetBucket s ctx (URLParam r "id")).
Definition getBucketUsage : Guarded := fun r ctx _ =>
  reply 200 (fun b => Usage_ (bd_Usage b)) (Buckets.GetBucket s ctx (URLParam r "id")).
Definition patchBucket : Guarded := fun r ctx _ =>
  withBody "patchBucketReq" dec_patchBucketReq zero_patchBucketReq r (fun req =>
    reply 200 Bucket_ (Buckets.SetQuota s ctx (URLParam r "id")
      (mkQuotaDTO (pb_QuotaMaxBytes req) (pb_QuotaMaxObjects req)))).
Definition setBucketAccess : Guarded := fun r ctx _ =>
  withBody "setAccessReq" dec_setAccessReq zero_setAccessReq r (fun req =>
    reply 200 Bucket_ (Buckets.SetVisibility s ctx (URLParam r "id") (sa_Public req)
      (sa_IndexDocument req) (sa_ErrorDocument req))).
Definition deleteBucket : Guarded := fun r ctx _ =>
  done 204 (Buckets.DeleteBucket s ctx (URLParam r "id")).

(** ** keys.go *)

Definition grantInput (g : grantReq) : Buckets.GrantInput :=
  Buckets.mkGrantInput (gr_BucketID g) (gr_Read g) (gr_Write g) (gr_Owner g).
Definition createKey : Guarded := fun r ctx _ =>
  withBody "createKeyReq" dec_createKeyReq zero_createKeyReq r (fun req =>
    reply 201 KeyCreated (Buckets.CreateAccessKey s ctx (ck_Name req) (ck_AllowCreateBucket req)
      (map grantInput (ck_Grants req)))).
Definition listKeys : Guarded := fun _ ctx _ => reply 200 KeyList (Buckets.ListAccessKeys s ctx).
Definition getKey : Guarded := fun r ctx _ =>
  reply 200 Key_ (Buckets.GetAccessKey s ctx (URLParam r "id")).
Definition deleteKey : Guarded := fun r ctx _ =>
  done 204 (Buckets.DeleteAccessKey s ctx (URLParam r "id")).
Definition grantKey : Guarded := fun r ctx _ =>
  withBody "grantReq" dec_grantReq zero_grantReq r (fun req =>
    done 204 (Buckets.GrantBucket s ctx (URLParam r "id") (grantInput req))).
Definition revokeKey : Guarded := fun r ctx _ =>
  done 204 (Buckets.RevokeBucket s ctx (URLParam r "id") (URLParam r "bucketId")).

(** ** objects.go *)

Definition maxUploadBytes : Z := Z.shiftl 200 20.

Definition max_keys (v : str) : Z :=
  match Atoi v with
  | Some n => if ((0 <? n) && (n <=? 1000))%Z then n else 100%Z
  | None => 100%Z
  end.
Definition listObjects : Guarded := fun r ctx _ =>
  reply 200 ObjectList (Objects.ListObjects s ctx (URLParam r "id") (QueryGet r "prefix")
    (QueryGet r "delimiter") (QueryGet r "cursor") (max_keys (QueryGet r "max_keys"))).
Definition deleteObjects : Guarded := fun r ctx _ =>
  withBody "deleteObjectsReq" dec_deleteObjectsReq zero_deleteObjectsReq r (fun req =>
    done 204 (Objects.DeleteObjects s ctx (URLParam r "id") (do_Keys req)
                (QueryGet r "permanent" =s "true"))).
Definition listTrash : Guarded := fun r ctx _ =>
  reply 200 TrashList (Objects.ListTrash ctx (URLParam r "id")).
Definition restoreTrash : Guarded := fun r ctx _ =>
  done 204 (Objects.RestoreObject s ctx (URLParam r "id") (URLParam r "trashId")).
Definition purgeTrash : Guarded := fun r ctx _ =>
  done 204 (Objects.PurgeObject s ctx (URLParam r "id") (URLParam r "trashId")).
Definition copyObject : Guarded := fun r ctx _ =>
  withBody "copyMoveReq" dec_copyMoveReq zero_copyMoveReq r (fun req =>
    done 204 (Objects.CopyObject s ctx (URLParam r "id") (cm_SrcKey req) (cm_DstKey req))).
Definition moveObject : Guarded := fun r ctx _ =>
  withBody "copyMoveReq" dec_copyMoveReq zero_copyMoveReq r (fun req =>
    done 204 (Objects.MoveObject s ctx (URLParam r "id") (cm_SrcKey req) (cm_DstKey req))).
Definition uploadObject : Guarded := fun r ctx _ =>
  match Json.ReadAllLimit maxUploadBytes (rq_Body r) with
  | inl e => ret (json 400 (ErrBody "validation_failed" ("could not read body: " ++ e)))
  | inr d => done 204 (Objects.PutObjectStream s ctx (URLParam r "id") (QueryGet r "key") d
                         (Z.of_nat (String.length d)) (HeaderGet r "Content-Type")
                         (HeaderGet r "X-Buktio-SSEC-Key"))
  end.
Definition quote1 : str := String (ascii_of_nat 34) "".
Definition downloadObject : Guarded := fun r ctx _ =>
  let key := QueryGet r "key" in
  respond (Objects.GetObjectStream s ctx (URLParam r "id") key (HeaderGet r "X-Buktio-SSEC-Key"))
    (fun '(content, obj) =>
      let ct := pf_mime_type (Ext key) in
      let ct := if ct =s "" then "application/octet-stream" else ct in
      ret (json 200 (FileBody ct ("attachment; filename=" ++ quote1 ++ Backups.Base key ++ quote1)
                       (if (0 <? obj_Size obj)%Z then Some (obj_Size obj) else None) content))).
Definition presignObject : Guarded := fun r ctx _ =>
  withBody "presignReq" dec_presignReq zero_presignReq r (fun req =>
    let method := if ps_Operation req =s "put" then "PUT" else "GET" in
    reply 200 (fun url => Presigned url method)
      (Objects.PresignObject s ctx (URLParam r "id") (ps_Key req) method (ps_ContentType req)
         (ps_ExpiresIn req))).

(** ** cors_lifecycle.go, versions.go *)

Definition getBucketCORS : Guarded := fun r ctx _ =>
  reply 200 CORSList (Objects.GetBucketCORS s ctx (URLParam r "id")).
Definition setBucketCORS : Guarded := fun r ctx _ =>
  withBody "setCORSReq" dec_setCORSReq zero_setCORSReq r (fun req =>
    done 204 (Objects.SetBucketCORS s ctx (URLParam r "id") (sc_Rules req))).
Definition deleteBucketCORS : Guarded := fun r ctx _ =>
  done 204 (Objects.DeleteBucketCORS s ctx (URLParam r "id")).
Definition getBucketLifecycle : Guarded := fun r ctx _ =>
  reply 200 LifecycleList (Objects.GetBucketLifecycle s ctx (URLParam r "id")).
Definition setBucketLifecycle : Guarded := fun r ctx _ =>
  withBody "setLifecycleReq" dec_setLifecycleReq zero_setLifecycleReq r (fun req =>
    done 204 (Objects.SetBucketLifecycle s ctx (URLParam r "id") (sl_Rules req))).
Definition deleteBucketLifecycle : Guarded := fun r ctx _ =>
  done 204 (Objects.DeleteBucketLifecycle s ctx (URLParam r "id")).

Definition getVersioning : Guarded := fun r ctx _ =>
  reply 200 Enabled_ (Objects.GetBucketVersioning s ctx (URLParam r "id")).
Definition setVersioning : Guarded := fun r ctx _ =>
  withBody "setVersioningReq" dec_setVersioningReq zero_setVersioningReq r (fun req =>
    reply 200 (fun _ => Enabled_ (sv_Enabled req))
      (Objects.SetBucketVersioning s ctx (URLParam r "id") (sv_Enabled req))).
Definition listVersions : Guarded := fun r ctx _ =>
  reply 200 VersionList (Objects.ListObjectVersions s ctx (URLParam r "id") (QueryGet r "prefix")).
Definition restoreVersion : Guarded := fun r ctx _ =>
  withBody "versionRef" dec_versionRef zero_versionRef r (fun req =>
    done 204 (Objects.RestoreObjectVersion s ctx (URLParam r "id") (vr_Key req) (vr_VersionID req))).
Definition deleteVersion : Guarded := fun r ctx _ =>
  withBody "versionRef" dec_versionRef zero_versionRef r (fun req =>
    done 204 (Objects.DeleteObjectVersion s ctx (URLParam r "id") (vr_Key req) (vr_VersionID req))).

(** ** webhooks.go, replications.go *)

Definition listWebhooks : Guarded := fun r ctx _ =>
  reply 200 WebhookList (Webhooks.ListWebhooks s ctx (URLParam r "id")).
Definition createWebhook : Guarded := fun r ctx _ =>
  withBody "createWebhookReq" dec_createWebhookReq zero_createWebhookReq r (fun req =>
    reply 201 Webhook (Webhooks.CreateWebhook s ctx (URLParam r "id") (cw_URL req) (cw_Events req)
      (cw_Secret req))).
Definition deleteWebhook : Guarded := fun r ctx _ =>
  done 204 (Webhooks.DeleteWebhook s ctx (URLParam r "id") (URLParam r "whId")).

Definition listReplications : Guarded := fun r ctx _ =>
  reply 200 ReplicationList (Replications.ListReplications s ctx (URLParam r "id")).
Definition startReplication : Guarded := fun r ctx _ =>
  withBody "startReplicationReq" dec_startReplicationReq zero_startReplicationReq r (fun req =>
    reply 201 Replication (Replications.StartReplication s ctx (URLParam r "id") (sr_DstBucketID req))).

(** ** api_tokens.go *)

(** [time.Duration(days) * 24 * time.Hour]: the product wraps. *)
Definition days (n : Z) : Z := mul64 (mul64 n 24) (3600 * 10 ^ 9).
Definition createAPIToken : Guarded := fun r ctx _ =>
  withBody "createTokenReq" dec_createTokenReq zero_createTokenReq r (fun req =>
    let! t := now in
    let expires := if (0 <? ct_ExpiresIn req)%Z then Some (t + days (ct_ExpiresIn req))%Z else None in
    reply 201 APITokenCreated (Accounts.CreateAPIToken s ctx (ct_Name req) expires)).
Definition listAPITokens : Guarded := fun _ ctx _ =>
  reply 200 APITokenList (Accounts.ListAPITokens ctx).
Definition revokeAPIToken : Guarded := fun r ctx _ =>
  done 204 (Accounts.RevokeAPIToken s ctx (URLParam r "id")).

(** ** clusters.go, nodes.go *)

Definition listClusters : Guarded := fun _ _ _ => reply 200 ClusterList (Clusters.ListClusters s).
Definition getCluster : Guarded := fun r _ _ =>
  reply 200 Cluster_ (Clusters.GetCluster s (URLParam r "id")).
Definition addCluster : Guarded := fun r ctx _ =>
  withBody "addClusterReq" dec_addClusterReq zero_addClusterReq r (fun req =>
    reply 201 Cluster_ (Clusters.AddCluster s ctx
      (Clusters.mkAddClusterInput (acl_Name req) (acl_Provider req) (acl_S3Endpoint req)
         (acl_S3Region req) (acl_AccessKeyID req) (acl_SecretAccessKey req)
         (acl_PublicEndpoint req)))).
Definition removeCluster : Guarded := fun r ctx _ =>
  done 204 (Clusters.RemoveCluster s ctx (URLParam r "id")).

Definition listNodes : Guarded := fun r _ _ =>
  reply 200 NodeList (Clusters.ListNodes s (URLParam r "id")).
Definition addNode : Guarded := fun r ctx _ =>
  withBody "addNodeReq" dec_addNodeReq zero_addNodeReq r (fun req =>
    done 202 (Clusters.AddNode s ctx (URLParam r "id")
      (Clusters.mkAddNodeInput (an_NodeID req) (an_Peer req) (an_Zone req) (an_CapacityBytes req)))).
Definition removeNode : Guarded := fun r ctx _ =>
  done 202 (Clusters.RemoveNode s ctx (URLParam r "id") (URLParam r "nodeId")).
Definition getLayout : Guarded := fun r _ _ =>
  reply 200 Layout (Clusters.GetLayout s (URLParam r "id")).
Definition previewLayout : Guarded := fun r _ _ =>
  reply 200 LayoutPreview (Clusters.PreviewLayout s (URLParam r "id")).
Definition revertLayout : Guarded := fun r ctx _ =>
  done 204 (Clusters.RevertLayout s ctx (URLParam r "id")).

(** ** members.go *)

Definition listMembers : Guarded := fun _ ctx _ =>
  reply 200 (fun '(members, invites) => MemberList members invites) (Members.ListMembers s ctx).
Definition inviteMember : Guarded := fun r ctx _ =>
  withBody "inviteReq" dec_inviteReq zero_inviteReq r (fun req =>
    reply 201 Invited (Members.InviteMember s ctx (iv_Email req) (iv_Role req))).
Definition changeMemberRole : Guarded := fun r ctx _ =>
  withBody "roleReq" dec_roleReq zero_roleReq r (fun req =>
    done 204 (Members.ChangeMemberRole s ctx (URLParam r "userId") (rr_Role req))).
Definition removeMember : Guarded := fun r ctx _ =>
  done 204 (Members.RemoveMember s ctx (URLParam r "userId")).
Definition acceptInvite : Open := fun r =>
  withBody "acceptInviteReq" dec_acceptInviteReq zero_acceptInviteReq r (fun req =>
    respond (Members.AcceptInvite s public_ctx (ai_Token req) (ai_Password req) (ai_FullName req))
      (fun res => ret (mkResponse 200 (UserBody (Members.ar_User res)) (setAuthCookies (rq r) res) ""))).

(** ** dashboard.go *)

Definition dashboard : Guarded := fun _ ctx _ => reply 200 Dashboard_ (Reports.Dashboard s ctx).
(** A positive number in the query, or the default. *)
Definition hours_or (dflt : Z) (v : str) : Z :=
  match Atoi v with Some n => if (0 <? n)%Z then n else dflt | None => dflt end.
Definition trafficUsage : Guarded := fun r _ _ =>
  reply 200 TrafficList (Reports.TrafficUsage (hours_or 24 (QueryGet r "hours"))).
Definition storageSeries : Guarded := fun r ctx _ =>
  reply 200 StoragePoints (Reports.StorageSeries s ctx (hours_or (24 * 7) (QueryGet r "hours"))).
Definition bucketUsage : Guarded := fun _ ctx _ =>
  reply 200 BucketUsageList (Reports.BucketUsage s ctx).

Definition auditFilterFromQuery (r : Req) : Reports.AuditFilterInput :=
  Reports.mkAuditFilterInput (pf_parse_time (QueryGet r "from")) (pf_parse_time (QueryGet r "to"))
    (QueryGet r "actor") (QueryGet r "action") (QueryGet r "target")
    (default 0%Z (Atoi (QueryGet r "limit"))) (default 0%Z (Atoi (QueryGet r "offset"))).
Definition listAudit : Guarded := fun r ctx _ =>
  reply 200 AuditList (Reports.ListAudit s pf_valid_uuid ctx (auditFilterFromQuery r)).
Definition verifyAudit : Guarded := fun _ ctx _ =>
  reply 200 AuditVerdict (Reports.VerifyAuditChain s ctx).
Definition exportAudit : Guarded := fun r ctx _ =>
  let format := if QueryGet r "format" =s "json" then "json" else "csv" in
  respond (Reports.ExportAudit s pf_valid_uuid ctx (auditFilterFromQuery r) format)
    (fun '(e, contentType) =>
      ret (json 200 (ExportBody contentType ("attachment; filename=buktio-audit." ++ format) e))).
Definition docsSnippets : Guarded := fun r _ _ =>
  reply 200 Snippets_ (Reports.Snippets s (QueryGet r "bucket_id") (QueryGet r "access_key_id")).

(** ** service/ops.go, ops.go *)

Definition metricsLimit : Z := Z.shiftl 5 20.
(** A plain error of the body's reader is not a [service.Error]. *)
Definition GarageMetrics : Svc (str + str) :=
  if GarageAdminURL =s "" then throw (storageUnavailableErr "no storage admin endpoint configured")
  else
    let authorization := if MetricsToken =s "" then "" else "Bearer " ++ MetricsToken in
    match pf_fetch (GarageAdminURL ++ "/metrics") authorization with
    | BadURL e => throw (storageUnavailableErr e)
    | Unreachable e => throw (storageUnavailableErr ("metrics unreachable: " ++ e))
    | Answered status body =>
        if (status =? 200)%Z then ret (Json.ReadAllLimit metricsLimit body)
        else throw (storageUnavailableErr ("metrics status " ++ Itoa status))
    end.
Definition garageMetrics : Guarded := fun _ _ _ =>
  respond GarageMetrics (fun r => ret (match r with
    | inl _ => internalErr
    | inr body => json 200 (TextBody body)
    end)).

(** ** backups.go, backup_schedules.go *)

Definition listBackups : Guarded := fun r ctx _ =>
  reply 200 BackupList (Backups.ListBackups s ctx (default 50%Z (Atoi (QueryGet r "limit")))).
Definition createBackup : Guarded := fun _ ctx _ => reply 202 Backup (Backups.CreateBackup s ctx).
Definition getBackup : Guarded := fun r ctx _ =>
  reply 200 Backup (Backups.GetBackup s ctx (URLParam r "id")).
Definition reconcileReport : Guarded := fun _ ctx _ =>
  reply 200 Drift (Backups.ReconcileReport s ctx).

Definition listBackupSchedules : Guarded := fun _ ctx _ =>
  reply 200 ScheduleList (Backups.ListBackupSchedules s ctx).
Definition createBackupSchedule : Guarded := fun r ctx _ =>
  withBody "scheduleReq" dec_scheduleReq zero_scheduleReq r (fun req =>
    reply 201 Schedule (Backups.CreateBackupSchedule s ctx (sch_IntervalMinutes req)
      (sch_RetentionCount req) (sch_OffsiteEnabled req))).
Definition updateBackupSchedule : Guarded := fun r ctx _ =>
  withBody "scheduleReq" dec_scheduleReq zero_scheduleReq r (fun req =>
    done 204 (Backups.UpdateBackupSchedule s ctx (URLParam r "id") (sch_Enabled req)
      (sch_IntervalMinutes req) (sch_RetentionCount req) (sch_OffsiteEnabled req))).
Definition deleteBackupSchedule : Guarded := fun r ctx _ =>
  done 204 (Backups.DeleteBackupSchedule s ctx (URLParam r "id")).

(** ** tenants.go *)

Definition getOrgStatus : Guarded := fun r ctx _ =>
  reply 200 OrgStatus (Tenants.GetOrgStatus ctx (URLParam r "orgId")).
Definition suspendOrg : Guarded := fun r ctx _ =>
  withBody "suspendReq" dec_suspendReq zero_suspendReq r (fun req =>
    done 204 (Tenants.SuspendOrg s ctx (URLParam r "orgId") (su_Reason req))).
Definition resumeOrg : Guarded := fun r ctx _ =>
  done 204 (Tenants.ResumeOrg s ctx (URLParam r "orgId")).
Definition setOrgQuota : Guarded := fun r ctx _ =>
  withBody "quotaReq" dec_quotaReq zero_quotaReq r (fun req =>
    done 204 (Tenants.SetOrgQuota s ctx (URLParam r "orgId") (qr_MaxBytes req))).
Definition listOrgClusters : Guarded := fun r ctx _ =>
  reply 200 OrgClusterList (Tenants.ListOrgClusters ctx (URLParam r "orgId")).
Definition assignOrgCluster : Guarded := fun r ctx _ =>
  withBody "assignClusterReq" dec_assignClusterReq zero_assignClusterReq r (fun req =>
    done 204 (Tenants.AssignClusterToOrg s ctx (URLParam r "orgId") (ac_ClusterID req) (ac_Default req))).
Definition unassignOrgCluster : Guarded := fun r ctx _ =>
  done 204 (Tenants.UnassignClusterFromOrg s ctx (URLParam r "orgId") (URLParam r "clusterId")).
Definition assignTenantCluster : Guarded := fun r ctx _ =>
  withBody "tenantClusterReq" dec_tenantClusterReq zero_tenantClusterReq r (fun req =>
    reply 200 TenantCluster (Tenants.AssignTenantCluster s ctx (URLParam r "orgId")
      (if tc_Mode req =s "" then "pooled" else tc_Mode req))).
Definition listSCIMTokens : Guarded := fun _ ctx _ =>
  reply 200 SCIMTokenList (Accounts.ListSCIMTokens s ctx).
Definition createSCIMToken : Guarded := fun r ctx _ =>
  withBody "scimTokenReq" dec_scimTokenReq zero_scimTokenReq r (fun req =>
    reply 201 SCIMTokenCreated (Accounts.CreateSCIMToken s ctx (st_Name req))).
Definition revokeSCIMToken : Guarded := fun r ctx _ =>
  done 204 (Accounts.RevokeSCIMToken s ctx (URLParam r "id")).

(** ** policies.go, branding.go *)

Definition listPolicies : Guarded := fun _ ctx _ =>
  reply 200 PolicyList (OrgSettings.ListPolicies s ctx).
Definition createPolicy : Guarded := fun r ctx _ =>
  withBody "createPolicyReq" dec_createPolicyReq zero_createPolicyReq r (fun req =>
    reply 201 PolicyCreated (OrgSettings.CreatePolicy s ctx
      (OrgSettings.mkCreatePolicyInput (cp_Name req) (cp_Template req) (cp_Config req) (cp_Roles req)))).
Definition setPolicyEnabled : Guarded := fun r ctx _ =>
  withBody "policyEnabledReq" dec_policyEnabledReq zero_policyEnabledReq r (fun req =>
    done 204 (OrgSettings.SetPolicyEnabled s ctx (URLParam r "id") (pe_Enabled req))).
Definition deletePolicy : Guarded := fun r ctx _ =>
  done 204 (OrgSettings.DeletePolicy s ctx (URLParam r "id")).

Definition getBranding : Guarded := fun _ ctx _ => reply 200 Branding (OrgSettings.GetBranding s ctx).
Definition setBranding : Guarded := fun r ctx _ =>
  withBody "setBrandingReq" dec_setBrandingReq zero_setBrandingReq r (fun req =>
    done 204 (OrgSettings.SetBranding s ctx
      (OrgSettings.mkBrandingDTO (sb_DisplayName req) (sb_LogoURL req) (sb_PrimaryColor req)
         (sb_EmailFrom req) (sb_CustomDomain req)))).
Definition resolveBranding : Open := fun r =>
  let host := QueryGet r "host" in
  reply 200 Branding (OrgSettings.BrandingForHost (if host =s "" then rq_Host r else host)).
Definition verifyDomain : Open := fun r =>
  let! ok := OrgSettings.DomainAllowed (QueryGet r "domain") in
  ret (status_only (if ok : bool then 200 else 403)).

(** ** billing.go, migrations.go *)

Definition billingStatus : Guarded := fun _ ctx _ =>
  reply 200 BillingState (Billing.BillingStatus s ctx).
Definition setupBilling : Guarded := fun r ctx _ =>
  withBody "setupBillingReq" dec_setupBillingReq zero_setupBillingReq r (fun req =>
    done 204 (Billing.SetupBilling s pf_subscribe ctx (sbi_Email req))).
Definition triggerBillingReport : Guarded := fun _ ctx _ =>
  done 202 (Billing.TriggerBillingReport s ctx).
Definition webhookLimit : Z := Z.shiftl 1 20.
Definition billingWebhook : Open := fun r =>
  match Json.ReadAllLimit webhookLimit (rq_Body r) with
  | inl _ => ret (status_only 400)
  | inr body => done 200 (Billing.HandleBillingWebhook s pf_parse_event public_ctx body
                            (HeaderGet r "Stripe-Signature"))
  end.

Definition startMigration : Guarded := fun r ctx _ =>
  withBody "startMigrationReq" dec_startMigrationReq zero_startMigrationReq r (fun req =>
    reply 201 Migration (Migrations.StartMigration s ctx
      (Migrations.mkMigrationInput (sm_SourceEndpoint req) (sm_SourceRegion req)
         (sm_SourceBucket req) (sm_AccessKeyID req) (sm_SecretAccessKey req) (sm_DestBucketID req)))).
Definition listMigrations : Guarded := fun _ ctx _ =>
  reply 200 MigrationList (Migrations.ListMigrations s ctx).
Definition getMigration : Guarded := fun r ctx _ =>
  reply 200 Migration (Migrations.GetMigration s ctx (URLParam r "id")).
Definition cancelMigration : Guarded := fun r ctx _ =>
  done 202 (Migrations.CancelMigration s ctx (URLParam r "id")).


(** ** app/server.go: the readiness probe; health.go *)

(** [Store.Ping]: a statement that touches nothing. *)
Definition Ping : M (World B) DBErr unit := db (exec (fun _ d => d)).
Definition pingGarage (garageAdminURL : str) : bool :=
  match pf_fetch (garageAdminURL ++ "/health") "" with
  | Answered status _ => (status =? 200)%Z
  | _ => false
  end.
Definition Check (hasStore : bool) (garageAdminURL : str) : Svc (bool * gmap str str) :=
  let! db_ := (if hasStore then
                 let! r := attempt Ping in
                 ret (match r with inl _ => (false, "down") | inr _ => (true, "ok") end)
               else ret (true, "unconfigured")) in
  let garage := if garageAdminURL =s "" then (true, "unconfigured")
                else if pingGarage garageAdminURL then (true, "ok") else (false, "down") in
  ret (fst db_ && fst garage, <["garage_admin" := snd garage]> {[ "db" := snd db_ ]}).

Definition live (version : str) : Response := data 200 (Health "ok" version None).
Definition ready (version : str) (probe : option (Svc (bool * gmap str str))) : Svc Response :=
  let! r := (match probe with Some check => check | None => ret (true, ∅) end) in
  ret (data (if fst r then 200 else 503)
         (Health (if fst r then "ok" else "not_ready") version (Some (snd r)))).

(** ** webui.go *)

(** The embedded export: the files with their contents.  [fs.ValidPath]: no empty,
    "." or ".." element; a directory opens too. *)
Definition valid_path (name : str) : bool :=
  (name =s ".") || forallb (fun e => negb ((e =s "") || (e =s ".") || (e =s ".."))) (Split name "/").
Definition ui_open (files : gmap str str) (name : str) : bool :=
  valid_path name &&
  ((name =s ".") || bool_decide (is_Some (files !! name)) ||
   existsb (fun kv => HasPrefix (fst kv) (name ++ "/")) (map_to_list files)).
Definition ui_exists (files : gmap str str) (name : str) : bool :=
  negb (name =s "") && ui_open files name.
Definition TrimSuffixSlash (p : str) : str :=
  match LastIndexByte p "/" with
  | Some i => if Nat.eqb (S i) (String.length p) then str_take i p else p
  | None => p
  end.
Definition placeholderHTML : str :=
  "<!doctype html><meta charset=" ++ quote1 ++ "utf-8" ++ quote1 ++ "><title>buktio</title>" ++
  "<body style=" ++ quote1 ++ "font-family:system-ui;margin:3rem;color:#333" ++ quote1 ++ ">" ++
  "<h1>buktio</h1><p>The web panel was not embedded in this build. " ++
  "Run <code>make web-embed</code> (or use an official release image). " ++
  "The API is available under <code>/api/v1</code>.</p></body>".
Definition ui_index (files : gmap str str) : str := default placeholderHTML (files !! "index.html").
Definition ui_ServeHTTP (files : gmap str str) (path : str) : Response :=
  let upath := TrimPrefix path "/" in
  let upath := if upath =s "" then "index.html" else upath in
  if ui_exists files upath || ui_exists files (TrimSuffixSlash upath ++ "/index.html") then
    let cache := if HasPrefix upath "_next/" then "public, max-age=31536000, immutable"
                 else "no-cache" in
    let answer := pf_file_server path in
    mkResponse (fst answer) (StaticFile cache path) [] (snd answer)
  else json 200 (PageBody "no-cache" "text/html; charset=utf-8" (ui_index files)).

(** ** api.go: the guarded endpoints *)

Inductive Target := Public (h : Open) | Protected (h : Guarded).
Record Route := mkRoute { rt_Method : option str; rt_Pattern : Pattern; rt_Target : Target }.

Definition on (method p : str) (h : Guarded) : Route :=
  mkRoute (Some method) (pattern p) (Protected h).
Definition register : list Route := [
  on "GET" "/buckets/" listBuckets;
  on "POST" "/buckets/" createBucket;
  on "GET" "/buckets/{id}" getBucket;
  on "PATCH" "/buckets/{id}" patchBucket;
  on "DELETE" "/buckets/{id}" deleteBucket;
  on "PUT" "/buckets/{id}/access" setBucketAccess;
  on "GET" "/buckets/{id}/usage" getBucketUsage;
  on "GET" "/buckets/{id}/cors" getBucketCORS;
  on "PUT" "/buckets/{id}/cors" setBucketCORS;
  on "DELETE" "/buckets/{id}/cors" deleteBucketCORS;
  on "GET" "/buckets/{id}/lifecycle" getBucketLifecycle;
  on "PUT" "/buckets/{id}/lifecycle" setBucketLifecycle;
  on "DELETE" "/buckets/{id}/lifecycle" deleteBucketLifecycle;
  on "GET" "/buckets/{id}/objects" listObjects;
  on "DELETE" "/buckets/{id}/objects" deleteObjects;
  on "PUT" "/buckets/{id}/objects/content" uploadObject;
  on "GET" "/buckets/{id}/objects/content" downloadObject;
  on "POST" "/buckets/{id}/objects/presign" presignObject;
  on "POST" "/buckets/{id}/objects/copy" copyObject;
  on "POST" "/buckets/{id}/objects/move" moveObject;
  on "GET" "/buckets/{id}/trash" listTrash;
  on "POST" "/buckets/{id}/trash/{trashId}/restore" restoreTrash;
  on "DELETE" "/buckets/{id}/trash/{trashId}" purgeTrash;
  on "GET" "/buckets/{id}/webhooks" listWebhooks;
  on "POST" "/buckets/{id}/webhooks" createWebhook;
  on "DELETE" "/buckets/{id}/webhooks/{whId}" deleteWebhook;
  on "GET" "/buckets/{id}/versioning" getVersioning;
  on "PUT" "/buckets/{id}/versioning" setVersioning;
  on "GET" "/buckets/{id}/versions" listVersions;
  on "POST" "/buckets/{id}/versions/restore" restoreVersion;
  on "DELETE" "/buckets/{id}/versions" deleteVersion;
  on "GET" "/buckets/{id}/replications" listReplications;
  on "POST" "/buckets/{id}/replications" startReplication;
  on "GET" "/access-keys/" listKeys;
  on "POST" "/access-keys/" createKey;
  on "GET" "/access-keys/{id}" getKey;
  on "DELETE" "/access-keys/{id}" deleteKey;
  on "POST" "/access-keys/{id}/grants" grantKey;
  on "DELETE" "/access-keys/{id}/grants/{bucketId}" revokeKey;
  on "GET" "/api-tokens/" listAPITokens;
  on "POST" "/api-tokens/" createAPIToken;
  on "DELETE" "/api-tokens/{id}" revokeAPIToken;
  on "GET" "/clusters/" listClusters;
  on "POST" "/clusters/" addCluster;
  on "GET" "/clusters/{id}" getCluster;
  on "DELETE" "/clusters/{id}" removeCluster;
  on "GET" "/clusters/{id}/nodes" listNodes;
  on "POST" "/clusters/{id}/nodes" addNode;
  on "DELETE" "/clusters/{id}/nodes/{nodeId}" removeNode;
  on "GET" "/clusters/{id}/layout" getLayout;
  on "POST" "/clusters/{id}/layout/preview" previewLayout;
  on "POST" "/clusters/{id}/layout/revert" revertLayout;
  on "GET" "/members/" listMembers;
  on "POST" "/members/invite" inviteMember;
  on "PATCH" "/members/{userId}" changeMemberRole;
  on "DELETE" "/members/{userId}" removeMember;
  on "GET" "/dashboard" dashboard;
  on "GET" "/usage/traffic" trafficUsage;
  on "GET" "/usage/storage" storageSeries;
  on "GET" "/usage/buckets" bucketUsage;
  on "GET" "/audit" listAudit;
  on "GET" "/audit/export" exportAudit;
  on "GET" "/audit/verify" verifyAudit;
  on "GET" "/docs/snippets" docsSnippets;
  on "GET" "/system/garage-metrics" garageMetrics;
  on "GET" "/system/backups/" listBackups;
  on "POST" "/system/backups/" createBackup;
  on "GET" "/system/backups/schedules/" listBackupSchedules;
  on "POST" "/system/backups/schedules/" createBackupSchedule;
  on "PATCH" "/system/backups/schedules/{id}" updateBackupSchedule;
  on "DELETE" "/system/backups/schedules/{id}" deleteBackupSchedule;
  on "GET" "/system/backups/{id}" getBackup;
  on "GET" "/system/reconcile" reconcileReport;
  on "GET" "/orgs/{orgId}/status" getOrgStatus;
  on "POST" "/orgs/{orgId}/suspend" suspendOrg;
  on "POST" "/orgs/{orgId}/resume" resumeOrg;
  on "PUT" "/orgs/{orgId}/quota" setOrgQuota;
  on "GET" "/orgs/{orgId}/clusters" listOrgClusters;
  on "POST" "/orgs/{orgId}/clusters" assignOrgCluster;
  on "DELETE" "/orgs/{orgId}/clusters/{clusterId}" unassignOrgCluster;
  on "POST" "/orgs/{orgId}/tenant-cluster" assignTenantCluster;
  on "GET" "/scim-tokens/" listSCIMTokens;
  on "POST" "/scim-tokens/" createSCIMToken;
  on "DELETE" "/scim-tokens/{id}" revokeSCIMToken;
  on "GET" "/policies/" listPolicies;
  on "POST" "/policies/" createPolicy;
  on "PATCH" "/policies/{id}" setPolicyEnabled;
  on "DELETE" "/policies/{id}" deletePolicy;
  on "GET" "/branding" getBranding;
  on "PUT" "/branding" setBranding;
  on "GET" "/billing" billingStatus;
  on "POST" "/billing/setup" setupBilling;
  on "POST" "/billing/report" triggerBillingReport;
  on "GET" "/migrations/" listMigrations;
  on "POST" "/migrations/" startMigration;
  on "GET" "/migrations/{id}" getMigration;
  on "POST" "/migrations/{id}/cancel" cancelMigration].

(** ** router.go *)

Record Deps := mkDeps {
  d_Version : str; d_Readiness : option (Svc (bool * gmap str str));
  (** are there services to serve? *)
  d_Services : bool;
  d_MetricsToken : str; d_Metrics : str;
  d_AuthMiddleware : option (Handler (B := B) -> Request -> Svc Response);
  d_SCIMHandler : option Open;
  (** the embedded web panel; [None] when it cannot be initialised *)
  d_UI : option (gmap str str) }.

Definition open_ (method p : str) (h : Open) : Route :=
  mkRoute (Some method) (pattern p) (Public h).
Definition under (prefix : Pattern) (r : Route) : Route :=
  mkRoute (rt_Method r) (prefix ++ rt_Pattern r)%list (rt_Target r).

Definition root_info (d : Deps) : Open := fun _ => ret (data 200 (ServiceInfo (d_Version d))).

Definition base_routes (d : Deps) : list Route := ([
  open_ "GET" "/healthz" (fun _ => ret (live (d_Version d)));
  open_ "GET" "/readyz" (fun _ => ready (d_Version d) (d_Readiness d));
  mkRoute None (pattern "/metrics") (Public (fun r =>
    ret (metricsGuard (d_MetricsToken d) (rq r) (json 200 (TextBody (d_Metrics d))))))] ++
  (match d_SCIMHandler d with
   | Some h => [mkRoute None (pattern "/scim/v2/*") (Public h)]
   | None => []
   end))%list.

Definition credentials (r : Req) : str + (str * str) :=
  match body_of "loginReq" dec_loginReq zero_loginReq r with
  | inl e => inl e | inr q => inr (lo_Email q, lo_Password q)
  end.
Definition admin_body (r : Req) : str + (str * str * str) :=
  match body_of "createAdminReq" dec_createAdminReq zero_createAdminReq r with
  | inl e => inl e | inr q => inr (ca_Email q, ca_Password q, ca_FullName q)
  end.
Definition signup_body (r : Req) : str + (str * str * str) :=
  match body_of "signupReq" dec_signupReq zero_signupReq r with
  | inl e => inl e | inr q => inr (sg_Email q, sg_Password q, sg_OrgName q)
  end.
Definition verify_body (r : Req) : str + str :=
  match body_of "verifyReq" dec_verifyReq zero_verifyReq r with
  | inl e => inl e | inr q => inr (ve_Token q)
  end.
Definition resend_body (r : Req) : str + str :=
  match body_of "resendReq" dec_resendReq zero_resendReq r with
  | inl e => inl e | inr q => inr (rs_Email q)
  end.

(** The endpoints that need no session. *)
Definition public_routes : list Route := [
  open_ "GET" "/setup/status" (fun _ => setupStatus);
  open_ "POST" "/setup/create-admin" (fun r => createAdmin s (rq r) (admin_body r));
  open_ "POST" "/auth/login" (fun r => login (rq r) (credentials r));
  open_ "POST" "/auth/logout" (fun r => logout (rq r));
  open_ "POST" "/auth/accept-invite" acceptInvite;
  open_ "GET" "/auth/methods" (fun _ => authMethods s);
  open_ "GET" "/auth/sso/login" (fun r => ssoLogin s pf_zero_state (rq r));
  open_ "GET" "/auth/sso/callback" (fun r => ssoCallback s (rq r));
  open_ "GET" "/branding/resolve" resolveBranding;
  open_ "GET" "/branding/domains/verify" verifyDomain;
  open_ "POST" "/signup" (fun r => signup s (rq r) (signup_body r));
  open_ "POST" "/signup/verify" (fun r => signupVerify s (rq r) (verify_body r));
  open_ "GET" "/signup/verify" (fun r => signupVerify s (rq r) (verify_body r));
  open_ "POST" "/signup/resend" (fun r => signupResend s (resend_body r));
  open_ "POST" "/billing/webhook" billingWebhook].

Definition guarded_routes : list Route := on "GET" "/auth/me" (fun _ => me s) :: register.

Definition api_v1 : Pattern := pattern "/api/v1".
Definition routes (d : Deps) : list Route :=
  (base_routes d ++
   map (under api_v1)
     (open_ "GET" "/" (root_info d) ::
      if d_Services d then public_routes ++ guarded_routes else []))%list.

Definition authMw (d : Deps) (next : Handler (B := B)) (r : Request) : Svc Response :=
  match d_AuthMiddleware d with Some mw => mw next r | None => authMiddleware s next r end.

Definition dispatch (d : Deps) (t : Target) (r : Req) : Svc Response :=
  match t with
  | Public h => h r
  | Protected h => authMw d (h r) (rq r)
  end.

Definition NotFound (d : Deps) (path : str) : Response :=
  match d_UI d with
  | Some files => if HasPrefix path "/api/" then json 404 (ErrBody "not_found" "no such endpoint")
                  else ui_ServeHTTP files path
  | None => json 404 (TextBody "404 page not found")
  end.

(** A sub-router of the guarded group is mounted behind its middleware, so a path that
    misses inside it is authenticated before the miss is answered. *)
Definition guarded_mounts : list Pattern := map (fun p => (api_v1 ++ pattern p)%list)
  ["/buckets"; "/access-keys"; "/api-tokens"; "/clusters"; "/members"; "/system/backups";
   "/system/backups/schedules"; "/orgs/{orgId}"; "/scim-tokens"; "/policies"; "/migrations"].
Definition miss (d : Deps) (within : Pattern) (resp : Response) (r : Req) : Svc Response :=
  if d_Services d && bool_decide (within ∈ guarded_mounts)
  then authMw d (fun _ _ => ret resp) (rq r) else ret resp.

(** The response and the headers every response carries. *)
Definition New (d : Deps) (r : Req) : Svc (Response * list (str * str)) :=
  let r := mkReq (pf_realIP (rq r)) (rq_Path r) (rq_Host r) (rq_Body r) (rq_Params r) in
  let table := routes d in
  let! resp := (match pf_mux (map (fun x => (rt_Method x, rt_Pattern x)) table) (rq_Method (rq r)) (rq_Path r) with
                | Matched i params =>
                    match table !! i with
                    | Some x => dispatch d (rt_Target x)
                                  (mkReq (rq r) (rq_Path r) (rq_Host r) (rq_Body r) params)
                    | None => ret (NotFound d (rq_Path r))
                    end
                | MethodMissing within => miss d within (status_only 405) r
                | Unknown within => miss d within (NotFound d (rq_Path r)) r
                end) in
  ret (resp, securityHeaders (rq r)).

End Api.
End Api.
