(* ===== verification/HttpProofs.v ===== *)
(** The authentication middleware: a guarded handler runs only for a request with a
    live credential, in the tenant of the credential's user; a refused request
    changes nothing but a token's time stamp. *)
From S2P Require Import Prelude GoStrings Storage MemStore Database Repository AccountStore AuditLog Service Frames Example Members Tenants Accounts Settings HttpAuth.
#[local] Open Scope string_scope.
Import Http.

(** * What authentication may touch

    Everything but the statement counter and the tokens' last use. *)
Definition forget (t : Live APIToken) : Live APIToken :=
  mkLive (set_at_LastUsedAt None (lv t)) (lv_deleted t).
Definition auth_view {B} (w : World B) :=
  (set_api_tokens (map forget (api_tokens (w_db w))) (tables (w_db w)),
   w_be w, w_cache w, w_rand w, w_fx w).
Definition touched {B} : World B -> World B -> Prop := same auth_view.
#[export] Instance touched_preorder {B} : PreOrder (@touched B).
Proof. apply same_preorder. Qed.

Lemma forget_stamp p t l : map forget (upd_all p (set_at_LastUsedAt t) l) = map forget l.
Proof.
  unfold upd_all. rewrite map_map. apply map_ext. intros [t0 del]. unfold forget. cbn.
  by destruct (p t0).
Qed.

Section Middleware.
Context {ENV : Env} {B : Type} (s : Services B).
Implicit Types (w : World B).

Lemma quiet_touched w w' : quiet w w' -> touched w w'.
Proof.
  intros H. apply quiet_inv in H as (Ht & Hb & Hc & Hr & Hf). unfold touched, same, auth_view.
  assert (api_tokens (w_db w) = api_tokens (w_db w')) as Ha by exact (f_equal api_tokens Ht).
  by rewrite Hb, Hc, Hr, Hf, Ht, Ha.
Qed.
Lemma guar_touched {E A} (m : M (World B) E A) : Guar quiet m -> Guar touched m.
Proof. intros Hm w r w' H. apply quiet_touched. by eapply Hm. Qed.

Lemma quiet_noop {E} : Guar quiet (ignore (E' := E) (db (B := B) (exec (fun _ d => d)))).
Proof. unfold ignore. guar. Qed.
Lemma quiet_ResolveSubject u a : Guar quiet (ResolveSubject s u a).
Proof.
  unfold ResolveSubject, Store.ResolveUserTenant. guar. apply quiet_db. quiet. case_match; quiet.
Qed.
Lemma quiet_withUser u : Guar quiet (withUser s u).
Proof. unfold withUser. guar. apply quiet_ResolveSubject. Qed.
Lemma quiet_now {E} : Guar quiet (now (B := B) (E := E)).
Proof. intros w r w' H. unfold now in H. by simplify_eq. Qed.
Lemma quiet_OrgIsSuspended o : Guar quiet (Tenants.OrgIsSuspended (B := B) o).
Proof. unfold Tenants.OrgIsSuspended, Store.GetOrgStatus. quiet. Qed.
Lemma quiet_SessionUser c : Guar quiet (Members.SessionUser (B := B) c).
Proof. unfold Members.SessionUser, Store.GetUserBySessionToken. quiet. Qed.

Lemma touched_UserByAPIToken t : Guar touched (Accounts.UserByAPIToken (B := B) t).
Proof.
  unfold Accounts.UserByAPIToken. guar. apply guar_zoom. intros w r d H.
  revert H. unfold AccountStore.GetUserByAPIToken. intros H. rewrite bind_run in H.
  destruct (mapErr _ _ (w_db w)) as [r1 d1] eqn:E1.
  assert (tables (w_db w) = tables d1) as Ht.
  { change (same tables (w_db w) d1). eapply guar_mapErr, E1. apply reads_query_row. }
  destruct r1 as [e|u]; [injection H as _ <-; by apply quiet_touched; unfold quiet, same, quiet_view; cbn; rewrite Ht|].
  rewrite bind_run, attempt_run in H. destruct (exec _ d1) as [r2 d2] eqn:E2.
  unfold ret in H. injection H as _ <-. unfold touched, same, auth_view. cbn.
  assert (api_tokens (w_db w) = api_tokens d1) as Ha by exact (f_equal api_tokens Ht).
  destruct r2 as [e|v]; [apply stmt_inl in E2 as ->|apply exec_inr in E2 as ->]; cbn;
    rewrite Ht, Ha; [done|]. by rewrite forget_stamp.
Qed.

(** * Credentials *)

(** The credential of a request, checked at the statement with the number of the
    world's counter: a live unexpired token, or a live session with a matching CSRF
    token when the method changes something. *)
Definition by_token (r : Request) (u : User) w : Prop :=
  bearerToken r <> "" /\ HasPrefix (bearerToken r) Accounts.APITokenPrefix = true /\
  set_u_EmailVerified false <$> AccountStore.token_user (env_now (db_tick (w_db w)))
    (HashToken (bearerToken r)) (w_db w) = Some u.
Definition by_session (r : Request) (u : User) w : Prop :=
  bearerToken r = "" /\ (unsafe_method (rq_Method r) = true -> csrf_ok r = true) /\
  exists c, cookie r sessionCookie = Some c /\
    set_u_EmailVerified false <$> Store.session_user (env_now (db_tick (w_db w))) (HashToken c)
      (w_db w) = Some u.

Lemma UserByAPIToken_ok t w u w' : Accounts.UserByAPIToken t w = (inr u, w') ->
  HasPrefix t Accounts.APITokenPrefix = true /\
  set_u_EmailVerified false <$> AccountStore.token_user (env_now (db_tick (w_db w))) (HashToken t)
    (w_db w) = Some u.
Proof.
  unfold Accounts.UserByAPIToken. intros H. apply bind_inr in H as ([] & w1 & Hp & H).
  destruct (HasPrefix t _); [|done]. unfold ret in Hp. injection Hp as <-. split; [done|].
  apply db_inv in H as (d & H & _). unfold AccountStore.GetUserByAPIToken in H.
  apply bind_inr in H as (u0 & d1 & H1 & H). apply mapErr_inr, query_row_inr in H1 as [_ H1].
  rewrite bind_run, attempt_run in H. destruct (exec _ d1) as [r2 d2].
  unfold ret in H. injection H as <- _. exact H1.
Qed.
Lemma SessionUser_ok c w u w' : Members.SessionUser c w = (inr u, w') ->
  set_u_EmailVerified false <$> Store.session_user (env_now (db_tick (w_db w))) (HashToken c)
    (w_db w) = Some u.
Proof.
  unfold Members.SessionUser. intros H. apply db_inv in H as (d & H & _).
  by apply mapErr_inr, query_row_inr in H as [_ H].
Qed.

(** * What the handler is given *)

(** The two tenants a user's request can get, whatever fails: that of the user's
    first membership, in its first project or, when that read fails or there is none,
    in the deployment's default project; or the deployment's default organization, as
    its "admin" ("owner" for a platform operator). *)
Definition member_tenant (uid : str) (subj : Subject) (project : str) (d : DB) : Prop :=
  exists m, Store.first_membership uid d = Some m /\ sub_TenantID subj = om_OrgID m /\
    (om_Role m <> "" -> sub_Role subj = om_Role m) /\
    ((exists p, Store.first_project (om_OrgID m) d = Some p /\ project = prj_ID p) \/
     project = s_ProjectID s).
Definition default_tenant (subj : Subject) (project : str) : Prop :=
  sub_TenantID subj = s_OrgID s /\ project = s_ProjectID s /\
  sub_Role subj = (if sub_PlatformAdmin subj then "owner" else "admin").

(** The context a handler runs in is the user's: its tenant is one of the two.  When
    every statement of the database answers, tenant and role are those of the user's
    first membership, the project is that organization's first one, and the
    organization is not suspended unless the user is a platform operator.  [w] is
    the world the request arrives in. *)
Definition right_context (u : User) (ctx : Ctx) w : Prop :=
  let subj := subjectFrom ctx in
  sub_UserID subj = u_ID u /\ sub_PlatformAdmin subj = u_IsPlatformAdmin u /\
  tc_OrgID (tenant s ctx) = sub_TenantID subj /\
  (member_tenant (u_ID u) subj (tc_ProjectID (tenant s ctx)) (w_db w) \/
   default_tenant subj (tc_ProjectID (tenant s ctx))) /\
  (reliable -> forall m, Store.first_membership (u_ID u) (w_db w) = Some m -> om_OrgID m <> "" ->
     om_Role m <> "" -> sub_TenantID subj = om_OrgID m /\ sub_Role subj = om_Role m) /\
  (reliable -> forall m p, Store.first_membership (u_ID u) (w_db w) = Some m -> om_OrgID m <> "" ->
     Store.first_project (om_OrgID m) (w_db w) = Some p -> tc_ProjectID (tenant s ctx) = prj_ID p) /\
  (reliable -> u_IsPlatformAdmin u = false ->
     forall o, Store.org_row (sub_TenantID subj) (w_db w) = Some o ->
       sub_TenantID subj <> "" -> org_Status o <> "suspended").

Lemma query_row_reliable {A} (f : nat -> DB -> option A) d a :
  reliable -> f (db_tick d) (set_db_tick (S (db_tick d)) d) = Some a ->
  query_row f d = (inr a, set_db_tick (S (db_tick d)) d).
Proof. intros Hrel Hf. unfold query_row, stmt. by rewrite Hrel, Hf. Qed.

(** What the suspension and membership reads see does not change on the way. *)
Definition org_tables (d : DB) := (members d, orgs d, projects d).
Lemma touched_orgs w w' : touched w w' -> org_tables (w_db w) = org_tables (w_db w').
Proof. intros H. exact (f_equal (fun v => org_tables (fst (fst (fst (fst v))))) H). Qed.

Lemma ResolveSubject_ok uid adm w st w' : ResolveSubject s uid adm w = (inr st, w') ->
  sub_UserID (fst st) = uid /\ sub_PlatformAdmin (fst st) = adm /\
  tc_OrgID (snd st) = sub_TenantID (fst st) /\ (tc_OrgID (snd st) = "" -> s_OrgID s = "") /\
  (reliable -> forall m, Store.first_membership uid (w_db w) = Some m -> om_OrgID m <> "" ->
     om_Role m <> "" -> sub_TenantID (fst st) = om_OrgID m /\ sub_Role (fst st) = om_Role m) /\
  (reliable -> forall m p, Store.first_membership uid (w_db w) = Some m -> om_OrgID m <> "" ->
     Store.first_project (om_OrgID m) (w_db w) = Some p ->
     tc_OrgID (snd st) = om_OrgID m /\ tc_ProjectID (snd st) = prj_ID p).
Proof.
  unfold ResolveSubject. intros H. rewrite bind_run, attempt_run in H.
  destruct (db _ w) as [rr w1] eqn:E1. 
  assert (forall m, reliable -> Store.first_membership uid (w_db w) = Some m ->
    exists p, rr = inr (om_OrgID m, p, om_Role m) /\
      forall pr, Store.first_project (om_OrgID m) (w_db w) = Some pr -> p = prj_ID pr) as Hrr.
  { intros m Hrel Hm. apply db_inv in E1 as (d & E1 & _). unfold Store.ResolveUserTenant in E1.
    rewrite bind_run, attempt_run in E1.
    erewrite query_row_reliable in E1; [|done|exact Hm]. rewrite bind_run, attempt_run in E1.
    destruct (query_row _ _) as [rp d2] eqn:E2 in E1. unfold ret in E1. injection E1 as <- _.
    eexists. split; [done|]. intros pr Hpr.
    erewrite query_row_reliable in E2; [|done|exact Hpr]. by injection E2 as <- _. }
  destruct rr as [e|[[o p] ro]]; cbn in H.
  { injection H as <- _. split_and!; [done..| |]; [intros Hrel m Hm|intros Hrel m pr Hm];
      by destruct (Hrr m Hrel Hm) as (? & ? & _). }
  destruct (o =s "") eqn:Eo; injection H as <- _; (split_and!; [done..| | |]); cbn.
  - done.
  - intros Hrel m Hm Ho. destruct (Hrr m Hrel Hm) as (p' & [= -> _ _] & _). by apply eqb_true_str in Eo.
  - intros Hrel m pr Hm Ho. destruct (Hrr m Hrel Hm) as (p' & [= -> _ _] & _). by apply eqb_true_str in Eo.
  - intros ->. by rewrite eqb_refl_str in Eo.
  - intros Hrel m Hm Ho Hr. destruct (Hrr m Hrel Hm) as (p' & [= -> _ ->] & _).
    apply eqb_false_str in Hr. by rewrite Hr.
  - intros Hrel m pr Hm Ho Hpr. destruct (Hrr m Hrel Hm) as (p' & [= -> -> _] & Hp).
    split; [done|]. by apply Hp.
Qed.

Lemma ResolveSubject_tenant uid adm w st w' : ResolveSubject s uid adm w = (inr st, w') ->
  let ctx := mkCtx (Some (fst st)) (Some (snd st)) None in
  member_tenant uid (fst st) (tc_ProjectID (tenant s ctx)) (w_db w) \/
  default_tenant (fst st) (tc_ProjectID (tenant s ctx)).
Proof.
  unfold ResolveSubject. intros H. rewrite bind_run, attempt_run in H.
  destruct (db _ w) as [rr w1] eqn:E1. apply db_inv in E1 as (d & E1 & _).
  unfold Store.ResolveUserTenant in E1. rewrite bind_run, attempt_run in E1.
  destruct (query_row _ (w_db w)) as [[e|m] d1] eqn:Em in E1.
  { right. assert (rr = inl (wrapDB "repository: resolve user org: " e) \/
      rr = inr (s_OrgID s, s_ProjectID s, "")) as [-> | ->]
      by (destruct e; cbn in E1; injection E1 as <- _; auto);
      cbn in H; [|destruct (s_OrgID s =s "") eqn:Eo]; injection H as <- _;
      unfold default_tenant, tenant; cbn; [| |rewrite Eo]; by repeat destruct (_ =s ""). }
  apply query_row_inr in Em as [-> Hm]. rewrite bind_run, attempt_run in E1.
  destruct (query_row _ _) as [rp d2] eqn:Ep in E1. unfold ret in E1. injection E1 as <- _.
  cbn in H. destruct (om_OrgID m =s "") eqn:Eo; injection H as <- _.
  { right. unfold default_tenant, tenant. cbn. by destruct (s_OrgID s =s ""). }
  left. exists m. unfold tenant. cbn. rewrite Eo. split; [exact Hm|]. split; [done|].
  split; [intros Hr; apply eqb_false_str in Hr; by rewrite Hr|].
  destruct rp as [e|p]; [by right|left]. apply query_row_inr in Ep as [_ Hp]. by exists p.
Qed.

Lemma OrgIsSuspended_false o w w' row :
  Tenants.OrgIsSuspended o w = (inr false, w') -> reliable -> o <> "" ->
  Store.org_row o (w_db w) = Some row -> org_Status row <> "suspended".
Proof.
  unfold Tenants.OrgIsSuspended. intros H Hrel Ho Hrow. apply eqb_false_str in Ho.
  rewrite Ho, bind_run, attempt_run in H. unfold db, zoom, Store.GetOrgStatus, mapErr in H.
  erewrite query_row_reliable in H; [|done|].
  2: { change (Store.org_row o (set_db_tick _ _)) with (Store.org_row o (w_db w)). by rewrite Hrow. }
  cbn in H.
  injection H as H _. by apply eqb_false_str in H.
Qed.
Lemma OrgIsSuspended_total o w : exists b w', Tenants.OrgIsSuspended o w = (inr b, w').
Proof.
  unfold Tenants.OrgIsSuspended. destruct (o =s ""); [by eauto|].
  rewrite bind_run, attempt_run. destruct (db _ w). by eauto.
Qed.

(** * Refused or run *)

Definition is_error (resp : Response) : Prop := exists code msg, rs_Body resp = ErrBody code msg.
Definition refusal (res : Error + Response) : Prop :=
  exists resp, res = inr resp /\ is_error resp /\
    (rs_Status resp = 401 \/ rs_Status resp = 403 \/ rs_Status resp = 500)%Z.
Lemma refusal_auth code msg status : (status = 401 \/ status = 403 \/ status = 500)%Z ->
  refusal (inr (writeAuthErr code msg status)).
Proof. intros H. eexists. split; [done|]. split; [|done]. by eexists _, _. Qed.

(** The handler ran, in a world reached without a change that matters. *)
Definition handled (next : Handler (B := B)) (u : User) w (res : Error + Response) w' : Prop :=
  exists ctx w1 w2, touched w w1 /\ right_context u ctx w /\ next ctx u w1 = (res, w2) /\
    quiet w2 w'.

Lemma ScopeRequest_run {A} ctx (refused m : Service.Svc A) w res w' :
  ScopeRequest s ctx refused m w = (res, w') ->
  (exists w1, quiet w w1 /\ refused w1 = (res, w')) \/
  (exists w1 w2, quiet w w1 /\ m w1 = (res, w2) /\ quiet w2 w').
Proof.
  unfold ScopeRequest. destruct (_ && _); [|by right; exists w, w'].
  destruct env_driver; [|by right; exists w, w']. rewrite bind_run, attempt_run.
  destruct (db (exec _) w) as [r1 w1] eqn:E1.
  assert (quiet w w1) by (eapply (quiet_db (exec (fun _ d => d))); [quiet|exact E1]).
  destruct r1; cbn; [by left; eauto|]. rewrite bind_run, attempt_run.
  destruct (m w1) as [r2 w2] eqn:E2. rewrite bind_run.
  destruct (ignore _ w2) as [r3 w3] eqn:E3. assert (quiet w2 w3) by (eapply quiet_noop, E3).
  unfold ignore in E3. rewrite bind_run, attempt_run in E3. destruct (db _ w2). 
  injection E3 as <- <-. intros Hres. right. exists w1, w2. 
  destruct r2; injection Hres as <- <-; eauto.
Qed.

(** The suspension check of the middleware. *)
Lemma suspension_run (adm : bool) o w : exists b w',
  (if adm then ret false else Tenants.OrgIsSuspended o) w = (inr b, w') /\ quiet w w' /\
  (b = false -> reliable -> adm = false -> forall row,
     Store.org_row o (w_db w) = Some row -> o <> "" -> org_Status row <> "suspended").
Proof.
  destruct adm; [by exists false, w|]. destruct (OrgIsSuspended_total o w) as (b & w' & H).
  exists b, w'. split; [done|]. split; [eapply quiet_OrgIsSuspended, H|].
  intros -> Hrel _ row Hrow Ho. by eapply OrgIsSuspended_false.
Qed.

Lemma withUser_ok u w : exists ctx w', withUser s u w = (inr ctx, w') /\ quiet w w' /\
  ctx_subject ctx <> None /\
  let subj := subjectFrom ctx in
  sub_UserID subj = u_ID u /\ sub_PlatformAdmin subj = u_IsPlatformAdmin u /\
  tc_OrgID (tenant s ctx) = sub_TenantID subj /\
  (member_tenant (u_ID u) subj (tc_ProjectID (tenant s ctx)) (w_db w) \/
   default_tenant subj (tc_ProjectID (tenant s ctx))) /\
  (reliable -> forall m, Store.first_membership (u_ID u) (w_db w) = Some m -> om_OrgID m <> "" ->
     om_Role m <> "" -> sub_TenantID subj = om_OrgID m /\ sub_Role subj = om_Role m) /\
  (reliable -> forall m p, Store.first_membership (u_ID u) (w_db w) = Some m -> om_OrgID m <> "" ->
     Store.first_project (om_OrgID m) (w_db w) = Some p -> tc_ProjectID (tenant s ctx) = prj_ID p).
Proof.
  unfold withUser. rewrite bind_run.
  destruct (ResolveSubject s _ _ w) as [[e|st] w'] eqn:E0.
  - unfold ResolveSubject in E0. rewrite bind_run, attempt_run in E0.
    destruct (db _ w) as [rr ?]. destruct rr as [|[[] ]]; cbn in E0; [done|].
    by destruct (_ =s "").
  - eexists _, w'. split; [done|]. split; [eapply quiet_ResolveSubject, E0|].
    pose proof (ResolveSubject_tenant _ _ _ _ _ E0) as Hten.
    apply ResolveSubject_ok in E0 as (Hu & Ha & Ht & He & Hm & Hp). split_and!; [done..| |done|done|].
    + cbn. rewrite <-Ht. unfold tenant. cbn. destruct (tc_OrgID _ =s "") eqn:Eo; [|done].
      apply eqb_true_str in Eo. rewrite Eo. by apply He.
    + intros Hrel m p Hm1 Ho Hp1. destruct (Hp Hrel m p Hm1 Ho Hp1) as [Ht1 <-].
      unfold tenant. cbn. rewrite Ht1. apply eqb_false_str in Ho. by rewrite Ho.
Qed.

(** The address and the time of the request are all the middleware adds. *)
Lemma with_attributes_same r t ctx : ctx_subject ctx <> None ->
  let subj := subjectFrom ctx in let subj' := subjectFrom (with_attributes r t ctx) in
  sub_UserID subj' = sub_UserID subj /\ sub_PlatformAdmin subj' = sub_PlatformAdmin subj /\
  sub_TenantID subj' = sub_TenantID subj /\ sub_Role subj' = sub_Role subj /\
  tenant s (with_attributes r t ctx) = tenant s ctx.
Proof. destruct ctx as [[subj|] t0 ss]; [|done]. by intros _. Qed.

Lemma quiet_org_tables w w' : quiet w w' -> org_tables (w_db w) = org_tables (w_db w').
Proof. intros H. by apply touched_orgs, quiet_touched. Qed.

Lemma serveAuthed_run r next u w res w' :
  serveAuthed s r next u w = (res, w') ->
  (refusal res /\ quiet w w') \/
  (exists ctx w1 w2, quiet w w1 /\ right_context u ctx w /\ next ctx u w1 = (res, w2) /\
     quiet w2 w').
Proof.
  unfold serveAuthed. rewrite bind_run.
  destruct (withUser_ok u w) as (c0 & w1 & -> & Hq1 & Hsome & Hu & Ha & Ht & Hten & Hm & Hp).
  rewrite bind_run. unfold now at 1. set (ctx := with_attributes _ _ _).
  destruct (with_attributes_same r (env_now (db_tick (w_db w1))) c0 Hsome)
    as (Su & Sa & St & Sr & Stn). fold ctx in Su, Sa, St, Sr, Stn. rewrite bind_run.
  destruct (suspension_run (sub_PlatformAdmin (subjectFrom ctx)) (sub_TenantID (subjectFrom ctx)) w1)
    as (b & w2 & -> & Hq2 & Hb).
  assert (quiet w w2) as Hq by (by etrans). destruct b; cbn.
  { intros [= <- <-]. left. split; [|done]. apply refusal_auth. by right; left. }
  intros H. apply ScopeRequest_run in H as [(w3 & Hq3 & H)|(w3 & w4 & Hq3 & H & Hq4)].
  - left. injection H as <- <-. split; [|by etrans]. apply refusal_auth. by right; right.
  - right. exists ctx, w3, w4. split; [by etrans|]. split; [|done].
    unfold right_context, member_tenant, default_tenant. rewrite Su, Sa, Sr, Stn, St.
    rewrite Sa, St in Hb. split_and!; [done..|].
    intros Hrel Hadm row Hrow Hne. eapply Hb; [done..|by rewrite Ha| |exact Hne].
    apply quiet_org_tables in Hq1 as [= _ Ho _]. unfold Store.org_row in *. by rewrite <-Ho.
Qed.

Lemma right_context_touched u ctx w w1 :
  touched w w1 -> right_context u ctx w1 -> right_context u ctx w.
Proof.
  intros Ht. apply touched_orgs in Ht as [= Hm Ho Hp].
  unfold right_context, member_tenant, Store.first_membership, Store.org_row, Store.first_project.
  by rewrite Hm, Ho, Hp.
Qed.
Lemma serve_handled r next u w w1 res w' :
  serveAuthed s r next u w1 = (res, w') -> touched w w1 ->
  (refusal res /\ touched w w') \/ handled next u w res w'.
Proof.
  intros H Ht. apply serveAuthed_run in H as [[Hr Hq]|(ctx & w2 & w3 & Hq & Hc & Hn & Hq3)].
  - left. split; [done|]. etrans; [done|by apply quiet_touched].
  - right. exists ctx, w2, w3. split; [etrans; [done|by apply quiet_touched]|].
    split; [by eapply right_context_touched|done].
Qed.

Lemma authMiddleware_run next r w res w' :
  authMiddleware s next r w = (res, w') ->
  (refusal res /\ touched w w') \/
  exists u, (by_token r u w \/ by_session r u w) /\ handled next u w res w'.
Proof.
  unfold authMiddleware. intros H.
  assert (forall v msg, touched w v -> (inr (unauthenticated msg), v) = (res, w') ->
    refusal res /\ touched w w') as Hno.
  { intros v msg Hv [= <- <-]. split; [|done]. apply refusal_auth. by left. }
  destruct (bearerToken r =s "") eqn:Eb; cbn in H.
  - apply eqb_true_str in Eb. destruct (cookie r sessionCookie) as [c|] eqn:Ec; [|by left; eapply Hno].
    destruct (c =s ""); [by left; eapply Hno|]. rewrite bind_run, attempt_run in H.
    destruct (Members.SessionUser c w) as [[e|u] w1] eqn:Es; cbn in H;
      assert (quiet w w1) as Hq by (eapply quiet_SessionUser, Es).
    { left. eapply Hno, H. by apply quiet_touched. }
    apply SessionUser_ok in Es. destruct (unsafe_method _ && negb (csrf_ok r)) eqn:Ecs; cbn in H.
    { injection H as <- <-. left. split; [|by apply quiet_touched].
      apply refusal_auth. by right; left. }
    eapply serve_handled in H as [H|H]; [by left|right|by apply quiet_touched].
    exists u. split; [|done]. right. split; [done|]. split; [|by eauto].
    intros Hu. rewrite Hu in Ecs. by destruct (csrf_ok r).
  - rewrite bind_run, attempt_run in H.
    destruct (Accounts.UserByAPIToken (bearerToken r) w) as [[e|u] w1] eqn:Et; cbn in H;
      assert (touched w w1) as Hq by (eapply touched_UserByAPIToken, Et).
    { by left; eapply Hno. }
    eapply serve_handled in H as [H|H]; [by left|right|done].
    exists u. split; [|done]. left. split; [by apply eqb_false_str|]. by apply UserByAPIToken_ok in Et.
Qed.

(** C3: The authentication middleware guards its handler, whatever the request and
    whichever statements of the database fail: either the request is refused (401,
    403 or 500) and nothing changed but a token's time stamp, or it carries a live
    credential (an unexpired, unrevoked API token, or a live session together with
    the CSRF token when the method changes something), and the handler ran once, as
    that credential's user; the response is the handler's.  The tenant it ran in is
    that of the user's first membership, or else the deployment's default
    organization, as its admin.  When every statement answers it is the former if the
    user has a membership, with the membership's role and that organization's first
    project, and, unless the user is a platform operator, the organization is not
    suspended. *)
Theorem guarded_requests next r w res w' :
  authMiddleware s next r w = (res, w') ->
  (refusal res /\ touched w w') \/
  exists u, (by_token r u w \/ by_session r u w) /\ handled next u w res w'.
Proof. apply authMiddleware_run. Qed.
End Middleware.

(** A request with a live session: the example's user reads its own profile. *)
Definition sum_right {E A} (r : E + A) : option A := match r with inr a => Some a | inl _ => None end.
Definition me_request : Request :=
  mkRequest "POST" {[ "X-CSRF-Token" := "c1" ]} [(sessionCookie, "sess"); (csrfCookie, "c1")] ∅
    "203.0.113.7:4711" true.
Definition session_world : World MemB :=
  set_w_db (set_sessions [mkSession "ses-1" "alice" (HashToken "sess") 10000 None]
              (w_db ex_world)) ex_world.
Lemma guarded_requests_witness :
  let out := @authMiddleware ex_env _ ex_services (me ex_services) me_request session_world in
  rs_Status <$> sum_right (fst out) = Some 200%Z /\
  exists u, @by_session ex_env _ me_request u session_world /\
    @handled ex_env _ ex_services (me ex_services) u session_world (fst out) (snd out).
Proof.
  intros out. assert (rs_Status <$> sum_right (fst out) = Some 200%Z) as Hs by (vm_compute; reflexivity).
  split; [exact Hs|].
  destruct (guarded_requests (ENV := ex_env) ex_services (me ex_services) me_request session_world
    (fst out) (snd out) (surjective_pairing _)) as [[(resp & Hr & _ & Hst) _]|(u & [(Hb & _)|Hu] & Hh)].
  - exfalso. rewrite Hr in Hs. injection Hs as Hs. rewrite Hs in Hst. lia.
  - exfalso. vm_compute in Hb. by apply Hb.
  - exists u. exact (conj Hu Hh).
Defined.

(** * Where the tenant resolution fails open

    [ResolveSubject] answers the deployment's default organization with the role
    "admin" both when the user has no membership and when the lookup fails. *)

(** A user without any membership is served as "admin" of the default
    organization. *)
Theorem stranger_is_default_admin {ENV : Env} {B} (s : Services B) uid w :
  Store.first_membership uid (w_db w) = None \/ env_fault (db_tick (w_db w)) <> None ->
  exists w', ResolveSubject s uid false w =
    (inr (mkSubject uid (s_OrgID s) "admin" false "" zero_time,
          mkTenantContext (s_OrgID s) (s_ProjectID s) (s_ClusterID s)), w').
Proof.
  intros H. unfold ResolveSubject. rewrite bind_run, attempt_run.
  unfold db, zoom, Store.ResolveUserTenant. rewrite bind_run, attempt_run.
  unfold query_row, stmt.
  change (Store.first_membership uid (set_db_tick _ _)) with (Store.first_membership uid (w_db w)).
  destruct (env_fault _) as [msg|] eqn:Ef; cbn.
  - by eexists.
  - destruct H as [->|H]; [|done]. cbn. destruct (s_OrgID s =s "") eqn:Eo; [|by eexists].
    by eexists.
Qed.
