(* ===== verification/HttpApiProofs.v ===== *)
(** The request pipeline end to end: what a request without a credential can reach,
    and that the endpoints of a bucket stay in the caller's tenant. *)
From Stdlib Require Import Ascii.
From S2P Require Import Prelude GoStrings Storage S3core Garage MemStore S3Laws Database Repository AccountStore AuditLog Service Frames Example Buckets Objects Isolation Members Tenants Billing Migrations Webhooks Clusters Replications Accounts Settings Backups Reports Json Requests HttpAuth HttpApi HttpProofs.
#[local] Open Scope string_scope.
Import Http Requests Api.

(** * The public paths *)

Definition public_paths : list str :=
  ["/healthz"; "/readyz"; "/metrics"; "/api/v1"; "/api/v1/";
   "/api/v1/setup/status"; "/api/v1/setup/create-admin";
   "/api/v1/auth/login"; "/api/v1/auth/logout"; "/api/v1/auth/accept-invite";
   "/api/v1/auth/methods"; "/api/v1/auth/sso/login"; "/api/v1/auth/sso/callback";
   "/api/v1/branding/resolve"; "/api/v1/branding/domains/verify";
   "/api/v1/signup"; "/api/v1/signup/verify"; "/api/v1/signup/resend";
   "/api/v1/billing/webhook"].

(** A pattern without parameters stands for one path, or two at a sub-router's root. *)
Definition static (p : Pattern) : bool :=
  forallb (fun g => match g with Static _ => true | _ => false end) p.
Definition paths_of (p : Pattern) : list str := [path_of p ∅; path_of (removelast p) ∅].

Lemma static_text params g :
  match g with Static _ => true | _ => false end = true -> seg_text params g = seg_text ∅ g.
Proof. by destruct g. Qed.
Lemma static_path p params : static p = true -> path_of p params = path_of p ∅.
Proof.
  intros H. unfold path_of. f_equal. apply map_ext_in. intros g Hg. f_equal.
  unfold static in H. rewrite forallb_forall in H. by apply static_text, H.
Qed.
Lemma static_denotes p params path : static p = true -> denotes p params path ->
  path = path_of p ∅ \/ (path = path_of (removelast p) ∅ /\ exists g, last p = Some g /\ seg_text ∅ g = "").
Proof.
  intros Hs [->|(p' & g & -> & Hp & Hg & ->)]; [left; by apply static_path|right].
  rewrite removelast_last, last_snoc. unfold static in Hs. rewrite forallb_app in Hs. bool_prop.
  cbn in H0. bool_prop. split; [by apply static_path|]. exists g. split; [done|].
  rewrite <-Hg. symmetry. by apply static_text.
Qed.

(** The public rows of the table have the public paths. *)
Definition public_row (p : Pattern) : bool :=
  static p && bool_decide (path_of p ∅ ∈ public_paths) &&
  match last p with
  | Some g => negb (seg_text ∅ g =s "") || bool_decide (path_of (removelast p) ∅ ∈ public_paths)
  | None => true
  end.
Lemma public_row_path p params path :
  public_row p = true -> denotes p params path -> path ∈ public_paths.
Proof.
  unfold public_row. rewrite !andb_true_iff. intros [[Hs Hp] Hl] Hd.
  destruct (static_denotes _ _ _ Hs Hd) as [->|(-> & g & Hg & Hgt)].
  - by apply bool_decide_eq_true in Hp.
  - rewrite Hg, Hgt in Hl. by apply bool_decide_eq_true in Hl.
Qed.

Section Pipeline.
Context {ENV : Env} {B : Type} `{!S3Service B} `{!GarageServer B} `{PF : Platform} `{PL : !PlatformLaws}.
Context (s : Services B) (GarageAdminURL MetricsToken : str).
Implicit Types (w : World B) (d : Deps (B := B)) (r : Req).

Abbreviation the_routes := (routes s GarageAdminURL MetricsToken).
Abbreviation serve := (New s GarageAdminURL MetricsToken).

(** The SCIM handler is mounted beside the API, with an authentication of its own. *)
Definition scim_row d (p : Pattern) : Prop :=
  d_SCIMHandler d <> None /\ p = pattern "/scim/v2/*".
Lemma scim_row_path params path : denotes (pattern "/scim/v2/*") params path ->
  HasPrefix path "/scim/v2" = true.
Proof.
  intros [->|(p' & g & Hp & _ & _ & ->)]; [reflexivity|].
  change (pattern "/scim/v2/*") with ([Static "scim"; Static "v2"] ++ [Rest])%list in Hp.
  apply app_inj_tail in Hp as [<- _]. reflexivity.
Qed.
Lemma public_rows d x : x ∈ the_routes d ->
  match rt_Target x with
  | Public _ => public_row (rt_Pattern x) = true \/ scim_row d (rt_Pattern x)
  | Protected _ => True
  end.
Proof.
  revert x. apply Forall_forall. unfold routes, base_routes, scim_row.
  destruct (d_SCIMHandler d), (d_Services d);
    repeat (apply Forall_cons; split; [first [exact I|left; by vm_compute|by right]|]);
    apply Forall_nil_2.
Qed.

(** The credential of a request does not depend on its remote address. *)
Lemma realIP_credential (r : Request) (u : User) w :
  by_token (pf_realIP r) u w \/ by_session (pf_realIP r) u w -> by_token r u w \/ by_session r u w.
Proof. destruct (realIP_law r) as [a ->]. done. Qed.

(** What a request may be given without a credential: a refusal, the web panel, or
    the news that there is no such endpoint or method. *)
Definition outsider (d : Deps (B := B)) (path : str) (resp : Response) : Prop :=
  refusal (inr resp) \/ resp = status_only 405 \/ resp = NotFound d path.

Definition with_headers (r : Req) (out : Error + Response) : Error + (Response * list (str * str)) :=
  match out with inl e => inl e | inr resp => inr (resp, securityHeaders (pf_realIP (rq r))) end.

(** A path that names no endpoint: the answer is given outright, or behind the
    authentication of the sub-router it lies in. *)
Definition missed d r (w : World B) (out : Error + Response) w' : Prop :=
  exists resp, (resp = status_only 405 \/ resp = NotFound d (rq_Path r)) /\
    (out = inr resp /\ w' = w \/
     authMw s d (fun _ _ => ret resp) (pf_realIP (rq r)) w = (out, w')).

Lemma miss_run d within resp r w out w' :
  resp = status_only 405 \/ resp = NotFound d (rq_Path r) ->
  miss s d within resp (mkReq (pf_realIP (rq r)) (rq_Path r) (rq_Host r) (rq_Body r) (rq_Params r)) w =
    (out, w') -> missed d r w out w'.
Proof.
  intros Hr H. exists resp. split; [done|]. unfold miss in H.
  destruct (_ && _); [by right|left]. by injection H as <- <-.
Qed.

Lemma serve_run d r w res w' : serve d r w = (res, w') ->
  exists out, res = with_headers r out /\
  ((missed d r w out w' /\
      forall i params, pf_mux (map (fun x => (rt_Method x, rt_Pattern x)) (the_routes d))
        (rq_Method (pf_realIP (rq r))) (rq_Path r) = Matched i params -> the_routes d !! i = None) \/
   exists i params x,
     pf_mux (map (fun x => (rt_Method x, rt_Pattern x)) (the_routes d)) (rq_Method (pf_realIP (rq r))) (rq_Path r) =
       Matched i params /\
     the_routes d !! i = Some x /\
     dispatch s d (rt_Target x)
       (mkReq (pf_realIP (rq r)) (rq_Path r) (rq_Host r) (rq_Body r) params) w = (out, w')).
Proof.
  unfold New. cbn [rq rq_Path rq_Host rq_Body rq_Params]. intros H. rewrite bind_run in H.
  destruct (pf_mux _ _ _) as [i params|within|within] eqn:Em.
  2, 3: destruct (miss _ _ _ _ _ w) as [out w1] eqn:Ed; exists out;
    apply miss_run in Ed; [|by auto];
    destruct out as [e|resp]; cbn in H; injection H as <- <-; (split; [done|]); left; by split.
  destruct (the_routes d !! i) as [x|] eqn:Ex.
  2: { cbn in H. injection H as <- <-. eexists (inr _). split; [done|].
    left. split; [|by intros ?? [= <- _]]. eexists. split; [by right|by left]. }
  destruct (dispatch _ _ _ _ w) as [out w1] eqn:Ed. exists out.
  destruct out as [e|resp]; cbn in H; injection H as <- <-; (split; [done|]); right; eauto 10.
Qed.

(** What the holder of a live credential is given: the answer of one guarded handler
    of the table on parameters that spell the path, or a 404 or 405. *)
Definition served d r (u : User) w (out : Error + Response) w' : Prop :=
  (exists x h params, x ∈ the_routes d /\ rt_Target x = Protected h /\
     denotes (rt_Pattern x) params (rq_Path r) /\
     handled s (h (mkReq (pf_realIP (rq r)) (rq_Path r) (rq_Host r) (rq_Body r) params)) u w out w') \/
  (touched w w' /\ (out = inr (status_only 405) \/ out = inr (NotFound d (rq_Path r)))).

Lemma handled_miss resp u w out w' :
  handled s (fun _ _ => ret resp) u w out w' -> touched w w' /\ out = inr resp.
Proof.
  intros (ctx & w1 & w2 & Ht & _ & Hn & Hq). unfold ret in Hn. injection Hn as <- <-.
  split; [|done]. etrans; [done|by apply quiet_touched].
Qed.

(** C4: the perimeter of the API, with the repository's own authentication (no other
    middleware in the dependencies, as the server wires them).  Outside the nineteen
    public paths, and outside /scim/v2 when an edition mounts a SCIM handler there,
    whatever the method, the headers, the body and the failures of the database, a
    request either carries a live credential, and then one guarded handler of the
    table ran for its user on parameters that spell the path or it got a 404 or 405
    and nothing changed but a token's time stamp, or it gets a refusal (401, 403,
    500), a 404, a 405 or the web panel, and nothing changed but a token's time
    stamp.  For any matcher and any RealIP that keep chi's promises. *)
Theorem only_public_paths_are_open d r w res w'
    (Hmw : d_AuthMiddleware d = None)
    (Hscim : d_SCIMHandler d = None \/ HasPrefix (rq_Path r) "/scim/v2" = false)
    (Hpath : rq_Path r ∉ public_paths) (Hrun : serve d r w = (res, w')) :
  (touched w w' /\ exists resp hs, res = inr (resp, hs) /\ outsider d (rq_Path r) resp) \/
  exists u out, (by_token (rq r) u w \/ by_session (rq r) u w) /\ served d r u w out w' /\
    res = with_headers r out.
Proof.
  apply serve_run in Hrun as (out & -> & [[(resp & Hr & Hm) _]|(i & params & x & Hm & Hx & Hd)]).
  { destruct Hm as [[-> ->]|Hm].
    { left. split; [done|]. eexists _, _. split; [done|]. by destruct Hr; [right; left|right; right]. }
    unfold authMw in Hm. rewrite Hmw in Hm.
    apply authMiddleware_run in Hm as [[(resp' & -> & Hr') Ht]|(u & Hc & Hh)].
    - left. split; [done|]. eexists _, _. split; [done|]. left. by exists resp'.
    - apply handled_miss in Hh as [Ht ->]. right. exists u, (inr resp).
      split; [by apply realIP_credential|]. split; [|done]. right. by destruct Hr as [-> | ->]; auto. }
  apply mux_law in Hm as (row & Hrow & _ & Hden). rewrite list_lookup_fmap, Hx in Hrow.
  cbn in Hrow. injection Hrow as <-. cbn in Hden.
  assert (x ∈ the_routes d) as Hin by (by eapply list_elem_of_lookup_2).
  pose proof (public_rows d x Hin) as Hpub.
  destruct (rt_Target x) as [h|h] eqn:Et.
  { exfalso. destruct Hpub as [Hpub|[Hs Hp]]; [apply Hpath; by eapply public_row_path|].
    rewrite Hp in Hden. apply scim_row_path in Hden. destruct Hscim; congruence. }
  cbn in Hd. unfold authMw in Hd. rewrite Hmw in Hd.
  apply authMiddleware_run in Hd as [[(resp & -> & Hr) Ht]|(u & Hc & Hh)].
  - left. split; [done|]. eexists _, _. split; [done|]. left. by exists resp.
  - right. exists u, out. split; [by apply realIP_credential|]. split; [|done]. left.
    by exists x, h, params.
Qed.

(** * The endpoints of a bucket *)

(** The rows below /api/v1/buckets/{id}, less the two whose service method ignores
    the bucket id: the listing of the trash and the removal of a webhook. *)
Definition bucket_endpoint (x : Route (B := B)) : bool :=
  match rt_Pattern x with
  | Static a :: Static v :: Static b :: Param i :: rest =>
      (a =s "api") && (v =s "v1") && (b =s "buckets") && (i =s "id") &&
      negb (match rest, rt_Method x with
            | [Static t], Some m => (t =s "trash") && (m =s "GET")
            | [Static t; Param _], Some m => (t =s "webhooks") && (m =s "DELETE")
            | _, _ => false
            end)
  | _ => false
  end.

(** From a foreign bucket id the handler answers an error and leaves no trace. *)
Definition Closed (ctx : Ctx) (id : str) (m : Service.Svc (B := B) Response) : Prop :=
  forall w res w', foreign s ctx id (w_db w) -> m w = (res, w') ->
    quiet w w' /\ exists resp, res = inr resp /\ is_error resp.

Lemma closed_respond ctx id {A} (m : Service.Svc A) k : Refused s ctx id m -> Closed ctx id (respond m k).
Proof.
  intros Hm w res w' Hf H. unfold respond in H. rewrite bind_run, attempt_run in H.
  destruct (m w) as [r1 w1] eqn:E. destruct (Hm _ _ _ Hf E) as [Hq [e ->]].
  cbn in H. injection H as <- <-. split; [done|]. eexists. split; [done|]. by eexists _, _.
Qed.
Lemma closed_error ctx id resp : is_error resp -> Closed ctx id (ret resp).
Proof. intros He w res w' _ [= <- <-]. split; [reflexivity|]. by eauto. Qed.
Lemma closed_withBody ctx id {A} n (dec : Json.Decoder A) z r k :
  (forall a, Closed ctx id (k a)) -> Closed ctx id (withBody n dec z r k).
Proof.
  intros Hk. unfold withBody, decodeJSON. destruct (body_of n dec z r) as [e|a]; [|apply Hk].
  apply closed_error. by eexists _, _.
Qed.
Lemma closed_upload ctx id r (k : str -> Service.Svc Response) (f : str -> Response) :
  (forall c, Closed ctx id (k c)) -> (forall e, is_error (f e)) ->
  Closed ctx id (match Json.ReadAllLimit maxUploadBytes (rq_Body r) with
                 | inl e => ret (f e) | inr c => k c end).
Proof. intros Hk He. destruct (Json.ReadAllLimit _ _); [by apply closed_error|apply Hk]. Qed.
End Pipeline.

(** A handler is its service operation behind a body decoder; the operation loads the
    bucket before it does anything. *)
Ltac closed_handler :=
  intros; cbv beta;
  try (apply closed_withBody; intros);
  try (eapply closed_upload; [intros|by eexists _, _]);
  apply closed_respond;
  unfold Buckets.GetBucket, Buckets.DeleteBucket, Buckets.SetQuota, Buckets.SetVisibility,
    Objects.ListObjects, Objects.DeleteObjects, Objects.CopyObject, Objects.MoveObject,
    Objects.PutObjectStream, Objects.GetObjectStream, Objects.PresignObject,
    Objects.RestoreObject, Objects.PurgeObject, Objects.GetBucketCORS, Objects.SetBucketCORS,
    Objects.DeleteBucketCORS, Objects.GetBucketLifecycle, Objects.SetBucketLifecycle,
    Objects.DeleteBucketLifecycle, Objects.GetBucketVersioning, Objects.SetBucketVersioning,
    Objects.ListObjectVersions, Objects.DeleteObjectVersion, Objects.RestoreObjectVersion,
    Webhooks.ListWebhooks, Webhooks.CreateWebhook, Replications.ListReplications,
    Replications.StartReplication;
  refused.

Section Buckets.
Context {ENV : Env} {B : Type} `{!S3Service B} `{!GarageServer B} `{PF : Platform} `{PL : !PlatformLaws}.
Context (s : Services B) (GarageAdminURL MetricsToken : str).
Implicit Types (w : World B) (d : Deps (B := B)) (r : Req).

Abbreviation the_routes := (routes s GarageAdminURL MetricsToken).
Abbreviation serve := (New s GarageAdminURL MetricsToken).

Lemma bucket_rows_closed d x : x ∈ the_routes d -> bucket_endpoint x = true ->
  exists h, rt_Target x = Protected h /\
    forall r ctx u, Closed s ctx (URLParam r "id") (h r ctx u).
Proof.
  enough (Forall (fun x => bucket_endpoint x = true -> exists h, rt_Target x = Protected h /\
    forall r ctx u, Closed s ctx (URLParam r "id") (h r ctx u)) (the_routes d)) as Hall.
  { intros Hx. by apply (proj1 (Forall_forall _ _) Hall x Hx). }
  unfold routes, base_routes.
  destruct (d_SCIMHandler d), (d_Services d); cbn [app map];
    repeat (apply Forall_cons; split;
      [first [intros H; exfalso; revert H; by vm_compute
             |intros _; eexists; split; [reflexivity|]; closed_handler]|]);
    apply Forall_nil_2.
Qed.

Lemma touched_bucket_row id w w' : touched w w' -> Store.bucket_row id (w_db w) = Store.bucket_row id (w_db w').
Proof. intros H. exact (f_equal (fun v => Store.bucket_row id (fst (fst (fst (fst v))))) H). Qed.

(** The bucket is the caller's own. *)
Definition own_bucket (ctx : Ctx) (id : str) (w : World B) : Prop :=
  exists b, Store.bucket_row id (w_db w) = Some b /\ b_ProjectID b = tc_ProjectID (tenant s ctx).

Lemma own_or_foreign ctx id w : own_bucket ctx id w \/ foreign s ctx id (w_db w).
Proof.
  unfold own_bucket, foreign. destruct (Store.bucket_row id (w_db w)) as [b|] eqn:E; [|by right].
  destruct (decide (b_ProjectID b = tc_ProjectID (tenant s ctx))); [left; by eauto|by right].
Qed.

Lemma closed_handled ctx id (h : Handler (B := B)) u w out w' w1 w2 :
  touched w w1 -> (forall ctx u, Closed s ctx id (h ctx u)) -> h ctx u w1 = (out, w2) -> quiet w2 w' ->
  own_bucket ctx id w \/ (touched w w' /\ exists resp, out = inr resp /\ is_error resp).
Proof.
  intros Ht Hc Hh Hq. destruct (own_or_foreign ctx id w) as [Hown|Hf]; [by left|right].
  unfold foreign in Hf. rewrite (touched_bucket_row _ _ _ Ht) in Hf.
  destruct (Hc ctx u w1 out w2 Hf Hh) as [Hq1 Hr]. split; [|done].
  etrans; [done|]. apply quiet_touched. by etrans.
Qed.

(** C5: the endpoints of a bucket stay in the tenant the request is served in, from
    the socket to the tables, with the repository's own authentication (no other
    middleware in the dependencies).  A request to an endpoint below
    /api/v1/buckets/{id} (the listing of the trash and the removal of a webhook apart)
    either answers an error envelope and changes nothing but a token's time stamp, or
    carries the live credential of a user and the id is a live bucket of the project
    of the request's tenant.  That tenant is the organization of the user's first
    membership with its first project, when the user has one and every statement of
    the database answers; otherwise it may be the deployment's default organization
    or project. *)
Theorem bucket_endpoints_stay_in_tenant d r w res w' i params x
    (Hmw : d_AuthMiddleware d = None)
    (Hroute : pf_mux (map (fun x => (rt_Method x, rt_Pattern x)) (the_routes d))
                (rq_Method (rq r)) (rq_Path r) = Matched i params)
    (Hx : the_routes d !! i = Some x) (Hbucket : bucket_endpoint x = true)
    (Hrun : serve d r w = (res, w')) :
  (touched w w' /\ exists resp hs, res = inr (resp, hs) /\ is_error resp) \/
  exists u ctx, (by_token (rq r) u w \/ by_session (rq r) u w) /\ right_context s u ctx w /\
    own_bucket ctx (default "" (params !! "id")) w.
Proof.
  assert (rq_Method (pf_realIP (rq r)) = rq_Method (rq r)) as Hmeth
    by (by destruct (realIP_law (rq r)) as [a ->]).
  apply serve_run in Hrun as (out & -> & [[_ Hno]|(i' & params' & x' & Hm & Hx' & Hd)]).
  { rewrite Hmeth in Hno. by rewrite (Hno _ _ Hroute) in Hx. }
  rewrite Hmeth, Hroute in Hm. injection Hm as <- <-. rewrite Hx in Hx'. injection Hx' as <-.
  destruct (bucket_rows_closed d x) as (h & Et & Hc); [by eapply list_elem_of_lookup_2|done|].
  rewrite Et in Hd. cbn in Hd. unfold authMw in Hd. rewrite Hmw in Hd.
  apply authMiddleware_run in Hd as [[(resp & -> & He & _) Ht]|(u & Hcr & ctx & w1 & w2 & Ht & Hctx & Hh & Hq)].
  { left. split; [done|]. by eexists _, _. }
  eapply closed_handled in Hh as [Hown|[Ht' (resp & -> & He)]]; [|left|done|intros ??; apply Hc|done].
  - right. exists u, ctx. split; [by apply realIP_credential|done].
  - split; [done|]. by eexists _, _.
Qed.
End Buckets.

(** * Behaviour of single handlers *)

(** An upload of more than 200 MiB is not refused: its first 200 MiB are stored, and
    the client is told that all is well. *)
Lemma uploadObject_truncates {ENV : Env} {B} (s : Services B) r ctx u :
  (maxUploadBytes < Z.of_nat (String.length (Json.in_Bytes (rq_Body r))))%Z ->
  let stored := Json.prefix_bytes maxUploadBytes (Json.in_Bytes (rq_Body r)) in
  Z.of_nat (String.length stored) = maxUploadBytes /\
  uploadObject s r ctx u =
    done 204 (Objects.PutObjectStream s ctx (URLParam r "id") (QueryGet r "key") stored maxUploadBytes
                (HeaderGet r "Content-Type") (HeaderGet r "X-Buktio-SSEC-Key")).
Proof.
  intros Hlen stored.
  assert (0 <= maxUploadBytes)%Z as Hpos by done.
  assert (Z.of_nat (String.length stored) = maxUploadBytes) as Hs.
  { unfold stored, Json.prefix_bytes. destruct (Z.leb_spec (Z.of_nat (String.length (Json.in_Bytes (rq_Body r)))) maxUploadBytes); [lia|].
    rewrite str_take_length; lia. }
  split; [done|]. unfold uploadObject, Json.ReadAllLimit.
  destruct (Z.leb_spec maxUploadBytes (Z.of_nat (String.length (Json.in_Bytes (rq_Body r))))); [|lia].
  fold stored. by rewrite Hs.
Qed.

(** The life time of a token wraps: more than 106751 days end in the past. *)
Lemma days_wrap : (days 106751 > 0)%Z /\ (days 106752 < 0)%Z.
Proof. by vm_compute. Qed.
Lemma days_exact n : (0 <= n <= 106751)%Z -> days n = (n * 24 * 3600 * 10 ^ 9)%Z.
Proof.
  intros H. unfold days, mul64. rewrite (wrap64_id (n * 24)) by (unfold in_int64, int64_min, int64_max; lia).
  rewrite wrap64_id by (unfold in_int64, int64_min, int64_max; lia). lia.
Qed.

(** The page size of an object listing is always between 1 and 1000. *)
Lemma max_keys_bounds v : (1 <= max_keys v <= 1000)%Z.
Proof.
  unfold max_keys. destruct (Atoi v) as [n|]; [|lia].
  destruct (Z.ltb_spec 0 n), (Z.leb_spec n 1000); cbn; lia.
Qed.

(** A path below /api/ that is no endpoint gets the JSON 404, never the panel; any
    other unknown path gets the panel, and when it names no file, its shell. *)
Lemma NotFound_api {B} `{Platform} (d : Deps (B := B)) files path : d_UI d = Some files ->
  HasPrefix path "/api/" = true -> NotFound d path = json 404 (ErrBody "not_found" "no such endpoint").
Proof. intros Hu Hp. unfold NotFound. by rewrite Hu, Hp. Qed.
Lemma ui_shell `{Platform} files p : p <> "" -> ui_exists files p = false ->
  ui_exists files (TrimSuffixSlash p ++ "/index.html") = false ->
  ui_ServeHTTP files ("/" ++ p) =
    json 200 (PageBody "no-cache" "text/html; charset=utf-8" (ui_index files)).
Proof.
  intros Hne H1 H2. unfold ui_ServeHTTP. replace (TrimPrefix ("/" ++ p) "/") with p by (by cbn; destruct p).
  apply eqb_false_str in Hne. by rewrite Hne, H1, H2.
Qed.

(** * A concrete platform *)

(** The parameters a path would give to a pattern, segment by segment. *)
Fixpoint bind_params (p : Pattern) (segs : list str) : gmap str str :=
  match p, segs with
  | Param n :: p', g :: segs' => <[n := g]> (bind_params p' segs')
  | _ :: p', _ :: segs' => bind_params p' segs'
  | _, _ => ∅
  end.
(** The first row whose method fits and whose pattern gives the path back. *)
Fixpoint first_match (i : nat) (table : list (option str * Pattern)) (m path : str) : Routing :=
  match table with
  | [] => Unknown []
  | row :: rest =>
      let params := bind_params (snd row) (tail (Split path "/"%char)) in
      if match fst row with Some m' => m' =s m | None => true end && (path =s path_of (snd row) params)
      then Matched i params else first_match (S i) rest m path
  end.

Lemma first_match_sound table m path : forall k i params,
  first_match k table m path = Matched i params ->
  exists j row, i = k + j /\ table !! j = Some row /\ (fst row = None \/ fst row = Some m) /\
    denotes (snd row) params path.
Proof.
  induction table as [|row rest IH]; intros k i params H; [done|]. cbn in H.
  destruct (_ && _) eqn:E.
  - injection H as <- <-. apply andb_true_iff in E as [Em Ep]. exists 0, row.
    split_and!; [lia|done| |by left; apply eqb_true_str].
    destruct (fst row) as [m'|]; [|by left]. right. f_equal. by apply eqb_true_str.
  - apply IH in H as (j & row' & -> & Hj & H). exists (S j), row'. split; [lia|done].
Qed.

Definition ex_platform : Platform := {|
  pf_syntax_error _ := ""; pf_json_error _ _ := ""; pf_parse_time _ := None;
  pf_valid_uuid _ := true; pf_mime_type _ := "";
  pf_fetch _ _ := Unreachable "down"; pf_subscribe _ _ := inl "no"; pf_parse_event _ _ := inl "no";
  pf_zero_state := "0"; pf_file_server _ := (200, "")%Z; pf_realIP r := r;
  pf_mux := first_match 0 |}.
Lemma ex_platform_laws : @PlatformLaws ex_platform.
Proof.
  split.
  - intros [m h c q a t]. by exists a.
  - intros table m path i params H. cbn in H. apply first_match_sound in H as (j & row & -> & Hj & H).
    by exists row.
Qed.

#[local] Instance api_s3 : S3Service MemB := mem_endpoint (fun _ => false).
#[local] Instance api_garage : GarageServer MemB := {|
  ga_http _ _ := throw "no answer"; ga_now _ := 0%Z; ga_escape x := x |}.

(** Alice of o1 with her session, and the two requests she makes. *)
Definition ex_deps : Deps (B := MemB) := mkDeps "1.0" None true "" "" None None (Some ∅).
Definition ex_request (path : str) : Req :=
  mkReq me_request path "buktio.example" (Json.mkStream "" None) ∅.
Definition ex_delete (path : str) : Req :=
  mkReq (mkRequest "DELETE" (rq_Headers me_request) (rq_Cookies me_request) ∅ "203.0.113.7:4711" true)
    path "buktio.example" (Json.mkStream "" None) ∅.
Abbreviation ex_serve := (New (ENV := ex_env) (PF := ex_platform) ex_services "" "").
Abbreviation ex_table := (map (fun x => (rt_Method x, rt_Pattern x))
  (routes (ENV := ex_env) (PF := ex_platform) ex_services "" "" ex_deps)).

(** A request without a session for the list of members is refused. *)
Definition ex_anonymous : Req :=
  mkReq (mkRequest "GET" ∅ [] ∅ "203.0.113.7:4711" true) "/api/v1/members/" "buktio.example"
    (Json.mkStream "" None) ∅.
Lemma only_public_paths_are_open_witness :
  let out := ex_serve ex_deps ex_anonymous ex_world in
  match fst out with inr p => rs_Status (fst p) = 401%Z | inl _ => False end /\
  touched ex_world (snd out).
Proof.
  intros out.
  split; [vm_compute; reflexivity|].
  destruct (only_public_paths_are_open (ENV := ex_env) (PF := ex_platform) (PL := ex_platform_laws)
    ex_services "" "" ex_deps ex_anonymous ex_world (fst out) (snd out) eq_refl (or_introl eq_refl)
    ltac:(apply (bool_decide_unpack _); vm_compute; exact I) (surjective_pairing _))
    as [[Ht _]|(u & o & [(Hb & _)|(_ & _ & c & Hc & _)] & _)].
  - exact Ht.
  - exfalso. vm_compute in Hb. by apply Hb.
  - exfalso. vm_compute in Hc. discriminate.
Defined.

(** Alice deletes the bucket of another tenant: not found, and nothing happens. *)
Lemma bucket_endpoints_stay_in_tenant_witness :
  let out := ex_serve ex_deps (ex_delete "/api/v1/buckets/b2") session_world in
  match fst out with inr p => rs_Status (fst p) = 404%Z | inl _ => False end /\
  ((touched session_world (snd out) /\ exists resp hs, fst out = inr (resp, hs) /\ is_error resp) \/
   exists u ctx, (by_token (ENV := ex_env) (rq (ex_delete "/api/v1/buckets/b2")) u session_world \/
                  by_session (ENV := ex_env) (rq (ex_delete "/api/v1/buckets/b2")) u session_world) /\
     right_context (ENV := ex_env) ex_services u ctx session_world /\ own_bucket (ENV := ex_env) ex_services ctx "b2" session_world).
Proof.
  intros out. split; [vm_compute; reflexivity|].
  let t := eval vm_compute in (first_match 0 ex_table "DELETE" "/api/v1/buckets/b2") in
  lazymatch t with Matched ?i ?params =>
    let E := fresh in
    assert (first_match 0 ex_table "DELETE" "/api/v1/buckets/b2" = Matched i params) as E
      by (vm_compute; reflexivity);
    eapply (bucket_endpoints_stay_in_tenant (ENV := ex_env) (PF := ex_platform)
              (PL := ex_platform_laws) ex_services "" "" ex_deps (ex_delete "/api/v1/buckets/b2")
              session_world (fst out) (snd out) i params _ eq_refl E);
    [reflexivity|vm_compute; reflexivity|apply surjective_pairing]
  end.
Defined.
