(* ===== verification/Config.v ===== *)
(** src/internal/config/config.go: the configuration from the environment, with what
    it uses of [strconv] and [time]; and [DriverFromDSN], [SQLitePath] of db/sqlite.go
    and the edition check of app/server.go. *)
From Stdlib Require Import Ascii SpecFloat.
From S2P Require Import Prelude GoStrings.
#[local] Open Scope string_scope.

Module Config.

(** ** strconv.ParseBool *)

Definition ParseBool (s : str) : option bool :=
  if bool_decide (s ∈ ["1"; "t"; "T"; "TRUE"; "true"; "True"]) then Some true
  else if bool_decide (s ∈ ["0"; "f"; "F"; "FALSE"; "false"; "False"]) then Some false
  else None.

(** ** time.ParseDuration *)

Definition two63 : Z := 2 ^ 63.
Definition digit (c : ascii) : Z := Z.of_nat (nat_of_ascii c) - 48.

(** [leadingInt]: the value and the rest; [None] is an overflow. *)
Fixpoint leadingInt (x : Z) (s : str) : option (Z * str) :=
  match s with
  | String c s' =>
      if is_digit c then
        if (two63 / 10 <? x)%Z then None
        else let x := (x * 10 + digit c)%Z in
             if (two63 <? x)%Z then None else leadingInt x s'
      else Some (x, s)
  | "" => Some (x, s)
  end.

Definition float_of_int (z : Z) : spec_float := binary_normalize 53 1024 z 0 false.
Definition fmul : spec_float -> spec_float -> spec_float := SFmul 53 1024.
Definition fdiv : spec_float -> spec_float -> spec_float := SFdiv 53 1024.
(** [uint64(f)] of a non-negative finite float: towards zero. *)
Definition trunc (f : spec_float) : Z :=
  match f with S754_finite false m e => Z.shiftl (Zpos m) e | _ => 0%Z end.

(** [leadingFraction]: the digits, their scale, the rest; digits beyond the range of
    an int64 are skipped. *)
Fixpoint leadingFraction (overflow : bool) (x : Z) (scale : spec_float) (s : str)
    : Z * spec_float * str :=
  match s with
  | String c s' =>
      if is_digit c then
        if overflow then leadingFraction true x scale s'
        else if ((two63 - 1) / 10 <? x)%Z then leadingFraction true x scale s'
        else let y := (x * 10 + digit c)%Z in
             if (two63 <? y)%Z then leadingFraction true x scale s'
             else leadingFraction false y (fmul scale (float_of_int 10)) s'
      else (x, scale, s)
  | "" => (x, scale, s)
  end.

Definition byte (n : nat) (s : str) : str := String (ascii_of_nat n) s.
Definition unitMap (u : str) : option Z :=
  if u =s "ns" then Some 1%Z
  else if (u =s "us") || (u =s byte 194 (byte 181 "s")) || (u =s byte 206 (byte 188 "s"))
  then Some 1000%Z
  else if u =s "ms" then Some 1000000%Z
  else if u =s "s" then Some 1000000000%Z
  else if u =s "m" then Some 60000000000%Z
  else if u =s "h" then Some 3600000000000%Z
  else None.

(** The unit: everything up to a digit or a period. *)
Definition unit_len (s : str) : nat :=
  match IndexAny s (fun c => Ascii.eqb c "." || is_digit c) with
  | Some i => i
  | None => String.length s
  end.

(** One [number unit] group: its nanoseconds and the rest. *)
Definition parse_group (s : str) : option (Z * str) :=
  match s with
  | "" => None
  | String c0 _ =>
      if negb (Ascii.eqb c0 "." || is_digit c0) then None
      else
        match leadingInt 0 s with
        | None => None
        | Some (v, s1) =>
            let pre := negb (Nat.eqb (String.length s) (String.length s1)) in
            let '(f, scale, s2, post) :=
              if HasPrefix s1 "." then
                let s1' := str_drop 1 s1 in
                let '(f, scale, s2) := leadingFraction false 0 (float_of_int 1) s1' in
                (f, scale, s2, negb (Nat.eqb (String.length s1') (String.length s2)))
              else (0%Z, float_of_int 1, s1, false) in
            if negb pre && negb post then None
            else
              let i := unit_len s2 in
              if Nat.eqb i 0 then None
              else
                match unitMap (str_take i s2) with
                | None => None
                | Some unit =>
                    if (two63 / unit <? v)%Z then None
                    else
                      let v := (v * unit)%Z in
                      let v := if (0 <? f)%Z
                               then (v + trunc (fmul (float_of_int f)
                                                 (fdiv (float_of_int unit) scale)))%Z
                               else v in
                      if (0 <? f)%Z && (two63 <? v)%Z then None else Some (v, str_drop i s2)
                end
        end
  end.

(** The loop over the groups, with a [uint64] sum; every group takes at least two
    characters, so [fuel] of the string's length is enough. *)
Fixpoint parse_groups (fuel : nat) (d : Z) (s : str) : option Z :=
  match s, fuel with
  | "", _ => Some d
  | _, 0 => None
  | _, S fuel' =>
      match parse_group s with
      | None => None
      | Some (v, s') => let d := ((d + v) mod 2 ^ 64)%Z in
                        if (two63 <? d)%Z then None else parse_groups fuel' d s'
      end
  end.

Definition ParseDuration (s0 : str) : option Z :=
  let neg := HasPrefix s0 "-" in
  let s := if neg || HasPrefix s0 "+" then str_drop 1 s0 else s0 in
  if s =s "0" then Some 0%Z
  else if s =s "" then None
  else match parse_groups (String.length s) 0 s with
       | None => None
       | Some d => if neg then Some (wrap64 (- d)) else if (two63 - 1 <? d)%Z then None else Some d
       end.

(** ** The configuration *)

Record TLSConfig := mkTLSConfig {
  tls_Mode : str; tls_Domains : list str; tls_CacheDir : str; tls_Email : str }.
Record HTTPConfig := mkHTTPConfig {
  http_Addr : str; http_ReadTimeout : Z; http_WriteTimeout : Z; http_PanelOrigins : list str;
  http_TLS : TLSConfig }.
Record DBConfig := mkDBConfig { dbc_URL : str }.
Record GarageConfig := mkGarageConfig {
  gc_Mode : str; gc_AdminURL : str; gc_S3URL : str; gc_S3Region : str;
  gc_S3PublicEndpoint : str; gc_WebPublicDomain : str }.
Record Config := mkConfig {
  c_Edition : str; c_HTTP : HTTPConfig; c_DB : DBConfig; c_Garage : GarageConfig;
  c_LogLevel : str; c_AllowInsecure : bool; c_RLSEnabled : bool; c_SelfServeSignup : bool;
  c_SignupDevReturnToken : bool }.

Definition defaultHTTPAddr : str := ":8080".
Definition defaultLogLevel : str := "info".
Definition defaultS3Region : str := "garage".
Definition defaultReadTimeout : Z := 15000000000.
Definition defaultWriteTimeout : Z := 30000000000.

Section Load.
(** The process environment; a key that is not set is absent. *)
Variable environ : gmap str str.

Definition getenv (key : str) : str := default "" (environ !! key).

Definition env (key fallback : str) : str :=
  match environ !! key with Some v => if v =s "" then fallback else v | None => fallback end.

Definition envBool (key : str) (fallback : bool) : bool :=
  match environ !! key with
  | Some v =>
      let l := ToLower (TrimSpace v) in
      if bool_decide (l ∈ ["on"; "yes"; "enabled"]) then true
      else if bool_decide (l ∈ ["off"; "no"; "disabled"]) then false
      else default fallback (ParseBool v)
  | None => fallback
  end.

Definition envDuration (key : str) (fallback : Z) : Z :=
  match environ !! key with Some v => default fallback (ParseDuration v) | None => fallback end.

Definition envList (key : str) : list str :=
  let v := getenv key in
  if v =s "" then [] else where_ (fun p => negb (p =s "")) (map TrimSpace (Split v ",")).

(** The quoting of [%q] is left out of the error texts. *)
Definition validate (c : Config) : option str :=
  if http_Addr (c_HTTP c) =s "" then Some "config: BUKTIO_HTTP_ADDR must not be empty"
  else if negb (bool_decide (c_LogLevel c ∈ ["debug"; "info"; "warn"; "error"]))
  then Some ("config: invalid BUKTIO_LOG_LEVEL " ++ c_LogLevel c)
  else
    let tls := http_TLS (c_HTTP c) in
    if bool_decide (tls_Mode tls ∈ [""; "off"; "self"]) then None
    else if tls_Mode tls =s "auto"
    then if Nat.eqb (length (tls_Domains tls)) 0
         then Some "config: BUKTIO_TLS=auto requires BUKTIO_TLS_DOMAIN" else None
    else Some ("config: invalid BUKTIO_TLS " ++ tls_Mode tls ++ " (want off|self|auto)").

Definition Load : str + Config :=
  let cfg := mkConfig (env "BUKTIO_EDITION" "oss")
    (mkHTTPConfig (env "BUKTIO_HTTP_ADDR" defaultHTTPAddr)
       (envDuration "BUKTIO_HTTP_READ_TIMEOUT" defaultReadTimeout)
       (envDuration "BUKTIO_HTTP_WRITE_TIMEOUT" defaultWriteTimeout)
       (envList "BUKTIO_PANEL_ORIGINS")
       (mkTLSConfig (env "BUKTIO_TLS" "off") (envList "BUKTIO_TLS_DOMAIN")
          (env "BUKTIO_TLS_CACHE_DIR" "/var/lib/buktio/tls") (env "BUKTIO_TLS_EMAIL" "")))
    (mkDBConfig (getenv "DATABASE_URL"))
    (mkGarageConfig (env "BUKTIO_STORAGE_MODE" "managed")
       (env "GARAGE_ADMIN_URL" "http://garage:3903") (env "GARAGE_S3_URL" "http://garage:3900")
       (env "GARAGE_S3_REGION" defaultS3Region) (getenv "BUKTIO_S3_PUBLIC_ENDPOINT")
       (getenv "BUKTIO_WEB_PUBLIC_DOMAIN"))
    (env "BUKTIO_LOG_LEVEL" defaultLogLevel) (envBool "BUKTIO_ALLOW_INSECURE" false)
    (envBool "BUKTIO_RLS" false) (envBool "BUKTIO_SELF_SERVE_SIGNUP" false)
    (envBool "BUKTIO_SIGNUP_DEV_TOKEN" false) in
  match validate cfg with Some e => inl e | None => inr cfg end.

End Load.

(** ** db/sqlite.go *)

Definition HasSuffix (s suf : str) : bool :=
  (String.length suf <=? String.length s)%nat
  && (str_drop (String.length s - String.length suf) s =s suf).

Definition DriverFromDSN (dsn : str) : str :=
  let s := TrimSpace dsn in
  if HasPrefix s "sqlite:" || HasPrefix s "file:" || HasSuffix s ".db" || HasSuffix s ".sqlite"
  then "sqlite" else "postgres".

Definition SQLitePath (dsn : str) : str :=
  let s := TrimSpace dsn in
  let s := TrimPrefix s "sqlite://" in
  let s := TrimPrefix s "file://" in
  let s := TrimPrefix s "sqlite:" in
  let s := TrimPrefix s "file:" in
  match IndexByte s "?" with Some i => str_take i s | None => s end.

End Config.
