(* ===== verification/Observability.v ===== *)
(** src/internal/observability (logging.go, metrics.go), src/internal/notify/notify.go (the
    log-only mailer) and [requestLogger] of src/internal/httpapi/middleware.go: what the
    server writes about the requests it serves.

    A log line is a record of its level, message and attributes; the JSON handler of
    log/slog writes it when its level is enabled.  The Prometheus counters and chi's
    response writer are code of other packages: a request's metrics are the labelled
    events handed to them, and the status and the byte count of a response are
    arguments. *)
From S2P Require Import Prelude GoStrings Service Config HttpAuth.
#[local] Open Scope string_scope.

Module Observability.

(** ** logging.go *)

(** [slog.Level] *)
Definition LevelDebug : Z := (-4)%Z.
Definition LevelInfo : Z := 0%Z.
Definition LevelWarn : Z := 4%Z.
Definition LevelError : Z := 8%Z.

Definition parseLevel (level : str) : Z :=
  let l := ToLower (TrimSpace level) in
  if l =s "debug" then LevelDebug
  else if (l =s "warn") || (l =s "warning") then LevelWarn
  else if l =s "error" then LevelError
  else LevelInfo.

Inductive Attr := AString (key value : str) | AInt (key : str) (value : Z).
Record Line := mkLine { ln_Level : Z; ln_Msg : str; ln_Attrs : list Attr }.

(** A logger is the least level it writes. *)
Record Logger := mkLogger { lg_Level : Z }.
Definition NewLogger (level : str) : Logger := mkLogger (parseLevel level).
Definition LogAttrs (lg : Logger) (level : Z) (msg : str) (attrs : list Attr) (out : list Line) : list Line :=
  if (lg_Level lg <=? level)%Z then out ++ [mkLine level msg attrs] else out.

(** ** notify.go *)

(** [LogMailer]: its logger may be nil. *)
Record LogMailer := mkLogMailer { lm_Logger : option Logger }.
Definition SendInvite (m : LogMailer) (email link : str) (out : list Line) : list Line :=
  match lm_Logger m with
  | Some lg => LogAttrs lg LevelInfo "invite created (log-only mailer; share the link from the UI)"
                 [AString "email" email] out
  | None => out
  end.
Definition SendVerification (m : LogMailer) (email link : str) (out : list Line) : list Line :=
  match lm_Logger m with
  | Some lg => LogAttrs lg LevelInfo "email verification created (log-only mailer)"
                 [AString "email" email] out
  | None => out
  end.
(** The mail the services hand to their mailer. *)
Definition deliver_mail (m : LogMailer) (fx : Effect) (out : list Line) : list Line :=
  match fx with
  | FxInviteMail email link => SendInvite m email link out
  | FxVerifyMail email link => SendVerification m email link out
  | _ => out
  end.

(** ** metrics.go *)

(** An increment of buktio_http_requests_total, an observation of
    buktio_http_request_duration_seconds (in nanoseconds). *)
Inductive Metric :=
  | CounterInc (method status : str) | Observe (method : str) (ns : Z).
Definition RecordHTTP (method : str) (status : Z) (dur : Z) (out : list Metric) : list Metric :=
  out ++ [CounterInc method (Itoa status); Observe method dur].

(** ** middleware.go: [requestLogger] *)

(** One request: the response is [next]'s; [served] and [logged] are the two readings of
    [time.Since(start)], [bytes] what the writer counted, [requestID] chi's id. *)
Definition requestLogger (lg : Logger) (r : Http.Request) (path requestID : str) (next : Http.Response)
  (bytes served logged : Z) (m : list Metric) (out : list Line) : Http.Response * list Metric * list Line :=
  let status := Http.rs_Status next in
  (next, RecordHTTP (Http.rq_Method r) status served m,
   LogAttrs lg LevelInfo "http_request"
     [AString "method" (Http.rq_Method r); AString "path" path; AInt "status" status;
      AInt "bytes" bytes; AInt "latency_ms" (Z.quot logged 1000000);
      AString "request_id" requestID] out).

(** ** What is and what is not written *)

(** The levels the configuration accepts are four distinct ones. *)
Lemma configured_levels l :
  l ∈ ["debug"; "info"; "warn"; "error"] ->
  exists i, ["debug"; "info"; "warn"; "error"] !! i = Some l /\
            [LevelDebug; LevelInfo; LevelWarn; LevelError] !! i = Some (parseLevel l).
Proof.
  rewrite !elem_of_cons, elem_of_nil.
  intros [->|[->|[->|[->|[]]]]]; [exists 0|exists 1|exists 2|exists 3]; by vm_compute.
Qed.

(** The same mail with another link. *)
Inductive same_but_link : Effect -> Effect -> Prop :=
  | same_invite email l1 l2 : same_but_link (FxInviteMail email l1) (FxInviteMail email l2)
  | same_verify email l1 l2 : same_but_link (FxVerifyMail email l1) (FxVerifyMail email l2)
  | same_other fx : same_but_link fx fx.

(** The links of invitations and verifications, which grant access to accounts, do not
    reach the log: whatever mail is sent, the lines are the same for any other links. *)
Theorem links_not_logged m : forall fxs fxs' out, Forall2 same_but_link fxs fxs' ->
  foldl (fun o fx => deliver_mail m fx o) out fxs = foldl (fun o fx => deliver_mail m fx o) out fxs'.
Proof.
  intros fxs fxs' out H. revert out. induction H as [|x y l l' Hxy _ IH]; intros out; [done|].
  cbn. rewrite (IH _). f_equal. by destruct Hxy.
Qed.

(** Neither the headers, the cookies nor the query of a request reach the log or the
    metrics: the session and CSRF tokens and presigned queries stay out. *)
Theorem request_secrets_not_logged lg r r' path rid next bytes t1 t2 m out :
  Http.rq_Method r = Http.rq_Method r' ->
  requestLogger lg r path rid next bytes t1 t2 m out = requestLogger lg r' path rid next bytes t1 t2 m out.
Proof. intros H. unfold requestLogger. by rewrite H. Qed.

(** ** Every request is counted once *)

Definition counted (method : str) (m : list Metric) : nat :=
  length (where_ (fun x => match x with CounterInc k _ => k =s method | Observe _ _ => false end) m).
Definition observed (method : str) (m : list Metric) : nat :=
  length (where_ (fun x => match x with Observe k _ => k =s method | CounterInc _ _ => false end) m).
(** A served request: its method, status and duration. *)
Definition record_all (rs : list (str * Z * Z)) (m : list Metric) : list Metric :=
  foldl (fun m '(k, st, t) => RecordHTTP k st t m) m rs.

Theorem requests_counted rs : forall method m,
  counted method (record_all rs m)
    = counted method m + length (where_ (fun x => fst (fst x) =s method) rs) /\
  observed method (record_all rs m)
    = observed method m + length (where_ (fun x => fst (fst x) =s method) rs).
Proof.
  induction rs as [|[[k st] t] rs IH]; intros method m; [by rewrite !Nat.add_0_r|].
  change (record_all ((k, st, t) :: rs) m) with (record_all rs (RecordHTTP k st t m)).
  destruct (IH method (RecordHTTP k st t m)) as [-> ->].
  unfold counted, observed, RecordHTTP. rewrite !where_app, !length_app. cbn.
  destruct (k =s method); cbn; lia.
Qed.

End Observability.
