(* ===== verification/Boot.v ===== *)
(** src/internal/app/provision.go, the wiring of app/server.go, edition/edition.go and
    tenancy.Pooled: from the configuration and a database to a running service.

    Errors of the boot path are plain Go errors, so only their text is kept. *)
From S2P Require Import Prelude GoStrings Json JsonText Storage Garage GarageManager Database Repository AuditLog Service Billing Config.
#[local] Open Scope string_scope.

Module Boot.
Import Config.

(** ** edition.go *)

Definition OSS : str := "oss".
Definition ParseEdition (s : str) : str :=
  let e := ToLower (TrimSpace s) in
  if bool_decide (e ∈ ["pro"; "enterprise"; "hosted"]) then e else OSS.

(** ** Enforcers *)

Record Provisioned (B : Type) := mkProvisioned {
  pv_Provider : StorageProvider B; pv_Cluster : Cluster; pv_Tenant : Store.DefaultTenant }.
Arguments mkProvisioned {B}. Arguments pv_Provider {B}. Arguments pv_Cluster {B}.
Arguments pv_Tenant {B}.

(** tenancy.Provisioner and billing.Provider as far as the services use them. *)
Definition Provisioner : Type := str -> bool -> str -> str + (str * bool).
Definition Pooled : Provisioner := fun _ _ primaryClusterID => inr (primaryClusterID, true).
(** [ReportUsage] at the n-th effect; [CreateCustomerSubscription] of an organization
    and an address; [ParseWebhook] of a payload and a signature. *)
Record BillingProvider := mkBillingProvider {
  bl_Enabled : bool; bl_ReportUsage : nat -> str -> Z -> str -> bool;
  bl_CreateCustomerSubscription : str -> str -> str + Billing.Subscription;
  bl_ParseWebhook : str -> str -> str + Billing.Event }.
Definition Disabled : BillingProvider :=
  mkBillingProvider false (fun _ _ _ _ => true) (fun _ _ => inl "billing: not enabled")
    (fun _ _ => inl "billing: not enabled").

Definition webhook_fields : list (Json.Field Billing.Event) :=
  [Json.field "type" Billing.ev_Type
     (fun x e => Billing.mkEvent x (Billing.ev_CustomerID e) (Billing.ev_OrgID e)) Json.string_;
   Json.field "customer_id" Billing.ev_CustomerID
     (fun x e => Billing.mkEvent (Billing.ev_Type e) x (Billing.ev_OrgID e)) Json.string_;
   Json.field "org_id" Billing.ev_OrgID
     (fun x e => Billing.mkEvent (Billing.ev_Type e) (Billing.ev_CustomerID e) x) Json.string_].
(** The processor-free provider takes any well-formed event; the signature is not
    looked at.  Organization ids are at least eight bytes long. *)
Definition manual_ParseWebhook (payload sig : str) : str + Billing.Event :=
  match JsonText.parse payload ≫= Json.lenient webhook_fields (Billing.mkEvent "" "" "") with
  | None => inl "billing(manual): bad payload: json"
  | Some e => if Billing.ev_Type e =s "" then inl "billing(manual): missing type" else inr e
  end.
Definition Manual : BillingProvider :=
  mkBillingProvider true (fun _ _ _ _ => true)
    (fun orgID _ =>
       let id := str_take 8 orgID in
       inr (Billing.mkSubscription ("cus_manual_" ++ id) ("sub_manual_" ++ id) ("si_storage_" ++ id)
              ("si_egress_" ++ id) ("si_requests_" ++ id)))
    manual_ParseWebhook.

Record Enforcers (B : Type) := mkEnforcers {
  enf_Authz : option Authorizer; enf_Ent : option Entitlements;
  enf_IdP : option IdentityProvider; enf_Provisioner : option Provisioner;
  enf_Billing : option BillingProvider; enf_SCIM : bool;
  enf_AuthzFactory : option (Services B -> Authorizer); enf_Edition : str }.
Arguments enf_Authz {B}. Arguments enf_Ent {B}. Arguments enf_IdP {B}.
Arguments enf_Provisioner {B}. Arguments enf_Billing {B}. Arguments enf_SCIM {B}.
Arguments enf_AuthzFactory {B}. Arguments enf_Edition {B}.

Definition set_s_Authz {B} (a : Authorizer) (s : Services B) : Services B :=
  mkServices (s_Provider s) (s_HasReg s) (s_Factories s) (s_PrimaryPublicEndpoint s)
    (s_SealerOpen s) (s_SealerSeal s) a (s_Ent s) (s_Provision s) (s_BillingEnabled s)
    (s_BillingReport s) (s_OrgID s) (s_ProjectID s) (s_ClusterID s) (s_SystemKeyID s)
    (s_WebPublicDomain s) (s_PublicBaseURL s) (s_Settings s).

Definition set_s_Ent {B} (e : Entitlements) (s : Services B) : Services B :=
  mkServices (s_Provider s) (s_HasReg s) (s_Factories s) (s_PrimaryPublicEndpoint s)
    (s_SealerOpen s) (s_SealerSeal s) (s_Authz s) e (s_Provision s) (s_BillingEnabled s)
    (s_BillingReport s) (s_OrgID s) (s_ProjectID s) (s_ClusterID s) (s_SystemKeyID s)
    (s_WebPublicDomain s) (s_PublicBaseURL s) (s_Settings s).

(** service.New: the defaults of the open-source edition; what the wiring sets later
    has its zero value. *)
Definition NewServices {B} (host : Host) (provider : StorageProvider B)
    (sealer_open : str -> str + str) (sealer_seal : nat -> str -> str + str)
    (orgID projectID clusterID : str) : Services B :=
  mkServices provider false ∅ "" sealer_open sealer_seal PermitAll AlwaysAllow
    Pooled (bl_Enabled Disabled) (bl_ReportUsage Disabled) orgID projectID clusterID "" "" ""
    (mkSettings (Some SSODisabled) false false false false "" ""
       (mkBackupOffsiteConfig "" "" "" "" "") host "" "" "" "" "").

(** A nil argument keeps the default.  The metering sink is an effect of the world. *)
Definition WithEnforcers {B} (a : option Authorizer) (e : option Entitlements) (s : Services B)
    : Services B :=
  let s := match a with Some a => set_s_Authz a s | None => s end in
  match e with Some e => set_s_Ent e s | None => s end.

(** The paid editions refuse SQLite. *)
Definition edition_gate (enf_edition : str) (cfg : Config) : option str :=
  let ed := if enf_edition =s "" then ParseEdition (c_Edition cfg) else enf_edition in
  if negb (ed =s OSS) && negb (dbc_URL (c_DB cfg) =s "")
     && (DriverFromDSN (dbc_URL (c_DB cfg)) =s "sqlite")
  then Some ("the " ++ ed ++ " edition requires PostgreSQL; SQLite is OSS-only — migrate with `buktio db convert --to postgres` and set DATABASE_URL to the Postgres DSN")
  else None.

Section Boot.
Context {ENV : Env} {B : Type} `{!GarageServer B}.
(** the process environment, the registered factories and the sealer of the KEK *)
Variable environ : gmap str str.
Variable factories : gmap str (Factory B).
Variable sealer_open : str -> str + str.
Variable sealer_seal : nat -> str -> str + str.
Variable cfg : Config.
(** how often the health poll of the bootstrap fires before its deadline *)
Variable ticks : nat.
#[local] Abbreviation Go := (M (World B) str).

Definition boot_db {A} (m : M DB DBErr A) : Go A := mapErr dbErrText (db m).
Definition boot_be {A} (m : M B StErr A) : Go A := mapErr st_error (be m).
Definition boot_seal (plain : str) : Go str :=
  fun w => (sealer_seal (w_rand w) plain, set_w_rand (S (w_rand w)) w).

(** ** provision.go *)

(** What the registry needs of the services, before they exist. *)
Definition registry_services (prov : StorageProvider B) : Services B :=
  mkServices prov true factories (gc_S3PublicEndpoint (c_Garage cfg)) sealer_open sealer_seal
    PermitAll AlwaysAllow Pooled false (fun _ _ _ _ => true) "" "" "" "" "" ""
    (mkSettings None false false false false "" "" (mkBackupOffsiteConfig "" "" "" "" "")
       (mkHost (fun _ => None) (fun _ => None) (fun _ _ => None) (fun _ _ => None)
          (fun _ _ => false) (fun _ _ => false)) "" "" "" "" "").

Definition bootstrapAndPersist : Go Cluster :=
  let adminToken := getenv environ "GARAGE_ADMIN_TOKEN" in
  let rpcSecret := getenv environ "GARAGE_RPC_SECRET" in
  reject! (adminToken =s "")
    with "app: GARAGE_ADMIN_TOKEN is required for first-run provisioning" in
  let admin := Admin.NewAdminClient (gc_AdminURL (c_Garage cfg)) adminToken in
  let! res := mapErr (fun e => "app: bootstrap: " ++ st_error e)
                (be (GarageManager.Bootstrap admin ticks
                       (GarageManager.mkBootstrapParams "" 0 "" "" 0 0))) in
  let! adminEnc := boot_seal adminToken in
  let! rpcEnc := boot_seal rpcSecret in
  let! sysEnc := boot_seal (GarageManager.br_SystemSecretAccessKey res) in
  let c := mkCluster "" "default" Kind "managed" (gc_S3URL (c_Garage cfg))
             (gc_AdminURL (c_Garage cfg)) (gc_S3Region (c_Garage cfg)) ""
             (GarageManager.br_GarageVersion res) rpcEnc adminEnc ""
             (GarageManager.br_SystemAccessKeyID res) sysEnc "sqlite" 1 "healthy" zero_time in
  let! _ := boot_db (Store.CreateCluster c) in
  boot_db Store.GetActiveCluster.

(** The node's version, checked when it parses. *)
Definition checkVersion (status : ClusterStatusResponse) : Go str :=
  match PrimaryNode status with
  | None => ret ""
  | Some node =>
      match ParseVersion (nd_GarageVersion node) with
      | inl _ => ret (nd_GarageVersion node)
      | inr v => match CheckSupported v with
                 | Some e => throw (st_error e)
                 | None => ret (nd_GarageVersion node)
                 end
      end
  end.

(** The operator's system key, or a new one. *)
Definition systemKey (admin : AdminConn) : Go (str * str) :=
  let sysAccess := getenv environ "BUKTIO_SYSTEM_S3_ACCESS_KEY" in
  let sysSecret := getenv environ "BUKTIO_SYSTEM_S3_SECRET" in
  if (sysAccess =s "") || (sysSecret =s "")
  then let! key := mapErr (fun e => "app: create system key on existing cluster: " ++ st_error e)
                     (be (Admin.CreateKey admin "buktio-system" true)) in
       ret (ckr_AccessKeyID key, ckr_SecretAccessKey key)
  else ret (sysAccess, sysSecret).

Definition connectExistingCluster : Go Cluster :=
  let adminToken := getenv environ "GARAGE_ADMIN_TOKEN" in
  reject! (adminToken =s "") with "app: external mode requires GARAGE_ADMIN_TOKEN" in
  let admin := Admin.NewAdminClient (gc_AdminURL (c_Garage cfg)) adminToken in
  let! status := mapErr (fun e => "app: cannot reach existing cluster admin API: " ++ st_error e)
                   (be (Admin.GetClusterStatus admin)) in
  let! version := checkVersion status in
  let! key := systemKey admin in
  let! adminEnc := boot_seal adminToken in
  let! sysEnc := boot_seal (snd key) in
  let c := mkCluster "" "external" Kind "external" (gc_S3URL (c_Garage cfg))
             (gc_AdminURL (c_Garage cfg)) (gc_S3Region (c_Garage cfg)) "" version "" adminEnc ""
             (fst key) sysEnc "" 1 "healthy" zero_time in
  let! _ := boot_db (Store.CreateCluster c) in
  boot_db Store.GetActiveCluster.

(** The registered cluster, or a first run. *)
Definition ensureCluster : Go Cluster :=
  let! r := attempt (db Store.GetActiveCluster) in
  match r with
  | inr c => ret c
  | inl ErrNotFound =>
      if gc_Mode (c_Garage cfg) =s "external" then connectExistingCluster else bootstrapAndPersist
  | inl e => throw (dbErrText e)
  end.

(** [NewRegistry] starts with an empty cache. *)
Definition Provision (prov0 : StorageProvider B) : Go (Provisioned B) :=
  let! tenant := boot_db Store.EnsureDefaultTenant in
  let! cluster := ensureCluster in
  do! modify (set_w_cache ∅) in
  let! provider := mapErr (fun e => "app: build primary provider: " ++ e)
                     (Registry.Provider (registry_services prov0) (cl_ID cluster)) in
  ret (mkProvisioned provider cluster tenant).

(** ** server.go: the services after provisioning *)

(** The processor the wiring chooses. *)
Definition billing_provider (enf : Enforcers B) : BillingProvider :=
  match enf_Billing enf with
  | Some b => b
  | None => if getenv environ "BUKTIO_BILLING_DEV" =s "" then Disabled else Manual
  end.

Definition wire (version : str) (enf : Enforcers B) (host : Host) (prov : Provisioned B)
    : Services B :=
  let s0 := WithEnforcers (enf_Authz enf) (enf_Ent enf)
    (NewServices host (pv_Provider prov) sealer_open sealer_seal (Store.dt_OrgID (pv_Tenant prov))
       (Store.dt_ProjectID (pv_Tenant prov)) (cl_ID (pv_Cluster prov))) in
  let billing := billing_provider enf in
  let dir := getenv environ "BUKTIO_BACKUP_DIR" in
  let settings := mkSettings
    (match enf_IdP enf with Some p => Some p | None => cfg_IdP (s_Settings s0) end)
    (c_SelfServeSignup cfg)
    (c_SignupDevReturnToken cfg) (enf_SCIM enf) (c_RLSEnabled cfg) (dbc_URL (c_DB cfg))
    (if dir =s "" then "/var/lib/buktio/backups" else dir)
    (mkBackupOffsiteConfig (getenv environ "BUKTIO_BACKUP_S3_ENDPOINT")
       (getenv environ "BUKTIO_BACKUP_S3_REGION") (getenv environ "BUKTIO_BACKUP_S3_BUCKET")
       (getenv environ "BUKTIO_BACKUP_S3_ACCESS_KEY") (getenv environ "BUKTIO_BACKUP_S3_SECRET"))
    host version (gc_S3PublicEndpoint (c_Garage cfg)) (gc_S3Region (c_Garage cfg))
    (cl_GarageVersion (pv_Cluster prov)) (cl_Mode (pv_Cluster prov)) in
  let s := mkServices (s_Provider s0) true factories (gc_S3PublicEndpoint (c_Garage cfg))
    (s_SealerOpen s0) (s_SealerSeal s0) (s_Authz s0) (s_Ent s0)
    (default (s_Provision s0) (enf_Provisioner enf)) (bl_Enabled billing) (bl_ReportUsage billing)
    (s_OrgID s0) (s_ProjectID s0) (s_ClusterID s0) (cl_SystemS3AccessKeyID (pv_Cluster prov))
    (gc_WebPublicDomain (c_Garage cfg)) (getenv environ "BUKTIO_PUBLIC_URL") settings in
  match enf_AuthzFactory enf with Some f => set_s_Authz (f s) s | None => s end.

(** ** The readiness probe *)

(** [health]: the status of the storage engine's /health, if it answered. *)
Definition readiness (has_store : bool) (ping_ok : bool) (garageAdminURL : str) (health : option Z)
    : bool * gmap str str :=
  let db_state := if has_store then (if ping_ok then "ok" else "down") else "unconfigured" in
  let ga_state := if garageAdminURL =s "" then "unconfigured"
                  else if bool_decide (health = Some 200%Z) then "ok" else "down" in
  (negb (db_state =s "down") && negb (ga_state =s "down"),
   <["db" := db_state]> (<["garage_admin" := ga_state]> ∅)).

End Boot.
End Boot.
