(* ===== verification/Convert.v ===== *)
(** src/internal/db: convert.go (the one-time copy of a SQLite database into
    PostgreSQL), sqlite.go (the migration runner of the SQLite backend).

    The two database engines are parameters: what a statement does is theirs.  The
    statements themselves, their text and their order are the code's. *)
From Stdlib Require Import Ascii.
From S2P Require Import Prelude GoStrings Config.
#[local] Open Scope string_scope.

Module Db.

(** ** Values and rows *)

(** A value as database/sql scans it, or as Postgres keeps it. *)
Inductive Val := VNull | VInt (z : Z) | VBool (b : bool) | VText (s : str) | VBytes (s : str) | VTime (t : Z).
Abbreviation Row := (gmap str Val).

(** ** convert.go *)

Definition convertTableOrder : list str :=
  ["users"; "organizations"; "organization_members"; "projects"; "sessions";
   "storage_clusters"; "storage_nodes"; "buckets"; "access_keys"; "bucket_permissions";
   "usage_snapshots"; "audit_events"; "system_settings"; "install_state"; "api_tokens";
   "object_trash"; "traffic_snapshots"; "backup_schedules"; "backup_jobs"; "invitations";
   "user_identities"; "org_storage_clusters"; "scim_tokens"; "policies"; "role_policy_bindings";
   "org_branding"; "email_verifications"; "signup_attempts"; "billing_customers";
   "billing_usage_reports"; "migration_jobs"; "webhook_subscriptions"; "replication_jobs"].

Record pgCol := mkpgCol { pc_name : str; pc_dataType : str; pc_udtName : str }.

(** The foreign keys of the Postgres migrations 0001-0030. *)
Record FK := mkFK { fk_table : str; fk_col : str; fk_ref : str; fk_refcol : str }.
Definition schema_fks : list FK :=
  [
   mkFK "organization_members" "org_id" "organizations" "id";
   mkFK "organization_members" "user_id" "users" "id";
   mkFK "projects" "org_id" "organizations" "id";
   mkFK "sessions" "user_id" "users" "id";
   mkFK "storage_nodes" "storage_cluster_id" "storage_clusters" "id";
   mkFK "buckets" "org_id" "organizations" "id";
   mkFK "buckets" "project_id" "projects" "id";
   mkFK "buckets" "storage_cluster_id" "storage_clusters" "id";
   mkFK "access_keys" "org_id" "organizations" "id";
   mkFK "access_keys" "project_id" "projects" "id";
   mkFK "access_keys" "storage_cluster_id" "storage_clusters" "id";
   mkFK "bucket_permissions" "bucket_id" "buckets" "id";
   mkFK "bucket_permissions" "access_key_id" "access_keys" "id";
   mkFK "usage_snapshots" "bucket_id" "buckets" "id";
   mkFK "audit_events" "org_id" "organizations" "id";
   mkFK "audit_events" "actor_user_id" "users" "id";
   mkFK "system_settings" "updated_by" "users" "id";
   mkFK "api_tokens" "user_id" "users" "id";
   mkFK "api_tokens" "org_id" "organizations" "id";
   mkFK "object_trash" "bucket_id" "buckets" "id";
   mkFK "traffic_snapshots" "storage_cluster_id" "storage_clusters" "id";
   mkFK "backup_jobs" "org_id" "organizations" "id";
   mkFK "sessions" "org_id" "organizations" "id";
   mkFK "invitations" "org_id" "organizations" "id";
   mkFK "invitations" "invited_by" "users" "id";
   mkFK "backup_schedules" "org_id" "organizations" "id";
   mkFK "backup_jobs" "schedule_id" "backup_schedules" "id";
   mkFK "user_identities" "user_id" "users" "id";
   mkFK "org_storage_clusters" "org_id" "organizations" "id";
   mkFK "org_storage_clusters" "storage_cluster_id" "storage_clusters" "id";
   mkFK "scim_tokens" "org_id" "organizations" "id";
   mkFK "policies" "org_id" "organizations" "id";
   mkFK "role_policy_bindings" "policy_id" "policies" "id";
   mkFK "org_branding" "org_id" "organizations" "id";
   mkFK "email_verifications" "user_id" "users" "id";
   mkFK "billing_customers" "org_id" "organizations" "id";
   mkFK "billing_usage_reports" "org_id" "organizations" "id";
   mkFK "migration_jobs" "org_id" "organizations" "id";
   mkFK "migration_jobs" "dest_bucket_id" "buckets" "id";
   mkFK "webhook_subscriptions" "org_id" "organizations" "id";
   mkFK "webhook_subscriptions" "bucket_id" "buckets" "id";
   mkFK "replication_jobs" "org_id" "organizations" "id";
   mkFK "replication_jobs" "src_bucket_id" "buckets" "id";
   mkFK "replication_jobs" "dst_bucket_id" "buckets" "id"].

Definition convertValue (c : pgCol) (v : Val) : Val :=
  match v with
  | VNull => VNull
  | _ =>
      if pc_dataType c =s "boolean" then
        match v with VInt x => VBool (negb (x =? 0)%Z) | _ => v end
      else if pc_dataType c =s "ARRAY" then
        match v with VText s => VText (if s =s "" then "{}" else "{" ++ s ++ "}") | _ => v end
      else v
  end.

(** The cast a placeholder carries. *)
Definition cast (c : pgCol) : str :=
  if pc_dataType c =s "ARRAY" then "::" ++ TrimPrefix (pc_udtName c) "_" ++ "[]"
  else if pc_dataType c =s "USER-DEFINED" then "::" ++ pc_udtName c
  else if (pc_dataType c =s "uuid") || (pc_dataType c =s "jsonb") || (pc_dataType c =s "inet")
  then "::" ++ pc_dataType c
  else "".
Definition placeholders (cols : list pgCol) : list str :=
  imap (fun i c => "$" ++ Itoa (Z.of_nat i + 1) ++ cast c) cols.
Definition selSQL (table : str) (cols : list pgCol) : str :=
  "SELECT " ++ Join (map pc_name cols) ", " ++ " FROM " ++ table.
Definition insSQL (table : str) (cols : list pgCol) : str :=
  "INSERT INTO " ++ table ++ " (" ++ Join (map pc_name cols) ", " ++ ") VALUES ("
    ++ Join (placeholders cols) ", " ++ ")".
Definition delSQL (table : str) : str := "DELETE FROM " ++ table.

Section Convert.
(** The destination: the migration runner, the connection, the columns
    information_schema lists (in ordinal order, with the identity flag), a statement
    with its arguments. *)
Context {PG : Type}.
Context (Migrate OpenPool : M PG str unit) (information_schema : str -> M PG str (list (pgCol * bool)))
  (pg_exec : str -> list Val -> M PG str unit).
(** The source: whether it opens, and the rows of a query with the error that ends them. *)
Context (OpenSQLite : option str) (sq_query : str -> str + (list (list Val) * option str)).

(** [WHERE is_identity='NO'] *)
Definition pgColumns (table : str) : M PG str (list pgCol) :=
  let! cols := information_schema table in
  ret (map fst (where_ (fun c => negb (snd c)) cols)).

Fixpoint copyRows (insert : str) (cols : list pgCol) (rows : list (list Val)) (n : nat) : M PG str nat :=
  match rows with
  | [] => ret n
  | vals :: rest =>
      do! pg_exec insert (zip_with convertValue cols vals) in
      copyRows insert cols rest (S n)
  end.

Definition copyTable (table : str) (cols : list pgCol) : M PG str nat :=
  match cols with
  | [] => ret 0
  | _ =>
      match sq_query (selSQL table cols) with
      | inl e => throw e
      | inr (rows, err) =>
          let! n := copyRows (insSQL table cols) cols rows 0 in
          match err with Some e => throw e | None => ret n end
      end
  end.

Definition clearTable (table : str) : M PG str unit :=
  mapErr (fun e => "convert: clear " ++ table ++ ": " ++ e) (pg_exec (delSQL table) []).
Definition convertTable (total : nat) (table : str) : M PG str nat :=
  let! cols := mapErr (fun e => "convert: columns of " ++ table ++ ": " ++ e) (pgColumns table) in
  let! n := mapErr (fun e => "convert: copy " ++ table ++ ": " ++ e) (copyTable table cols) in
  ret (total + n).

(** The number of rows copied, which the code logs. *)
Definition ConvertSQLiteToPostgres : M PG str nat :=
  match OpenSQLite with
  | Some e => throw e
  | None =>
      do! mapErr (fun e => "convert: migrate destination: " ++ e) Migrate in
      do! OpenPool in
      do! forM_ (rev convertTableOrder) clearTable in
      foldM convertTable 0 convertTableOrder
  end.
End Convert.

(** ** sqlite.go: MigrateSQLite *)

Record mig := mkmig { mg_version : Z; mg_name : str; mg_body : str }.

(** The embedded files: name and content.  [inl] is the first bad file name. *)
Fixpoint migrations (entries : list (str * str)) : str + list mig :=
  match entries with
  | [] => inr []
  | (name, body) :: rest =>
      if negb (Config.HasSuffix name ".up.sql") then migrations rest
      else match IndexByte name "_" with
           | None | Some 0 => inl ("db: sqlite migrate: bad filename " ++ name)
           | Some idx =>
               match Atoi (str_take idx name) with
               | None => inl ("db: sqlite migrate: bad version in " ++ name)
               | Some v => match migrations rest with
                           | inl e => inl e
                           | inr l => inr (mkmig v name body :: l)
                           end
               end
           end
  end.

Fixpoint insert_mig (m : mig) (l : list mig) : list mig :=
  match l with
  | [] => [m]
  | x :: l' => if (mg_version m <=? mg_version x)%Z then m :: l else x :: insert_mig m l'
  end.
(** [sort.Slice] by version *)
Definition by_version (l : list mig) : list mig := foldr insert_mig [] l.

(** The SQLite file: whether the ledger table exists, the recorded versions, and the
    bodies executed so far, oldest first.  A statement fails when [fault] says so. *)
Record SQ := mkSQ { sq_tick : nat; sq_ledger : list Z; sq_ran : list str }.
Section MigrateSQLite.
Context (fault : nat -> option str) (entries : list (str * str)).

Definition statement {A} (f : SQ -> A * SQ) : M SQ str A := fun d =>
  let d' := mkSQ (S (sq_tick d)) (sq_ledger d) (sq_ran d) in
  match fault (sq_tick d) with
  | Some e => (inl e, d')
  | None => let '(a, d2) := f d' in (inr a, d2)
  end.
Definition applyOne (m : mig) : M SQ str unit :=
  do! mapErr (fun e => "db: sqlite migrate apply " ++ mg_name m ++ ": " ++ e)
        (statement (fun d => (tt, mkSQ (sq_tick d) (sq_ledger d) ((sq_ran d ++ [mg_body m])%list)))) in
  mapErr (fun e => "db: sqlite migrate record " ++ mg_name m ++ ": " ++ e)
    (statement (fun d => (tt, mkSQ (sq_tick d) (sq_ledger d ++ [mg_version m])%list (sq_ran d)))).
Definition MigrateSQLite : M SQ str unit :=
  do! mapErr (fun e => "db: sqlite migrate ledger: " ++ e) (statement (fun d => (tt, d))) in
  let! applied := mapErr (fun e => "db: sqlite migrate read ledger: " ++ e)
                    (statement (fun d => (sq_ledger d, d))) in
  match migrations entries with
  | inl e => throw e
  | inr migs =>
      forM_ (by_version migs) (fun m =>
        if bool_decide (mg_version m ∈ applied) then ret tt else applyOne m)
  end.
End MigrateSQLite.

End Db.
