(* ===== verification/OrgScope.v ===== *)
(** src/internal/repository: dbx.go and store.go (the database handle, the connection a
    statement runs on, the connection pinned to an organization for row-level
    security), and ScopeRequest of src/internal/service/service.go, which pins it.

    The pool is a shared resource: requests run statements on connections it lends for a
    moment, may take one for themselves and pin it with the session setting
    app.current_org, open transactions on a further connection, and give them back.  The interleavings of requests and background work
    are a step relation; a step carries the statement it executes, if any. *)
From S2P Require Import Prelude GoStrings.
#[local] Open Scope string_scope.

Module OrgScope.

(** ** The handle and the statement runner *)

Inductive Handle := pgxHandle | sqliteHandle.
Definition driver (h : Handle) : str := match h with pgxHandle => "postgres" | sqliteHandle => "sqlite" end.

(** What runs a statement: the shared pool, one connection, or the SQLite file. *)
Inductive Querier := OnPool | OnConn (c : nat) | OnSQLite.
Definition querier (h : Handle) : Querier := match h with pgxHandle => OnPool | sqliteHandle => OnSQLite end.
(** [Store.q]: the context's connection when it carries one. *)
Definition q (h : Handle) (conn : option nat) : Querier :=
  match conn with Some c => OnConn c | None => querier h end.

(** [Pool], for health checks: there is none on SQLite. *)
Definition has_pool (h : Handle) : bool := match h with pgxHandle => true | sqliteHandle => false end.

(** ** The pool *)

(** app.current_org per connection, and the connections nobody holds. *)
Record Pool := mkPool { pl_org : gmap nat str; pl_free : gset nat }.
Definition current_org (p : Pool) (c : nat) : str := default "" (pl_org p !! c).
Definition take_conn (c : nat) (p : Pool) : Pool := mkPool (pl_org p) (pl_free p ∖ {[c]}).
Definition Release (c : nat) (p : Pool) : Pool := mkPool (pl_org p) (pl_free p ∪ {[c]}).
Definition set_config (c : nat) (org : str) (p : Pool) : Pool :=
  mkPool (<[c := org]> (pl_org p)) (pl_free p).

(** [withOrgConn]: acquire, then set_config; when that fails the connection goes back
    and the request is refused. *)
Definition withOrgConn (c : nat) (org : str) (set_ok : bool) (p : Pool) : option nat * Pool :=
  let p := take_conn c p in
  if set_ok then (Some c, set_config c org p) else (None, Release c p).
(** The release function: the clearing is best effort. *)
Definition release (c : nat) (clear_ok : bool) (p : Pool) : Pool :=
  Release c (if clear_ok then set_config c "" p else p).

(** ** Requests *)

(** What a request still has to do on the database: the call of ScopeRequest (once, by the
    authentication middleware; never on a public path), statements through [Store.q], and
    transactions ([begin] takes a connection of the pool; every audit entry is one).  The
    statements before the call are those of authentication: the session, the tenant, its
    suspension. *)
Inductive Op := OpScope | OpStmt | OpTx.
(** The connection the request's context carries, and the one of its open transaction; or
    the request is answered. *)
Inductive Phase := Running (conn tx : option nat) | Answered.
Record Rq := mkRq { rq_org : str; rq_phase : Phase; rq_todo : list Op }.
Record State := mkState { st_pool : Pool; st_rqs : gmap nat Rq }.

(** The context a request goes on with, [None] when it is refused.  Without row-level
    security (the default) or an organization the context stays as it is. *)
Definition scopes (rls : bool) (org : str) : bool := rls && negb (org =s "").
Definition ScopeRequest (rls : bool) (org : str) (c : nat) (set_ok : bool) (p : Pool)
    : option (option nat) * Pool :=
  if negb rls then (Some None, p)
  else if org =s "" then (Some None, p)
  else match withOrgConn c org set_ok p with
       | (Some c, p) => (Some (Some c), p)
       | (None, p) => (None, p)
       end.

(** The connection a runner executes a statement on: its own, or any free one. *)
Definition runs_on (p : Pool) (r : Querier) (c : nat) : Prop :=
  match r with OnConn c' => c = c' | OnPool => c ∈ pl_free p | OnSQLite => False end.
Definition release_opt (conn : option nat) (ok : bool) (p : Pool) : Pool :=
  match conn with Some c => release c ok p | None => p end.

(** What request [i] does, with the organization the connection it runs on is pinned to:
    it is scoped, runs a statement, or one of its transaction; a statement of work without
    a request; a release that could not clear the setting. *)
Inductive Event :=
  | Scope (i : nat) | Stmt (i : nat) (pinned : str) | StmtTx (i : nat) (pinned : str)
  | StmtPlain (pinned : str) | ClearFailed | Quiet.

#[export] Instance Event_eq_dec : EqDecision Event.
Proof. solve_decision. Defined.

Definition enter (i : nat) (rq : Rq) (p : Pool) (st : State) : State :=
  mkState p (<[i := rq]> (st_rqs st)).

Section Steps.
Variable rls : bool.

Inductive step : State -> Event -> State -> Prop :=
  | step_scope (st : State) i org todo c ok r p :
      st_rqs st !! i = Some (mkRq org (Running None None) (OpScope :: todo)) ->
      (scopes rls org = true -> c ∈ pl_free (st_pool st)) ->
      ScopeRequest rls org c ok (st_pool st) = (r, p) ->
      step st (Scope i)
        (enter i (mkRq org (match r with Some conn => Running conn None | None => Answered end) todo) p st)
  | step_stmt (st : State) i org conn todo c :
      st_rqs st !! i = Some (mkRq org (Running conn None) (OpStmt :: todo)) ->
      runs_on (st_pool st) (q pgxHandle conn) c ->
      step st (Stmt i (current_org (st_pool st) c))
        (enter i (mkRq org (Running conn None) todo) (st_pool st) st)
  | step_begin (st : State) i org conn todo t :
      st_rqs st !! i = Some (mkRq org (Running conn None) (OpTx :: todo)) -> t ∈ pl_free (st_pool st) ->
      step st Quiet (enter i (mkRq org (Running conn (Some t)) todo) (take_conn t (st_pool st)) st)
  | step_tx_stmt (st : State) i org conn todo t :
      st_rqs st !! i = Some (mkRq org (Running conn (Some t)) todo) ->
      step st (StmtTx i (current_org (st_pool st) t)) st
  | step_commit (st : State) i org conn todo t :
      st_rqs st !! i = Some (mkRq org (Running conn (Some t)) todo) ->
      step st Quiet (enter i (mkRq org (Running conn None) todo) (Release t (st_pool st)) st)
  | step_release (st : State) i org conn (ok : bool) :
      st_rqs st !! i = Some (mkRq org (Running conn None) []) ->
      step st (if ok then Quiet else ClearFailed)
        (enter i (mkRq org Answered []) (release_opt conn ok (st_pool st)) st)
  | step_plain (st : State) c :
      c ∈ pl_free (st_pool st) -> step st (StmtPlain (current_org (st_pool st) c)) st.

Inductive run : State -> list Event -> State -> Prop :=
  | run_nil (st : State) : run st [] st
  | run_cons (st : State) e st1 es st2 : step st e st1 -> run st1 es st2 -> run st (e :: es) st2.

(** The start: no request carries a connection, no connection is pinned. *)
Definition initial (st : State) : Prop :=
  (forall i rq, st_rqs st !! i = Some rq -> rq_phase rq = Running None None) /\
  (forall c, current_org (st_pool st) c = "").

(** ** The invariant *)

Definition pins (rq : Rq) (c : nat) : Prop := exists tx, rq_phase rq = Running (Some c) tx.
Definition owns (rq : Rq) (c : nat) : Prop :=
  pins rq c \/ exists conn, rq_phase rq = Running conn (Some c).

Record Inv (st : State) : Prop := {
  inv_held i rq c : st_rqs st !! i = Some rq -> owns rq c -> c ∉ pl_free (st_pool st);
  inv_apart i j rq rq' c : st_rqs st !! i = Some rq -> st_rqs st !! j = Some rq' ->
    owns rq c -> owns rq' c -> i = j;
  inv_two i rq c t : st_rqs st !! i = Some rq -> rq_phase rq = Running (Some c) (Some t) -> c <> t;
  inv_pinned i rq c : st_rqs st !! i = Some rq -> pins rq c ->
    current_org (st_pool st) c = rq_org rq }.

(** As long as every release clears: only connections that a context carries are pinned. *)
Record Clean (st : State) : Prop := {
  cl_free c : c ∈ pl_free (st_pool st) -> current_org (st_pool st) c = "";
  cl_tx i rq conn t : st_rqs st !! i = Some rq -> rq_phase rq = Running conn (Some t) ->
    current_org (st_pool st) t = "" }.

Lemma initial_inv st : initial st -> Inv st /\ Clean st.
Proof.
  intros [Hf Hg].
  assert (forall i rq c, st_rqs st !! i = Some rq -> ~ owns rq c) as Hno.
  { intros i rq c Hi%Hf [[tx H]|[conn H]]; congruence. }
  split; split.
  - intros i rq c Hi Ho. by eapply Hno in Ho.
  - intros i j rq rq' c Hi _ Ho _. by eapply Hno in Ho.
  - intros i rq c t Hi%Hf Ho. congruence.
  - intros i rq c Hi Ho. exfalso. eapply Hno; [done|by left].
  - intros c _. apply Hg.
  - intros i rq c t Hi%Hf Ho. congruence.
Qed.

Lemma current_org_set c org p c' :
  current_org (set_config c org p) c' = if decide (c = c') then org else current_org p c'.
Proof.
  unfold current_org, set_config. cbn. case_decide as E; [subst; by rewrite lookup_insert_eq|].
  by rewrite lookup_insert_ne.
Qed.

(** One request moves: what it then owns is not free and nobody else's, what the
    others own stays so, and what it pins carries its organization. *)
Lemma inv_enter st i rq p :
  Inv st ->
  (forall c, owns rq c -> c ∉ pl_free p) ->
  (forall j rq' c, j <> i -> st_rqs st !! j = Some rq' -> owns rq' c ->
     ~ owns rq c /\ (c ∉ pl_free p) /\ current_org p c = current_org (st_pool st) c) ->
  (forall c t, rq_phase rq = Running (Some c) (Some t) -> c <> t) ->
  (forall c, pins rq c -> current_org p c = rq_org rq) ->
  Inv (enter i rq p st).
Proof.
  intros Hinv Hown Hoth Htwo Hpin. split; cbn.
  - intros j rq' c Hj Ho. destruct (decide (j = i)) as [->|Hne].
    + rewrite lookup_insert_eq in Hj. injection Hj as <-. by apply Hown.
    + rewrite lookup_insert_ne in Hj by done. by destruct (Hoth j rq' c Hne Hj Ho) as (_ & ? & _).
  - intros j k rq1 rq2 c Hj Hk H1 H2.
    destruct (decide (j = i)) as [->|Hj'], (decide (k = i)) as [->|Hk'];
      rewrite ?lookup_insert_eq in Hj; rewrite ?lookup_insert_eq in Hk;
      rewrite ?lookup_insert_ne in Hj by done; rewrite ?lookup_insert_ne in Hk by done.
    + done.
    + injection Hj as <-. by destruct (Hoth k rq2 c Hk' Hk H2) as [[] _].
    + injection Hk as <-. by destruct (Hoth j rq1 c Hj' Hj H1) as [[] _].
    + by eapply (inv_apart _ Hinv j k).
  - intros j rq' c t Hj Ho. destruct (decide (j = i)) as [->|Hne].
    + rewrite lookup_insert_eq in Hj. injection Hj as <-. by eapply Htwo.
    + rewrite lookup_insert_ne in Hj by done. by eapply (inv_two _ Hinv).
  - intros j rq' c Hj Ho. destruct (decide (j = i)) as [->|Hne].
    + rewrite lookup_insert_eq in Hj. injection Hj as <-. by apply Hpin.
    + rewrite lookup_insert_ne in Hj by done.
      destruct (Hoth j rq' c Hne Hj) as (_ & _ & ->); [by left|]. by eapply (inv_pinned _ Hinv).
Qed.

(** What a request owns, by the shape of its phase. *)
Lemma owns_running org conn tx todo c :
  owns (mkRq org (Running conn tx) todo) c <-> conn = Some c \/ tx = Some c.
Proof.
  unfold owns, pins. cbn. split.
  - intros [[tx' [= -> ->]]|[conn' [= -> ->]]]; auto.
  - intros [-> | ->]; eauto.
Qed.
Lemma pins_running org conn tx todo c : pins (mkRq org (Running conn tx) todo) c <-> conn = Some c.
Proof. unfold pins. cbn. split; [by intros [tx' [= -> ->]]|intros ->; eauto]. Qed.
Lemma owns_answered org todo c : ~ owns (mkRq org Answered todo) c.
Proof. intros [[tx [=]]|[conn [=]]]. Qed.

(** What another request owns is neither free nor owned by this one. *)
Lemma other_owns st i rq j rq' c : Inv st -> st_rqs st !! i = Some rq -> j <> i ->
  st_rqs st !! j = Some rq' -> owns rq' c -> ~ owns rq c /\ (c ∉ pl_free (st_pool st)).
Proof.
  intros Hinv Hi Hne Hj Ho. split; [|by eapply inv_held]. intros Ho'. apply Hne.
  by eapply (inv_apart _ Hinv j i).
Qed.

(** A move in which the request owns no more than before and the pool keeps its free
    connections and its settings. *)
Lemma inv_shrink st i rq rq' p : Inv st -> st_rqs st !! i = Some rq -> rq_org rq' = rq_org rq ->
  pl_free p = pl_free (st_pool st) -> (forall c, current_org p c = current_org (st_pool st) c) ->
  (forall c, owns rq' c -> owns rq c) -> (forall c, pins rq' c -> pins rq c) ->
  (forall c t, rq_phase rq' = Running (Some c) (Some t) -> c <> t) -> Inv (enter i rq' p st).
Proof.
  intros Hinv Hi Horg Hf Hc Ho Hp Htwo. apply inv_enter; [done|..].
  - intros c Hoc. rewrite Hf. eapply inv_held; [done..|by apply Ho].
  - intros j rq0 c Hne Hj Hoc. destruct (other_owns _ _ _ _ _ _ Hinv Hi Hne Hj Hoc) as [Hno Hnf].
    rewrite Hf. split_and!; [|done..]. by intros Hoc'%Ho.
  - exact Htwo.
  - intros c Hpc. rewrite Hc, Horg. by eapply inv_pinned; [..|apply Hp].
Qed.

Lemma scope_inv ok st i org todo c r p : Inv st ->
  st_rqs st !! i = Some (mkRq org (Running None None) (OpScope :: todo)) ->
  (scopes rls org = true -> c ∈ pl_free (st_pool st)) ->
  ScopeRequest rls org c ok (st_pool st) = (r, p) ->
  Inv (enter i (mkRq org (match r with Some conn => Running conn None | None => Answered end) todo) p st).
Proof.
  intros Hinv Hi Hc Hw.
  assert (Inv (enter i (mkRq org (Running None None) todo) (st_pool st) st)) as Hplain.
  { eapply inv_shrink; [done..|]; intros c'; rewrite ?owns_running, ?pins_running; naive_solver. }
  unfold ScopeRequest in Hw. unfold scopes in Hc. destruct rls; cbn [negb andb] in *; [|by injection Hw as <- <-].
  destruct (org =s ""); cbn [negb] in *; [by injection Hw as <- <-|]. specialize (Hc eq_refl).
  unfold withOrgConn in Hw. destruct ok; injection Hw as <- <-; apply inv_enter; try done.
  + intros c' [[=<-]|[=]]%owns_running. cbn. set_solver.
  + intros j rq' c' Hne Hj Ho. destruct (other_owns _ _ _ _ _ _ Hinv Hi Hne Hj Ho) as [_ Hnf].
    assert (c' <> c) by (by intros ->). split_and!; [|cbn; set_solver|].
    * by intros [[=<-]|[=]]%owns_running.
    * by rewrite current_org_set, decide_False.
  + intros c' [=<-]%pins_running. by rewrite current_org_set, decide_True.
  + intros c' []%owns_answered.
  + intros j rq' c' Hne Hj Ho. destruct (other_owns _ _ _ _ _ _ Hinv Hi Hne Hj Ho) as [_ Hnf].
    assert (c' <> c) by (by intros ->). split_and!; [apply owns_answered|cbn; set_solver|done].
  + intros c' [tx [=]].
Qed.
Lemma begin_inv st i org conn todo t : Inv st ->
  st_rqs st !! i = Some (mkRq org (Running conn None) (OpTx :: todo)) -> t ∈ pl_free (st_pool st) ->
  Inv (enter i (mkRq org (Running conn (Some t)) todo) (take_conn t (st_pool st)) st).
Proof.
  intros Hinv Hi Ht.
  assert (forall c, conn = Some c -> c ∉ pl_free (st_pool st)) as Hc.
  { intros c ->. eapply inv_held; [done|exact Hi|]. apply owns_running. by left. }
  apply inv_enter; [done|..].
  + intros c' [->|[=<-]]%owns_running; cbn; [specialize (Hc c' eq_refl)|]; set_solver.
  + intros j rq' c' Hne Hj Ho. destruct (other_owns _ _ _ _ _ _ Hinv Hi Hne Hj Ho) as [Hno Hnf].
    split_and!; [|cbn; set_solver|done]. rewrite owns_running in *. naive_solver.
  + intros c t' [= -> <-] ->. by apply (Hc t).
  + intros c' ->%pins_running. eapply (inv_pinned _ Hinv i _ c' Hi). by apply pins_running.
Qed.
Lemma commit_inv st i org conn todo t : Inv st ->
  st_rqs st !! i = Some (mkRq org (Running conn (Some t)) todo) ->
  Inv (enter i (mkRq org (Running conn None) todo) (Release t (st_pool st)) st).
Proof.
  intros Hinv Hi. apply inv_enter; [done|..].
  + intros c' [->|[=]]%owns_running. pose proof (inv_two _ Hinv i _ c' t Hi eq_refl).
    assert (c' ∉ pl_free (st_pool st)) by (eapply inv_held; [done|exact Hi|apply owns_running; by left]).
    cbn. set_solver.
  + intros j rq' c' Hne Hj Ho. destruct (other_owns _ _ _ _ _ _ Hinv Hi Hne Hj Ho) as [Hno Hnf].
    rewrite owns_running in *. assert (c' <> t) by (intros ->; apply Hno; by right).
    split_and!; [naive_solver|cbn; set_solver|done].
  + done.
  + intros c' ->%pins_running. eapply (inv_pinned _ Hinv i _ c' Hi). by apply pins_running.
Qed.
Lemma release_inv (ok : bool) st i org conn : Inv st ->
  st_rqs st !! i = Some (mkRq org (Running conn None) []) ->
  Inv (enter i (mkRq org Answered []) (release_opt conn ok (st_pool st)) st).
Proof.
  intros Hinv Hi. destruct conn as [c|]; cbn [release_opt].
  2:{ eapply inv_shrink; [done..| | |]; cbn; [by intros c ?%owns_answered|by intros c [tx [=]]|done]. }
  apply inv_enter; [done|by intros c' ?%owns_answered| |done|by intros c' [tx [=]]].
  intros j rq' c' Hne Hj Ho. destruct (other_owns _ _ _ _ _ _ Hinv Hi Hne Hj Ho) as [Hno Hnf].
  assert (c' <> c) by (intros ->; apply Hno, owns_running; by left). split_and!.
  * apply owns_answered.
  * unfold release. destruct ok; cbn; set_solver.
  * unfold release. destruct ok; [|done].
    transitivity (current_org (set_config c "" (st_pool st)) c'); [done|].
    by rewrite current_org_set, decide_False.
Qed.
Lemma step_inv st e st' : Inv st -> step st e st' -> Inv st'.
Proof.
  intros Hinv Hs. destruct Hs; eauto using scope_inv, begin_inv, commit_inv, release_inv.
  eapply inv_shrink; [done..|]; cbn; intros c'; rewrite ?owns_running, ?pins_running; naive_solver.
Qed.

(** Only a connection that is given back uncleared carries an organization it should not. *)
Lemma clean_enter st i rq p :
  (forall c, c ∈ pl_free p -> current_org p c = "") ->
  (forall j rq' conn t, j <> i -> st_rqs st !! j = Some rq' -> rq_phase rq' = Running conn (Some t) ->
     current_org p t = "") ->
  (forall conn t, rq_phase rq = Running conn (Some t) -> current_org p t = "") ->
  Clean (enter i rq p st).
Proof.
  intros Hf Ho Ht. split; [done|]. intros j rq' c t Hj Hp. cbn in Hj.
  destruct (decide (j = i)) as [->|Hne].
  - rewrite lookup_insert_eq in Hj. injection Hj as <-. by eapply Ht.
  - rewrite lookup_insert_ne in Hj by done. by eapply Ho.
Qed.
Lemma clean_plain st i rq : Clean st -> (forall conn t, rq_phase rq <> Running conn (Some t)) ->
  Clean (enter i rq (st_pool st) st).
Proof.
  intros Hcl Hph. apply clean_enter; [apply (cl_free _ Hcl)|intros; by eapply (cl_tx _ Hcl)|].
  intros conn t H. by apply Hph in H.
Qed.

Lemma scope_clean ok st i org todo c r p : Inv st -> Clean st ->
  st_rqs st !! i = Some (mkRq org (Running None None) (OpScope :: todo)) ->
  (scopes rls org = true -> c ∈ pl_free (st_pool st)) ->
  ScopeRequest rls org c ok (st_pool st) = (r, p) ->
  Clean (enter i (mkRq org (match r with Some conn => Running conn None | None => Answered end) todo) p st).
Proof.
  intros Hinv Hcl Hi Hc Hw. unfold ScopeRequest in Hw. unfold scopes in Hc.
  destruct rls; cbn [negb andb] in *; [|injection Hw as <- <-; by apply clean_plain].
  destruct (org =s ""); cbn [negb] in *; [injection Hw as <- <-; by apply clean_plain|].
  specialize (Hc eq_refl).
  unfold withOrgConn in Hw. destruct ok; injection Hw as <- <-; apply clean_enter; try done.
  + intros c' Hc'. cbn in Hc'. rewrite current_org_set, decide_False by set_solver.
    apply (cl_free _ Hcl). set_solver.
  + intros j rq' conn t Hne Hj Hp. assert (t <> c).
    { intros ->. eapply (inv_held _ Hinv j _ c Hj); [right; by eexists|done]. }
    rewrite current_org_set, decide_False by done. by eapply (cl_tx _ Hcl).
  + intros c' Hc'. apply (cl_free _ Hcl). cbn in Hc'. set_solver.
  + intros j rq' conn t Hne Hj Hp. by eapply (cl_tx _ Hcl).
Qed.
Lemma release_clean st i org conn : Clean st ->
  st_rqs st !! i = Some (mkRq org (Running conn None) []) ->
  Clean (enter i (mkRq org Answered []) (release_opt conn true (st_pool st)) st).
Proof.
  intros Hcl Hi. destruct conn as [c|]; [|by apply clean_plain]. cbn [release_opt]. unfold release.
  apply clean_enter; [| |done].
  + intros c' Hc'. change (current_org (set_config c "" (st_pool st)) c' = "").
    rewrite current_org_set. case_decide; [done|]. apply (cl_free _ Hcl). cbn in Hc'. set_solver.
  + intros j rq' c' t Hne Hj Hp. change (current_org (set_config c "" (st_pool st)) t = "").
    rewrite current_org_set. case_decide; [done|]. by eapply (cl_tx _ Hcl).
Qed.
Lemma step_clean st e st' : Inv st -> Clean st -> step st e st' -> e <> ClearFailed -> Clean st'.
Proof.
  intros Hinv Hcl Hs He.
  destruct Hs as [| |st i org conn todo t Hi Ht| |st i org conn todo t Hi|st i org conn ok Hi|];
    [by eapply scope_clean|by apply clean_plain| |done| | |done].
  - apply clean_enter.
    + intros c' Hc'. apply (cl_free _ Hcl). cbn in Hc'. set_solver.
    + intros; by eapply (cl_tx _ Hcl).
    + intros c' t' [= <- <-]. by apply (cl_free _ Hcl).
  - apply clean_enter; [|intros; by eapply (cl_tx _ Hcl)|done]. intros c' Hc'. cbn in Hc'.
    apply elem_of_union in Hc' as [Hc'|E]; [by apply (cl_free _ Hcl)|].
    apply elem_of_singleton in E as ->. by eapply (cl_tx _ Hcl).
  - destruct ok; [|done]. by eapply release_clean.
Qed.

(** ** What the requests carry *)

(** Request [i] of organization [org] is answered, or its context carries a connection. *)
Definition carries (i : nat) (org : str) (st : State) : Prop :=
  exists rq, st_rqs st !! i = Some rq /\ rq_org rq = org /\
    (rq_phase rq = Answered \/ exists c tx, rq_phase rq = Running (Some c) tx).
(** Request [i] of organization [org]; its context carries no connection. *)
Definition bare (i : nat) (org : str) (st : State) : Prop :=
  exists rq, st_rqs st !! i = Some rq /\ rq_org rq = org /\
    (rq_phase rq = Answered \/ exists tx, rq_phase rq = Running None tx).

(** A step of another request, or of none, leaves request [i] alone. *)
Lemma enter_lookup i rq p st j :
  st_rqs (enter i rq p st) !! j = if decide (i = j) then Some rq else st_rqs st !! j.
Proof. cbn. case_decide as E; [subst; by rewrite lookup_insert_eq|by rewrite lookup_insert_ne]. Qed.

Ltac own_step :=
  match goal with
  | H1 : st_rqs ?st !! ?i = Some _, H2 : st_rqs ?st !! ?i = Some _ |- _ =>
      rewrite H1 in H2; injection H2 as <-; cbn in *
  end.
Ltac other_event :=
  match goal with
  | H : (if ?ok then _ else _) = _ |- _ => by destruct ok
  | H : _ = (if ?ok then _ else _) |- _ => by destruct ok
  end.
Lemma step_carries st e st' i org : step st e st' -> carries i org st -> carries i org st'.
Proof.
  intros Hs (rq & Hi & Ho & Hp).
  destruct Hs as [st j org' todo c ok r p Hj| st j org' conn todo c Hj|st j org' conn todo t Hj|
     |st j org' conn todo t Hj|st j org' conn ok Hj|]; try (by exists rq); unfold carries; rewrite enter_lookup;
    (case_decide as E; [subst j; own_step|by exists rq]); eexists; (split; [done|]); (split; [done|]); cbn.
  all: destruct Hp as [Hp|(c' & tx & Hp)]; simplify_eq; eauto.
Qed.
Lemma step_bare st e st' i org : step st e st' -> e <> Scope i \/ scopes rls org = false ->
  bare i org st -> bare i org st'.
Proof.
  intros Hs He (rq & Hi & Ho & Hp).
  destruct Hs as [st j org' todo c ok r p Hj Hc Hw| st j org' conn todo c Hj|st j org' conn todo t Hj|
     |st j org' conn todo t Hj|st j org' conn ok Hj|]; try (by exists rq); unfold bare; rewrite enter_lookup;
    (case_decide as E; [subst j; own_step|by exists rq]); eexists; (split; [done|]); (split; [done|]); cbn.
  2,3,4,5: destruct Hp as [Hp|(tx & Hp)]; simplify_eq; eauto.
  destruct He as [He|He]; [done|]. subst org. unfold ScopeRequest in Hw. unfold scopes in He.
  destruct rls; cbn in *; [|injection Hw as <- _; eauto].
  destruct (org' =s ""); [injection Hw as <- _; eauto|done].
Qed.
Lemma scope_carries st i org st' : scopes rls org = true -> step st (Scope i) st' -> bare i org st ->
  carries i org st'.
Proof.
  intros Hr Hs (rq & Hi & Ho & Hp). inversion Hs as [st0 j org' todo c ok r p Hj Hc Hw| | | | |st0 j org' conn ok Hj|]; subst.
  - own_step. exists (mkRq org' (match r with Some conn => Running conn None | None => Answered end) todo).
    rewrite enter_lookup, decide_True by done. split; [done|]. split; [done|]. cbn.
    unfold ScopeRequest in Hw. unfold scopes in Hr. destruct rls; [|done]. cbn in *.
    destruct (org' =s ""); [done|]. unfold withOrgConn in Hw. destruct ok; injection Hw as <- _; eauto.
  - other_event.
Qed.

(** ** The statements *)

(** A statement of a request whose context carries a connection runs on it. *)
Lemma carried_stmt st i org pinned st' : Inv st -> carries i org st -> step st (Stmt i pinned) st' ->
  pinned = org.
Proof.
  intros Hinv (rq & Hi & Ho & Hp) Hs.
  inversion Hs as [|st0 j org' conn todo c Hj Hr| | | |st0 j org' conn ok Hj|]; subst.
  - own_step. destruct Hp as [Hp|(c' & tx & Hp)]; [done|]. injection Hp as -> <-. cbn in Hr. subst c'.
    eapply (inv_pinned _ Hinv i _ c Hj). by apply pins_running.
  - other_event.
Qed.
(** Otherwise it runs on a free connection. *)
Lemma bare_stmt st i org pinned st' : Clean st -> bare i org st -> step st (Stmt i pinned) st' -> pinned = "".
Proof.
  intros Hcl (rq & Hi & Ho & Hp) Hs.
  inversion Hs as [|st0 j org' conn todo c Hj Hr| | | |st0 j org' conn ok Hj|]; subst.
  - own_step. destruct Hp as [Hp|(tx & Hp)]; [done|]. injection Hp as -> <-. by apply (cl_free _ Hcl).
  - other_event.
Qed.
(** Transactions and work without a request. *)
Definition unpinned (e : Event) : Prop :=
  match e with StmtTx _ pinned | StmtPlain pinned => pinned = "" | _ => True end.
Lemma step_unpinned st e st' : Clean st -> step st e st' -> unpinned e.
Proof.
  intros Hcl Hs. destruct Hs as [| | |st i org conn todo t Hi| |st i org conn ok Hi|st c Hc]; try done.
  - by eapply (cl_tx _ Hcl).
  - by destruct ok.
  - by apply (cl_free _ Hcl).
Qed.

(** ** Runs *)

Lemma run_carried st es st' i org pinned : Inv st -> carries i org st -> run st es st' ->
  Stmt i pinned ∈ es -> pinned = org.
Proof.
  intros Hinv Hc Hrun. induction Hrun as [|st e st1 es st2 Hs Hrun IH]; [by intros ?%not_elem_of_nil|].
  intros [<-|Hin]%elem_of_cons; [by eapply carried_stmt|].
  apply IH; [by eapply step_inv|by eapply step_carries|done].
Qed.
(** After the request is scoped. *)
Lemma run_scoped st es1 es2 st' i org pinned : Inv st -> bare i org st -> scopes rls org = true ->
  run st (es1 ++ Scope i :: es2) st' -> Stmt i pinned ∈ es2 -> pinned = org.
Proof.
  intros Hinv Hb Hr. revert st Hinv Hb. induction es1 as [|e es1 IH]; intros st Hinv Hb Hrun Hin;
    inversion Hrun as [|st0 e0 st1 es st2 Hs Hrun1]; subst.
  - eapply run_carried; [by eapply step_inv|by eapply scope_carries|exact Hrun1|exact Hin].
  - destruct (decide (e = Scope i)) as [->|He].
    + eapply run_carried; [by eapply step_inv|by eapply scope_carries|exact Hrun1|]. set_solver.
    + apply (IH st1); [by eapply step_inv|eapply step_bare; [exact Hs|by left|done]|done|done].
Qed.
(** Before it is, or when it never is. *)
Lemma run_bare st es1 es2 st' i org pinned : Inv st -> Clean st -> bare i org st ->
  run st (es1 ++ Stmt i pinned :: es2) st' -> (ClearFailed ∉ es1) ->
  (Scope i ∉ es1) \/ scopes rls org = false -> pinned = "".
Proof.
  revert st. induction es1 as [|e es1 IH]; intros st Hinv Hcl Hb Hrun Hno Hsc;
    inversion Hrun as [|st0 e0 st1 es st2 Hs Hrun1]; subst; [by eapply bare_stmt|].
  apply not_elem_of_cons in Hno as [He Hno].
  apply (IH st1); [by eapply step_inv|by eapply step_clean| |done|done|].
  - eapply step_bare; [exact Hs| |done]. destruct Hsc as [Hsc|]; [left; set_solver|by right].
  - destruct Hsc as [Hsc|]; [left; set_solver|by right].
Qed.
Lemma run_unpinned st es st' : Inv st -> Clean st -> run st es st' -> (ClearFailed ∉ es) -> Forall unpinned es.
Proof.
  intros Hinv Hcl Hrun Hno. induction Hrun as [|st e st1 es st2 Hs Hrun IH]; [constructor|].
  apply not_elem_of_cons in Hno as [He Hno]. constructor; [by eapply step_unpinned|].
  apply IH; [by eapply step_inv| |done]. eapply step_clean; [done..|congruence].
Qed.
Lemma initial_bare st i rq : initial st -> st_rqs st !! i = Some rq -> bare i (rq_org rq) st.
Proof. intros [Hf _] Hi. exists rq. split; [done|]. split; [done|]. right. exists None. by apply (Hf i). Qed.

(** C7: row-level security pins a request to its own organization.  Take any interleaving
    of requests and background work over a shared connection pool, and a request [i] of
    organization [rq_org rq].  With row-level security on and an organization, every
    statement the request runs through its store after the middleware scoped it executes
    on a connection whose app.current_org is that organization, whatever the others do
    and whichever releases fail to clear the setting.  As long as no release fails to
    clear it, everything else runs on connections pinned to no organization: the
    statements of the request before it was scoped (authentication), all its statements
    when row-level security is off (the default) or it has no organization, every
    transaction (each audit entry) and every statement of background work. *)
Theorem org_scope_holds st es st' i rq (Hinit : initial st) (Hrun : run st es st')
    (Hi : st_rqs st !! i = Some rq) :
  (rls = true -> rq_org rq <> "" -> forall es1 es2 pinned,
     es = (es1 ++ Scope i :: es2)%list -> Stmt i pinned ∈ es2 -> pinned = rq_org rq) /\
  (forall es1 es2 pinned, es = (es1 ++ Stmt i pinned :: es2)%list -> (ClearFailed ∉ es1) ->
     (Scope i ∉ es1) \/ rls = false \/ rq_org rq = "" -> pinned = "") /\
  ((ClearFailed ∉ es) -> Forall unpinned es).
Proof.
  pose proof (initial_bare _ _ _ Hinit Hi) as Hb. apply initial_inv in Hinit as [Hinv Hcl].
  split_and!.
  - intros Hr Ho es1 es2 pinned -> Hin. eapply run_scoped; [done..| |exact Hrun|exact Hin].
    unfold scopes. rewrite Hr. by apply negb_true_iff, eqb_false_str.
  - intros es1 es2 pinned -> Hno Hwhy. eapply run_bare; [done..|exact Hrun|done|].
    destruct Hwhy as [?|[->|Ho]]; [by left|by right|right]. unfold scopes. rewrite Ho. by rewrite andb_false_r.
  - by eapply run_unpinned.
Qed.
End Steps.

(** ** Exhaustion of the pool *)

(** The requests k, k+1, ... each about to be scoped and to write an audit entry. *)
Fixpoint writers (k n : nat) : gmap nat Rq :=
  match n with 0 => ∅ | S n' => <[k := mkRq "o1" (Running None None) [OpScope; OpTx]]> (writers (S k) n') end.
Definition stuck (st : State) : Prop := forall e st', ~ step true st e st'.
Definition waiting (rq : Rq) : Prop := exists org c, rq = mkRq org (Running (Some c) None) [OpTx].

Lemma waiting_stuck st : pl_free (st_pool st) = ∅ ->
  (forall i rq, st_rqs st !! i = Some rq -> waiting rq) -> stuck st.
Proof.
  intros Hf Hw e st' Hs. destruct Hs as [st i org todo c ok r p Hi|st i org conn todo c Hi|st i org conn todo t Hi Ht|
     st i org conn todo t Hi|st i org conn todo t Hi|st i org conn ok Hi|st c Hc].
  all: try (apply Hw in Hi as (org' & c' & [=])).
  - rewrite Hf in Ht. set_solver.
  - rewrite Hf in Hc. set_solver.
Qed.

Lemma writers_lookup k n i rq : writers k n !! i = Some rq -> k <= i.
Proof.
  revert k. induction n as [|n IH]; intros k H; [done|]. cbn in H.
  destruct (decide (i = k)) as [->|Hne]; [done|]. rewrite lookup_insert_ne in H by done.
  apply IH in H. lia.
Qed.

(** Each writer in turn pins a connection; then nobody can take a second one. *)
Lemma writers_block cs : forall k p st,
  NoDup cs -> pl_free p = list_to_set cs -> st_pool st = p ->
  (forall i rq, k <= i -> st_rqs st !! i = Some rq -> writers k (length cs) !! i = Some rq) ->
  (forall i rq, writers k (length cs) !! i = Some rq -> st_rqs st !! i = Some rq) ->
  (forall i rq, i < k -> st_rqs st !! i = Some rq -> waiting rq) ->
  exists es st', run true st es st' /\ stuck st'.
Proof.
  induction cs as [|c cs IH]; intros k p st Hnd Hf Hp Hup Hdn Hlow.
  { exists [], st. split; [constructor|]. apply waiting_stuck; [by rewrite Hp, Hf|].
    intros i rq Hi. destruct (decide (i < k)); [by eapply Hlow|].
    apply Hup in Hi; [done|lia]. }
  apply NoDup_cons in Hnd as [Hc Hnd]. cbn in Hdn, Hup.
  set (st1 := enter k (mkRq "o1" (Running (Some c) None) [OpTx]) (set_config c "o1" (take_conn c p)) st).
  destruct (IH (S k) (set_config c "o1" (take_conn c p)) st1) as (es & st' & Hrun & Hst).
  - done.
  - cbn. rewrite Hf. cbn. set_solver.
  - done.
  - intros i rq Hi Hl. cbn in Hl. rewrite lookup_insert_ne in Hl by lia. apply Hup in Hl; [|lia].
    by rewrite lookup_insert_ne in Hl by lia.
  - intros i rq Hi. pose proof (writers_lookup _ _ _ _ Hi). cbn. rewrite lookup_insert_ne by lia.
    apply Hdn. by rewrite lookup_insert_ne by lia.
  - intros i rq Hi Hl. cbn in Hl. destruct (decide (i = k)) as [->|Hne].
    + rewrite lookup_insert_eq in Hl. injection Hl as <-. by eexists _, _.
    + rewrite lookup_insert_ne in Hl by done. eapply Hlow; [|done]. lia.
  - exists (Scope k :: es), st'. split; [|done]. econstructor; [|exact Hrun].
    refine (step_scope true st k "o1" [OpTx] c true (Some (Some c)) _ _ _ _).
    + apply Hdn. by rewrite lookup_insert_eq.
    + intros _. rewrite Hp, Hf. cbn. set_solver.
    + by rewrite Hp.
Qed.

(** With row-level security on, a request keeps its pinned connection while its audit
    entry asks the pool for a second one.  Whatever the size of the pool, as many
    concurrent writing requests as it has connections can block each other for ever:
    from the reached state no step is possible, not even of background work. *)
Theorem pool_can_deadlock cs : NoDup cs ->
  let st := mkState (mkPool ∅ (list_to_set cs)) (writers 0 (length cs)) in
  initial st /\ exists es st', run true st es st' /\ stuck st'.
Proof.
  intros Hnd st. split.
  - split; [|by intros c]. cbn. generalize 0 as k. induction (length cs) as [|n IH]; intros k i rq H; [done|].
    cbn in H. destruct (decide (i = k)) as [->|Hne].
    + rewrite lookup_insert_eq in H. by injection H as <-.
    + rewrite lookup_insert_ne in H by done. by eapply IH.
  - eapply (writers_block cs 0 (st_pool st) st Hnd); try done; intros i rq Hi; lia.
Qed.

Lemma step_event rls st e e' st' : step rls st e st' -> e = e' -> step rls st e' st'.
Proof. by intros ? <-. Qed.
(** A request of o1 that authenticates, is scoped, reads and writes an audit entry, next to
    background work. *)
Definition demo_state : State :=
  mkState (mkPool ∅ {[1; 2]}) {[ 0 := mkRq "o1" (Running None None) [OpStmt; OpScope; OpStmt; OpTx] ]}.
Definition demo_events : list Event :=
  [Stmt 0 ""; Scope 0; Stmt 0 "o1"; Quiet; StmtTx 0 ""; Quiet; Quiet; StmtPlain ""].
Lemma demo_initial : initial demo_state.
Proof.
  split; [|by intros c]. intros i rq H. cbn in H. apply lookup_singleton_Some in H as [_ <-]. done.
Qed.
Lemma demo_run : exists st', run true demo_state demo_events st'.
Proof.
  eexists.
  eapply run_cons; [eapply step_event; [eapply (step_stmt _ _ 0 "o1" None _ 1); [reflexivity|cbn; set_solver]|vm_compute; reflexivity]|].
  eapply run_cons; [eapply (step_scope true _ 0 "o1" [OpStmt; OpTx] 1 true (Some (Some 1))); [reflexivity|intros _; cbn; set_solver|reflexivity]|].
  eapply run_cons; [eapply step_event; [eapply (step_stmt _ _ 0 "o1" (Some 1) [OpTx] 1); reflexivity|vm_compute; reflexivity]|].
  eapply run_cons; [eapply (step_begin _ _ 0 "o1" (Some 1) [] 2); [reflexivity|cbn; set_solver]|].
  eapply run_cons; [eapply step_event; [eapply (step_tx_stmt _ _ 0 "o1" (Some 1) [] 2); reflexivity|vm_compute; reflexivity]|].
  eapply run_cons; [eapply (step_commit _ _ 0 "o1" (Some 1) [] 2); reflexivity|].
  eapply run_cons; [eapply step_event; [eapply (step_release _ _ 0 "o1" (Some 1) true); reflexivity|vm_compute; reflexivity]|].
  eapply run_cons; [|apply run_nil].
  eapply step_event; [eapply (step_plain _ _ 1); cbn; set_solver|vm_compute; reflexivity].
Qed.
Lemma org_scope_holds_witness : exists st', run true demo_state demo_events st' /\
  (forall pinned, Stmt 0 pinned ∈ [Stmt 0 "o1"; Quiet; StmtTx 0 ""; Quiet; Quiet; StmtPlain ""] -> pinned = "o1") /\
  Forall unpinned demo_events.
Proof.
  destruct demo_run as [st' Hrun].
  pose proof (org_scope_holds true _ _ _ 0 _ demo_initial Hrun eq_refl) as (H1 & _ & H3).
  exists st'. split; [exact Hrun|]. split.
  - intros pinned. apply (H1 eq_refl ltac:(done) [Stmt 0 ""]). reflexivity.
  - apply H3. unfold demo_events. rewrite !not_elem_of_cons. split_and!; try discriminate. apply not_elem_of_nil.
Defined.

End OrgScope.
