(* ===== verification/RowSecurity.v ===== *)
(** src/internal/db/migrations/0018_rls_policies.up.sql: the row-level security policies
    that a connection pinned by [withOrgConn] (OrgScope.v) puts under the queries of
    Repository.v.

    A statement on a pinned connection sees the tables through [visible].  The model
    covers what reads, updates and deletes by key report; inserts are left out, because
    their constraints look at hidden rows too. *)
From S2P Require Import Prelude GoStrings Database Repository OrgScope.
#[local] Open Scope string_scope.

Module RowSecurity.

(** ** The policy *)

(** The role the server connects with: a superuser passes every policy, FORCE ROW LEVEL
    SECURITY holds for all others (the owner included). *)
Inductive Role := Superuser | buktio_app.

Definition NULLIF (s x : str) : option str := if s =s x then None else Some s.

(** USING and WITH CHECK of org_isolation; a NULL column (read as "" here) equals nothing. *)
Definition org_isolation (current_org org_col : str) : bool :=
  match NULLIF current_org "" with
  | None => true
  | Some o => org_col =s o
  end.

(** The tables the migration loops over, with the column that is compared. *)
Definition tenant_tables : list (str * str) :=
  [("organizations", "id"); ("organization_members", "org_id"); ("projects", "org_id");
   ("buckets", "org_id"); ("access_keys", "org_id"); ("usage_snapshots", "org_id");
   ("audit_events", "org_id"); ("api_tokens", "org_id"); ("object_trash", "org_id");
   ("invitations", "org_id"); ("sessions", "org_id"); ("backup_schedules", "org_id");
   ("backup_jobs", "org_id")].

Definition rows {A} (current_org : str) (col : A -> str) (l : list A) : list A :=
  where_ (fun r => org_isolation current_org (col r)) l.
Definition live_rows {A} (current_org : str) (col : A -> str) (l : list (Live A)) : list (Live A) :=
  where_ (fun r => org_isolation current_org (col (lv r))) l.

(** What a statement sees: the thirteen tables through the policy, the others whole.
    No code writes sessions.org_id, so it is NULL in every row. *)
Definition visible (role : Role) (o : str) (d : DB) : DB :=
  match role with
  | Superuser => d
  | buktio_app =>
      mkDB (db_tick d) (live_rows o org_ID (orgs d)) (live_rows o prj_OrgID (projects d)) (users d)
        (rows o om_OrgID (members d)) (rows o inv_OrgID (invitations d))
        (rows o (fun _ => "") (sessions d)) (clusters d) (org_clusters d) (nodes d)
        (live_rows o b_OrgID (buckets d)) (live_rows o k_OrgID (keys d)) (perms d)
        (rows o us_OrgID (usage d)) (rows o t_OrgID (trash d)) (rows o ar_OrgID (audit_events d))
        (webhooks d) (migrations d) (billing d) (reports d) (traffic d)
        (live_rows o at_OrgID (api_tokens d)) (policies d) (policy_bindings d) (replications d)
        (rows o bs_OrgID (backup_schedules d)) (rows o bj_OrgID (backup_jobs d))
        (email_verifications d) (signup_attempts d) (user_identities d) (scim_tokens d)
        (org_branding d) (install_step d)
  end.

(** What a read, an update or a delete by key answers. *)
Definition answer {A} (role : Role) (o : str) (m : M DB DBErr A) (d : DB) : DBErr + A :=
  fst (m (visible role o d)).

(** ** What the policy does to a query *)

Lemma where_all {A} (p : A -> bool) l : (forall x, p x = true) -> where_ p l = l.
Proof. intros H. induction l as [|x l IH]; cbn; [done|]. by rewrite H, IH. Qed.

(** Permissive when unset: without app.current_org the policies impose nothing. *)
Lemma visible_unset role d : visible role "" d = d.
Proof.
  destruct role, d; [done|]. cbn. unfold rows, live_rows. by rewrite !where_all by done.
Qed.

Lemma policy_pinned o c : o <> "" -> org_isolation o c = (c =s o).
Proof. intros H. unfold org_isolation, NULLIF. by rewrite (proj2 (eqb_false_str o "")) by done. Qed.

Lemma live_rows_live {A} o (col : A -> str) l :
  live (live_rows o col l) = rows o col (live l).
Proof.
  unfold live, live_rows, rows. rewrite <- where_map, !where_where. f_equal.
  apply where_ext. intros x _. by rewrite andb_comm.
Qed.

(** The first row a query finds through the policy is one of the organization, and the
    row the query finds without it when that one is. *)
Lemma head_pinned {A} o (col : A -> str) p l a : o <> "" ->
  head (where_ p (rows o col l)) = Some a -> col a = o.
Proof.
  intros Ho H. apply head_elem in H. apply where_elem in H as [H _].
  apply where_elem in H as [_ H]. rewrite policy_pinned in H by done. by apply eqb_true_str in H.
Qed.
Lemma head_own {A} o (col : A -> str) p l a : o <> "" -> col a = o ->
  head (where_ p l) = Some a -> head (where_ p (rows o col l)) = Some a.
Proof.
  intros Ho Hc. induction l as [|x l IH]; cbn; [done|].
  rewrite policy_pinned by done. destruct (p x) eqn:E.
  - intros [= ->]. rewrite Hc, eqb_refl_str. cbn. by rewrite E.
  - intros H. destruct (col x =s o); cbn; rewrite ?E; auto.
Qed.

(** A read by id gives, on a connection with app.current_org = [s], the row it gives on
    an unpinned one when that row is of [o], and never a row of another organization. *)
Definition reads_own {ENV : Env} {A} (s o : str) (col : A -> str) (m : M DB DBErr A) : Prop :=
  forall d a,
    (answer buktio_app s m d = inr a -> col a = o) /\
    (answer buktio_app "" m d = inr a -> col a = o -> answer buktio_app s m d = inr a).
(** A listing gives exactly the rows of [o] among those it gives unpinned. *)
Definition lists_own {ENV : Env} {A} (s o : str) (col : A -> str) (m : M DB DBErr (list A)) : Prop :=
  forall d l, answer buktio_app "" m d = inr l ->
    exists l', answer buktio_app s m d = inr l' /\ forall a, a ∈ l' <-> a ∈ l /\ col a = o.

Section Reads.
Context {ENV : Env} (o : str) (Ho : o <> "").

Lemma query_row_answer {A} (f : nat -> DB -> option A) d :
  fst (query_row f d) =
    match env_fault (db_tick d) with
    | Some msg => inl (DBFail msg)
    | None => match f (db_tick d) (set_db_tick (S (db_tick d)) d) with
              | Some a => inr a | None => inl ErrNotFound end
    end.
Proof. unfold query_row, stmt. destruct (env_fault _); [done|]. by destruct (f _ _). Qed.
Lemma query_answer {A} (f : nat -> DB -> A) pfx d :
  fst (mapErr (wrapDB pfx) (query f) d) =
    match env_fault (db_tick d) with
    | Some msg => inl (DBFail (pfx ++ msg))
    | None => inr (f (db_tick d) (set_db_tick (S (db_tick d)) d))
    end.
Proof. unfold mapErr, query, stmt. by destruct (env_fault _). Qed.

Lemma by_id_reads_own {A} (col : A -> str) (table : DB -> list A) (p : A -> bool) :
  (forall d n, table (set_db_tick n d) = table d) ->
  (forall d, table (visible buktio_app o d) = rows o col (table d)) ->
  reads_own o o col (query_row (fun _ d => head (where_ p (table d)))).
Proof.
  intros Ht Hv d a. unfold answer. rewrite !query_row_answer, !Ht, visible_unset, Hv.
  change (db_tick (visible buktio_app o d)) with (db_tick d).
  destruct (env_fault (db_tick d)); [done|]. split.
  - destruct (head (where_ p (rows o col (table d)))) eqn:E; [|done]. intros [= <-].
    by eapply head_pinned.
  - destruct (head (where_ p (table d))) eqn:E; [|done]. intros [= ->] Hc.
    by rewrite (head_own o col p _ a).
Qed.

Lemma listing_lists_own {A} (col : A -> str) (table : DB -> list A) (p : A -> bool) le pfx :
  (forall d n, table (set_db_tick n d) = table d) ->
  (forall d, table (visible buktio_app o d) = rows o col (table d)) ->
  lists_own o o col (mapErr (wrapDB pfx) (query (fun _ d => order_by le (where_ p (table d))))).
Proof.
  intros Ht Hv d l. unfold answer. rewrite !query_answer, !Ht, visible_unset, Hv.
  change (db_tick (visible buktio_app o d)) with (db_tick d).
  destruct (env_fault (db_tick d)); [done|]. intros [= <-]. eexists. split; [done|]. intros a.
  unfold rows. rewrite !order_by_elem, !where_elem, policy_pinned, eqb_true_str by done. tauto.
Qed.

Lemma no_org_row id d : env_as_uuid id <> o ->
  Store.org_row id (visible buktio_app o d) = None.
Proof.
  intros Hid. unfold Store.org_row. cbn. rewrite live_rows_live.
  rewrite where_false; [done|]. intros x Hx. apply where_elem in Hx as [_ Hx].
  rewrite policy_pinned, eqb_true_str in Hx by done. apply eqb_false_str. congruence.
Qed.

End Reads.

(** An operator's request is pinned like any other: reading the status of another
    organization and suspending it both find nothing. *)
Lemma foreign_org_hidden {ENV : Env} o id reason d : o <> "" -> env_as_uuid id <> o ->
  (forall x, answer buktio_app o (Store.GetOrgStatus id) d <> inr x) /\
  (forall x, answer buktio_app o (Store.SuspendOrg id reason) d <> inr x).
Proof.
  intros Ho Hid. pose proof (no_org_row o Ho id (set_db_tick (S (db_tick d)) d) Hid) as Hn.
  split; intros x; unfold answer, Store.GetOrgStatus, Store.SuspendOrg, Store.update_org, mapErr, query_row, affecting, stmt.
  all: change (db_tick (visible buktio_app o d)) with (db_tick d);
    change (set_db_tick (S (db_tick d)) (visible buktio_app o d))
      with (visible buktio_app o (set_db_tick (S (db_tick d)) d));
    destruct (env_fault (db_tick d)); [done|].
  - by rewrite Hn.
  - destruct (exists_ _ _) eqn:E; [|done]. exfalso. apply exists_spec in E as (r & Hr & Hid').
    unfold Store.org_row in Hn.
    assert (r ∈ where_ (fun o0 => org_ID o0 =s env_as_uuid id)
              (live (orgs (visible buktio_app o (set_db_tick (S (db_tick d)) d))))) as Hw
      by (by apply where_elem).
    destruct (where_ _ _); [set_solver|done].
Qed.

(** The tables of later migrations have no policy: a pinned connection reads the
    webhooks, with their signing secrets, the bucket migrations and the billing records
    of every organization. *)
Lemma later_tables_open role o d :
  webhooks (visible role o d) = webhooks d /\ migrations (visible role o d) = migrations d /\
  replications (visible role o d) = replications d /\ billing (visible role o d) = billing d /\
  scim_tokens (visible role o d) = scim_tokens d /\ policies (visible role o d) = policies d /\
  org_branding (visible role o d) = org_branding d /\
  org_clusters (visible role o d) = org_clusters d.
Proof. by destruct role. Qed.

(** C8: row-level security is a second net under the tenant checks of five reads.  It is
    on, the server connects as the role buktio_app (which is no superuser), and a request
    has an organization.  In every interleaving of requests over the shared pool, when
    the request, after it was scoped, runs a statement through its store on a connection,
    then on that connection: a bucket, an access key or a trash entry loaded by its id
    alone (GetBucket, GetAccessKey, GetTrash) is one of the request's organization, and
    one of that organization is still found; the trash of a bucket and the buckets of a
    project, listed by that id alone (ListTrash, ListBuckets), are its part of the
    listing.  The tables of later migrations have no policy ([later_tables_open]). *)
Theorem row_security_second_net {ENV : Env} st es1 es2 st' i rq pinned
  (Hinit : OrgScope.initial st) (Hi : OrgScope.st_rqs st !! i = Some rq)
  (Horg : OrgScope.rq_org rq <> "")
  (Hrun : OrgScope.run true st (es1 ++ OrgScope.Scope i :: es2) st')
  (Hev : OrgScope.Stmt i pinned ∈ es2) :
  (forall id, reads_own pinned (OrgScope.rq_org rq) b_OrgID (Store.GetBucket id)) /\
  (forall id, reads_own pinned (OrgScope.rq_org rq) k_OrgID (Store.GetAccessKey id)) /\
  (forall id, reads_own pinned (OrgScope.rq_org rq) t_OrgID (Store.GetTrash id)) /\
  (forall id, lists_own pinned (OrgScope.rq_org rq) t_OrgID (Store.ListTrash id)) /\
  (forall id, lists_own pinned (OrgScope.rq_org rq) b_OrgID (Store.ListBuckets id)).
Proof.
  assert (pinned = OrgScope.rq_org rq) as ->.
  { pose proof (OrgScope.initial_bare _ _ _ Hinit Hi) as Hb. apply OrgScope.initial_inv in Hinit as [Hinv _].
    eapply (OrgScope.run_scoped true); [done..| |exact Hrun|exact Hev].
    by apply negb_true_iff, eqb_false_str. }
  split_and!; intros id.
  - by apply by_id_reads_own; [|done|intros d; apply live_rows_live].
  - by apply by_id_reads_own; [|done|intros d; apply live_rows_live].
  - by apply by_id_reads_own.
  - by apply listing_lists_own.
  - by apply listing_lists_own; [|done|intros d; apply live_rows_live].
Qed.

(** A request of o1 reads, next to a trash entry of o2. *)
Definition two_orgs : DB :=
  set_trash [mkTrashItem "t1" "b1" "o1" "a" ".trash/a" 1 0 10 None;
             mkTrashItem "t2" "b2" "o2" "b" ".trash/b" 1 0 10 None] empty_db.
Lemma row_security_second_net_witness :
  let ENV := example_env Postgres no_fault in
  (exists t, answer buktio_app "" (Store.GetTrash "t2") two_orgs = inr t) /\
  (exists t, answer buktio_app "o1" (Store.GetTrash "t1") two_orgs = inr t) /\
  answer buktio_app "o1" (Store.GetTrash "t2") two_orgs = inl ErrNotFound /\
  (forall id, reads_own "o1" "o1" t_OrgID (Store.GetTrash id)).
Proof.
  intros ENV. split; [by eexists; vm_compute|]. split; [by eexists; vm_compute|].
  split; [vm_compute; reflexivity|]. destruct OrgScope.demo_run as [st' Hrun].
  exact (proj1 (proj2 (proj2 (row_security_second_net (ENV := ENV) _ [OrgScope.Stmt 0 ""] _ _ 0 _ "o1"
           OrgScope.demo_initial eq_refl ltac:(done) Hrun ltac:(set_solver))))).
Defined.

End RowSecurity.
