(* ===== verification/Dialect.v ===== *)
(** src/internal/repository/sqlite.go: the repository writes Postgres SQL; on the SQLite
    backend each statement passes through six regular-expression rewrites. *)
From Stdlib Require Import Ascii.
From stdpp Require Import pretty.
From S2P Require Import Prelude GoStrings.
#[local] Open Scope string_scope.

Module Dialect.

(** ** regexp: ReplaceAllString *)

(** [\w], [\s], and the ASCII case folding of [(?i)] *)
Definition is_word (c : ascii) : bool := is_lower c || is_upper c || is_digit c || Ascii.eqb c "_".
Definition is_ws (c : ascii) : bool :=
  bool_decide (nat_of_ascii c ∈ [9; 10; 12; 13; 32]).
(** [\b] before the next character, given the previous one *)
Definition word_start (prev : option ascii) : bool :=
  match prev with Some c => negb (is_word c) | None => true end.
Definition word_end (s : str) : bool :=
  match s with String c _ => negb (is_word c) | "" => true end.
(** [(?i)] on ASCII text.  Go also folds U+212A to k and U+017F to s; the statements of
    the repository are constants without them. *)
Definition has_prefix_fold (kw s : str) : bool :=
  ToLower (str_take (String.length kw) s) =s kw.

(** A matcher: the length of the match that begins here and its replacement; the
    length is positive. *)
Definition Matcher : Type := option ascii -> str -> option (nat * str).

(** Leftmost matches, without overlap: [skip] characters of the current match remain. *)
Fixpoint replace_all (m : Matcher) (skip : nat) (prev : option ascii) (s : str) : str :=
  match s with
  | "" => ""
  | String c s' =>
      match skip with
      | S k => replace_all m k (Some c) s'
      | 0 =>
          match m prev s with
          | Some (n, r) => r ++ replace_all m (n - 1) (Some c) s'
          | None => String c (replace_all m 0 (Some c) s')
          end
      end
  end.
Definition ReplaceAllString (m : Matcher) (s : str) : str := replace_all m 0 None s.

(** The longest prefix of characters of a class. *)
Fixpoint run_of (p : ascii -> bool) (s : str) : str :=
  match s with
  | String c s' => if p c then String c (run_of p s') else ""
  | "" => ""
  end.

(** ** The six rules *)

(** [\$(\d+)] becomes [?$1] *)
Definition sqlitePlaceholderRe : Matcher := fun _ s =>
  match s with
  | String "$" rest =>
      let ds := run_of is_digit rest in
      if ds =s "" then None else Some (S (String.length ds), "?" ++ ds)
  | _ => None
  end.
(** [::[a-zA-Z_][\w]*] is dropped *)
Definition sqliteCastRe : Matcher := fun _ s =>
  match s with
  | String ":" (String ":" (String c rest)) =>
      if is_word c && negb (is_digit c)
      then Some (3 + String.length (run_of is_word rest), "") else None
  | _ => None
  end.
(** [(?i)\bnow\(\)] *)
Definition sqliteNowRe : Matcher := fun prev s =>
  if word_start prev && has_prefix_fold "now()" s then Some (5, "CURRENT_TIMESTAMP") else None.
(** [(?i)\sILIKE\s] *)
Definition sqliteILikeRe : Matcher := fun _ s =>
  match s with
  | String c rest =>
      if is_ws c && has_prefix_fold "ilike" rest &&
         match str_drop 5 rest with String e _ => is_ws e | "" => false end
      then Some (7, " LIKE ") else None
  | "" => None
  end.
(** [(?i)\bIS NOT DISTINCT FROM\b] and [(?i)\bIS DISTINCT FROM\b] *)
Definition phrase (kw replacement : str) : Matcher := fun prev s =>
  if word_start prev && has_prefix_fold kw s && word_end (str_drop (String.length kw) s)
  then Some (String.length kw, replacement) else None.
Definition sqliteNotDistinctRe : Matcher := phrase "is not distinct from" " IS ".
Definition sqliteDistinctRe : Matcher := phrase "is distinct from" " IS NOT ".

Definition translateToSQLite (q : str) : str :=
  let q := ReplaceAllString sqlitePlaceholderRe q in
  let q := ReplaceAllString sqliteCastRe q in
  let q := ReplaceAllString sqliteNowRe q in
  let q := ReplaceAllString sqliteILikeRe q in
  let q := ReplaceAllString sqliteNotDistinctRe q in
  ReplaceAllString sqliteDistinctRe q.

(** ** BackupSQLite: the literal of VACUUM INTO *)

Definition quote_char : ascii := ascii_of_nat 39.
Fixpoint double_quotes (s : str) : str :=
  match s with
  | "" => ""
  | String c s' => if Ascii.eqb c quote_char then String c (String c (double_quotes s'))
                   else String c (double_quotes s')
  end.
Definition lit (destPath : str) : str :=
  String quote_char (double_quotes destPath ++ String quote_char "").
Definition vacuumSQL (destPath : str) : str := "VACUUM INTO " ++ lit destPath.

(** ** The driver *)

(** The errors of database/sql and of pgx as the repository tells them apart. *)
Inductive DriverErr := SqlErrNoRows | PgxErrNoRows | OtherErr (msg : str).
Definition mapSQLiteErr (e : DriverErr) : DriverErr :=
  match e with SqlErrNoRows => PgxErrNoRows | e => e end.

Section Driver.
(** what database/sql answers to a statement: rows, the first row, a result *)
Context {Rows Result : Type} (QueryContext : str -> DriverErr + Rows) (ScanRow : str -> DriverErr + Rows)
  (ExecContext : str -> DriverErr + Result).
Definition mapped {A} (r : DriverErr + A) : DriverErr + A :=
  match r with inl e => inl (mapSQLiteErr e) | inr a => inr a end.
Definition Query (query : str) : DriverErr + Rows := mapped (QueryContext (translateToSQLite query)).
(** [QueryRow] and the [Scan] of its row. *)
Definition QueryRow (query : str) : DriverErr + Rows := mapped (ScanRow (translateToSQLite query)).
Definition Exec (query : str) : DriverErr + Result := mapped (ExecContext (translateToSQLite query)).
(** The statement goes to the database untranslated. *)
Definition BackupSQLite (is_sqlite : bool) (destPath : str) : option DriverErr :=
  if is_sqlite then match ExecContext (vacuumSQL destPath) with inl e => Some e | inr _ => None end
  else Some (OtherErr "repository: BackupSQLite requires the sqlite backend").

(** The repository tests for pgx's sentinel only: no statement of this driver ends with
    the other one. *)
Lemma no_rows_is_pgx query : Query query <> inl SqlErrNoRows /\ QueryRow query <> inl SqlErrNoRows /\ Exec query <> inl SqlErrNoRows.
Proof.
  unfold Query, QueryRow, Exec, mapped.
  split; [|split]; [destruct (QueryContext _) as [e|]|destruct (ScanRow _) as [e|]|destruct (ExecContext _) as [e|]];
    try done; by destruct e.
Qed.
End Driver.

(** ** Statements of the repository *)

Example translate_ex1 :
  translateToSQLite "UPDATE api_tokens SET last_used_at=now() WHERE id=$1::uuid AND x IS NOT DISTINCT FROM $2"
  = "UPDATE api_tokens SET last_used_at=CURRENT_TIMESTAMP WHERE id=?1 AND x  IS  ?2".
Proof. vm_compute. reflexivity. Qed.
Example translate_ex2 :
  translateToSQLite "SELECT a FROM t WHERE a ILIKE $10 AND b::text[]=$2::jsonb::text"
  = "SELECT a FROM t WHERE a LIKE ?10 AND b[]=?2".
Proof. vm_compute. reflexivity. Qed.

(** ** Tokens *)

(** A statement without the keywords the last four rules look for: words, other
    characters, numbered parameters, casts. *)
Inductive Tok := TWord (w : str) | TSym (c : ascii) | TParam (n : positive) | TCast (ty : str).
Definition param_text (n : positive) : str := Itoa (Z.pos n).
Definition print_pg (t : Tok) : str :=
  match t with
  | TWord w => w
  | TSym c => String c ""
  | TParam n => "$" ++ param_text n
  | TCast ty => "::" ++ ty
  end.
Definition print_sqlite (t : Tok) : str :=
  match t with
  | TParam n => "?" ++ param_text n
  | TCast _ => ""
  | _ => print_pg t
  end.
Definition text (print : Tok -> str) (ts : list Tok) : str := Join (map print ts) "".

Definition type_name (ty : str) : bool :=
  match ty with String c rest => is_word c && negb (is_digit c) && str_all is_word rest | "" => false end.
(** Lexically sound: words are words, a parameter or a cast is not followed by one. *)
Definition starts_word (ts : list Tok) : bool := match ts with TWord _ :: _ => true | _ => false end.
Fixpoint lexed (ts : list Tok) : bool :=
  match ts with
  | [] => true
  | t :: rest =>
      match t with
      | TWord w => str_all is_word w && negb (w =s "")
      | TSym c => negb (is_word c) && negb (Ascii.eqb c "$") && negb (Ascii.eqb c ":")
      | TParam _ => negb (starts_word rest)
      | TCast ty => type_name ty && negb (starts_word rest)
      end && lexed rest
  end.

(** The word occurs somewhere, on its own. *)
Fixpoint has_word (kw : str) (prev : option ascii) (s : str) : bool :=
  (word_start prev && has_prefix_fold kw s && word_end (str_drop (String.length kw) s))
  || match s with String c s' => has_word kw (Some c) s' | "" => false end.

(** ** The rewriting engine *)

(** A rule that does not look back. *)
Definition local_rule (m : Matcher) : Prop := forall p p' s, m p s = m p' s.

Lemma replace_prev m k p p' s : local_rule m -> replace_all m k p s = replace_all m k p' s.
Proof.
  intros Hm. destruct s as [|c s]; [done|]. cbn. destruct k; [|done]. by rewrite (Hm p p').
Qed.
Lemma replace_skip m p p' u v : local_rule m ->
  replace_all m (String.length u) p (u ++ v) = replace_all m 0 p' v.
Proof.
  intros Hm. revert p. induction u as [|c u IH]; intros p; cbn; [by apply replace_prev|apply IH].
Qed.
(** Characters at which the rule never matches are copied. *)
Lemma replace_copy m (quiet : ascii -> bool) p u v : local_rule m ->
  (forall c s, quiet c = true -> m None (String c s) = None) -> str_all quiet u = true ->
  replace_all m 0 p (u ++ v) = u ++ replace_all m 0 None v.
Proof.
  intros Hm Hq. revert p. induction u as [|c u IH]; intros p H; [by apply replace_prev|].
  cbn in H. apply andb_true_iff in H as [Hc Hu]. change (String c u ++ v) with (String c (u ++ v)).
  cbn [replace_all]. rewrite (Hm p None), Hq, IH by done. done.
Qed.

Lemma run_of_app (p : ascii -> bool) u v : str_all p u = true ->
  match v with String c _ => p c = false | "" => True end -> run_of p (u ++ v) = u.
Proof.
  intros Hu Hv. induction u as [|c u IH].
  - change ("" ++ v) with v. destruct v; [done|]. cbn. by rewrite Hv.
  - cbn in Hu. apply andb_true_iff in Hu as [Hc Hu]. change (String c u ++ v) with (String c (u ++ v)).
    cbn [run_of]. rewrite Hc, IH by done. done.
Qed.

Lemma text_cons print t ts : text print (t :: ts) = print t ++ text print ts.
Proof. unfold text. destruct ts; cbn; [by rewrite str_app_nil_r|done]. Qed.

Lemma placeholder_local : local_rule sqlitePlaceholderRe.
Proof. by intros p p' s. Qed.
Lemma cast_local : local_rule sqliteCastRe.
Proof. by intros p p' s. Qed.

Lemma pretty_go_nonempty x : forall s, s <> "" -> pretty_N_go x s <> "".
Proof.
  induction x as [x IH] using (well_founded_ind N.lt_wf_0). intros s Hs.
  destruct (decide (0 < x)%N) as [Hx|Hx].
  - rewrite pretty_N_go_step by done. apply IH; [apply N.div_lt; lia|done].
  - assert (x = 0)%N as -> by lia. by rewrite pretty_N_go_0.
Qed.
Lemma param_digits n : str_all is_digit (param_text n) = true /\ param_text n <> "".
Proof.
  unfold param_text, Itoa. change (pretty (Z.pos n)) with (pretty_N_go (N.pos n) "").
  split; [by apply digits_go|]. rewrite pretty_N_go_step by lia. by apply pretty_go_nonempty.
Qed.
Lemma str_all_weaken (p p' : ascii -> bool) s : (forall c, p c = true -> p' c = true) ->
  str_all p s = true -> str_all p' s = true.
Proof. apply str_all_impl. Qed.

(** ** The first two rules *)

(** After the first rule: parameters are translated, casts still there. *)
Definition print_mid (t : Tok) : str :=
  match t with TParam n => "?" ++ param_text n | _ => print_pg t end.

(** What a token list starts with when it does not start with a word. *)
Lemma starts_nonword print ts : (forall n, exists c s, print (TParam n) = String c s /\ is_word c = false) ->
  (forall ty, exists c s, print (TCast ty) = String c s /\ is_word c = false) ->
  (forall c, print (TSym c) = String c "") ->
  lexed ts = true -> starts_word ts = false ->
  match text print ts with String c _ => is_word c = false | "" => True end.
Proof.
  intros Hp Hc Hs Hl Hw. destruct ts as [|t ts]; [done|]. rewrite text_cons.
  destruct t as [w|c|n|ty]; [done| | |].
  - rewrite Hs. cbn. cbn in Hl. by repeat apply andb_true_iff in Hl as [Hl _]; apply negb_true_iff.
  - destruct (Hp n) as (c & s & -> & H). done.
  - destruct (Hc ty) as (c & s & -> & H). done.
Qed.
Lemma digit_word c : is_digit c = true -> is_word c = true.
Proof. unfold is_word. intros ->. by rewrite orb_true_r. Qed.
Lemma nonword_nondigit c : is_word c = false -> is_digit c = false.
Proof. intros H. destruct (is_digit c) eqn:E; [|done]. apply digit_word in E. congruence. Qed.

Definition no_dollar (c : ascii) : bool := negb (Ascii.eqb c "$").
Definition no_colon (c : ascii) : bool := negb (Ascii.eqb c ":").
Lemma word_no_dollar c : is_word c = true -> no_dollar c = true.
Proof. destruct c as [[] [] [] [] [] [] [] []]; vm_compute; congruence. Qed.
Lemma word_no_colon c : is_word c = true -> no_colon c = true.
Proof. destruct c as [[] [] [] [] [] [] [] []]; vm_compute; congruence. Qed.
Lemma placeholder_quiet c s : no_dollar c = true -> sqlitePlaceholderRe None (String c s) = None.
Proof. destruct c as [[] [] [] [] [] [] [] []]; try done; vm_compute; congruence. Qed.
Lemma cast_quiet c s : no_colon c = true -> sqliteCastRe None (String c s) = None.
Proof. destruct c as [[] [] [] [] [] [] [] []]; try done; vm_compute; congruence. Qed.

Lemma type_name_word ty : type_name ty = true -> str_all is_word ty = true.
Proof.
  destruct ty as [|c ty]; [done|]. cbn. rewrite !andb_true_iff. naive_solver.
Qed.

Lemma placeholders_rewritten ts p : lexed ts = true ->
  replace_all sqlitePlaceholderRe 0 p (text print_pg ts) = text print_mid ts.
Proof.
  revert p. induction ts as [|t ts IH]; intros p H; [done|]. rewrite !text_cons.
  cbn [lexed] in H. apply andb_true_iff in H as [Ht Hl].
  assert (forall u, str_all no_dollar u = true ->
    replace_all sqlitePlaceholderRe 0 p (u ++ text print_pg ts) = u ++ text print_mid ts) as Hcopy.
  { intros u Hu. erewrite replace_copy; [by rewrite IH|apply placeholder_local|apply placeholder_quiet|done]. }
  destruct t as [w|c|n|ty]; cbn [print_pg print_mid].
  - apply Hcopy. apply andb_true_iff in Ht as [Ht _]. eapply str_all_weaken, Ht. apply word_no_dollar.
  - apply Hcopy. rewrite !andb_true_iff in Ht. cbn. destruct Ht as [[_ Ht] _]. unfold no_dollar. by rewrite Ht.
  - destruct (param_digits n) as [Hd Hne].
    assert (run_of is_digit (param_text n ++ text print_pg ts) = param_text n) as Hrun.
    { apply run_of_app; [done|]. pose proof (starts_nonword print_pg ts) as Hs.
      destruct (text print_pg ts); [done|]. apply nonword_nondigit, Hs; try done; [by intros; eexists _, _..|].
      by apply negb_true_iff. }
    change (("$" ++ param_text n) ++ text print_pg ts) with (String "$" (param_text n ++ text print_pg ts)).
    cbn [replace_all]. unfold sqlitePlaceholderRe at 1. rewrite Hrun. apply eqb_false_str in Hne. rewrite Hne.
    cbn [Nat.sub]. rewrite Nat.sub_0_r, (replace_skip _ _ None) by apply placeholder_local. by rewrite IH.
  - apply (Hcopy ("::" ++ ty)). apply andb_true_iff in Ht as [Ht _].
    change (str_all no_dollar ty = true). apply (str_all_weaken is_word); [apply word_no_dollar|].
    by apply type_name_word.
Qed.

Lemma casts_dropped ts p : lexed ts = true ->
  replace_all sqliteCastRe 0 p (text print_mid ts) = text print_sqlite ts.
Proof.
  revert p. induction ts as [|t ts IH]; intros p H; [done|]. rewrite !text_cons.
  cbn [lexed] in H. apply andb_true_iff in H as [Ht Hl].
  assert (forall u, str_all no_colon u = true ->
    replace_all sqliteCastRe 0 p (u ++ text print_mid ts) = u ++ text print_sqlite ts) as Hcopy.
  { intros u Hu. erewrite replace_copy; [by rewrite IH|apply cast_local|apply cast_quiet|done]. }
  destruct t as [w|c|n|ty]; cbn [print_pg print_mid print_sqlite].
  - apply Hcopy. apply andb_true_iff in Ht as [Ht _]. eapply str_all_weaken, Ht. apply word_no_colon.
  - apply Hcopy. rewrite !andb_true_iff in Ht. cbn. destruct Ht as [_ Ht]. unfold no_colon. by rewrite Ht.
  - apply (Hcopy ("?" ++ param_text n)). change (str_all no_colon (param_text n) = true).
    apply (str_all_weaken is_digit); [|apply param_digits]. intros c Hc. by apply word_no_colon, digit_word.
  - apply andb_true_iff in Ht as [Hty Hw]. destruct ty as [|c ty]; [done|]. cbn in Hty.
    rewrite !andb_true_iff in Hty. destruct Hty as [[Hc Hcd] Hall].
    assert (run_of is_word (ty ++ text print_mid ts) = ty) as Hrun.
    { apply run_of_app; [done|]. pose proof (starts_nonword print_mid ts) as Hs.
      destruct (text print_mid ts); [done|]. apply Hs; try done; [by intros; eexists _, _..|].
      by apply negb_true_iff. }
    change (("::" ++ String c ty) ++ text print_mid ts)
      with (String ":" (String ":" (String c (ty ++ text print_mid ts)))).
    cbn [replace_all]. unfold sqliteCastRe at 1. rewrite Hc, Hcd, Hrun. cbn [andb Nat.add Nat.sub].
    change (String ":" (String c (ty ++ text print_mid ts))) with (String ":" (String c ty) ++ text print_mid ts).
    change (S (S (String.length ty))) with (String.length (String ":" (String c ty))).
    rewrite (replace_skip _ _ None) by apply cast_local. by rewrite IH.
Qed.

(** ** The keyword rules *)

Lemma replace_id m kw prev s : (forall p s, m p s <> None -> has_word kw p s = true) ->
  has_word kw prev s = false -> replace_all m 0 prev s = s.
Proof.
  intros Hm. revert prev. induction s as [|c s IH]; intros prev H; [done|]. cbn [replace_all].
  destruct (m prev (String c s)) as [[n r]|] eqn:E.
  - rewrite Hm in H; [done|]. by rewrite E.
  - f_equal. apply IH. cbn [has_word] in H. by apply orb_false_iff in H as [_ H].
Qed.

Lemma ToLower_split x : forall y a, ToLower a = x ++ y ->
  exists a1 a2, a = a1 ++ a2 /\ ToLower a1 = x /\ ToLower a2 = y.
Proof.
  induction x as [|c x IH]; intros y a H; [by exists "", a|].
  destruct a as [|d a]; [done|]. injection H as Hd Ha. apply IH in Ha as (a1 & a2 & -> & H1 & H2).
  exists (String d a1), a2. split; [done|]. split; [|done].
  change (String (to_lower_ascii d) (ToLower a1) = String c x). by rewrite Hd, H1.
Qed.
Lemma prefix_fold_split kw s : has_prefix_fold kw s = true ->
  exists a, s = a ++ str_drop (String.length kw) s /\ ToLower a = kw.
Proof.
  unfold has_prefix_fold. intros H. apply eqb_true_str in H.
  eexists. split; [|exact H]. by rewrite str_take_drop.
Qed.
Lemma ToLower_length a : String.length (ToLower a) = String.length a.
Proof. unfold ToLower. induction a as [|c a IH]; [done|]. cbn. by rewrite IH. Qed.
Lemma prefix_fold_app kw a b : ToLower a = kw -> has_prefix_fold kw (a ++ b) = true.
Proof.
  intros <-. unfold has_prefix_fold. rewrite ToLower_length, str_take_app. apply eqb_refl_str.
Qed.
Lemma lower_word c : is_word (to_lower_ascii c) = is_word c.
Proof. by destruct c as [[] [] [] [] [] [] [] []]. Qed.
Lemma lower_nonword c d : to_lower_ascii c = d -> is_word d = false -> is_word c = false.
Proof. intros <-. by rewrite lower_word. Qed.

(** The word further on. *)
Lemma has_word_later kw a prev c b : has_word kw (Some c) b = true -> has_word kw prev (a ++ String c b) = true.
Proof.
  revert prev. induction a as [|d a IH]; intros prev H.
  - change ("" ++ String c b) with (String c b). cbn [has_word]. rewrite H. apply orb_true_r.
  - change (String d a ++ String c b) with (String d (a ++ String c b)). cbn [has_word].
    rewrite (IH (Some d)) by done. apply orb_true_r.
Qed.
Lemma has_word_here kw prev a b : ToLower a = kw -> word_start prev = true -> word_end b = true ->
  has_word kw prev (a ++ b) = true.
Proof.
  intros Ha Hp Hb.
  assert (word_start prev && has_prefix_fold kw (a ++ b) && word_end (str_drop (String.length kw) (a ++ b)) = true) as H.
  { rewrite Hp, (prefix_fold_app kw a b Ha). rewrite <-Ha, ToLower_length, str_drop_app. by rewrite Hb. }
  destruct (a ++ b) as [|c s] eqn:E; cbn [has_word]; rewrite H; done.
Qed.

Lemma now_word p s : sqliteNowRe p s <> None -> has_word "now" p s = true.
Proof.
  unfold sqliteNowRe. destruct (word_start p && _) eqn:E; [intros _|done].
  apply andb_true_iff in E as [Hp Hs]. apply prefix_fold_split in Hs as (a & -> & Ha).
  apply (ToLower_split "now" "()") in Ha as (a1 & a2 & -> & H1 & H2). rewrite str_app_assoc.
  apply has_word_here; [done..|]. destruct a2 as [|c a2]; [done|]. injection H2 as Hc _.
  change (word_end (String c (a2 ++ str_drop 5 s)) = true). cbn. by rewrite (lower_nonword _ _ Hc).
Qed.
Lemma ilike_word p s : sqliteILikeRe p s <> None -> has_word "ilike" p s = true.
Proof.
  unfold sqliteILikeRe. destruct s as [|c s]; [done|]. destruct (_ && _ && _) eqn:E; [intros _|done].
  rewrite !andb_true_iff in E. destruct E as [[Hc Hs] He]. apply prefix_fold_split in Hs as (a & Hs & Ha).
  apply (has_word_later _ "" p c s). rewrite Hs. apply has_word_here; [done| |].
  - cbn. clear -Hc. by destruct c as [[] [] [] [] [] [] [] []].
  - destruct (str_drop 5 s) as [|e r] eqn:Ed; [done|]. cbn [String.length]. rewrite Ed. cbn.
    clear -He. by destruct e as [[] [] [] [] [] [] [] []].
Qed.
(** Both phrases hold the word distinct between two spaces. *)
Lemma phrase_word pre post r p s :
  phrase (pre ++ String " " ("distinct" ++ String " " post)) r p s <> None -> has_word "distinct" p s = true.
Proof.
  unfold phrase. destruct (_ && _ && _) eqn:E; [intros _|done].
  rewrite !andb_true_iff in E. destruct E as [[_ Hs] _]. apply prefix_fold_split in Hs as (a & -> & Ha).
  apply ToLower_split in Ha as (a1 & a2 & -> & _ & Ha). destruct a2 as [|c a2]; [done|]. injection Ha as Hc Ha.
  apply (ToLower_split "distinct") in Ha as (d & a3 & -> & Hd & Ha). destruct a3 as [|e a3]; [done|].
  injection Ha as He _. rewrite str_app_assoc.
  change (String c (d ++ String e a3) ++ str_drop (String.length (pre ++ String " " ("distinct" ++ String " " post))) s)
    with (String c ((d ++ String e a3) ++ str_drop (String.length (pre ++ String " " ("distinct" ++ String " " post))) s)).
  apply has_word_later. rewrite str_app_assoc. apply has_word_here; [done| |].
  - cbn. by rewrite (lower_nonword _ _ Hc).
  - change (negb (is_word e) = true). by rewrite (lower_nonword _ _ He).
Qed.

(** C36: the dialect translation, against a token-wise definition.  On a statement of
    words, symbols, numbered parameters and casts that does not use the words now,
    ilike and distinct, the six rewrites replace every $n by ?n with the same number,
    drop every cast, and leave every other character alone. *)
Theorem translation_tokenwise ts
    (Hlex : lexed ts = true)
    (Hkw : forallb (fun kw => negb (has_word kw None (text print_sqlite ts))) ["now"; "ilike"; "distinct"] = true) :
  translateToSQLite (text print_pg ts) = text print_sqlite ts.
Proof.
  cbn in Hkw. rewrite !andb_true_iff, !negb_true_iff in Hkw. destruct Hkw as (H1 & H2 & H3 & _).
  unfold translateToSQLite, ReplaceAllString. rewrite placeholders_rewritten, casts_dropped by done.
  rewrite (replace_id sqliteNowRe "now"); [|apply now_word|done].
  rewrite (replace_id sqliteILikeRe "ilike"); [|apply ilike_word|done].
  rewrite (replace_id sqliteNotDistinctRe "distinct"); [|apply (phrase_word "is not" "from")|done].
  rewrite (replace_id sqliteDistinctRe "distinct"); [done|apply (phrase_word "is" "from")|done].
Qed.

(** The insertion of an access grant. *)
Definition demo_tokens : list Tok :=
  [TWord "VALUES"; TSym " "; TSym "("; TParam 1; TCast "uuid"; TSym ","; TWord "NULLIF"; TSym "(";
   TParam 12; TSym ","; TSym "'"; TSym "'"; TSym ")"; TCast "inet"; TSym ")"].
Lemma translation_tokenwise_witness :
  text print_pg demo_tokens = "VALUES ($1::uuid,NULLIF($12,'')::inet)" /\
  translateToSQLite "VALUES ($1::uuid,NULLIF($12,'')::inet)" = "VALUES (?1,NULLIF(?12,''))".
Proof.
  split; [vm_compute; reflexivity|].
  refine (translation_tokenwise demo_tokens _ _); vm_compute; reflexivity.
Defined.

(** ** The literal of VACUUM INTO *)

(** How SQLite reads a literal: up to a quote that is not doubled. *)
Fixpoint read_literal (s : str) : option (str * str) :=
  match s with
  | "" => None
  | String c s' =>
      if Ascii.eqb c quote_char then
        match s' with
        | String d s'' =>
            if Ascii.eqb d quote_char
            then match read_literal s'' with Some (v, r) => Some (String c v, r) | None => None end
            else Some ("", s')
        | "" => Some ("", "")
        end
      else match read_literal s' with Some (v, r) => Some (String c v, r) | None => None end
  end.
(** Whatever the path, the statement reads it back and ends there: a path cannot add
    text of its own to the statement. *)
Lemma lit_roundtrip path : read_literal (double_quotes path ++ String quote_char "") = Some (path, "").
Proof.
  induction path as [|c path IH]; [done|]. cbn [double_quotes]. destruct (Ascii.eqb c quote_char) eqn:E.
  - change (String c (String c (double_quotes path)) ++ String quote_char "")
      with (String c (String c (double_quotes path ++ String quote_char ""))).
    cbn [read_literal]. rewrite E, IH. done.
  - change (String c (double_quotes path) ++ String quote_char "")
      with (String c (double_quotes path ++ String quote_char "")).
    cbn [read_literal]. rewrite E, IH. done.
Qed.
End Dialect.
