(* ===== verification/Secrets.v ===== *)
(** src/internal/secret: secret.go (generators), files.go (secret files), kek.go (the
    master key); src/internal/auth/password.go (password hashes);
    src/internal/garagemanager: secrets.go and config.go (what a managed Garage is
    given).

    Argon2 and the random source are parameters, the file system is a small model of
    the calls the code makes. *)
From Stdlib Require Import Ascii.
From S2P Require Import Prelude GoStrings Envelope Backups Encoding.
#[local] Open Scope string_scope.
Import Encoding.

Module Secrets.

(** ** secret.go *)

Section Generate.
(** [rand.Read] into a buffer of the given size, at the i-th call. *)
Context (rnd : nat -> nat -> option str).
#[local] Abbreviation Rand := Envelope.Rand.

Definition RandomBytes (n : nat) : Rand str := Envelope.RandomBytes rnd n "secret: read random".
Definition NewRPCSecret : Rand str := let! b := RandomBytes 32 in ret (encode_hex b).
Definition NewToken : Rand str := let! b := RandomBytes 32 in ret (encode64 Std false b).
Definition NewPassword (n : Z) : Rand str :=
  if (n <? 16)%Z then throw ("secret: password length " ++ Itoa n ++ " too short (min 16)")
  else let! b := RandomBytes (Z.to_nat n) in ret (encode64 URL true b).
Definition NewKEK : Rand str := RandomBytes Envelope.KEKSize.

(** ** garagemanager/secrets.go *)

Record ClusterSecrets := mkClusterSecrets {
  cs_RPCSecret : str; cs_AdminToken : str; cs_MetricsToken : str }.
Definition GenerateClusterSecrets : Rand ClusterSecrets :=
  let! rpc := NewRPCSecret in
  let! admin := NewToken in
  let! metrics := NewToken in
  ret (mkClusterSecrets rpc admin metrics).
End Generate.

(** ** The file system *)

(** A file with its permission bits; the directories that exist; the process' umask;
    the n-th call fails when [fs_fault] says so. *)
Record File := mkFile { fl_data : str; fl_mode : Z }.
Record FS := mkFS {
  fs_files : gmap str File; fs_dirs : gset str; fs_umask : Z; fs_tick : nat;
  fs_fault : nat -> option str }.
Definition set_file (path : str) (f : File) (fs : FS) : FS :=
  mkFS (<[path := f]> (fs_files fs)) (fs_dirs fs) (fs_umask fs) (fs_tick fs) (fs_fault fs).

Definition syscall {A} (f : FS -> (str + A) * FS) : M FS str A := fun fs =>
  let fs1 := mkFS (fs_files fs) (fs_dirs fs) (fs_umask fs) (S (fs_tick fs)) (fs_fault fs) in
  match fs_fault fs (fs_tick fs) with
  | Some e => (inl e, fs1)
  | None => f fs1
  end.
Definition os_MkdirAll (dir : str) : M FS str unit := syscall (fun fs =>
  (inr tt, mkFS (fs_files fs) ({[dir]} ∪ fs_dirs fs) (fs_umask fs) (fs_tick fs) (fs_fault fs))).
(** [os.WriteFile]: an existing file keeps its permissions, a new one gets those
    given less the umask. *)
Definition os_WriteFile (path data : str) (perm : Z) : M FS str unit := syscall (fun fs =>
  let mode := match fs_files fs !! path with
              | Some f => fl_mode f
              | None => Z.land perm (Z.lnot (fs_umask fs))
              end in
  (inr tt, set_file path (mkFile data mode) fs)).
Definition os_Chmod (path : str) (mode : Z) : M FS str unit := syscall (fun fs =>
  match fs_files fs !! path with
  | Some f => (inr tt, set_file path (mkFile (fl_data f) mode) fs)
  | None => (inl "no such file or directory", fs)
  end).
Definition os_Stat (path : str) : M FS str Z := syscall (fun fs =>
  (match fs_files fs !! path with Some f => inr (fl_mode f) | None => inl "no such file or directory" end, fs)).
Definition os_ReadFile (path : str) : M FS str str := syscall (fun fs =>
  (match fs_files fs !! path with Some f => inr (fl_data f) | None => inl "no such file or directory" end, fs)).

(** ** files.go *)

Definition last_slash (p : str) : option nat :=
  (fix go (i : nat) (s : str) (acc : option nat) := match s with
   | "" => acc
   | String c s' => go (S i) s' (if Ascii.eqb c "/" then Some i else acc)
   end) 0 p None.
(** [filepath.Dir] *)
Definition Dir (p : str) : str :=
  Backups.Clean (match last_slash p with Some i => str_take (S i) p | None => "" end).

Definition secretFileMode : Z := 384.

Definition WriteFile (path data : str) : M FS str unit :=
  do! mapErr (fun e => "secret: mkdir " ++ Dir path ++ ": " ++ e) (os_MkdirAll (Dir path)) in
  do! mapErr (fun e => "secret: write " ++ path ++ ": " ++ e) (os_WriteFile path data secretFileMode) in
  mapErr (fun e => "secret: chmod " ++ path ++ ": " ++ e) (os_Chmod path secretFileMode).

Definition CheckPerms (path : str) : M FS str unit :=
  let! mode := mapErr (fun e => "secret: stat " ++ path ++ ": " ++ e) (os_Stat path) in
  guard! (Z.land mode 63 =? 0)%Z else "secret: " ++ path ++ " has insecure permissions" in
  ret tt.

(** ** kek.go *)

Record EnvFileProvider := mkEnvFileProvider { efp_EnvVar : str; efp_FileVar : str }.
Definition DefaultProvider : EnvFileProvider :=
  mkEnvFileProvider "BUKTIO_MASTER_KEY" "BUKTIO_MASTER_KEY_FILE".

Definition decodeKEK (v : str) : str + str :=
  Envelope.decodeKEK (decode64 Std false) (decode64 Std true) v.

(** [environ]: the environment of the process. *)
Definition KEK (environ : gmap str str) (p : EnvFileProvider) : M FS str str :=
  let getenv k := default "" (environ !! k) in
  let envVar := if efp_EnvVar p =s "" then "BUKTIO_MASTER_KEY" else efp_EnvVar p in
  let fileVar := if efp_FileVar p =s "" then "BUKTIO_MASTER_KEY_FILE" else efp_FileVar p in
  let lift {A} (r : str + A) : M FS str A := match r with inl e => throw e | inr a => ret a end in
  if negb (getenv envVar =s "") then lift (decodeKEK (getenv envVar))
  else if negb (getenv fileVar =s "") then
    do! CheckPerms (getenv fileVar) in
    let! d := mapErr (fun e => "secret: read KEK file: " ++ e) (os_ReadFile (getenv fileVar)) in
    lift (decodeKEK d)
  else throw ("secret: no KEK configured (set " ++ envVar ++ " or " ++ fileVar ++ ")").

(** ** garagemanager/secrets.go: the files *)

Definition rpcSecretFile : str := "rpc_secret".
Definition adminTokenFile : str := "admin_token".
Definition metricsTokenFile : str := "metrics_token".

Definition secret_files (s : ClusterSecrets) : list (str * str) :=
  [(rpcSecretFile, cs_RPCSecret s); (adminTokenFile, cs_AdminToken s);
   (metricsTokenFile, cs_MetricsToken s)].
Definition WriteSecretFiles (dir : str) (s : ClusterSecrets) : M FS str (gmap str str) :=
  do! forM_ (secret_files s) (fun f => WriteFile (Backups.PathJoin dir (fst f)) (snd f)) in
  ret (<["GARAGE_RPC_SECRET_FILE" := Backups.PathJoin dir rpcSecretFile]>
        (<["GARAGE_ADMIN_TOKEN_FILE" := Backups.PathJoin dir adminTokenFile]>
           {[ "GARAGE_METRICS_TOKEN_FILE" := Backups.PathJoin dir metricsTokenFile ]})).

(** ** garagemanager/config.go *)

Record ConfigParams := mkConfigParams {
  cp_MetadataDir : str; cp_DataDir : str; cp_DBEngine : str; cp_ReplicationFactor : Z;
  cp_ConsistencyMode : str; cp_RPCBindAddr : str; cp_RPCPublicAddr : str; cp_S3APIBindAddr : str;
  cp_S3Region : str; cp_S3RootDomain : str; cp_S3WebBindAddr : str; cp_S3WebRootDomain : str;
  cp_S3WebIndex : str; cp_AdminAPIBindAddr : str; cp_MetricsRequireToken : bool }.

Definition DefaultSingleNode : ConfigParams :=
  mkConfigParams "/var/lib/garage/meta" "/var/lib/garage/data" "sqlite" 1 "consistent" "[::]:3901"
    "127.0.0.1:3901" "[::]:3900" "garage" ".s3.buktio.local" "[::]:3902" ".web.buktio.local"
    "index.html" "127.0.0.1:3903" true.

Definition Validate (p : ConfigParams) : option str :=
  if (cp_MetadataDir p =s "") || (cp_DataDir p =s "")
  then Some "garagemanager: metadata_dir and data_dir are required"
  else if (cp_ReplicationFactor p <? 1)%Z then Some "garagemanager: replication_factor must be >= 1"
  else if (cp_DBEngine p =s "sqlite") || (cp_DBEngine p =s "lmdb") then None
  else Some ("garagemanager: unsupported db_engine " ++ cp_DBEngine p).

Definition nl : str := String (ascii_of_nat 10) "".
Definition dq : ascii := ascii_of_nat 34.
(** [key = "value"]: the template does not escape the value. *)
Definition quoted (key value : str) : str := key ++ " = " ++ String dq (value ++ String dq nl).
Definition bare (key value : str) : str := key ++ " = " ++ value ++ nl.
Definition bool_text (b : bool) : str := if b then "true" else "false".

(** configTmpl *)
Definition configTmpl (p : ConfigParams) : str :=
  "# Rendered by buktio's garage-manager. NON-SENSITIVE." ++ nl ++
  "# Secrets (rpc_secret, admin_token, metrics_token) are injected via *_FILE env" ++ nl ++
  "# vars (GARAGE_RPC_SECRET_FILE / GARAGE_ADMIN_TOKEN_FILE / GARAGE_METRICS_TOKEN_FILE)." ++ nl ++ nl ++
  quoted "metadata_dir" (cp_MetadataDir p) ++ quoted "data_dir    " (cp_DataDir p) ++ nl ++
  quoted "db_engine" (cp_DBEngine p) ++ nl ++
  bare "replication_factor" (Itoa (cp_ReplicationFactor p)) ++
  quoted "consistency_mode  " (cp_ConsistencyMode p) ++ nl ++
  quoted "rpc_bind_addr  " (cp_RPCBindAddr p) ++ quoted "rpc_public_addr" (cp_RPCPublicAddr p) ++ nl ++
  "[s3_api]" ++ nl ++ quoted "api_bind_addr" (cp_S3APIBindAddr p) ++
  quoted "s3_region    " (cp_S3Region p) ++ quoted "root_domain  " (cp_S3RootDomain p) ++ nl ++
  "[s3_web]" ++ nl ++ quoted "bind_addr  " (cp_S3WebBindAddr p) ++
  quoted "root_domain" (cp_S3WebRootDomain p) ++ quoted "index      " (cp_S3WebIndex p) ++ nl ++
  "[admin]" ++ nl ++ quoted "api_bind_addr        " (cp_AdminAPIBindAddr p) ++
  bare "metrics_require_token" (bool_text (cp_MetricsRequireToken p)).
Definition RenderConfig (p : ConfigParams) : str + str :=
  match Validate p with Some e => inl e | None => inr (configTmpl p) end.
Definition RenderConfigString (p : ConfigParams) : str + str := RenderConfig p.

(** ** auth/password.go *)

Record argonParams := mkargonParams {
  ap_memory : Z; ap_time : Z; ap_threads : Z; ap_keyLen : Z; ap_saltLen : nat }.
Definition defaultParams : argonParams := mkargonParams (64 * 1024) 3 2 32 16.
Definition argon2_Version : Z := 19.

(** [fmt.Sscanf]: literals, and %d into a variable of the given range; what follows
    the format is not looked at. *)
Inductive Directive := Lit (s : str) | Num (lo hi : Z).
Fixpoint digits_of (s : str) : str * str :=
  match s with
  | String c s' => if is_digit c then let '(d, r) := digits_of s' in (String c d, r) else ("", s)
  | "" => ("", "")
  end.
(** A number: spaces are skipped, a sign is taken when the variable is signed. *)
Definition scan_number (lo hi : Z) (s : str) : option (Z * str) :=
  let s := trim_left is_space s in
  let '(neg, s) := match s with
                   | String c s' => if (lo <? 0)%Z && Ascii.eqb c "-" then (true, s')
                                    else if (lo <? 0)%Z && Ascii.eqb c "+" then (false, s') else (false, s)
                   | "" => (false, s)
                   end in
  let '(ds, rest) := digits_of s in
  if ds =s "" then None
  else match digits_value 0 ds with
       | Some v => let v := if neg then (- v)%Z else v in
                   if ((lo <=? v) && (v <=? hi))%Z then Some (v, rest) else None
       | None => None
       end.
Fixpoint Sscanf (format : list Directive) (s : str) : option (list Z) :=
  match format with
  | [] => Some []
  | Lit l :: f => if HasPrefix s l then Sscanf f (str_drop (String.length l) s) else None
  | Num lo hi :: f =>
      match scan_number lo hi s with
      | Some (v, rest) => cons v <$> Sscanf f rest
      | None => None
      end
  end.
Definition int_verb : Directive := Num int64_min int64_max.
Definition uint32_verb : Directive := Num 0 (2 ^ 32 - 1).
Definition uint8_verb : Directive := Num 0 255.

Section Password.
Context (rnd : nat -> nat -> option str).
(** [argon2.IDKey password salt time memory threads keyLen] *)
Context (IDKey : str -> str -> Z -> Z -> Z -> Z -> str).

Definition phc (p : argonParams) (salt key : str) : str :=
  "$argon2id$v=" ++ Itoa argon2_Version ++ "$m=" ++ Itoa (ap_memory p) ++ ",t=" ++ Itoa (ap_time p)
    ++ ",p=" ++ Itoa (ap_threads p) ++ "$" ++ encode64 Std true salt ++ "$" ++ encode64 Std true key.
Definition HashPassword (password : str) : Envelope.Rand str :=
  let p := defaultParams in
  let! salt := Envelope.RandomBytes rnd (ap_saltLen p) "rand" in
  ret (phc p salt (IDKey password salt (ap_time p) (ap_memory p) (ap_threads p) (ap_keyLen p))).

Definition ErrInvalidHash : str := "auth: invalid password hash".
Definition VerifyPassword (password encoded : str) : str + bool :=
  match Split encoded "$" with
  | [_; alg; ver; params; salt64; want64] =>
      if negb (alg =s "argon2id") then inl ErrInvalidHash
      else match Sscanf [Lit "v="; int_verb] ver with
      | Some _ =>
          match Sscanf [Lit "m="; uint32_verb; Lit ",t="; uint32_verb; Lit ",p="; uint8_verb] params with
          | Some [memory; time; threads] =>
              match decode64 Std true salt64, decode64 Std true want64 with
              | Some salt, Some want =>
                  let got := IDKey password salt time memory threads (Z.of_nat (String.length want)) in
                  inr (got =s want)
              | _, _ => inl ErrInvalidHash
              end
          | _ => inl ErrInvalidHash
          end
      | None => inl ErrInvalidHash
      end
  | _ => inl ErrInvalidHash
  end.
End Password.

End Secrets.
