(* ===== verification/AccountProofs.v ===== *)
(** Accounts: API tokens from creation to revocation, the bound on sign-ups from one
    address, e-mail verification, and single sign-on. *)
From S2P Require Import Prelude GoStrings Storage MemStore Database Repository AccountStore AuditLog Service Frames Example Members MemberProofs Tenants TenantProofs Accounts.
#[local] Open Scope string_scope.
Import Accounts.

(** * API tokens *)

Section Tokens.
Context {ENV : Env} {B : Type} (s : Services B).
Implicit Types (w : World B).

(** Whom a token authenticates. *)
Definition bearer (token : str) w : option User :=
  match fst (UserByAPIToken token w) with inr u => Some u | inl _ => None end.

Lemma bearer_is token w : reliable -> HasPrefix token APITokenPrefix = true ->
  bearer token w = set_u_EmailVerified false <$>
    AccountStore.token_user (env_now (db_tick (w_db w))) (HashToken token) (w_db w).
Proof.
  intros Hrel Hp. unfold bearer, UserByAPIToken. rewrite Hp. cbn.
  unfold AccountStore.GetUserByAPIToken, query_row, stmt, mapErr, bind, db, zoom. rewrite Hrel.
  change (AccountStore.token_user ?t ?h (set_db_tick _ _))
    with (AccountStore.token_user t h (w_db w)).
  destruct (AccountStore.token_user _ _ _); [|done]. cbn. rewrite attempt_run. unfold exec, stmt.
  by rewrite Hrel.
Qed.

Lemma fmap_verified (o : option User) : u_ID <$> (set_u_EmailVerified false <$> o) = u_ID <$> o.
Proof. by destruct o. Qed.
Lemma head_of_exists id (l : list User) : exists_ (fun u => u_ID u =s id) l = true ->
  u_ID <$> head (where_ (fun u => u_ID u =s id) l) = Some id.
Proof.
  intros (u & Hu & He)%exists_spec. destruct (head _) as [u'|] eqn:E.
  - apply head_elem, where_elem in E as [_ E]. apply eqb_true_str in E. cbn. by rewrite E.
  - assert (u ∈ where_ (fun u => u_ID u =s id) l) as Hin by (by apply where_elem).
    destruct (where_ _ l); [set_solver|done].
Qed.

(** What a token does, from the two tables it is resolved in. *)
Definition token_tables (d : DB) := (api_tokens d, users d).

Lemma CreateAPIToken_inv ctx name exp w r w1 :
  CreateAPIToken s ctx name exp w = (inr r, w1) ->
  let tok := atc_Token r in let id := atd_ID (atc_DTO r) in
  HasPrefix tok APITokenPrefix = true /\
  Store.has_id at_ID id (Store.all_rows (api_tokens (w_db w))) = false /\
  Store.has_id at_TokenHash (HashToken tok) (Store.all_rows (api_tokens (w_db w))) = false /\
  exists t, at_ID t = id /\ at_TokenHash t = HashToken tok /\ at_UserID t = currentUserID ctx /\
    at_ExpiresAt t = exp /\
    token_tables (w_db w1) = (add_live t (api_tokens (w_db w)), users (w_db w)).
Proof.
  unfold CreateAPIToken. intros H.
  apply bind_inr in H as ([] & w0 & H0 & H). destruct (_ =s ""); [done|].
  unfold ret in H0. injection H0 as <-.
  apply bind_inr in H as ([] & w2 & H2 & H). apply authorize_same in H2 as ->.
  apply bind_inr in H as ([] & w3 & H3 & H). destruct (TrimSpace name =s ""); [done|].
  unfold ret in H3. injection H3 as <-.
  apply bind_inr in H as (raw & w4 & H4 & H). apply NewToken_inr in H4 as [-> _].
  apply bind_inr in H as (id & w5 & H5 & H). apply mapErr_inr, db_inv in H5 as (d5 & H5 & ->).
  apply mapErr_inr, insert_inr in H5 as [Hok H5]. cbv beta in H5. injection H5 as <- <-.
  apply bind_inr in H as ([] & w6 & H6 & H).
  apply (view_audit s token_tables) in H6. apply bind_inr in H as (t & w7 & H7 & H).
  unfold now in H7. injection H7 as <- <-. unfold ret in H. injection H as <- <-.
  bool_prop. cbn. split; [apply HasPrefix_app|]. split; [done|]. split; [done|].
  eexists. split_and!; [..|by rewrite <-H6]; done.
Qed.

Lemma token_user_only now h d t l :
  live (api_tokens d) = (l ++ [t])%list -> at_TokenHash t = h ->
  (forall x, x ∈ l -> (at_TokenHash x =s h) = false) ->
  AccountStore.token_user now h d =
  if AccountStore.unexpired now t
  then head (where_ (fun u => u_ID u =s at_UserID t) (live (users d))) else None.
Proof.
  intros Hl Hh Hno. unfold AccountStore.token_user. rewrite Hl, where_app, where_false.
  - cbn. rewrite Hh, eqb_refl_str. cbn. destruct (AccountStore.unexpired now t); [|done].
    cbn. by rewrite app_nil_r.
  - intros x Hx. cbv beta. by rewrite Hno.
Qed.

Lemma RevokeAPIToken_inv ctx id w w' : RevokeAPIToken s ctx id w = (inr tt, w') ->
  exists t, token_tables (w_db w') =
    (del_live t (fun t => (at_ID t =s env_as_uuid id) && (at_UserID t =s currentUserID ctx))
       (api_tokens (w_db w)), users (w_db w)).
Proof.
  unfold RevokeAPIToken. intros H.
  apply bind_inr in H as ([] & w0 & H0 & H). destruct (_ =s ""); [done|].
  unfold ret in H0. injection H0 as <-.
  apply bind_inr in H as ([] & w2 & H2 & H). apply authorize_same in H2 as ->.
  apply bind_inr in H as ([] & w3 & H3 & H). apply mapErr_inr, db_inv in H3 as (d3 & H3 & ->).
  apply exec_inr in H3 as ->. apply (view_audit s token_tables) in H. eexists. by rewrite <-H.
Qed.

(** C23: The life of an API token, with a working database.  The token that
    [CreateAPIToken] returns authenticates exactly its creator, until it expires; a
    revocation of its id by its owner, in any spelling the database takes for that id,
    ends it at once and for good, and a revocation by any other user, or of another id,
    leaves it as it was. *)
Theorem api_token_lifecycle ctx name exp w r w1 :
  reliable -> CreateAPIToken s ctx name exp w = (inr r, w1) ->
  let tok := atc_Token r in let id := atd_ID (atc_DTO r) in
  let owner t := match exp with
                 | Some e => if (t <? e)%Z then Some (currentUserID ctx) else None
                 | None => Some (currentUserID ctx)
                 end in
  exists_ (fun u => u_ID u =s currentUserID ctx) (live (users (w_db w))) = true ->
  u_ID <$> bearer tok w1 = owner (env_now (db_tick (w_db w1))) /\
  forall ctx' id' w2, RevokeAPIToken s ctx' id' w1 = (inr tt, w2) ->
    u_ID <$> bearer tok w2 =
    if (env_as_uuid id' =s id) && (currentUserID ctx' =s currentUserID ctx) then None
    else owner (env_now (db_tick (w_db w2))).
Proof.
  intros Hrel Hc tok id owner Hu.
  apply CreateAPIToken_inv in Hc as (Hp & Hid & Hh & t & Ti & Th & Tu & Te & Htb).
  fold id in Hid, Ti. fold tok in Hp, Hh, Th. injection Htb as Htok Husr.
  unfold Store.has_id in Hid, Hh. rewrite exists_false in Hid, Hh.
  assert (forall x, x ∈ live (api_tokens (w_db w)) ->
    (at_TokenHash x =s HashToken tok) = false /\ (at_ID x =s id) = false) as Hno.
  { intros x Hx%live_elem_all. split; [by apply Hh|by apply Hid]. }
  assert (forall now d, users d = users (w_db w) ->
    u_ID <$> (if AccountStore.unexpired now t
      then head (where_ (fun u => u_ID u =s at_UserID t) (live (users d))) else None) = owner now) as Hown.
  { intros now d ->. unfold AccountStore.unexpired, owner. rewrite Te, Tu.
    assert (u_ID <$> head (where_ (fun u => u_ID u =s currentUserID ctx) (live (users (w_db w)))) =
      Some (currentUserID ctx)) as Hhd by (by apply head_of_exists).
    destruct exp as [e|]; [|done]. by destruct (now <? e)%Z. }
  rewrite !bearer_is by done. rewrite fmap_verified. split.
  - erewrite token_user_only; [by apply Hown|by rewrite Htok, live_add|done|].
    intros x Hx. by apply Hno.
  - intros ctx' id' w2 Hr. apply RevokeAPIToken_inv in Hr as (now & [= Htok2 Husr2]).
    rewrite bearer_is, fmap_verified by done.
    assert (live (api_tokens (w_db w2)) = where_ (fun x => negb ((at_ID x =s env_as_uuid id') &&
      (at_UserID x =s currentUserID ctx'))) (live (api_tokens (w_db w)) ++ [t]))%list as Hl
      by (by rewrite Htok2, live_del, Htok, live_add).
    rewrite where_app in Hl. cbn [where_ List.filter] in Hl.
    assert ((at_ID t =s env_as_uuid id') && (at_UserID t =s currentUserID ctx') =
      (env_as_uuid id' =s id) && (currentUserID ctx' =s currentUserID ctx)) as Heq
      by (by rewrite Ti, Tu, (String.eqb_sym id), (String.eqb_sym (currentUserID ctx))).
    rewrite Heq in Hl. destruct ((env_as_uuid id' =s id) && _); cbn in Hl.
    + rewrite app_nil_r in Hl. unfold AccountStore.token_user. rewrite Hl, where_false; [done|].
      intros x [Hx _]%where_elem. apply Hno in Hx as [Hx _]. by rewrite Hx.
    + erewrite token_user_only; [|exact Hl|done|intros x [Hx _]%where_elem; by apply Hno].
      apply Hown. by rewrite Husr2, Husr.
Qed.
End Tokens.

Lemma api_token_lifecycle_witness :
  let out := @CreateAPIToken ex_env _ ex_services ctx_alice "ci" None ex_world in
  exists r, fst out = inr r /\ u_ID <$> bearer (ENV := ex_env) (atc_Token r) (snd out) = Some "alice".
Proof.
  intros out. destruct (fst out) as [e|r] eqn:E; [exfalso; vm_compute in E; discriminate|].
  exists r. split; [done|].
  apply (api_token_lifecycle (ENV := ex_env) ex_services ctx_alice "ci" None ex_world r (snd out)
    ltac:(done) (eq_trans (surjective_pairing _) (f_equal2 pair E eq_refl)) eq_refl).
Defined.

(** * The bound on sign-ups *)

Section SignupRate.
Context {ENV : Env} {B : Type} (s : Services B).
Implicit Types (w : World B).

(** Attempts of one address within a window that opens at [t]. *)
Definition in_window (ip : str) (t : Z) (a : SignupAttempt) : bool :=
  (sa_IP a =s ip) && (t <=? sa_CreatedAt a)%Z && (sa_CreatedAt a <=? t + signupWindow)%Z.
Definition rate_bounded (d : DB) : Prop :=
  forall ip t, ip <> "" -> length (where_ (in_window ip t) (signup_attempts d)) <= signupPerIP.

Lemma view_HashPassword {V} (v : DB -> V) pw : Guar (view v) (Members.HashPassword (B := B) pw).
Proof. intros w r w' H. unfold Members.HashPassword in H. by simplify_eq. Qed.
Lemma view_newTokenOrEmpty {V} (v : DB -> V) `{!Blind v} :
  Guar (view v) (newTokenOrEmpty (B := B)).
Proof. unfold newTokenOrEmpty. frames. Qed.
Lemma view_orgSlug {V} (v : DB -> V) `{!Blind v} n : Guar (view v) (orgSlug (B := B) n).
Proof. unfold orgSlug. frames. apply view_newTokenOrEmpty; typeclasses eauto. Qed.
Lemma view_signup_attempts_verification u e :
  Guar (view signup_attempts) (sendVerification s u e).
Proof.
  unfold sendVerification, AccountStore.CreateEmailVerification. frames.
  - apply view_newTokenOrEmpty; typeclasses eauto.
  - elsewhere.
Qed.
Lemma view_signup_attempts_create n sl e f h :
  Guar (view (B := B) signup_attempts) (db (Store.CreateOrgWithOwner n sl e f h)).
Proof.
  unfold Store.CreateOrgWithOwner, Store.insert_org, Store.insert_default_project. elsewhere.
Qed.

(** What a call does to the attempts: nothing when it is refused early, or when the
    database rejects its address; otherwise one is added, and the address had fewer
    than the limit in the last window. *)
Definition attempt_added (a : str) w w' : Prop :=
  exists r, signup_attempts (w_db w') = (signup_attempts (w_db w) ++ [r])%list /\ sa_IP r = a /\
    (a <> "" -> exists n, sa_CreatedAt r = env_now (S n) /\
       length (where_ (AccountStore.recent_signup a (env_now n - signupWindow))
                   (signup_attempts (w_db w))) < signupPerIP).

Lemma signupRateGuard_run ip w r w1 : reliable -> signupRateGuard ip w = (r, w1) ->
  (exists e, r = inl e /\ signup_attempts (w_db w1) = signup_attempts (w_db w)) \/
  r = inr tt /\ signup_attempts (w_db w1) = signup_attempts (w_db w) /\
  (forall a, ip <> "" -> env_inet ip = Some a -> exists n, db_tick (w_db w1) = S n /\
     length (where_ (AccountStore.recent_signup a (env_now n - signupWindow))
               (signup_attempts (w_db w))) < signupPerIP).
Proof.
  unfold signupRateGuard. intros Hrel H. destruct (ip =s "") eqn:Ei.
  { injection H as <- <-. right. split_and!; [done..|]. by apply eqb_true_str in Ei as ->. }
  unfold bind, attempt, AccountStore.CountRecentSignups, db, zoom, mapErr, stmt, now in H.
  rewrite Hrel in H. destruct (env_inet ip) as [a|] eqn:Ea.
  2: { cbn in H. injection H as <- <-. right. by split_and!. }
  destruct (_ <=? _)%nat eqn:El; injection H as <- <-; [left; by eexists|].
  right. split_and!; [done..|]. intros a' _ [= <-]. exists (db_tick (w_db w)). split; [done|].
  by apply Nat.leb_gt in El.
Qed.

(** The statement that records the attempt. *)
Lemma record_run ip email w : reliable -> exists w1,
  ignore (E' := Error) (db (AccountStore.RecordSignupAttempt ip email)) w = (inr tt, w1) /\
  match AccountStore.nullif_inet ip with
  | Some a => exists r, signup_attempts (w_db w1) = (signup_attempts (w_db w) ++ [r])%list /\
      sa_IP r = a /\ sa_CreatedAt r = env_now (db_tick (w_db w))
  | None => signup_attempts (w_db w1) = signup_attempts (w_db w)
  end.
Proof.
  intros Hrel. unfold ignore, AccountStore.RecordSignupAttempt, bind, attempt, db, zoom, stmt.
  rewrite Hrel. destruct (AccountStore.nullif_inet ip); (eexists; split; [reflexivity|]); [|done].
  by eexists.
Qed.

Lemma Register_attempts ctx email pw org ip w r w' : reliable ->
  Register s ctx email pw org ip w = (r, w') ->
  (signup_attempts (w_db w') = signup_attempts (w_db w) /\
   ((exists e, r = inl e) \/ AccountStore.nullif_inet ip = None)) \/
  (exists a, AccountStore.nullif_inet ip = Some a /\ attempt_added a w w').
Proof.
  unfold Register. intros Hrel H.
  assert (forall e, (inl e, w) = (r, w') ->
    signup_attempts (w_db w') = signup_attempts (w_db w) /\
    ((exists e, r = inl e) \/ AccountStore.nullif_inet ip = None)) as Hno.
  { intros e [= <- <-]. eauto. }
  destruct (signupEnabled s); [|by left; eapply Hno, H].
  destruct (validEmail _); [|by left; eapply Hno, H].
  destruct (_ <? 8)%nat; [by left; eapply Hno, H|].
  destruct (TrimSpace org =s ""); [by left; eapply Hno, H|].
  cbn in H. rewrite bind_run in H.
  destruct (signupRateGuard ip w) as [r1 w1] eqn:E1.
  apply signupRateGuard_run in E1 as [(e & -> & Hs)|(-> & Hs & Hn)]; [..|done].
  { injection H as <- <-. left. eauto. }
  rewrite bind_run in H. destruct (record_run ip (TrimSpace (ToLower email)) w1 Hrel)
    as (w2 & E2 & Ha). rewrite E2 in H.
  assert (signup_attempts (w_db w2) = signup_attempts (w_db w')) as Hw.
  { framed (view (B := B) signup_attempts) H; [|exact H].
    unfold Store.GetUserByEmail. frames;
      auto using view_HashPassword, view_orgSlug, view_signup_attempts_create,
        view_signup_attempts_verification with typeclass_instances. }
  unfold AccountStore.nullif_inet in *. rewrite <-Hw, <-Hs.
  destruct (if ip =s "" then _ else _) as [a|] eqn:Ei; [right|by left; auto].
  destruct Ha as (x & Ha & Hip & Ht). exists a. split; [done|]. exists x. rewrite Ht, <-Hw, <-Hs.
  split_and!; [done..|]. intros Hne. destruct (ip =s "") eqn:Ee; [by injection Ei as <-|].
  apply eqb_false_str in Ee. destruct (Hn a Ee Ei) as (n & Hk & Hl). exists n. by rewrite Hk, Hs.
Qed.

(** C24: With a working database and a clock that does not go back, at most five
    sign-ups of one client address fall into any hour: every call of [Register]
    keeps the bound, for every window and address, and a call that is not refused
    has recorded itself under its address, unless the database rejects the text of
    the address (the cast to inet fails, as for a zoned fe80::1%eth0). *)
Theorem signup_rate_bound ctx email pw org ip w r w' :
  reliable -> (forall n, env_now n <= env_now (S n))%Z -> rate_bounded (w_db w) ->
  Register s ctx email pw org ip w = (r, w') ->
  rate_bounded (w_db w') /\
  match r with
  | inl _ => True
  | inr _ =>
      match AccountStore.nullif_inet ip with
      | Some a => exists x, sa_IP x = a /\
          signup_attempts (w_db w') = (signup_attempts (w_db w) ++ [x])%list
      | None => signup_attempts (w_db w') = signup_attempts (w_db w)
      end
  end.
Proof.
  intros Hrel Hmono Hb H.
  apply Register_attempts in H as [[Hs Hr]|(a & Ha & x & Hs & Hip & Hn)]; [| |done].
  { split; [unfold rate_bounded; by rewrite Hs|]. by destruct Hr as [(e & ->)| ->]; [|destruct r]. }
  split; [|rewrite Ha; destruct r; [done|by exists x]].
  intros ip0 t Hne. rewrite Hs, where_app, length_app. cbn.
  destruct (in_window ip0 t x) eqn:Ew; cbn; [|by rewrite Nat.add_0_r; apply Hb].
  unfold in_window in Ew. bool_prop. simplify_eq.
  destruct (Hn Hne) as (n & Ht & Hl). specialize (Hmono n).
  assert (length (where_ (in_window (sa_IP x) t) (signup_attempts (w_db w))) <=
    length (where_ (AccountStore.recent_signup (sa_IP x) (env_now n - signupWindow))
              (signup_attempts (w_db w)))); [|lia].
  apply where_length_mono. intros y Hy. unfold in_window, AccountStore.recent_signup.
  intros Hw. bool_prop. simplify_eq. rewrite andb_true_iff, andb_true_iff, negb_true_iff, Z.leb_le.
  split_and!; [by apply eqb_false_str; congruence|by apply eqb_true_str|lia].
Qed.
End SignupRate.

(** Tokens as long as real ones: the slug takes six characters of one. *)
Definition signup_env : Env := {|
  env_driver := @env_driver ex_env; env_fault := @env_fault ex_env; env_now := @env_now ex_env;
  env_uuid := @env_uuid ex_env; env_token := fun n => Some ("sixteen-letters-" ++ Itoa (Z.of_nat n));
  env_hash_password := @env_hash_password ex_env; env_verify_password := @env_verify_password ex_env;
  env_jsonb := @env_jsonb ex_env; env_as_uuid := fun id => id; env_as_uuid_gen := fun _ => eq_refl;
  env_inet := fun ip => if Contains ip "%" then None else Some ip |}.

(** The fifth sign-up of an address within the hour. *)
Definition signup_world (n : nat) : World MemB :=
  set_w_db (set_signup_attempts (repeat (mkSignupAttempt "203.0.113.7" "x@example.com" 0) n)
              (w_db ex_world)) ex_world.
Lemma signup_rate_bound_witness :
  let run w := @Register signup_env _ ex_services ctx_alice "carol@example.com" "longenough" "Carol"
                 "203.0.113.7" w in
  let out := run (signup_world 4) in
  rate_bounded (w_db (snd out)) /\ fst (run (snd out)) = inl rateLimitedErr.
Proof.
  intros run out. split; [|vm_compute; reflexivity].
  assert (forall n, @env_now signup_env n <= @env_now signup_env (S n))%Z as Hc by (intros n; cbn; lia).
  assert (rate_bounded (w_db (signup_world 4))) as Hb.
  { intros ip t Hne. etrans; [apply List.filter_length_le|]. cbn. unfold signupPerIP. lia. }
  destruct (signup_rate_bound (ENV := signup_env) ex_services ctx_alice "carol@example.com" "longenough"
    "Carol" "203.0.113.7" (signup_world 4) (fst out) (snd out) (fun _ => eq_refl) Hc Hb
    (surjective_pairing _)) as [H _]. exact H.
Defined.

(** An address the database rejects is neither limited nor recorded: a call from
    fe80::1%eth0 passes and leaves no attempt behind, so no number of such calls is
    refused. *)
Theorem rejected_address_unlimited :
  let run w := @Register signup_env _ ex_services ctx_alice "carol@example.com" "longenough" "Carol"
                 "fe80::1%eth0" w in
  failed (fst (run ex_world)) = false /\
  signup_attempts (w_db (snd (run ex_world))) = signup_attempts (w_db ex_world).
Proof. by_eval. Qed.

(** * Sign-up and verification *)

Section Verification.
Context {ENV : Env} {B : Type} (s : Services B).
Implicit Types (w : World B).

Lemma CreateOrgWithOwner_inr n sl e f h d ids d' :
  Store.CreateOrgWithOwner n sl e f h d = (inr ids, d') ->
  exists_ (Store.same_email e) (live (users d)) = false /\
  exists t, users d' = add_live (mkUser (snd ids) e f h false false t None) (users d).
Proof.
  unfold Store.CreateOrgWithOwner. intros H.
  apply AuditLog.transact_inr in H as (k & d2 & k2 & H & ->).
  apply bind_inr in H as (o & d3 & H3 & H). unfold Store.insert_org in H3.
  apply mapErr_inr, insert_inr in H3 as [_ H3]. injection H3 as _ <-.
  apply bind_inr in H as (p & d4 & H4 & H). unfold Store.insert_default_project in H4.
  apply mapErr_inr, insert_inr in H4 as [_ H4]. injection H4 as _ <-.
  apply bind_inr in H as (u & d5 & H5 & H).
  apply mapErr_inr, insert_inr in H5 as [Hok H5]. injection H5 as <- <-.
  apply bind_inr in H as ([] & d6 & H6 & H).
  apply mapErr_inr, insert_inr in H6 as [_ H6]. injection H6 as <-.
  unfold ret in H. injection H as <- <-. bool_prop. split; [done|]. by eexists.
Qed.

Lemma view_users_verification u e : Guar (view users) (sendVerification s u e).
Proof.
  unfold sendVerification, AccountStore.CreateEmailVerification. frames.
  - apply view_newTokenOrEmpty; typeclasses eauto.
  - elsewhere.
Qed.
Lemma view_users_rate ip : Guar (view users) (signupRateGuard (B := B) ip).
Proof. unfold signupRateGuard, AccountStore.CountRecentSignups. frames. elsewhere. Qed.

Lemma Register_inr ctx email pw org ip w r w' : Register s ctx email pw org ip w = (inr r, w') ->
  let e := TrimSpace (ToLower email) in
  r = mkSignupResult "" true "" \/
  exists_ (Store.same_email e) (live (users (w_db w))) = false /\
  exists h t, users (w_db w') = add_live (mkUser (sr_UserID r) e "" h false false t None)
                                  (users (w_db w)).
Proof.
  intros H e. unfold Register in H.
  destruct (signupEnabled s); [|done]. destruct (validEmail _); [|done].
  destruct (_ <? 8)%nat; [done|]. destruct (TrimSpace org =s ""); [done|]. cbn in H.
  apply bind_inr in H as ([] & w1 & H1 & H). apply view_users_rate in H1.
  apply bind_inr in H as ([] & w2 & H2 & H).
  framed (view (B := B) users) H2.
  { unfold AccountStore.RecordSignupAttempt. frames. elsewhere. }
  apply bind_inr in H as (ex & w3 & H3 & H).
  framed (view (B := B) users) H3; [unfold Store.GetUserByEmail; frames|].
  destruct ex as [ex|ex]; [|unfold ret in H; injection H as <- <-; by left]. right.
  apply bind_inr in H as (h & w4 & H4 & H). apply (view_HashPassword users) in H4.
  apply bind_inr in H as (sl & w5 & H5 & H). apply (view_orgSlug users) in H5.
  apply bind_inr in H as (ids & w6 & H6 & H). apply mapErr_inr, db_inv in H6 as (d6 & H6 & ->).
  apply CreateOrgWithOwner_inr in H6 as (Hno & t & Hu).
  apply bind_inr in H as (tok & w7 & H7 & H). apply view_users_verification in H7.
  apply bind_inr in H as ([] & w8 & H8 & H). apply (view_audit s users) in H8.
  unfold ret in H. injection H as <- <-.
  unfold view, same in *. cbn in H7.
  rewrite <-H8, <-H7. rewrite <-H5, <-H4, <-H3, <-H2, <-H1 in Hno, Hu.
  split; [done|]. by exists h, t.
Qed.

Lemma view_sessions_Register ctx email pw org ip : Guar (view sessions) (Register s ctx email pw org ip).
Proof.
  unfold Register, signupRateGuard, AccountStore.CountRecentSignups, Store.GetUserByEmail,
    sendVerification.
  frames; auto using view_HashPassword, view_orgSlug, view_newTokenOrEmpty with typeclass_instances.
  - elsewhere.
  - unfold AccountStore.RecordSignupAttempt. elsewhere.
  - unfold Store.CreateOrgWithOwner, Store.insert_org, Store.insert_default_project. elsewhere.
  - unfold AccountStore.CreateEmailVerification. elsewhere.
Qed.

(** C25: A sign-up gives no access before the address is verified, whichever
    statements fail: a [Register] that created an account opened no session, and as
    long as the account table stays as it left it, no password logs in under that
    address (in any case). *)
Theorem signup_needs_verification ctx email pw org ip w r w' :
  Register s ctx email pw org ip w = (inr r, w') -> sr_UserID r <> "" ->
  sessions (w_db w') = sessions (w_db w) /\
  forall w2 e2 pw2, users (w_db w2) = users (w_db w') ->
    ToLower e2 = ToLower (TrimSpace (ToLower email)) ->
    exists err, fst (Members.Login e2 pw2 w2) = inl err.
Proof.
  intros H Hid. split; [symmetry; exact (view_sessions_Register _ _ _ _ _ _ _ _ H)|].
  apply Register_inr in H as [->|(Hno & h & t & Hu)]; [done|]. intros w2 e2 pw2 Hu2 He.
  destruct (Members.Login e2 pw2 w2) as [[e|a] w3] eqn:E; [by eexists|]. exfalso.
  apply Login_steps in E as (u & _ & Hin & Hem & _ & Hv & _).
  rewrite Hu2, Hu, live_add in Hin. apply elem_of_app in Hin as [Hin|Hin].
  - rewrite exists_false in Hno. specialize (Hno u Hin). unfold Store.same_email in Hno.
    apply eqb_false_str in Hno. congruence.
  - apply list_elem_of_singleton in Hin as ->. done.
Qed.

Definition verification_tables (d : DB) := (email_verifications d, users d).

Lemma ConsumeEmailVerification_inr th d uid d' :
  AccountStore.ConsumeEmailVerification th d = (inr uid, d') ->
  exists k v, let p := AccountStore.consumable (env_now k) th in
    v ∈ email_verifications d /\ p v = true /\ ev_UserID v = uid /\
    email_verifications d' =
      upd_rows p (set_ev_ConsumedAt (Some (env_now k))) (email_verifications d) /\
    users d' = upd_all (fun u => u_ID u =s uid) (set_u_EmailVerified true) (users d).
Proof.
  unfold AccountStore.ConsumeEmailVerification. intros H.
  apply AuditLog.transact_inr in H as (n & d2 & n2 & H & ->).
  apply bind_inr in H as (uid' & d3 & H3 & H). apply mapErr_inr, stmt_inr in H3 as [_ H3].
  destruct (head _) as [v|] eqn:Ev; [|done]. injection H3 as <- <-.
  apply head_elem, where_elem in Ev as [Hin Hp].
  apply bind_inr in H as ([] & d4 & H4 & H). apply mapErr_inr, exec_inr in H4 as ->.
  unfold ret in H. injection H as <- <-. by exists (db_tick (set_db_tick n d)), v.
Qed.

Definition invalidTokenErr : Error :=
  mkError "invalid_token" "the verification link is invalid or has expired" 400.

Lemma VerifyEmail_inv ctx token w a w' :
  VerifyEmail s ctx token w = (inr a, w') ->
  let uid := Members.ud_ID (Members.ar_User a) in
  exists k v, let p := AccountStore.consumable (env_now k) (HashToken token) in
    v ∈ email_verifications (w_db w) /\ p v = true /\ ev_UserID v = uid /\
    email_verifications (w_db w') =
      upd_rows p (set_ev_ConsumedAt (Some (env_now k))) (email_verifications (w_db w)) /\
    users (w_db w') =
      upd_all (fun u => u_ID u =s uid) (set_u_EmailVerified true) (users (w_db w)).
Proof.
  intros H uid. unfold VerifyEmail in H.
  apply bind_inr in H as (uid' & w1 & H1 & H). apply mapErr_inr, db_inv in H1 as (d1 & H1 & ->).
  apply ConsumeEmailVerification_inr in H1 as (k & v & Hin & Hp & Hu & Hev & Hus).
  apply bind_inr in H as (u & w2 & H2 & H). apply mapErr_inr, db_inv in H2 as (d2 & H2 & ->).
  apply mapErr_inr, query_row_inr in H2 as [-> H2].
  apply bind_inr in H as ([] & w3 & H3 & H). apply (view_audit s verification_tables) in H3.
  pose proof H as Ha. apply newSession_inv in Ha as (_ & Ha & _).
  framed (view (B := B) verification_tables) H; [unfold Members.newSession, Store.CreateSession; frames; elsewhere|].
  unfold view, same in H3, H. rewrite <-H3 in H. injection H as Hw1 Hw2. cbn in Hw1, Hw2.
  assert (uid = uid') as ->.
  { unfold uid. rewrite Ha. cbn. destruct (head _) as [u0|] eqn:Eu; [|done]. injection H2 as <-.
    apply head_elem, where_elem in Eu as [_ Eu]. by apply eqb_true_str in Eu. }
  exists k, v. rewrite <-Hw1, <-Hw2. by split_and!.
Qed.

(** A consumed token is not consumable again. *)
Lemma used_up t t2 th l (v v2 : EmailVerification) :
  NoDup (map ev_TokenHash l) -> v ∈ l -> AccountStore.consumable t th v = true ->
  v2 ∈ upd_rows (AccountStore.consumable t th) (set_ev_ConsumedAt (Some t)) l ->
  AccountStore.consumable t2 th v2 = true -> False.
Proof.
  intros Hnd Hin Hp H2 Hp2. unfold upd_rows in H2. apply list_elem_of_fmap in H2 as (x & -> & Hx).
  destruct (AccountStore.consumable t th x) eqn:E.
  - unfold AccountStore.consumable in Hp2. cbn in Hp2. by rewrite andb_false_r in Hp2.
  - assert (x = v) as ->; [|by rewrite Hp in E]. eapply (NoDup_map_eq ev_TokenHash); [done..|].
    unfold AccountStore.consumable in Hp, Hp2. bool_prop. congruence.
Qed.

(** A verification link works once.  A successful [VerifyEmail] was made with
    the unexpired, unused token of the user it signs in, whose address is verified
    from then on; after it, no further call with that token succeeds, whatever the
    clock says. *)
Theorem verification_single_use ctx token w a w' :
  NoDup (map ev_TokenHash (email_verifications (w_db w))) ->
  VerifyEmail s ctx token w = (inr a, w') ->
  let uid := Members.ud_ID (Members.ar_User a) in
  (exists v k, v ∈ email_verifications (w_db w) /\ ev_TokenHash v = HashToken token /\
     ev_UserID v = uid /\ ev_ConsumedAt v = None /\ (env_now k < ev_ExpiresAt v)%Z) /\
  (forall u, u ∈ live (users (w_db w')) -> u_ID u = uid -> u_EmailVerified u = true) /\
  forall ctx2 w2, email_verifications (w_db w2) = email_verifications (w_db w') ->
    fst (VerifyEmail s ctx2 token w2) = inl invalidTokenErr.
Proof.
  intros Hnd H uid. apply VerifyEmail_inv in H as (k & v & Hin & Hp & Hu & Hev & Hus). fold uid in Hu, Hus.
  unfold AccountStore.consumable in Hp. bool_prop. split_and!.
  - exists v, k. split_and!; [done..| |done]. by eapply bool_decide_eq_true_1.
  - intros u. rewrite Hus, live_upd_all, list_elem_of_fmap. intros (u0 & -> & _) Hid.
    destruct (u_ID u0 =s uid) eqn:E; [done|]. apply eqb_false_str in E. done.
  - intros ctx2 w2 He. unfold VerifyEmail. rewrite bind_run. unfold mapErr, db, zoom.
    destruct (AccountStore.ConsumeEmailVerification _ _) as [[e|uid2] d2] eqn:E; [done|]. exfalso.
    apply ConsumeEmailVerification_inr in E as (k2 & v2 & Hin2 & Hp2 & _).
    rewrite He, Hev in Hin2. eapply used_up; [exact Hnd|exact Hin|by unfold AccountStore.consumable;
      rewrite !andb_true_iff, eqb_true_str, Z.ltb_lt|exact Hin2|exact Hp2].
Qed.
End Verification.

Lemma signup_needs_verification_witness :
  let out := @Register signup_env _ ex_services ctx_alice "Carol@example.com" "longenough" "Carol"
               "203.0.113.7" ex_world in
  exists err, fst (@Members.Login signup_env _ "carol@example.com" "longenough" (snd out)) = inl err.
Proof.
  intros out. destruct (fst out) as [e|r] eqn:E; [exfalso; vm_compute in E; discriminate|].
  assert (sr_UserID r <> "") as Hid.
  { assert ((fun x => match x with inr r => sr_UserID r | inl _ => "" end) (fst out) <> "") as Hn
      by (vm_compute; intros Hc; discriminate Hc). by rewrite E in Hn. }
  destruct (signup_needs_verification (ENV := signup_env) ex_services ctx_alice "Carol@example.com"
    "longenough" "Carol" "203.0.113.7" ex_world r (snd out)
    (eq_trans (surjective_pairing _) (f_equal2 pair E eq_refl)) Hid) as [_ H].
  exact (H (snd out) "carol@example.com" "longenough" eq_refl eq_refl).
Defined.

Definition verify_world : World MemB :=
  set_w_db (set_email_verifications
    [mkEmailVerification "v1" "bob" (HashToken "bk_verify_x") 9000000000000 None]
    (w_db ex_world)) ex_world.
Lemma verification_single_use_witness :
  let out := @VerifyEmail ex_env _ ex_services ctx_alice "bk_verify_x" verify_world in
  failed (fst out) = false /\
  fst (@VerifyEmail ex_env _ ex_services ctx_alice "bk_verify_x" (snd out)) = inl invalidTokenErr.
Proof.
  intros out. split; [vm_compute; reflexivity|].
  destruct (fst out) as [e|a] eqn:E; [exfalso; vm_compute in E; discriminate|].
  destruct (verification_single_use (ENV := ex_env) ex_services ctx_alice "bk_verify_x" verify_world
    a (snd out)) as (_ & _ & H).
  - apply NoDup_singleton.
  - exact (eq_trans (surjective_pairing _) (f_equal2 pair E eq_refl)).
  - exact (H ctx_alice (snd out) eq_refl).
Defined.

(** * Single sign-on *)

Section SSO.
Context {ENV : Env} {B : Type} (s : Services B).
Implicit Types (w : World B).

(** Whom a verified identity [ext] may sign in as. *)
Inductive sso_account (ext : ExternalIdentity) (d : DB) (uid : str) : Prop :=
  | Linked i : i ∈ user_identities d -> ui_Provider i = ssoProvider ->
      ui_Subject i = ei_Subject ext -> ui_UserID i = uid -> sso_account ext d uid
  | Vouched u : ei_EmailVerified ext = true -> u ∈ live (users d) ->
      ToLower (u_Email u) = ToLower (ei_Email ext) -> u_ID u = uid -> sso_account ext d uid
  | Fresh : exists_ (Store.same_email (ei_Email ext)) (live (users d)) = false ->
      uid ∉ map u_ID (Store.all_rows (users d)) -> sso_account ext d uid.

Definition sso_tables (d : DB) := (user_identities d, users d, members d).

Lemma view_LinkIdentity_members u p sub :
  Guar (view (B := B) members) (ignore (E' := Error) (db (AccountStore.LinkIdentity u p sub))).
Proof. unfold AccountStore.LinkIdentity. frames. elsewhere. Qed.

(** The linked account, read in two statements. *)
Lemma linked_user ext w u w' :
  db (B := B) (AccountStore.GetUserByExternalIdentity ssoProvider (ei_Subject ext)) w = (inr u, w') ->
  sso_account ext (w_db w) (u_ID u).
Proof.
  intros (d & H & _)%db_inv. unfold AccountStore.GetUserByExternalIdentity in H.
  apply bind_inr in H as (uid & d1 & H1 & H). apply mapErr_inr, query_row_inr in H1 as [-> H1].
  destruct (head _) as [i|] eqn:Ei in H1; [|done]. injection H1 as <-.
  apply head_elem, where_elem in Ei as [Hi Hp]. unfold AccountStore.identity_of in Hp. bool_prop.
  apply mapErr_inr, query_row_inr in H as [_ H]. destruct (head _) as [u0|] eqn:Eu in H; [|done].
  injection H as <-. apply head_elem, where_elem in Eu as [_ Eu]. apply eqb_true_str in Eu.
  by eapply Linked.
Qed.

Lemma externalUser_inr ext w u w' : externalUser (B := B) ext w = (inr u, w') ->
  sso_account ext (w_db w) (u_ID u) /\ members (w_db w') = members (w_db w).
Proof.
  unfold externalUser. intros H. rewrite bind_run, attempt_run in H.
  destruct (db _ w) as [linked w1] eqn:H1. pose proof H1 as Hv1. framed (view (B := B) sso_tables) Hv1.
  { unfold AccountStore.GetUserByExternalIdentity, Store.GetUserByID. frames. }
  injection Hv1 as Hi1 Hu1 Hm1. destruct linked as [e|u1]; cbn in H.
  2: { unfold ret in H. injection H as <- <-. split; [by eapply linked_user|done]. }
  rewrite bind_run, attempt_run in H. destruct (db _ w1) as [byE w2] eqn:H2.
  pose proof H2 as Hv2. framed (view (B := B) sso_tables) Hv2; [unfold Store.GetUserByEmail; frames|].
  injection Hv2 as Hi2 Hu2 Hm2. destruct byE as [e2|u2].
  - apply bind_inr in H as (rnd & w3 & H3 & H). apply (view_newTokenOrEmpty sso_tables) in H3.
    apply bind_inr in H as (h & w4 & H4 & H). apply (view_HashPassword sso_tables) in H4.
    unfold view, same in H3, H4. rewrite <-H3 in H4. injection H4 as _ Hu4 Hm4.
    apply bind_inr in H as (id & w5 & H5 & H). apply mapErr_inr, db_inv in H5 as (d5 & H5 & ->).
    apply mapErr_inr, insert_inr in H5 as [Hok H5]. injection H5 as <- <-.
    apply bind_inr in H as ([] & w6 & H6 & H). apply view_LinkIdentity_members in H6.
    unfold ret in H. injection H as <- <-. unfold view, same in H6. cbn in H6.
    split; [|congruence]. cbn in Hok. rewrite <-Hu4, <-Hu2, <-Hu1 in Hok. bool_prop.
    apply Fresh; [done|]. cbn. intros Hin. apply list_elem_of_fmap in Hin as (x & Hx & Hin).
    unfold Store.has_id in H. rewrite exists_false in H. specialize (H x Hin). cbv beta in H.
    by rewrite <-Hx, eqb_refl_str in H.
  - destruct (ei_EmailVerified ext) eqn:Ev; [|done]. cbn in H.
    apply bind_inr in H as ([] & w3 & H3 & H). apply view_LinkIdentity_members in H3.
    unfold ret in H. injection H as <- <-. unfold view, same in H3. split; [|congruence].
    apply db_inv in H2 as (d2 & H2 & _). apply mapErr_inr, query_row_inr in H2 as [_ H2].
    apply head_elem, where_elem in H2 as [Hin He]. cbn in Hin. rewrite <-Hu1 in Hin.
    by eapply Vouched; [|exact Hin|apply eqb_true_str|].
Qed.

(** The membership after a sign-in: as before, or one row more within the seats. *)
Definition seats_left (d : DB) : Prop :=
  let lim := ent_Limit (s_Ent s) ResourceSeats (s_OrgID s) in
  lim_Unlimited lim = true \/
  (Z.of_nat (length (where_ (fun m => om_OrgID m =s s_OrgID s) (members d))) < lim_Max lim)%Z.

Lemma ssoSeatGuard_passed w w1 : reliable -> ssoSeatGuard s w = (inr tt, w1) ->
  members (w_db w1) = members (w_db w) /\ seats_left (w_db w).
Proof.
  intros Hrel H. unfold ssoSeatGuard in H. unfold seats_left. destruct (lim_Unlimited _).
  { unfold ret in H. injection H as <-. auto. }
  unfold bind, attempt, db, zoom, Store.CountMembers, query, stmt in H. rewrite Hrel in H.
  destruct (_ <=? _)%Z eqn:El; [done|]. unfold ret in H. injection H as <-. bool_prop. auto.
Qed.

Lemma ensureMembership_run uid groups w r w' : reliable ->
  ensureMembership s uid groups w = (r, w') ->
  members (w_db w') = members (w_db w) \/
  (exists_ (Store.is_member (s_OrgID s) (env_as_uuid uid)) (members (w_db w)) = false /\ seats_left (w_db w) /\
   exists role t, members (w_db w') = (members (w_db w) ++ [mkMembership (s_OrgID s) (env_as_uuid uid) role t])%list).
Proof.
  intros Hrel H. unfold ensureMembership in H. rewrite bind_run, attempt_run in H.
  destruct (db _ w) as [r1 w1] eqn:H1. pose proof H1 as Hv1.
  framed (view (B := B) members) Hv1; [unfold Store.GetMembershipRole; frames|].
  unfold view, same in Hv1.
  destruct r1 as [e|role]; cbn in H; [|unfold ret in H; injection H as _ <-; by left].
  rewrite bind_run in H. destruct (ssoSeatGuard s w1) as [[e2|[]] w2] eqn:H2.
  { injection H as _ <-. left. framed (view (B := B) members) H2; [unfold ssoSeatGuard, Store.CountMembers; frames|].
    unfold view, same in H2. congruence. }
  apply ssoSeatGuard_passed in H2 as [Hm2 Hseats]; [|done].
  apply ignore_db_run in H as (_ & r3 & d3 & H3 & ->). cbn.
  apply UpsertMember_inv in H3 as [_ Hm3]. unfold seats_left. rewrite Hm2, <-Hv1 in *. cbn in Hm3.
  destruct Hm3 as [->|(_ & [(Hex & _)|(Hno & t & ->)])]; [by left| |right].
  - exfalso. apply db_inv in H1 as (d1 & H1 & _). unfold Store.GetMembershipRole, mapErr, query_row, stmt in H1.
    rewrite Hrel in H1. apply exists_spec in Hex as (m & Hin & Hm). cbn in H1.
    assert (m ∈ where_ (Store.is_member (s_OrgID s) (env_as_uuid uid)) (members (w_db w))) as Hw
      by (by apply where_elem).
    destruct (where_ _ _) as [|x l]; [set_solver|]. done.
  - split; [done|]. split; [|by eexists _, t]. unfold seats_left in Hseats. by rewrite <-Hv1 in Hseats.
Qed.

Lemma LoginWithExternalIdentity_inr ctx ext w a w' :
  LoginWithExternalIdentity s ctx (Some ext) w = (inr a, w') ->
  let uid := Members.ud_ID (Members.ar_User a) in
  ei_Subject ext <> "" /\ sso_account ext (w_db w) uid /\
  exists w1 w2 r, members (w_db w1) = members (w_db w) /\
    ensureMembership s uid (ei_Groups ext) w1 = (r, w2) /\ members (w_db w') = members (w_db w2).
Proof.
  intros H uid. unfold LoginWithExternalIdentity in H.
  destruct ((_ =s "") || _) eqn:Ee; [done|]. cbn in H.
  apply orb_false_iff in Ee as [Ee%eqb_false_str _].
  apply bind_inr in H as (u & w1 & H1 & H). apply externalUser_inr in H1 as [Hacc Hm1].
  apply bind_inr in H as ([] & w2 & H2 & H).
  apply bind_inr in H as ([] & w3 & H3 & H). apply (view_audit s members) in H3.
  pose proof H as Ha. apply newSession_inv in Ha as (_ & Ha & _).
  framed (view (B := B) members) H; [unfold Members.newSession, Store.CreateSession; frames; elsewhere|].
  unfold uid. rewrite Ha. cbn. split; [done|]. split; [done|]. exists w1, w2, (inr tt).
  unfold view, same in H, H3. split_and!; [done|done|congruence].
Qed.

(** C22: Single sign-on never takes over an account and never changes a role.
    Whichever statements fail, a successful sign-in is as the account linked to the
    identity, or as the account of its address when the provider vouches for that
    address, or as a new account of an unused address.  With a working database
    every membership keeps its role: at most one is added, to the default
    organization, for a user who had none there, while seats are left.  (A user's id
    is compared as the uuid the database has for it.) *)
Theorem sso_binds_safely ctx ext w a w' :
  LoginWithExternalIdentity s ctx (Some ext) w = (inr a, w') ->
  let uid := Members.ud_ID (Members.ar_User a) in
  sso_account ext (w_db w) uid /\
  (reliable -> members (w_db w') = members (w_db w) \/
     exists_ (Store.is_member (s_OrgID s) (env_as_uuid uid)) (members (w_db w)) = false /\
     seats_left (w_db w) /\
     exists role t, members (w_db w') =
       (members (w_db w) ++ [mkMembership (s_OrgID s) (env_as_uuid uid) role t])%list).
Proof.
  intros (_ & Hacc & w1 & w2 & r & Hm1 & He & Hm2)%LoginWithExternalIdentity_inr uid.
  split; [done|]. intros Hrel. apply ensureMembership_run in He; [|done].
  unfold seats_left in *. by rewrite Hm2, <-Hm1.
Qed.
End SSO.

(** A provider that has vouched for bob's address; bob is already a member. *)
Definition ex_identity : ExternalIdentity := mkExternalIdentity "sub-7" "Bob@example.com" true "Bob" ["admins"].
Lemma sso_binds_safely_witness :
  let out := @LoginWithExternalIdentity ex_env _ ex_services ctx_alice (Some ex_identity) ex_world in
  failed (fst out) = false /\ members (w_db (snd out)) = members (w_db ex_world).
Proof.
  intros out. split; [vm_compute; reflexivity|].
  destruct (fst out) as [e|a] eqn:E; [exfalso; vm_compute in E; discriminate|].
  destruct (sso_binds_safely (ENV := ex_env) ex_services ctx_alice ex_identity ex_world a (snd out)
    (eq_trans (surjective_pairing _) (f_equal2 pair E eq_refl))) as [_ H].
  destruct (H (fun _ => eq_refl)) as [Hm|(_ & _ & role & t & Hm)]; [exact Hm|].
  exfalso. apply (f_equal length) in Hm. vm_compute in Hm. discriminate.
Defined.

(** * Where an error is taken for an absence *)

(** When the membership read of a sign-in fails, the member is written again: bob,
    an owner, becomes what his groups map to. *)
Theorem sso_read_failure_overwrites_role :
  let w := set_w_db (set_members [mkMembership "o1" "bob" "owner" 0] (w_db ex_world)) ex_world in
  let out := @LoginWithExternalIdentity (example_env Postgres (fault_at 3)) _ ex_services ctx_alice
               (Some ex_identity) w in
  failed (fst out) = false /\ map om_Role (members (w_db (snd out))) = ["member"].
Proof. by_eval. Qed.
