(* ===== verification/SettingsProofs.v ===== *)
(** Policies never lock an owner out and stay within their organization; a custom
    domain belongs to one organization and serves its branding. *)
From S2P Require Import Prelude GoStrings Storage MemStore Database Repository AccountStore AuditLog Service Frames Example MemberProofs Tenants TenantProofs Accounts Settings AccountProofs.
#[local] Open Scope string_scope.
Import OrgSettings.

(** * Policies *)

(** The writes of policies.go. *)
Inductive PolicyOp :=
  | PCreate (i : CreatePolicyInput)
  | PEnable (id : str) (enabled : bool)
  | PDelete (id : str).

Definition bindable (role : str) : bool := bool_decide (role ∈ ["admin"; "member"; "viewer"]).

(** Every binding is of a role that can be bound and of an existing policy; policies
    have distinct ids. *)
Definition policies_ok (d : DB) : Prop :=
  (forall b, b ∈ policy_bindings d -> bindable (pb_Role b) = true /\
     Store.has_id pol_ID (pb_PolicyID b) (policies d) = true) /\
  NoDup (map pol_ID (policies d)).
Definition policy_tables (d : DB) := (policies d, policy_bindings d).

(** What an organization does not own of the policies. *)
Definition foreign_policies (org : str) (d : DB) : list PolicyRow :=
  where_ (fun p => negb (pol_OrgID p =s org)) (policies d).

Lemma check_roles_none roles : check_roles roles = None ->
  Forall (fun r => bindable r = true) roles.
Proof.
  induction roles as [|r roles IH]; [done|]. cbn. destruct (r =s "owner"); [done|].
  fold (bindable r). destruct (bindable r) eqn:E; [|done]. intros H. constructor; auto.
Qed.

Section Policies.
Context {ENV : Env} {B : Type} (s : Services B).
Implicit Types (w : World B).

Definition policy_op (ctx : Ctx) (op : PolicyOp) : Svc (B := B) unit :=
  match op with
  | PCreate i => let! _ := CreatePolicy s ctx i in ret tt
  | PEnable id b => SetPolicyEnabled s ctx id b
  | PDelete id => DeletePolicy s ctx id
  end.

(** A step that keeps the invariant and leaves the policies of other organizations. *)
Definition policy_step (org : str) (d d' : DB) : Prop :=
  policies_ok d -> policies_ok d' /\ foreign_policies org d' = foreign_policies org d.
#[global] Instance policy_step_preorder org : PreOrder (policy_step org).
Proof.
  split; [by intros d|]. intros d1 d2 d3 H12 H23 H1.
  destruct (H12 H1) as [H2 E2]. destruct (H23 H2) as [H3 E3]. split; [done|congruence].
Qed.
Lemma policy_step_tables org d d' : policy_tables d = policy_tables d' -> policy_step org d d'.
Proof.
  intros [= Hp Hb]. unfold policy_step, policies_ok, foreign_policies. by rewrite Hp, Hb.
Qed.
Lemma step_tick org d n : policy_step org d (set_db_tick n d).
Proof. by apply policy_step_tables. Qed.

Lemma step_bind org id role : bindable role = true -> Guar (policy_step org) (AccountStore.bind_role id role).
Proof.
  intros Hr. apply guar_mapErr, guar_insert; [typeclasses eauto|apply step_tick|].
  intros n d a d' Hok H. bool_prop. destruct (exists_ _ _); injection H as _ <-; [done|].
  intros [Hb Hnd]. split; [|done]. split; [|done]. intros b. cbn. rewrite elem_of_app.
  intros [Hin|Hin]; [by apply Hb|]. by apply list_elem_of_singleton in Hin as ->.
Qed.

Lemma step_create org name tpl cfg roles : Forall (fun r => bindable r = true) roles ->
  Guar (policy_step org) (AccountStore.CreatePolicy org name tpl cfg roles).
Proof.
  intros Hr. unfold AccountStore.CreatePolicy. guar.
  - apply guar_insert; [typeclasses eauto|apply step_tick|].
    intros n d a d' Hok H. injection H as _ <-. bool_prop. intros [Hb Hnd]. split; [split|]; cbn.
    + intros b Hin. destruct (Hb b Hin) as [? Hp]. split; [done|].
      apply exists_spec in Hp as (p & Hin2 & Hp). apply exists_spec. exists p. set_solver.
    + rewrite map_app. apply NoDup_app. split; [done|]. split; [|apply NoDup_singleton].
      intros x Hx ->%list_elem_of_singleton. apply list_elem_of_fmap in Hx as (p & Hp & Hin).
      unfold Store.has_id in H. rewrite exists_false in H. specialize (H p Hin). cbv beta in H.
      cbn in Hp. by rewrite <-Hp, eqb_refl_str in H.
    + unfold foreign_policies. cbn. rewrite where_app. cbn. rewrite eqb_refl_str. cbn. by rewrite app_nil_r.
  - apply step_bind. rewrite Forall_forall in Hr. by apply Hr.
Qed.

Lemma step_enable org id b : Guar (policy_step org) (AccountStore.SetPolicyEnabled org id b).
Proof.
  apply guar_mapErr, guar_affecting; [typeclasses eauto|apply step_tick|].
  intros n d _ [Hb Hnd]. unfold policies_ok, foreign_policies. cbn. unfold upd_rows.
  split; [split|].
  - intros x Hin. destruct (Hb x Hin) as [? Hp]. split; [done|].
    apply exists_spec in Hp as (p & Hin2 & Hp). apply exists_spec.
    eexists. split; [apply list_elem_of_fmap; by exists p|]. by destruct (AccountStore.org_policy _ _ _).
  - rewrite map_map. erewrite map_ext; [exact Hnd|]. intros p. by destruct (AccountStore.org_policy _ _ _).
  - clear. induction (policies d) as [|p l IH]; [done|]. cbn.
    destruct (AccountStore.org_policy org id p) eqn:E; cbn; rewrite ?IH.
    + unfold AccountStore.org_policy in E. bool_prop. by rewrite H0, eqb_refl_str.
    + done.
Qed.

Lemma step_delete org id : Guar (policy_step org) (AccountStore.DeletePolicy org id).
Proof.
  apply guar_mapErr, guar_affecting; [typeclasses eauto|apply step_tick|].
  intros n d _ [Hb Hnd]. unfold policies_ok, foreign_policies. cbn. unfold del_rows.
  split; [split|].
  - intros x [Hin Hx]%where_elem. destruct (Hb x Hin) as [? Hp]. split; [done|].
    apply exists_spec in Hp as (p & Hin2 & Hp). apply exists_spec. exists p. split; [|done].
    apply where_elem. split; [done|]. bool_prop. apply negb_true_iff, andb_false_iff. left.
    apply eqb_false_str. congruence.
  - by apply NoDup_map_where.
  - rewrite where_where. apply where_ext. intros p _. unfold AccountStore.org_policy.
    destruct (pol_OrgID p =s org); [by rewrite andb_false_l|]. by rewrite andb_false_r.
Qed.

Lemma step_db {A} org (m : M DB DBErr A) : Guar (policy_step org) m ->
  Guar (fun w w' : World B => policy_step org (w_db w) (w_db w')) (db m).
Proof. intros Hm. apply guar_zoom. intros w r d H. cbn. by eapply Hm. Qed.
Lemma step_quiet {E A} org (m : M (World B) E A) : Guar (view policy_tables) m ->
  Guar (fun w w' : World B => policy_step org (w_db w) (w_db w')) m.
Proof. intros Hm w r w' H. apply policy_step_tables. exact (Hm _ _ _ H). Qed.
Lemma view_policyActor {V} (v : DB -> V) ctx : Guar (view v) (policyActor (B := B) ctx).
Proof. unfold policyActor. guar. Qed.
#[local] Instance world_step_preorder org :
  PreOrder (fun w w' : World B => policy_step org (w_db w) (w_db w')).
Proof.
  split; [intros w; reflexivity|]. intros w1 w2 w3 H12 H23.
  exact (transitivity (R := policy_step org) H12 H23).
Qed.

Lemma policy_op_step ctx op :
  Guar (fun w w' => policy_step (tc_OrgID (tenant s ctx)) (w_db w) (w_db w')) (policy_op ctx op).
Proof.
  destruct op as [i|id b|id]; unfold policy_op, CreatePolicy, SetPolicyEnabled, DeletePolicy;
    [destruct (check_roles (cp_Roles i)) eqn:Er|..]; guar;
    try (apply step_quiet; first [apply view_policyActor | apply view_audit; typeclasses eauto]).
  - apply step_db, step_create, check_roles_none, Er.
  - apply step_db, step_enable.
  - apply step_db, step_delete.
Qed.

(** C26: Policies cannot lock an owner out and stay within the organization.  Every
    call of the policy API keeps the bindings to the roles admin, member and viewer of
    existing policies, whichever statements fail, also half-way through a creation;
    it leaves the policies of every other organization as they were; and what the
    authorizer then reads for enforcement never names the owner role. *)
Theorem policies_spare_owners ctx op w r w' org' ps w2 :
  policies_ok (w_db w) -> policy_op ctx op w = (r, w') ->
  policies_ok (w_db w') /\
  foreign_policies (tc_OrgID (tenant s ctx)) (w_db w') =
    foreign_policies (tc_OrgID (tenant s ctx)) (w_db w) /\
  (db (AccountStore.EnabledPoliciesForAuthz org') w' = (inr ps, w2) ->
     forall p, p ∈ ps -> "owner" ∉ AccountStore.ap_Roles p).
Proof.
  intros Hok H. destruct (policy_op_step ctx op w r w' H Hok) as [Hok' Hf].
  split; [done|]. split; [done|]. intros Hps p Hp Ho.
  apply db_inv in Hps as (d & Hps & _). unfold AccountStore.EnabledPoliciesForAuthz in Hps.
  apply bind_inr in Hps as (rows & d1 & Hl & Hps). unfold ret in Hps. injection Hps as <- _.
  unfold AccountStore.ListPolicies, pg_only in Hl. apply mapErr_inr in Hl.
  destruct env_driver; [|by apply stmt_inr in Hl as [_ Hl]].
  apply query_inr in Hl as [_ ->]. apply list_elem_of_fmap in Hp as (row & -> & Hp).
  apply where_elem in Hp as [Hp _]. apply list_elem_of_fmap in Hp as (x & -> & _). cbn in Ho.
  apply list_elem_of_fmap in Ho as (b & Hb & Hin). apply where_elem in Hin as [Hin _].
  destruct Hok' as [Hb' _]. destruct (Hb' b Hin) as [Hr _]. by rewrite <-Hb in Hr.
Qed.
End Policies.

Definition read_only_input : CreatePolicyInput := mkCreatePolicyInput "freeze" "read_only" ∅ ["member"; "viewer"].
Lemma policies_spare_owners_witness :
  let out := @policy_op ex_env _ ex_services ctx_alice (PCreate read_only_input) ex_world in
  failed (fst out) = false /\ policies_ok (w_db (snd out)).
Proof.
  intros out. split; [vm_compute; reflexivity|].
  destruct (policies_spare_owners (ENV := ex_env) ex_services ctx_alice (PCreate read_only_input)
    ex_world (fst out) (snd out) "o1" [] (snd out)) as [H _]; [|exact (surjective_pairing _)|exact H].
  split; [|constructor]. intros b Hb. vm_compute in Hb. by apply not_elem_of_nil in Hb.
Defined.

(** * Branding *)

(** One row per organization, and no two organizations with the same domain. *)
Definition domains_ok (d : DB) : Prop :=
  NoDup (map br_OrgID (org_branding d)) /\
  forall b1 b2, b1 ∈ org_branding d -> b2 ∈ org_branding d ->
    AccountStore.has_domain (br_CustomDomain b1) b2 = true -> br_CustomDomain b1 <> "" ->
    br_OrgID b1 = br_OrgID b2.

Section Branding.
Context {ENV : Env} {B : Type} (s : Services B).
Implicit Types (w : World B).

(** The table after an upsert. *)
Definition upserted (b : Branding) (l : list Branding) : list Branding :=
  if Store.has_id br_OrgID (br_OrgID b) l
  then upd_rows (fun r => br_OrgID r =s br_OrgID b) (fun _ => b) l else (l ++ [b])%list.

Lemma upserted_elem b l x : x ∈ upserted b l -> x = b \/ (x ∈ l /\ br_OrgID x <> br_OrgID b).
Proof.
  unfold upserted. destruct (Store.has_id _ _ _) eqn:E.
  - unfold upd_rows. intros (r & -> & Hr)%list_elem_of_fmap.
    destruct (br_OrgID r =s br_OrgID b) eqn:Er; [by left|right]. by apply eqb_false_str in Er.
  - unfold Store.has_id in E. rewrite exists_false in E.
    intros [Hx|Hx]%elem_of_app; [right|left; by apply list_elem_of_singleton].
    split; [done|]. apply eqb_false_str, (E x Hx).
Qed.
Lemma upserted_in b l : b ∈ upserted b l.
Proof.
  unfold upserted. destruct (Store.has_id _ _ _) eqn:E; [|set_solver].
  apply exists_spec in E as (r & Hr & Er). apply list_elem_of_fmap. exists r. by rewrite Er.
Qed.
Lemma upserted_nodup b l : NoDup (map br_OrgID l) -> NoDup (map br_OrgID (upserted b l)).
Proof.
  intros Hnd. unfold upserted. destruct (Store.has_id _ _ _) eqn:E.
  - unfold upd_rows. rewrite map_map. erewrite map_ext; [exact Hnd|].
    intros r. cbv beta. destruct (br_OrgID r =s br_OrgID b) eqn:Er; [|done]. by apply eqb_true_str in Er.
  - rewrite map_app. apply NoDup_app. split; [done|]. split; [|apply NoDup_singleton].
    intros x Hx ->%list_elem_of_singleton. apply list_elem_of_fmap in Hx as (r & Hr & Hin).
    unfold Store.has_id in E. rewrite exists_false in E. specialize (E r Hin). cbv beta in E.
    by rewrite <-Hr, eqb_refl_str in E.
Qed.

(** Two domains that agree up to case, either way round. *)
Lemma has_domain_sym b r : br_CustomDomain b <> "" ->
  AccountStore.has_domain (br_CustomDomain b) r = true ->
  AccountStore.has_domain (br_CustomDomain r) b = true.
Proof.
  unfold AccountStore.has_domain. intros Hb H. bool_prop. apply andb_true_iff. split.
  - by apply negb_true_iff, eqb_false_str.
  - apply eqb_true_str. congruence.
Qed.

Lemma upserted_ok b d : exists_ (AccountStore.other_domain b) (org_branding d) = false ->
  domains_ok d -> domains_ok (set_org_branding (upserted b (org_branding d)) d).
Proof.
  intros Hno [Hnd Hu]. split; [by apply upserted_nodup|]. cbn.
  assert (forall r, r ∈ org_branding d -> br_OrgID r <> br_OrgID b ->
    AccountStore.has_domain (br_CustomDomain b) r = false) as Hfree.
  { intros r Hr Hne. rewrite exists_false in Hno. specialize (Hno r Hr).
    unfold AccountStore.other_domain in Hno. apply eqb_false_str in Hne. by rewrite Hne in Hno. }
  intros b1 b2 [->|[H1 N1]]%upserted_elem [->|[H2 N2]]%upserted_elem Hd Hne; [done|..|by apply Hu].
  - by rewrite Hfree in Hd.
  - destruct (decide (br_CustomDomain b = "")) as [E|E].
    + unfold AccountStore.has_domain in Hd. rewrite E in Hd. done.
    + apply has_domain_sym in Hd; [|done]. by rewrite Hfree in Hd.
Qed.

Lemma UpsertBranding_run b d r d' : AccountStore.UpsertBranding b d = (r, d') ->
  (org_branding d' = org_branding d \/
   exists_ (AccountStore.other_domain b) (org_branding d) = false /\
   org_branding d' = upserted b (org_branding d)) /\
  (r = inr tt -> org_branding d' = upserted b (org_branding d) /\
     exists_ (AccountStore.other_domain b) (org_branding d) = false).
Proof.
  unfold AccountStore.UpsertBranding. intros H. destruct r as [e|[]].
  - apply mapErr_inl in H as (e0 & H & _). apply stmt_inl in H as ->. split; [by left|done].
  - apply mapErr_inr, insert_inr in H as [Hok H]. injection H as <-. bool_prop. cbn.
    split; [right|]; done.
Qed.

Definition branding_of (ctx : Ctx) (i : BrandingDTO) : Branding :=
  mkBranding (tc_OrgID (tenant s ctx)) (bd_DisplayName i) (bd_LogoURL i) (bd_PrimaryColor i)
    (bd_EmailFrom i) (normalizeHost (bd_CustomDomain i)).

Lemma view_claimGuard org dom : Guar (view org_branding) (claimGuard (B := B) org dom).
Proof. unfold claimGuard, AccountStore.GetBrandingByDomain. frames. Qed.

Lemma SetBranding_run ctx i w r w' : SetBranding s ctx i w = (r, w') ->
  let b := branding_of ctx i in let rows := org_branding (w_db w) in
  (org_branding (w_db w') = rows /\ exists e, r = inl e) \/
  (exists_ (AccountStore.other_domain b) rows = false /\ org_branding (w_db w') = upserted b rows).
Proof.
  intros H b rows. unfold SetBranding in H. rewrite bind_run in H.
  destruct (policyActor ctx w) as [r1 w1] eqn:H1. apply (view_policyActor org_branding) in H1.
  destruct r1 as [e|[]]; [injection H as <- <-; left; split; [done|by eexists]|].
  rewrite bind_run in H. destruct (claimGuard _ _ w1) as [r2 w2] eqn:H2.
  apply view_claimGuard in H2. unfold view, same in H1, H2. subst rows.
  destruct r2 as [e|[]]; [injection H as <- <-; left; split; [congruence|by eexists]|].
  rewrite bind_run in H. destruct (mapErr _ _ w2) as [r3 w3] eqn:H3.
  destruct r3 as [e|[]].
  - injection H as <- <-. apply mapErr_inl in H3 as (e0 & H3 & _). apply db_inv in H3 as (d3 & H3 & ->).
    left. split; [|by eexists]. unfold AccountStore.UpsertBranding in H3.
    apply mapErr_inl in H3 as (e1 & H3 & _). apply stmt_inl in H3 as ->. cbn. congruence.
  - apply mapErr_inr, db_inv in H3 as (d3 & H3 & ->). apply UpsertBranding_run in H3 as [_ H3].
    destruct (H3 eq_refl) as [Hd Hno]. apply (view_audit s org_branding) in H. unfold view, same in H.
    cbn in H. rewrite <-H2, <-H1 in Hd, Hno. right. split; [done|].
    by rewrite <-H.
Qed.

(** The one row of a domain. *)
Lemma head_domain (b : Branding) d : domains_ok d -> b ∈ org_branding d -> br_CustomDomain b <> "" ->
  head (where_ (AccountStore.has_domain (br_CustomDomain b)) (org_branding d)) = Some b.
Proof.
  intros [Hnd Hu] Hb Hne.
  assert (b ∈ where_ (AccountStore.has_domain (br_CustomDomain b)) (org_branding d)) as Hin.
  { apply where_elem. split; [done|]. unfold AccountStore.has_domain. apply andb_true_iff.
    split; [by apply negb_true_iff, eqb_false_str|by apply eqb_true_str]. }
  destruct (where_ _ _) as [|x l] eqn:E; [set_solver|]. cbn. f_equal.
  assert (x ∈ where_ (AccountStore.has_domain (br_CustomDomain b)) (org_branding d)) as Hx
    by (rewrite E; set_solver). apply where_elem in Hx as [Hx Hd].
  eapply (NoDup_map_eq br_OrgID); [done..|]. symmetry. by eapply Hu.
Qed.

(** C27: A custom domain belongs to at most one organization, and serves its
    branding.  Every [SetBranding] keeps the domains of different organizations
    apart, whichever statements fail; after a successful one, with a working
    database, a request for that host (in any case, with or without a port) is
    answered with exactly the stored branding and the domain is allowed a
    certificate, and no other organization can claim it. *)
Theorem branding_roundtrip ctx i w r w' :
  domains_ok (w_db w) -> SetBranding s ctx i w = (r, w') ->
  domains_ok (w_db w') /\
  (r = inr tt -> reliable -> forall host,
     normalizeHost host = normalizeHost (bd_CustomDomain i) -> normalizeHost host <> "" ->
     fst (BrandingForHost host w') =
       inr (mkBrandingDTO (bd_DisplayName i) (bd_LogoURL i) (bd_PrimaryColor i) (bd_EmailFrom i)
              (normalizeHost host)) /\
     fst (DomainAllowed host w') = inr true /\
     forall ctx2 i2, tc_OrgID (tenant s ctx2) <> tc_OrgID (tenant s ctx) ->
       normalizeHost (bd_CustomDomain i2) = normalizeHost host ->
       exists e, fst (SetBranding s ctx2 i2 w') = inl e).
Proof.
  intros Hok H. apply SetBranding_run in H as [[Hs (e & ->)]|[Hno Hs]].
  { split; [|done]. unfold domains_ok. by rewrite Hs. }
  assert (domains_ok (w_db w')) as Hok'.
  { pose proof (upserted_ok _ _ Hno Hok) as Hu. unfold domains_ok in *. by rewrite Hs. }
  split; [done|]. intros _ Hrel host Hh Hne. set (b := branding_of ctx i) in *.
  assert (b ∈ org_branding (w_db w')) as Hb by (rewrite Hs; apply upserted_in).
  assert (br_CustomDomain b <> "") as Hbd by (unfold b; cbn; congruence).
  pose proof (head_domain b (w_db w') Hok' Hb Hbd) as Hd.
  assert (br_CustomDomain b = normalizeHost host) as Hbh by (by unfold b).
  apply eqb_false_str in Hne. split_and!.
  - unfold BrandingForHost. rewrite Hne. unfold or_no_branding. rewrite bind_run, attempt_run.
    unfold db, zoom, AccountStore.GetBrandingByDomain, mapErr, query_row, stmt. rewrite Hrel. cbn.
    rewrite <-Hbh, Hd. done.
  - unfold DomainAllowed. rewrite Hne, bind_run, attempt_run.
    unfold db, zoom, AccountStore.DomainRegistered, mapErr, query, stmt. rewrite Hrel. cbn.
    rewrite <-Hbh. by destruct (where_ _ _).
  - intros ctx2 i2 Ho Hh2. destruct (SetBranding s ctx2 i2 w') as [[e|[]] w2] eqn:E; [by eexists|].
    exfalso. apply SetBranding_run in E as [[_ [e He]]|[Hno2 _]]; [done|].
    rewrite exists_false in Hno2. specialize (Hno2 b Hb). revert Hno2.
    unfold AccountStore.other_domain, AccountStore.has_domain. cbn.
    rewrite Hh2, <-Hh, Hne, eqb_refl_str. apply not_eq_sym, eqb_false_str in Ho. by rewrite Ho.
Qed.
End Branding.

Definition ex_branding : BrandingDTO := mkBrandingDTO "Acme" "" "#123456" "" "Files.Acme.example".
Lemma branding_roundtrip_witness :
  let out := @SetBranding ex_env _ ex_services ctx_alice ex_branding ex_world in
  fst out = inr tt /\
  fst (@BrandingForHost ex_env _ "files.acme.EXAMPLE:443" (snd out)) =
    inr (mkBrandingDTO "Acme" "" "#123456" "" "files.acme.example").
Proof.
  intros out. assert (fst out = inr tt) as Ho by (vm_compute; reflexivity). split; [exact Ho|].
  destruct (branding_roundtrip (ENV := ex_env) ex_services ctx_alice ex_branding ex_world
    (fst out) (snd out)) as [_ H].
  - split; [constructor|]. intros b1 b2 Hb. by apply not_elem_of_nil in Hb.
  - exact (surjective_pairing _).
  - apply (H Ho (fun _ => eq_refl) "files.acme.EXAMPLE:443"); vm_compute; [reflexivity|discriminate].
Defined.
