(* ===== verification/BackupProofs.v ===== *)
(** Backups: the scheduler runs what is due and moves it on, retention spares the
    newest files, and the drift report is the difference of the two bucket sets. *)
From S2P Require Import Prelude GoStrings Storage MemStore Database Repository JobStore AuditLog Service Frames Example MemberProofs TenantProofs Backups.
#[local] Open Scope string_scope.
Import Backups.

(** * What a run may do to the job table *)

Section Edits.
Context {ENV : Env} {B : Type} (s : Services B).
Implicit Types (w : World B).

(** The rows of job [id] were rewritten, keeping [keep] of them; nothing else of
    the tables the scheduler reads changed, and the statement counter went on. *)
Definition edits {X} (keep : BackupJob -> X) (id : str) (d d' : DB) : Prop :=
  (exists g, (forall j, keep (g j) = keep j) /\
     backup_jobs d' = upd_rows (fun j => bj_ID j =s id) g (backup_jobs d)) /\
  backup_schedules d' = backup_schedules d /\ orgs d' = orgs d /\ db_tick d <= db_tick d'.

(** Who a job is; what is left of a job once it is closed. *)
Definition job_key (j : BackupJob) := (bj_ID j, bj_OrgID j, bj_ScheduleID j).
Definition closed_key (j : BackupJob) := (bj_ID j, bj_OrgID j, bj_ScheduleID j, bj_Status j).

Class Keeps {X} (keep : BackupJob -> X) : Prop := keeps_id j j' : keep j = keep j' -> bj_ID j = bj_ID j'.
#[global] Instance keeps_job_key : Keeps job_key.
Proof. intros j j' H. by injection H. Qed.
#[global] Instance keeps_closed_key : Keeps closed_key.
Proof. intros j j' H. by injection H. Qed.

Lemma upd_rows_id {A} (p : A -> bool) (l : list A) : upd_rows p (fun x => x) l = l.
Proof. unfold upd_rows. induction l as [|x l IH]; [done|]. cbn. rewrite IH. by destruct (p x). Qed.

#[global] Instance edits_preorder {X} (keep : BackupJob -> X) `{!Keeps keep} id : PreOrder (edits keep id).
Proof.
  split.
  - intros d. split; [|done]. exists (fun j => j). split; [done|]. by rewrite upd_rows_id.
  - intros d1 d2 d3 ((g & Hg & Hj) & Hs & Ho & Ht) ((g' & Hg' & Hj') & Hs' & Ho' & Ht').
    split; [|split_and!; [congruence..|lia]]. exists (fun j => g' (g j)).
    split; [intros j; by rewrite Hg', Hg|]. rewrite Hj', Hj. unfold upd_rows. rewrite map_map.
    apply map_ext. intros j. destruct (bj_ID j =s id) eqn:E; [|by rewrite E].
    by rewrite (keeps_id (g j) j), E.
Qed.

Lemma edits_stmt {X A} (keep : BackupJob -> X) `{!Keeps keep} id (f : nat -> DB -> DBErr + (A * DB)) :
  (forall n d a d', f n d = inr (a, d') -> edits keep id d d') -> Guar (edits keep id) (stmt f).
Proof.
  intros Hf d r d' H.
  assert (edits keep id d (set_db_tick (S (db_tick d)) d)) as Ht.
  { split; [|split_and!; [done..|cbn; lia]]. exists (fun j => j). split; [done|]. by rewrite upd_rows_id. }
  destruct r as [e|a].
  - by apply stmt_inl in H as ->.
  - apply stmt_inr in H as [_ H]. etrans; [exact Ht|]. by eapply Hf.
Qed.
Lemma edits_query_row {X A} (keep : BackupJob -> X) `{!Keeps keep} id (f : nat -> DB -> option A) :
  Guar (edits keep id) (query_row f).
Proof. apply edits_stmt; [done|]. intros n d a d' H. destruct (f n d); by simplify_eq. Qed.
Lemma edits_update {X} (keep : BackupJob -> X) `{!Keeps keep} id (g : nat -> BackupJob -> BackupJob) :
  (forall n j, keep (g n j) = keep j) ->
  Guar (edits keep id) (exec (fun n => JobStore.update_backup id (g n))).
Proof.
  intros Hg. apply edits_stmt; [done|]. intros n d a d' [= <- <-]. split; [|done].
  exists (g n). by split.
Qed.

Definition world_edits {X} (keep : BackupJob -> X) id w w' : Prop := edits keep id (w_db w) (w_db w').
#[global] Instance world_edits_preorder {X} (keep : BackupJob -> X) `{!Keeps keep} id :
  PreOrder (world_edits keep id).
Proof.
  split; [intros w; unfold world_edits; reflexivity|]. intros w1 w2 w3 H12 H23.
  unfold world_edits in *. by etrans.
Qed.
Lemma edits_db {X A} (keep : BackupJob -> X) id (m : M DB DBErr A) :
  Guar (edits keep id) m -> Guar (world_edits keep id) (db m).
Proof. intros Hm. apply guar_zoom. intros w r d H. by eapply Hm. Qed.
Lemma edits_ask {X A} (keep : BackupJob -> X) `{!Keeps keep} id (f : nat -> A) :
  Guar (world_edits keep id) (ask (B := B) f).
Proof. unfold ask. guar. Qed.
Lemma edits_fx {X E} (keep : BackupJob -> X) `{!Keeps keep} id e :
  Guar (world_edits keep id) (fx (B := B) (E := E) e).
Proof. intros w r w' H. unfold fx, modify in H. simplify_eq. unfold world_edits. cbn. reflexivity. Qed.
Lemma edits_now {X E} (keep : BackupJob -> X) `{!Keeps keep} id :
  Guar (world_edits keep id) (now (B := B) (E := E)).
Proof. intros w r w' H. unfold now in H. by simplify_eq. Qed.

(** ** A backup is closed when it returns *)

Lemma ignore_run {E E' A} (m : M (World B) E A) w : ignore (E' := E') m w = (inr tt, snd (m w)).
Proof. unfold ignore. rewrite bind_run, attempt_run. by destruct (m w). Qed.
Lemma bind_inr_run {E A C} (m : M (World B) E A) (k : A -> M (World B) E C) w a w1 :
  m w = (inr a, w1) -> bind m k w = k a w1.
Proof. intros H. by rewrite bind_run, H. Qed.

Definition closing (st : str) : Prop := st = "failed" \/ st = "succeeded".

(** [m] ends with the call that closes job [id]. *)
Definition closes (id : str) (m : Svc (B := B) unit) : Prop :=
  forall w, exists w1 st path sz e, world_edits job_key id w w1 /\
    m w = finish id st path sz e w1 /\ closing st.

Lemma closes_finish id st path sz e : closing st -> closes id (finish id st path sz e).
Proof. intros Hst w. exists w, st, path, sz, e. by split. Qed.
Lemma closes_bind {A} id (m : Svc A) k :
  Guar (world_edits job_key id) m -> (forall w, exists a w1, m w = (inr a, w1)) ->
  (forall a, closes id (k a)) -> closes id (bind m k).
Proof.
  intros Hm Hok Hk w. destruct (Hok w) as (a & w1 & H). rewrite (bind_inr_run _ _ _ _ _ H).
  destruct (Hk a w1) as (w2 & st & path & sz & e & He & Hf & Hst).
  exists w2, st, path, sz, e. split; [|done]. etrans; [by eapply Hm|done].
Qed.

Lemma ask_ok {A} (f : nat -> A) w : exists a w1, ask (B := B) f w = (inr a, w1).
Proof. unfold ask. by eexists _, _. Qed.
Lemma closes_dump id path : closes id (dump s id path).
Proof.
  unfold dump. apply closes_bind; [apply edits_ask, _|apply ask_ok|]. intros [err|].
  - apply closes_finish. by left.
  - apply closes_bind; [apply edits_fx, _|intros w; by eexists _, _|]. intros _.
    apply closes_bind; [apply edits_ask, _|apply ask_ok|]. intros sz.
    apply closes_finish. by right.
Qed.
Lemma closes_runBackup id : closes id (runBackup s id).
Proof.
  unfold runBackup. apply closes_bind.
  { unfold ignore. guar. apply edits_db, edits_update; [apply _|done]. }
  { intros w. rewrite ignore_run. by eexists _, _. }
  intros _. apply closes_bind; [apply edits_ask, _|apply ask_ok|]. intros [err|].
  { apply closes_finish. by left. }
  apply closes_bind; [apply edits_now, _|intros w; by eexists _, _|]. intros t. cbv zeta.
  destruct env_driver; [|apply closes_dump].
  destruct (host_ParseURL _ _); [apply closes_finish; by left|apply closes_dump].
Qed.

Lemma finish_run id st path sz e w : reliable -> exists w' g, finish id st path sz e w = (inr tt, w') /\
  (forall j, job_key (g j) = job_key j /\ bj_Status (g j) = st) /\
  backup_jobs (w_db w') = upd_rows (fun j => bj_ID j =s id) g (backup_jobs (w_db w)) /\
  backup_schedules (w_db w') = backup_schedules (w_db w) /\ orgs (w_db w') = orgs (w_db w) /\
  db_tick (w_db w) <= db_tick (w_db w').
Proof.
  intros Hrel. unfold finish. rewrite ignore_run. eexists _, _. split; [reflexivity|].
  unfold db, zoom, JobStore.FinishBackupJob, mapErr, exec, stmt. rewrite Hrel. cbn.
  split; [|split_and!; [reflexivity|done|done|lia]]. by intros j.
Qed.

(** ** The steps after the backup *)

Definition total {A} (m : Svc (B := B) A) : Prop := forall w, exists a w', m w = (inr a, w').
Lemma total_ignore {E A} (m : M (World B) E A) : total (ignore m).
Proof. intros w. rewrite ignore_run. by eexists _, _. Qed.
Lemma total_ret {A} (a : A) : total (ret a).
Proof. intros w. by eexists _, _. Qed.
Lemma total_bind {A C} (m : Svc A) (k : A -> Svc C) : total m -> (forall a, total (k a)) -> total (bind m k).
Proof.
  intros Hm Hk w. destruct (Hm w) as (a & w1 & H). rewrite (bind_inr_run _ _ _ _ _ H). apply Hk.
Qed.
Lemma total_attempt {E A} (m : M (World B) E A) : total (attempt m).
Proof. intros w. rewrite attempt_run. destruct (m w). by eexists _, _. Qed.
Lemma total_forM {A} (l : list A) (f : A -> Svc unit) : (forall x, total (f x)) -> total (forM_ l f).
Proof. intros Hf. induction l as [|x l IH]; [apply total_ret|]. by apply total_bind. Qed.

Lemma offsiteCopy_edits id : Guar (world_edits closed_key id) (offsiteCopy s id).
Proof.
  unfold offsiteCopy, ignore. guar; try apply edits_ask, _.
  - apply edits_db, guar_mapErr, edits_query_row, _.
  - apply edits_db, (edits_update closed_key id (fun _ => _)). done.
Qed.
Lemma offsiteCopy_total id : total (offsiteCopy s id).
Proof.
  unfold offsiteCopy. destruct (negb _); [apply total_ret|]. apply total_bind; [apply total_attempt|].
  intros [e|j]; [apply total_ret|]. destruct (_ || _); [apply total_ret|].
  apply total_bind; [intros w; apply ask_ok|]. intros []; [|apply total_ret].
  apply total_bind; [intros w; apply ask_ok|]. intros []; [apply total_ignore|apply total_ret].
Qed.
Lemma pruneBackups_edits id org keep : Guar (world_edits closed_key id) (pruneBackups org keep).
Proof.
  unfold pruneBackups. guar; [|apply edits_fx, _]. apply edits_db, guar_mapErr.
  unfold pg_only. destruct env_driver; (apply edits_stmt; [apply _|]); intros n d a d' H; by simplify_eq.
Qed.
Lemma pruneBackups_total org keep : total (pruneBackups org keep).
Proof.
  unfold pruneBackups. apply total_bind; [apply total_attempt|]. intros [e|l]; [apply total_ret|].
  apply total_forM. intros p w. by eexists _, _.
Qed.

(** What [MarkScheduleRan] writes. *)
Definition mark_ran (t interval : Z) (b : BackupSchedule) : BackupSchedule :=
  set_bs_LastRunAt (Some t) (set_bs_NextRunAt (t + JobStore.make_interval interval) b).

Lemma MarkScheduleRan_run id interval w : reliable -> env_driver = Postgres ->
  exists w', ignore (E' := Error) (db (JobStore.MarkScheduleRan id interval)) w = (inr tt, w') /\
    backup_jobs (w_db w') = backup_jobs (w_db w) /\ orgs (w_db w') = orgs (w_db w) /\
    db_tick (w_db w) <= db_tick (w_db w') /\
    backup_schedules (w_db w') =
      upd_rows (fun b => bs_ID b =s id) (mark_ran (env_now (db_tick (w_db w))) interval)
        (backup_schedules (w_db w)).
Proof.
  intros Hrel Hpg. rewrite ignore_run. eexists. split; [reflexivity|].
  unfold db, zoom, JobStore.MarkScheduleRan, pg_only, exec, stmt. rewrite Hpg, Hrel. cbn.
  split_and!; [done..|lia|done].
Qed.

Lemma upd_last {A} (key : A -> str) id (g : A -> A) (l : list A) x :
  Store.has_id key id l = false -> key x = id ->
  upd_rows (fun j => key j =s id) g (l ++ [x]) = (l ++ [g x])%list.
Proof.
  intros Hno Hx. unfold upd_rows. rewrite map_app. cbn. rewrite Hx, eqb_refl_str. f_equal.
  unfold Store.has_id in Hno. rewrite exists_false in Hno.
  induction l as [|y l IH]; [done|]. cbn. rewrite Hno by set_solver. f_equal. apply IH. set_solver.
Qed.

(** The outcome of one due schedule. *)
Definition ran_schedule (sc : BackupSchedule) (d d' : DB) : Prop :=
  exists j k, backup_jobs d' = (backup_jobs d ++ [j])%list /\ bj_ID j = env_uuid (db_tick d) /\
    bj_ScheduleID j = bs_ID sc /\ closing (bj_Status j) /\ db_tick d <= k /\
    backup_schedules d' = upd_rows (fun b => bs_ID b =s bs_ID sc)
      (mark_ran (env_now k) (bs_IntervalMinutes sc)) (backup_schedules d) /\
    orgs d' = orgs d /\ db_tick d < db_tick d'.

Lemma create_run org sid d : reliable ->
  Store.has_id bj_ID (env_uuid (db_tick d)) (backup_jobs d) = false ->
  Store.opt_ref org_ID org (Store.all_rows (orgs d)) = true ->
  Store.opt_ref bs_ID sid (backup_schedules d) = true ->
  JobStore.CreateBackupJobForSchedule org sid d =
  (inr (env_uuid (db_tick d)), set_backup_jobs (backup_jobs d ++
     [mkBackupJob (env_uuid (db_tick d)) org "metadata" "pending" "" 0 "" None None
        (env_now (db_tick d)) sid ""]) (set_db_tick (S (db_tick d)) d)).
Proof.
  intros Hrel H1 H2 H3. unfold JobStore.CreateBackupJobForSchedule, JobStore.insert_backup, mapErr, insert, stmt.
  rewrite Hrel. cbn [backup_jobs backup_schedules orgs set_db_tick]. by rewrite H1, H2, H3.
Qed.

Lemma runSchedule_runs sc w : reliable -> env_driver = Postgres ->
  Store.has_id bj_ID (env_uuid (db_tick (w_db w))) (backup_jobs (w_db w)) = false ->
  Store.opt_ref org_ID (bs_OrgID sc) (Store.all_rows (orgs (w_db w))) = true ->
  Store.opt_ref bs_ID (bs_ID sc) (backup_schedules (w_db w)) = true ->
  exists w', runSchedule s sc w = (inr tt, w') /\ ran_schedule sc (w_db w) (w_db w').
Proof.
  intros Hrel Hpg Hfresh Horg Hsc. unfold runSchedule. rewrite bind_run, attempt_run.
  unfold db at 1, zoom. rewrite create_run by done.
  set (id := env_uuid (db_tick (w_db w))) in *. set (j0 := mkBackupJob _ _ _ _ _ _ _ _ _ _ _ _).
  set (w1 := set_w_db _ w).
  destruct (closes_runBackup id w1) as (w2 & st & path & sz & e & He2 & Hrun & Hst).
  destruct (finish_run id st path sz e w2 Hrel) as (w3 & g3 & Hf & Hg3 & Hj3 & Hs3 & Ho3 & Ht3).
  rewrite Hf in Hrun. rewrite (bind_inr_run _ _ _ _ _ Hrun).
  assert (exists w4, (if bs_OffsiteEnabled sc then offsiteCopy s id else ret tt) w3 = (inr tt, w4) /\
    world_edits closed_key id w3 w4) as (w4 & H4 & He4).
  { destruct (bs_OffsiteEnabled sc); [|by eexists]. destruct (offsiteCopy_total id w3) as ([] & w4 & H4).
    exists w4. split; [done|]. by eapply offsiteCopy_edits. }
  rewrite (bind_inr_run _ _ _ _ _ H4).
  destruct (MarkScheduleRan_run (bs_ID sc) (bs_IntervalMinutes sc) w4 Hrel Hpg)
    as (w5 & H5 & Hj5 & Ho5 & Ht5 & Hs5).
  rewrite (bind_inr_run _ _ _ _ _ H5).
  destruct (pruneBackups_total (bs_OrgID sc) (bs_RetentionCount sc) w5) as ([] & w6 & H6).
  exists w6. split; [done|]. apply (pruneBackups_edits id) in H6.
  destruct He2 as ((g2 & Hg2 & Hj2) & Hs2 & Ho2 & Ht2).
  destruct He4 as ((g4 & Hg4 & Hj4) & Hs4 & Ho4 & Ht4).
  destruct H6 as ((g6 & Hg6 & Hj6) & Hs6 & Ho6 & Ht6).
  change (backup_jobs (w_db w1)) with (backup_jobs (w_db w) ++ [j0])%list in Hj2.
  rewrite (upd_last bj_ID) in Hj2 by done.
  injection (Hg2 j0) as K2 _ S2. destruct (Hg3 (g2 j0)) as [K3 T3]. injection K3 as K3 _ S3.
  injection (Hg4 (g3 (g2 j0))) as K4 _ S4 T4. injection (Hg6 (g4 (g3 (g2 j0)))) as K6 _ S6 T6.
  rewrite Hj2, (upd_last bj_ID) in Hj3 by done.
  rewrite Hj3, (upd_last bj_ID) in Hj4 by (done || congruence).
  rewrite Hj5, Hj4, (upd_last bj_ID) in Hj6 by (done || congruence).
  exists (g6 (g4 (g3 (g2 j0)))), (db_tick (w_db w4)). cbn in Hs2, Ho2, Ht2.
  assert (bj_ID j0 = id /\ bj_ScheduleID j0 = bs_ID sc) as [K0 S0] by done.
  split; [done|]. split; [by rewrite K6, K4, K3, K2|].
  split; [by rewrite S6, S4, S3, S2|].
  split; [by rewrite T6, T4, T3|]. split; [lia|]. split; [|split; [congruence|lia]].
  by rewrite Hs6, Hs5, Hs4, Hs3, Hs2.
Qed.

(** ** A tick of the scheduler *)

(** Ids come from the generator: every job has one drawn before. *)
Definition ids_past (d : DB) : Prop :=
  forall j, j ∈ backup_jobs d -> exists k, k < db_tick d /\ bj_ID j = env_uuid k.
(** The keys of the schedule table. *)
Definition schedules_ok (d : DB) : Prop :=
  NoDup (map bs_ID (backup_schedules d)) /\
  forall b, b ∈ backup_schedules d ->
    Store.opt_ref org_ID (bs_OrgID b) (Store.all_rows (orgs d)) = true.

(** Between [d0] and [d] a backup of [sc] was run to its end, and the schedule was
    moved on by its interval. *)
Definition served (sc : BackupSchedule) (d0 d : DB) : Prop :=
  exists k j, db_tick d0 <= k /\ j ∈ backup_jobs d /\ (bj_ID j ∉ map bj_ID (backup_jobs d0)) /\
    bj_ScheduleID j = bs_ID sc /\ closing (bj_Status j) /\
    forall b, b ∈ backup_schedules d -> bs_ID b = bs_ID sc ->
      bs_LastRunAt b = Some (env_now k) /\
      bs_NextRunAt b = (env_now k + JobStore.make_interval (bs_IntervalMinutes sc))%Z.

Lemma mark_elem id t i b l : b ∈ upd_rows (fun b => bs_ID b =s id) (mark_ran t i) l ->
  (bs_ID b = id /\ bs_LastRunAt b = Some t /\ bs_NextRunAt b = (t + JobStore.make_interval i)%Z) \/
  (bs_ID b <> id /\ b ∈ l).
Proof.
  unfold upd_rows. intros (x & -> & Hx)%list_elem_of_fmap.
  destruct (bs_ID x =s id) eqn:E; [left; by apply eqb_true_str in E|right; by apply eqb_false_str in E].
Qed.

Lemma served_kept sc sc2 d0 d d' :
  served sc d0 d -> ran_schedule sc2 d d' -> bs_ID sc2 <> bs_ID sc -> served sc d0 d'.
Proof.
  intros (k & j & Hk & Hj & Hn & Hs & Hc & Hb) (j2 & k2 & Hj2 & _ & _ & _ & _ & Hs2 & _) Hne.
  exists k, j. rewrite Hj2, Hs2. split_and!; [done|set_solver|done..|].
  intros b [(He & _)|(_ & Hin)]%mark_elem Hid; [congruence|]. by apply Hb.
Qed.

Lemma has_id_elem {A} (key : A -> str) id (l : list A) : Store.has_id key id l = true <-> id ∈ map key l.
Proof.
  unfold Store.has_id. rewrite exists_spec, list_elem_of_fmap.
  split; intros (x & H1 & H2); exists x; [apply eqb_true_str in H2|subst; rewrite eqb_refl_str]; auto.
Qed.
Lemma has_id_not {A} (key : A -> str) id (l : list A) : id ∉ map key l -> Store.has_id key id l = false.
Proof. intros H. apply not_true_is_false. by rewrite has_id_elem. Qed.

Lemma ran_keys sc d d' : ran_schedule sc d d' -> map bs_ID (backup_schedules d') = map bs_ID (backup_schedules d).
Proof.
  intros (j & k & _ & _ & _ & _ & _ & Hs & _). rewrite Hs. unfold upd_rows. rewrite map_map.
  apply map_ext. intros b. by destruct (bs_ID b =s _).
Qed.
Lemma ran_ids_past sc d d' : ids_past d -> ran_schedule sc d d' -> ids_past d'.
Proof.
  intros Hp (j & k & Hj & Hid & _ & _ & _ & _ & _ & Ht) x. rewrite Hj, elem_of_app.
  intros [Hx|Hx%list_elem_of_singleton]; [destruct (Hp x Hx) as (n & ? & ?); exists n; split; [lia|done]|].
  subst x. by exists (db_tick d).
Qed.
Lemma ran_served sc d0 d d' : Inj (=) (=) env_uuid -> ids_past d0 -> db_tick d0 <= db_tick d ->
  ran_schedule sc d d' -> served sc d0 d'.
Proof.
  intros Hinj Hp Ht (j & k & Hj & Hid & Hs & Hc & Hk & Hsc & _). exists k, j.
  split_and!; [lia|rewrite Hj; set_solver| |done|done|].
  - intros (x & Hx & Hin)%list_elem_of_fmap. destruct (Hp x Hin) as (n & Hn & He).
    assert (env_uuid (db_tick d) = env_uuid n) as Heq by congruence. apply Hinj in Heq. lia.
  - intros b Hb Hbid. rewrite Hsc in Hb. apply mark_elem in Hb as [(_ & ? & ?)|(? & _)]; [by split|done].
Qed.

Lemma loop_served d0 (done_ l : list BackupSchedule) w :
  reliable -> env_driver = Postgres -> Inj (=) (=) env_uuid ->
  ids_past d0 -> ids_past (w_db w) -> db_tick d0 <= db_tick (w_db w) ->
  (forall b, b ∈ l -> Store.opt_ref org_ID (bs_OrgID b) (Store.all_rows (orgs (w_db w))) = true /\
     bs_ID b ∈ map bs_ID (backup_schedules (w_db w))) ->
  NoDup (map bs_ID (done_ ++ l)) -> (forall b, b ∈ done_ -> served b d0 (w_db w)) ->
  exists w', forM_ l (runSchedule s) w = (inr tt, w') /\
    forall b, b ∈ (done_ ++ l)%list -> served b d0 (w_db w').
Proof.
  intros Hrel Hpg Hinj Hp0. revert done_ w. induction l as [|sc l IH]; intros done_ w Hp Ht Hl Hnd Hd.
  { exists w. split; [done|]. by rewrite app_nil_r. }
  destruct (Hl sc) as [Horg Hsc]; [set_solver|].
  destruct (runSchedule_runs sc w) as (w1 & H1 & Hran); [done|done| |done| |].
  { apply has_id_not. intros (x & Hx & Hin)%list_elem_of_fmap. destruct (Hp x Hin) as (n & Hn & He).
    rewrite <-Hx in He. apply Hinj in He. lia. }
  { unfold Store.opt_ref. by apply orb_true_iff; right; apply has_id_elem. }
  pose proof Hran as (_ & _ & _ & _ & _ & _ & _ & _ & Ho1 & Ht1).
  destruct (IH (done_ ++ [sc])%list w1) as (w' & Hr & Hall).
  - by eapply ran_ids_past.
  - lia.
  - intros b Hb. rewrite Ho1, (ran_keys _ _ _ Hran). apply Hl. set_solver.
  - by rewrite <-app_assoc.
  - intros b [Hb|Hb%list_elem_of_singleton]%elem_of_app.
    + eapply served_kept; [by apply Hd|exact Hran|]. intros Heq.
      rewrite map_app in Hnd. apply NoDup_app in Hnd as (_ & Hdis & _).
      apply (Hdis (bs_ID b)); [by apply list_elem_of_fmap; eauto|]. rewrite <-Heq. cbn. set_solver.
    + subst b. by eapply ran_served; [| |exact Ht|].
  - exists w'. rewrite <-app_assoc in Hall. split; [|exact Hall]. cbn. by rewrite (bind_inr_run _ _ _ _ _ H1).
Qed.

(** C19: A tick of the backup scheduler leaves nothing due behind.  On Postgres with a
    working database and a generator of distinct ids, every schedule that is due
    when the tick starts gets a backup job of its own that is run to its end
    (succeeded or failed), whatever the host answers, and is next due one interval
    after it ran. *)
Theorem due_backups_run w :
  reliable -> env_driver = Postgres -> Inj (=) (=) env_uuid -> backups_configured s = true ->
  ids_past (w_db w) -> schedules_ok (w_db w) ->
  exists w', runDueBackups s w = (inr tt, w') /\
    forall sc, sc ∈ backup_schedules (w_db w) ->
      JobStore.due (env_now (db_tick (w_db w))) sc = true -> served sc (w_db w) (w_db w').
Proof.
  intros Hrel Hpg Hinj Hcfg Hp [Hnd Horg]. unfold runDueBackups. rewrite Hcfg. cbn [negb].
  rewrite bind_run, attempt_run. unfold db at 1, zoom, JobStore.DueBackupSchedules, mapErr, query, stmt.
  rewrite Hrel. cbn. set (due := where_ _ _). set (w1 := set_w_db _ w).
  destruct (loop_served (w_db w) [] due w1) as (w' & Hr & Hall); try done.
  - intros j Hj. destruct (Hp j Hj) as (k & ? & ?). exists k. split; [cbn; lia|done].
  - cbn. lia.
  - intros b [Hb _]%where_elem. split; [by apply Horg|]. apply list_elem_of_fmap. eauto.
  - by apply NoDup_map_where.
  - by intros b Hb%not_elem_of_nil.
  - exists w'. split; [done|]. intros sc Hsc Hdue. apply Hall. cbn. by apply where_elem.
Qed.
End Edits.

(** Two schedules, one due, in an organization with an older backup. *)
Definition backup_world : World MemB :=
  set_w_db (set_backup_schedules
    [mkBackupSchedule "s1" "o1" true 60 2 false 0 None 0;
     mkBackupSchedule "s2" "o1" true 60 2 false 90000000000000 None 0] (w_db ex_world)) ex_world.

Lemma due_backups_run_witness :
  let sc := mkBackupSchedule "s1" "o1" true 60 2 false 0 None 0 in
  exists w', @runDueBackups ex_env _ ex_services backup_world = (inr tt, w') /\
    @served ex_env sc (w_db backup_world) (w_db w').
Proof.
  intros sc. destruct (due_backups_run (ENV := ex_env) ex_services backup_world)
    as (w' & Hr & Hall).
  - done.
  - done.
  - exact ex_uuid_inj.
  - reflexivity.
  - intros j Hj. by apply not_elem_of_nil in Hj.
  - split; [by apply (bool_decide_unpack _); vm_compute|].
    intros b Hb. cbn in Hb. repeat (apply elem_of_cons in Hb as [->|Hb]; [reflexivity|]).
    by apply not_elem_of_nil in Hb.
  - exists w'. split; [exact Hr|]. apply Hall; [left|reflexivity].
Defined.

(** * Retention *)

Section Retention.
Context {ENV : Env} {B : Type} (s : Services B).
Implicit Types (w : World B).

(** The finished backups of an organization, newest first. *)
Definition finished (org : str) (d : DB) : list BackupJob :=
  desc bj_CreatedAt (where_ (JobStore.succeeded org) (backup_jobs d)).

Lemma remove_all l w : exists w', forM_ l (fun p => fx (FxRemoveFile p)) w = (inr tt : Error + unit, w') /\
  w_fx w' = (w_fx w ++ map FxRemoveFile l)%list.
Proof.
  revert w. induction l as [|p l IH]; intros w; [exists w; by rewrite app_nil_r|].
  cbn. destruct (IH (set_w_fx (w_fx w ++ [FxRemoveFile p]) w)) as (w' & H & Hf).
  exists w'. split; [exact H|]. rewrite Hf. cbn. by rewrite <-app_assoc.
Qed.

(** Retention spares the newest backups.  Pruning an organization removes only
    files of its own finished backups older than the newest [max 1 keep]; when the
    files are distinct, none of the newest loses its file, whichever statements
    fail; with a working Postgres database all the older files are removed. *)
Theorem retention_keeps_newest org keep w r w' :
  pruneBackups org keep w = (r, w') ->
  let n := Z.to_nat (Z.max 1 keep) in let all := finished org (w_db w) in
  exists removed, w_fx w' = (w_fx w ++ map FxRemoveFile removed)%list /\
    (forall p, p ∈ removed -> exists j, j ∈ drop n all /\ bj_OrgID j = org /\ bj_Path j = p) /\
    (NoDup (map bj_Path all) -> forall j, j ∈ take n all -> bj_Path j ∉ removed) /\
    (reliable -> env_driver = Postgres -> removed = map bj_Path (drop n all)).
Proof.
  intros H n all. unfold pruneBackups in H.
  replace (if (keep <? 1)%Z then 1%Z else keep) with (Z.max 1 keep) in H
    by (destruct (keep <? 1)%Z eqn:E; bool_prop; lia).
  rewrite bind_run, attempt_run in H. destruct (db _ w) as [r1 w1] eqn:H1.
  pose proof H1 as Hq. framed (quiet (B := B)) Hq.
  { apply quiet_db, guar_mapErr. apply guar_pg_only; [typeclasses eauto|apply tables_tick|apply reads_query]. }
  apply quiet_inv in Hq as (_ & _ & _ & _ & Hf). destruct r1 as [e|paths]; cbn in H.
  - injection H as <- <-. exists []. rewrite app_nil_r, Hf. split_and!; [done|set_solver..|].
    intros Hrel Hpg. apply db_inv in H1 as (d & H1 & _).
    unfold JobStore.SucceededBackupPathsBeyond, pg_only, mapErr, query, stmt in H1.
    by rewrite Hpg, Hrel in H1.
  - destruct (remove_all paths w1) as (w2 & H2 & Hf2). rewrite H2 in H. injection H as <- <-.
    assert (paths = map bj_Path (drop n all)) as ->.
    { apply db_inv in H1 as (d & H1 & _). apply mapErr_inr in H1. unfold pg_only in H1.
      destruct env_driver; [|by apply stmt_inr in H1 as [_ H1]].
      by apply query_inr in H1 as [_ ->]. }
    eexists. split; [by rewrite Hf2, Hf|]. split_and!; [| |done].
    + intros p (j & -> & Hj)%list_elem_of_fmap. exists j. split; [done|]. split; [|done].
      assert (j ∈ all) as Hin by (rewrite <-(take_drop n all); set_solver).
      unfold all, finished, desc in Hin. apply order_by_elem, where_elem in Hin as [_ Hin].
      unfold JobStore.succeeded in Hin. by bool_prop.
    + intros Hnd j Hj Hin. rewrite <-(take_drop n all), map_app in Hnd.
      apply NoDup_app in Hnd as (_ & Hdis & _). apply (Hdis (bj_Path j)); [|done].
      by apply list_elem_of_fmap; eauto.
Qed.
End Retention.

(** An organization with three finished backups, retention two. *)
Definition done_job (id path : str) (t : Z) : BackupJob :=
  mkBackupJob id "o1" "metadata" "succeeded" path 1 "" None None t "s1" "".
Definition prune_world : World MemB :=
  set_w_db (set_backup_jobs [done_job "j1" "/b/1" 1; done_job "j2" "/b/2" 2; done_job "j3" "/b/3" 3]
              (w_db ex_world)) ex_world.
Lemma retention_keeps_newest_witness :
  let out := @pruneBackups ex_env _ "o1" 2 prune_world in
  w_fx (snd out) = [FxRemoveFile "/b/1"].
Proof.
  intros out. destruct (retention_keeps_newest (ENV := ex_env) "o1" 2 prune_world (fst out)
    (snd out) (surjective_pairing _)) as (removed & Hf & _ & _ & Hr).
  rewrite Hf, (Hr (fun _ => eq_refl) eq_refl). vm_compute. reflexivity.
Defined.

(** * The drift report *)

Section Drift.
Context {ENV : Env} {B : Type} (s : Services B).
Implicit Types (w : World B).

(** The aliases the database records on the primary cluster, and those the backend
    lists. *)
Definition db_aliases (project : str) (d : DB) : list str :=
  map b_GarageGlobalAlias
    (where_ (fun b => b_ClusterID b =s s_ClusterID s)
       (where_ (fun b => b_ProjectID b =s project) (live (buckets d)))).
Definition backend_aliases (bks : list SBucket) : list str := bks ≫= sb_GlobalAliases.

Lemma fold_db_set rows (acc : gset str) n :
  n ∈ foldl (fun acc b => if b_ClusterID b =s s_ClusterID s
                          then {[ b_GarageGlobalAlias b ]} ∪ acc else acc) acc rows <->
  n ∈ acc \/ n ∈ map b_GarageGlobalAlias (where_ (fun b => b_ClusterID b =s s_ClusterID s) rows).
Proof.
  revert acc. induction rows as [|b rows IH]; intros acc; cbn; [set_solver|].
  rewrite IH. destruct (b_ClusterID b =s s_ClusterID s); cbn; set_solver.
Qed.
Lemma fold_alias_set l (acc : gset str) n :
  n ∈ foldl (fun acc a => {[ a ]} ∪ acc) acc l <-> n ∈ acc \/ n ∈ l.
Proof. revert acc. induction l as [|a l IH]; intros acc; cbn; [set_solver|]. rewrite IH. set_solver. Qed.
Lemma fold_backend_set bks (acc : gset str) n :
  n ∈ foldl (fun acc b => foldl (fun acc a => {[ a ]} ∪ acc) acc (sb_GlobalAliases b)) acc bks <->
  n ∈ acc \/ n ∈ backend_aliases bks.
Proof.
  unfold backend_aliases. revert acc.
  induction bks as [|b bks IH]; intros acc; cbn; [set_solver|].
  rewrite IH, fold_alias_set, elem_of_app. tauto.
Qed.

(** One side of the difference. *)
Definition only (X Y : gset str) : list str := where_ (fun n => bool_decide (n ∉ Y)) (elements X).
Lemma only_elem X Y n : n ∈ only X Y <-> n ∈ X /\ n ∉ Y.
Proof. unfold only. rewrite where_elem, elem_of_elements. by rewrite bool_decide_eq_true. Qed.
Lemma only_nodup X Y : NoDup (only X Y).
Proof.
  unfold only. pose proof (NoDup_map_where id (fun n => bool_decide (n ∉ Y)) (elements X)) as H.
  rewrite !map_id in H. apply H, NoDup_elements.
Qed.
Lemma only_both X Y :
  Nat.eqb (length (only X Y)) 0 && Nat.eqb (length (only Y X)) 0 = true <-> (forall n, n ∈ X <-> n ∈ Y).
Proof.
  rewrite andb_true_iff, !Nat.eqb_eq, !length_zero_iff_nil. split.
  - intros [H1 H2] n. pose proof (only_elem X Y n) as E1. pose proof (only_elem Y X n) as E2.
    rewrite H1 in E1. rewrite H2 in E2. destruct (decide (n ∈ X)), (decide (n ∈ Y)); set_solver.
  - intros H. split; apply elem_of_nil_inv; intros n; rewrite only_elem, H; tauto.
Qed.

(** The drift report is the symmetric difference.  When the backend answers its
    listing, the report names, each once, exactly the aliases of the project's
    buckets on the primary cluster that the backend does not list and the listed
    aliases the project has no bucket for; it says "in sync" exactly when the two
    sets are equal. *)
Theorem drift_report_exact ctx w d w' bks b1 :
  ReconcileReport s ctx w = (inr d, w') -> sp_ListBuckets (s_Provider s) (w_be w) = (inr bks, b1) ->
  let recorded := db_aliases (tc_ProjectID (tenant s ctx)) (w_db w) in
  let listed := backend_aliases bks in
  (forall n, n ∈ BucketsOnlyInDB d <-> n ∈ recorded /\ n ∉ listed) /\
  (forall n, n ∈ BucketsOnlyInBackend d <-> n ∈ listed /\ n ∉ recorded) /\
  NoDup (BucketsOnlyInDB d) /\ NoDup (BucketsOnlyInBackend d) /\
  (InSync d = true <-> forall n, n ∈ recorded <-> n ∈ listed).
Proof.
  intros H Hl recorded listed. unfold ReconcileReport in H.
  apply bind_inr in H as ([] & w1 & H1 & H). apply authorize_same in H1 as ->.
  apply bind_inr in H as (rows & w2 & H2 & H). apply mapErr_inr, db_inv in H2 as (d2 & H2 & ->).
  rewrite bind_run, attempt_run in H. unfold be, zoom in H. cbn in H. rewrite Hl in H. cbn in H.
  injection H as <- _. cbn [BucketsOnlyInDB BucketsOnlyInBackend InSync].
  set (S := foldl _ ∅ rows). set (T := foldl _ ∅ bks).
  assert (forall n, n ∈ S <-> n ∈ recorded) as HS.
  { intros n. unfold S, recorded, db_aliases. rewrite fold_db_set.
    apply mapErr_inr, query_inr in H2 as [_ ->]. rewrite !list_elem_of_fmap.
    setoid_rewrite where_elem. unfold desc. setoid_rewrite order_by_elem. set_solver. }
  assert (forall n, n ∈ T <-> n ∈ listed) as HT.
  { intros n. unfold T. rewrite fold_backend_set. set_solver. }
  fold (only S T). fold (only T S).
  split; [intros n; by rewrite only_elem, HS, HT|]. split; [intros n; by rewrite only_elem, HS, HT|].
  split; [apply only_nodup|]. split; [apply only_nodup|]. rewrite only_both.
  by setoid_rewrite HS; setoid_rewrite HT.
Qed.
End Drift.

Lemma drift_report_exact_witness :
  let out := @ReconcileReport ex_env _ ex_services ctx_alice ex_world in
  let bks := sp_ListBuckets (s_Provider ex_services) (w_be ex_world) in
  exists d l, fst out = inr d /\ fst bks = inr l /\
    (InSync d = true <-> forall n, n ∈ ["one"] <-> n ∈ backend_aliases l).
Proof.
  intros out bks. destruct (fst out) as [e|d] eqn:E; [exfalso; vm_compute in E; discriminate|].
  destruct (fst bks) as [e|l] eqn:El; [exfalso; vm_compute in El; discriminate|].
  exists d, l. split; [done|]. split; [done|].
  apply (drift_report_exact (ENV := ex_env) ex_services ctx_alice ex_world d (snd out) l (snd bks)
    (eq_trans (surjective_pairing _) (f_equal2 pair E eq_refl))
    (eq_trans (surjective_pairing _) (f_equal2 pair El eq_refl))).
Defined.

(** * What the schedules get wrong *)

(** The report compares one project with the whole backend: the bucket of another
    tenant is named as drift, and never in sync. *)
Theorem drift_names_foreign_buckets :
  let out := @ReconcileReport ex_env _ ex_services ctx_alice ex_world in
  BucketsOnlyInBackend <$> (match fst out with inr d => Some d | inl _ => None end) = Some ["two"] /\
  Store.bucket_row (ENV := ex_env) "b2" (w_db ex_world) <> None.
Proof. split; [vm_compute; reflexivity|vm_compute; discriminate]. Qed.

(** The file name has the time in seconds and nothing else: two schedules that run in
    the same second write the same file, and pruning the older backup removes the
    file of the one that is kept. *)
Definition same_second_env : Env := {|
  env_driver := @env_driver ex_env; env_fault := @env_fault ex_env; env_now := fun _ => 5000000000%Z;
  env_uuid := @env_uuid ex_env; env_token := @env_token ex_env;
  env_hash_password := @env_hash_password ex_env; env_verify_password := @env_verify_password ex_env;
  env_jsonb := @env_jsonb ex_env; env_as_uuid := fun id => id; env_as_uuid_gen := fun _ => eq_refl;
  env_inet := Some |}.
Theorem same_second_backups_share_file :
  let w := set_w_db (set_backup_schedules
    [mkBackupSchedule "s1" "o1" true 60 1 false 0 None 0;
     mkBackupSchedule "s2" "o1" true 60 1 false 0 None 0] (w_db ex_world)) ex_world in
  let out := @runDueBackups same_second_env _ ex_services w in
  let file := "/backups/buktio-metadata-19700101-000005.dump" in
  map bj_Path (take 1 (finished "o1" (w_db (snd out)))) = [file] /\
  w_fx (snd out) = [FxWriteFile file; FxWriteFile file; FxRemoveFile file].
Proof. by_eval. Qed.

(** A schedule that has run once cannot be deleted any more. *)
Theorem used_schedule_cannot_be_deleted :
  let w := snd (@runDueBackups ex_env _ ex_services backup_world) in
  failed (fst (@DeleteBackupSchedule ex_env _ ex_services ctx_alice "s2" w)) = false /\
  failed (fst (@DeleteBackupSchedule ex_env _ ex_services ctx_alice "s1" w)) = true.
Proof. by_eval. Qed.

(** On SQLite no schedule can be created: the statement is Postgres syntax. *)
Theorem sqlite_has_no_schedules : let _ := example_env SQLite no_fault in forall ctx i r off (w : World MemB),
  exists e, fst (CreateBackupSchedule ex_services ctx i r off w) = inl e.
Proof.
  intros env ctx i r off w. unfold CreateBackupSchedule. cbn. 
  unfold db, zoom, JobStore.CreateBackupSchedule, mapErr, pg_only. cbn. by eexists.
Qed.
