(* ===== verification/ReportProofs.v ===== *)
(** The audit export parses back to the rows it was made from, and reports stay
    within the tenant, except the connection snippets and the traffic report. *)
From Stdlib Require Import Ascii.
From S2P Require Import Prelude GoStrings GoTime Storage MemStore Database Repository JobStore AuditLog Service Frames Example MemberProofs Reports.
#[local] Open Scope string_scope.
#[local] Arguments String.append : simpl nomatch.
Import Reports.

(** * Reading CSV back

    The grammar of RFC 4180 with one line feed after every record, as a machine over
    the characters: at the start of a field, in a plain field, in a quoted one, or
    after a quote within it. *)
Inductive Mode := Start | Plain | Quoted | Quote.
Fixpoint csv_go (m : Mode) (cur : str) (fields : list str) (s : str) : option (list (list str)) :=
  match s with
  | "" => match m, fields with Start, [] => Some [] | _, _ => None end
  | String c s' =>
      let next f := if Ascii.eqb c "," then csv_go Start "" (fields ++ [f])%list s'
                    else cons (fields ++ [f])%list <$> csv_go Start "" [] s' in
      let sep := Ascii.eqb c "," || Ascii.eqb c lf in
      match m with
      | Start => if Ascii.eqb c dquote then csv_go Quoted "" fields s'
                 else if sep then next "" else csv_go Plain (String c "") fields s'
      | Plain => if Ascii.eqb c dquote then None
                 else if sep then next cur else csv_go Plain (cur ++ String c "") fields s'
      | Quoted => if Ascii.eqb c dquote then csv_go Quote cur fields s'
                  else csv_go Quoted (cur ++ String c "") fields s'
      | Quote => if Ascii.eqb c dquote then csv_go Quoted (cur ++ String dquote "") fields s'
                 else if sep then next cur else None
      end
  end.
Definition csv_read (s : str) : option (list (list str)) := csv_go Start "" [] s.

(** What follows a complete field. *)
Definition after_field (c : ascii) (fields : list str) (f s : str) : option (list (list str)) :=
  if Ascii.eqb c "," then csv_go Start "" (fields ++ [f])%list s
  else cons (fields ++ [f])%list <$> csv_go Start "" [] s.
Definition is_sep (c : ascii) : bool := Ascii.eqb c "," || Ascii.eqb c lf.

Lemma sep_not_dquote c : is_sep c = true -> Ascii.eqb c dquote = false.
Proof.
  unfold is_sep. intros H. apply orb_true_iff in H as [H|H]; apply Ascii.eqb_eq in H as ->; reflexivity.
Qed.

Lemma plain_run f cur fields c s :
  str_all (fun c => negb (needs_quote_char c)) f = true -> is_sep c = true ->
  csv_go Plain cur fields (f ++ String c s) = after_field c fields (cur ++ f) s.
Proof.
  intros Hf Hc. revert cur Hf. induction f as [|x f IH]; intros cur Hf; cbn.
  - rewrite sep_not_dquote by done. fold (is_sep c). by rewrite Hc, str_app_nil_r.
  - cbn in Hf. bool_prop. unfold needs_quote_char in H. bool_prop.
    rewrite H3. fold (is_sep x). unfold is_sep at 1. rewrite H, H1. cbn. rewrite IH by done.
    by rewrite str_app_assoc.
Qed.
Lemma quoted_run f cur fields c s : is_sep c = true ->
  csv_go Quoted cur fields (escape_quotes f ++ String dquote (String c s)) =
  after_field c fields (cur ++ f) s.
Proof.
  intros Hc. revert cur. induction f as [|x f IH]; intros cur; cbn [escape_quotes].
  - cbn. rewrite Ascii.eqb_refl. rewrite sep_not_dquote by done. fold (is_sep c). by rewrite Hc, str_app_nil_r.
  - destruct (Ascii.eqb x dquote) eqn:E.
    + apply Ascii.eqb_eq in E as ->. cbn. rewrite IH. by rewrite str_app_assoc.
    + cbn. rewrite E, IH. by rewrite str_app_assoc.
Qed.

Lemma read_field f fields c s : is_sep c = true ->
  csv_go Start "" fields (csv_field f ++ String c s) = after_field c fields f s.
Proof.
  intros Hc. unfold csv_field. destruct (fieldNeedsQuotes f) eqn:E.
  - cbn. rewrite str_app_assoc. cbn. by rewrite quoted_run.
  - destruct f as [|x f]; cbn.
    + rewrite sep_not_dquote by done. fold (is_sep c). by rewrite Hc.
    + unfold fieldNeedsQuotes in E. apply orb_false_iff in E as [E _].
      apply orb_false_iff in E as [_ E]. apply negb_false_iff in E. cbn in E. bool_prop.
      unfold needs_quote_char in H. bool_prop. rewrite H3. fold (is_sep x). unfold is_sep at 1.
      rewrite H, H1. cbn. by rewrite plain_run.
Qed.

Lemma read_fields fs f fields s :
  csv_go Start "" fields (Join (map csv_field (fs ++ [f])%list) "," ++ String lf s) =
  cons (fields ++ fs ++ [f])%list <$> csv_go Start "" [] s.
Proof.
  revert fields. induction fs as [|x fs IH]; intros fields.
  - cbn. by rewrite read_field.
  - assert (Join (map csv_field ((x :: fs) ++ [f])%list) "," =
      csv_field x ++ String "," (Join (map csv_field (fs ++ [f])%list) ",")) as ->.
    { cbn. by destruct fs. }
    rewrite str_app_assoc. cbn [String.append]. rewrite read_field by done.
    unfold after_field. cbn. rewrite IH. by rewrite <-app_assoc.
Qed.
Lemma read_record r s : r <> [] ->
  csv_go Start "" [] (csv_record r ++ s) = cons r <$> csv_go Start "" [] s.
Proof.
  intros Hr. destruct (exists_last Hr) as (fs & f & ->). unfold csv_record.
  rewrite str_app_assoc. cbn [String.append]. by rewrite read_fields.
Qed.
Lemma read_records l : Forall (fun r => r <> []) l -> csv_read (Join (map csv_record l) "") = Some l.
Proof.
  unfold csv_read. induction 1 as [|r l Hr _ IH]; [done|].
  assert (Join (map csv_record (r :: l)) "" = csv_record r ++ Join (map csv_record l) "") as ->.
  { cbn. destruct l; cbn; [by rewrite str_app_nil_r|done]. }
  by rewrite read_record, IH.
Qed.

(** * The audit export *)

Section AuditExport.
Context {ENV : Env} {B : Type} (s : Services B) (valid_uuid : str -> bool).
Implicit Types (w : World B).

(** The events a caller asks for: those of its organization (of every one, when the
    service has none yet) that agree with each filter it gives. *)
Definition asked ctx (i : AuditFilterInput) (r : AuditRow) : Prop :=
  (tc_OrgID (tenant s ctx) <> "" -> ar_OrgID r = tc_OrgID (tenant s ctx)) /\
  (afi_Actor i <> "" -> ar_ActorUserID r = env_as_uuid (afi_Actor i)) /\
  (afi_Action i <> "" -> ar_Action r = afi_Action i) /\
  (afi_TargetType i <> "" -> ar_TargetType r = afi_TargetType i) /\
  (forall t, afi_From i = Some t -> t <= ar_CreatedAt r)%Z /\
  (forall t, afi_To i = Some t -> ar_CreatedAt r <= t)%Z.
(** The window of an export: 5000 rows unless it asks for a number of its own, which
    is taken up to 5000 and replaced by 100 above. *)
Definition export_limit (i : AuditFilterInput) : nat :=
  if (afi_Limit i <=? 0)%Z then 5000
  else if (5000 <? afi_Limit i)%Z then 100 else Z.to_nat (afi_Limit i).
(** The columns of a stored event in the order of the header; the time in UTC, cut to
    whole seconds. *)
Definition exported_fields (r : AuditRow) : list str :=
  [Itoa (ar_ID r); Time.RFC3339 (ar_CreatedAt r); ar_ActorType r; ar_ActorUserID r; ar_Action r;
   ar_TargetType r; ar_TargetID r].

Lemma unset_or_eq_true x y : AuditLog.unset_or_eq x y = true <-> (x <> "" -> y = x).
Proof.
  unfold AuditLog.unset_or_eq. rewrite orb_true_iff, !eqb_true_str.
  destruct (decide (x = "")); naive_solver.
Qed.
Lemma actor_matches x y :
  (x =s "") || (y =s env_as_uuid x) = true <-> (x <> "" -> y = env_as_uuid x).
Proof. rewrite orb_true_iff, !eqb_true_str. destruct (decide (x = "")); naive_solver. Qed.

Definition filter_of ctx (i : AuditFilterInput) : AuditLog.AuditFilter :=
  AuditLog.mkAuditFilter (tc_OrgID (tenant s ctx)) (afi_Actor i) (afi_Action i) (afi_TargetType i)
    (afi_From i) (afi_To i) (afi_Limit i) (afi_Offset i).
Lemma audit_matches_asked ctx i r :
  AuditLog.audit_matches (filter_of ctx i) r = true <-> asked ctx i r.
Proof.
  unfold AuditLog.audit_matches, asked, filter_of. cbn.
  rewrite !andb_true_iff, !unset_or_eq_true, actor_matches.
  assert ((match afi_From i with Some t => t <=? ar_CreatedAt r | None => true end)%Z = true <->
    (forall t, afi_From i = Some t -> t <= ar_CreatedAt r)%Z) as ->
    by (destruct (afi_From i); [rewrite Z.leb_le|]; naive_solver).
  assert ((match afi_To i with Some t => ar_CreatedAt r <=? t | None => true end)%Z = true <->
    (forall t, afi_To i = Some t -> ar_CreatedAt r <= t)%Z) as ->
    by (destruct (afi_To i); [rewrite Z.leb_le|]; naive_solver).
  tauto.
Qed.

(** The page of the query: newest first, from the offset. *)
Definition page ctx (i : AuditFilterInput) (d : DB) (lim : nat) : list AuditRow :=
  take lim (drop (Z.to_nat (afi_Offset i))
    (desc ar_CreatedAt (where_ (AuditLog.audit_matches (filter_of ctx i)) (audit_events d)))).

Lemma auditEntries_rows ctx i w l w' : auditEntries s valid_uuid ctx i w = (inr l, w') ->
  let lim := if (afi_Limit i <=? 0)%Z || (5000 <? afi_Limit i)%Z then 100 else Z.to_nat (afi_Limit i) in
  l = map auditDTO (page ctx i (w_db w) lim).
Proof.
  unfold auditEntries. intros H.
  apply bind_inr in H as ([] & w1 & H1 & H). apply authorize_same in H1 as ->.
  apply bind_inr in H as ([] & w2 & H2 & H). destruct (_ && _); [done|].
  unfold ret in H2. injection H2 as <-.
  apply bind_inr in H as (rows & w3 & H3 & H). unfold ret in H. injection H as <- _.
  apply mapErr_inr, db_inv in H3 as (d3 & H3 & _). apply query_inr in H3 as [_ ->]. cbn.
  unfold page. replace (Z.to_nat (if (afi_Offset i <? 0)%Z then 0%Z else afi_Offset i))
    with (Z.to_nat (afi_Offset i)) by (destruct (Z.ltb_spec (afi_Offset i) 0); lia).
  by destruct (_ || _).
Qed.

(** C39: The audit export loses nothing and mixes nothing up.  The events the caller
    asks for are those of its organization (of every one while the service has none)
    that agree with its filters; in the order newest first, the export has the page
    its offset and limit name (5000 rows by default, 100 when more are asked for).
    The CSV text parses, as RFC 4180, to the header and exactly one record per event
    of that page, in its order, with the id, the time in whole seconds, and the actor,
    action and target as they are stored, whatever characters they contain. *)
Theorem audit_export_roundtrip ctx i fmt w text ct w' :
  ExportAudit s valid_uuid ctx i fmt w = (inr (ExportCSV text, ct), w') ->
  exists all rest, audit_events (w_db w) ≡ₚ (all ++ rest)%list /\
    Forall (asked ctx i) all /\ Forall (fun r => ~ asked ctx i r) rest /\
    StronglySorted (fun x y => ar_CreatedAt y <= ar_CreatedAt x)%Z all /\
    csv_read text = Some (csv_header :: map exported_fields
      (take (export_limit i) (drop (Z.to_nat (afi_Offset i)) all))).
Proof.
  unfold ExportAudit. intros H. apply bind_inr in H as (l & w1 & H1 & H).
  apply auditEntries_rows in H1 as ->. unfold ret in H.
  destruct (fmt =s "json"); [done|]. injection H as <- _ _.
  set (p := AuditLog.audit_matches (filter_of ctx i)).
  exists (desc ar_CreatedAt (where_ p (audit_events (w_db w)))),
    (where_ (fun r => negb (p r)) (audit_events (w_db w))).
  split; [unfold desc; rewrite order_by_perm; apply where_partition|].
  split; [apply Forall_forall; intros r Hr; apply order_by_elem, where_elem in Hr as [_ Hr];
    by apply audit_matches_asked|].
  split; [apply Forall_forall; intros r [_ Hr]%where_elem; apply negb_true_iff in Hr;
    rewrite <-audit_matches_asked; fold p; congruence|].
  split; [apply desc_sorted|]. unfold csv_text. rewrite read_records.
  - rewrite map_map. f_equal. f_equal. unfold page, export_limit.
    destruct (afi_Limit i <=? 0)%Z eqn:E; [done|]. by rewrite E; destruct (_ <? _)%Z.
  - constructor; [done|]. apply Forall_forall. by intros r (x & -> & _)%list_elem_of_fmap.
Qed.
End AuditExport.

(** An event whose target has a comma, a quote and a line break in its name. *)
Definition odd_name : str := "a," ++ String dquote ("b" ++ String lf "c").
Definition audited_world : World MemB :=
  set_w_db (set_audit_events [mkAuditRow 7 "o1" "alice" "user" "bucket.create" "bucket" odd_name "{}" "" ""
              None 5; mkAuditRow 8 "o2" "x" "user" "bucket.create" "bucket" "b" "{}" "" "" None 6]
              (w_db ex_world)) ex_world.
Definition all_audit : AuditFilterInput := mkAuditFilterInput None None "" "" "" 0 0.
Lemma audit_export_roundtrip_witness :
  let out := @ExportAudit ex_env _ ex_services (fun _ => true) ctx_alice all_audit "csv" audited_world in
  exists text all rest, fst out = inr (ExportCSV text, "text/csv") /\
    audit_events (w_db audited_world) ≡ₚ (all ++ rest)%list /\
    csv_read text = Some (csv_header :: map exported_fields (take 5000 (drop 0 all))) /\
    csv_read text = Some [csv_header;
      ["7"; "1970-01-01T00:00:00Z"; "user"; "alice"; "bucket.create"; "bucket"; odd_name]].
Proof.
  intros out. destruct (fst out) as [e|[[l|text] ct]] eqn:E;
    [exfalso; vm_compute in E; discriminate|exfalso; vm_compute in E; discriminate|].
  destruct (audit_export_roundtrip (ENV := ex_env) ex_services (fun _ => true) ctx_alice all_audit
    "csv" audited_world text ct (snd out)
    (eq_trans (surjective_pairing _) (f_equal2 pair E eq_refl)))
    as (all & rest & Hp & _ & _ & _ & Hr).
  exists text, all, rest. vm_compute in E. injection E as E1 E2. split; [by rewrite <-E2|].
  split; [exact Hp|]. split; [exact Hr|]. rewrite <-E1. vm_compute. reflexivity.
Defined.

(** * Reports that leave the tenant *)

(** The snippets load the bucket by id alone: they name the bucket of another
    tenant. *)
Theorem snippets_show_foreign_bucket :
  let out := @Snippets ex_env _ ex_services "b2" "" ex_world in
  sn_Bucket <$> (match fst out with inr d => Some d | inl _ => None end) = Some "two" /\
  b_OrgID <$> Store.bucket_row (ENV := ex_env) "b2" (w_db ex_world) = Some "o2".
Proof. by_eval. Qed.

(** An export that asks for more than 5000 rows gets 100. *)
Theorem large_export_is_cut :
  let rows := map (fun n => mkAuditRow (Z.of_nat n) "o1" "" "user" "a" "t" "" "{}" "" "" None 0)
                (seq 0 101) in
  let w := set_w_db (set_audit_events rows (w_db ex_world)) ex_world in
  let out := @auditEntries ex_env _ ex_services (fun _ => true) ctx_alice (set_afi_Limit 6000 all_audit) w in
  match fst out with inr l => length l | inl _ => 0 end = 100.
Proof. by_eval. Qed.
