(* ===== verification/ConfigProofs.v ===== *)
(** The configuration that [Load] accepts is well formed; durations printed in whole
    units parse back. *)
From Stdlib Require Import Ascii.
From S2P Require Import Prelude GoStrings StorageProofs Config.
#[local] Open Scope string_scope.
Import Config.

(** * Durations *)

Lemma parse_groups_range fuel d s z : (0 <= d <= two63)%Z -> parse_groups fuel d s = Some z ->
  (0 <= z <= two63)%Z.
Proof.
  revert d s. induction fuel as [|fuel IH]; intros d s Hd H; destruct s as [|c s];
    cbn [parse_groups] in H; [by simplify_eq|done|by simplify_eq|].
  destruct (parse_group _) as [[v s']|]; [|done]. destruct (two63 <? _)%Z eqn:E; [done|]. bool_prop.
  eapply IH, H. split; [apply Z.mod_pos_bound; lia|done].
Qed.
(** A duration is an [int64]. *)
Lemma ParseDuration_range s z : ParseDuration s = Some z -> (- two63 <= z < two63)%Z.
Proof.
  unfold ParseDuration. set (neg := HasPrefix s "-"). set (s1 := if neg || _ then _ else _).
  destruct (s1 =s "0"); [intros; simplify_eq; by vm_compute|]. destruct (s1 =s ""); [done|].
  destruct (parse_groups _ 0 s1) as [d|] eqn:E; [|done]. apply parse_groups_range in E; [|by vm_compute].
  destruct neg.
  - intros [= <-]. unfold wrap64, two63 in *. pose proof (Z.mod_pos_bound (- d + 2 ^ 63) (2 ^ 64)). lia.
  - destruct (two63 - 1 <? d)%Z eqn:Ed; [done|]. intros [= <-]. bool_prop. lia.
Qed.

Lemma digits_value_mono acc s z : (0 <= acc)%Z -> digits_value acc s = Some z -> (acc <= z)%Z.
Proof.
  revert acc. induction s as [|c s IH]; intros acc H0 H; cbn in H; [simplify_eq; lia|].
  destruct (is_digit c); [|done]. apply IH in H; lia.
Qed.
Lemma digit_value c : is_digit c = true -> digit c = Z.of_nat (nat_of_ascii c - 48) /\ (0 <= digit c)%Z.
Proof.
  unfold is_digit, in_range, digit. intros H. apply andb_true_iff in H as [H1 H2].
  apply Nat.leb_le in H1. lia.
Qed.
Lemma leadingInt_digits s t acc z : str_all is_digit s = true -> digits_value acc s = Some z ->
  (0 <= acc)%Z -> (z <= two63)%Z -> leadingInt acc (s ++ t) = leadingInt z t.
Proof.
  revert acc. induction s as [|c s IH]; intros acc Hd Hv H0 Hz;
    cbn [str_all digits_value] in *; [by simplify_eq|].
  change (String c s ++ t) with (String c (s ++ t)). cbn [leadingInt].
  apply andb_true_iff in Hd as [Hc Hd]. rewrite Hc in *. destruct (digit_value c Hc) as [Hdg Hpos].
  assert (10 * acc + digit c <= z)%Z as Hle by (apply digits_value_mono in Hv; lia).
  assert ((two63 / 10 <? acc)%Z = false) as ->.
  { apply Z.ltb_ge. apply Z.div_le_lower_bound; lia. }
  assert ((two63 <? acc * 10 + digit c)%Z = false) as -> by (apply Z.ltb_ge; lia).
  apply IH; [done| |lia|done]. rewrite <-Hv. f_equal. lia.
Qed.
Lemma Itoa_head n t : (0 <= n)%Z -> exists c s, Itoa n ++ t = String c (s ++ t) /\ is_digit c = true.
Proof.
  intros Hn. pose proof (Itoa_digits n Hn) as Hd. pose proof (Itoa_nonempty n Hn) as Hne.
  destruct (Itoa n) as [|c s]; [done|]. cbn in Hd. apply andb_true_iff in Hd as [Hc _]. by exists c, s.
Qed.
(** A unit: letters only, and known. *)
Lemma unit_text u k : unitMap u = Some k -> exists c u', u = String c u' /\ is_digit c = false /\
  c <> "."%char /\ str_all (fun c => negb (Ascii.eqb c "." || is_digit c)) u = true /\ (0 < k)%Z.
Proof.
  unfold unitMap. intros H.
  repeat match type of H with (if ?b then _ else _) = _ => destruct b eqn:? end; try discriminate H;
    injection H as <-;
    repeat match goal with H : _ || _ = true |- _ => apply orb_true_iff in H as [H|H] end;
    match goal with H : (_ =s _) = true |- _ => apply eqb_true_str in H as -> end;
    eexists _, _; split_and!; try reflexivity; done.
Qed.

Lemma no_prefix c s x : c <> x -> HasPrefix (String c s) (String x "") = false.
Proof. intros H. unfold HasPrefix. cbn. destruct (Ascii.ascii_dec x c); [congruence|done]. Qed.

Lemma unit_whole u : str_all (fun c => negb (Ascii.eqb c "." || is_digit c)) u = true ->
  unit_len u = String.length u /\ str_take (String.length u) u = u /\ str_drop (String.length u) u = "".
Proof.
  intros H. unfold unit_len. rewrite IndexAny_none by done. split; [done|].
  pose proof (str_take_app u "") as Ht. pose proof (str_drop_app u "") as Hd.
  by rewrite str_app_nil_r in Ht, Hd.
Qed.
Lemma group_whole n u k : unitMap u = Some k -> (0 <= n)%Z -> (n * k < two63)%Z ->
  parse_group (Itoa n ++ u) = Some ((n * k)%Z, "").
Proof.
  intros Hu Hn Hk. destruct (unit_text u k Hu) as (c & u' & -> & Hc & Hdot & Hall & Hk0).
  assert (n <= two63)%Z as Hn63 by nia.
  destruct (Itoa_head n (String c u') Hn) as (c0 & s0 & Hs & Hc0).
  assert (leadingInt 0 (Itoa n ++ String c u') = Some (n, String c u')) as Hlead.
  { rewrite (leadingInt_digits _ _ 0 n); [|by apply Itoa_digits|by apply Itoa_value|done|done].
    cbn. by rewrite Hc. }
  assert (negb (Nat.eqb (String.length (Itoa n ++ String c u')) (String.length (String c u'))) = true) as Hpre.
  { rewrite str_length_app. pose proof (Itoa_nonempty n Hn) as Hne. destruct (Itoa n); [done|].
    apply negb_true_iff, Nat.eqb_neq. cbn. lia. }
  unfold parse_group. rewrite Hs in *. rewrite Hc0, orb_true_r. cbn [negb]. rewrite Hlead.
  rewrite no_prefix by done. rewrite Hpre. cbn [negb andb].
  destruct (unit_whole _ Hall) as (-> & -> & ->). cbn [String.length Nat.eqb]. rewrite Hu.
  assert ((two63 / k <? n)%Z = false) as ->.
  { apply Z.ltb_ge. apply Z.div_le_lower_bound; lia. }
  done.
Qed.

(** A duration written as a whole number of a unit parses to that many
    nanoseconds, whenever it fits an int64; so the timeouts an operator sets that
    way are the ones that apply. *)
Theorem ParseDuration_whole n u k :
  unitMap u = Some k -> (0 <= n)%Z -> (n * k < two63)%Z -> ParseDuration (Itoa n ++ u) = Some (n * k)%Z.
Proof.
  intros Hu Hn Hk. pose proof (group_whole n u k Hu Hn Hk) as Hg.
  destruct (Itoa_head n u Hn) as (c0 & s0 & Hs & Hc0).
  destruct (unit_text u k Hu) as (c & u' & -> & _ & _ & _ & Hk0). unfold ParseDuration.
  assert (c0 <> "-"%char /\ c0 <> "+"%char) as [N1 N2] by (split; intros ->; done).
  rewrite Hs in *. rewrite !no_prefix by done. cbn [orb].
  assert ((String c0 (s0 ++ String c u') =s "0") = false) as ->.
  { apply eqb_false_str. intros [= _ He]. by destruct s0. }
  cbn [String.eqb String.length parse_groups]. rewrite Hg. cbn [parse_groups].
  rewrite Z.add_0_l, Z.mod_small by (unfold two63 in Hk; lia).
  assert ((two63 <? n * k)%Z = false) as -> by (apply Z.ltb_ge; lia).
  assert (forall f d, parse_groups f d "" = Some d) as -> by (by intros []).
  assert ((two63 - 1 <? n * k)%Z = false) as -> by (apply Z.ltb_ge; lia). done.
Qed.

Lemma ParseDuration_whole_witness :
  ParseDuration "90s" = Some 90000000000%Z /\ ParseDuration "1h30m0.5s" = Some 5400500000000%Z.
Proof.
  split; [exact (ParseDuration_whole 90 "s" 1000000000 eq_refl ltac:(lia) ltac:(by vm_compute))|].
  vm_compute. reflexivity.
Defined.

(** * Loading *)

Definition is_int64 (z : Z) : Prop := (- two63 <= z < two63)%Z.

(** What the rest of the program may rely on. *)
Record well_formed (c : Config) : Prop := {
  wf_addr : http_Addr (c_HTTP c) <> "";
  wf_level : c_LogLevel c ∈ ["debug"; "info"; "warn"; "error"];
  wf_tls : tls_Mode (http_TLS (c_HTTP c)) ∈ ["off"; "self"; "auto"];
  wf_domains : tls_Mode (http_TLS (c_HTTP c)) = "auto" -> tls_Domains (http_TLS (c_HTTP c)) <> [];
  wf_lists : ("" ∉ tls_Domains (http_TLS (c_HTTP c))) /\ ("" ∉ http_PanelOrigins (c_HTTP c));
  wf_timeouts : is_int64 (http_ReadTimeout (c_HTTP c)) /\ is_int64 (http_WriteTimeout (c_HTTP c));
  wf_garage : gc_AdminURL (c_Garage c) <> "" /\ gc_S3URL (c_Garage c) <> "" /\
              gc_S3Region (c_Garage c) <> "" /\ gc_Mode (c_Garage c) <> "";
  wf_edition : c_Edition c <> "" }.

Section Loading.
Variable environ : gmap str str.

Lemma env_nonempty key fallback : fallback <> "" -> env environ key fallback <> "".
Proof.
  intros H. unfold env. destruct (environ !! key) as [v|]; [|done].
  destruct (v =s "") eqn:E; [done|]. by apply eqb_false_str in E.
Qed.
Lemma envList_nonempty key : "" ∉ envList environ key.
Proof.
  unfold envList. destruct (_ =s ""); [set_solver|]. intros [_ H]%where_elem. done.
Qed.
Lemma envDuration_int64 key fallback : is_int64 fallback -> is_int64 (envDuration environ key fallback).
Proof.
  intros H. unfold envDuration. destruct (environ !! key) as [v|]; [|done].
  destruct (ParseDuration v) as [z|] eqn:E; [|done]. by apply ParseDuration_range in E.
Qed.

(** C40: Whatever the environment, a configuration that [Load] returns is well
    formed: an address to listen on, a known log level and TLS mode, a domain when
    certificates are automatic, timeouts within an int64, no blank list entries, and
    storage endpoints. *)
Theorem Load_well_formed c : Load environ = inr c -> well_formed c.
Proof.
  unfold Load. set (cfg := mkConfig _ _ _ _ _ _ _ _ _). destruct (validate cfg) eqn:E; [done|].
  intros [= <-]. unfold validate in E.
  destruct (http_Addr _ =s "") eqn:Ea; [done|]. apply eqb_false_str in Ea.
  destruct (negb _) eqn:El; [done|]. apply negb_false_iff in El.
  assert (tls_Mode (http_TLS (c_HTTP cfg)) <> "") as Hne by (by apply env_nonempty).
  assert (is_int64 defaultReadTimeout /\ is_int64 defaultWriteTimeout) as [Hr Hw] by (by vm_compute).
  constructor; try (by apply env_nonempty); try done.
  - by eapply bool_decide_eq_true_1.
  - destruct (bool_decide _) eqn:Em in E.
    + apply bool_decide_eq_true_1 in Em. set_solver.
    + destruct (_ =s "auto") eqn:Eau in E; [|done]. apply eqb_true_str in Eau. rewrite Eau. set_solver.
  - intros Hauto Hd. rewrite Hauto, Hd in E. vm_compute in E. done.
  - split; apply envList_nonempty.
  - split; by apply envDuration_int64.
  - split_and!; by apply env_nonempty.
Qed.
End Loading.

Lemma Load_well_formed_witness :
  let e := {[ "BUKTIO_TLS" := "auto"; "BUKTIO_TLS_DOMAIN" := "a.example, b.example,";
              "BUKTIO_HTTP_READ_TIMEOUT" := "1m" ]} : gmap str str in
  exists c, Load e = inr c /\ well_formed c /\ http_ReadTimeout (c_HTTP c) = 60000000000%Z.
Proof.
  intros e. destruct (Load e) as [err|c] eqn:E; [exfalso; vm_compute in E; discriminate|].
  exists c. split; [done|]. split; [exact (Load_well_formed e c E)|].
  vm_compute in E. injection E as <-. reflexivity.
Defined.
