(* ===== verification/BootProofs.v ===== *)
(** Boot: the storage engine is bootstrapped exactly when no cluster is registered,
    and what is registered then is sealed. *)
From S2P Require Import Prelude GoStrings Storage Garage GarageManager MemStore Database Repository AuditLog Service Frames Example AccountProofs Config Boot.
#[local] Open Scope string_scope.
Import Config Boot.

Section Boots.
Context {ENV : Env} {B : Type} `{!GarageServer B} (environ : gmap str str)
  (factories : gmap str (Factory B)) (sealer_open : str -> str + str)
  (sealer_seal : nat -> str -> str + str) (cfg : Config) (ticks : nat) (prov0 : StorageProvider B).
Implicit Types (w : World B).
#[local] Abbreviation provision := (Provision environ factories sealer_open sealer_seal cfg ticks prov0).
#[local] Abbreviation ensure := (ensureCluster environ sealer_seal cfg ticks).

(** The storage engine and the cluster table. *)
Definition engine_view w := (w_be w, clusters (w_db w)).
Definition engine : World B -> World B -> Prop := same engine_view.
#[local] Instance engine_preorder : PreOrder engine.
Proof. apply same_preorder. Qed.

Lemma engine_db {A} (m : M DB DBErr A) : Guar (same clusters) m -> Guar engine (db (B := B) m).
Proof.
  intros Hm. apply guar_zoom. intros w r d H. specialize (Hm _ _ _ H).
  unfold engine, same, engine_view in *. cbn. by rewrite Hm.
Qed.
Lemma engine_tenant : Guar engine (boot_db (B := B) Store.EnsureDefaultTenant).
Proof.
  unfold boot_db. apply guar_mapErr, engine_db.
  unfold Store.EnsureDefaultTenant, Store.select_or, Store.insert_org, Store.insert_default_project.
  apply guar_transact; [apply _|done|].
  repeat first [guar_step | apply guar_query_row; [apply _|done]
               | apply guar_insert; [apply _|done|intros; by simplify_eq]
               | case_match ].
Qed.
Lemma engine_quiet {E A} (m : M (World B) E A) : Guar quiet m -> Guar engine m.
Proof.
  intros Hm w r w' H. apply Hm, quiet_inv in H as (Ht & Hb & _).
  unfold engine, same, engine_view. rewrite Hb. by rewrite (f_equal clusters Ht : clusters (w_db w) = _).
Qed.
Lemma engine_Provider s id : Guar engine (Registry.Provider (B := B) s id).
Proof.
  unfold Registry.Provider, Store.GetClusterByID. guar.
  - apply engine_quiet, quiet_db, guar_mapErr, reads_query_row.
  - intros w r w' H. unfold modify in H. by simplify_eq.
Qed.

Lemma active_run w r w' : db Store.GetActiveCluster w = (r, w') ->
  engine w w' /\ (r = inl ErrNotFound -> live (clusters (w_db w)) = []) /\
  (forall c, r = inr c -> head (asc cl_CreatedAt (live (clusters (w_db w)))) = Some c).
Proof.
  intros H. split; [by eapply engine_quiet, H; apply quiet_db, guar_mapErr, reads_query_row|].
  apply db_inv in H as (d & H & _). unfold Store.GetActiveCluster, mapErr, query_row, stmt in H.
  destruct (env_fault _); [by injection H as <- _|].
  change (clusters (set_db_tick _ _)) with (clusters (w_db w)) in H.
  destruct (head _) as [c|] eqn:Eh; injection H as <- _; (split; [|by intros c' [= <-]]); [done|].
  intros _. destruct (live (clusters (w_db w))) as [|c l] eqn:El; [done|]. exfalso.
  assert (c ∈ asc cl_CreatedAt (c :: l)) as Hin by (unfold asc; rewrite order_by_elem; set_solver).
  destruct (asc cl_CreatedAt (c :: l)); [set_solver|done].
Qed.

(** ** A first run *)

(** Registering a cluster when there is none. *)
Lemma persist_run c w c' w' :
  (let! _ := boot_db (Store.CreateCluster c) in boot_db Store.GetActiveCluster) w = (inr c', w') ->
  live (clusters (w_db w)) = [] ->
  live (clusters (w_db w')) = [c'] /\ cl_Mode c' = Store.or_default (cl_Mode c) "managed" /\
  cl_AdminTokenEnc c' = cl_AdminTokenEnc c /\ cl_SystemS3SecretEnc c' = cl_SystemS3SecretEnc c /\
  cl_RPCSecretEnc c' = cl_RPCSecretEnc c.
Proof.
  intros H Hnone. apply bind_inr in H as (id & w1 & H1 & H).
  apply mapErr_inr, db_inv in H1 as (d1 & H1 & ->). apply mapErr_inr, insert_inr in H1 as [_ H1].
  injection H1 as <- <-. apply mapErr_inr in H.
  apply active_run in H as (He & _ & Hc). specialize (Hc c' eq_refl). injection He as _ He.
  rewrite <-He. cbn in *. rewrite live_add, Hnone in Hc |- *. cbn in Hc. injection Hc as <-.
  by split_and!.
Qed.

Lemma boot_seal_run plain w blob w1 : boot_seal sealer_seal plain w = (inr blob, w1) ->
  clusters (w_db w1) = clusters (w_db w) /\ exists k, sealer_seal k plain = inr blob.
Proof. unfold boot_seal. intros [= H <-]. eauto. Qed.
Lemma boot_be_run {A E} (f : StErr -> E) (m : M B StErr A) w a w1 :
  mapErr f (be m) w = (inr a, w1) -> clusters (w_db w1) = clusters (w_db w).
Proof. intros H. by apply mapErr_inr, be_inv in H as (b & _ & ->). Qed.

(** What a first run registers. *)
Definition sealed_cluster (c : Cluster) : Prop :=
  (exists k, sealer_seal k (getenv environ "GARAGE_ADMIN_TOKEN") = inr (cl_AdminTokenEnc c)) /\
  (exists k secret, sealer_seal k secret = inr (cl_SystemS3SecretEnc c)) /\
  (cl_RPCSecretEnc c = "" \/
   exists k, sealer_seal k (getenv environ "GARAGE_RPC_SECRET") = inr (cl_RPCSecretEnc c)).

Lemma bootstrap_run w c w' : bootstrapAndPersist environ sealer_seal cfg ticks w = (inr c, w') ->
  live (clusters (w_db w)) = [] ->
  live (clusters (w_db w')) = [c] /\ cl_Mode c = "managed" /\ sealed_cluster c.
Proof.
  intros H Hnone. unfold bootstrapAndPersist in H. destruct (_ =s ""); [done|]. cbn in H.
  apply bind_inr in H as (res & w1 & H1 & H). apply boot_be_run in H1.
  apply bind_inr in H as (aenc & w2 & H2 & H). apply boot_seal_run in H2 as [E2 Ha].
  apply bind_inr in H as (renc & w3 & H3 & H). apply boot_seal_run in H3 as [E3 Hr].
  apply bind_inr in H as (senc & w4 & H4 & H). apply boot_seal_run in H4 as [E4 [k Hs]].
  apply persist_run in H as (Hl & Hm & Ea & Es & Er); [|by rewrite E4, E3, E2, H1].
  split; [done|]. split; [done|]. split_and!.
  - by rewrite Ea.
  - rewrite Es. eauto.
  - right. by rewrite Er.
Qed.
Lemma checkVersion_run st w v w1 : checkVersion (B := B) st w = (inr v, w1) -> w1 = w.
Proof.
  unfold checkVersion, ret, throw. destruct (PrimaryNode st) as [n|]; [|by intros; simplify_eq].
  destruct (ParseVersion _) as [e|ver]; [by intros; simplify_eq|].
  destruct (CheckSupported ver); by intros; simplify_eq.
Qed.
Lemma connect_run w c w' : connectExistingCluster environ sealer_seal cfg w = (inr c, w') ->
  live (clusters (w_db w)) = [] ->
  live (clusters (w_db w')) = [c] /\ cl_Mode c = "external" /\ sealed_cluster c.
Proof.
  intros H Hnone. unfold connectExistingCluster in H. destruct (_ =s ""); [done|]. cbn in H.
  apply bind_inr in H as (st & w1 & H1 & H). apply boot_be_run in H1.
  apply bind_inr in H as (v & w2 & H2 & H). apply checkVersion_run in H2 as ->.
  apply bind_inr in H as (key & w3 & H3 & H).
  assert (clusters (w_db w3) = clusters (w_db w1)) as E3.
  { unfold systemKey in H3. destruct (_ || _); [|unfold ret in H3; by injection H3 as _ <-].
    apply bind_inr in H3 as (k & w3' & H3 & Hret). unfold ret in Hret. injection Hret as _ <-.
    by apply boot_be_run in H3. }
  apply bind_inr in H as (aenc & w4 & H4 & H). apply boot_seal_run in H4 as [E4 Ha].
  apply bind_inr in H as (senc & w5 & H5 & H). apply boot_seal_run in H5 as [E5 [k Hs]].
  apply persist_run in H as (Hl & Hm & Ea & Es & Er); [|by rewrite E5, E4, E3, H1].
  split; [done|]. split; [done|]. split_and!.
  - by rewrite Ea.
  - rewrite Es. eauto.
  - by left.
Qed.

(** ** Every run *)

Lemma ensure_run w r w' : ensure w = (r, w') ->
  (live (clusters (w_db w)) <> [] -> engine w w') /\
  (forall c, r = inr c -> live (clusters (w_db w)) = [] ->
     live (clusters (w_db w')) = [c] /\ sealed_cluster c /\
     cl_Mode c = (if gc_Mode (c_Garage cfg) =s "external" then "external" else "managed")).
Proof.
  unfold ensureCluster. rewrite bind_run, attempt_run.
  destruct (db Store.GetActiveCluster w) as [r1 w1] eqn:E1. apply active_run in E1 as (He & Hnf & Hc).
  injection He as Hbe Hcl. destruct r1 as [[|msg]|c]; cbn.
  - specialize (Hnf eq_refl). intros H. split; [done|]. intros c -> Hnone. rewrite Hcl in Hnone.
    destruct (_ =s "external"); [apply connect_run in H|apply bootstrap_run in H]; naive_solver.
  - intros [= <- <-]. split; [intros _; unfold engine, same, engine_view; by rewrite Hbe, Hcl|done].
  - intros [= <- <-]. split; [intros _; unfold engine, same, engine_view; by rewrite Hbe, Hcl|].
    intros c' [= <-] Hnone. specialize (Hc c eq_refl). by rewrite Hnone in Hc.
Qed.

(** C30: Boot provisions the storage engine exactly once.  When a cluster is
    registered, [Provision] never touches the engine or the cluster table, whatever
    fails; when none is and it succeeds, exactly one cluster has been registered, in
    the configured mode, and it is the one returned, with its admin token, system
    secret and RPC secret only in sealed form. *)
Theorem provision_once w r w' :
  provision w = (r, w') ->
  (live (clusters (w_db w)) <> [] ->
     w_be w' = w_be w /\ clusters (w_db w') = clusters (w_db w)) /\
  (forall p, r = inr p -> live (clusters (w_db w)) = [] ->
     live (clusters (w_db w')) = [pv_Cluster p] /\ sealed_cluster (pv_Cluster p) /\
     cl_Mode (pv_Cluster p) = (if gc_Mode (c_Garage cfg) =s "external" then "external" else "managed")).
Proof.
  unfold Provision. rewrite bind_run. destruct (boot_db _ w) as [rt w1] eqn:E1.
  apply engine_tenant in E1. injection E1 as Hb1 Hc1.
  destruct rt as [e|t]; [intros [= <- <-]; split; [done|by intros p [=]]|].
  rewrite bind_run. destruct (ensure w1) as [rc w2] eqn:E2. apply ensure_run in E2 as [Hkeep Hfirst].
  rewrite <-Hc1 in Hkeep, Hfirst.
  assert (live (clusters (w_db w)) <> [] -> w_be w2 = w_be w /\ clusters (w_db w2) = clusters (w_db w)) as Hk.
  { intros Hne. apply Hkeep in Hne as [= Hb2 Hc2]. split; congruence. }
  destruct rc as [e|c]; [intros [= <- <-]; split; [done|by intros p [=]]|].
  rewrite bind_run. cbn. rewrite bind_run. destruct (mapErr _ _ _) as [rp w3] eqn:E3.
  framed engine E3; [apply guar_mapErr, engine_Provider|]. injection E3 as Hb3 Hc3. cbn in Hb3, Hc3.
  destruct rp as [e|p]; intros [= <- <-]; (split; [intros Hne; destruct (Hk Hne); split; congruence|]);
    [by intros p [=]|].
  intros p' [= <-] Hnone. cbn. rewrite <-Hc3. by apply Hfirst.
Qed.
End Boots.

(** A node that already has its role, on the in-memory object store. *)
Definition static_answer (q : AdminReq) : AdminPayload :=
  match q with
  | ReqGetClusterStatus => PStatus (mkClusterStatusResponse 1 [mkNodeResp "n1" "v2.3.0" "a" "h" true false
                             (Some (mkNodeRole "n1" "dc1" (Some 1%Z) [])) None])
  | ReqGetClusterLayout => PLayout (mkClusterLayoutResponse 1 [mkLayoutRole "n1" "dc1" (Some 1%Z) []] [])
  | ReqCreateKey name _ => PCreateKey (mkCreateKeyResponse "GK1" "secret" name)
  | _ => PNone
  end.
#[export] Instance static_garage : GarageServer MemB :=
  {| ga_http _ q := ret (200%Z, static_answer q, ""); ga_now _ := 0%Z; ga_escape x := x |}.
Definition boot_environ : gmap str str :=
  {[ "GARAGE_ADMIN_TOKEN" := "adm"; "GARAGE_RPC_SECRET" := "rpc" ]}.
Definition boot_config : Config :=
  mkConfig "oss" (mkHTTPConfig ":8080" 0 0 [] (mkTLSConfig "off" [] "" "")) (mkDBConfig "postgres://db")
    (mkGarageConfig "managed" "http://garage:3903" "http://garage:3900" "garage" "" "") "info"
    false false false false.
Definition boot_seal_ex (n : nat) (p : str) : str + str := inr ("sealed:" ++ Itoa (Z.of_nat n) ++ ":" ++ p).
Definition boot_run (w : World MemB) :=
  @Provision ex_env _ _ boot_environ {[ "garage" := fun _ => inr (mem_provider caps_garage false) ]}
    (fun b => inr b) boot_seal_ex boot_config 3 (mem_provider caps_garage false) w.

Lemma provision_once_witness :
  let w0 := mkWorld empty_db ∅ ∅ 0 [] in
  exists p w1 r w2, boot_run w0 = (inr p, w1) /\ cl_Mode (pv_Cluster p) = "managed" /\
    live (clusters (w_db w1)) = [pv_Cluster p] /\
    boot_run w1 = (r, w2) /\ clusters (w_db w2) = clusters (w_db w1).
Proof.
  intros w0. assert (failed (fst (boot_run w0)) = false) as Hok by (vm_compute; reflexivity).
  destruct (fst (boot_run w0)) as [e|p] eqn:E; [discriminate Hok|].
  pose proof (fun w r w' (H : boot_run w = (r, w')) =>
    provision_once (ENV := ex_env) boot_environ {[ "garage" := fun _ => inr (mem_provider caps_garage false) ]}
      (fun b => inr b) boot_seal_ex boot_config 3 (mem_provider caps_garage false) w r w' H) as T.
  destruct (T w0 (inr p) (snd (boot_run w0))
    (eq_trans (surjective_pairing (boot_run w0)) (f_equal2 pair E eq_refl))) as [_ Hfirst].
  destruct (Hfirst p eq_refl eq_refl) as (Hl & _ & Hm). clear Hfirst.
  remember (snd (boot_run w0)) as w1 eqn:E1.
  exists p, w1, (fst (boot_run w1)), (snd (boot_run w1)).
  split; [by rewrite (surjective_pairing (boot_run w0)), E, E1|].
  split; [exact Hm|]. split; [exact Hl|]. split; [apply surjective_pairing|].
  destruct (T w1 (fst (boot_run w1)) (snd (boot_run w1)) (surjective_pairing _)) as [Hkeep _].
  apply Hkeep. rewrite Hl. discriminate.
Defined.
