(* ===== verification/ConvertProofs.v ===== *)
(** The conversion copies every row of a consistent SQLite database, on all columns but
    the identities, whatever the destination held; the table order is right for every
    foreign key of the schema.  The SQLite migration runner applies each pending file once, in order. *)
From Stdlib Require Import Ascii.
From S2P Require Import Prelude GoStrings Config Convert.
#[local] Open Scope string_scope.
#[local] Open Scope list_scope.
Import Db.

(** * The order of the tables *)

(** Walking down the list, every reference of a table leads to one already passed. *)
Fixpoint parents_first (pre l : list str) : bool :=
  match l with
  | [] => true
  | t :: l' =>
      forallb (fun fk => implb (fk_table fk =s t) (existsb (String.eqb (fk_ref fk)) pre)) schema_fks
      && parents_first (pre ++ [t]) l'
  end.
(** Walking down the list, whatever refers to a table was passed before it. *)
Fixpoint children_first (pre l : list str) : bool :=
  match l with
  | [] => true
  | t :: l' =>
      forallb (fun fk => implb (fk_ref fk =s t) (existsb (String.eqb (fk_table fk)) pre)) schema_fks
      && children_first (pre ++ [t]) l'
  end.

Lemma copy_order : parents_first [] convertTableOrder = true.
Proof. vm_compute. reflexivity. Qed.
Lemma clear_order : children_first [] (rev convertTableOrder) = true.
Proof. vm_compute. reflexivity. Qed.
Lemma tables_distinct : NoDup convertTableOrder.
Proof. apply (bool_decide_unpack _). vm_compute. exact I. Qed.

Lemma existsb_in x l : existsb (String.eqb x) l = true <-> x ∈ l.
Proof.
  rewrite existsb_exists. split.
  - intros (y & Hy & E). apply eqb_true_str in E as <-. by apply list_elem_of_In.
  - intros H. exists x. split; [by apply list_elem_of_In|apply eqb_refl_str].
Qed.
Lemma parents_first_step pre t l fk : parents_first pre (t :: l) = true -> fk ∈ schema_fks ->
  fk_table fk = t -> fk_ref fk ∈ pre.
Proof.
  intros H Hin <-. apply andb_true_iff in H as [H _].
  rewrite forallb_forall in H. apply list_elem_of_In in Hin. specialize (H _ Hin).
  rewrite eqb_refl_str in H. by apply existsb_in.
Qed.
Lemma children_first_step pre t l fk : children_first pre (t :: l) = true -> fk ∈ schema_fks ->
  fk_ref fk = t -> fk_table fk ∈ pre.
Proof.
  intros H Hin <-. apply andb_true_iff in H as [H _].
  rewrite forallb_forall in H. apply list_elem_of_In in Hin. specialize (H _ Hin).
  rewrite eqb_refl_str in H. by apply existsb_in.
Qed.

Lemma elem_of_snoc {A} (x y : A) l : x ∈ l ++ [y] -> x <> y -> x ∈ l.
Proof. rewrite elem_of_app, list_elem_of_singleton. naive_solver. Qed.

(** * What the conversion relies on *)

Section Laws.
Context {PG : Type}.
Context (Migrate OpenPool : M PG str unit) (information_schema : str -> M PG str (list (pgCol * bool)))
  (pg_exec : str -> list Val -> M PG str unit) (sq_query : str -> str + (list (list Val) * option str)).
(** The columns of a table that are no identity, the rows of a table seen through
    them, the row Postgres stores for a list of values (casts, NOT NULL, CHECK), the
    unique indexes. *)
Context (cols : str -> list pgCol) (rows : PG -> str -> list Row)
  (admits : str -> list Val -> option Row) (uniq : str -> list Row -> Prop).

(** No row elsewhere refers to the table. *)
Definition unreferenced (t : str) (tabs : str -> list Row) : Prop :=
  forall fk r, fk ∈ schema_fks -> fk_ref fk = t -> r ∈ tabs (fk_table fk) ->
    default VNull (r !! fk_col fk) = VNull.
(** Every reference of the row leads to a row. *)
Definition references_hold (t : str) (row : Row) (tabs : str -> list Row) : Prop :=
  forall fk, fk ∈ schema_fks -> fk_table fk = t ->
    default VNull (row !! fk_col fk) = VNull \/
    exists r, r ∈ tabs (fk_ref fk) /\ r !! fk_refcol fk = row !! fk_col fk.

Class PostgresLaws := {
  columns_law t db : exists l, information_schema t db = (inr l, db) /\
    cols t = map fst (where_ (fun c => negb (snd c)) l);
  delete_law t db : t ∈ convertTableOrder -> unreferenced t (rows db) ->
    exists db', pg_exec (delSQL t) [] db = (inr tt, db') /\ rows db' t = [] /\
      forall t', t' <> t -> rows db' t' = rows db t';
  insert_law t vals row db : t ∈ convertTableOrder -> admits t vals = Some row ->
    references_hold t row (rows db) -> uniq t (rows db t ++ [row]) ->
    exists db', pg_exec (insSQL t (cols t)) vals db = (inr tt, db') /\
      rows db' t = rows db t ++ [row] /\ forall t', t' <> t -> rows db' t' = rows db t';
  uniq_prefix t l l' : uniq t (l ++ l') -> uniq t l }.

(** The source holds [src], row by row admissible, and is itself consistent. *)
Record Consistent (src : str -> list Row) : Prop := {
  src_rows t : t ∈ convertTableOrder -> cols t <> [] ->
    exists raw, sq_query (selSQL t (cols t)) = inr (raw, None) /\
      Forall2 (fun vals row => admits t (zip_with convertValue (cols t) vals) = Some row) raw (src t);
  src_empty t : cols t = [] -> src t = [];
  src_refs t row : t ∈ convertTableOrder -> row ∈ src t -> references_hold t row src;
  src_uniq t : uniq t (src t) }.

Context `{!PostgresLaws}.

Lemma clear_tables pre l db : children_first pre l = true -> Forall (.∈ convertTableOrder) l ->
  (forall t, t ∈ pre -> rows db t = []) ->
  exists db', forM_ l (clearTable pg_exec) db = (inr tt, db') /\
    forall t, t ∈ (pre ++ l)%list -> rows db' t = [].
Proof.
  revert pre db. induction l as [|t l IH]; intros pre db Hc Hl Hpre.
  { exists db. split; [done|]. intros t. rewrite app_nil_r. apply Hpre. }
  apply Forall_cons in Hl as [Ht Hl].
  destruct (delete_law t db Ht) as (db1 & Hdel & Hemp & Hoth).
  { intros fk r Hfk Href Hr. rewrite Hpre in Hr; [by apply not_elem_of_nil in Hr|].
    by eapply children_first_step. }
  destruct (IH (pre ++ [t])%list db1) as (db' & Hrun & Hall); [by apply andb_true_iff in Hc as [_ ?]|done| |].
  { intros t' Ht'. destruct (decide (t' = t)) as [->|Hne]; [done|].
    rewrite Hoth by done. apply Hpre. by eapply elem_of_snoc. }
  exists db'. split; [|by rewrite <-app_assoc in Hall].
  cbn [forM_]. unfold clearTable at 1. rewrite bind_run. unfold mapErr. rewrite Hdel. exact Hrun.
Qed.

Lemma references_mono t row tabs tabs' :
  references_hold t row tabs ->
  (forall fk, fk ∈ schema_fks -> fk_table fk = t -> tabs' (fk_ref fk) = tabs (fk_ref fk)) ->
  references_hold t row tabs'.
Proof.
  intros Hr He fk Hin Ht. destruct (Hr fk Hin Ht) as [?|(r & Hr' & E)]; [by left|right].
  exists r. by rewrite He.
Qed.

(** One table: the rows arrive in the order of the source. *)
Lemma copy_rows t raw new : t ∈ convertTableOrder -> forall done_ n db,
  Forall2 (fun vals row => admits t (zip_with convertValue (cols t) vals) = Some row) raw new ->
  rows db t = done_ -> uniq t (done_ ++ new) ->
  (forall row, row ∈ new -> references_hold t row (rows db)) ->
  (forall fk, fk ∈ schema_fks -> fk_table fk = t -> fk_ref fk <> t) ->
  exists db', copyRows pg_exec (insSQL t (cols t)) (cols t) raw n db = (inr (n + length new), db') /\
    rows db' t = (done_ ++ new)%list /\ forall t', t' <> t -> rows db' t' = rows db t'.
Proof.
  intros Ht done_ n db Hf. revert done_ n db.
  induction Hf as [|vals row raw new Ha Hf IH]; intros done_ n db Hdone Huniq Hrefs Hself; cbn [copyRows].
  { exists db. rewrite Nat.add_0_r, app_nil_r. done. }
  destruct (insert_law t _ row db Ht Ha) as (db1 & Hins & Hrow & Hoth).
  { apply Hrefs, list_elem_of_here. }
  { rewrite Hdone. eapply uniq_prefix. rewrite <-app_assoc. exact Huniq. }
  destruct (IH (done_ ++ [row])%list (S n) db1) as (db' & Hrun & Hrows & Hoth'); try done.
  { by rewrite Hrow, Hdone. }
  { by rewrite <-app_assoc. }
  { intros row' Hin. eapply references_mono; [by apply Hrefs, list_elem_of_further|].
    intros fk Hfk Htab. apply Hoth. by apply Hself. }
  exists db'. rewrite bind_run, Hins, Hrun. cbn [length]. split; [f_equal; f_equal; lia|].
  split; [by rewrite Hrows, <-app_assoc|]. intros t' Hne. rewrite Hoth' by done. by apply Hoth.
Qed.

Lemma self_free t fk : fk ∈ schema_fks -> fk_table fk = t -> fk_ref fk <> t.
Proof.
  intros Hin <-. revert fk Hin. apply Forall_forall. apply (bool_decide_unpack _). vm_compute. exact I.
Qed.

(** All tables are empty once they are cleared. *)
Lemma clear_all db : exists db', forM_ (rev convertTableOrder) (clearTable pg_exec) db = (inr tt, db') /\
  forall t, t ∈ convertTableOrder -> rows db' t = [].
Proof.
  destruct (clear_tables [] (rev convertTableOrder) db clear_order) as (db' & Hclear & Hemp).
  { apply Forall_forall. intros t. rewrite !list_elem_of_In. apply in_rev. }
  { intros t Ht. by apply not_elem_of_nil in Ht. }
  exists db'. split; [done|]. intros t Ht. apply Hemp. revert Ht. rewrite !list_elem_of_In. apply in_rev.
Qed.

(** The destination is cleared before the source is read: when the source turns out
    to be unreadable (a mistyped path opens as an empty database), the conversion
    fails and every table of the destination is empty. *)
Theorem unreadable_source_wipes_destination db0 db1 db2 e :
  Migrate db0 = (inr tt, db1) -> OpenPool db1 = (inr tt, db2) ->
  cols "users" <> [] -> sq_query (selSQL "users" (cols "users")) = inl e ->
  exists msg db', ConvertSQLiteToPostgres Migrate OpenPool information_schema pg_exec None sq_query db0 =
      (inl msg, db') /\ forall t, t ∈ convertTableOrder -> rows db' t = [].
Proof.
  intros Hmig Hopen Hcols Hq.
  destruct (clear_all db2) as (db3 & Hclear & Hemp).
  destruct (columns_law "users" db3) as (ic & Hic & Hc).
  eexists _, db3. split; [|exact Hemp]. unfold ConvertSQLiteToPostgres.
  rewrite bind_run. unfold mapErr at 1. rewrite Hmig, bind_run, Hopen, bind_run, Hclear.
  cbn [foldM convertTableOrder]. rewrite bind_run. unfold convertTable at 1, pgColumns.
  rewrite bind_run. unfold mapErr at 1. rewrite bind_run, Hic. cbn -[selSQL]. rewrite <-Hc.
  rewrite bind_run. unfold mapErr, copyTable. destruct (cols "users") eqn:Ec; [done|].
  rewrite Hq. reflexivity.
Qed.

Context (src : str -> list Row) (Hsrc : Consistent src).

Lemma copy_table t db : t ∈ convertTableOrder -> rows db t = [] ->
  (forall row, row ∈ src t -> references_hold t row (rows db)) ->
  exists db', copyTable pg_exec sq_query t (cols t) db = (inr (length (src t)), db') /\
    rows db' t = src t /\ forall t', t' <> t -> rows db' t' = rows db t'.
Proof.
  intros Ht Hemp Hrefs. unfold copyTable. destruct (cols t) as [|c cs] eqn:Ec.
  { exists db. rewrite (src_empty _ Hsrc t Ec). done. }
  destruct (src_rows _ Hsrc t Ht) as (raw & Hq & Hraw); [by rewrite Ec|]. rewrite <-Ec, Hq.
  destruct (copy_rows t raw (src t) Ht [] 0 db Hraw Hemp) as (db' & Hrun & Hrows & Hoth).
  { apply (src_uniq _ Hsrc). } { done. } { apply self_free. }
  exists db'. rewrite bind_run, Hrun. done.
Qed.

Lemma copy_tables pre l total db : parents_first pre l = true -> NoDup (pre ++ l) ->
  Forall (.∈ convertTableOrder) l ->
  (forall t, t ∈ pre -> rows db t = src t) -> (forall t, t ∈ l -> rows db t = []) ->
  exists db', foldM (convertTable information_schema pg_exec sq_query) total l db =
      (inr (total + sum_list (map (fun t => length (src t)) l)), db') /\
    forall t, t ∈ (pre ++ l)%list -> rows db' t = src t.
Proof.
  revert pre total db. induction l as [|t l IH]; intros pre total db Hp Hnd Hl Hpre Hrest.
  { exists db. rewrite Nat.add_0_r, app_nil_r. done. }
  apply Forall_cons in Hl as [Ht Hl].
  assert ((t ∉ pre) /\ (t ∉ l)) as [Hnp Hnl] by (apply NoDup_app in Hnd as (_ & Hd & Hnd);
    apply NoDup_cons in Hnd as [? _]; split; [|done]; intros Hin; apply (Hd t Hin), list_elem_of_here).
  destruct (copy_table t db Ht) as (db1 & Hcopy & Hrows & Hoth); [apply Hrest, list_elem_of_here| |].
  { intros row Hin. eapply references_mono; [by eapply src_refs|].
    intros fk Hfk Htab. apply Hpre. by eapply parents_first_step. }
  destruct (columns_law t db) as (ic & Hic & Hcols).
  destruct (IH (pre ++ [t])%list (total + length (src t)) db1) as (db' & Hrun & Hall).
  { by apply andb_true_iff in Hp as [_ ?]. } { by rewrite <-app_assoc. } { done. }
  { intros t' Ht'. destruct (decide (t' = t)) as [->|Hne]; [done|].
    rewrite Hoth by done. apply Hpre. by eapply elem_of_snoc. }
  { intros t' Ht'. rewrite Hoth by (by intros ->). by apply Hrest, list_elem_of_further. }
  exists db'. split; [|by rewrite <-app_assoc in Hall].
  cbn [foldM]. unfold convertTable at 1, pgColumns. rewrite !bind_run. unfold mapErr at 1.
  rewrite bind_run, Hic. cbn. rewrite <-Hcols, bind_run. unfold mapErr. rewrite Hcopy. cbn.
  rewrite Hrun. f_equal. f_equal. lia.
Qed.

(** C31: the upgrade from SQLite to PostgreSQL loses no row and no copied column.  The
    copied columns are all but the identity columns (the ids of usage_snapshots,
    audit_events, signup_attempts and billing_usage_reports), which the destination
    numbers anew, so the audit hashes, which cover the id, no longer verify.  Let the
    source be consistent: every table's select succeeds, Postgres accepts each of its
    rows after [convertValue] (the casts, NOT NULL and CHECK constraints hold), every
    foreign key of the schema leads to a row, and the unique indexes hold.  Then,
    whatever rows the migrated destination held, the conversion succeeds; each of the
    thirty-three tables holds, on the copied columns, exactly the rows the source's
    select returned, converted, in that order; and the count it reports is theirs.  The
    clearing and the copy never violate a foreign key, for any engine that keeps
    Postgres' promises on the statements issued. *)
Theorem conversion_exact db0 db1 db2
    (Hmig : Migrate db0 = (inr tt, db1)) (Hopen : OpenPool db1 = (inr tt, db2)) :
  exists db', ConvertSQLiteToPostgres Migrate OpenPool information_schema pg_exec None sq_query db0 =
      (inr (sum_list (map (fun t => length (rows db' t)) convertTableOrder)), db') /\
    forall t, t ∈ convertTableOrder ->
      rows db' t = src t /\
      (cols t <> [] -> exists raw, sq_query (selSQL t (cols t)) = inr (raw, None) /\
         Forall2 (fun vals row => admits t (zip_with convertValue (cols t) vals) = Some row)
           raw (rows db' t)).
Proof.
  destruct (clear_all db2) as (db3 & Hclear & Hemp).
  destruct (copy_tables [] convertTableOrder 0 db3 copy_order tables_distinct) as (db' & Hcopy & Hall).
  { by apply Forall_forall. } { intros t Ht. by apply not_elem_of_nil in Ht. }
  { exact Hemp. }
  exists db'. split.
  - unfold ConvertSQLiteToPostgres.
    rewrite bind_run. unfold mapErr. rewrite Hmig, bind_run, Hopen, bind_run, Hclear.
    replace (map (fun t => length (rows db' t)) convertTableOrder)
      with (map (fun t => length (src t)) convertTableOrder); [exact Hcopy|].
    apply map_ext_in. intros t Ht. by rewrite Hall by (by apply list_elem_of_In).
  - intros t Ht. rewrite Hall by done. split; [done|]. by apply (src_rows _ Hsrc).
Qed.

End Laws.

(** * A database in memory *)

Definition mem_cols (t : str) : list pgCol :=
  if t =s "users" then [mkpgCol "id" "uuid" "uuid"; mkpgCol "email" "text" "text"]
  else if t =s "organizations" then [mkpgCol "id" "uuid" "uuid"]
  else if t =s "organization_members" then
    [mkpgCol "org_id" "uuid" "uuid"; mkpgCol "user_id" "uuid" "uuid"; mkpgCol "active" "boolean" "bool"]
  else if t =s "api_tokens" then [mkpgCol "user_id" "uuid" "uuid"; mkpgCol "scopes" "ARRAY" "_text"]
  else [].
Definition mem_admits (t : str) (vals : list Val) : option Row :=
  if Nat.eqb (length vals) (length (mem_cols t))
  then Some (list_to_map (zip (map pc_name (mem_cols t)) vals)) else None.
Abbreviation MemPG := (gmap str (list Row)).
Definition mem_rows (db : MemPG) (t : str) : list Row := default [] (db !! t).
Definition mem_exec (sql : str) (vals : list Val) : M MemPG str unit := fun db =>
  match find (fun t => sql =s delSQL t) convertTableOrder with
  | Some t => (inr tt, <[t := []]> db)
  | None =>
      match find (fun t => sql =s insSQL t (mem_cols t)) convertTableOrder with
      | Some t =>
          match mem_admits t vals with
          | Some row => (inr tt, <[t := mem_rows db t ++ [row]]> db)
          | None => (inl "invalid row", db)
          end
      | None => (inl "syntax error", db)
      end
  end.
Definition mem_schema (t : str) : M MemPG str (list (pgCol * bool)) :=
  ret ((mkpgCol "seq" "bigint" "int8", true) :: map (fun c => (c, false)) (mem_cols t)).

Lemma mem_del_found t : t ∈ convertTableOrder ->
  find (fun t' => delSQL t =s delSQL t') convertTableOrder = Some t.
Proof.
  revert t. apply Forall_forall. apply (bool_decide_unpack _). vm_compute. exact I.
Qed.
Lemma mem_ins_found t : t ∈ convertTableOrder ->
  find (fun t' => insSQL t (mem_cols t) =s delSQL t') convertTableOrder = None /\
  find (fun t' => insSQL t (mem_cols t) =s insSQL t' (mem_cols t')) convertTableOrder = Some t.
Proof.
  revert t. apply Forall_forall. apply (bool_decide_unpack _). vm_compute. exact I.
Qed.
Lemma mem_rows_insert t l db : mem_rows (<[t := l]> db) t = l /\
  forall t', t' <> t -> mem_rows (<[t := l]> db) t' = mem_rows db t'.
Proof.
  unfold mem_rows. split; [by rewrite lookup_insert_eq|]. intros t' Hne. by rewrite lookup_insert_ne.
Qed.

Lemma mem_laws : PostgresLaws mem_schema mem_exec mem_cols mem_rows mem_admits (fun _ _ => True).
Proof.
  split; [| | |done].
  - intros t db. eexists. split; [done|]. cbn. induction (mem_cols t) as [|c l IH]; [done|].
    cbn. by rewrite <-IH.
  - intros t db Ht _. exists (<[t := []]> db). unfold mem_exec. rewrite mem_del_found by done.
    split; [done|apply mem_rows_insert].
  - intros t vals row db Ht Ha _ _. exists (<[t := mem_rows db t ++ [row]]> db). unfold mem_exec.
    destruct (mem_ins_found t Ht) as [-> ->]. rewrite Ha. split; [done|apply mem_rows_insert].
Qed.

(** One user, one organization, one membership whose flag SQLite keeps as 1, and a
    token with two scopes; the destination holds a stale user. *)
Definition mem_source (sql : str) : str + (list (list Val) * option str) :=
  inr (if sql =s selSQL "users" (mem_cols "users") then [[VText "u1"; VText "a@x"]]
       else if sql =s selSQL "organizations" (mem_cols "organizations") then [[VText "o1"]]
       else if sql =s selSQL "organization_members" (mem_cols "organization_members")
       then [[VText "o1"; VText "u1"; VInt 1]]
       else if sql =s selSQL "api_tokens" (mem_cols "api_tokens") then [[VText "u1"; VText "read,write"]]
       else [], None).
Definition mem_src (t : str) : list Row :=
  if t =s "users" then [{[ "id" := VText "u1"; "email" := VText "a@x" ]}]
  else if t =s "organizations" then [{[ "id" := VText "o1" ]}]
  else if t =s "organization_members"
  then [{[ "org_id" := VText "o1"; "user_id" := VText "u1"; "active" := VBool true ]}]
  else if t =s "api_tokens" then [{[ "user_id" := VText "u1"; "scopes" := VText "{read,write}" ]}]
  else [].

Lemma mem_source_rows t : t ∈ convertTableOrder -> mem_cols t <> [] ->
  exists raw, mem_source (selSQL t (mem_cols t)) = inr (raw, None) /\
    Forall2 (fun vals row => mem_admits t (zip_with convertValue (mem_cols t) vals) = Some row) raw (mem_src t).
Proof.
  intros Hin Hne. unfold mem_cols in Hne. repeat case_match; bool_prop; subst; try done;
    (eexists; split; [vm_compute; reflexivity|]; repeat constructor; vm_compute; reflexivity).
Qed.
Lemma mem_src_cases t row : row ∈ mem_src t ->
  t = "users" \/ t = "organizations" \/
  (t = "organization_members" /\ row = {[ "org_id" := VText "o1"; "user_id" := VText "u1"; "active" := VBool true ]}) \/
  (t = "api_tokens" /\ row = {[ "user_id" := VText "u1"; "scopes" := VText "{read,write}" ]}).
Proof.
  unfold mem_src. repeat case_match; bool_prop; subst; intros Hr; set_solver.
Qed.
Lemma mem_refs t row : row ∈ mem_src t -> references_hold t row mem_src.
Proof.
  intros Hr. apply mem_src_cases in Hr as Hc. intros fk Hfk Ht.
  assert (Forall (fun fk => fk_table fk <> "users" /\ fk_table fk <> "organizations" /\
    (fk_table fk = "organization_members" -> fk = mkFK "organization_members" "org_id" "organizations" "id" \/
       fk = mkFK "organization_members" "user_id" "users" "id") /\
    (fk_table fk = "api_tokens" -> fk = mkFK "api_tokens" "user_id" "users" "id" \/
       fk = mkFK "api_tokens" "org_id" "organizations" "id")) schema_fks) as Hall.
  { repeat (apply Forall_cons; split; [split_and!; try discriminate; intros E;
      first [by left|by right|discriminate E]|]). apply Forall_nil_2. }
  rewrite Forall_forall in Hall. destruct (Hall fk Hfk) as (N1 & N2 & M & A). rewrite Ht in *.
  destruct Hc as [->|[->|[[-> ->]|[-> ->]]]]; [done|done| |].
  - destruct (M eq_refl) as [->| ->]; right; eexists; (split; [apply list_elem_of_here|done]).
  - destruct (A eq_refl) as [->| ->]; [right; eexists; (split; [apply list_elem_of_here|done])|by left].
Qed.
Lemma mem_consistent : Consistent mem_source mem_cols mem_admits (fun _ _ => True) mem_src.
Proof.
  split; [exact mem_source_rows| |intros t row _; apply mem_refs|done].
  intros t. unfold mem_cols, mem_src. by repeat case_match.
Qed.

Lemma conversion_exact_witness :
  let stale : MemPG := {[ "users" := [{[ "id" := VText "old" ]}] ]} in
  exists db', ConvertSQLiteToPostgres (ret tt) (ret tt) mem_schema mem_exec None mem_source stale =
      (inr 4, db') /\
    mem_rows db' "users" = [{[ "id" := VText "u1"; "email" := VText "a@x" ]}] /\
    mem_rows db' "api_tokens" = [{[ "user_id" := VText "u1"; "scopes" := VText "{read,write}" ]}].
Proof.
  intros stale.
  destruct (conversion_exact (ret tt) (ret tt) mem_schema mem_exec mem_source mem_cols mem_rows mem_admits
    (fun _ _ => True) (H := mem_laws) mem_src mem_consistent stale stale stale eq_refl eq_refl)
    as (db' & Hrun & Hrows).
  assert (forall t, bool_decide (t ∈ convertTableOrder) = true -> mem_rows db' t = mem_src t) as Hall
    by (intros t Ht; by apply Hrows, (bool_decide_unpack _), Is_true_true).
  exists db'. split; [|split; [by apply (Hall "users")|by apply (Hall "api_tokens")]].
  rewrite Hrun. do 2 f_equal. cbn [convertTableOrder map]. rewrite !Hall by (vm_compute; reflexivity).
  reflexivity.
Defined.

(** * The SQLite migration runner *)

Lemma by_version_perm l : by_version l ≡ₚ l.
Proof.
  unfold by_version. induction l as [|m l IH]; [done|]. cbn. rewrite <-IH at 2.
  generalize (foldr insert_mig [] l) as k. clear. induction k as [|x k IH]; [done|]. cbn.
  case_match; [done|]. rewrite IH. apply Permutation_swap.
Qed.
Lemma insert_mig_sorted m l : Sorted Z.le (map mg_version l) -> Sorted Z.le (map mg_version (insert_mig m l)).
Proof.
  induction l as [|x l IH]; intros Hs; cbn; [by repeat constructor|].
  destruct (Z.leb_spec (mg_version m) (mg_version x)); cbn; [by constructor; [|constructor]|].
  inversion Hs as [|? ? Hs' Hhd]; subst. constructor; [by apply IH|].
  destruct l as [|y l]; cbn; [constructor; lia|]. cbn in Hhd. inversion Hhd; subst.
  case_match; cbn; constructor; lia.
Qed.
Lemma by_version_sorted l : Sorted Z.le (map mg_version (by_version l)).
Proof.
  unfold by_version. induction l as [|m l IH]; [constructor|]. by apply insert_mig_sorted.
Qed.

Definition pending (ledger : list Z) (l : list mig) : list mig :=
  where_ (fun m => negb (bool_decide (mg_version m ∈ ledger))) l.

Lemma pending_sorted ledger l :
  Sorted Z.le (map mg_version l) -> Sorted Z.le (map mg_version (pending ledger l)).
Proof.
  intros Hs. apply Sorted_StronglySorted in Hs; [|intros ???; lia]. apply StronglySorted_Sorted.
  induction l as [|m l IH]; [constructor|]. cbn in Hs |- *. inversion Hs as [|? ? Hs' Hall]; subst.
  destruct (negb _); [|by apply IH]. cbn. constructor; [by apply IH|].
  rewrite List.Forall_forall in Hall |- *. intros v Hv. apply Hall.
  apply in_map_iff in Hv as (x & <- & Hx). apply in_map. apply filter_In in Hx. by destruct Hx.
Qed.

Lemma apply_pending applied l d :
  forM_ l (fun m => if bool_decide (mg_version m ∈ applied) then ret tt else applyOne (fun _ => None) m) d =
  (inr tt, mkSQ (sq_tick d + 2 * length (pending applied l)) (sq_ledger d ++ map mg_version (pending applied l))
             (sq_ran d ++ map mg_body (pending applied l))).
Proof.
  revert d. induction l as [|m l IH]; intros d; cbn [forM_ pending where_].
  { cbn. destruct d. rewrite !app_nil_r, Nat.add_0_r. done. }
  destruct (bool_decide (mg_version m ∈ applied)) eqn:E; cbn [negb].
  - rewrite bind_run. apply IH.
  - rewrite bind_run. unfold applyOne. rewrite bind_run. cbn -[Nat.mul]. rewrite IH.
    fold (pending applied l). cbn [length map sq_tick sq_ledger sq_ran]. rewrite <-!app_assoc.
    cbn [app]. do 2 f_equal. lia.
Qed.

Lemma MigrateSQLite_run entries migs d : migrations entries = inr migs ->
  MigrateSQLite (fun _ => None) entries d =
  (inr tt, let l := pending (sq_ledger d) (by_version migs) in
   mkSQ (S (S (sq_tick d)) + 2 * length l) (sq_ledger d ++ map mg_version l) (sq_ran d ++ map mg_body l)).
Proof.
  intros Hm. unfold MigrateSQLite. rewrite bind_run. cbn [mapErr statement]. rewrite bind_run. cbn.
  rewrite Hm. exact (apply_pending (sq_ledger d) (by_version migs)
    (mkSQ (S (S (sq_tick d))) (sq_ledger d) (sq_ran d))).
Qed.

(** The migrations of the SQLite backend.  When no statement fails, a start
    executes exactly the files whose version is not recorded, in ascending order of
    their versions, and records them; the next start executes none. *)
Theorem sqlite_migrations_once entries migs d d1 d2
    (Hm : migrations entries = inr migs)
    (H1 : MigrateSQLite (fun _ => None) entries d = (inr tt, d1))
    (H2 : MigrateSQLite (fun _ => None) entries d1 = (inr tt, d2)) :
  (exists ran, sq_ran d1 = sq_ran d ++ map mg_body ran /\ sq_ledger d1 = sq_ledger d ++ map mg_version ran /\
     Sorted Z.le (map mg_version ran) /\
     forall m, m ∈ ran <-> m ∈ migs /\ (mg_version m ∉ sq_ledger d)) /\
  sq_ran d2 = sq_ran d1 /\ sq_ledger d2 = sq_ledger d1.
Proof.
  rewrite (MigrateSQLite_run _ _ _ Hm) in H1. injection H1 as <-. cbn.
  rewrite (MigrateSQLite_run _ _ _ Hm) in H2. injection H2 as <-. cbn.
  set (ran := pending (sq_ledger d) (by_version migs)).
  assert (pending (sq_ledger d ++ map mg_version ran) (by_version migs) = []) as ->.
  { apply where_false. intros m Hin. apply negb_false_iff, bool_decide_eq_true_2.
    destruct (decide (mg_version m ∈ sq_ledger d)) as [?|Hno]; [set_solver|].
    apply elem_of_app. right. apply list_elem_of_In, in_map, list_elem_of_In. apply where_elem.
    split; [done|]. apply negb_true_iff. by apply bool_decide_eq_false_2. }
  cbn. rewrite !app_nil_r. split; [|done]. exists ran. split_and!; [done..| |].
  - apply pending_sorted, by_version_sorted.
  - intros m. unfold ran, pending. rewrite where_elem, by_version_perm, negb_true_iff, bool_decide_eq_false. done.
Qed.

Definition demo_entries : list (str * str) :=
  [("0031_more.up.sql", "ALTER TABLE b"); ("0030_oss_baseline.up.sql", "CREATE TABLE a"); ("README.md", "")].
Lemma sqlite_migrations_once_witness :
  let d := mkSQ 0 [] [] in
  exists d1, MigrateSQLite (fun _ => None) demo_entries d = (inr tt, d1) /\
    sq_ran d1 = ["CREATE TABLE a"; "ALTER TABLE b"] /\
    exists d2, MigrateSQLite (fun _ => None) demo_entries d1 = (inr tt, d2) /\
      sq_ran d2 = sq_ran d1 /\ sq_ledger d2 = sq_ledger d1.
Proof.
  intros d. eexists. split; [vm_compute; reflexivity|]. split; [reflexivity|].
  eexists. split; [vm_compute; reflexivity|].
  eapply (proj2 (sqlite_migrations_once demo_entries _ d _ _ ltac:(vm_compute; reflexivity)
    ltac:(vm_compute; reflexivity) ltac:(vm_compute; reflexivity))).
Defined.

(** A file and its entry in the ledger are two statements.  When the second fails, the
    file was executed and is not recorded: the next start executes it again. *)
Theorem unrecorded_migration_runs_again name body v e d :
  migrations [(name, body)] = inr [mkmig v name body] -> (v ∉ sq_ledger d) -> sq_tick d = 0 ->
  exists msg d1, MigrateSQLite (fun n => if Nat.eqb n 3 then Some e else None) [(name, body)] d = (inl msg, d1) /\
    exists d2, MigrateSQLite (fun _ => None) [(name, body)] d1 = (inr tt, d2) /\
      sq_ran d2 = sq_ran d ++ [body; body].
Proof.
  intros Hm Hv Ht. destruct d as [n led ran]. cbn in Ht, Hv. subst n.
  eexists _, (mkSQ 4 led (ran ++ [body])). split.
  - unfold MigrateSQLite. rewrite Hm. cbn. rewrite bool_decide_eq_false_2 by done. done.
  - rewrite (MigrateSQLite_run _ _ _ Hm). eexists. split; [done|]. cbn.
    rewrite bool_decide_eq_false_2 by done. cbn. by rewrite <-app_assoc.
Qed.
