(* ===== verification/SecretProofs.v ===== *)
(** Properties of the secrets of the program (Secrets.v): password hashes verify the
    password they were made from, secret files carry the permissions that the start-up
    check demands, and the master key is read back as it was written. *)
From Stdlib Require Import Ascii.
From S2P Require Import Prelude GoStrings Envelope Backups Encoding Secrets.
#[local] Open Scope string_scope.
Import Encoding Secrets.

(** ** Password hashes *)

Section Passwords.
Context (rnd : nat -> nat -> option str).
Context (IDKey : str -> str -> Z -> Z -> Z -> Z -> str).

(** A hash is six fields joined by [$]. *)
Lemma phc_fields salt key :
  phc defaultParams salt key =
  Join [""; "argon2id"; "v=19"; "m=65536,t=3,p=2"; encode64 Std true salt; encode64 Std true key] "$".
Proof. reflexivity. Qed.

Lemma encode64_no_dollar a s : no_byte "$" (encode64 a true s) = true.
Proof.
  eapply str_all_impl; [|apply (encode64_chars a)]. intros c Hc. by apply (digit_plain a).
Qed.

Lemma Split_phc salt key :
  Split (phc defaultParams salt key) "$" =
  [""; "argon2id"; "v=19"; "m=65536,t=3,p=2"; encode64 Std true salt; encode64 Std true key].
Proof.
  rewrite phc_fields. apply Split_Join; [done|].
  repeat (apply Forall_cons; split); try reflexivity; try apply encode64_no_dollar. constructor.
Qed.

Lemma VerifyPassword_phc pw salt key :
  VerifyPassword IDKey pw (phc defaultParams salt key) =
  inr (IDKey pw salt 3 65536 2 (Z.of_nat (String.length key)) =s key).
Proof. unfold VerifyPassword. rewrite Split_phc, !encode64_roundtrip. reflexivity. Qed.

(** C32: password hashes.  [HashPassword] fails only when the random source does.  The
    PHC string it returns parses back into the salt and the parameters it was made
    with, so [VerifyPassword] accepts the password itself, and accepts another one
    exactly when Argon2 maps both to the same key under that salt; it never rejects
    the string as malformed. *)
Theorem password_roundtrip pw i r j
    (Hlen : forall p s t m th n, (4 <= n)%Z -> Z.of_nat (String.length (IDKey p s t m th n)) = n)
    (Hrun : HashPassword rnd IDKey pw i = (r, j)) :
  match r with
  | inl _ => rnd i 16 = None
  | inr h => VerifyPassword IDKey pw h = inr true /\
      exists salt, rnd i 16 = Some salt /\
      forall pw', VerifyPassword IDKey pw' h =
        inr (bool_decide (IDKey pw' salt 3 65536 2 32 = IDKey pw salt 3 65536 2 32))
  end.
Proof.
  unfold HashPassword in Hrun. rewrite bind_run in Hrun.
  destruct (Envelope.RandomBytes rnd _ _ i) as [[e|salt] i1] eqn:Hr; apply Envelope.RandomBytes_cases in Hr;
    injection Hrun as <- _; [done|].
  assert (forall pw', VerifyPassword IDKey pw' (phc defaultParams salt (IDKey pw salt 3 65536 2 32)) =
    inr (bool_decide (IDKey pw' salt 3 65536 2 32 = IDKey pw salt 3 65536 2 32))) as Hv.
  { intros pw'. rewrite VerifyPassword_phc, Hlen by lia. f_equal. destruct (String.eqb_spec (IDKey pw' salt 3 65536 2 32) (IDKey pw salt 3 65536 2 32)) as [He|He];
      [by rewrite bool_decide_true|by rewrite bool_decide_false]. }
  split; [|by exists salt]. cbn [ap_time ap_memory ap_threads ap_keyLen defaultParams].
  rewrite Hv. by rewrite bool_decide_true.
Qed.
End Passwords.

(** ** Secret files *)

Lemma syscall_inr {A} (f : FS -> (str + A) * FS) fs a fs' :
  syscall f fs = (inr a, fs') ->
  fs_fault fs (fs_tick fs) = None /\
  f (mkFS (fs_files fs) (fs_dirs fs) (fs_umask fs) (S (fs_tick fs)) (fs_fault fs)) = (inr a, fs').
Proof. unfold syscall. by destruct (fs_fault fs (fs_tick fs)). Qed.

(** What a successful [WriteFile] leaves, whatever the umask and whatever file was
    there. *)
Lemma WriteFile_files path data fs fs' :
  WriteFile path data fs = (inr tt, fs') ->
  fs_files fs' = <[path := mkFile data secretFileMode]> (fs_files fs) /\ fs_fault fs' = fs_fault fs.
Proof.
  unfold WriteFile. intros H. run_simpl.
  repeat match goal with H : _ = (inr _, _) |- _ => apply syscall_inr in H as [_ H]; cbn in H end.
  simplify_eq/=. rewrite lookup_insert_eq in *. simplify_eq/=. by rewrite insert_insert_eq.
Qed.

(** A run of the file-system calls without faults. *)
Definition no_faults (fs : FS) : Prop := forall n, fs_fault fs n = None.
Lemma syscall_ok {A} (f : FS -> (str + A) * FS) fs : no_faults fs ->
  syscall f fs = f (mkFS (fs_files fs) (fs_dirs fs) (fs_umask fs) (S (fs_tick fs)) (fs_fault fs)).
Proof. intros H. unfold syscall. by rewrite H. Qed.

Lemma CheckPerms_run path f fs : no_faults fs -> fs_files fs !! path = Some f ->
  exists fs', fs_files fs' = fs_files fs /\ no_faults fs' /\
  CheckPerms path fs = ((if (Z.land (fl_mode f) 63 =? 0)%Z then inr tt
                         else inl ("secret: " ++ path ++ " has insecure permissions")), fs').
Proof.
  intros Hn Hf. exists (mkFS (fs_files fs) (fs_dirs fs) (fs_umask fs) (S (fs_tick fs)) (fs_fault fs)).
  split; [done|split; [done|]]. unfold CheckPerms, os_Stat. rewrite bind_run. unfold mapErr.
  rewrite syscall_ok by done. cbn. rewrite Hf. cbn. rewrite bind_run. by destruct (Z.land _ _ =? 0)%Z.
Qed.

(** Chmod comes after the data: a file that was readable by everybody holds the secret
    in the meantime, and keeps it so when the chmod fails. *)
Definition loose_fs : FS :=
  mkFS {[ "/run/admin_token" := mkFile "old" 420 ]} {[ "/run" ]} 18 0
    (fun n => if Nat.eqb n 2 then Some "operation not permitted" else None).
Lemma failed_chmod_exposes_secret :
  let '(r, fs) := WriteFile "/run/admin_token" "s3cr3t" loose_fs in
  r = inl "secret: chmod /run/admin_token: operation not permitted" /\
  fs_files fs !! "/run/admin_token" = Some (mkFile "s3cr3t" 420).
Proof. vm_compute. done. Qed.

(** ** The master key *)

Lemma trim_left_none p s : (match s with "" => true | String c _ => negb (p c) end) = true -> trim_left p s = s.
Proof. destruct s as [|c s]; [done|]. cbn. by destruct (p c). Qed.
Lemma trim_right_none p s : str_all (fun c => negb (p c)) s = true -> trim_right p s = s.
Proof.
  induction s as [|c s IH]; [done|]. cbn. rewrite andb_true_iff. intros [Hc Hs]. rewrite (IH Hs).
  destruct s; [|done]. by destruct (p c).
Qed.
Lemma TrimSpace_none s : str_all (fun c => negb (is_space c)) s = true -> TrimSpace s = s.
Proof.
  intros H. unfold TrimSpace, trim_both. rewrite trim_left_none; [by apply trim_right_none|].
  destruct s; [done|]. cbn in H. by apply andb_true_iff in H as [? _].
Qed.
Lemma digit_no_space a c : is_digit64 a c || Ascii.eqb c pad_char = true -> negb (is_space c) = true.
Proof. destruct a; destruct c as [[] [] [] [] [] [] [] []]; vm_compute; try done. Qed.
Lemma TrimSpace_encode64 a raw s : TrimSpace (encode64 a raw s) = encode64 a raw s.
Proof.
  apply TrimSpace_none. eapply str_all_impl; [|apply (encode64_padded a)]. apply digit_no_space.
Qed.

(** A padded decoder that accepts an unpadded encoding reads the same bytes. *)
Lemma decode64_unpadded a s x : decode64 a false (encode64 a true s) = Some x -> x = s.
Proof.
  unfold decode64. rewrite (drop_breaks_id a) by apply encode64_padded. revert x.
  induction s as [|x|x y|x y z s IH] using str_ind3; intros out; cbn [encode64 decode_digits];
    [by intros [= <-]| | |]; rewrite !value_digit by digits_in_range;
    rewrite ?digit_not_pad by digits_in_range; [done|done|].
  destruct (decode_digits a false (encode64 a true s)) as [o|]; [|done]. intros [= <-].
  rewrite (IH o) by done.
  by rewrite (to_byte_eq (_ / 65536) x), (to_byte_eq (_ / 256 mod 256) y), (to_byte_eq (_ mod 256) z)
    by digits_in_range.
Qed.

Lemma decodeKEK_encode raw kek : String.length kek = Envelope.KEKSize ->
  decodeKEK (encode64 Std raw kek) = inr kek.
Proof.
  intros Hl. unfold decodeKEK, Envelope.decodeKEK. rewrite TrimSpace_encode64.
  destruct raw.
  - rewrite encode64_roundtrip, Hl. destruct (decode64 Std false _) as [x|] eqn:Hx; [|done].
    apply decode64_unpadded in Hx as ->. by rewrite Hl.
  - by rewrite encode64_roundtrip, Hl.
Qed.

(** The master key file.  A 32-byte key written with [WriteFile] in base 64,
    padded or not, is what the default provider returns when only the file variable
    is set - whatever the umask was and whatever permissions a file that was already
    there had - and the same file opened to anybody but its owner, by any of the six
    group and other bits, is refused without being read. *)
Theorem master_key_file_roundtrip path raw kek environ fs fs'
    (Hkek : String.length kek = Envelope.KEKSize)
    (Hpath : path <> "")
    (Henv : environ !! "BUKTIO_MASTER_KEY" = None)
    (Hfile : environ !! "BUKTIO_MASTER_KEY_FILE" = Some path)
    (Hn : no_faults fs)
    (Hrun : WriteFile path (encode64 Std raw kek) fs = (inr tt, fs')) :
  fst (KEK environ DefaultProvider fs') = inr kek /\
  forall mode, Z.land mode 63 <> 0%Z ->
    fst (KEK environ DefaultProvider (set_file path (mkFile (encode64 Std raw kek) mode) fs')) =
    inl ("secret: " ++ path ++ " has insecure permissions").
Proof.
  apply WriteFile_files in Hrun as [Hf Hfault].
  assert (no_faults fs') as Hn' by (intros n; by rewrite Hfault).
  unfold KEK. change (efp_EnvVar DefaultProvider =s "") with false.
  change (efp_FileVar DefaultProvider =s "") with false. cbn [efp_EnvVar efp_FileVar DefaultProvider]. cbv beta zeta.
  rewrite Henv, Hfile. cbn [default id from_option negb].
  apply eqb_false_str in Hpath as ->. cbn [negb String.eqb]. split.
  - rewrite bind_run.
    destruct (CheckPerms_run path (mkFile (encode64 Std raw kek) secretFileMode) fs' Hn') as (fs2 & Hf2 & Hn2 & ->).
    { rewrite Hf. by rewrite lookup_insert_eq. }
    cbn. rewrite bind_run. unfold mapErr, os_ReadFile. rewrite syscall_ok by done. cbn.
    rewrite Hf2, Hf, lookup_insert_eq. cbn. by rewrite decodeKEK_encode.
  - intros mode Hm. rewrite bind_run.
    destruct (CheckPerms_run path (mkFile (encode64 Std raw kek) mode)
      (set_file path (mkFile (encode64 Std raw kek) mode) fs') Hn') as (fs2 & _ & _ & ->).
    { cbn. by rewrite lookup_insert_eq. }
    apply Z.eqb_neq in Hm. cbn [fl_mode]. by rewrite Hm.
Qed.

(** ** The secrets of a managed Garage *)

(** A name that [filepath.Join] appends as it is. *)
Definition plain_name (name : str) : Prop :=
  no_byte "/" name = true /\ name <> "" /\ name <> "." /\ name <> "..".

Lemma Join_snoc (l : list str) sep : exists pre, forall a, Join (l ++ [a])%list sep = pre ++ a.
Proof.
  induction l as [|x l [pre IH]]; [by exists ""|]. exists (x ++ sep ++ pre). intros a.
  specialize (IH a). rewrite !str_app_assoc, <- IH. by destruct l.
Qed.
Lemma Split_snoc s sep : forall name, no_byte sep name = true ->
  Split (s ++ String sep name) sep = (Split s sep ++ [name])%list.
Proof.
  intros name Hn. induction s as [|c s IH].
  - change ("" ++ String sep name) with (String sep name). cbn [Split].
    rewrite Ascii.eqb_refl, Split_one by done. done.
  - change (String c s ++ String sep name) with (String c (s ++ String sep name)). cbn [Split]. rewrite IH. destruct (Ascii.eqb c sep); [done|].
    destruct (Split s sep) as [|h t] eqn:Hs; [by apply Split_nonempty in Hs|done].
Qed.
Lemma clean_step_plain rooted acc name : plain_name name -> Backups.clean_step rooted acc name = name :: acc.
Proof.
  intros (_ & H1 & H2 & H3). unfold Backups.clean_step.
  apply eqb_false_str in H1 as ->, H2 as ->, H3 as ->. done.
Qed.
Lemma PathJoin_prefix dir : exists pre, forall name, plain_name name -> Backups.PathJoin dir name = pre ++ name.
Proof.
  destruct dir as [|c dir].
  - exists "". intros name Hp. pose proof Hp as (Hs & Hne & _). unfold Backups.PathJoin. cbn.
    apply eqb_false_str in Hne as Hne'. rewrite Hne'. cbn. unfold Backups.Clean.
    rewrite Split_one by done. cbn [foldl]. rewrite clean_step_plain by done. cbn [rev app Join].
    rewrite Hne'. assert (HasPrefix name "/" = false) as ->; [|done].
    apply not_true_is_false. rewrite HasPrefix_spec. intros [t ->]. done.
  - set (rooted := HasPrefix (String c dir) "/").
    destruct (Join_snoc (rev (foldl (Backups.clean_step rooted) [] (Split (String c dir) "/"))) "/") as [pre Hpre].
    exists (if rooted then "/" ++ pre else pre). intros name Hp. unfold Backups.PathJoin.
    change (negb (String c dir =s "")) with true. cbv iota. unfold Backups.Clean.
    change ("/" ++ name) with (String "/" name). rewrite Split_snoc by apply Hp.
    assert (HasPrefix (String c dir ++ String "/" name) "/" = rooted) as ->.
    { unfold rooted, HasPrefix. by destruct dir. }
    rewrite foldl_app. cbn [foldl]. rewrite clean_step_plain by done. cbn [rev]. rewrite Hpre.
    destruct rooted; [by rewrite str_app_assoc|].
    destruct (pre ++ name) eqn:He; [|done].
    exfalso. destruct Hp as (_ & Hne & _). by destruct pre, name.
Qed.

Lemma secret_file_names_plain f : f ∈ [rpcSecretFile; adminTokenFile; metricsTokenFile] -> plain_name f.
Proof. intros H. repeat (apply elem_of_cons in H as [->|H]; [done|]). by apply not_elem_of_nil in H. Qed.

(** Two of the files never share a path. *)
Lemma secret_paths_distinct dir f g :
  f ∈ [rpcSecretFile; adminTokenFile; metricsTokenFile] ->
  g ∈ [rpcSecretFile; adminTokenFile; metricsTokenFile] ->
  f <> g -> Backups.PathJoin dir f <> Backups.PathJoin dir g.
Proof.
  intros Hf Hg Hne Heq. destruct (PathJoin_prefix dir) as [pre Hpre].
  rewrite !Hpre in Heq by (by apply secret_file_names_plain). by apply str_app_inj_l in Heq.
Qed.

(** The secrets of a managed Garage.  After a successful [WriteSecretFiles],
    into any directory, each of the three variables of the returned environment names
    a file that holds that secret, all of it, with permissions for the owner alone;
    the three files are different files; nothing else on the disk changed. *)
Theorem secret_files_materialised dir s fs env fs'
    (Hrun : WriteSecretFiles dir s fs = (inr env, fs')) :
  (forall var value, (var, value) ∈ [("GARAGE_RPC_SECRET_FILE", cs_RPCSecret s);
      ("GARAGE_ADMIN_TOKEN_FILE", cs_AdminToken s); ("GARAGE_METRICS_TOKEN_FILE", cs_MetricsToken s)] ->
    exists path, env !! var = Some path /\ fs_files fs' !! path = Some (mkFile value 384)) /\
  (forall v1 v2 p, env !! v1 = Some p -> env !! v2 = Some p -> v1 = v2) /\
  (forall path, (forall var, env !! var <> Some path) -> fs_files fs' !! path = fs_files fs !! path).
Proof.
  unfold WriteSecretFiles in Hrun. apply bind_inr in Hrun as ([] & fs1 & Hrun & Hret).
  unfold ret in Hret. injection Hret as <- <-. cbn in Hrun. run_simpl.
  repeat match goal with x : () |- _ => destruct x end.
  repeat match goal with H : WriteFile _ _ _ = _ |- _ => apply WriteFile_files in H as [H _] end.
  set (p1 := Backups.PathJoin dir rpcSecretFile) in *. set (p2 := Backups.PathJoin dir adminTokenFile) in *.
  set (p3 := Backups.PathJoin dir metricsTokenFile) in *.
  assert (p1 <> p2) by (apply secret_paths_distinct; [set_solver|set_solver|done]).
  assert (p1 <> p3) by (apply secret_paths_distinct; [set_solver|set_solver|done]).
  assert (p2 <> p3) by (apply secret_paths_distinct; [set_solver|set_solver|done]).
  rewrite H1, H0, H. clear -H2 H3 H4. split_and!.
  - intros var value Hin.
    repeat (apply elem_of_cons in Hin as [[= -> ->]|Hin]; [eexists; split; [by simplify_map_eq|by simplify_map_eq]|]).
    by apply not_elem_of_nil in Hin.
  - intros v1 v2 p Hv1 Hv2. rewrite !lookup_insert, !lookup_singleton in Hv1, Hv2.
    repeat case_decide; simplify_eq; done.
  - intros path Hp. rewrite !lookup_insert_ne; [done| | |]; intros <-;
      [apply (Hp "GARAGE_RPC_SECRET_FILE")|apply (Hp "GARAGE_ADMIN_TOKEN_FILE")|apply (Hp "GARAGE_METRICS_TOKEN_FILE")];
      by simplify_map_eq.
Qed.

(** ** The rendered configuration *)

(** Values are not escaped: one that holds a quote closes its setting and opens
    another. *)
Lemma quoted_injects key value key' value' :
  quoted key (value ++ String dq (nl ++ key' ++ " = " ++ String dq value')) =
  quoted key value ++ quoted key' value'.
Proof.
  assert (forall c (s t : str), String c s ++ t = String c (s ++ t)) as Hcons by done.
  unfold quoted. rewrite !str_app_assoc, !Hcons, !str_app_assoc, !Hcons, !str_app_assoc, !Hcons. reflexivity.
Qed.

(** ** A concrete Argon2, a key and a disk *)

Fixpoint zeros (n : nat) : str := match n with O => "" | S n => String "0" (zeros n) end.
Lemma zeros_length n : String.length (zeros n) = n.
Proof. induction n; cbn; [done|]. by rewrite IHn. Qed.
Definition ex_IDKey (pw salt : str) (t m th n : Z) : str :=
  str_take (Z.to_nat n) (pw ++ salt ++ zeros (Z.to_nat n)).
Lemma ex_IDKey_length p s t m th n : (4 <= n)%Z -> Z.of_nat (String.length (ex_IDKey p s t m th n)) = n.
Proof.
  intros H. unfold ex_IDKey. rewrite str_take_length; [lia|].
  rewrite !str_length_app, zeros_length. lia.
Qed.
Definition ex_rnd (i n : nat) : option str := Some (zeros n).

Lemma password_roundtrip_witness :
  exists h, HashPassword ex_rnd ex_IDKey "hunter2" 0 = (inr h, 1%nat) /\
  VerifyPassword ex_IDKey "hunter2" h = inr true /\ VerifyPassword ex_IDKey "hunter3" h = inr false.
Proof.
  eexists. split; [reflexivity|].
  destruct (password_roundtrip ex_rnd ex_IDKey "hunter2" 0 _ 1 ex_IDKey_length eq_refl) as (H & salt & [= <-] & Hv).
  split; [exact H|]. etrans; [exact (Hv "hunter3")|]. vm_compute. reflexivity.
Defined.

Definition ex_disk : FS :=
  mkFS {[ "/etc/buktio/kek" := mkFile "old" 420 ]} ∅ 18 0 (fun _ => None).
Definition ex_kek : str := "0123456789abcdef0123456789ABCDEF".
Lemma master_key_file_roundtrip_witness :
  exists fs', WriteFile "/etc/buktio/kek" (encode64 Std true ex_kek) ex_disk = (inr tt, fs') /\
  fst (KEK {[ "BUKTIO_MASTER_KEY_FILE" := "/etc/buktio/kek" ]} DefaultProvider fs') = inr ex_kek.
Proof.
  eexists. split; [reflexivity|].
  apply (master_key_file_roundtrip "/etc/buktio/kek" true ex_kek _ ex_disk);
    [reflexivity|discriminate|reflexivity|reflexivity|intros n; reflexivity|reflexivity].
Defined.

Definition ex_secrets : ClusterSecrets := mkClusterSecrets "00ff" "YWRtaW4=" "bWV0cmljcw==".
Lemma secret_files_materialised_witness :
  exists env fs', WriteSecretFiles "/run/../run/garage" ex_secrets ex_disk = (inr env, fs') /\
  exists path, env !! "GARAGE_ADMIN_TOKEN_FILE" = Some path /\
    fs_files fs' !! path = Some (mkFile "YWRtaW4=" 384).
Proof.
  assert (match WriteSecretFiles "/run/../run/garage" ex_secrets ex_disk with
          | (inr _, _) => true | _ => false end = true) as Hok by (vm_compute; reflexivity).
  destruct (WriteSecretFiles "/run/../run/garage" ex_secrets ex_disk) as [[e|env] fs'] eqn:Hrun; [discriminate Hok|].
  exists env, fs'. split; [reflexivity|].
  apply (secret_files_materialised "/run/../run/garage" ex_secrets ex_disk env fs' Hrun). right; left.
Defined.
