(* ===== verification/Cli.v ===== *)
(** src/cmd/buktio: the operator's command line (main.go, compose.go, ops.go, backup.go,
    cluster.go, dbconvert.go).

    A command runs in a state that holds the file system of Secrets.v and what the
    program did to the outside, in order: docker commands, requests to the API, lines
    printed, pauses.  What docker and the API answer, and the text of the time, are
    parameters.  Commands take their arguments and flags as cobra hands them over. *)
From Stdlib Require Import Ascii.
From S2P Require Import Prelude GoStrings JsonText GoTime Config Backups Encoding Secrets Json.
#[local] Open Scope string_scope.
Import Secrets.

Module Cli.

Record HttpRequest := mkHttpRequest {
  hr_Method : str; hr_URL : str; hr_Authorization : str; hr_Body : option (gmap str str) }.
Record HttpResponse := mkHttpResponse { hs_StatusCode : Z; hs_Body : str }.

Inductive Act :=
  (** working directory, arguments after "docker", standard input; the error and the output *)
  | Ran (dir : str) (args : list str) (input : str) (err : option str) (output : str)
  | Called (r : HttpRequest) (answer : str + HttpResponse)
  | Printed (line : str)
  | Slept (seconds : Z).
Record Host := mkHost { h_fs : FS; h_acts : list Act }.

Definition act (a : Act) : M Host str unit := modify (fun h => mkHost (h_fs h) (h_acts h ++ [a])).
Definition Println (line : str) : M Host str unit := act (Printed line).
Definition on_disk {A} (m : M FS str A) : M Host str A := fun h =>
  let '(r, fs) := m (h_fs h) in (r, mkHost fs (h_acts h)).
(** [os.Create]: the file is emptied, or made with the permissions the umask leaves. *)
Definition os_Create (path : str) : M FS str unit := os_WriteFile path "" 438.

(** ** Text *)

(** [%-ns]: the width counts runes. *)
Fixpoint runes (s : str) : nat :=
  match s with
  | "" => 0
  | String c s' => (if in_range 128 191 c then 0 else 1) + runes s'
  end.
Fixpoint spaces (n : nat) : str := match n with O => "" | S n => String " " (spaces n) end.
Definition pad (n : nat) (s : str) : str := s ++ spaces (n - runes s).
(** [strings.Cut] at a byte *)
Definition Cut (s : str) (c : ascii) : option (str * str) :=
  match IndexByte s c with Some i => Some (str_take i s, str_drop (S i) s) | None => None end.
Definition newline : ascii := ascii_of_nat 10.

(** ** .env *)

(** [bufio.Scanner]: lines without their line ending; one that does not fit the
    buffer of 64 KiB ends the scan. *)
Definition trim_cr (l : str) : str :=
  match String.length l with
  | O => l
  | S n => if str_drop n l =s String (ascii_of_nat 13) "" then str_take n l else l
  end.
Fixpoint fitting (ls : list str) : list str :=
  match ls with
  | [] => []
  | l :: ls' => if (Z.of_nat (String.length l) <? 65536)%Z then trim_cr l :: fitting ls' else []
  end.
Definition drop_last_empty (ls : list str) : list str :=
  match last ls with Some "" => removelast ls | _ => ls end.
Definition scan_lines (data : str) : list str := fitting (drop_last_empty (Split data newline)).

Definition env_line (l : str) : option (str * str) :=
  let line := TrimSpace l in
  if (line =s "") || HasPrefix line "#" then None
  else match Cut line "=" with
       | Some (k, v) => Some (TrimSpace k, TrimSpace v)
       | None => None
       end.
Definition env_step (m : gmap str str) (l : str) : gmap str str :=
  match env_line l with Some (k, v) => <[k := v]> m | None => m end.
Definition parse_env (data : str) : gmap str str := foldl env_step ∅ (scan_lines data).

(** The first line of the key is replaced, in a file without one it is appended. *)
Definition is_line_of (key l : str) : bool := HasPrefix (TrimSpace l) (key ++ "=").
Fixpoint replace_first (key value : str) (ls : list str) : option (list str) :=
  match ls with
  | [] => None
  | l :: ls' => if is_line_of key l then Some ((key ++ "=" ++ value) :: ls')
                else cons l <$> replace_first key value ls'
  end.
Definition edit_env (key value data : str) : str :=
  let lines := Split data newline in
  Join (match replace_first key value lines with
        | Some ls => ls
        | None => (lines ++ [(key ++ "=" ++ value)%string])%list
        end) (String newline "").

Section Cli.
Context (environ : gmap str str).
Context (docker : nat -> str -> list str -> str -> option str * str).
Context (http : nat -> HttpRequest -> str + HttpResponse).
(** the time of the call; whether a program is on the path *)
Context (now : Z) (LookPath : str -> bool).
Definition Getenv (k : str) : str := default "" (environ !! k).

(** ** compose.go *)

Definition exists_file (path : str) : M Host str bool :=
  let! r := attempt (E' := str) (on_disk (os_Stat path)) in
  ret (match r with inr _ => true | inl _ => false end).

Definition composeDir : M Host str str :=
  if negb (Getenv "BUKTIO_COMPOSE_DIR" =s "") then ret (Getenv "BUKTIO_COMPOSE_DIR")
  else
    let! here := exists_file (Backups.PathJoin "deploy/docker-compose" "docker-compose.yml") in
    if here then ret "deploy/docker-compose"
    else
      let! here := exists_file (Backups.PathJoin "." "docker-compose.yml") in
      ret (if here then "." else "deploy/docker-compose").

(** The command is built in the compose directory and run there. *)
Definition exec (dir : str) (args : list str) (input : str) : M Host str (option str * str) := fun h =>
  let r := docker (length (h_acts h)) dir args input in
  (inr r, mkHost (h_fs h) (h_acts h ++ [Ran dir args input (fst r) (snd r)])).
Definition compose (args : list str) (input : str) : M Host str (option str * str) :=
  let! dir := composeDir in exec dir ("compose" :: args) input.
Definition run (args : list str) : M Host str unit :=
  let! r := compose args "" in
  match fst r with
  | Some e => throw (Join ("docker" :: "compose" :: args) " " ++ ": " ++ e)
  | None => ret tt
  end.

Definition dotenv : M Host str (gmap str str) :=
  let! dir := composeDir in
  let! data := attempt (E' := str) (on_disk (os_ReadFile (Backups.PathJoin dir ".env"))) in
  ret (match data with inr d => parse_env d | inl _ => ∅ end).

Definition setDotenvKey (key value : str) : M Host str unit :=
  let! dir := composeDir in
  let path := Backups.PathJoin dir ".env" in
  let! data := on_disk (os_ReadFile path) in
  on_disk (os_WriteFile path (edit_env key value data) 384).

(** ** main.go *)

Definition friendlyOverall (s : str) : str := if s =s "ok" then "healthy" else "not ready".
Definition friendlyComponent (c : str) : str :=
  if c =s "db" then "database"
  else if (c =s "garage_admin") || (c =s "garage_s3") then "storage engine"
  else c.

Record Readiness := mkReadiness { rd_Status : str; rd_Version : str; rd_Components : gmap str str }.
Definition readiness_fields : list (Json.Field Readiness) :=
  [Json.field "status" rd_Status (fun x r => mkReadiness x (rd_Version r) (rd_Components r)) Json.string_;
   Json.field "version" rd_Version (fun x r => mkReadiness (rd_Status r) x (rd_Components r)) Json.string_;
   Json.field "components" rd_Components (fun x r => mkReadiness (rd_Status r) (rd_Version r) x) Json.string_map].

Definition call (r : HttpRequest) : M Host str HttpResponse := fun h =>
  let a := http (length (h_acts h)) r in
  (a, mkHost (h_fs h) (h_acts h ++ [Called r a])).
Definition api_base : str :=
  let base := Getenv "BUKTIO_API_URL" in if base =s "" then "http://localhost:8080" else base.
Definition ready_request : HttpRequest := mkHttpRequest "GET" (api_base ++ "/readyz") "" None.

(** The components are printed in the order of the map, which Go leaves open. *)
Definition status : M Host str unit :=
  let! resp := mapErr (fun e => "cannot reach buktio API at " ++ api_base ++ ": " ++ e) (call ready_request) in
  match JsonText.parse (hs_Body resp) with
  | None => throw ("unexpected response: " ++ hs_Body resp)
  | Some v =>
      match Json.lenient readiness_fields (mkReadiness "" "" ∅) v with
      | None => throw ("unexpected response: " ++ hs_Body resp)
      | Some out =>
          do! Println ("buktio " ++ rd_Version out ++ " — " ++ friendlyOverall (rd_Status out)) in
          do! forM_ (map_to_list (rd_Components out)) (fun '(comp, st) =>
                Println ("  " ++ pad 16 (friendlyComponent comp ++ ":") ++ " " ++ st)) in
          guard! (hs_StatusCode resp =? 200)%Z else "not ready" in
          ret tt
      end
  end.

(** ** ops.go *)

Definition serviceAlias (name : str) : str :=
  if (name =s "storage") || (name =s "engine") then "garage" else name.
Definition service_args (arg : option str) : list str :=
  match arg with Some name => [serviceAlias name] | None => [] end.
Definition logsCmd (follow : bool) (arg : option str) : M Host str unit :=
  run (["logs"; "--tail"; "200"] ++ (if follow then ["-f"] else []) ++ service_args arg)%list.
Definition restartCmd (arg : option str) : M Host str unit := run ("restart" :: service_args arg).

Definition check_line (label : str) (pass : bool) (detail : str) : M Host str unit :=
  Println ("  " ++ (if pass then "✓" else "✗") ++ " " ++ pad 22 label ++ " " ++ detail).
Definition doctorCmd : M Host str unit :=
  let dockerOK := LookPath "docker" in
  do! check_line "docker installed" dockerOK "" in
  let! dir := composeDir in
  let! composeOK := exists_file (Backups.PathJoin dir "docker-compose.yml") in
  do! check_line "compose file" composeOK dir in
  let! envOK := exists_file (Backups.PathJoin dir ".env") in
  do! check_line ".env present" envOK "run `make gen-env` if missing" in
  let! st := attempt (E' := str) status in
  let statusOK := match st with inr _ => true | inl _ => false end in
  do! check_line "services healthy" statusOK "" in
  guard! (dockerOK && composeOK && envOK && statusOK) else "doctor found problems" in
  Println "All checks passed.".

(** ** backup.go *)

Definition pg_dump (user dbn : str) : list str :=
  ["exec"; "-T"; "postgres"; "pg_dump"; "-Fc"; "--no-owner"; "--no-privileges"; "-U"; user; dbn].
Definition pg_restore (user dbn : str) : list str :=
  ["exec"; "-T"; "postgres"; "pg_restore"; "--clean"; "--if-exists"; "--no-owner"; "-U"; user; "-d"; dbn].
Definition default_dump : str := "buktio-metadata-" ++ Time.file_stamp now ++ ".dump".

(** What a child process wrote to the descriptor it was given: permissions are not
    asked again. *)
Definition captured (path out : str) : M Host str unit := modify (fun h =>
  mkHost (match fs_files (h_fs h) !! path with
          | Some f => set_file path (mkFile out (fl_mode f)) (h_fs h)
          | None => h_fs h
          end) (h_acts h)).

Definition doBackup (out : str) : M Host str str :=
  let! env := dotenv in
  let user := default "" (env !! "POSTGRES_USER") in
  let dbn := default "" (env !! "POSTGRES_DB") in
  if (user =s "") || (dbn =s "") then
    let! dir := composeDir in
    throw ("POSTGRES_USER/POSTGRES_DB not found in " ++ dir ++ "/.env")
  else
    let out := if out =s "" then default_dump else out in
    do! on_disk (os_Create out) in
    let! dir := composeDir in
    do! Println ("Backing up metadata to " ++ out ++ " ...") in
    let! r := exec dir ("compose" :: pg_dump user dbn) "" in
    do! captured out (snd r) in
    match fst r with
    | Some e => throw ("pg_dump: " ++ e)
    | None => ret out
    end.

Definition backupCmd (out : str) : M Host str unit :=
  let! path := doBackup out in
  let! fi := attempt (E' := str) (on_disk (os_ReadFile path)) in
  match fi with
  | inr d => Println ("Done (" ++ Itoa (Z.of_nat (String.length d)) ++ " bytes). Metadata + config only — NOT object data.")
  | inl _ => ret tt
  end.

Definition restoreCmd (yes : bool) (file : str) : M Host str unit :=
  guard! yes else "restore OVERWRITES the current metadata database; re-run with --yes to confirm" in
  let! env := dotenv in
  let user := default "" (env !! "POSTGRES_USER") in
  let dbn := default "" (env !! "POSTGRES_DB") in
  if (user =s "") || (dbn =s "") then
    let! dir := composeDir in
    throw ("POSTGRES_USER/POSTGRES_DB not found in " ++ dir ++ "/.env")
  else
    let! dump := on_disk (os_ReadFile file) in
    let! dir := composeDir in
    do! Println ("Restoring metadata from " ++ file ++ " ...") in
    let! r := exec dir ("compose" :: pg_restore user dbn) dump in
    match fst r with
    | Some e => throw ("pg_restore: " ++ e)
    | None => Println "Restore complete. Check `buktio status` and the dashboard; if buckets/keys drift from the backend, reconcile via the API (GET /api/v1/system/reconcile) or web UI."
    end.

(** [for i := 0; i < n; i++] *)
Fixpoint wait_healthy (n : nat) : M Host str unit :=
  match n with
  | O => throw "services did not become healthy after upgrade; check `buktio logs`"
  | S n =>
      let! r := attempt (E' := str) status in
      match r with
      | inr _ => Println "Upgrade complete; services healthy."
      | inl _ => do! act (Slept 2) in wait_healthy n
      end
  end.

Definition upgradeCmd (to : str) : M Host str unit :=
  do! Println "Step 1/4: backing up metadata..." in
  let! _ := mapErr (fun e => "pre-upgrade backup failed (aborting): " ++ e) (doBackup "") in
  do! (if negb (to =s "") then
         do! Println ("Step 2/4: pinning BUKTIO_VERSION=" ++ to ++ " ...") in
         setDotenvKey "BUKTIO_VERSION" to
       else Println "Step 2/4: no --to given; keeping current image tags") in
  do! Println "Step 3/4: pulling/building and restarting..." in
  let! _ := attempt (E' := str) (run ["pull"]) in
  do! run ["up"; "-d"; "--build"] in
  do! Println "Step 4/4: waiting for health..." in
  wait_healthy 30.

(** ** cluster.go *)

Definition apiRequest (method path : str) (body : option (gmap str str)) : M Host str str :=
  let token := Getenv "BUKTIO_TOKEN" in
  reject! (token =s "") with "set BUKTIO_TOKEN to a buktio API token (PAT) to use cluster commands" in
  let! resp := call (mkHttpRequest method (api_base ++ path) ("Bearer " ++ token) body) in
  reject! (300 <=? hs_StatusCode resp)%Z with
    "API " ++ method ++ " " ++ path ++ ": " ++ hs_Body resp in
  ret (hs_Body resp).

Record ClusterLine := mkClusterLine {
  ln_Name : str; ln_Provider : str; ln_Mode : str; ln_Status : str; ln_IsPrimary : bool }.
Definition zero_line : ClusterLine := mkClusterLine "" "" "" "" false.
Definition line_fields : list (Json.Field ClusterLine) :=
  [Json.field "name" ln_Name (fun x l => mkClusterLine x (ln_Provider l) (ln_Mode l) (ln_Status l) (ln_IsPrimary l)) Json.string_;
   Json.field "provider" ln_Provider (fun x l => mkClusterLine (ln_Name l) x (ln_Mode l) (ln_Status l) (ln_IsPrimary l)) Json.string_;
   Json.field "mode" ln_Mode (fun x l => mkClusterLine (ln_Name l) (ln_Provider l) x (ln_Status l) (ln_IsPrimary l)) Json.string_;
   Json.field "status" ln_Status (fun x l => mkClusterLine (ln_Name l) (ln_Provider l) (ln_Mode l) x (ln_IsPrimary l)) Json.string_;
   Json.field "is_primary" ln_IsPrimary (fun x l => mkClusterLine (ln_Name l) (ln_Provider l) (ln_Mode l) (ln_Status l) x) Json.bool_].
Definition listing_fields : list (Json.Field (list ClusterLine)) :=
  [Json.field "data" id (fun x _ => x) (Json.slice zero_line (Json.lenient line_fields))].
Definition columns (name provider mode status primary : str) : str :=
  pad 20 name ++ " " ++ pad 12 provider ++ " " ++ pad 10 mode ++ " " ++ pad 10 status ++ " " ++ primary.

Definition clusterListCmd : M Host str unit :=
  let! data := apiRequest "GET" "/api/v1/clusters" None in
  match JsonText.parse data with
  | None => throw "invalid JSON"
  | Some v =>
      match Json.lenient listing_fields [] v with
      | None => throw "json: cannot unmarshal"
      | Some out =>
          do! Println (columns "NAME" "PROVIDER" "MODE" "STATUS" "PRIMARY") in
          forM_ out (fun c => Println (columns (ln_Name c) (ln_Provider c) (ln_Mode c) (ln_Status c)
                                         (if ln_IsPrimary c then "yes" else "")))
      end
  end.

(** The errors of this decoding are ignored: what decodes is kept. *)
Definition added_step (acc : str * str) (kv : str * Json.JV) : str * str :=
  match snd kv with
  | Json.JStr s => if Json.fold_key (fst kv) =s "id" then (s, snd acc)
                   else if Json.fold_key (fst kv) =s "name" then (fst acc, s) else acc
  | _ => acc
  end.
Definition added (data : str) : str * str :=
  match JsonText.parse data with Some (Json.JObj kvs) => foldl added_step ("", "") kvs | _ => ("", "") end.
Definition clusterAddCmd (quote : str -> str) (name provider endpoint region accessKey secret : str)
    : M Host str unit :=
  let body : gmap str str :=
    <["name" := name]> (<["provider" := provider]> (<["s3_endpoint" := endpoint]>
      (<["s3_region" := region]> (<["access_key_id" := accessKey]> {[ "secret_access_key" := secret ]})))) in
  let! data := apiRequest "POST" "/api/v1/clusters" (Some body) in
  let '(id, nm) := added data in
  Println ("Added backend " ++ quote nm ++ " (" ++ id ++ ")").

(** ** dbconvert.go *)

(** The source file and the destination of the conversion, from the flags and the
    environment. *)
Definition convert_args (to sqlitePath pgURL : str) : str + (str * str) :=
  if negb (to =s "postgres") then inl ("only --to postgres is supported (got " ++ to ++ ")")
  else
    let path := if sqlitePath =s "" then
                  (if Config.DriverFromDSN (Getenv "DATABASE_URL") =s "sqlite"
                   then Config.SQLitePath (Getenv "DATABASE_URL") else "")
                else Config.SQLitePath sqlitePath in
    if path =s "" then inl "no source: pass --sqlite or set DATABASE_URL to a sqlite DSN"
    else if pgURL =s "" then inl "no destination: pass --postgres-url or set BUKTIO_TARGET_DATABASE_URL"
    else inr (path, pgURL).
(** [pgURL] is [None] when the flag is absent: its default is the environment. *)
Definition dbConvertCmd (convert : str -> str -> M Host str unit) (to sqlitePath : str) (pgURL : option str)
    : M Host str unit :=
  match convert_args to sqlitePath (default (Getenv "BUKTIO_TARGET_DATABASE_URL") pgURL) with
  | inl e => throw e
  | inr (path, dst) =>
      do! Println ("Converting " ++ path ++ " → PostgreSQL …") in
      do! convert path dst in
      Println "Done. Point DATABASE_URL at the PostgreSQL database and start buktio-api-ee."
  end.
End Cli.
End Cli.
