(* ===== verification/CliProofs.v ===== *)
(** Properties of the command line (Cli.v): a pinned setting is read back and leaves the
    others alone; an upgrade changes nothing before the metadata is on disk and reports
    success only from a healthy answer. *)
From Stdlib Require Import Ascii.
From S2P Require Import Prelude GoStrings JsonText Config Backups Encoding Secrets Json Cli SecretProofs.
#[local] Open Scope string_scope.
Import Secrets Cli.

(** ** Trimming *)

Lemma trim_left_length p s : String.length (trim_left p s) <= String.length s.
Proof. induction s as [|c s IH]; cbn; [lia|]. destruct (p c); cbn; lia. Qed.
Lemma trim_right_length p s : String.length (trim_right p s) <= String.length s.
Proof.
  induction s as [|c s IH]; cbn; [lia|]. destruct (trim_right p s); [|cbn in *; lia].
  destruct (p c); cbn; lia.
Qed.
Lemma trim_left_same p s : String.length (trim_left p s) = String.length s -> trim_left p s = s.
Proof.
  destruct s as [|c s]; [done|]. cbn. destruct (p c); [|done]. intros H.
  pose proof (trim_left_length p s). lia.
Qed.
Lemma trim_right_app p s t : trim_right p t <> "" -> trim_right p (s ++ t) = s ++ trim_right p t.
Proof.
  intros Ht. induction s as [|c s IH]; [done|].
  change (String c s ++ t) with (String c (s ++ t)). cbn [trim_right]. rewrite IH.
  change (String c s ++ trim_right p t) with (String c (s ++ trim_right p t)).
  destruct (s ++ trim_right p t) eqn:He; [|done]. exfalso.
  destruct s; [|done]. by apply Ht.
Qed.
Lemma trim_right_drop p s c : p c = true -> trim_right p (s ++ String c "") = trim_right p s.
Proof.
  intros Hc. induction s as [|d s IH].
  - change ("" ++ String c "") with (String c ""). cbn. by rewrite Hc.
  - change (String d s ++ String c "") with (String d (s ++ String c "")). cbn [trim_right]. by rewrite IH.
Qed.
Lemma TrimSpace_drop s c : is_space c = true -> TrimSpace (s ++ String c "") = TrimSpace s.
Proof.
  intros Hc. unfold TrimSpace, trim_both. induction s as [|d s IH].
  - change ("" ++ String c "") with (String c ""). cbn [trim_left]. by rewrite Hc.
  - change (String d s ++ String c "") with (String d (s ++ String c "")). cbn [trim_left].
    destruct (is_space d); [done|].
    change (String d (s ++ String c "")) with (String d s ++ String c ""). by apply trim_right_drop.
Qed.
Lemma TrimSpace_fixed s : TrimSpace s = s -> trim_right is_space s = s.
Proof.
  unfold TrimSpace, trim_both. intros H.
  assert (trim_left is_space s = s) as Hl; [|by rewrite Hl in H].
  apply trim_left_same. pose proof (trim_left_length is_space s).
  pose proof (trim_right_length is_space (trim_left is_space s)). rewrite H in *. lia.
Qed.

(** ** Lines of .env *)

Definition plain_key (key : str) : Prop :=
  key <> "" /\ HasPrefix key "#" = false /\ no_byte "=" key = true /\ no_byte newline key = true /\
  str_all (fun c => negb (is_space c)) key = true.
Definition plain_value (value : str) : Prop := TrimSpace value = value /\ no_byte newline value = true.
Definition short (l : str) : Prop := (Z.of_nat (String.length l) < 65536)%Z.

Lemma TrimSpace_assignment key value : plain_key key -> TrimSpace value = value ->
  TrimSpace (key ++ "=" ++ value) = key ++ "=" ++ value.
Proof.
  intros (Hne & _ & _ & _ & Hs) Hv. unfold TrimSpace, trim_both.
  assert (trim_left is_space (key ++ "=" ++ value) = key ++ "=" ++ value) as ->.
  { destruct key as [|c key]; [done|]. cbn in Hs. apply andb_true_iff in Hs as [Hc _].
    change (String c key ++ "=" ++ value) with (String c (key ++ "=" ++ value)). by apply trim_left_none. }
  apply TrimSpace_fixed in Hv.
  assert (trim_right is_space ("=" ++ value) = "=" ++ value) as He.
  { change ("=" ++ value) with (String "=" value). cbn [trim_right]. rewrite Hv. by destruct value. }
  rewrite trim_right_app; by rewrite He.
Qed.
Lemma Cut_assignment key rest : no_byte "=" key = true -> Cut (key ++ "=" ++ rest) "=" = Some (key, rest).
Proof.
  intros Hk. unfold Cut, IndexByte. change ("=" ++ rest) with (String "=" rest).
  rewrite (IndexAny_stop key rest (Ascii.eqb "=") "="); [| |done].
  - rewrite str_take_app. replace (S (String.length key)) with (String.length (key ++ "=")).
    + change (String "=" rest) with ("=" ++ rest). rewrite <- str_app_assoc. by rewrite str_drop_app.
    + rewrite str_length_app. cbn. lia.
  - eapply str_all_impl; [|exact Hk]. intros c. cbn. by rewrite Ascii.eqb_sym.
Qed.

(** A trimmed line that begins with the key and an equals sign assigns to the key. *)
Lemma env_line_of key l rest : plain_key key -> TrimSpace l = key ++ "=" ++ rest ->
  env_line l = Some (key, TrimSpace rest).
Proof.
  intros Hk Hl. pose proof Hk as (Hne & Hh & He & _ & Hs). unfold env_line. rewrite Hl.
  assert ((key ++ "=" ++ rest =s "") = false) as ->.
  { apply eqb_false_str. by destruct key. }
  assert (HasPrefix (key ++ "=" ++ rest) "#" = false) as ->.
  { destruct key as [|c key]; [done|]. revert Hh. unfold HasPrefix.
    change (String c key ++ "=" ++ rest) with (String c (key ++ "=" ++ rest)). cbn [String.prefix].
    destruct (ascii_dec "#" c); [by destruct key|done]. }
  cbn [orb]. rewrite Cut_assignment by done. by rewrite (TrimSpace_none key).
Qed.
Lemma env_line_assignment key value : plain_key key -> TrimSpace value = value ->
  env_line (key ++ "=" ++ value) = Some (key, value).
Proof.
  intros Hk Hv. rewrite (env_line_of key _ value Hk) by (by apply TrimSpace_assignment). by rewrite Hv.
Qed.
Lemma is_line_of_assigns key l : plain_key key -> is_line_of key l = true ->
  exists v, env_line l = Some (key, v).
Proof.
  intros Hk H. apply HasPrefix_spec in H as [t Ht]. rewrite str_app_assoc in Ht.
  exists (TrimSpace t). by apply env_line_of.
Qed.

Lemma TrimSpace_cr l : TrimSpace (trim_cr l) = TrimSpace l.
Proof.
  unfold trim_cr. destruct (String.length l) as [|n] eqn:Hn; [done|].
  destruct (str_drop n l =s _) eqn:Hd; [|done]. apply eqb_true_str in Hd.
  rewrite <- (str_take_drop n l) at 2. rewrite Hd. by rewrite TrimSpace_drop.
Qed.
Lemma env_step_cr m l : env_step m (trim_cr l) = env_step m l.
Proof. unfold env_step, env_line. by rewrite TrimSpace_cr. Qed.

(** The scanner's view of a file is its lines, when they fit the buffer. *)
Lemma fold_fitting ls : Forall short ls -> forall m, foldl env_step m (fitting ls) = foldl env_step m ls.
Proof.
  induction 1 as [|l ls Hl _ IH]; intros m; [done|]. cbn [fitting].
  apply Z.ltb_lt in Hl. rewrite Hl. cbn [foldl]. by rewrite env_step_cr, IH.
Qed.
Lemma parse_env_lines data : Forall short (Split data newline) ->
  parse_env data = foldl env_step ∅ (Split data newline).
Proof.
  intros Hs. unfold parse_env, scan_lines, drop_last_empty. destruct (last _) as [l|] eqn:Hl.
  - apply last_Some in Hl as [ls Hls]. rewrite Hls in *. apply Forall_app in Hs as [Hs Hl].
    destruct l as [|c l].
    + rewrite removelast_last, fold_fitting by done. by rewrite foldl_app.
    + rewrite fold_fitting; [done|]. by apply Forall_app.
  - by rewrite fold_fitting.
Qed.

(** Which line decides a key: the last one that assigns to it. *)
Fixpoint decides (k : str) (ls : list str) : option str :=
  match ls with
  | [] => None
  | l :: ls' =>
      match decides k ls', env_line l with
      | Some v, _ => Some v
      | None, Some (k', v) => if k' =s k then Some v else None
      | None, None => None
      end
  end.
Lemma fold_decides k ls : forall m,
  foldl env_step m ls !! k = match decides k ls with Some v => Some v | None => m !! k end.
Proof.
  induction ls as [|l ls IH]; intros m; [done|]. cbn [foldl decides]. rewrite IH.
  destruct (decides k ls); [done|]. unfold env_step. destruct (env_line l) as [[k' v]|]; [|done].
  destruct (k' =s k) eqn:Hk.
  - apply eqb_true_str in Hk as ->. by rewrite lookup_insert_eq.
  - apply eqb_false_str in Hk. by rewrite lookup_insert_ne.
Qed.
Lemma decides_app k ls1 ls2 :
  decides k (ls1 ++ ls2)%list = match decides k ls2 with Some v => Some v | None => decides k ls1 end.
Proof.
  induction ls1 as [|l ls1 IH]; cbn; [by destruct (decides k ls2)|]. rewrite IH.
  by destruct (decides k ls2).
Qed.

Definition assigns (key l : str) : bool :=
  match env_line l with Some (k, _) => k =s key | None => false end.
Lemma decides_none k ls : where_ (assigns k) ls = [] -> decides k ls = None.
Proof.
  induction ls as [|l ls IH]; [done|]. unfold assigns at 1. cbn.
  destruct (env_line l) as [[k' v]|]; [destruct (k' =s k)|]; [done| |]; intros H; by rewrite IH.
Qed.

(** What an edit changes, as a list of lines. *)
Lemma replace_first_spec key value ls ls' : replace_first key value ls = Some ls' ->
  exists a l b, ls = (a ++ l :: b)%list /\ is_line_of key l = true /\ ls' = (a ++ (key ++ "=" ++ value)%string :: b)%list.
Proof.
  revert ls'. induction ls as [|l ls IH]; intros ls'; [done|]. cbn. destruct (is_line_of key l) eqn:Hl.
  - intros [= <-]. by exists [], l, ls.
  - destruct (replace_first key value ls) as [r|]; [|done]. intros [= <-].
    destruct (IH r eq_refl) as (a & x & b & -> & Hx & ->). by exists (l :: a), x, b.
Qed.

Lemma Split_pieces s sep : Forall (fun l => no_byte sep l = true) (Split s sep).
Proof.
  induction s as [|c s IH]; cbn; [by repeat constructor|]. destruct (Ascii.eqb c sep) eqn:Hc.
  - by constructor.
  - destruct (Split s sep) as [|h t]; inversion_clear IH; constructor; try done;
      unfold no_byte in *; cbn; by rewrite Hc.
Qed.

Section Edit.
Context (key value : str).
Hypothesis Hk : plain_key key.
Hypothesis Hv : plain_value value.
Hypothesis Hshort : short (key ++ "=" ++ value).

Lemma decides_assignment k : decides k [key ++ "=" ++ value] = if key =s k then Some value else None.
Proof. cbn. by rewrite env_line_assignment by (apply Hk || apply Hv). Qed.

(** An edited file, when no second line assigns to the key. *)
Lemma edit_env_spec data : Forall short (Split data newline) ->
  length (where_ (assigns key) (Split data newline)) <= 1 ->
  parse_env (edit_env key value data) = <[key := value]> (parse_env data).
Proof.
  intros Hs Hone. unfold edit_env.
  pose proof (Split_pieces data newline) as Hp. set (lines := Split data newline) in *.
  assert (no_byte newline (key ++ "=" ++ value) = true) as Hnl.
  { destruct Hk as (_ & _ & _ & Hn & _), Hv as [_ Hn']. unfold no_byte in *.
    by rewrite !str_all_app, Hn, Hn'. }
  assert (forall ls, ls <> [] -> Forall (fun l => no_byte newline l = true) ls -> Forall short ls ->
    (forall k, decides k ls = if key =s k then Some value else decides k lines) ->
    parse_env (Join ls (String newline "")) = <[key := value]> (parse_env data)) as Hmain.
  { intros ls Hne Hls Hsh Hd. rewrite !parse_env_lines; rewrite ?Split_Join by done; [|done|done].
    apply map_eq. intros k. rewrite fold_decides, Hd. fold lines. destruct (key =s k) eqn:Hkk.
    - apply eqb_true_str in Hkk as ->. by rewrite lookup_insert_eq.
    - apply eqb_false_str in Hkk. by rewrite lookup_insert_ne, fold_decides by done. }
  destruct (replace_first key value lines) as [ls|] eqn:Hr.
  - apply replace_first_spec in Hr as (a & l & b & Hl & Hline & ->).
    destruct (is_line_of_assigns key l Hk Hline) as [v Hlv].
    rewrite Hl in *. apply Forall_app in Hs as [Hs1 Hs2], Hp as [Hp1 Hp2].
    inversion_clear Hs2. inversion_clear Hp2.
    apply Hmain; [by destruct a|by apply Forall_app; split; [|constructor]|by apply Forall_app; split; [|constructor]|].
    assert (decides key b = None) as Hb.
    { apply decides_none. rewrite where_app in Hone. cbn in Hone. unfold assigns at 2 in Hone.
      rewrite Hlv, eqb_refl_str, length_app in Hone. cbn in Hone.
      by destruct (where_ (assigns key) b); [|cbn in Hone; lia]. }
    intros k. rewrite !decides_app. cbn [decides]. rewrite env_line_assignment by (apply Hk || apply Hv).
    rewrite Hlv. destruct (key =s k) eqn:Hkk; [|by destruct (decides k b)].
    apply eqb_true_str in Hkk as <-. by rewrite Hb.
  - apply Hmain; [by destruct lines|by apply Forall_app; repeat constructor|by apply Forall_app; repeat constructor|].
    intros k. rewrite decides_app, decides_assignment. by destruct (key =s k).
Qed.
End Edit.

(** With two lines for a key the edit changes the first, and the last is read. *)
Lemma duplicate_line_wins :
  let file := "A=1" ++ String newline "A=3" in
  parse_env (edit_env "A" "2" file) !! "A" = Some "3".
Proof. vm_compute. reflexivity. Qed.

(** ** The commands *)

Section Commands.
Context (environ : gmap str str).

(** Without faults the compose directory depends on which files exist. *)
Definition compose_dir (files : gmap str File) : str :=
  if negb (Getenv environ "BUKTIO_COMPOSE_DIR" =s "") then Getenv environ "BUKTIO_COMPOSE_DIR"
  else if bool_decide (is_Some (files !! Backups.PathJoin "deploy/docker-compose" "docker-compose.yml"))
  then "deploy/docker-compose"
  else if bool_decide (is_Some (files !! Backups.PathJoin "." "docker-compose.yml")) then "."
  else "deploy/docker-compose".

(** A step that only passes over the disk. *)
Definition same_host (h h' : Host) : Prop :=
  fs_files (h_fs h') = fs_files (h_fs h) /\ fs_fault (h_fs h') = fs_fault (h_fs h) /\ h_acts h' = h_acts h.
#[local] Instance same_host_preorder : PreOrder same_host.
Proof. split; [done|]. intros a b c (? & ? & ?) (? & ? & ?). split_and!; congruence. Qed.

Lemma exists_file_run path h : no_faults (h_fs h) ->
  exists h', same_host h h' /\
  exists_file path h = (inr (bool_decide (is_Some (fs_files (h_fs h) !! path))), h').
Proof.
  intros Hn. unfold exists_file. rewrite bind_run, attempt_run. unfold on_disk, os_Stat.
  rewrite syscall_ok by done. cbn.
  exists (mkHost (mkFS (fs_files (h_fs h)) (fs_dirs (h_fs h)) (fs_umask (h_fs h)) (S (fs_tick (h_fs h)))
    (fs_fault (h_fs h))) (h_acts h)). split; [done|].
  by destruct (fs_files (h_fs h) !! path).
Qed.

Lemma composeDir_run h : no_faults (h_fs h) ->
  exists h', same_host h h' /\ composeDir environ h = (inr (compose_dir (fs_files (h_fs h))), h').
Proof.
  intros Hn. unfold composeDir, compose_dir. destruct (negb _); [by exists h|].
  destruct (exists_file_run (Backups.PathJoin "deploy/docker-compose" "docker-compose.yml") h Hn)
    as (h1 & Hs1 & He1). rewrite bind_run, He1. destruct (bool_decide _) eqn:Hb1; [by exists h1|].
  assert (no_faults (h_fs h1)) as Hn1 by (intros n; destruct Hs1 as (_ & -> & _); done).
  destruct (exists_file_run (Backups.PathJoin "." "docker-compose.yml") h1 Hn1) as (h2 & Hs2 & He2).
  rewrite bind_run, He2. exists h2. split; [by etrans|].
  destruct Hs1 as (-> & _). by destruct (bool_decide _).
Qed.
Lemma compose_dir_insert files path f :
  is_Some (files !! path) -> compose_dir (<[path := f]> files) = compose_dir files.
Proof.
  intros Hp. unfold compose_dir.
  assert (forall q, bool_decide (is_Some (<[path := f]> files !! q)) = bool_decide (is_Some (files !! q))) as Hq.
  { intros q. apply bool_decide_ext. destruct (decide (path = q)) as [<-|Hne].
    - rewrite lookup_insert_eq. split; [done|by eexists].
    - by rewrite lookup_insert_ne. }
  by rewrite !Hq.
Qed.

Definition env_path (files : gmap str File) : str := Backups.PathJoin (compose_dir files) ".env".

Lemma dotenv_run h : no_faults (h_fs h) ->
  exists h', same_host h h' /\
  dotenv environ h = (inr (match fs_files (h_fs h) !! env_path (fs_files (h_fs h)) with
                           | Some f => parse_env (fl_data f) | None => ∅ end), h').
Proof.
  intros Hn. unfold dotenv. destruct (composeDir_run h Hn) as (h1 & Hs1 & He1). rewrite bind_run, He1.
  assert (no_faults (h_fs h1)) as Hn1 by (intros n; destruct Hs1 as (_ & -> & _); done).
  rewrite bind_run, attempt_run. unfold on_disk, os_ReadFile. rewrite syscall_ok by done. cbn.
  destruct Hs1 as (Hf & Hfa & Ha). rewrite Hf. fold (env_path (fs_files (h_fs h))).
  eexists (mkHost (mkFS (fs_files (h_fs h)) _ _ _ (fs_fault (h_fs h1))) (h_acts h1)).
  split; [done|]. by destruct (fs_files (h_fs h) !! env_path (fs_files (h_fs h))).
Qed.

Lemma setDotenvKey_run key value h r h' : no_faults (h_fs h) ->
  setDotenvKey environ key value h = (r, h') ->
  let path := env_path (fs_files (h_fs h)) in
  match fs_files (h_fs h) !! path with
  | None => r = inl "no such file or directory" /\ same_host h h'
  | Some f => r = inr tt /\ fs_fault (h_fs h') = fs_fault (h_fs h) /\ h_acts h' = h_acts h /\
      fs_files (h_fs h') = <[path := mkFile (edit_env key value (fl_data f)) (fl_mode f)]> (fs_files (h_fs h))
  end.
Proof.
  intros Hn. unfold setDotenvKey. destruct (composeDir_run h Hn) as (h1 & Hs1 & He1). rewrite bind_run, He1.
  assert (no_faults (h_fs h1)) as Hn1 by (intros n; destruct Hs1 as (_ & -> & _); done).
  rewrite bind_run. unfold on_disk at 1, os_ReadFile. rewrite syscall_ok by done. cbn [fs_files].
  destruct Hs1 as (Hf & Hfa & Ha). rewrite Hf. fold (env_path (fs_files (h_fs h))).
  destruct (fs_files (h_fs h) !! env_path (fs_files (h_fs h))) as [f|] eqn:Hp; cbv zeta.
  - unfold on_disk, os_WriteFile. rewrite syscall_ok by done. cbn [fs_files h_fs]. rewrite Hp.
    intros [= <- <-]. cbn. done.
  - intros [= <- <-]. by split_and!.
Qed.

(** Pinning a setting.  On a disk without faults, setting a key of .env succeeds
    when the file is there, and from then on the program reads the value that was set
    for that key and for every other key what it read before, provided the file had
    no second line for the key; the lines of the file must fit the scanner's buffer. *)
Theorem dotenv_roundtrip key value h f
    (Hk : plain_key key) (Hv : plain_value value) (Hl : short (key ++ "=" ++ value))
    (Hn : no_faults (h_fs h))
    (Hf : fs_files (h_fs h) !! env_path (fs_files (h_fs h)) = Some f)
    (Hs : Forall short (Split (fl_data f) newline))
    (Hone : length (where_ (assigns key) (Split (fl_data f) newline)) <= 1) :
  exists h' m, setDotenvKey environ key value h = (inr tt, h') /\
    fst (dotenv environ h) = inr m /\ fst (dotenv environ h') = inr (<[key := value]> m).
Proof.
  destruct (setDotenvKey environ key value h) as [r h'] eqn:Hrun.
  apply setDotenvKey_run in Hrun; [|done]. rewrite Hf in Hrun. destruct Hrun as (-> & Hfa & _ & Hfs).
  exists h', (parse_env (fl_data f)). split; [done|].
  destruct (dotenv_run h Hn) as (h1 & _ & ->). rewrite Hf. split; [done|].
  destruct (dotenv_run h') as (h2 & _ & ->); [intros n; by rewrite Hfa|].
  rewrite Hfs. unfold env_path at 1. rewrite compose_dir_insert by (by eexists).
  fold (env_path (fs_files (h_fs h))). rewrite lookup_insert_eq. cbn [fl_data fst].
  by rewrite edit_env_spec.
Qed.
End Commands.

(** ** What a command does to the outside *)

(** Acts of kind [P] are added, and only files in [Q] change. *)
Definition adds (P : Act -> Prop) (Q : str -> Prop) (h h' : Host) : Prop :=
  (exists new, h_acts h' = (h_acts h ++ new)%list /\ Forall P new) /\
  forall path, ~ Q path -> fs_files (h_fs h') !! path = fs_files (h_fs h) !! path.
#[export] Instance adds_preorder P Q : PreOrder (adds P Q).
Proof.
  split.
  - intros h. split; [|done]. exists []. by rewrite app_nil_r.
  - intros a b c [(n1 & H1 & F1) G1] [(n2 & H2 & F2) G2]. split.
    + exists (n1 ++ n2)%list. rewrite H2, H1, app_assoc. split; [done|by apply Forall_app].
    + intros path Hp. by rewrite G2, G1.
Qed.
Lemma adds_weaken (P P' : Act -> Prop) (Q Q' : str -> Prop) {A} (m : M Host str A) :
  (forall a, P a -> P' a) -> (forall p, Q p -> Q' p) -> Guar (adds P Q) m -> Guar (adds P' Q') m.
Proof.
  intros HP HQ Hm h r h' H. destruct (Hm h r h' H) as [(new & Hn & Hf) Hq]. split.
  - exists new. split; [done|]. by eapply Forall_impl.
  - intros path Hp. apply Hq. naive_solver.
Qed.

Lemma adds_act P Q a : P a -> Guar (adds P Q) (act a).
Proof.
  intros Ha h r h'. unfold act, modify. intros [= <- <-]. split; [|done]. cbn.
  exists [a]. split; [done|]. by constructor.
Qed.
(** File-system calls that change no file, and those that change one. *)
Lemma syscall_files {A} (f : FS -> (str + A) * FS) (Q : str -> Prop) P :
  (forall fs path, ~ Q path -> fs_files (snd (f fs)) !! path = fs_files fs !! path) ->
  Guar (adds P Q) (on_disk (syscall f)).
Proof.
  intros Hf h r h' H. unfold on_disk, syscall in H. destruct (fs_fault (h_fs h) _).
  - injection H as <- <-. split; [|done]. exists []. by rewrite app_nil_r.
  - destruct (f _) as [x fs1] eqn:Hx. injection H as <- <-. split; [exists []; by rewrite app_nil_r|].
    intros path Hp. cbn. change fs1 with (snd (x, fs1)). rewrite <- Hx. by rewrite Hf.
Qed.
Lemma adds_Stat P Q path : Guar (adds P Q) (on_disk (os_Stat path)).
Proof. by apply syscall_files. Qed.
Lemma adds_ReadFile P Q path : Guar (adds P Q) (on_disk (os_ReadFile path)).
Proof. by apply syscall_files. Qed.
Lemma adds_WriteFile P (Q : str -> Prop) path data perm : Q path -> Guar (adds P Q) (on_disk (os_WriteFile path data perm)).
Proof.
  intros HQ. apply syscall_files. intros fs p Hp. cbn. rewrite lookup_insert_ne; [done|]. by intros ->.
Qed.
#[export] Hint Resolve adds_Stat adds_ReadFile : guar.

Section Upgrade.
Context (environ : gmap str str) (docker : nat -> str -> list str -> str -> option str * str)
  (http : nat -> HttpRequest -> str + HttpResponse) (now : Z).

Lemma adds_composeDir P Q : Guar (adds P Q) (composeDir environ).
Proof. unfold composeDir, exists_file. guar. Qed.
Lemma adds_exec P Q dir args input : (forall e out, P (Ran dir args input e out)) ->
  Guar (adds P Q) (exec docker dir args input).
Proof.
  intros HP h r h'. unfold exec. intros [= <- <-]. split; [|done]. cbn. eexists. split; [done|].
  by constructor.
Qed.
#[local] Hint Resolve adds_composeDir : guar.
Lemma adds_run P Q args : (forall dir e out, P (Ran dir ("compose" :: args) "" e out)) ->
  Guar (adds P Q) (run environ docker args).
Proof.
  intros HP. unfold run, compose. guar. by apply adds_exec.
Qed.
Lemma adds_dotenv P Q : Guar (adds P Q) (dotenv environ).
Proof. unfold dotenv. guar. Qed.
Lemma adds_setDotenvKey P (Q : str -> Prop) key value : (forall dir, Q (Backups.PathJoin dir ".env")) ->
  Guar (adds P Q) (setDotenvKey environ key value).
Proof. intros HQ. unfold setDotenvKey. guar. by apply adds_WriteFile. Qed.

(** ** status *)

Definition printed (a : Act) : Prop := exists l, a = Printed l.
Lemma status_run h r h' : status environ http h = (r, h') ->
  fs_files (h_fs h') = fs_files (h_fs h) /\
  exists ans rest, h_acts h' = (h_acts h ++ Called (ready_request environ) ans :: rest)%list /\
    Forall printed rest /\
    (r = inr tt -> exists resp, ans = inr resp /\ hs_StatusCode resp = 200%Z).
Proof.
  unfold status. rewrite bind_run. unfold mapErr, call. destruct (http _ _) as [e|resp] eqn:Hh.
  { intros [= <- <-]. split; [done|]. by exists (inl e), []. }
  set (h1 := mkHost _ _). intros H.
  assert (fs_files (h_fs h') = fs_files (h_fs h1) /\ (exists rest, h_acts h' = (h_acts h1 ++ rest)%list /\ Forall printed rest)
    /\ (r = inr tt -> hs_StatusCode resp = 200%Z)) as (Hf & (rest & Hr & Hp) & Hok).
  { destruct (JsonText.parse (hs_Body resp)) as [v|]; [|by injection H as <- <-; split_and!; [|exists []; by rewrite app_nil_r|]].
    destruct (Json.lenient _ _ v) as [out|]; [|by injection H as <- <-; split_and!; [|exists []; by rewrite app_nil_r|]].
    assert (Guar (adds printed (fun _ => False)) (do! Println ("buktio " ++ rd_Version out ++ " — " ++ friendlyOverall (rd_Status out)) in
          forM_ (map_to_list (rd_Components out)) (fun '(comp, st) =>
                Println ("  " ++ pad 16 (friendlyComponent comp ++ ":") ++ " " ++ st)))) as Hg.
    { unfold Println. guar; repeat case_match; apply adds_act; by eexists. }
    rewrite bind_run in H. destruct (Println _ h1) as [[e|[]] h2] eqn:H1; [by injection H|].
    rewrite bind_run in H. destruct (forM_ _ _ h2) as [r3 h3] eqn:H3.
    destruct (Hg h1 r3 h3) as [(new & Hn & Hp) Hq]; [by rewrite bind_run, H1|].
    assert (h' = h3 /\ (r = inr tt -> (hs_StatusCode resp =? 200)%Z = true)) as [-> Hst].
    { destruct r3 as [e|[]]; [by injection H as <- <-|]. rewrite bind_run in H.
      destruct (hs_StatusCode resp =? 200)%Z; by injection H as <- <-. }
    split_and!; [|by exists new|intros Hr; by apply Z.eqb_eq, Hst].
    apply map_eq. intros path. apply Hq. tauto. }
  split; [done|]. exists (inr resp), rest. split; [|split; [done|intros Hr'; by exists resp; split; [|apply Hok]]].
  rewrite Hr. cbn. by rewrite <- app_assoc.
Qed.

(** ** backup *)

(** The commands of an upgrade that replace what is running. *)
Definition restarts (a : Act) : Prop :=
  match a with
  | Ran _ args _ _ _ => args = ["compose"; "pull"] \/ args = ["compose"; "up"; "-d"; "--build"]
  | _ => False
  end.
Definition asks (a : Act) : Prop := match a with Called _ _ => True | _ => False end.
Definition preparation (a : Act) : Prop := ~ restarts a /\ ~ asks a.

Lemma adds_captured P (Q : str -> Prop) path out : Q path -> Guar (adds P Q) (captured path out).
Proof.
  intros HQ h r h'. unfold captured, modify. intros [= <- <-]. split; [exists []; by rewrite app_nil_r|].
  intros p Hp. cbn. destruct (fs_files (h_fs h) !! path); [|done]. cbn. rewrite lookup_insert_ne; [done|]. by intros ->.
Qed.

Lemma doBackup_adds out : Guar (adds preparation (eq (if out =s "" then default_dump now else out)))
  (doBackup environ docker now out).
Proof.
  unfold doBackup, Println, os_Create. set (path := if out =s "" then _ else out).
  guar; try (apply adds_dotenv || apply adds_WriteFile || apply adds_captured; done).
  - apply adds_act. split; tauto.
  - apply adds_exec. intros e o. split; [|tauto]. intros [H|H]; discriminate H.
Qed.

(** A backup that succeeds ran pg_dump, without an error, and its output is the file. *)
Lemma doBackup_ok out h path h' : doBackup environ docker now out h = (inr path, h') ->
  path = (if out =s "" then default_dump now else out) /\
  exists new dir user dbn dump, h_acts h' = (h_acts h ++ new ++ [Ran dir ("compose" :: pg_dump user dbn) "" None dump])%list /\
    Forall preparation new /\ fl_data <$> fs_files (h_fs h') !! path = Some dump.
Proof.
  unfold doBackup. intros H. apply bind_inr in H as (env & h1 & H1 & H).
  apply (adds_dotenv preparation (fun _ => False)) in H1 as [(n1 & Ha1 & F1) _].
  destruct (_ || _) eqn:Hg.
  { apply bind_inr in H as (d & h2 & _ & H). discriminate H. }
  set (p := if out =s "" then _ else out) in *. cbv zeta in H.
  apply bind_inr in H as ([] & h2 & H2 & H).
  assert (h_acts h2 = h_acts h1 /\ is_Some (fs_files (h_fs h2) !! p)) as [Ha2 Hf2].
  { unfold on_disk, os_Create, os_WriteFile, syscall in H2. destruct (fs_fault _ _); [by injection H2|].
    injection H2 as <-. cbn. split; [done|]. rewrite lookup_insert_eq. by eexists. }
  apply bind_inr in H as (dir & h3 & H3 & H).
  apply (adds_composeDir preparation (fun _ => False)) in H3 as [(n3 & Ha3 & F3) Hq3].
  apply bind_inr in H as ([] & h4 & H4 & H). unfold Println, act, modify in H4. injection H4 as <-.
  apply bind_inr in H as (r & h5 & H5 & H). unfold exec in H5. injection H5 as <- <-.
  apply bind_inr in H as ([] & h6 & H6 & H). unfold captured, modify in H6. injection H6 as <-. cbn in H.
  destruct (docker _ _ _ _) as [[e|] dump]; [discriminate H|]. injection H as <- <-. cbn in *.
  split; [done|].
  exists (n1 ++ n3 ++ [Printed ("Backing up metadata to " ++ p ++ " ...")])%list, dir,
    (default "" (env !! "POSTGRES_USER")), (default "" (env !! "POSTGRES_DB")), dump.
  split; [|split].
  - rewrite Ha3, Ha2, Ha1, <- !app_assoc. done.
  - rewrite !Forall_app. split_and!; [done|done|]. constructor; [split; tauto|done].
  - rewrite (Hq3 p) by tauto. destruct Hf2 as [f ->]. cbn. by rewrite lookup_insert_eq.
Qed.

(** ** The rest of the upgrade *)

Lemma last_chars a b c d : a ++ String c "" = b ++ String d "" -> c = d.
Proof.
  revert b. induction a as [|x a IH]; intros [|y b] H.
  - by injection H.
  - injection H as _ H. by destruct b.
  - injection H as _ H. by destruct a.
  - injection H as _ H. by apply IH in H.
Qed.
Lemma dump_not_env dir : Backups.PathJoin dir ".env" <> default_dump now.
Proof.
  destruct (PathJoin_prefix dir) as [pre Hpre]. rewrite Hpre by done. unfold default_dump. intros H.
  change ".env" with (".en" ++ String "v" "") in H. change ".dump" with (".dum" ++ String "p" "") in H.
  rewrite <- !str_app_assoc in H. by apply last_chars in H.
Qed.

(** At most one question per round, and success means a good answer to one. *)
Definition count_asks (l : list Act) : nat := length (where_ (fun a => match a with Called _ _ => true | _ => false end) l).
Definition healthy (a : Act) : Prop :=
  exists resp, a = Called (ready_request environ) (inr resp) /\ hs_StatusCode resp = 200%Z.
Lemma count_asks_app l1 l2 : count_asks (l1 ++ l2)%list = count_asks l1 + count_asks l2.
Proof. unfold count_asks. by rewrite where_app, length_app. Qed.
Lemma count_asks_none l : Forall (fun a => ~ asks a) l -> count_asks l = 0.
Proof. induction 1 as [|a l Ha _ IH]; [done|]. unfold count_asks in *. destruct a; cbn in *; tauto. Qed.
Lemma preparation_asks l : Forall preparation l -> count_asks l = 0.
Proof. intros F. apply count_asks_none. eapply Forall_impl; [exact F|]. by intros a [_ ?]. Qed.

Lemma wait_healthy_run n : forall h r h', wait_healthy environ http n h = (r, h') ->
  fs_files (h_fs h') = fs_files (h_fs h) /\
  exists new, h_acts h' = (h_acts h ++ new)%list /\ count_asks new <= n /\ Forall (fun a => ~ restarts a) new /\
    (r = inr tt -> Exists healthy new).
Proof.
  induction n as [|n IH]; intros h r h' H; cbn [wait_healthy] in H.
  { injection H as <- <-. split; [done|]. exists []. rewrite app_nil_r. cbn. split_and!; [done|lia|done|done]. }
  rewrite bind_run, attempt_run in H. destruct (status environ http h) as [r1 h1] eqn:Hs.
  apply status_run in Hs as (Hf & ans & rest & Ha & Hp & Hok).
  assert (count_asks rest = 0 /\ Forall (fun a => ~ restarts a) rest) as [Hc Hr].
  { split; [apply count_asks_none|]; (eapply Forall_impl; [exact Hp|]); intros a [l ->]; cbn; tauto. }
  destruct r1 as [e|[]].
  - rewrite bind_run in H. unfold act, modify in H.
    apply IH in H as (Hf' & new & Hn & Hcn & Hrn & Hokn). split; [by rewrite Hf'|].
    exists (Called (ready_request environ) ans :: rest ++ Slept 2 :: new)%list.
    split; [|split; [|split]].
    + rewrite Hn. cbn. rewrite Ha, <- !app_assoc. done.
    + change (count_asks (Called (ready_request environ) ans :: rest ++ Slept 2 :: new))
        with (S (count_asks (rest ++ Slept 2 :: new))). rewrite count_asks_app, Hc. cbn. fold (count_asks new). lia.
    + constructor; [cbn; tauto|]. apply Forall_app. split; [done|]. by constructor; [cbn; tauto|].
    + intros Hr1. apply Exists_cons_tl, Exists_app. right. by apply Exists_cons_tl, Hokn.
  - unfold Println, act, modify in H. injection H as <- <-. split; [done|].
    exists (Called (ready_request environ) ans :: rest ++ [Printed "Upgrade complete; services healthy."])%list.
    split; [|split; [|split]].
    + cbn. rewrite Ha, <- !app_assoc. done.
    + change (count_asks (Called (ready_request environ) ans :: rest ++ [Printed "Upgrade complete; services healthy."]))
        with (S (count_asks (rest ++ [Printed "Upgrade complete; services healthy."]))).
      rewrite count_asks_app, Hc. cbn. lia.
    + constructor; [cbn; tauto|]. apply Forall_app. split; [done|]. by constructor; [cbn; tauto|].
    + intros _. constructor. destruct (Hok eq_refl) as (resp & -> & Hst). by exists resp.
Qed.

(** Step 2 and the pull: only .env may change. *)
Definition is_env (path : str) : Prop := exists dir, path = Backups.PathJoin dir ".env".
Lemma run_ok args h h' : run environ docker args h = (inr tt, h') ->
  exists new dir out, h_acts h' = (h_acts h ++ new ++ [Ran dir ("compose" :: args) "" None out])%list /\
    Forall preparation new.
Proof.
  unfold run, compose. intros H. apply bind_inr in H as (r & h1 & H1 & H).
  apply bind_inr in H1 as (dir & h0 & H0 & H1).
  apply (adds_composeDir preparation (fun _ => False)) in H0 as [(n0 & Ha0 & F0) _].
  unfold exec in H1. injection H1 as <- <-. destruct (docker _ _ _ _) as [[e|] out]; [discriminate H|].
  injection H as <-. cbn. exists n0, dir, out. split; [|done]. by rewrite Ha0, <- app_assoc.
Qed.

Definition quiet_act (a : Act) : Prop := ~ asks a.
Definition pin_and_pull (to : str) : M Host str (str + unit) :=
  do! (if negb (to =s "") then
         do! Println ("Step 2/4: pinning BUKTIO_VERSION=" ++ to ++ " ...") in
         setDotenvKey environ "BUKTIO_VERSION" to
       else Println "Step 2/4: no --to given; keeping current image tags") in
  do! Println "Step 3/4: pulling/building and restarting..." in
  attempt (E' := str) (run environ docker ["pull"]).
Lemma pin_and_pull_adds to : Guar (adds quiet_act is_env) (pin_and_pull to).
Proof.
  unfold pin_and_pull, Println. guar; try (apply adds_act; unfold quiet_act; tauto).
  - apply adds_setDotenvKey. intros dir. by exists dir.
  - apply adds_run. unfold quiet_act. tauto.
Qed.

(** Everything after the backup. *)
Definition after_backup (to : str) : M Host str unit :=
  do! (if negb (to =s "") then
         do! Println ("Step 2/4: pinning BUKTIO_VERSION=" ++ to ++ " ...") in
         setDotenvKey environ "BUKTIO_VERSION" to
       else Println "Step 2/4: no --to given; keeping current image tags") in
  do! Println "Step 3/4: pulling/building and restarting..." in
  let! _ := attempt (E' := str) (run environ docker ["pull"]) in
  do! run environ docker ["up"; "-d"; "--build"] in
  do! Println "Step 4/4: waiting for health..." in
  wait_healthy environ http 30.
Lemma after_backup_split to h : after_backup to h =
  match pin_and_pull to h with
  | (inl e, h1) => (inl e, h1)
  | (inr _, h1) => (do! run environ docker ["up"; "-d"; "--build"] in
                    do! Println "Step 4/4: waiting for health..." in
                    wait_healthy environ http 30) h1
  end.
Proof.
  unfold after_backup, pin_and_pull. lazymatch goal with |- bind ?m _ h = _ => set (pin := m) end.
  rewrite !(bind_run pin). destruct (pin h) as [[e|[]] ha]; [done|].
  rewrite !(bind_run (Println "Step 3/4: pulling/building and restarting...")).
  destruct (Println _ ha) as [[e|[]] hb]; [done|].
  rewrite (bind_run (attempt _)), attempt_run. by destruct (run environ docker ["pull"] hb).
Qed.

Lemma after_backup_run to h r h' : after_backup to h = (r, h') ->
  (forall path, ~ is_env path -> fs_files (h_fs h') !! path = fs_files (h_fs h) !! path) /\
  exists new, h_acts h' = (h_acts h ++ new)%list /\ count_asks new <= 30 /\
    (r = inr tt -> exists before dir out after,
      new = (before ++ Ran dir ["compose"; "up"; "-d"; "--build"] "" None out :: after)%list /\ Exists healthy after).
Proof.
  rewrite after_backup_split. destruct (pin_and_pull to h) as [r1 h1] eqn:H1. intros Hr1.
  apply pin_and_pull_adds in H1 as [(n1 & Ha1 & F1) Hq1]. apply count_asks_none in F1.
  destruct r1 as [e|x].
  { injection Hr1 as <- <-. split; [done|]. exists n1. rewrite F1. split_and!; [done|lia|done]. }
  rewrite bind_run in Hr1. destruct (run environ docker ["up"; _; _] h1) as [[e|[]] h2] eqn:H2.
  - injection Hr1 as <- <-. apply (adds_run quiet_act (fun _ => False)) in H2 as [(n2 & Ha2 & F2) Hq2];
      [|unfold quiet_act; tauto]. apply count_asks_none in F2.
    split; [intros path Hp; by rewrite Hq2, Hq1 by tauto|].
    exists (n1 ++ n2)%list. rewrite count_asks_app, F1, F2, Ha2, Ha1, app_assoc. split_and!; [done|lia|done].
  - pose proof H2 as Hq2. apply (adds_run (fun _ => True) (fun _ => False)) in Hq2 as [_ Hq2]; [|done].
    apply run_ok in H2 as (n2 & dir & out & Ha2 & F2).
    pose proof (preparation_asks n2 F2) as C2.
    rewrite bind_run in Hr1. unfold Println, act, modify in Hr1.
    apply wait_healthy_run in Hr1 as (Hf3 & n3 & Ha3 & Hc3 & _ & Hok).
    split; [intros path Hp; rewrite Hf3; cbn; by rewrite Hq2, Hq1 by tauto|].
    exists ((n1 ++ n2) ++ Ran dir ["compose"; "up"; "-d"; "--build"] "" None out
      :: Printed "Step 4/4: waiting for health..." :: n3)%list. split; [|split].
    + rewrite Ha3. cbn. rewrite Ha2, Ha1, <- !app_assoc. done.
    + rewrite !count_asks_app, F1, C2. cbn. done.
    + intros Hr. eexists _, dir, out, _. split; [done|]. by apply Exists_cons_tl, Hok.
Qed.

(** C33: an upgrade is backed up and health-gated, whatever docker, the disk and the
    API answer.  When the backup fails the command fails, and up to then nothing was
    pulled or restarted and no file but the dump was touched, .env included.  When it
    succeeds, pg_dump ended without an error before anything was pulled or restarted,
    and at the end of the command the dump file still holds exactly what pg_dump
    wrote.  The command reports success only after [up] succeeded and the API then
    answered 200 to the readiness question, which is asked at most 30 times. *)
Theorem upgrade_backed_up to h r h'
    (Hrun : upgradeCmd environ docker http now to h = (r, h')) :
  exists new, h_acts h' = (h_acts h ++ new)%list /\ count_asks new <= 30 /\
  ((exists e, r = inl ("pre-upgrade backup failed (aborting): " ++ e) /\ Forall preparation new /\
      forall path, path <> default_dump now ->
        fs_files (h_fs h') !! path = fs_files (h_fs h) !! path)
   \/
   (exists before dir user dbn dump after,
      new = (before ++ Ran dir ("compose" :: pg_dump user dbn) "" None dump :: after)%list /\
      Forall preparation before /\
      fl_data <$> fs_files (h_fs h') !! default_dump now = Some dump /\
      (r = inr tt -> exists b dir' out a,
         after = (b ++ Ran dir' ["compose"; "up"; "-d"; "--build"] "" None out :: a)%list /\ Exists healthy a))).
Proof.
  unfold upgradeCmd in Hrun. rewrite bind_run in Hrun. unfold Println at 1, act, modify in Hrun.
  set (step1 := Printed _) in Hrun. set (h0 := mkHost _ _) in Hrun.
  rewrite bind_run in Hrun. unfold mapErr in Hrun.
  destruct (doBackup environ docker now "" h0) as [[e|path] h1] eqn:Hb.
  - injection Hrun as <- <-. apply doBackup_adds in Hb as [(n & Ha & F) Hq].
    exists (step1 :: n). split; [|split]; [by rewrite Ha; cbn; rewrite <- app_assoc| |left].
    + change (count_asks n <= 30). rewrite preparation_asks by done. lia.
    + exists e. split; [done|]. split; [by constructor; [split; cbn; tauto|]|].
      intros p Hp. apply Hq. cbn. congruence.
  - apply doBackup_ok in Hb as (-> & n & dir & user & dbn & dump & Ha & F & Hd).
    fold (after_backup to) in Hrun. apply after_backup_run in Hrun as (Hq & n2 & Ha2 & Hc & Hok).
    exists (step1 :: n ++ Ran dir ("compose" :: pg_dump user dbn) "" None dump :: n2)%list. split; [|split].
    + rewrite Ha2, Ha. cbn. by rewrite <- !app_assoc.
    + change (count_asks (n ++ Ran dir ("compose" :: pg_dump user dbn) "" None dump :: n2)%list <= 30).
      rewrite count_asks_app, preparation_asks by done. exact Hc.
    + right. exists (step1 :: n), dir, user, dbn, dump, n2. split; [done|]. split; [by constructor; [split; cbn; tauto|]|].
      split; [|exact Hok]. rewrite Hq; [done|]. intros [d Hd']. by apply (dump_not_env d).
Qed.
End Upgrade.

(** ** A concrete host *)

Definition env_text : str :=
  "# buktio" ++ String newline ("POSTGRES_USER=buktio" ++ String newline
    ("POSTGRES_DB = meta" ++ String newline ("BUKTIO_VERSION=v1" ++ String newline ""))).
Definition ex_host : Host :=
  mkHost (mkFS (<["docker-compose.yml" := mkFile "services:" 420]>
           (<[".env" := mkFile env_text 384]> {[ "last.dump" := mkFile "PGDMP old" 420 ]})) ∅ 18 0 (fun _ => None)) [].
Definition docker_up (n : nat) (dir : str) (args : list str) (input : str) : option str * str := (None, "PGDMP new").
Definition docker_down (n : nat) (dir : str) (args : list str) (input : str) : option str * str :=
  (Some "exit status 1", "").
Definition api_up (n : nat) (r : HttpRequest) : str + HttpResponse := inr (mkHttpResponse 200 "{}").

Lemma dotenv_roundtrip_witness :
  exists h' m, setDotenvKey ∅ "BUKTIO_VERSION" "v2" ex_host = (inr tt, h') /\
    fst (dotenv ∅ ex_host) = inr m /\ m !! "POSTGRES_DB" = Some "meta" /\
    fst (dotenv ∅ h') = inr (<["BUKTIO_VERSION" := "v2"]> m).
Proof.
  destruct (dotenv_roundtrip ∅ "BUKTIO_VERSION" "v2" ex_host (mkFile env_text 384)) as (h' & m & H1 & H2 & H3).
  - vm_compute. repeat split; discriminate.
  - vm_compute. repeat split.
  - vm_compute. reflexivity.
  - intros n. reflexivity.
  - vm_compute. reflexivity.
  - vm_compute. repeat constructor.
  - vm_compute. lia.
  - exists h', m. split; [exact H1|]. split; [exact H2|]. split; [|exact H3].
    assert (match fst (dotenv ∅ ex_host) with inr m => m !! "POSTGRES_DB" | inl _ => None end = Some "meta") as Hm
      by (vm_compute; reflexivity).
    rewrite H2 in Hm. exact Hm.
Defined.

Definition new_year : Z := 1735689600000000000.
Lemma upgrade_backed_up_witness :
  let out := upgradeCmd ∅ docker_up api_up new_year "v2" ex_host in
  fst out = inr tt /\
  fl_data <$> fs_files (h_fs (snd out)) !! "buktio-metadata-20250101-000000.dump" = Some "PGDMP new" /\
  exists dir, (Ran dir ["compose"; "up"; "-d"; "--build"] "" None "PGDMP new" ∈ h_acts (snd out)).
Proof.
  cbv zeta. set (out := upgradeCmd _ _ _ _ _ _).
  assert (fst out = inr tt) as Hr by (vm_compute; reflexivity).
  destruct (upgrade_backed_up ∅ docker_up api_up new_year "v2" ex_host (fst out) (snd out)
    (surjective_pairing out)) as (new & Ha & _ & [(e & He & _)|(b & dir & u & d & dump & a & Hn & _ & Hd & Hok)]).
  { rewrite Hr in He. discriminate He. }
  split; [exact Hr|]. split; [vm_compute; reflexivity|].
  destruct (Hok Hr) as (b2 & dir' & o & a2 & Ha2 & _). exists dir'.
  assert (Forall (fun x => match x with Ran _ _ _ _ o => o = "PGDMP new" | _ => True end) (h_acts (snd out))) as Hall
    by (vm_compute; repeat constructor).
  assert (Ran dir' ["compose"; "up"; "-d"; "--build"] "" None o ∈ h_acts (snd out)) as Hin.
  { rewrite Ha, Hn, Ha2. rewrite !elem_of_app, !elem_of_cons, !elem_of_app, !elem_of_cons. tauto. }
  pose proof (proj1 (Forall_forall _ _) Hall _ Hin) as Ho. cbv beta iota in Ho. rewrite Ho in Hin. exact Hin.
Defined.

(** The dump file is emptied before pg_dump runs: a failed backup over an earlier one
    destroys it. *)
Lemma failed_backup_empties_previous :
  let '(r, h) := doBackup ∅ docker_down new_year "last.dump" ex_host in
  r = inl "pg_dump: exit status 1" /\ fs_files (h_fs h) !! "last.dump" = Some (mkFile "" 420).
Proof. vm_compute. split; reflexivity. Qed.
