(* ===== verification/S3Proxy.v ===== *)
(** src/cmd/buktio-s3proxy/main.go and [RunFlusher] of src/internal/proxy/proxy.go: the
    proxy as a process.  Its goroutines - the handlers, the flusher, the shutdown
    watcher and main - interleave as steps of a relation. *)
From S2P Require Import Prelude GoStrings Config Database Repository Proxy.
#[local] Open Scope string_scope.
Import Proxy.

Module S3Proxy.

(** ** Settings *)

Section Settings.
(** the process environment; what uuid.Parse and url.Parse accept *)
Context (environ : gmap str str) (uuid_Parse url_Parse : str -> bool).

Definition getenv (k def : str) : str :=
  match environ !! k with Some v => if v =s "" then def else v | None => def end.

Record Settings := mkSettings {
  st_Addr : str; st_Upstream : str; st_DatabaseURL : str; st_ClusterID : str; st_Interval : Z }.

(** A cluster id that is not a UUID is dropped; an interval that does not parse is 30
    seconds; an upstream that does not parse ends the program. *)
Definition settings : str + Settings :=
  let upstreamRaw := getenv "BUKTIO_S3PROXY_UPSTREAM" "http://garage:3900" in
  let clusterID := default "" (environ !! "BUKTIO_S3PROXY_CLUSTER_ID") in
  let clusterID := if negb (clusterID =s "") && negb (uuid_Parse clusterID) then "" else clusterID in
  let interval := default (30 * 1000000000)%Z
                    (Config.ParseDuration (getenv "BUKTIO_S3PROXY_FLUSH_INTERVAL" "30s")) in
  if negb (url_Parse upstreamRaw) then inl "invalid upstream URL"
  else inr (mkSettings (getenv "BUKTIO_S3PROXY_ADDR" ":3900") upstreamRaw
              (default "" (environ !! "DATABASE_URL")) clusterID interval).
End Settings.

(** [RunFlusher]: an interval that is not positive is replaced. *)
Definition flush_interval (interval : Z) : Z :=
  if (interval <=? 0)%Z then (30 * 1000000000)%Z else interval.

(** The rows of a batch. *)
Definition to_rows (clusterID : str) (samples : list Sample) : list Store.TrafficSample :=
  map (fun s => Store.mkTrafficSample clusterID (key_AccessKeyID (sm_Key s)) (key_Bucket (sm_Key s))
                  (key_Method (sm_Key s)) (ct_Requests (sm_Count s)) (ct_BytesIn (sm_Count s))
                  (ct_BytesOut (sm_Count s))) samples.

(** [New]: the reverse proxy's own director may rewrite the Host; the one the client
    signed is put back. *)
Record Outgoing := mkOutgoing { og_Host : str; og_URL : str }.
Definition Director (orig : Outgoing -> Outgoing) (r : Outgoing) : Outgoing :=
  let host := og_Host r in
  let r' := orig r in
  if negb (host =s "") then mkOutgoing host (og_URL r') else r'.

(** [countingWriter.Write]: the bytes of each write that went out. *)
Definition Write (n written : Z) : Z := add64 n written.
Definition egress (writes : list Z) : Z := foldl Write 0%Z writes.

(** ** The process *)

Inductive FlusherState :=
  | NoFlusher                                          (* no database *)
  | Idle                                               (* in the select *)
  | Flushing (batch : list Sample) (final : bool)      (* in the flush function *)
  | Finished.                                          (* returned: wg.Done *)
Inductive ServerState := Listening | ErrServerClosed | Failed.
Inductive MainState := Serving | Waiting | Exited (code : Z).

Record State := mkState {
  p_agg : Aggregator; p_inflight : list Request;
  p_stored : list Sample; p_lost : list Sample;
  p_cancelled : bool; p_flusher : FlusherState; p_server : ServerState; p_main : MainState;
  p_pool : bool }.

Definition start (db : bool) : State :=
  mkState NewAggregator [] [] [] false (if db then Idle else NoFlusher) Listening Serving db.

Definition set_agg a st := mkState a (p_inflight st) (p_stored st) (p_lost st) (p_cancelled st) (p_flusher st) (p_server st) (p_main st) (p_pool st).
Definition set_inflight l st := mkState (p_agg st) l (p_stored st) (p_lost st) (p_cancelled st) (p_flusher st) (p_server st) (p_main st) (p_pool st).
Definition set_flusher f st := mkState (p_agg st) (p_inflight st) (p_stored st) (p_lost st) (p_cancelled st) f (p_server st) (p_main st) (p_pool st).
Definition set_server s st := mkState (p_agg st) (p_inflight st) (p_stored st) (p_lost st) (p_cancelled st) (p_flusher st) s (p_main st) (p_pool st).
Definition set_main m st := mkState (p_agg st) (p_inflight st) (p_stored st) (p_lost st) (p_cancelled st) (p_flusher st) (p_server st) m (p_pool st).

(** The drained batch goes to the flush function unless it is empty. *)
Definition drain (final : bool) (st : State) : State :=
  let '(batch, a) := Drain (p_agg st) in
  set_flusher (match batch with
               | [] => if final then Finished else Idle
               | _ => Flushing batch final
               end) (set_agg a st).
(** The flush function inserted [k] rows of the batch before it returned. *)
Definition flushed (k : nat) (batch : list Sample) (final : bool) (st : State) : State :=
  mkState (p_agg st) (p_inflight st) (p_stored st ++ take k batch) (p_lost st ++ drop k batch)
    (p_cancelled st) (if final then Finished else Idle) (p_server st) (p_main st) (p_pool st).

Inductive Ev :=
  | Arrive (r : Request)                (* a handler starts *)
  | Answered (r : Request) (n : Z)      (* it ends: counted *)
  | Aborted (r : Request) (n : Z)       (* the copy to the client fails: the handler panics *)
  | Tick                                (* the ticker fires: the counters are drained *)
  | FinalDrain                          (* the context is done: drained a last time *)
  | FlushDone
  | FlushFailed (k : nat)
  | Signal
  | ShutdownCalled
  | ServeError                          (* ListenAndServe fails, the port being taken for one *)
  | MainWaits                           (* ListenAndServe has returned: wg.Wait *)
  | MainExits.                          (* the pool is closed, the process ends *)

Definition exit_code (s : ServerState) : Z := match s with Failed => 1 | _ => 0 end.
Definition running (st : State) : Prop := match p_main st with Exited _ => False | _ => True end.

Inductive step : State -> Ev -> State -> Prop :=
  (** also on a connection accepted before a shutdown or an accept error *)
  | s_arrive st r : running st ->
      step st (Arrive r) (set_inflight (r :: p_inflight st) st)
  | s_answered st l1 r l2 n : running st -> p_inflight st = (l1 ++ r :: l2)%list ->
      step st (Answered r n) (set_inflight (l1 ++ l2)%list (set_agg (ServeHTTP (p_agg st) r n) st))
  | s_aborted st l1 r l2 n : running st -> p_inflight st = (l1 ++ r :: l2)%list ->
      step st (Aborted r n) (set_inflight (l1 ++ l2)%list st)
  | s_tick st : running st -> p_flusher st = Idle -> step st Tick (drain false st)
  | s_final st : running st -> p_flusher st = Idle -> p_cancelled st = true ->
      step st FinalDrain (drain true st)
  | s_flushed st batch final : running st -> p_flusher st = Flushing batch final ->
      step st FlushDone (flushed (length batch) batch final st)
  | s_failed st batch final k : running st -> p_flusher st = Flushing batch final -> k < length batch ->
      step st (FlushFailed k) (flushed k batch final st)
  | s_signal st : running st ->
      step st Signal (mkState (p_agg st) (p_inflight st) (p_stored st) (p_lost st) true (p_flusher st)
                        (p_server st) (p_main st) (p_pool st))
  | s_shutdown st : running st -> p_cancelled st = true -> p_server st = Listening ->
      step st ShutdownCalled (set_server ErrServerClosed st)
  | s_error st : running st -> p_server st = Listening -> step st ServeError (set_server Failed st)
  | s_wait st : p_main st = Serving -> p_server st <> Listening ->
      step st MainWaits (set_main Waiting st)
  | s_exit st : p_main st = Waiting -> p_flusher st = NoFlusher \/ p_flusher st = Finished ->
      step st MainExits (mkState (p_agg st) (p_inflight st) (p_stored st) (p_lost st) (p_cancelled st)
        (p_flusher st) (p_server st) (Exited (exit_code (p_server st))) false).

Inductive steps : State -> list Ev -> State -> Prop :=
  | steps_nil st : steps st [] st
  | steps_snoc st evs st1 e st2 : steps st evs st1 -> step st1 e st2 -> steps st (evs ++ [e])%list st2.

End S3Proxy.

Import S3Proxy.

(** ** Accounting *)

(** The requests that were answered, as the aggregator saw them. *)
Definition answered (evs : list Ev) : list Event :=
  omap (fun e => match e with Answered r n => Some (EvRequest r n) | _ => None end) evs.
Definition in_flush (st : State) : list Sample := match p_flusher st with Flushing b _ => b | _ => [] end.
Definition accounted (k : Key) (st : State) : counter :=
  cadd (cadd (drained k (p_stored st)) (drained k (p_lost st))) (drained k (in_flush st)).

Lemma served_app k l1 l2 : served k (l1 ++ l2)%list = cadd (served k l1) (served k l2).
Proof.
  assert (forall l, cadd zero_counter (served k l) = served k l) as Hz.
  { intros l. rewrite cadd_comm. induction l as [|[r n|] l IH]; cbn; [by vm_compute| |done].
    case_bool_decide; [|done]. by rewrite <- cadd_assoc, IH. }
  induction l1 as [|[r n|] l1 IH]; cbn [served app]; [by rewrite Hz| |done].
  case_bool_decide; [|done]. by rewrite IH, cadd_assoc.
Qed.
Lemma drained_take_drop k n l : cadd (drained k (take n l)) (drained k (drop n l)) = drained k l.
Proof. by rewrite <- drained_app, take_drop. Qed.
Lemma drained_nil k : drained k [] = zero_counter.
Proof. done. Qed.
Lemma drained_normal k l : cadd (drained k l) zero_counter = drained k l.
Proof. apply normal_csum. Qed.

(** Draining moves what was held into the flush, flushing moves it to stored or lost. *)
Lemma accounted_drain k final st : agg_normal (p_agg st) -> p_flusher st = Idle ->
  accounted k (drain final st) = cadd (accounted k st) (held k (p_agg st)) /\ p_agg (drain final st) = ∅ /\
  p_stored (drain final st) = p_stored st /\ p_lost (drain final st) = p_lost st /\ p_main (drain final st) = p_main st /\
  p_pool (drain final st) = p_pool st /\
  (p_flusher (drain final st) = (if final then Finished else Idle) \/
   exists b, p_flusher (drain final st) = Flushing b final).
Proof.
  intros Hn Hi. unfold drain. destruct (Drain (p_agg st)) as [batch a] eqn:HD.
  assert (drained k batch = held k (p_agg st)) as Hd by (rewrite <- (drained_Drain k _ Hn), HD; done).
  assert (a = ∅) as -> by (unfold Drain in HD; congruence).
  unfold accounted, in_flush. rewrite Hi, <- Hd. cbn [p_flusher p_stored p_lost p_agg set_flusher set_agg].
  rewrite drained_nil, <- (cadd_assoc _ zero_counter), (cadd_comm zero_counter), drained_normal.
  destruct batch; cbn; split_and!; try done; [destruct final; done|by left|by right; eexists].
Qed.
Lemma accounted_flushed k n batch final st : p_flusher st = Flushing batch final ->
  accounted k (flushed n batch final st) = accounted k st.
Proof.
  intros Hf. unfold accounted, in_flush. rewrite Hf. cbn [p_flusher p_stored p_lost flushed].
  assert ((match (if final then Finished else Idle) with Flushing b _ => b | _ => [] end) = []) as -> by by destruct final.
  rewrite drained_nil, !drained_app, <- (drained_take_drop k n batch), <- !cadd_assoc. f_equal.
  rewrite drained_normal, !cadd_assoc. f_equal. apply cadd_comm.
Qed.

(** What holds in every state the process can be in. *)
Record Inv (evs : list Ev) (st : State) : Prop := {
  inv_normal : agg_normal (p_agg st);
  inv_sum : forall k, cadd (accounted k st) (held k (p_agg st)) = served k (answered evs);
  inv_lost : (forall n, FlushFailed n ∉ evs) -> p_lost st = [];
  inv_pool : running st -> p_flusher st <> NoFlusher -> p_pool st = true;
  inv_exit : ~ running st -> p_flusher st = NoFlusher \/ p_flusher st = Finished;
  inv_signal : p_flusher st = Finished \/ (exists b, p_flusher st = Flushing b true) -> Signal ∈ evs;
  inv_cancelled : p_cancelled st = true -> Signal ∈ evs }.

Lemma start_inv db : Inv [] (start db).
Proof.
  constructor; try done; [by intros k; destruct db|by destruct db|].
  intros [H|[b H]]; by destruct db.
Qed.

Lemma answered_snoc evs e : answered (evs ++ [e])%list = (answered evs ++ answered [e])%list.
Proof. unfold answered. by rewrite omap_app. Qed.
Lemma held_empty k : held k ∅ = zero_counter.
Proof. unfold held. by rewrite lookup_empty. Qed.
Lemma accounted_normal k st : cadd (accounted k st) zero_counter = accounted k st.
Proof. apply normal_cadd. Qed.
Lemma no_failure_snoc evs e : (forall n, FlushFailed n ∉ (evs ++ [e])%list) ->
  (forall n, FlushFailed n ∉ evs) /\ forall n, e <> FlushFailed n.
Proof. intros H. split; intros n Hn; apply (H n), elem_of_app; [by left|right]. subst e. by apply list_elem_of_singleton. Qed.

Lemma served_quiet k evs e : (forall r n, e <> Answered r n) ->
  served k (answered (evs ++ [e])%list) = served k (answered evs).
Proof.
  intros He. rewrite answered_snoc. assert (answered [e] = []) as -> by (destruct e; naive_solver).
  by rewrite app_nil_r.
Qed.
Lemma elem_snoc {A} (x : A) l y : x ∈ l -> x ∈ (l ++ [y])%list.
Proof. intros. apply elem_of_app. by left. Qed.

(** A state in which only the ends of the process changed. *)
Lemma inv_quiet evs st e st' : Inv evs st -> (forall r n, e <> Answered r n) ->
  p_agg st' = p_agg st -> p_stored st' = p_stored st -> p_lost st' = p_lost st -> p_flusher st' = p_flusher st ->
  (running st' -> running st /\ p_pool st' = p_pool st) ->
  (~ running st' -> p_flusher st = NoFlusher \/ p_flusher st = Finished) ->
  (p_cancelled st' = true -> p_cancelled st = true \/ e = Signal) ->
  Inv (evs ++ [e])%list st'.
Proof.
  intros [Hn Hs Hl Hp Hx Hg Hc] He Ha Hst Hlo Hf Hr Hnr Hca. constructor.
  - by rewrite Ha.
  - intros k. rewrite served_quiet by done. rewrite <- Hs, Ha. unfold accounted, in_flush. by rewrite Hst, Hlo, Hf.
  - intros Hno. rewrite Hlo. apply Hl. by apply no_failure_snoc in Hno as [Hno _].
  - intros Hrun Hne. destruct (Hr Hrun) as [Hrun0 ->]. apply Hp; [done|]. by rewrite <- Hf.
  - intros Hrun. rewrite Hf. by apply Hnr.
  - rewrite Hf. intros H. by apply elem_snoc, Hg.
  - intros H. destruct (Hca H) as [H'| ->]; [by apply elem_snoc, Hc|].
    apply elem_of_app. right. by apply list_elem_of_singleton.
Qed.

Lemma inv_answered evs st l r n : Inv evs st ->
  Inv (evs ++ [Answered r n])%list (set_inflight l (set_agg (ServeHTTP (p_agg st) r n) st)).
Proof.
  intros [Hn Hs Hl Hp Hx Hg Hc]. constructor.
  - by apply serve_normal.
  - intros k. rewrite answered_snoc, served_app, <- Hs, <- cadd_assoc. cbn [p_agg set_inflight set_agg].
    change (accounted k (set_inflight l (set_agg (ServeHTTP (p_agg st) r n) st))) with (accounted k st).
    f_equal. rewrite held_serve. cbn. case_bool_decide.
    + rewrite cadd_assoc. symmetry. apply normal_cadd.
    + symmetry. by apply held_normal.
  - intros Hno. apply Hl. by apply no_failure_snoc in Hno as [Hno _].
  - exact Hp.
  - exact Hx.
  - intros H. by apply elem_snoc, Hg.
  - intros H. by apply elem_snoc, Hc.
Qed.

Lemma inv_drain evs st e (final : bool) : Inv evs st -> running st -> p_flusher st = Idle ->
  e = (if final then FinalDrain else Tick) -> (final = true -> p_cancelled st = true) ->
  Inv (evs ++ [e])%list (drain final st).
Proof.
  intros [Hn Hs Hl Hp Hx Hg Hc] Hrun Hi He Hfin.
  assert (forall k, accounted k (drain final st) = cadd (accounted k st) (held k (p_agg st))) as Hacc
    by (intros k; by apply accounted_drain).
  destruct (accounted_drain (mkKey "" "" "") final st Hn Hi) as (_ & Ha & Hst & Hlo & Hm & Hpo & Hf).
  assert (p_cancelled (drain final st) = p_cancelled st) as Hca by (unfold drain; by destruct (Drain _)).
  assert (running (drain final st)) as Hrun' by (unfold running; by rewrite Hm).
  constructor.
  - rewrite Ha. by intros k0 c0 H0; rewrite lookup_empty in H0.
  - intros k. rewrite served_quiet, Hacc, Ha, held_empty, Hs by (by destruct final; subst e).
    rewrite <- (Hs k). apply normal_cadd.
  - intros Hno. rewrite Hlo. apply Hl. by apply no_failure_snoc in Hno as [Hno _].
  - intros _ _. rewrite Hpo. apply Hp; [done|]. by rewrite Hi.
  - intros H. by destruct (H Hrun').
  - intros H. apply elem_snoc, Hc, Hfin. destruct final; [done|]. exfalso.
    destruct Hf as [Hf|[b Hf]]; rewrite Hf in H; destruct H as [H|[b' H]]; discriminate H.
  - rewrite Hca. intros H. by apply elem_snoc, Hc.
Qed.

Lemma inv_flushed evs st e n batch final : Inv evs st -> running st -> p_flusher st = Flushing batch final ->
  (e = FlushDone /\ n = length batch \/ exists k, e = FlushFailed k) ->
  Inv (evs ++ [e])%list (flushed n batch final st).
Proof.
  intros [Hn Hs Hl Hp Hx Hg Hc] Hrun Hf He. constructor.
  - exact Hn.
  - intros k. rewrite served_quiet by (destruct He as [[-> _]|[m ->]]; done).
    rewrite accounted_flushed by done. apply Hs.
  - intros Hno. apply no_failure_snoc in Hno as [Hno Hne]. destruct He as [[_ ->]|[m He]]; [|by destruct (Hne m)].
    cbn. by rewrite Hl, drop_all by done.
  - intros _ _. apply Hp; [done|]. by rewrite Hf.
  - intros H. by destruct (H Hrun).
  - cbn. intros H. apply elem_snoc, Hg. right. exists batch. rewrite Hf.
    destruct final; [done|]. by destruct H as [H|[b H]].
  - intros H. by apply elem_snoc, Hc.
Qed.

Lemma proxy_step_inv evs st e st' : Inv evs st -> step st e st' -> Inv (evs ++ [e])%list st'.
Proof.
  intros Hi H. pose proof (inv_exit _ _ Hi) as Hx. pose proof (inv_pool _ _ Hi) as Hp.
  destruct H;
    try (apply (inv_quiet evs st); [done|done|done|done|done|done|done|done|by cbn; auto]; fail).
  - by apply inv_answered.
  - by apply (inv_drain _ _ _ false).
  - by apply (inv_drain _ _ _ true).
  - apply inv_flushed; auto.
  - apply inv_flushed; eauto.
  - apply (inv_quiet evs st); try done; [|by cbn; auto]. intros _. split; [|done]. unfold running. by rewrite H.
Qed.

Lemma steps_inv db evs st : steps (start db) evs st -> Inv evs st.
Proof.
  intros H. remember (start db) as st0 eqn:E. induction H as [|? ? ? ? ? ? IH Hs]; subst;
    [apply start_inv|]. by eapply proxy_step_inv; [apply IH|].
Qed.

(** After the last drain what is stored and being flushed stays the same. *)
Definition past_drain (st : State) : Prop :=
  p_flusher st = Finished \/ exists b, p_flusher st = Flushing b true.
Lemma step_past_drain evs st e st' : Inv evs st -> past_drain st -> step st e st' ->
  past_drain st' /\ forall k, accounted k st' = accounted k st.
Proof.
  intros Hi Hp H. destruct Hp as [Hp|[b Hp]]; destruct H;
    repeat match goal with H : p_flusher _ = _, H' : p_flusher _ = _ |- _ => rewrite H in H'; simplify_eq end;
    try (split; [first [by left|by right; exists b]|done]; fail);
    try (split; [by left|]; intros k0; by apply accounted_flushed).
Qed.
Lemma steps_app st1 evs st2 : steps st1 evs st2 -> forall e1 e2, evs = (e1 ++ e2)%list ->
  exists st, steps st1 e1 st /\ steps st e2 st2.
Proof.
  induction 1 as [st|st evs sta e stb Hs IH Hstep]; intros e1 e2 He.
  - symmetry in He. apply app_eq_nil in He as [-> ->]. exists st. split; constructor.
  - destruct e2 as [|e' e2 _] using rev_ind.
    + rewrite app_nil_r in He. subst e1. exists stb. split; [by econstructor|constructor].
    + rewrite app_assoc in He. apply app_inj_tail in He as [-> ->].
      destruct (IH e1 e2 eq_refl) as (s0 & H1 & H2). exists s0. split; [done|by econstructor].
Qed.
Lemma steps_one st e st' : steps st [e] st' -> step st e st'.
Proof.
  intros H. remember [e] as l eqn:Hl. destruct H as [|st evs sta x stb Hn Hs]; [done|].
  apply (app_inj_tail _ []) in Hl as [-> ->]. remember [] as l0 eqn:Hl0.
  destruct Hn as [|? evs ???? _]; [done|]. by destruct evs.
Qed.
Lemma steps_past_drain st evs st' : steps st evs st' -> forall evs0, Inv evs0 st -> past_drain st ->
  past_drain st' /\ (forall k, accounted k st' = accounted k st) /\ exists evs1, Inv evs1 st'.
Proof.
  induction 1 as [st|st evs sta e stb Hs IH Hstep]; intros evs0 Hi Hp; [by eauto|].
  destruct (IH evs0 Hi Hp) as (Hpa & Ha & evs1 & Hi1).
  destruct (step_past_drain evs1 sta e stb Hi1 Hpa Hstep) as [Hpb Hb].
  split; [done|]. split; [intros k; by rewrite Hb|]. by eexists; eapply proxy_step_inv.
Qed.

(** C34: the proxy's process, over every interleaving of its handlers, flusher,
    shutdown watcher and main.  At any moment, per access key, bucket and method, what
    was stored, what failed flushes dropped, the batch being flushed and the counters
    held add up to the answered requests.  The pool is open as long as the flusher
    may use it, and the process ends only after the flusher returned.  And when it
    has ended without a failed flush, the database holds exactly the requests that
    were answered before the last drain. *)
Theorem s3proxy_accounting db evs st
    (Hrun : steps (start db) evs st) :
  (forall k, cadd (accounted k st) (held k (p_agg st)) = served k (answered evs)) /\
  (forall b f, p_flusher st = Flushing b f -> p_pool st = true) /\
  (~ running st -> p_flusher st = NoFlusher \/ p_flusher st = Finished) /\
  (forall before after, evs = (before ++ FinalDrain :: after)%list -> ~ running st ->
     (forall n, FlushFailed n ∉ evs) ->
     forall k, drained k (p_stored st) = served k (answered before)).
Proof.
  pose proof (steps_inv db evs st Hrun) as Hi. split_and!.
  - apply Hi.
  - intros b f Hf. apply Hi; [|by rewrite Hf]. destruct (p_main st) as [| |c] eqn:Hm; unfold running; rewrite Hm; [done|done|].
    destruct (inv_exit _ _ Hi) as [H|H]; [unfold running; rewrite Hm; tauto|congruence|congruence].
  - apply Hi.
  - intros before after He Hend Hno k.
    destruct (steps_app _ _ _ Hrun (before ++ [FinalDrain])%list after) as (st2 & H1 & H2).
    { by rewrite <- app_assoc. }
    destruct (steps_app _ _ _ H1 before [FinalDrain] eq_refl) as (st1 & H0 & Hd).
    pose proof (steps_inv _ _ _ H0) as Hi1. pose proof (steps_inv _ _ _ H1) as Hi2.
    apply steps_one in Hd. inversion Hd; subst.
    destruct (accounted_drain k true st1 (inv_normal _ _ Hi1) ltac:(done)) as (Hacc & _ & _ & _ & _ & _ & Hf).
    destruct (steps_past_drain _ _ _ H2 _ Hi2 Hf) as (_ & Hk & _).
    rewrite <- (inv_sum _ _ Hi1 k), <- Hacc, <- Hk.
    unfold accounted, in_flush. rewrite (inv_lost _ _ Hi Hno).
    assert ((match p_flusher st with Flushing b _ => b | _ => [] end) = []) as ->
      by (destruct (inv_exit _ _ Hi Hend) as [-> | ->]; done).
    by rewrite !drained_nil, !drained_normal.
Qed.

(** ** Runs *)

Definition ex_get : Request :=
  mkRequest "AWS4-HMAC-SHA256 Credential=GK1/20240101/garage/s3/aws4_request, Signature=x" "" "/photos/a.jpg" "GET" 0.

(** A run as a list of steps forward. *)
Inductive forward : State -> list Ev -> State -> Prop :=
  | fwd_nil st : forward st [] st
  | fwd_cons st e st1 evs st2 : step st e st1 -> forward st1 evs st2 -> forward st (e :: evs) st2.
Lemma steps_trans st1 e1 st2 e2 st3 : steps st1 e1 st2 -> steps st2 e2 st3 -> steps st1 (e1 ++ e2)%list st3.
Proof.
  intros H1 H2. induction H2 as [|? ? ? ? ? ? IH Hs]; [by rewrite app_nil_r|].
  rewrite app_assoc. econstructor; [by apply IH|done].
Qed.
Lemma forward_steps st evs st' : forward st evs st' -> steps st evs st'.
Proof.
  induction 1 as [|st e st1 evs st2 Hs _ IH]; [constructor|].
  apply (steps_trans _ [e] st1); [|done]. apply (steps_snoc _ [] st e); [constructor|done].
Qed.

Tactic Notation "fwd" uconstr(t) := eapply fwd_cons; [eapply t; first [exact I|reflexivity|discriminate|by left|by right|idtac]|].

(** An orderly shutdown: one request answered, then the signal. *)
Definition orderly (r : Request) (n : Z) : list Ev :=
  [Arrive r; Answered r n; Signal; ShutdownCalled; MainWaits; FinalDrain; FlushDone; MainExits].
Lemma Drain_nonempty a r n : exists x l, Drain (ServeHTTP a r n) = (x :: l, ∅).
Proof.
  unfold Drain, ServeHTTP, Add. destruct (map_to_list _) as [|x l] eqn:E; [|by eexists _, _].
  by apply map_to_list_empty_iff, insert_non_empty in E.
Qed.
Lemma orderly_run r n : exists st, steps (start true) (orderly r n) st /\ p_main st = Exited 0.
Proof.
  destruct (Drain_nonempty NewAggregator r n) as (x & l & HD).
  eexists. split; [apply forward_steps|].
  - fwd s_arrive. fwd (s_answered _ [] r []). fwd s_signal. fwd s_shutdown. fwd s_wait. fwd s_final.
    unfold drain. cbn [p_agg set_main set_server set_agg set_inflight start]. rewrite HD. cbv iota beta.
    fwd s_flushed. fwd s_exit. apply fwd_nil.
  - reflexivity.
Qed.
Lemma s3proxy_accounting_witness :
  exists st, steps (start true) (orderly ex_get 100) st /\
    drained (mkKey "GK1" "photos" "GET") (p_stored st) = mkCounter 1 0 100.
Proof.
  destruct (orderly_run ex_get 100) as (st & Hrun & Hend). exists st. split; [exact Hrun|].
  destruct (s3proxy_accounting true (orderly ex_get 100) st Hrun) as (_ & _ & _ & H).
  etrans; [apply (H [Arrive ex_get; Answered ex_get 100; Signal; ShutdownCalled; MainWaits] [FlushDone; MainExits])|].
  - reflexivity.
  - unfold running. rewrite Hend. tauto.
  - intros n Hn. unfold orderly in Hn. repeat (apply elem_of_cons in Hn as [Hn|Hn]; [discriminate Hn|]).
    by apply not_elem_of_nil in Hn.
  - vm_compute. reflexivity.
Defined.

(** ** Two ways the shutdown falls short *)

(** [ListenAndServe] returns as soon as [Shutdown] is called, not when it is done: a
    request in flight at the signal can be answered after the last drain, and its
    traffic is never stored though no flush failed. *)
Definition late (r : Request) (n : Z) : list Ev :=
  [Arrive r; Signal; ShutdownCalled; FinalDrain; Answered r n; MainWaits; MainExits].
Lemma late_answer_is_lost r n : exists st, steps (start true) (late r n) st /\ p_main st = Exited 0 /\
  p_stored st = [] /\ p_lost st = [] /\ answered (late r n) = [EvRequest r n].
Proof.
  eexists. split; [apply forward_steps|split; [|split; [|split]]].
  - fwd s_arrive. fwd s_signal. fwd s_shutdown. fwd s_final. fwd (s_answered _ [] r []). fwd s_wait. fwd s_exit.
    apply fwd_nil.
  - reflexivity.
  - reflexivity.
  - reflexivity.
  - reflexivity.
Qed.

(** When [ListenAndServe] fails, nothing cancels the context: with a database main
    waits for a flusher that never returns, and the process neither serves nor exits
    until somebody sends a signal. *)
Definition stuck : State := set_main Waiting (set_server Failed (start true)).
Lemma stuck_reached : steps (start true) [ServeError; MainWaits] stuck.
Proof. apply forward_steps. fwd s_error. fwd s_wait. apply fwd_nil. Qed.
Lemma listen_failure_hangs evs st' : steps stuck evs st' -> (Signal ∉ evs) -> p_main st' = Waiting.
Proof.
  intros H Hs. pose proof (steps_trans _ _ _ _ _ stuck_reached H) as Hall.
  pose proof (steps_inv _ _ _ Hall) as Hi.
  assert (p_main st' <> Serving /\ p_flusher st' <> NoFlusher) as [Hm Hf].
  { clear Hall Hi. remember stuck as st0 eqn:E.
    induction H as [|st0 evs st1 e st2 H1 IH Hstep]; [by subst|].
    destruct IH as [Hm Hf]; [done|by intros ?; apply Hs, elem_snoc|].
    destruct Hstep; try (by split); cbn; split; try done.
    all: by repeat case_match. }
  destruct (p_main st') as [| |c] eqn:Hmain; [done|done|]. exfalso.
  destruct (inv_exit _ _ Hi) as [Hx|Hx]; [unfold running; rewrite Hmain; tauto|done|].
  assert (Signal ∈ [ServeError; MainWaits] \/ Signal ∈ evs) as [Hin|Hin]; [|set_solver|by apply Hs].
  apply elem_of_app. apply (inv_signal _ _ Hi). by left.
Qed.

(** ** What a flush does to the database *)

Section Flush.
Context {ENV : Env}.

(** The rows inserted are a prefix of the batch, all of it when no error is returned:
    a flush that fails has stored what came before the row that failed. *)
Lemma InsertTrafficSnapshots_prefix rows : forall d r d',
  Store.InsertTrafficSnapshots rows d = (r, d') ->
  exists k new, traffic d' = (traffic d ++ new)%list /\
    map (fun t => (tr_AccessKeyID t, tr_Bucket t, tr_Method t, tr_Requests t, tr_BytesIn t, tr_BytesOut t)) new =
    map (fun s => (Store.ts_AccessKeyID s, Store.ts_Bucket s, Store.ts_Method s, Store.ts_Requests s, Store.ts_BytesIn s, Store.ts_BytesOut s)) (take k rows) /\
    (r = inr tt -> k = length rows).
Proof.
  unfold Store.InsertTrafficSnapshots. induction rows as [|row rows IH]; intros d r d' H; cbn [forM_] in H.
  { injection H as <- <-. exists 0, []. by rewrite app_nil_r. }
  rewrite bind_run in H. unfold mapErr at 1 in H. destruct (insert _ _ d) as [[e|[]] d1] eqn:Hi.
  - injection H as <- <-. exists 0, []. rewrite app_nil_r. split_and!; [|done|done].
    unfold insert, stmt in Hi. destruct (env_fault _); [by injection Hi as _ <-|].
    destruct (Store.opt_ref _ _ _); [discriminate Hi|by injection Hi as _ <-].
  - apply IH in H as (k & new & Ht & Hm & Hr).
    unfold insert, stmt in Hi. destruct (env_fault _); [discriminate Hi|].
    destruct (Store.opt_ref _ _ _); [|discriminate Hi]. injection Hi as <-. cbn in Ht.
    exists (S k). eexists. split; [rewrite Ht, <- app_assoc; done|]. split; [cbn; by rewrite Hm|].
    intros Hok. cbn. by rewrite Hr.
Qed.
End Flush.
