(* ===== verification/Loops.v ===== *)
(** The background loops of src/internal/service (collector.go, nodes.go,
    backup_scheduler.go, tenant_cluster.go, billing.go), which app/server.go starts:
    a pass of each, at the start or at the first tick, and one per tick until the
    context is done.  A pass returns no error to its loop. *)
From S2P Require Import Prelude GoStrings Storage Garage Database Repository Service Tenants Billing Clusters Backups.
#[local] Open Scope Z_scope.

Module Loops.

Definition second : Z := 1000000000.
(** [if interval <= 0 { interval = ... }] *)
Definition interval_or (fallback interval : Z) : Z := if interval <=? 0 then fallback else interval.
Definition collector_interval : Z -> Z := interval_or (300 * second).
Definition reconciler_interval : Z -> Z := interval_or (120 * second).
Definition scheduler_interval : Z -> Z := interval_or (60 * second).
Definition control_interval : Z -> Z := interval_or (60 * second).
Definition reporter_interval : Z -> Z := interval_or (3600 * second).

Section Loops.
Context {ENV : Env} {B : Type} `{!GarageServer B} (s : Services B).
#[local] Abbreviation Svc := (@Service.Svc B).

Definition pass (m : Svc unit) : Svc unit := ignore m.
(** [n] ticks come before the context is done. *)
Definition at_ticks (n : nat) (m : Svc unit) : Svc unit := forM_ (repeat tt n) (fun _ => pass m).

Definition RunUsageCollector (n : nat) : Svc unit :=
  do! pass (Billing.CollectUsageOnce s) in at_ticks n (Billing.CollectUsageOnce s).
Definition RunNodeReconciler (n : nat) : Svc unit :=
  do! pass (Clusters.ReconcileNodesOnce s) in at_ticks n (Clusters.ReconcileNodesOnce s).
Definition RunBackupScheduler (n : nat) : Svc unit := at_ticks n (Backups.runDueBackups s).
Definition RunTenantControlLoop (n : nat) : Svc unit := at_ticks n (Tenants.reconcilePendingOrgs s).
(** The billing loop ends at once when billing is off. *)
Definition RunBillingReporter (n : nat) : Svc unit :=
  if negb (s_BillingEnabled s) then ret tt
  else do! pass (Billing.BillingReportOnce s) in at_ticks n (Billing.BillingReportOnce s).

(** A loop guarantees what a pass does, and never fails. *)
Lemma at_ticks_guar (R : World B -> World B -> Prop) `{!PreOrder R} n m : Guar R m -> Guar R (at_ticks n m).
Proof.
  intros Hm. unfold at_ticks, pass, ignore. apply guar_forM; [done|]. intros. guar.
Qed.
Lemma at_ticks_ends n m w : exists w', at_ticks n m w = (inr tt, w').
Proof.
  unfold at_ticks. revert w. induction n as [|n IH]; intros w; cbn; [by eexists|].
  rewrite bind_run. unfold pass, ignore. rewrite bind_run, attempt_run. destruct (m w) as [x w1]. apply IH.
Qed.
End Loops.
End Loops.
