(* ===== verification/Server.v ===== *)
(** src/internal/app/server.go ([wireServices], [RunServer]) and app/tls.go: the life of
    the API process, from the environment to the closed database.

    Up to the point where the listener is started the process is sequential ([boot]);
    its state holds the world of the services, the file system of the secret files and
    the trace of what it did with the database.  From there on the main goroutine, the
    five background loops (Loops.v), the listener with its requests and the signal run
    beside each other: [Life] is their common state, [step] what one event makes of
    it, and a list of events one interleaving.  The calls into pgx, golang-migrate and
    database/sql and the cryptographic calls that mint a certificate are parameters. *)
From S2P Require Import Prelude GoStrings GoTime Storage Garage Envelope Database Repository Service Migrations Replications Backups HttpAuth HttpApi Config Boot Encoding Secrets.
#[local] Open Scope string_scope.

Module Server.
Import Config Boot.

(** ** tls.go *)

(** The x509 template of [selfSignedCert]; its key usages are fixed. *)
Record Certificate := mkCertificate {
  crt_SerialNumber : Z; crt_CommonName : str; crt_NotBefore : Z; crt_NotAfter : Z;
  crt_DNSNames : list str; crt_IPAddresses : list str }.

(** What crypto/ecdsa, crypto/rand and crypto/x509 answer, and the two readings of the
    clock (in UTC). *)
Record Minting := mkMinting {
  mt_GenerateKey : option str; mt_Int : str + Z; mt_Now1 : Z; mt_Now2 : Z;
  mt_CreateCertificate : Certificate -> option str }.

(** How the server listens: certificates of its own, or ACME for the domains with a
    second listener on :80. *)
Inductive Plan :=
  | PlainHTTP
  | SelfSigned (cert : Certificate)
  | ACME (domains : list str) (cacheDir email : str).

Definition cert_names (domains : list str) : list str := "localhost" :: domains.
Definition cert_addresses : list str := ["127.0.0.1"; "::1"].
Definition hour_ns : Z := 3600 * 1000000000.

Definition selfSignedCert (mt : Minting) (domains : list str) : str + Certificate :=
  match mt_GenerateKey mt with
  | Some e => inl e
  | None =>
      match mt_Int mt with
      | inl e => inl e
      | inr serial =>
          let tmpl := mkCertificate serial "buktio" (mt_Now1 mt - hour_ns) (Time.AddDate 1 0 0 (mt_Now2 mt))
                        (cert_names domains) cert_addresses in
          match mt_CreateCertificate mt tmpl with
          | Some e => inl e
          | None => inr tmpl
          end
      end
  end.

Definition serveWithTLS (mt : Minting) (c : TLSConfig) : str + Plan :=
  if (tls_Mode c =s "") || (tls_Mode c =s "off") then inr PlainHTTP
  else if tls_Mode c =s "self" then
    match selfSignedCert mt (tls_Domains c) with
    | inl e => inl ("tls self: " ++ e)
    | inr cert => inr (SelfSigned cert)
    end
  else if tls_Mode c =s "auto" then inr (ACME (tls_Domains c) (tls_CacheDir c) (tls_Email c))
  else inl ("unknown TLS mode " ++ tls_Mode c).

(** The server's own certificate names every configured domain and is valid from an hour
    before the start for at least a year after it. *)
Lemma self_signed_usable mt c cert : serveWithTLS mt c = inr (SelfSigned cert) ->
  (mt_Now1 mt <= mt_Now2 mt)%Z ->
  (forall d, d ∈ tls_Domains c -> d ∈ crt_DNSNames cert) /\
  (forall t, mt_Now1 mt <= t <= mt_Now2 mt + 365 * Time.day_ns ->
     crt_NotBefore cert <= t <= crt_NotAfter cert)%Z.
Proof.
  unfold serveWithTLS, selfSignedCert. intros H Hle.
  destruct (_ || _); [done|]. destruct (_ =s "self"); [|by destruct (_ =s "auto")].
  destruct (mt_GenerateKey mt); [done|]. destruct (mt_Int mt) as [|serial]; [done|].
  destruct (mt_CreateCertificate mt _); [done|]. injection H as <-.
  cbn [crt_DNSNames crt_NotBefore crt_NotAfter]. split; [set_solver|].
  intros t Ht. pose proof (Time.AddDate_year (mt_Now2 mt)). unfold hour_ns. lia.
Qed.

(** ** db/pool.go, db/migrate.go, db/sqlite.go: opening and migrating *)

(** The errors of the calls into pgx, golang-migrate and database/sql. *)
Inductive UpResult := UpDone | ErrNoChange | UpFailed (msg : str).
Record Engine := mkEngine {
  en_ParseConfig : str -> option str; en_NewWithConfig : str -> option str; en_PoolPing : str -> option str;
  en_SQLiteOpen : str -> option str; en_SQLitePing : str -> option str;
  en_Source : option str; en_MigrateOpen : str -> option str; en_WithInstance : option str;
  en_NewWithInstance : option str; en_Up : str -> UpResult;
  (** the outcome of [MigrateSQLite] (Convert.v) on the file *)
  en_MigrateSQLite : str -> option str }.
(** [if err != nil { return fmt.Errorf(...) }] *)
Definition orElse (text : str) (e : option str) (k : option str) : option str :=
  match e with Some msg => Some (text ++ msg) | None => k end.

Definition OpenPool (E : Engine) (url : str) : option str :=
  orElse "db: parse config: " (en_ParseConfig E url)
  (orElse "db: open pool: " (en_NewWithConfig E url)
  (orElse "db: ping: " (en_PoolPing E url) None)).
Definition Migrate (E : Engine) (url : str) : option str :=
  orElse "db: migrate source: " (en_Source E)
  (orElse "db: migrate open: " (en_MigrateOpen E url)
  (orElse "db: migrate driver: " (en_WithInstance E)
  (orElse "db: migrate init: " (en_NewWithInstance E)
  (match en_Up E url with UpFailed msg => Some ("db: migrate up: " ++ msg) | _ => None end)))).
Definition sqlite_dsn (path : str) : str :=
  path ++ "?_pragma=busy_timeout(5000)&_pragma=journal_mode(WAL)&_pragma=foreign_keys(ON)".
Definition OpenSQLite (E : Engine) (path : str) : option str :=
  orElse "db: open sqlite: " (en_SQLiteOpen E (sqlite_dsn path))
  (orElse "db: ping sqlite: " (en_SQLitePing E (sqlite_dsn path)) None).

(** ** server.go *)

Inductive Act := OpenedDB (driver dsn : str) | MigratedDB | ClosedDB.

Record Proc (B : Type) := mkProc { pr_world : World B; pr_fs : Secrets.FS; pr_trace : list Act }.
Arguments mkProc {B}. Arguments pr_world {B}. Arguments pr_fs {B}. Arguments pr_trace {B}.

(** ** The running process *)

(** The goroutines of the background loops, and where the main goroutine is: in the
    select, in [srv.Shutdown], in its deferred calls, or returned. *)
Inductive Loop := UsageCollector | NodeReconciler | BackupScheduler | TenantControlLoop | BillingReporter.
#[export] Instance Loop_eq_dec : EqDecision Loop.
Proof. solve_decision. Defined.
Definition background : list Loop :=
  [UsageCollector; NodeReconciler; BackupScheduler; TenantControlLoop; BillingReporter].
Inductive Main := Selecting | Draining | Cleaning (r : str + unit) | Returned (r : str + unit).

(** [lf_done]: the context of the loops is cancelled; [lf_loops]: those still running;
    [lf_plan]: how the server listens, once it does; [lf_conns]: connections it accepted
    may still exist; [lf_failed]: the error in [errCh]; [lf_closes]: the calls of
    [store.Close]. *)
Record Life := mkLife {
  lf_main : Main; lf_done : bool; lf_loops : list Loop; lf_plan : option Plan; lf_conns : bool;
  lf_failed : option str; lf_requests : nat; lf_store : bool; lf_closes : nat }.
(** With a database the loops are started before the listener. *)
Definition first_life (api : bool) : Life :=
  mkLife Selecting false (if api then background else []) None false None 0 api 0.

Inductive Event :=
  | Signal | LoopReturns (l : Loop)
  | Listens | ListenerFails (e : str)
  | RequestStarts | RequestEnds
  (** the main goroutine: the two arms of its select, the two ends of [srv.Shutdown]
      (every connection idle, with the error of closing the listener if any, or 15
      seconds over), [stop] and the rest of the deferred calls once the loops are done *)
  | SeesError | SeesSignal | Drained (lnerr : option str) | TimesOut | Stops | Returns.

Section Steps.
Variable tls : str + Plan.
Variable billing : bool.

(** A loop ends when its context does; the billing loop at once when billing is off. *)
Definition loop_ends (l : Loop) (st : Life) : bool :=
  lf_done st || (bool_decide (l = BillingReporter) && negb billing).

(** One event; one that cannot happen in the state changes nothing. *)
Definition step (st : Life) (e : Event) : Life :=
  let '(mkLife m d ls pl cs f rq db cl) := st in
  match m, e with
  | Returned _, _ => st
  | _, Signal => mkLife m true ls pl cs f rq db cl
  | _, LoopReturns l =>
      if loop_ends l st then mkLife m d (where_ (fun x => negb (bool_decide (x = l))) ls) pl cs f rq db cl else st
  | Selecting, Listens =>
      match tls, pl, f with
      | inr plan, None, None => mkLife m d ls (Some plan) true f rq db cl
      | _, _, _ => st
      end
  | Selecting, ListenerFails e =>
      let e := match tls with inl e' => e' | inr _ => e end in
      match f with None => mkLife m d ls pl cs (Some e) rq db cl | Some _ => st end
  | _, RequestStarts => if cs then mkLife m d ls pl cs f (S rq) db cl else st
  | _, RequestEnds => mkLife m d ls pl cs f (pred rq) db cl
  | Selecting, SeesError =>
      match f with Some e => mkLife (Cleaning (inl e)) d ls pl cs f rq db cl | None => st end
  | Selecting, SeesSignal => if d then mkLife Draining d ls pl cs f rq db cl else st
  | Draining, Drained lnerr =>
      match rq with
      | 0 => mkLife (Cleaning (match lnerr with Some e => inl e | None => inr tt end)) d ls pl false f 0 db cl
      | S _ => st
      end
  | Draining, TimesOut => mkLife (Cleaning (inl "context deadline exceeded")) d ls pl cs f rq db cl
  | Cleaning _, Stops => mkLife m true ls pl cs f rq db cl
  | Cleaning r, Returns =>
      match d, ls with
      | true, [] => mkLife (Returned r) d ls pl cs f rq db (if db then S cl else cl)
      | _, _ => st
      end
  | _, _ => st
  end.
Definition run_events (evs : list Event) (st : Life) : Life := foldl step st evs.
End Steps.

Section Server.
Context {ENV : Env} {B : Type} `{!GarageServer B}.
Variable environ : gmap str str.
Variable factories : gmap str (Factory B).
Variable rnd : nat -> nat -> option str.
Variable E : Engine.
Variable certificate : Minting.
Variable ticks : nat.
Variable prov0 : StorageProvider B.
Variable host : Host.
Variable version : str.
Variable enf : Enforcers B.
#[local] Abbreviation P := (M (Proc B) str).

Definition act (a : Act) : P unit := modify (fun p => mkProc (pr_world p) (pr_fs p) (pr_trace p ++ [a])).
Definition on_world {A} (m : M (World B) str A) : P A := fun p =>
  let '(r, w) := m (pr_world p) in (r, mkProc w (pr_fs p) (pr_trace p)).
Definition on_files {A} (m : M Secrets.FS str A) : P A := fun p =>
  let '(r, fs) := m (pr_fs p) in (r, mkProc (pr_world p) fs (pr_trace p)).
Definition of_result {A} (r : str + A) : P A := match r with inl e => throw e | inr a => ret a end.
Definition fails_with (e : option str) : P unit := match e with Some e => throw e | None => ret tt end.
(** [if err != nil { store.Close(); return err }] *)
Definition or_close {A} (m : P A) : P A := fun p =>
  match m p with
  | (inl e, p1) => let '(_, p2) := act ClosedDB p1 in (inl e, p2)
  | ok => ok
  end.
Definition openStore (cfg : Config) : P unit :=
  let url := dbc_URL (c_DB cfg) in
  let driver := DriverFromDSN url in
  let dsn := if driver =s "sqlite" then SQLitePath url else url in
  do! fails_with (if driver =s "sqlite" then OpenSQLite E dsn else OpenPool E dsn) in
  do! act (OpenedDB driver dsn) in
  do! or_close (fails_with (if driver =s "sqlite" then en_MigrateSQLite E dsn else Migrate E dsn)) in
  act MigratedDB.

Definition sealer_open (kek : str) : str -> str + str := Envelope.Open Envelope.aes_gcm kek.
(** a seal draws three times *)
Definition sealer_seal (kek : str) : nat -> str -> str + str :=
  fun n p => fst (Envelope.Seal Envelope.aes_gcm rnd kek p (3 * n)).

Definition wireServices (cfg : Config) : P (Services B) :=
  do! openStore cfg in
  let! kek := or_close (on_files (Secrets.KEK environ Secrets.DefaultProvider)) in
  let! kek := or_close (of_result (Envelope.NewEnvelopeSealer kek)) in
  let! prov := or_close (on_world (Provision environ factories (sealer_open kek) (sealer_seal kek) cfg ticks prov0)) in
  ret (wire environ factories (sealer_open kek) (sealer_seal kek) cfg version enf host prov).

(** The jobs a restart interrupted. *)
Definition resume (s : Services B) : P unit :=
  let! _ := attempt (E' := str) (on_world (mapErr (fun _ => "") (@Migrations.ResumeMigrations ENV B))) in
  let! _ := attempt (E' := str) (on_world (mapErr (fun _ => "") (@Replications.ResumeReplications ENV B))) in
  ret tt.

(** Everything before the listener: the configuration, and with a database the
    services. *)
Definition boot : P (Config * option (Services B)) :=
  let! cfg := of_result (Load environ) in
  do! fails_with (edition_gate (enf_Edition enf) cfg) in
  if dbc_URL (c_DB cfg) =s "" then ret (cfg, None)
  else
    let! s := wireServices cfg in
    do! resume s in
    ret (cfg, Some s).

(** The process from its start through the events of one interleaving. *)
Definition RunServer (evs : list Event) : P Life :=
  let! cs := boot in
  let '(cfg, s) := cs in
  ret (run_events (serveWithTLS certificate (http_TLS (c_HTTP cfg)))
         (match s with Some s => s_BillingEnabled s | None => false end) evs
         (first_life (match s with Some _ => true | None => false end))).
End Server.

(** apps/api/cmd/server: the open-source server, and the exit status of the process
    once it has one. *)
Definition no_enforcers {B} : Enforcers B := mkEnforcers _ None None None None None false None "".
Definition main {ENV : Env} {B : Type} `{!GarageServer B} environ factories rnd E certificate
  ticks prov0 host version (evs : list Event) (p : Proc B) : option Z * Proc B :=
  match RunServer environ factories rnd E certificate ticks prov0 host version no_enforcers evs p with
  | (inl _, p') => (Some 1%Z, p')
  | (inr st, p') =>
      (match lf_main st with
       | Returned (inl _) => Some 1%Z
       | Returned (inr _) => Some 0%Z
       | _ => None
       end, p')
  end.
End Server.
