(* ===== verification/ServerProofs.v ===== *)
(** What the API process does with its resources (Server.v), in every interleaving of
    its goroutines: the database it opened is closed exactly once, after the background
    loops, and it listens the way the configuration says. *)
From S2P Require Import Prelude GoStrings GoTime Storage Garage GarageManager Envelope MemStore Database Repository Service Config Boot Encoding Secrets SecretProofs ClusterProofs Server Example AccountProofs BootProofs.
#[local] Open Scope string_scope.
Import Config Boot Server.

(** ** The running process *)

Section Life.
Context (tls : str + Plan) (billing api : bool).

(** What holds after the events [evs]. *)
Record orderly (evs : list Event) (st : Life) : Prop := {
  (** it listens only as configured *)
  or_plan plan : lf_plan st = Some plan -> tls = inr plan;
  or_store : lf_store st = api;
  (** the database is closed by the return of the main goroutine, and only by it *)
  or_closes : lf_closes st = match lf_main st with Returned _ => if api then 1 else 0 | _ => 0 end;
  or_returned r : lf_main st = Returned r -> lf_loops st = [];
  (** a loop ends only after the signal or [stop], the billing loop also when billing is
      off *)
  or_known l : l ∈ lf_loops st -> l ∈ background;
  or_loops l : api = true -> l ∈ background -> l ∉ lf_loops st ->
    lf_done st = true \/ (l = BillingReporter /\ billing = false);
  (** no error without a signal and with requests *)
  or_signal : match lf_main st with
              | Selecting => lf_done st = true -> Signal ∈ evs
              | Draining | Cleaning (inr _) | Returned (inr _) => Signal ∈ evs
              | _ => True
              end;
  or_drained : match lf_main st with
               | Cleaning (inr _) | Returned (inr _) => lf_requests st = 0 /\ lf_conns st = false
               | _ => True
               end }.

Lemma orderly_first : orderly [] (first_life api).
Proof. split; cbn; try done; by destruct api; intros; try set_solver. Qed.

Lemma signal_snoc evs e : Signal ∈ evs -> Signal ∈ (evs ++ [e])%list.
Proof. rewrite elem_of_app. by left. Qed.
Lemma orderly_more evs e st : orderly evs st -> orderly (evs ++ [e]) st.
Proof.
  intros [Hp Hs Hc Hr Hk Hl Hsig Hd]. split; try done.
  destruct (lf_main st) as [| |[]|[]]; auto using signal_snoc.
Qed.
(** The events of the loops and of the context. *)
Lemma orderly_signal evs st : (forall r, lf_main st <> Returned r) -> orderly evs st ->
  orderly (evs ++ [Signal]) (step tls billing st Signal).
Proof.
  intros Hm [Hp Hs Hc Hr Hk Hl Hsig Hd]. destruct st as [m d ls pl cs f rq db cl]. cbn in *.
  assert (Signal ∈ (evs ++ [Signal])%list) as Hin by (rewrite elem_of_app; right; left).
  destruct m as [| |[]|x]; [..|by destruct (Hm x)]; split; cbn; auto.
Qed.
Lemma orderly_loop evs st l : (forall r, lf_main st <> Returned r) -> orderly evs st ->
  orderly (evs ++ [LoopReturns l]) (step tls billing st (LoopReturns l)).
Proof.
  intros Hm Ho. pose proof (orderly_more evs (LoopReturns l) st Ho) as [Hp Hs Hc Hr Hk Hl Hsig Hd].
  destruct (loop_ends billing l st) eqn:E.
  2: { destruct st as [[] d ls pl cs f rq db cl]; cbn [step]; rewrite ?E; by split. }
  assert (forall x, x ∉ where_ (fun y => negb (bool_decide (y = l))) (lf_loops st) ->
    x ∉ lf_loops st \/ x = l) as Hgone.
  { intros x Hx. destruct (decide (x = l)) as [|Hne]; [by right|left]. contradict Hx.
    apply where_elem. split; [done|]. by rewrite bool_decide_eq_false_2. }
  assert (forall x, api = true -> x ∈ background ->
    x ∉ where_ (fun y => negb (bool_decide (y = l))) (lf_loops st) ->
    lf_done st = true \/ (x = BillingReporter /\ billing = false)) as Hend.
  { intros x Ha Hx [Hx'| ->]%Hgone; [by apply Hl|]. unfold loop_ends in E.
    apply orb_true_iff in E as [E|E]; [by left|right]. apply andb_true_iff in E as [E E'].
    apply bool_decide_eq_true in E. by apply negb_true_iff in E'. }
  destruct st as [m d ls pl cs f rq db cl]. cbn in Hm.
  destruct m; [..|by destruct (Hm r)]; cbn [step]; rewrite E; split; cbn in *; try done;
    intros x [Hx _]%where_elem; by apply Hk.
Qed.
(** The events of the listener and of the main goroutine. *)
Lemma orderly_main evs st e : (forall r, lf_main st <> Returned r) -> orderly evs st ->
  match e with Signal | LoopReturns _ => False | _ => True end ->
  orderly (evs ++ [e]) (step tls billing st e).
Proof.
  intros Hm Ho He. pose proof (orderly_more evs e st Ho) as Ho'.
  destruct st as [m d ls pl cs f rq db cl]. cbn in Hm.
  assert (m = Selecting -> d = true -> Signal ∈ (evs ++ [e])%list) as Hsel
    by (intros -> ->; by apply (or_signal _ _ Ho')).
  assert (m = Draining -> Signal ∈ (evs ++ [e])%list) as Hdr
    by (intros ->; by apply (or_signal _ _ Ho')).
  destruct Ho' as [Hp Hs Hc Hr Hk Hl Hsig Hd].
  destruct m as [| |[]|x], e; cbn [step]; try done; try (by split); try (by destruct (Hm x));
    cbn in *; repeat case_match; try (by split); split; cbn; auto; intros; simplify_eq; auto;
    try (specialize (Hp _ eq_refl); congruence);
    try (destruct Hd; subst; done);
    by rewrite <-Hs.
Qed.
Lemma orderly_step evs st e : orderly evs st -> orderly (evs ++ [e]) (step tls billing st e).
Proof.
  intros Ho. destruct (lf_main st) as [| | |r] eqn:Em.
  4: { destruct st as [m d ls pl cs f rq db cl]. cbn in Em. subst m. by apply orderly_more. }
  all: assert (forall r', lf_main st <> Returned r') as Hm by (intros r'; congruence);
    destruct e; auto using orderly_signal, orderly_loop, orderly_main.
Qed.
Lemma life_run evs : orderly evs (run_events tls billing evs (first_life api)).
Proof.
  unfold run_events. induction evs as [|e evs IH] using rev_ind; [apply orderly_first|].
  rewrite foldl_app. by apply orderly_step.
Qed.

(** From every state the process can come to its end: a signal, the loops returning,
    and at the latest the time-out of the shutdown. *)
Definition ending : list Event :=
  [Signal; SeesError; SeesSignal; TimesOut; Stops] ++ map LoopReturns background ++ [Returns].

Lemma loops_return ls r st : lf_main st = Cleaning r -> lf_done st = true ->
  let st' := run_events tls billing (map LoopReturns ls) st in
  lf_main st' = Cleaning r /\ lf_done st' = true /\
  forall l, l ∈ lf_loops st' -> l ∈ lf_loops st /\ l ∉ ls.
Proof.
  unfold run_events. revert st. induction ls as [|l ls IH]; intros st Hm Hd; cbn.
  { split_and!; [done..|]. intros l Hl. split; [done|apply not_elem_of_nil]. }
  destruct st as [m d lo pl cs f rq db cl]. cbn in Hm, Hd. subst. cbn.
  destruct (IH (mkLife (Cleaning r) true (where_ (fun x => negb (bool_decide (x = l))) lo) pl cs f rq db cl))
    as (H1 & H2 & H3); [done..|]. cbn in *. split_and!; [done..|].
  intros x Hx. apply H3 in Hx as [[Hx Hne]%where_elem Hx']. split; [done|].
  rewrite elem_of_cons. intros [->|?]; [|done]. by rewrite bool_decide_eq_true_2 in Hne.
Qed.
Lemma reaches_cleaning st : (forall r, lf_main st <> Returned r) ->
  let st' := run_events tls billing [Signal; SeesError; SeesSignal; TimesOut; Stops] st in
  (exists r, lf_main st' = Cleaning r) /\ lf_done st' = true /\ lf_loops st' = lf_loops st.
Proof.
  destruct st as [m d lo pl cs f rq db cl]. intros Hm.
  destruct m as [| | |r]; [destruct f|..|by destruct (Hm r)]; cbn; split_and!; eauto.
Qed.
Lemma returned_stays evs r st : lf_main st = Returned r ->
  lf_main (run_events tls billing evs st) = Returned r.
Proof.
  unfold run_events. revert st. induction evs as [|e evs IH]; intros st Em; [done|]. cbn. apply IH.
  by destruct st; cbn in *; subst.
Qed.
Lemma can_return evs : let st := run_events tls billing evs (first_life api) in
  exists r, lf_main (run_events tls billing ending st) = Returned r.
Proof.
  intros st. pose proof (life_run evs) as Ho. fold st in Ho.
  destruct (lf_main st) as [| | |r0] eqn:Em.
  4: { exists r0. by apply returned_stays. }
  all: destruct (reaches_cleaning st) as ((r1 & H1) & H2 & H3); [intros r'; congruence|];
    unfold ending, run_events in *; rewrite !foldl_app;
    set (st1 := foldl _ st _) in *;
    destruct (loops_return background r1 st1 H1 H2) as (H4 & H5 & H6);
    unfold run_events in *; set (st2 := foldl _ st1 _) in *;
    assert (lf_loops st2 = []) as H7
      by (apply elem_of_nil_inv; intros l Hl; apply H6 in Hl as [Hl Hn]; apply Hn;
          rewrite H3 in Hl; by eapply or_known);
    exists r1; clearbody st2; destruct st2; cbn in *; subst; done.
Qed.
End Life.

(** Without a database there are no loops. *)
Lemma orderly_health tls billing billing' evs st :
  orderly tls billing false evs st -> orderly tls billing' false evs st.
Proof. by intros []; split. Qed.

Section Proofs.
Context {ENV : Env} {B : Type} `{!GarageServer B}.
Context (environ : gmap str str) (factories : gmap str (Factory B))
  (rnd : nat -> nat -> option str) (E : Engine)
  (certificate : Minting) (ticks : nat) (prov0 : StorageProvider B) (host : Host) (version : str)
  (enf : Enforcers B).

Lemma act_run a (p : Proc B) : act a p = (inr tt, mkProc (pr_world p) (pr_fs p) (pr_trace p ++ [a])).
Proof. done. Qed.

(** Steps that leave the trace alone. *)
Definition traceless (p p' : Proc B) : Prop := pr_trace p' = pr_trace p.
#[local] Instance traceless_preorder : PreOrder traceless.
Proof. split; [done|]. intros a b c H1 H2. unfold traceless in *. congruence. Qed.
Lemma traceless_world {A} (m : M (World B) str A) : Guar traceless (on_world m).
Proof. intros p r p'. unfold on_world. destruct (m _). by intros [= <- <-]. Qed.
Lemma traceless_files {A} (m : M Secrets.FS str A) : Guar traceless (on_files (B := B) m).
Proof. intros p r p'. unfold on_files. destruct (m _). by intros [= <- <-]. Qed.
Lemma traceless_result {A} (x : str + A) : Guar traceless (of_result x).
Proof. intros p r p'. destruct x; by intros [= <- <-]. Qed.
Lemma or_close_run {A} (m : M (Proc B) str A) p r p' : Guar traceless m -> or_close m p = (r, p') ->
  pr_trace p' = match r with inl _ => (pr_trace p ++ [ClosedDB])%list | inr _ => pr_trace p end.
Proof.
  intros Hm H. unfold or_close in H. destruct (m p) as [[e|a] p1] eqn:Em; apply Hm in Em; unfold traceless in Em.
  - rewrite act_run in H. injection H as <- <-. cbn. by rewrite Em.
  - by injection H as <- <-.
Qed.
Lemma fails_with_run e (p : Proc B) : fails_with e p = (match e with Some e => inl e | None => inr tt end, p).
Proof. by destruct e. Qed.

(** [wireServices] either leaves an open, migrated database and no loop, or none. *)
Lemma wireServices_trace cfg p r p' :
  wireServices environ factories rnd E ticks prov0 host version enf cfg p = (r, p') ->
  exists new, pr_trace p' = (pr_trace p ++ new)%list /\
  match r with
  | inl _ => new = [] \/ exists d u, new = [OpenedDB d u; ClosedDB] \/ new = [OpenedDB d u; MigratedDB; ClosedDB]
  | inr _ => exists d u, new = [OpenedDB d u; MigratedDB]
  end.
Proof.
  unfold wireServices, openStore. cbv zeta. set (d := DriverFromDSN _). set (u := if d =s "sqlite" then SQLitePath (dbc_URL (c_DB cfg)) else dbc_URL (c_DB cfg)).
  rewrite !bind_run, fails_with_run. destruct (if d =s "sqlite" then OpenSQLite E u else OpenPool E u) as [e|].
  { intros [= <- <-]. exists []. rewrite app_nil_r. auto. }
  rewrite bind_run, act_run, bind_run. unfold or_close at 1. rewrite fails_with_run.
  destruct (if d =s "sqlite" then en_MigrateSQLite E u else Migrate E u) as [e|].
  { rewrite act_run. intros [= <- <-]. exists [OpenedDB d u; ClosedDB]. cbn. rewrite <- app_assoc.
    split; [done|]. right. exists d, u. by left. }
  rewrite act_run. set (p1 := mkProc _ _ _). intros H.
  assert (pr_trace p1 = (pr_trace p ++ [OpenedDB d u; MigratedDB])%list) as Ht by (cbn; by rewrite <- app_assoc).
  clearbody p1.
  assert (forall q : Proc B, pr_trace q = (pr_trace p1 ++ [ClosedDB])%list ->
    exists new, pr_trace q = (pr_trace p ++ new)%list /\
    (new = [] \/ exists d u, new = [OpenedDB d u; ClosedDB] \/ new = [OpenedDB d u; MigratedDB; ClosedDB])) as Hfail.
  { intros q Hq. exists [OpenedDB d u; MigratedDB; ClosedDB]. rewrite Hq, Ht, <- app_assoc. split; [done|].
    right. exists d, u. by right. }
  rewrite bind_run in H. destruct (or_close (on_files _) p1) as [[e|kek] p2] eqn:E2;
    apply or_close_run in E2; [injection H as <- <-; auto|apply traceless_files| |apply traceless_files].
  rewrite bind_run in H. destruct (or_close (of_result _) p2) as [[e|kek'] p3] eqn:E3;
    apply or_close_run in E3; [injection H as <- <-; rewrite E2 in E3; auto|apply traceless_result| |apply traceless_result].
  rewrite bind_run in H. destruct (or_close (on_world _) p3) as [[e|prov] p4] eqn:E4;
    apply or_close_run in E4; [injection H as <- <-; rewrite E3, E2 in E4; auto|apply traceless_world| |apply traceless_world].
  injection H as <- <-. exists [OpenedDB d u; MigratedDB]. rewrite E4, E3, E2. eauto.
Qed.

(** The services run the billing loop exactly if a processor is wired. *)
Lemma wireServices_billing cfg p s p' :
  wireServices environ factories rnd E ticks prov0 host version enf cfg p = (inr s, p') ->
  s_BillingEnabled s = bl_Enabled (billing_provider environ enf).
Proof.
  unfold wireServices. intros H. run_simpl. unfold wire. by destruct (enf_AuthzFactory enf).
Qed.

(** What a failed start leaves of the database: it was not opened, or closed again. *)
Definition let_go (t : list Act) : Prop :=
  t = [] \/ exists d u, t = [OpenedDB d u; ClosedDB] \/ t = [OpenedDB d u; MigratedDB; ClosedDB].

Lemma resume_traceless s : Guar traceless (resume (ENV := ENV) s).
Proof. unfold resume. guar; apply traceless_world. Qed.

Lemma boot_run p r p' : pr_trace p = [] ->
  boot environ factories rnd E ticks prov0 host version enf p = (r, p') ->
  match r with
  | inl e => let_go (pr_trace p') /\
      (forall cfg e', Load environ = inr cfg -> edition_gate (enf_Edition enf) cfg = Some e' ->
         e = e' /\ pr_trace p' = [])
  | inr (cfg, s) => Load environ = inr cfg /\ edition_gate (enf_Edition enf) cfg = None /\
      match s with
      | None => (dbc_URL (c_DB cfg) =s "") = true /\ pr_trace p' = []
      | Some s => (dbc_URL (c_DB cfg) =s "") = false /\
          s_BillingEnabled s = bl_Enabled (billing_provider environ enf) /\
          exists d u, pr_trace p' = [OpenedDB d u; MigratedDB]
      end
  end.
Proof.
  intros Ht. unfold boot. rewrite bind_run. destruct (Load environ) as [e|cfg] eqn:Hload; cbn [of_result].
  { intros [= <- <-]. split; [by left|done]. }
  unfold ret at 1. rewrite bind_run, fails_with_run.
  destruct (edition_gate (enf_Edition enf) cfg) as [e|] eqn:Hgate.
  { intros [= <- <-]. split; [by left|]. intros ?? [= <-]. rewrite Hgate. by intros [= <-]. }
  destruct (dbc_URL (c_DB cfg) =s "") eqn:Hurl.
  { intros [= <- <-]. done. }
  rewrite bind_run. destruct (wireServices _ _ _ _ _ _ _ _ _ cfg p) as [[e|s] p1] eqn:Hw;
    pose proof Hw as Hw'; apply wireServices_trace in Hw as (new & Hn & Hw); rewrite Ht in Hn; cbn in Hn.
  { intros [= <- <-]. rewrite Hn. split; [exact Hw|]. intros ?? [= <-]. by rewrite Hgate. }
  rewrite bind_run. destruct (resume s p1) as [[e|[]] p2] eqn:Hr;
    pose proof (resume_traceless s _ _ _ Hr) as Ht2; unfold traceless in Ht2.
  { exfalso. unfold resume in Hr. rewrite bind_run, attempt_run in Hr. destruct (on_world _ _).
    rewrite bind_run, attempt_run in Hr. by destruct (on_world _ _). }
  intros [= <- <-]. rewrite Ht2, Hn. by apply wireServices_billing in Hw'.
Qed.

Abbreviation run := (RunServer environ factories rnd E certificate ticks prov0 host version enf).

(** C35: the process releases what it took, in every interleaving of its goroutines,
    requests and the signal ([evs]).  A start that fails - an invalid configuration, an
    edition that refuses SQLite, any failure while the database is opened, migrated or
    provisioned - leaves no database open, and a refused edition opens none.  Otherwise
    the process runs on a migrated database, if one is configured, and at every moment:
    it listens only in the way [serveWithTLS] makes of the loaded configuration; a
    background loop has ended only if the signal came or the process is stopping, or
    it is the billing loop and billing is off; the database has been closed exactly once
    if the main goroutine has returned and not at all before, and by then all loops
    have ended; a return without an error was preceded by the signal, and no request
    was left (with an error - a failed listener or a shutdown that timed out -
    requests may still be served when the database is closed).  And the process can
    always come to its end: after a signal it returns once the loops have, at the
    latest when the shutdown times out. *)
Theorem server_releases evs p r p'
    (Ht : pr_trace p = []) (Hrun : run evs p = (r, p')) :
  match r with
  | inl e => let_go (pr_trace p') /\
      (forall cfg e', Load environ = inr cfg -> edition_gate (enf_Edition enf) cfg = Some e' ->
         e = e' /\ pr_trace p' = [])
  | inr st => exists cfg, Load environ = inr cfg /\
      edition_gate (enf_Edition enf) cfg = None /\
      let api := negb (dbc_URL (c_DB cfg) =s "") in
      (if api then exists d u, pr_trace p' = [OpenedDB d u; MigratedDB] else pr_trace p' = []) /\
      orderly (serveWithTLS certificate (http_TLS (c_HTTP cfg)))
        (bl_Enabled (billing_provider environ enf)) api evs st /\
      exists st' x, run (evs ++ ending) p = (inr st', p') /\ lf_main st' = Returned x
  end.
Proof.
  unfold RunServer in Hrun. rewrite bind_run in Hrun.
  destruct (boot _ _ _ _ _ _ _ _ _ p) as [[e|[cfg s]] p1] eqn:Hb.
  { apply boot_run in Hb; [|done]. injection Hrun as <- <-. exact Hb. }
  pose proof Hb as Hb'. apply boot_run in Hb as (Hload & Hgate & Hs); [|done]. unfold ret in Hrun.
  injection Hrun as <- <-. exists cfg. split; [done|]. split; [done|]. cbv zeta.
  assert (negb (dbc_URL (c_DB cfg) =s "") = match s with Some _ => true | None => false end) as ->
    by (destruct s; by destruct Hs as [-> _]).
  split; [destruct s; [by destruct Hs as (_ & _ & Hs)|by destruct Hs]|].
  split.
  { destruct s as [s|]; [destruct Hs as (_ & <- & _); apply life_run|].
    eapply orderly_health, life_run. }
  destruct (can_return (serveWithTLS certificate (http_TLS (c_HTTP cfg)))
    (match s with Some s => s_BillingEnabled s | None => false end)
    (match s with Some _ => true | None => false end) evs) as (x & Hx).
  eexists _, x. split; [|exact Hx]. unfold RunServer. rewrite bind_run, Hb'.
  unfold run_events. by rewrite foldl_app.
Qed.

(** The services a start wires keep the promise the registry relies on: with a random
    source that fills its buffers, a sealed secret opens to itself. *)
Lemma wire_sealer kek cfg prov :
  s_SealerOpen (wire environ factories (sealer_open kek) (sealer_seal rnd kek) cfg version enf host prov)
    = sealer_open kek /\
  s_SealerSeal (wire environ factories (sealer_open kek) (sealer_seal rnd kek) cfg version enf host prov)
    = sealer_seal rnd kek.
Proof.
  unfold wire, WithEnforcers. by destruct (enf_AuthzFactory enf), (enf_Authz enf), (enf_Ent enf).
Qed.

Lemma wireServices_sealer_ok cfg p s p' :
  (forall i n b, rnd i n = Some b -> String.length b = n) ->
  wireServices environ factories rnd E ticks prov0 host version enf cfg p = (inr s, p') -> sealer_ok s.
Proof.
  intros Hrnd. unfold wireServices. intros H. run_simpl.
  match goal with |- sealer_ok (wire _ _ (sealer_open ?k) _ ?c _ _ _ ?v) =>
    destruct (wire_sealer k c v) as [Ho Hs]; intros n q blob _ end.
  rewrite Ho, Hs. unfold sealer_open, sealer_seal. 
  destruct (Envelope.Seal _ _ _ _ _) as [r j] eqn:Er. cbn [fst]. intros ->.
  apply (Envelope.Seal_then_Open _ _ _ _ _ _ _ Hrnd) in Er as [Ho' Hl]. split; [|exact Ho'].
  intros ->. cbn in Hl. lia.
Qed.
End Proofs.

(** The process exits with status 0 only after a signal, with no request left. *)
Lemma main_exit {ENV : Env} {B} `{!GarageServer B} environ factories rnd E certificate
  ticks prov0 host version evs (p p' : Proc B) : pr_trace p = [] ->
  main environ factories rnd E certificate ticks prov0 host version evs p = (Some 0%Z, p') ->
  Signal ∈ evs.
Proof.
  intros Ht. unfold main, RunServer. rewrite bind_run.
  destruct (boot _ _ _ _ _ _ _ _ _ p) as [[e|[cfg s]] q] eqn:Hb; [done|]. cbn.
  set (st := run_events _ _ _ _). intros H.
  pose proof (or_signal _ _ _ _ _ (life_run (serveWithTLS certificate (http_TLS (c_HTTP cfg)))
    (match s with Some s => s_BillingEnabled s | None => false end)
    (match s with Some _ => true | None => false end) evs)) as Hs. fold st in Hs.
  by destruct (lf_main st) as [| | |[|]].
Qed.

(** The loops end before the requests do: while the server drains, requests are served
    although no loop runs any more.  And a listener that fails takes the database away
    from the requests in flight: nothing shuts them down first. *)
Lemma requests_outlive_loops plan :
  let st := run_events (inr plan) true ([Listens; RequestStarts; Signal; SeesSignal] ++ map LoopReturns background)
              (first_life true) in
  lf_loops st = [] /\ lf_requests st = 1 /\ lf_main st = Draining /\ lf_closes st = 0.
Proof. by vm_compute. Qed.
Lemma listener_failure_cuts_requests plan :
  let st := run_events (inr plan) true
    ([Listens; RequestStarts; ListenerFails "accept"; SeesError; Stops] ++ map LoopReturns background ++ [Returns])
    (first_life true) in
  lf_main st = Returned (inl "accept") /\ lf_closes st = 1 /\ lf_requests st = 1.
Proof. by vm_compute. Qed.

(** A first run on the in-memory object store: provisioned, served, signalled. *)
Definition server_environ : gmap str str :=
  {[ "GARAGE_ADMIN_TOKEN" := "adm"; "GARAGE_RPC_SECRET" := "rpc"; "DATABASE_URL" := "file:buktio.db";
     "BUKTIO_TLS" := "self"; "BUKTIO_MASTER_KEY" := "0123456789abcdef0123456789abcdef" ]}.
Definition ex_engine : Engine :=
  mkEngine (fun _ => None) (fun _ => None) (fun _ => None) (fun _ => None) (fun _ => None) None (fun _ => None)
    None None (fun _ => ErrNoChange) (fun _ => None).
Definition ex_events : list Event :=
  [Listens; LoopReturns BillingReporter; RequestStarts; Signal; SeesSignal; LoopReturns UsageCollector;
   LoopReturns NodeReconciler; RequestEnds; Drained None; Stops; LoopReturns BackupScheduler;
   LoopReturns TenantControlLoop; Returns].
Definition ex_process : Proc MemB :=
  mkProc (mkWorld empty_db ∅ ∅ 0 []) (Secrets.mkFS ∅ ∅ 18 0 (fun _ => None)) [].
Definition server_run : (str + Life) * Proc MemB :=
  RunServer (ENV := ex_env) server_environ {[ "garage" := fun _ => inr (mem_provider caps_garage false) ]}
    (fun i n => Some (SecretProofs.zeros n)) ex_engine (mkMinting None (inr 7%Z) 0 1 (fun _ => None))
    3 (mem_provider caps_garage false) Example.ex_host "dev" no_enforcers ex_events ex_process.
Lemma server_releases_witness :
  exists st, fst server_run = inr st /\ lf_main st = Returned (inr tt) /\
    lf_loops st = [] /\ lf_closes st = 1 /\ exists cert, lf_plan st = Some (SelfSigned cert).
Proof.
  destruct (fst server_run) as [e|st] eqn:Hr; [exfalso; vm_compute in Hr; discriminate|].
  exists st. split; [done|].
  destruct (server_releases _ _ _ _ _ _ _ _ _ _ ex_events ex_process (inr st) (snd server_run) eq_refl
    (eq_trans (surjective_pairing server_run) (f_equal2 pair Hr eq_refl)))
    as (cfg & Hload & _ & _ & Ho & _).
  assert ((fun x : str + Life => match x with inr st => (lf_main st, lf_plan st) | inl _ => (Selecting, None) end)
    (fst server_run) = (Returned (inr tt), Some (SelfSigned
      (mkCertificate 7 "buktio" (0 - hour_ns) (Time.AddDate 1 0 0 1) ["localhost"] ["127.0.0.1"; "::1"])))) as Hst
    by (vm_compute; reflexivity).
  rewrite Hr in Hst. injection Hst as Hm Hp.
  split; [exact Hm|]. split; [exact (or_returned _ _ _ _ _ Ho _ Hm)|].
  split; [|eexists; exact Hp]. rewrite (or_closes _ _ _ _ _ Ho), Hm.
  vm_compute in Hload. injection Hload as <-. reflexivity.
Defined.
